(* ===== verification/_CoqProject ===== *)
-Q . S2P
Prelude.v
CString.v
Mmu.v
Kalloc.v
Pipe.v
Spinlock.v
Proc.v
ProcInv.v
Vm.v
VmSpec.v
VmThm.v
VmCopy.v
VmSpace.v
VmSetup.v
VmLoad.v
VmFork.v
Sleeplock.v
Cache.v
Bio.v
BioSpec.v
Log.v
LogSpec.v
LogRes.v
Fs.v
FsSpec.v
FsFile.v
FsRw.v
FsThm.v
FsDir.v
FsDemo.v
FsAtomic.v
Grep.v
Printf.v
Sh.v
ShSpec.v
ShThm.v
ShRun.v
ShEdit.v
File.v
Sysfile.v
FileArgs.v
FileInv.v
FileOps.v
FileThm.v
FileClaims.v
FileDemo.v
Console.v
ConsoleThm.v
ConsoleTty.v
Kbd.v
Umalloc.v
UmallocSpec.v
UmallocFree.v
UmallocThm.v
Mkfs.v
MkfsSpec.v
MkfsFile.v
MkfsThm.v
MkfsClaims.v
MkfsNames.v
Ide.v
IdeThm.v
IdeClaims.v
Exec.v
ExecThm.v
ExecClaims.v
Dcc.v
DccThm.v
DccClaims.v
ExecDcc.v
Mp.v
MpThm.v
Boot.v
Trap.v
TrapThm.v
TrapSleep.v
Tools.v
ToolsThm.v
Rtc.v
