(* ===== verification/Prelude.v ===== *)
(** * A verification of Ducko.UNIX

    Ducko.UNIX is a small Unix for 32-bit x86 in the line of xv6. This library models its
    kernel and some of its user programs and proves the properties that make them
    correct. Source names are relative to [src/].

    ** Parts and files

    Every model file is followed by the files that hold its theorems.

    - Prelude.v: 8-, 16- and 32-bit integers with their wrap-around, the state and outcome
      monad [M] in which the kernel code is written, the weakest precondition [wp], lemmas
      on lists, little-endian words and reachable states. An operation returns ([Ret]),
      calls [panic] ([Panic]), goes to sleep ([Block]), dereferences what is not there
      ([Fault]) or runs out of the fuel of a loop ([NoFuel]). [wp] excludes [Fault] and
      [NoFuel], so a [wp] theorem is also a proof of termination.
    - CString.v: string.c, and the string functions of ulib.c.
    - Mmu.v: the macros of mmu.h and memlayout.h.
    - Kalloc.v: kalloc.c; the free list is threaded through the memory of the model.
    - Pipe.v: pipe.c; a call that sleeps is a value that is resumed.
    - Spinlock.v and Sleeplock.v: spinlock.c and sleeplock.c, with interleaving semantics.
    - Proc.v, ProcInv.v: proc.c as steps of any number of CPUs.
    - Vm.v: vm.c over the memory and free list of Kalloc.v; page directories and page tables
      are words of that memory. VmSpec.v, VmThm.v and VmCopy.v prove the walks, mapping,
      growing, shrinking and [copyout]; [aspace] relates a memory to the free pages, the
      tables and the entries of one address space. VmSpace.v, VmSetup.v and VmLoad.v prove
      [freevm], [setupkvm] and [loaduvm] for several spaces over one pool of pages, and
      VmFork.v proves [copyuvm].
    - Cache.v: the class [Cache] of the operations of a buffer cache and the class
      [CacheSpec] of their laws. Bio.v models bio.c over the memory disk memide.c and is an
      instance; BioSpec.v proves the laws. Log.v and Fs.v are written against the classes.
    - Log.v, LogSpec.v, LogRes.v: log.c; crashes are prefixes of the history of writes.
    - Fs.v, FsSpec.v, FsFile.v, FsRw.v, FsThm.v, FsDir.v, FsDemo.v, FsAtomic.v: fs.c over
      the cache and the log. FsDemo.v builds a small disk on which the theorems apply.
    - File.v, Sysfile.v: file.c, [pipealloc], syscall.c and sysfile.c over Fs.v, and the
      loops of [fork] and [exit] over descriptors. FileArgs.v, FileInv.v, FileOps.v,
      FileThm.v, FileClaims.v and FileDemo.v hold their theorems.
    - Grep.v, Printf.v: grep.c and printf.c.
    - Sh.v, ShSpec.v, ShThm.v, ShRun.v, ShEdit.v: sh.c: the parser, [runcmd] as a tree of
      processes, the line editor and the built-in cd.
    - Console.v, ConsoleThm.v, ConsoleTty.v: console.c: the screen, formatted output and the
      line discipline. Kbd.v: kbd.c and the key maps of kbd.h.
    - Umalloc.v, UmallocSpec.v, UmallocFree.v, UmallocThm.v: umalloc.c, the allocator of
      user programs, with its headers in the memory of the process.
    - Mkfs.v, MkfsSpec.v, MkfsFile.v, MkfsThm.v, MkfsClaims.v, MkfsNames.v: mkfs.c, which
      writes the image that Fs.v reads.
    - Ide.v, IdeThm.v, IdeClaims.v: ide.c over a model of the disk controller; requests and
      interrupts are steps.
    - Exec.v, ExecThm.v, ExecClaims.v: exec.c over Vm.v; [namei] and [readi] are arguments.
    - Dcc.v, DccThm.v, DccClaims.v: dcc.c, the compiler, with a small machine that runs its
      output; ExecDcc.v composes it with exec.
    - Boot.v: bootmain.c over the controller of Ide.v. Mp.v, MpThm.v: mp.c.
    - Trap.v, TrapThm.v, TrapSleep.v: trap.c and sysproc.c over Proc.v; Rtc.v: the real-time
      clock of lapic.c.
    - Tools.v, ToolsThm.v: wc.c, cat.c, calc.c and cal.c.

    ** What the theorems show

    - Crash safety: a committed transaction survives any crashes as a whole or not at all
      (LogSpec.v), and so does a write through [writei] (FsAtomic.v). The space that
      [begin_op] reserves is enough for a log of [LOGSIZE + 1] blocks, and is one block
      short for the log that mkfs lays out (LogRes.v).
    - File system: block allocation, [readi] and [writei] against the content of a file,
      directories and path elements (FsThm.v, FsDir.v).
    - Disk: what mkfs writes is a file system with the given files (MkfsNames.v); the queue
      of the disk driver implements the memory disk and serves requests in order
      (IdeClaims.v).
    - Buffer cache: the circular list implements a cache in order of use, [bread] returns
      the contents of the block (BioSpec.v).
    - Processes: the invariant of the process table over all interleavings, absence of
      the panics of proc.c, and the handshake of [exit] and [wait] (ProcInv.v). Traps keep
      the invariant, and no killed process gets back to user mode (TrapThm.v); [sleep]
      lasts as many ticks as it should (TrapSleep.v).
    - Machine start: the boot loader loads the kernel (Boot.v); the tables of the firmware
      are read back, and an unknown entry makes [mpinit] loop for ever (MpThm.v); the date
      of the real-time clock is coherent (Rtc.v).
    - Memory: the free list is a stack of pages (Kalloc.v); mapping, growing, shrinking
      and writing an address space change exactly what they should (VmCopy.v); [copyuvm]
      gives the child a copy of the parent (VmFork.v); [exec] replaces the image of a
      process by that of the file or changes nothing (ExecClaims.v).
    - Open files: reference counts are numbers of descriptors and no pipe dangles, over all
      sequences of system calls (FileClaims.v); arguments lie in user memory (FileArgs.v).
    - Locks and pipes: mutual exclusion, no lost wakeup, first in first out, and the lost
      wakeup of a killed writer (Spinlock.v, Sleeplock.v, Pipe.v).
    - Console: the input buffer refines a terminal with an edited line, from the scan codes
      of the keyboard on (ConsoleTty.v, Kbd.v); what is printed is on the screen
      (ConsoleThm.v).
    - User memory: [malloc] and [free] keep a sorted, coalesced free list over a tiling of
      the heap into blocks, and never hand out memory that is in use (UmallocThm.v).
    - User programs: the parser of the shell terminates, reads back what is printed and
      its pipelines are wired correctly; the matcher of grep decides the language of its
      pattern; printf and atoi are inverse; the output of dcc makes the calls of the
      program, with the wrong argument for [reboot] (DccClaims.v), also when [exec] has
      loaded it (ExecDcc.v); wc counts, calc evaluates from left to right and cal puts the
      days under their weekdays (ToolsThm.v).

    ** Fuel and bounds

    Loops that are not structural take fuel computed from their arguments: the length of
    the line for the parser of the shell, the number of pages for the loops of vm.c, the
    size of the process for the walks of the free list of umalloc.c, the size of a file for
    those of fs.c, the number of bytes for [iappend], of sectors for [readseg] and of
    entries for [mpinit], [NBUF + 1] links for the walks of the buffer list. Each theorem about
    such a loop shows that the fuel is enough. Parameters such as [NPROC], [NOFILE], [NBUF]
    and [LOGSIZE] have the values of param.h.

    ** Not modelled

    - Assembly and the registers of the processor and of the interrupt controllers: the .S
      files, seginit, kvmalloc and switchkvm of vm.c, tvinit and idtinit of trap.c, ioapic.c,
      picirq.c and the local APIC. A context switch is a step of Proc.v, and what they would
      do to the hardware has no counterpart in the models.
    - main.c, which calls the initialisation functions one after the other, and uart.c,
      whose output is a trace of the console.
    - The assumptions about hardware are the controller [ctl] of Ide.v, the clock of Rtc.v
      and the machine of DccClaims.v. The drivers behind [devsw] are a parameter of Fs.v.
    - The user programs that are one or two system calls (echo, kill, ln, mkdir, rm and the
      like), the listing of ls, and the test programs.
    - A system call on files is one step in FileClaims.v; the interleaving inside calls is
      modelled for the parts that have locks of their own (processes, log, pipes, locks,
      the disk driver).
*)

From stdpp Require Export base numbers list gmap strings.
From Stdlib Require Export ZArith Lia.

Open Scope Z_scope.

(** * Machine integers

    A C integer of width [w] is a [Z]; the wrap-around is written out where the
    source computes at that width. *)

Definition u8 (x : Z) : Z := x mod 2 ^ 8.
Definition u16 (x : Z) : Z := x mod 2 ^ 16.
Definition u32 (x : Z) : Z := x mod 2 ^ 32.

(** Two's complement readings of a bit pattern. *)
Definition s16 (x : Z) : Z :=
  let y := u16 x in if y <? 2 ^ 15 then y else y - 2 ^ 16.
Definition s32 (x : Z) : Z :=
  let y := u32 x in if y <? 2 ^ 31 then y else y - 2 ^ 32.

Definition byte_ok (b : Z) : Prop := 0 <= b < 256.

Lemma u32_small x : 0 <= x < 2 ^ 32 -> u32 x = x.
Proof. apply Z.mod_small. Qed.

Lemma u32_range x : 0 <= u32 x < 2 ^ 32.
Proof. apply Z.mod_pos_bound. lia. Qed.

Lemma u8_range x : 0 <= u8 x < 256.
Proof. apply (Z.mod_pos_bound x 256). lia. Qed.

Lemma u32_u32 x : u32 (u32 x) = u32 x.
Proof. unfold u32. apply Z.mod_mod. lia. Qed.

Lemma u32_add_l x y : u32 (u32 x + y) = u32 (x + y).
Proof. unfold u32. rewrite Zplus_mod_idemp_l. done. Qed.

Lemma u32_sub_l x y : u32 (u32 x - y) = u32 (x - y).
Proof. unfold u32. rewrite Zminus_mod_idemp_l. done. Qed.

Lemma s32_small x : - 2 ^ 31 <= x < 2 ^ 31 -> s32 x = x.
Proof.
  intros H. unfold s32, u32. destruct (Z.ltb_spec (x mod 2 ^ 32) (2 ^ 31)) as [L|L].
  - destruct (Z_lt_le_dec x 0).
    + rewrite <- (Z_mod_plus_full x 1 (2 ^ 32)), Z.mod_small in L by lia. lia.
    + rewrite Z.mod_small by lia. done.
  - destruct (Z_lt_le_dec x 0).
    + rewrite <- (Z_mod_plus_full x 1 (2 ^ 32)), Z.mod_small by lia. lia.
    + rewrite Z.mod_small in L by lia. lia.
Qed.

(** A byte below the bits of a word, as the code puts two of them together. *)
Lemma lor_byte hi lo : 0 <= hi -> 0 <= lo < 256 -> Z.lor (Z.shiftl hi 8) lo = hi * 256 + lo.
Proof.
  intros Hh Hl. rewrite Z.shiftl_mul_pow2 by lia. change (2 ^ 8) with 256.
  apply Z.bits_inj'. intros n Hn. rewrite Z.lor_spec. destruct (Z.ltb_spec n 8).
  - change 256 with (2 ^ 8). rewrite Z.mul_pow2_bits_low by lia.
    rewrite <- (Z.mod_pow2_bits_low (hi * 2 ^ 8 + lo) 8) by lia.
    rewrite Z.add_comm, Z.mod_add by lia. rewrite Z.mod_small by lia. done.
  - change 256 with (2 ^ 8) in *. rewrite Z.mul_pow2_bits by lia. rewrite (Z.bits_above_log2 lo).
    + rewrite orb_false_r. replace n with (n - 8 + 8) at 2 by lia. rewrite <- Z.div_pow2_bits by lia.
      by rewrite Z.add_comm, Z.div_add, Z.div_small, Z.add_0_l by lia.
    + lia.
    + destruct (Z.eq_dec lo 0) as [->|]; [cbn; lia|]. apply Z.log2_lt_pow2; [lia|].
      apply Z.lt_le_trans with (2 ^ 8); [lia|]. apply Z.pow_le_mono_r; lia.
Qed.

(** * Outcomes

    What a call of kernel code can do: return, call [panic], go to sleep, touch
    memory outside the object a pointer refers to, or (for a loop written with
    fuel) run out of it. *)

Inductive outcome (A : Type) : Type :=
| Ret (a : A)
| Panic (msg : string)
| Block
| Fault
| NoFuel.
Arguments Ret {A} a.
Arguments Panic {A} msg.
Arguments Block {A}.
Arguments Fault {A}.
Arguments NoFuel {A}.

(** State passing with outcomes. *)
Definition M (S A : Type) : Type := S -> outcome (A * S).

Definition ret {S A} (a : A) : M S A := fun s => Ret (a, s).
Definition bind {S A B} (m : M S A) (k : A -> M S B) : M S B := fun s =>
  match m s with
  | Ret (a, s') => k a s'
  | Panic e => Panic e
  | Block => Block
  | Fault => Fault
  | NoFuel => NoFuel
  end.
Definition panic {S A} (msg : string) : M S A := fun _ => Panic msg.
Definition block {S A} : M S A := fun _ => Block.
Definition fault {S A} : M S A := fun _ => Fault.
Definition gets {S A} (f : S -> A) : M S A := fun s => Ret (f s, s).
Definition modify {S} (f : S -> S) : M S unit := fun s => Ret (tt, f s).

Declare Scope kern_scope.
Delimit Scope kern_scope with kern.
Notation "'let*' x ':=' m 'in' k" := (bind m (fun x => k))
  (at level 10, x pattern, m at level 100, k at level 200) : kern_scope.
Notation "m ';;;' k" := (bind m (fun _ => k))
  (at level 199, right associativity) : kern_scope.
Open Scope kern_scope.

Lemma bind_inv {S A B} (m : M S A) (k : A -> M S B) s r :
  bind m k s = Ret r -> exists a s', m s = Ret (a, s') /\ k a s' = Ret r.
Proof. unfold bind. destruct (m s) as [[a s']| | | |]; try done. eauto. Qed.

Lemma bind_Ret {S A B} (m : M S A) (k : A -> M S B) s a s' :
  m s = Ret (a, s') -> bind m k s = k a s'.
Proof. unfold bind. by intros ->. Qed.

Lemma bind_assoc {S A B C} (m : M S A) (k : A -> M S B) (h : B -> M S C) s :
  bind (bind m k) h s = bind m (fun a => bind (k a) h) s.
Proof. unfold bind. by destruct (m s) as [[a s']| | | |]. Qed.

(** Decompose a run that returned into the runs of its parts. *)
Ltac minv :=
  repeat match goal with
  | H : bind _ _ _ = Ret _ |- _ =>
      let a := fresh "v" in let s := fresh "st" in
      let H1 := fresh "Hrun" in
      apply bind_inv in H; destruct H as (a & s & H1 & H)
  | H : ret _ _ = Ret _ |- _ => unfold ret in H; simplify_eq
  | H : gets _ _ = Ret _ |- _ => unfold gets in H; simplify_eq
  | H : modify _ _ = Ret _ |- _ => unfold modify in H; simplify_eq
  | H : panic _ _ = Ret _ |- _ => done
  | H : block _ = Ret _ |- _ => done
  | H : fault _ = Ret _ |- _ => done
  end.

(** [wp may m s Q]: run from [s], [m] returns with [Q], or panics with a message [e]
    such that [may (Some e)], or goes to sleep where [may None] allows it; it does not
    fault and does not run out of fuel. *)
Definition wp {S A} (may : option string -> Prop) (m : M S A) (s : S)
    (Q : A -> S -> Prop) : Prop :=
  match m s with
  | Ret (a, s') => Q a s'
  | Panic e => may (Some e)
  | Block => may None
  | Fault | NoFuel => False
  end.

Section wp.
Context {S : Type} (may : option string -> Prop).

Lemma wp_ret {A} (a : A) (s : S) Q : Q a s -> wp may (ret a) s Q.
Proof. done. Qed.

Lemma wp_bind {A B} (m : M S A) (k : A -> M S B) s Q :
  wp may m s (fun a s' => wp may (k a) s' Q) -> wp may (bind m k) s Q.
Proof. unfold wp, bind. by destruct (m s) as [[a s']| | | |]. Qed.

Lemma wp_gets {A} (f : S -> A) s Q : Q (f s) s -> wp may (gets f) s Q.
Proof. done. Qed.

Lemma wp_mono {A} (m : M S A) s (Q Q' : A -> S -> Prop) :
  wp may m s Q -> (forall a s', Q a s' -> Q' a s') -> wp may m s Q'.
Proof. intros H HQ. unfold wp in *. destruct (m s) as [[a s']| | | |]; auto. Qed.

Lemma wp_Ret {A} (m : M S A) s Q a s' : wp may m s Q -> m s = Ret (a, s') -> Q a s'.
Proof. unfold wp. intros H Hm. by rewrite Hm in H. Qed.
End wp.

(** Expose the first operation of a run. *)
Ltac wbind := repeat match goal with |- wp _ (bind _ _) _ _ => apply wp_bind end.
Ltac wstep :=
  wbind; match goal with
  | |- wp _ (ret _) _ _ => apply wp_ret
  | |- wp _ (gets _) _ _ => apply wp_gets; cbn beta
  end.

(** [for(i = from; i < from + n; i++) body(i)], for a bound that the body keeps. *)
Fixpoint for_up {S} (n from : nat) (body : nat -> M S unit) : M S unit :=
  match n with
  | O => ret tt
  | Datatypes.S n => body from ;;; for_up n (Datatypes.S from) body
  end.

Lemma wp_for_up {S} may (body : nat -> M S unit) (I : nat -> S -> Prop) n : forall from s,
  (forall j s, (from <= j < from + n)%nat -> I j s ->
     wp may (body j) s (fun _ s' => I (Datatypes.S j) s')) ->
  I from s -> wp may (for_up n from body) s (fun _ s' => I (from + n)%nat s').
Proof.
  induction n as [|n IH]; intros from s Hbody HI; cbn [for_up].
  - apply wp_ret. by rewrite Nat.add_0_r.
  - apply wp_bind. eapply wp_mono; [apply Hbody; [lia|done]|]. intros u s' HI'.
    replace (from + Datatypes.S n)%nat with (Datatypes.S from + n)%nat by lia.
    apply IH; [|done]. intros j s2 Hj. apply Hbody. lia.
Qed.

Lemma for_up_inv {S} (I : nat -> S -> Prop) (body : nat -> M S unit) n : forall from s r s',
  (forall j s s', (from <= j < from + n)%nat -> I j s -> body j s = Ret (tt, s') -> I (Datatypes.S j) s') ->
  I from s -> for_up n from body s = Ret (r, s') -> I (from + n)%nat s'.
Proof.
  induction n as [|n IH]; intros from s r s' Hb HI H; cbn [for_up] in H; minv.
  - by rewrite Nat.add_0_r.
  - replace (from + Datatypes.S n)%nat with (Datatypes.S from + n)%nat by lia.
    destruct v. eapply IH; [|eapply (Hb from); [lia|exact HI|exact Hrun]|exact H].
    intros j s1 s2 Hj. apply Hb. lia.
Qed.

Lemma wp_weaken {S A} (may may' : option string -> Prop) (m : M S A) s Q :
  (forall o, may o -> may' o) -> wp may m s Q -> wp may' m s Q.
Proof. intros H. unfold wp. destruct (m s) as [[a s']| | | |]; auto. Qed.

(** A run that returns. *)
Lemma wp_run {S A} may (m : M S A) s a s' (Q : A -> S -> Prop) :
  m s = Ret (a, s') -> Q a s' -> wp may m s Q.
Proof. unfold wp. by intros ->. Qed.

(** * Lists *)

(** The scan [for(p = table; p < &table[N]; p++) if(cond(p)) ...]: the index of
    the first entry that satisfies the condition. *)
Fixpoint findi {A} (p : A -> bool) (l : list A) : option nat :=
  match l with
  | [] => None
  | x :: l => if p x then Some 0%nat else S <$> findi p l
  end.

Section findi.
Context {A : Type} (p : A -> bool).
Implicit Types l : list A.

Lemma findi_Some l i :
  findi p l = Some i ->
  exists x, l !! i = Some x /\ p x = true /\
            forall j y, (j < i)%nat -> l !! j = Some y -> p y = false.
Proof.
  revert i. induction l as [|x l IH]; simpl; intros i H; [done|].
  destruct (p x) eqn:E.
  - simplify_eq. exists x. split_and!; try done. lia.
  - destruct (findi p l) as [k|] eqn:F; simplify_eq/=.
    destruct (IH k eq_refl) as (y & Hy & Py & Hl). exists y.
    split_and!; try done. intros [|j] z Hj Hz; simplify_eq/=; [done|].
    apply (Hl j); [lia|done].
Qed.

Lemma findi_None l : findi p l = None <-> forall x, x ∈ l -> p x = false.
Proof.
  induction l as [|x l IH]; simpl.
  - split; [set_solver|done].
  - destruct (p x) eqn:E; split; intros H.
    + done.
    + rewrite H in E by apply list_elem_of_here. done.
    + intros y Hy. destruct (findi p l); [done|].
      apply elem_of_cons in Hy as [->|Hy]; [done|]. by apply IH.
    + assert (findi p l = None) as ->; [|done]. apply IH.
      intros y Hy. apply H. by apply list_elem_of_further.
Qed.

Lemma findi_lookup_lt l i : findi p l = Some i -> (i < length l)%nat.
Proof.
  intros (x & Hx & _)%findi_Some. by apply lookup_lt_Some in Hx.
Qed.

Lemma findi_first l i x :
  l !! i = Some x -> p x = true ->
  (forall j y, (j < i)%nat -> l !! j = Some y -> p y = false) ->
  findi p l = Some i.
Proof.
  revert i. induction l as [|z l IH]; intros i Hi Hp Hf; [done|]. simpl.
  destruct i as [|i]; simplify_eq/=.
  - by rewrite Hp.
  - rewrite (Hf 0%nat z) by (done || lia). erewrite IH; [done|done|done|].
    intros j y Hj Hy. apply (Hf (S j)); [lia|done].
Qed.
End findi.

(** Overwrite [length d] entries of [l] from [off] on. *)
Definition splice {A} (l : list A) (off : nat) (d : list A) : list A :=
  take off l ++ d ++ drop (off + length d) l.

Section splice.
Context {A : Type}.
Implicit Types l d : list A.

Lemma length_splice l off d :
  (off + length d <= length l)%nat -> length (splice l off d) = length l.
Proof. intros H. unfold splice. rewrite !length_app, length_take, length_drop. lia. Qed.

Lemma splice_lookup_in l off d i :
  (off + length d <= length l)%nat -> (off <= i < off + length d)%nat ->
  splice l off d !! i = d !! (i - off)%nat.
Proof.
  intros H Hi. unfold splice.
  rewrite lookup_app_r by (rewrite length_take; lia).
  rewrite length_take, Nat.min_l by lia.
  by rewrite lookup_app_l by lia.
Qed.

Lemma splice_lookup_out l off d i :
  (off + length d <= length l)%nat -> (i < off \/ off + length d <= i)%nat ->
  splice l off d !! i = l !! i.
Proof.
  intros H [Hi|Hi]; unfold splice.
  - rewrite lookup_app_l by (rewrite length_take; lia). by apply lookup_take_lt.
  - rewrite lookup_app_r by (rewrite length_take; lia).
    rewrite length_take, Nat.min_l by lia.
    rewrite lookup_app_r by lia. rewrite lookup_drop. f_equal. lia.
Qed.

Lemma splice_slice l off d :
  (off + length d <= length l)%nat ->
  take (length d) (drop off (splice l off d)) = d.
Proof.
  intros H. unfold splice.
  rewrite drop_app_length' by (rewrite length_take; lia).
  by rewrite take_app_length.
Qed.

Lemma slice_splice_out l off d o n :
  (off + length d <= length l)%nat ->
  (o + n <= off \/ off + length d <= o)%nat ->
  take n (drop o (splice l off d)) = take n (drop o l).
Proof.
  intros H Ho. apply list_eq. intros i.
  destruct (decide (i < n)%nat) as [Hi|Hi].
  - rewrite !lookup_take_lt, !lookup_drop by lia.
    apply splice_lookup_out; lia.
  - by rewrite !lookup_take_ge by lia.
Qed.
End splice.

(** * Little-endian words in byte lists *)

Fixpoint le_bytes (n : nat) (z : Z) : list Z :=
  match n with
  | O => []
  | S n => z mod 256 :: le_bytes n (z / 256)
  end.

Fixpoint le_word (l : list Z) : Z :=
  match l with
  | [] => 0
  | b :: l => b + 256 * le_word l
  end.

Lemma length_le_bytes n z : length (le_bytes n z) = n.
Proof. revert z. induction n; simpl; intros; [done|]. by rewrite IHn. Qed.

Lemma le_word_bytes n z : le_word (le_bytes n z) = z mod 256 ^ Z.of_nat n.
Proof.
  revert z. induction n as [|n IH]; intros z.
  - simpl. by rewrite Z.mod_1_r.
  - cbn [le_bytes le_word]. rewrite IH, Nat2Z.inj_succ, Z.pow_succ_r by lia.
    rewrite Z.rem_mul_r; [done|lia|]. apply Z.pow_pos_nonneg; lia.
Qed.

Lemma le_bytes_word l :
  Forall byte_ok l -> le_bytes (length l) (le_word l) = l.
Proof.
  induction 1 as [|b l [Hb1 Hb2] _ IH]; [done|]. cbn [length le_bytes le_word].
  rewrite (Z.mul_comm 256), Z_mod_plus_full, Z.mod_small by lia.
  rewrite Z.div_add, (Z.div_small b), Z.add_0_l by lia. by rewrite IH.
Qed.

Lemma le_bytes_byte n z : Forall byte_ok (le_bytes n z).
Proof.
  revert z. induction n as [|n IH]; intros z; simpl; constructor; [|done].
  unfold byte_ok. apply Z.mod_pos_bound. lia.
Qed.

Lemma le_word_range l :
  Forall byte_ok l -> 0 <= le_word l < 256 ^ Z.of_nat (length l).
Proof.
  induction 1 as [|b l [Hb1 Hb2] _ IH]; [simpl; lia|]. cbn [length le_word].
  rewrite Nat2Z.inj_succ, Z.pow_succ_r by lia. lia.
Qed.

(** 32-bit integers in a byte block. *)
Definition geti (d : list Z) (off : nat) : Z := s32 (le_word (take 4 (drop off d))).
Definition puti (d : list Z) (off : nat) (v : Z) : list Z := splice d off (le_bytes 4 v).

Lemma length_puti d off v : (off + 4 <= length d)%nat -> length (puti d off v) = length d.
Proof. intros H. apply length_splice. by rewrite length_le_bytes. Qed.

Lemma geti_puti_eq d off v :
  (off + 4 <= length d)%nat -> - 2 ^ 31 <= v < 2 ^ 31 -> geti (puti d off v) off = v.
Proof.
  intros H Hv. unfold geti, puti.
  rewrite <- (length_le_bytes 4 v) at 1. rewrite splice_slice by by rewrite length_le_bytes.
  rewrite le_word_bytes. rewrite <- (s32_small v Hv) at 2. unfold s32, u32.
  change (256 ^ Z.of_nat 4) with (2 ^ 32). by rewrite Z.mod_mod.
Qed.

Lemma geti_puti_ne d off off' v :
  (off + 4 <= length d)%nat -> (off' + 4 <= off \/ off + 4 <= off')%nat ->
  geti (puti d off v) off' = geti d off'.
Proof.
  intros H Ho. unfold geti, puti. by rewrite slice_splice_out by (rewrite length_le_bytes; lia).
Qed.

(** Unsigned [n]-byte fields. *)
Definition getn (n : nat) (d : list Z) (off : nat) : Z :=
  le_word (take n (drop off d)) mod 256 ^ Z.of_nat n.
Definition putn (n : nat) (d : list Z) (off : nat) (v : Z) : list Z :=
  splice d off (le_bytes n v).

Lemma length_putn n d off v : (off + n <= length d)%nat -> length (putn n d off v) = length d.
Proof. intros H. apply length_splice. by rewrite length_le_bytes. Qed.

Lemma getn_range n d off : 0 <= getn n d off < 256 ^ Z.of_nat n.
Proof. unfold getn. apply Z.mod_pos_bound. apply Z.pow_pos_nonneg; lia. Qed.

Lemma getn_putn_eq n d off v :
  (off + n <= length d)%nat -> getn n (putn n d off v) off = v mod 256 ^ Z.of_nat n.
Proof.
  intros H. unfold getn, putn. rewrite <- (length_le_bytes n v) at 1.
  rewrite splice_slice by by rewrite length_le_bytes.
  rewrite le_word_bytes. apply Z.mod_mod. apply Z.pow_nonzero; lia.
Qed.

Lemma getn_putn_ne n m d off off' v :
  (off + n <= length d)%nat -> (off' + m <= off \/ off + n <= off')%nat ->
  getn m (putn n d off v) off' = getn m d off'.
Proof.
  intros H Ho. unfold getn, putn. by rewrite slice_splice_out by (rewrite length_le_bytes; lia).
Qed.

(** * Reachability *)

(** States reachable by a step relation from an initial state. *)
Inductive reachable {S} (init : S -> Prop) (step : S -> S -> Prop) : S -> Prop :=
| reach_init s : init s -> reachable init step s
| reach_step s s' : reachable init step s -> step s s' -> reachable init step s'.

Lemma reachable_invariant {S} (init : S -> Prop) step (I : S -> Prop) :
  (forall s, init s -> I s) ->
  (forall s s', I s -> step s s' -> I s') ->
  forall s, reachable init step s -> I s.
Proof. intros Hi Hs s. induction 1; eauto. Qed.

(** * Automation *)

Create HintDb xv6.
Create Rewrite HintDb xv6.
#[export] Hint Resolve u32_range u8_range le_bytes_byte : xv6.
#[export] Hint Rewrite @length_insert @length_app @length_take @length_drop
  @length_replicate length_le_bytes @length_fmap : xv6.

(** Split boolean conditions of the source in hypotheses. *)
Ltac bsplit :=
  repeat match goal with
  | H : (_ && _) = true |- _ => apply andb_true_iff in H as [? ?]
  | H : (_ || _) = false |- _ => apply orb_false_iff in H as [? ?]
  | H : negb _ = true |- _ => apply negb_true_iff in H
  | H : negb _ = false |- _ => apply negb_false_iff in H
  | H : (_ =? _)%Z = true |- _ => apply Z.eqb_eq in H
  | H : (_ =? _)%Z = false |- _ => apply Z.eqb_neq in H
  | H : (_ <? _)%Z = true |- _ => apply Z.ltb_lt in H
  | H : (_ <? _)%Z = false |- _ => apply Z.ltb_ge in H
  | H : (_ <=? _)%Z = true |- _ => apply Z.leb_le in H
  | H : (_ <=? _)%Z = false |- _ => apply Z.leb_gt in H
  | H : (_ =? _)%nat = true |- _ => apply Nat.eqb_eq in H
  | H : (_ =? _)%nat = false |- _ => apply Nat.eqb_neq in H
  end.
