(* ===== verification/CString.v ===== *)
(** The string and memory routines: [string.c] of the kernel and the part of
    [ulib.c] that user programs link.

    Block operations ([memset], [memmove], [memcmp]) work on a flat byte memory,
    because the two regions can overlap. String operations take a pointer as the
    list of bytes from the pointer to the end of the object it points into; a
    result [None] is an access outside that object. *)

From S2P Require Import Prelude.

(** Flat byte memory, addresses as [Z]. *)
Definition mem : Type := Z -> Z.

Definition mupd (m : mem) (a v : Z) : mem := fun x => if x =? a then v else m x.

(** A 32-bit store, least significant byte first. *)
Definition store32 (m : mem) (a w : Z) : mem :=
  mupd (mupd (mupd (mupd m a (u8 w)) (a + 1) (u8 (Z.shiftr w 8)))
          (a + 2) (u8 (Z.shiftr w 16))) (a + 3) (u8 (Z.shiftr w 24)).

(** [rep stosb] and [rep stosl] of x86.h. *)
Fixpoint stosb (m : mem) (addr data : Z) (cnt : nat) : mem :=
  match cnt with
  | O => m
  | S cnt => stosb (mupd m addr (u8 data)) (addr + 1) data cnt
  end.

Fixpoint stosl (m : mem) (addr data : Z) (cnt : nat) : mem :=
  match cnt with
  | O => m
  | S cnt => stosl (store32 m addr data) (addr + 4) data cnt
  end.

Module Kernel.

Definition memset (m : mem) (dst c n : Z) : mem :=
  if (Z.rem (s32 dst) 4 =? 0) && (n mod 4 =? 0) then
    let c := Z.land c 255 in
    let w := Z.lor (Z.lor (Z.lor (Z.shiftl c 24) (Z.shiftl c 16)) (Z.shiftl c 8)) c in
    stosl m dst w (Z.to_nat (n / 4))
  else stosb m dst c (Z.to_nat n).

Fixpoint memcmp (m : mem) (s1 s2 : Z) (n : nat) : Z :=
  match n with
  | O => 0
  | S n => if m s1 =? m s2 then memcmp m (s1 + 1) (s2 + 1) n else m s1 - m s2
  end.

(** [while(n-- > 0) *--d = *--s;] with [d], [s] already past the end. *)
Fixpoint copy_down (m : mem) (d s : Z) (n : nat) : mem :=
  match n with
  | O => m
  | S n => copy_down (mupd m (d - 1) (m (s - 1))) (d - 1) (s - 1) n
  end.

(** [while(n-- > 0) *d++ = *s++;] *)
Fixpoint copy_up (m : mem) (d s : Z) (n : nat) : mem :=
  match n with
  | O => m
  | S n => copy_up (mupd m d (m s)) (d + 1) (s + 1) n
  end.

Definition memmove (m : mem) (dst src n : Z) : mem :=
  if (src <? dst) && (dst <? u32 (src + n)) then
    copy_down m (dst + n) (src + n) (Z.to_nat n)
  else copy_up m dst src (Z.to_nat n).

Definition memcpy (m : mem) (dst src n : Z) : mem := memmove m dst src n.

Fixpoint strncmp_loop (p q : list Z) (n : nat) {struct n} : option Z :=
  match n with
  | O => Some 0
  | S n =>
      match p, q with
      | a :: p, b :: q =>
          if negb (a =? 0) && (a =? b) then strncmp_loop p q n else Some (u8 a - u8 b)
      | _, _ => None
      end
  end.

Definition strncmp (p q : list Z) (n : Z) : option Z := strncmp_loop p q (Z.to_nat n).

(** [while(n-- > 0) *s++ = 0;] *)
Fixpoint strncpy_pad (s : list Z) (n : nat) {struct n} : option (list Z) :=
  match n with
  | O => Some s
  | S n => match s with
           | [] => None
           | _ :: s => s' ← strncpy_pad s n; Some (0 :: s')
           end
  end.

(** [while(n-- > 0 && ( *s++ = *t++) != 0);] and then the padding loop. *)
Fixpoint strncpy_loop (s t : list Z) (n : nat) {struct n} : option (list Z) :=
  match n with
  | O => Some s
  | S n =>
      match s, t with
      | _ :: s, c :: t =>
          s' ← (if c =? 0 then strncpy_pad s n else strncpy_loop s t n); Some (c :: s')
      | _, _ => None
      end
  end.

(** The object [s] points into after the call. *)
Definition strncpy (s t : list Z) (n : Z) : option (list Z) :=
  strncpy_loop s t (Z.to_nat n).

Definition set_head (s : list Z) (c : Z) : option (list Z) :=
  match s with [] => None | _ :: s => Some (c :: s) end.

(** [while(--n > 0 && ( *s++ = *t++) != 0);  *s = 0;] with [n] the number of
    bytes still copied before the terminator. *)
Fixpoint safestrcpy_loop (s t : list Z) (n : nat) {struct n} : option (list Z) :=
  match n with
  | O => set_head s 0
  | S n =>
      match s, t with
      | _ :: s, c :: t =>
          s' ← (if c =? 0 then set_head s 0 else safestrcpy_loop s t n); Some (c :: s')
      | _, _ => None
      end
  end.

Definition safestrcpy (s t : list Z) (n : Z) : option (list Z) :=
  if n <=? 0 then Some s else safestrcpy_loop s t (Z.to_nat (n - 1)).

Fixpoint strlen (s : list Z) : option Z :=
  match s with
  | [] => None
  | c :: s => if c =? 0 then Some 0 else n ← strlen s; Some (n + 1)
  end.

End Kernel.

Module User.

Fixpoint strcpy (s t : list Z) : option (list Z) :=
  match s, t with
  | _ :: s, c :: t => if c =? 0 then Some (c :: s) else s' ← strcpy s t; Some (c :: s')
  | _, _ => None
  end.

Fixpoint strcmp (p q : list Z) : option Z :=
  match p, q with
  | a :: p, b :: q =>
      if negb (a =? 0) && (a =? b) then strcmp p q else Some (u8 a - u8 b)
  | _, _ => None
  end.

Fixpoint strlen (s : list Z) : option Z :=
  match s with
  | [] => None
  | c :: s => if c =? 0 then Some 0 else n ← strlen s; Some (n + 1)
  end.

(** The result pointer as an index into [s]; the outer [None] is a scan past the
    end of the object, the inner one the null pointer. *)
Fixpoint strchr (s : list Z) (c : Z) : option (option nat) :=
  match s with
  | [] => None
  | x :: s =>
      if x =? 0 then Some None
      else if x =? c then Some (Some 0%nat)
      else r ← strchr s c; Some (option_map S r)
  end.

Definition isdigit (c : Z) : bool := (48 <=? c) && (c <=? 57).

(** [n = n*10 + *s++ - '0'] at the width of [int]. *)
Fixpoint atoi_loop (s : list Z) (n : Z) : option Z :=
  match s with
  | [] => None
  | c :: s => if isdigit c then atoi_loop s (s32 (n * 10 + c - 48)) else Some n
  end.

Definition atoi (s : list Z) : option Z := atoi_loop s 0.

(** [gets] on an input stream in which each [read(0, &c, 1)] takes one byte and
    the end of the list is end of file; the bytes stored (terminator included)
    and the input left. *)
Fixpoint gets_loop (input : list Z) (i max : Z) : list Z * list Z :=
  match input with
  | [] => ([0], [])
  | c :: input' =>
      if i + 1 <? max then
        if (c =? 10) || (c =? 13) then ([c; 0], input')
        else let '(b, r) := gets_loop input' (i + 1) max in (c :: b, r)
      else ([0], input)
  end.

Definition gets (input : list Z) (max : Z) : list Z * list Z := gets_loop input 0 max.

(** The user-level [memmove] copies upwards whatever the regions. *)
Definition memmove (m : mem) (dst src n : Z) : mem :=
  Kernel.copy_up m dst src (Z.to_nat n).

Definition memset (m : mem) (dst c n : Z) : mem := stosb m dst c (Z.to_nat n).

End User.

(** * Block operations *)

Lemma mupd_eq m a v x : x = a -> mupd m a v x = v.
Proof. intros ->. unfold mupd. by rewrite Z.eqb_refl. Qed.

Lemma mupd_ne m a v x : x <> a -> mupd m a v x = m x.
Proof. intros H. unfold mupd. by rewrite (proj2 (Z.eqb_neq _ _) H). Qed.

Lemma copy_up_lookup n : forall m d s x,
  ~ (s < d < s + Z.of_nat n) ->
  Kernel.copy_up m d s n x =
    if (d <=? x) && (x <? d + Z.of_nat n) then m (s + (x - d)) else m x.
Proof.
  induction n as [|n IH]; intros m d s x H; cbn [Kernel.copy_up].
  - destruct (Z.leb_spec d x), (Z.ltb_spec x (d + Z.of_nat 0)); simpl; try done; lia.
  - rewrite IH by lia.
    destruct (Z.leb_spec (d + 1) x), (Z.ltb_spec x (d + 1 + Z.of_nat n)),
      (Z.leb_spec d x), (Z.ltb_spec x (d + Z.of_nat (S n))); simpl; try lia.
    + rewrite mupd_ne by lia. f_equal. lia.
    + rewrite mupd_ne by lia. done.
    + rewrite mupd_eq by lia. f_equal. lia.
    + rewrite mupd_ne by lia. done.
Qed.

Lemma copy_down_lookup n : forall m d s x,
  s <= d ->
  Kernel.copy_down m d s n x =
    if (d - Z.of_nat n <=? x) && (x <? d) then m (s + (x - d)) else m x.
Proof.
  induction n as [|n IH]; intros m d s x H; cbn [Kernel.copy_down].
  - destruct (Z.leb_spec (d - Z.of_nat 0) x), (Z.ltb_spec x d); simpl; try done; lia.
  - rewrite IH by lia.
    destruct (Z.leb_spec (d - 1 - Z.of_nat n) x), (Z.ltb_spec x (d - 1)),
      (Z.leb_spec (d - Z.of_nat (S n)) x), (Z.ltb_spec x d); simpl; try lia.
    + rewrite mupd_ne by lia. f_equal. lia.
    + rewrite mupd_eq by lia. f_equal. lia.
    + rewrite mupd_ne by lia. done.
    + rewrite mupd_ne by lia. done.
Qed.

Lemma memmove_lookup m dst src n x :
  0 <= src -> 0 <= dst -> 0 <= n -> src + n < 2 ^ 32 ->
  Kernel.memmove m dst src n x =
    if (dst <=? x) && (x <? dst + n) then m (src + (x - dst)) else m x.
Proof.
  intros Hs Hd Hn Hb. unfold Kernel.memmove. rewrite u32_small by lia.
  destruct ((src <? dst) && (dst <? src + n)) eqn:E; bsplit.
  - rewrite copy_down_lookup by lia. rewrite Z2Nat.id by lia.
    replace (dst + n - n) with dst by lia.
    replace (src + n + (x - (dst + n))) with (src + (x - dst)) by lia. done.
  - apply andb_false_iff in E. rewrite copy_up_lookup.
    + by rewrite Z2Nat.id by lia.
    + destruct E; bsplit; lia.
Qed.

(** Kernel [memmove] copies the [n] bytes that [src] held before the call,
    byte for byte, whether or not the two regions overlap, and changes nothing
    outside the destination. *)
Theorem memmove_spec m dst src n x :
  0 <= src -> 0 <= dst -> 0 <= n -> src + n < 2 ^ 32 ->
  Kernel.memmove m dst src n x =
    if (dst <=? x) && (x <? dst + n) then m (src + (x - dst)) else m x.
Proof. apply memmove_lookup. Qed.

Lemma memmove_spec_witness :
  Kernel.memmove (fun a => a) 12 10 5 14 = 12.
Proof. rewrite (memmove_spec (fun a => a) 12 10 5 14); [reflexivity|lia..]. Defined.

Lemma stosb_lookup n : forall m a c x,
  stosb m a c n x = if (a <=? x) && (x <? a + Z.of_nat n) then u8 c else m x.
Proof.
  induction n as [|n IH]; intros m a c x; cbn [stosb].
  - destruct (Z.leb_spec a x), (Z.ltb_spec x (a + Z.of_nat 0)); simpl; try done; lia.
  - rewrite IH. destruct (Z.leb_spec (a + 1) x), (Z.ltb_spec x (a + 1 + Z.of_nat n)),
      (Z.leb_spec a x), (Z.ltb_spec x (a + Z.of_nat (S n))); simpl; try lia; try done.
    + rewrite mupd_ne by lia. done.
    + by rewrite mupd_eq by lia.
    + rewrite mupd_ne by lia. done.
Qed.

Lemma stosl_lookup n : forall m a w c x,
  u8 w = c -> u8 (Z.shiftr w 8) = c -> u8 (Z.shiftr w 16) = c -> u8 (Z.shiftr w 24) = c ->
  stosl m a w n x = if (a <=? x) && (x <? a + 4 * Z.of_nat n) then c else m x.
Proof.
  induction n as [|n IH]; intros m a w c x H0 H1 H2 H3; cbn [stosl].
  - destruct (Z.leb_spec a x), (Z.ltb_spec x (a + 4 * Z.of_nat 0)); simpl; try done; lia.
  - rewrite (IH _ _ _ c) by done. unfold store32. rewrite H0, H1, H2, H3.
    destruct (Z.leb_spec (a + 4) x), (Z.ltb_spec x (a + 4 + 4 * Z.of_nat n)),
      (Z.leb_spec a x), (Z.ltb_spec x (a + 4 * Z.of_nat (S n))); simpl; try lia; try done.
    all: unfold mupd; repeat case_match; bsplit; try lia; done.
Qed.

(** The word that [memset] hands to [stosl] has the byte in all four places. *)
Lemma memset_pattern c :
  let b := Z.land c 255 in
  let w := Z.lor (Z.lor (Z.lor (Z.shiftl b 24) (Z.shiftl b 16)) (Z.shiftl b 8)) b in
  u8 w = u8 c /\ u8 (Z.shiftr w 8) = u8 c /\ u8 (Z.shiftr w 16) = u8 c /\
  u8 (Z.shiftr w 24) = u8 c.
Proof.
  assert (Hb : Z.land c 255 = u8 c).
  { change 255 with (Z.ones 8). apply Z.land_ones. lia. }
  cbv zeta. rewrite Hb. pose proof (u8_range c) as Hr. set (b := u8 c) in *.
  assert (b ∈ (Z.of_nat <$> seq 0 256)) as Hin.
  { apply list_elem_of_fmap. exists (Z.to_nat b). split; [lia|].
    apply elem_of_seq. lia. }
  clearbody b. clear Hb Hr. revert b Hin. apply Forall_forall.
  apply (bool_decide_unpack _). vm_compute. exact I.
Qed.

(** [memset] fills exactly the [n] bytes at [dst] with the low byte of [c]:
    the word-at-a-time path and the byte-at-a-time path agree. *)
Theorem memset_spec m dst c n x :
  0 <= n ->
  Kernel.memset m dst c n x =
    if (dst <=? x) && (x <? dst + n) then u8 c else m x.
Proof.
  intros Hn. unfold Kernel.memset.
  destruct ((Z.rem (s32 dst) 4 =? 0) && (n mod 4 =? 0)) eqn:E; bsplit.
  - destruct (memset_pattern c) as (P0 & P1 & P2 & P3).
    rewrite (stosl_lookup _ _ _ _ (u8 c)) by assumption.
    rewrite Z2Nat.id by (apply Z.div_pos; lia).
    replace (4 * (n / 4)) with n by (pose proof (Z.div_mod n 4); lia). done.
  - rewrite stosb_lookup. by rewrite Z2Nat.id by lia.
Qed.

Lemma memset_spec_witness : Kernel.memset (fun _ => 7) 8 0x101 4 11 = 1.
Proof. rewrite (memset_spec (fun _ => 7) 8 0x101 4 11); [reflexivity|lia]. Defined.

Lemma copy_up_below n : forall m d s x, x < d -> Kernel.copy_up m d s n x = m x.
Proof.
  induction n as [|n IH]; intros m d s x H; [done|]. cbn [Kernel.copy_up].
  rewrite IH by lia. apply mupd_ne. lia.
Qed.

(** The user-level [memmove] agrees with the kernel's on regions where the
    destination does not start inside the source. *)
Lemma user_memmove_disjoint m dst src n x :
  0 <= n -> ~ (src < dst < src + n) ->
  User.memmove m dst src n x =
    if (dst <=? x) && (x <? dst + n) then m (src + (x - dst)) else m x.
Proof.
  intros Hn H. unfold User.memmove. rewrite copy_up_lookup; rewrite Z2Nat.id by lia; done.
Qed.

(** User-level [memmove] copies upwards only: when the destination starts one
    byte into the source it smears the first byte over the whole region, where
    the kernel's [memmove] of the same name moves the bytes. *)
Theorem user_memmove_overlap m src n x :
  0 <= src -> 0 <= n -> src + n < 2 ^ 32 -> src < x <= src + n ->
  User.memmove m (src + 1) src n x = m src /\
  Kernel.memmove m (src + 1) src n x = m (x - 1).
Proof.
  intros Hs Hn Hb Hx. split.
  - unfold User.memmove. clear Hb. rewrite <- (Z2Nat.id n) in Hx by lia.
    revert Hx. generalize (Z.to_nat n) as k. intros k. clear Hn Hs.
    revert m src x. induction k as [|k IH]; intros m src x Hx; [lia|].
    cbn [Kernel.copy_up]. destruct (decide (x = src + 1)) as [->|Hne].
    + rewrite copy_up_below by lia. by apply mupd_eq.
    + rewrite IH by lia. by apply mupd_eq.
  - rewrite memmove_spec by lia.
    destruct (Z.leb_spec (src + 1) x), (Z.ltb_spec x (src + 1 + n)); simpl; try lia.
    f_equal. lia.
Qed.

Lemma user_memmove_overlap_witness :
  User.memmove (fun a => a) 11 10 3 13 = 10 /\ Kernel.memmove (fun a => a) 11 10 3 13 = 12.
Proof. apply (user_memmove_overlap (fun a => a) 10 3 13); lia. Defined.

(** * Strings *)

(** The name held in a [char[n]] field: the bytes before the first NUL, at most [n]. *)
Fixpoint cname (n : nat) (l : list Z) : list Z :=
  match n, l with
  | S n, c :: l => if c =? 0 then [] else c :: cname n l
  | _, _ => []
  end.

(** [l] can be read as a string of at most [n] bytes: it has a NUL among them or is
    that long. *)
Fixpoint readable (n : nat) (l : list Z) : bool :=
  match n with
  | O => true
  | S n => match l with
           | [] => false
           | c :: l => (c =? 0) || readable n l
           end
  end.

Lemma u8_small b : byte_ok b -> u8 b = b.
Proof. intros H. apply (Z.mod_small b 256). exact H. Qed.

Lemma strncmp_loop_zero n : forall p q r,
  Forall byte_ok p -> Forall byte_ok q ->
  Kernel.strncmp_loop p q n = Some r -> (r = 0 <-> cname n p = cname n q).
Proof.
  induction n as [|n IH]; intros p q r Hp Hq; cbn [Kernel.strncmp_loop].
  { intros ?; simplify_eq. by split. }
  destruct p as [|a p], q as [|b q]; try done.
  inversion_clear Hp; inversion_clear Hq. rewrite !u8_small by done. cbn [cname].
  destruct (Z.eqb_spec a 0) as [->|Ha]; simpl.
  - intros ?; simplify_eq. destruct (Z.eqb_spec b 0) as [->|Hb]; [by split|].
    split; [lia|done].
  - destruct (Z.eqb_spec a b) as [->|Hab].
    + intros Hr. destruct (Z.eqb_spec b 0); [done|].
      rewrite (IH p q r) by done. split; congruence.
    + intros ?; simplify_eq. split; [lia|]. destruct (Z.eqb_spec b 0); [done|]. congruence.
Qed.

Lemma strncpy_pad_Some n : forall s, (n <= length s)%nat ->
  Kernel.strncpy_pad s n = Some (replicate n 0 ++ drop n s).
Proof.
  induction n as [|n IH]; intros [|x s] H; simpl in *; try lia; [done..|].
  by rewrite IH by lia.
Qed.

Lemma cname_replicate n l : cname n (replicate n 0 ++ l) = [].
Proof. by destruct n. Qed.

Lemma strncpy_loop_Some n : forall s t, (n <= length s)%nat -> readable n t = true ->
  exists d, Kernel.strncpy_loop s t n = Some (d ++ drop n s) /\ length d = n /\
  cname n d = cname n t /\
  (Forall byte_ok t -> Forall byte_ok d).
Proof.
  induction n as [|n IH]; intros s t Hs Ht; cbn [Kernel.strncpy_loop].
  { exists []. by destruct t. }
  destruct s as [|x s]; [simpl in *; lia|]. destruct t as [|c t]; [done|].
  cbn [readable] in Ht. cbn [cname drop]. simpl in Hs.
  destruct (Z.eqb_spec c 0) as [->|Hc]; simpl.
  - rewrite strncpy_pad_Some by lia. exists (0 :: replicate n 0). simpl.
    rewrite length_replicate. split_and!; [done..|]. intros _.
    constructor; [unfold byte_ok; lia|]. apply Forall_replicate. unfold byte_ok. lia.
  - simpl in Ht. destruct (IH s t) as (d & -> & Hl & Hn & Hb); [lia|done|].
    exists (c :: d). cbn [app cname length]. destruct (Z.eqb_spec c 0); [done|].
    rewrite Hn, Hl. split_and!; [done..|]. intros Hf; inversion_clear Hf; eauto.
Qed.

Lemma cname_app_full n d r : length d = n -> cname n (d ++ r) = cname n d.
Proof.
  revert n. induction d as [|c d IH]; intros [|n] H; simpl in *; try lia.
  - by destruct r.
  - by rewrite IH by lia.
Qed.

Lemma readable_cname n l : readable n l = true ->
  (length (cname n l) <= n)%nat /\ (length (cname n l) = n \/
    exists r, l = cname n l ++ 0 :: r).
Proof.
  revert l. induction n as [|n IH]; intros [|c l] H; simpl in *; try done.
  - split; [lia|by left].
  - split; [lia|by left].
  - destruct (Z.eqb_spec c 0) as [->|Hc]; simpl in *.
    + split; [lia|]. right. by exists l.
    + destruct (IH l H) as [H1 [H2|[r H2]]]; (split; [lia|]); [left; lia|].
      right. exists r. by rewrite H2 at 1.
Qed.

Lemma strncmp_loop_total n : forall p q,
  readable n p = true -> readable n q = true -> is_Some (Kernel.strncmp_loop p q n).
Proof.
  induction n as [|n IH]; intros p q Hp Hq; [by eexists|]. cbn [Kernel.strncmp_loop].
  destruct p as [|a p], q as [|b q]; try done. cbn [readable] in *.
  destruct (Z.eqb_spec a 0), (Z.eqb_spec a b), (Z.eqb_spec b 0); subst; simpl in *;
    try done; try (by eexists); eauto.
Qed.

Lemma readable_length n l : (n <= length l)%nat -> readable n l = true.
Proof.
  revert l. induction n as [|n IH]; intros [|c l] H; simpl in *; try done; try lia.
  rewrite IH by lia. apply orb_true_r.
Qed.

(** A directory name stored with [strncpy] into a [char[n]] field is found
    again by [strncmp]: the copy is total, fills exactly the field, and comparing
    any string with the stored bytes gives zero exactly when it has the same first
    [n] bytes as the original. *)
Theorem strncpy_strncmp_roundtrip (field t u : list Z) :
  let n := length field in
  readable n t = true -> readable n u = true ->
  Forall byte_ok t -> Forall byte_ok u ->
  exists stored r,
    Kernel.strncpy field t (Z.of_nat n) = Some stored /\ length stored = n /\
  Kernel.strncmp u stored (Z.of_nat n) = Some r /\
  (r = 0 <-> cname n u = cname n t).
Proof.
  intros n Ht Hu Bt Bu. unfold Kernel.strncpy, Kernel.strncmp. rewrite !Nat2Z.id.
  destruct (strncpy_loop_Some n field t) as (d & Hd & Hl & Hc & Hb); [done..|].
  rewrite drop_ge, app_nil_r in Hd by (subst n; lia).
  destruct (strncmp_loop_total n u d) as [r Hr]; [done|by apply readable_length; lia|].
  exists d, r. split_and!; try done. rewrite <- Hc.
  eapply strncmp_loop_zero; eauto.
Qed.

Lemma strncpy_strncmp_roundtrip_witness :
  exists stored r,
    Kernel.strncpy [9; 9; 9; 9] [97; 98; 0] 4 = Some stored /\ length stored = 4%nat /\
  Kernel.strncmp [97; 98; 0] stored 4 = Some r /\
  (r = 0 <-> cname 4 [97; 98; 0] = cname 4 [97; 98; 0]).
Proof.
  apply (strncpy_strncmp_roundtrip [9; 9; 9; 9] [97; 98; 0] [97; 98; 0]);
    try reflexivity; repeat constructor; unfold byte_ok; lia.
Defined.

Lemma safestrcpy_loop_Some n : forall s t, (n < length s)%nat -> readable n t = true ->
  exists s', Kernel.safestrcpy_loop s t n = Some s' /\ length s' = length s /\
  cname n s' = cname n t /\ readable (S n) s' = true /\
  0 ∈ take (S n) s'.
Proof.
  induction n as [|n IH]; intros s t Hs Ht; cbn [Kernel.safestrcpy_loop].
  { destruct s as [|x s]; [simpl in *; lia|]. exists (0 :: s). simpl.
    split_and!; try done; by left. }
  destruct s as [|x s]; [simpl in *; lia|]. destruct t as [|c t]; [done|].
  cbn [readable] in Ht. simpl in Hs. destruct (Z.eqb_spec c 0) as [->|Hc]; simpl in *.
  - destruct s as [|y s]; [simpl in *; lia|]. simpl. eexists. split_and!; try done.
    by left.
  - destruct (IH s t) as (s' & -> & Hl & Hn & Hr & H0); [lia|done|]. simpl.
    eexists. split; [done|]. cbn [length cname readable].
    destruct (Z.eqb_spec c 0); [done|]. rewrite Hl, Hn.
    split_and!; try done. by right.
Qed.

(** [safestrcpy] into a field of [n > 0] bytes always succeeds, never changes
    the size of the field, keeps the first [n - 1] bytes of the name, and leaves a
    NUL inside the field, which [strncpy] does not promise. *)
Theorem safestrcpy_spec (field t : list Z) :
  let n := length field in
  (0 < n)%nat -> readable (n - 1) t = true ->
  exists s', Kernel.safestrcpy field t (Z.of_nat n) = Some s' /\ length s' = n /\
  0 ∈ s' /\ cname (n - 1) s' = cname (n - 1) t.
Proof.
  intros n Hn Ht. unfold Kernel.safestrcpy.
  destruct (Z.leb_spec (Z.of_nat n) 0); [lia|].
  replace (Z.to_nat (Z.of_nat n - 1)) with (n - 1)%nat by lia.
  destruct (safestrcpy_loop_Some (n - 1) field t) as (s' & -> & Hl & Hc & _ & H0);
    [lia|done|].
  exists s'. split_and!; try done.
  rewrite take_ge in H0 by lia. done.
Qed.

Lemma safestrcpy_spec_witness :
  exists s', Kernel.safestrcpy [9; 9; 9] [97; 98; 99; 100] 3 = Some s' /\
  length s' = 3%nat /\ 0 ∈ s' /\ cname 2 s' = cname 2 [97; 98; 99; 100].
Proof. apply (safestrcpy_spec [9; 9; 9] [97; 98; 99; 100]); [simpl; lia|reflexivity]. Defined.
