(* ===== verification/Mmu.v ===== *)
(** [mmu.h] and [memlayout.h]: the constants and macros for addresses, pages and
    page-table entries, and 32-bit loads and stores on the flat memory. *)

From S2P Require Import Prelude CString.

(** * memlayout.h *)

Definition EXTMEM : Z := 0x100000.
Definition PHYSTOP : Z := 0xE000000.
Definition DEVSPACE : Z := 0xFE000000.
Definition KERNBASE : Z := 0x80000000.
Definition KERNLINK : Z := KERNBASE + EXTMEM.

Definition V2P (a : Z) : Z := u32 (a - KERNBASE).
Definition P2V (a : Z) : Z := u32 (a + KERNBASE).

(** * mmu.h *)

Definition NPDENTRIES : Z := 1024.
Definition NPTENTRIES : Z := 1024.
Definition PGSIZE : Z := 4096.
Definition PTXSHIFT : Z := 12.
Definition PDXSHIFT : Z := 22.

Definition PDX (va : Z) : Z := Z.land (Z.shiftr va PDXSHIFT) 0x3FF.
Definition PTX (va : Z) : Z := Z.land (Z.shiftr va PTXSHIFT) 0x3FF.
Definition PGADDR (d t o : Z) : Z :=
  u32 (Z.lor (Z.lor (Z.shiftl d PDXSHIFT) (Z.shiftl t PTXSHIFT)) o).

(** [& ~(PGSIZE-1)] at 32 bits. *)
Definition PGMASK : Z := u32 (Z.lnot (PGSIZE - 1)).
Definition PGROUNDUP (sz : Z) : Z := Z.land (u32 (sz + PGSIZE - 1)) PGMASK.
Definition PGROUNDDOWN (a : Z) : Z := Z.land a PGMASK.

Definition PTE_P : Z := 0x001.
Definition PTE_W : Z := 0x002.
Definition PTE_U : Z := 0x004.
Definition PTE_PS : Z := 0x080.
Definition PTE_ADDR (pte : Z) : Z := Z.land pte (u32 (Z.lnot 0xFFF)).
Definition PTE_FLAGS (pte : Z) : Z := Z.land pte 0xFFF.

Definition FL_IF : Z := 0x200.
Definition DPL_USER : Z := 3.
Definition SEG_KCODE : Z := 1.
Definition SEG_KDATA : Z := 2.
Definition SEG_UCODE : Z := 3.
Definition SEG_UDATA : Z := 4.
Definition SEG_TSS : Z := 5.

(** * Arithmetic readings of the bit operations *)

(** The mask that clears the low [k] bits of a word. *)
Lemma land_high k a : 0 <= k <= 32 -> 0 <= a < 2 ^ 32 ->
  Z.land a (Z.shiftl (Z.ones (32 - k)) k) = 2 ^ k * (a / 2 ^ k).
Proof.
  intros Hk H. transitivity (Z.shiftl (Z.shiftr a k) k).
  - apply Z.bits_inj'. intros i Hi. rewrite Z.land_spec, !Z.shiftl_spec by done.
    destruct (Z_lt_le_dec i k).
    + rewrite !(Z.testbit_neg_r _ (i - k)) by lia. apply andb_false_r.
    + rewrite Z.shiftr_spec, Z.testbit_ones_nonneg by lia.
      replace (i - k + k) with i by lia.
      destruct (Z.ltb_spec (i - k) (32 - k)); [apply andb_true_r|].
      rewrite (Z.bits_above_log2 a); [done|lia|].
      destruct (decide (a = 0)) as [->|]; [simpl; lia|].
      apply Z.log2_lt_pow2; [lia|]. apply Z.lt_le_trans with (2 ^ 32); [lia|].
      apply Z.pow_le_mono_r; lia.
  - rewrite Z.shiftl_mul_pow2, Z.shiftr_div_pow2 by lia. lia.
Qed.

Lemma land_pgmask a : 0 <= a < 2 ^ 32 -> Z.land a PGMASK = PGSIZE * (a / PGSIZE).
Proof. intros H. exact (land_high 12 a ltac:(lia) H). Qed.

Lemma PGROUNDDOWN_div a : 0 <= a < 2 ^ 32 -> PGROUNDDOWN a = PGSIZE * (a / PGSIZE).
Proof. apply land_pgmask. Qed.

Lemma PGROUNDUP_div a :
  0 <= a -> a + PGSIZE - 1 < 2 ^ 32 ->
  PGROUNDUP a = PGSIZE * ((a + PGSIZE - 1) / PGSIZE).
Proof.
  intros H1 H2. unfold PGROUNDUP. rewrite u32_small by (unfold PGSIZE in *; lia).
  apply land_pgmask. unfold PGSIZE in *. lia.
Qed.

Lemma PTE_ADDR_div a : 0 <= a < 2 ^ 32 -> PTE_ADDR a = PGSIZE * (a / PGSIZE).
Proof. apply land_pgmask. Qed.

Lemma PTE_FLAGS_mod a : PTE_FLAGS a = a mod PGSIZE.
Proof. unfold PTE_FLAGS. change 0xFFF with (Z.ones 12). by rewrite Z.land_ones by lia. Qed.

Lemma PDX_div va : 0 <= va < 2 ^ 32 -> PDX va = va / 2 ^ 22.
Proof.
  intros H. unfold PDX, PDXSHIFT. change 0x3FF with (Z.ones 10).
  rewrite Z.land_ones, Z.shiftr_div_pow2 by lia. apply Z.mod_small. split.
  - apply Z.div_pos; lia.
  - apply Z.div_lt_upper_bound; lia.
Qed.

Lemma PTX_div va : PTX va = (va / 2 ^ 12) mod 2 ^ 10.
Proof.
  unfold PTX, PTXSHIFT. change 0x3FF with (Z.ones 10).
  by rewrite Z.land_ones, Z.shiftr_div_pow2 by lia.
Qed.

Lemma PGROUNDUP_bounds a :
  0 <= a -> a + PGSIZE - 1 < 2 ^ 32 ->
  a <= PGROUNDUP a < a + PGSIZE /\ PGROUNDUP a mod PGSIZE = 0.
Proof.
  intros H1 H2. rewrite PGROUNDUP_div by done. unfold PGSIZE in *.
  pose proof (Z.div_mod (a + 4096 - 1) 4096) as E.
  pose proof (Z.mod_pos_bound (a + 4096 - 1) 4096).
  split; [lia|]. rewrite Z.mul_comm. apply Z.mod_mul. lia.
Qed.

(** * 32-bit loads *)

Definition load32 (m : mem) (a : Z) : Z := le_word [m a; m (a + 1); m (a + 2); m (a + 3)].

Lemma store32_bytes m a w :
  (store32 m a w a = u8 w) /\ store32 m a w (a + 1) = u8 (Z.shiftr w 8) /\
  store32 m a w (a + 2) = u8 (Z.shiftr w 16) /\ store32 m a w (a + 3) = u8 (Z.shiftr w 24).
Proof. unfold store32, mupd. split_and!; repeat case_match; bsplit; try lia; done. Qed.

Lemma store32_ne m a w x : x < a \/ a + 4 <= x -> store32 m a w x = m x.
Proof. intros H. unfold store32. by rewrite !mupd_ne by lia. Qed.

Lemma load32_store32_eq m a w : load32 (store32 m a w) a = u32 w.
Proof.
  unfold load32. destruct (store32_bytes m a w) as (-> & -> & -> & ->).
  rewrite !Z.shiftr_div_pow2 by lia.
  transitivity (le_word (le_bytes 4 w)).
  - cbn [le_bytes le_word]. unfold u8.
    rewrite !Z.div_div by lia. done.
  - by rewrite le_word_bytes.
Qed.

Lemma load32_ext m m' a :
  (forall x, a <= x < a + 4 -> m x = m' x) -> load32 m a = load32 m' a.
Proof. intros H. unfold load32. rewrite !H by lia. done. Qed.

Lemma load32_store32_ne m a b w :
  b + 4 <= a \/ a + 4 <= b -> load32 (store32 m a w) b = load32 m b.
Proof. intros H. apply load32_ext. intros x Hx. apply store32_ne. lia. Qed.
