(* ===== verification/Kalloc.v ===== *)
(** [kalloc.c]: the physical page allocator.

    The free list is threaded through the free pages themselves: the first word of
    a free page is the pointer to the next one. The model keeps that layout (the
    list lives in the memory) and proves that it implements a stack of pages.
    The section between [acquire] and [release] of [kmem.lock] is one step. *)

From S2P Require Import Prelude CString Mmu.

Record kmem := Kmem {
  km_use_lock : bool;
  km_freelist : Z;           (** pointer to the first free page, 0 is null *)
  km_mem : mem               (** the memory the pages live in *)
}.

Section kalloc.
(** [extern char end[]], the first address after the kernel, set by kernel.ld. *)
Variable kend : Z.

Definition kfree_bad (v : Z) : bool :=
  negb (v mod PGSIZE =? 0) || (v <? kend) || (PHYSTOP <=? V2P v).

Definition kfree (v : Z) : M kmem unit := fun s =>
  if kfree_bad v then Panic "kfree"
  else
    let m1 := Kernel.memset (km_mem s) v 1 PGSIZE in
    let m2 := store32 m1 v (km_freelist s) in
    Ret (tt, Kmem (km_use_lock s) v m2).

Definition kalloc : M kmem Z := fun s =>
  let r := km_freelist s in
  if r =? 0 then Ret (r, s)
  else Ret (r, Kmem (km_use_lock s) (load32 (km_mem s) r) (km_mem s)).

(** [for(; p + PGSIZE <= vend; p += PGSIZE) kfree(p);] *)
Fixpoint freerange_loop (fuel : nat) (p vend : Z) : M kmem unit :=
  match fuel with
  | O => fun _ => NoFuel
  | S fuel =>
      if p + PGSIZE <=? vend then kfree p ;;; freerange_loop fuel (p + PGSIZE) vend
      else ret tt
  end.

Definition freerange (vstart vend : Z) : M kmem unit :=
  let p := PGROUNDUP vstart in
  freerange_loop (S (Z.to_nat ((vend - p) / PGSIZE + 1))) p vend.

Definition kinit1 (vstart vend : Z) : M kmem unit :=
  modify (fun s => Kmem false (km_freelist s) (km_mem s)) ;;;
  freerange vstart vend.

Definition kinit2 (vstart vend : Z) : M kmem unit :=
  freerange vstart vend ;;;
  modify (fun s => Kmem true (km_freelist s) (km_mem s)).

(** * Specification: a stack of pages *)

(** [l] is the list of pages reached from the pointer [p]. *)
Fixpoint flist (m : mem) (p : Z) (l : list Z) : Prop :=
  match l with
  | [] => p = 0
  | a :: l => p = a /\ kfree_bad a = false /\ flist m (load32 m a) l
  end.

Definition kmem_rep (s : kmem) (l : list Z) : Prop :=
  flist (km_mem s) (km_freelist s) l /\ NoDup l.

Hypothesis kend_range : 0 < kend < 2 ^ 32.

Lemma good_page a : kfree_bad a = false -> 0 < a /\ a mod PGSIZE = 0.
Proof. unfold kfree_bad. intros H. bsplit. lia. Qed.

Lemma good_pages_apart a b :
  kfree_bad a = false -> kfree_bad b = false -> a <> b ->
  a + PGSIZE <= b \/ b + PGSIZE <= a.
Proof.
  intros [_ Ha]%good_page [_ Hb]%good_page Hab. unfold PGSIZE in *.
  pose proof (Z.div_mod a 4096). pose proof (Z.div_mod b 4096). lia.
Qed.

Lemma flist_bad m p l a : flist m p l -> a ∈ l -> kfree_bad a = false.
Proof.
  revert p. induction l as [|b l IH]; intros p; [set_solver|].
  intros (-> & Hb & Hl) [->|Ha]%elem_of_cons; eauto.
Qed.

(** Writes that stay inside one page leave the list of the other pages alone. *)
Lemma flist_frame m m' v p l :
  kfree_bad v = false -> v ∉ l ->
  (forall x, x < v \/ v + PGSIZE <= x -> m' x = m x) ->
  flist m p l -> flist m' p l.
Proof.
  intros Hv Hin Hm. revert p Hin. induction l as [|a l IH]; intros p Hin; [done|].
  intros (-> & Ha & Hl). apply not_elem_of_cons in Hin as [Hne Hin]. cbn [flist].
  split_and!; try done.
  rewrite (load32_ext m' m); [by apply IH|]. intros x Hx. apply Hm.
  destruct (good_pages_apart a v) as [?|?]; try done; unfold PGSIZE in *; lia.
Qed.

Lemma kfree_mem m v w x :
  x < v \/ v + PGSIZE <= x -> store32 (Kernel.memset m v 1 PGSIZE) v w x = m x.
Proof.
  intros H. rewrite store32_ne by (unfold PGSIZE in *; lia).
  rewrite memset_spec by (unfold PGSIZE; lia).
  destruct (Z.leb_spec v x), (Z.ltb_spec x (v + PGSIZE)); simpl; done || lia.
Qed.

Lemma flist_head_range s l : kmem_rep s l -> km_freelist s = 0 \/ km_freelist s ∈ l.
Proof. intros [Hf _]. destruct l as [|a l]; [by left|]. destruct Hf as [-> _]. right. by left. Qed.

Definition page_in_memory (a : Z) : Prop := 0 <= a < 2 ^ 32.

Lemma kfree_push s l v :
  kmem_rep s l -> Forall page_in_memory l -> kfree_bad v = false -> v ∉ l ->
  exists s', kfree v s = Ret (tt, s') /\ kmem_rep s' (v :: l) /\
    km_use_lock s' = km_use_lock s /\
    (forall x, x < v \/ v + PGSIZE <= x -> km_mem s' x = km_mem s x).
Proof.
  intros [Hf Hn] Hm Hv Hin. unfold kfree. rewrite Hv.
  eexists. split_and!; [done| |done|].
  - split; [|by apply NoDup_cons]. cbn [flist km_mem km_freelist]. split_and!; [done..|].
    rewrite load32_store32_eq, u32_small.
    + eapply flist_frame; [exact Hv|exact Hin| |exact Hf]. intros x Hx.
      by apply kfree_mem.
    + destruct (flist_head_range s l) as [->|Hh]; [by split|lia|].
      rewrite Forall_forall in Hm. apply (Hm _ Hh).
  - intros x Hx. by apply kfree_mem.
Qed.

Lemma kalloc_pop s a l :
  kmem_rep s (a :: l) ->
  exists s', kalloc s = Ret (a, s') /\ kmem_rep s' l /\ a <> 0 /\ (a ∉ l) /\
    km_mem s' = km_mem s.
Proof.
  intros [(Ha & Hg & Hl) Hn]. apply NoDup_cons in Hn as [Hna Hn].
  pose proof (good_page _ Hg) as [Hp _]. unfold kalloc. rewrite Ha.
  destruct (Z.eqb_spec a 0); [lia|]. eexists. split_and!; try done.
Qed.

(** C38. The allocator implements a stack of distinct pages: [kalloc] pops it and
    returns null exactly when it is empty; [kfree] of a page that is aligned, above
    the kernel and below PHYSTOP, and not already free, pushes it and touches no
    other page; any other argument of [kfree] panics. *)
Theorem kmem_refines_stack s l :
  kmem_rep s l -> Forall page_in_memory l ->
  (match l with
   | [] => kalloc s = Ret (0, s)
   | a :: l' => exists s', kalloc s = Ret (a, s') /\ kmem_rep s' l' /\ a <> 0 /\ (a ∉ l') /\
                  km_mem s' = km_mem s
   end) /\
  (forall v, kfree_bad v = false -> v ∉ l ->
     exists s', kfree v s = Ret (tt, s') /\ kmem_rep s' (v :: l) /\
       km_use_lock s' = km_use_lock s /\
       (forall x, x < v \/ v + PGSIZE <= x -> km_mem s' x = km_mem s x)) /\
  (forall v, kfree_bad v = true -> kfree v s = Panic "kfree").
Proof.
  intros Hrep Hm. split_and!.
  - destruct l as [|a l]; [|by apply kalloc_pop].
    destruct Hrep as [Hf _]. unfold kalloc. cbn in Hf. by rewrite Hf.
  - intros v Hv Hin. by apply kfree_push.
  - intros v Hv. unfold kfree. by rewrite Hv.
Qed.

(** The pages [freerange] pushes, last one on top. *)
Fixpoint range_pages (p : Z) (n : nat) : list Z :=
  match n with O => [] | S n => p :: range_pages (p + PGSIZE) n end.

Lemma range_pages_ge p n a : a ∈ range_pages p n -> p <= a.
Proof.
  revert p. induction n as [|n IH]; intros p; simpl; [set_solver|].
  intros [->|H]%elem_of_cons; [lia|]. apply IH in H. unfold PGSIZE in *. lia.
Qed.

Lemma range_pages_lt p n a : a ∈ range_pages p n -> a < p + PGSIZE * Z.of_nat n.
Proof.
  revert p. induction n as [|n IH]; intros p; simpl; [set_solver|].
  intros [->|H]%elem_of_cons; [unfold PGSIZE; lia|]. apply IH in H.
  unfold PGSIZE in *. lia.
Qed.

Lemma freerange_loop_spec n : forall fuel p vend s l,
  (n < fuel)%nat -> p mod PGSIZE = 0 -> kend <= p -> KERNBASE <= p ->
  p + PGSIZE * Z.of_nat n <= vend < p + PGSIZE * Z.of_nat n + PGSIZE ->
  vend <= KERNBASE + PHYSTOP ->
  kmem_rep s l -> Forall page_in_memory l -> (forall a, a ∈ l -> a < p \/ vend <= a) ->
  exists s', freerange_loop fuel p vend s = Ret (tt, s') /\
    kmem_rep s' (reverse (range_pages p n) ++ l) /\ km_use_lock s' = km_use_lock s.
Proof.
  induction n as [|n IH]; intros [|fuel] p vend s l Hfu Hal Hk Hkb Hv Htop Hrep Hm Hfree;
    try lia; cbn [freerange_loop].
  - destruct (Z.leb_spec (p + PGSIZE) vend); [lia|]. by exists s.
  - destruct (Z.leb_spec (p + PGSIZE) vend); [|unfold PGSIZE in *; lia].
    assert (Hg : kfree_bad p = false).
    { unfold kfree_bad, V2P. rewrite Hal. simpl.
      unfold KERNBASE, PHYSTOP, PGSIZE in *. rewrite u32_small by lia.
      destruct (Z.ltb_spec p kend), (Z.leb_spec 0xE000000 (p - 0x80000000));
        simpl; try done; lia. }
    assert (Hnin : p ∉ l).
    { intros Hin. destruct (Hfree p Hin); unfold PGSIZE in *; lia. }
    destruct (kfree_push s l p) as (s1 & H1 & Hrep1 & Hl1 & _); [done..|].
    rewrite (bind_Ret _ _ _ _ _ H1).
    destruct (IH fuel (p + PGSIZE) vend s1 (p :: l)) as (s2 & H2 & Hrep2 & Hl2);
      try done; try (unfold PGSIZE in *; lia).
    + rewrite <- Zplus_mod_idemp_l, Hal. reflexivity.
    + constructor; [|done]. unfold page_in_memory, KERNBASE, PHYSTOP, PGSIZE in *. lia.
    + intros a [->|Ha]%elem_of_cons; [left; unfold PGSIZE; lia|].
      destruct (Hfree a Ha); [left; unfold PGSIZE; lia|by right].
    + exists s2. split_and!; [done| |].
      * cbn [range_pages]. rewrite reverse_cons, <- app_assoc. done.
      * by rewrite Hl2.
Qed.

(** [freerange] over a page range of kernel memory terminates without a panic
    and leaves on the free list exactly the whole pages inside the range, each
    once, above whatever was free before. *)
Theorem freerange_spec vstart vend s l :
  let p := PGROUNDUP vstart in
  let n := Z.to_nat ((vend - p) / PGSIZE) in
  kend <= vstart -> KERNBASE <= vstart <= vend -> p <= vend -> vend <= KERNBASE + PHYSTOP ->
  kmem_rep s l -> Forall page_in_memory l -> (forall a, a ∈ l -> a < p \/ vend <= a) ->
  exists s', freerange vstart vend s = Ret (tt, s') /\
    kmem_rep s' (reverse (range_pages p n) ++ l).
Proof.
  intros p n Hk [Hkb Hle] Hpv Htop Hrep Hm Hfree.
  destruct (PGROUNDUP_bounds vstart) as [Hp1 Hp2];
    [unfold KERNBASE, PHYSTOP, PGSIZE in *; lia..|].
  fold p in Hp1, Hp2.
  pose proof (Z.div_mod (vend - p) PGSIZE) as Hd.
  pose proof (Z.mod_pos_bound (vend - p) PGSIZE) as Hd'.
  assert (0 <= (vend - p) / PGSIZE) by (apply Z.div_pos; unfold PGSIZE; lia).
  destruct (freerange_loop_spec n (S (Z.to_nat ((vend - p) / PGSIZE + 1))) p vend s l)
    as (s' & H1 & H2 & _); try done; try (subst n; unfold PGSIZE in *; lia).
  exists s'. split; done.
Qed.

End kalloc.

(** A memory of two pages above a kernel that ends at [KERNBASE + 0x2000]. *)
Definition demo_end : Z := KERNBASE + 0x2000.
Definition demo_kmem : kmem := Kmem false 0 (fun _ => 0).

Lemma freerange_spec_witness :
  let p := PGROUNDUP (demo_end + 1) in
  let n := Z.to_nat ((demo_end + 0x3000 - p) / PGSIZE) in
  n = 2%nat /\
  exists s', freerange demo_end (demo_end + 1) (demo_end + 0x3000) demo_kmem = Ret (tt, s') /\
    kmem_rep demo_end s' (reverse (range_pages p n) ++ []).
Proof.
  split; [reflexivity|].
  refine (freerange_spec demo_end _ (demo_end + 1) (demo_end + 0x3000) demo_kmem []
            _ _ _ _ _ _ _).
  - by vm_compute.
  - by vm_compute.
  - by vm_compute.
  - by vm_compute.
  - by vm_compute.
  - split; [done|constructor].
  - constructor.
  - intros a Ha. by apply not_elem_of_nil in Ha.
Defined.

Lemma kmem_refines_stack_witness :
  exists s', kfree demo_end (demo_end + 0x1000) demo_kmem = Ret (tt, s') /\
    kmem_rep demo_end s' [demo_end + 0x1000] /\ km_use_lock s' = false /\
    (forall x, x < demo_end + 0x1000 \/ demo_end + 0x1000 + PGSIZE <= x ->
       km_mem s' x = km_mem demo_kmem x).
Proof.
  destruct (kmem_refines_stack demo_end ltac:(vm_compute; intuition congruence) demo_kmem [])
    as (_ & H & _); [split; [done|constructor]|constructor|].
  apply H; [reflexivity|set_solver].
Defined.
