(* ===== verification/Pipe.v ===== *)
(** [pipe.c]: the bounded byte queue behind a pair of file descriptors.

    A call that sleeps is a value: the state reached when it goes to sleep and what
    is left to do; resuming it runs the loop again from there, as [sleep] returning
    does. The two counters are 32-bit and wrap. *)

From S2P Require Import Prelude.

Definition PIPESIZE : Z := 512.

Record pipe := Pipe {
  p_data : list Z;
  p_nread : Z;
  p_nwrite : Z;
  p_readopen : bool;
  p_writeopen : bool
}.

(** The addresses processes sleep on. *)
Inductive chan := Ch_nread | Ch_nwrite.

#[export] Instance chan_eq_dec : EqDecision chan.
Proof. solve_decision. Defined.

Definition pipe_init (page : list Z) : pipe := Pipe page 0 0 true true.

Definition pipe_full (p : pipe) : bool := p_nwrite p =? u32 (p_nread p + PIPESIZE).
Definition pipe_empty (p : pipe) : bool := p_nread p =? p_nwrite p.

(** [p->data[p->nwrite++ % PIPESIZE] = c;] *)
Definition pipe_put (p : pipe) (c : Z) : pipe :=
  Pipe (<[Z.to_nat (p_nwrite p mod PIPESIZE) := c]> (p_data p))
       (p_nread p) (u32 (p_nwrite p + 1)) (p_readopen p) (p_writeopen p).

(** [p->data[p->nread++ % PIPESIZE]] *)
Definition pipe_get (p : pipe) : Z * pipe :=
  (default 0 (p_data p !! Z.to_nat (p_nread p mod PIPESIZE)),
   Pipe (p_data p) (u32 (p_nread p + 1)) (p_nwrite p) (p_readopen p) (p_writeopen p)).

(** How a call of [pipewrite] ends for now: it returned, or it sleeps on [&p->nwrite]
    with the bytes [rest] still to write, the next one being number [i]. *)
Inductive wres :=
| WRet (r : Z)
| WSleep (i : Z) (rest : list Z).

(** The loop of [pipewrite] from byte number [i]; the result, the channels woken up
    and the pipe. *)
Fixpoint pipewrite_loop (killed : bool) (src : list Z) (i : Z) (p : pipe)
  : wres * list chan * pipe :=
  match src with
  | [] => (WRet i, [Ch_nread], p)
  | c :: src' =>
      if pipe_full p then
        if negb (p_readopen p) || killed then (WRet (-1), [], p)
        else (WSleep i src, [Ch_nread], p)
      else pipewrite_loop killed src' (i + 1) (pipe_put p c)
  end.

Definition pipewrite (killed : bool) (addr : list Z) (p : pipe) : wres * list chan * pipe :=
  pipewrite_loop killed addr 0 p.

Inductive rres :=
| RRet (r : Z) (bytes : list Z)
| RSleep.

(** [for(i = 0; i < n; i++){ if(p->nread == p->nwrite) break; addr[i] = ...; }] *)
Fixpoint piperead_loop (n : nat) (p : pipe) : list Z * pipe :=
  match n with
  | O => ([], p)
  | S n =>
      if pipe_empty p then ([], p)
      else let '(c, p) := pipe_get p in
           let '(l, p) := piperead_loop n p in (c :: l, p)
  end.

Definition piperead (killed : bool) (n : Z) (p : pipe) : rres * list chan * pipe :=
  if pipe_empty p && p_writeopen p then
    if killed then (RRet (-1) [], [], p) else (RSleep, [], p)
  else
    let '(l, p) := piperead_loop (Z.to_nat n) p in
    (RRet (Z.of_nat (length l)) l, [Ch_nwrite], p).

(** The pipe after [pipeclose], the channel woken up, and whether the page is freed. *)
Definition pipeclose (writable : bool) (p : pipe) : pipe * list chan * bool :=
  let '(p, w) :=
    if writable then
      (Pipe (p_data p) (p_nread p) (p_nwrite p) (p_readopen p) false, [Ch_nread])
    else
      (Pipe (p_data p) (p_nread p) (p_nwrite p) false (p_writeopen p), [Ch_nwrite]) in
  (p, w, negb (p_readopen p) && negb (p_writeopen p)).

(** * A pipe holds a queue of bytes *)

Record pipe_rep (p : pipe) (q : list Z) : Prop := {
  rep_data : length (p_data p) = Z.to_nat PIPESIZE;
  rep_nread : 0 <= p_nread p < 2 ^ 32;
  rep_nwrite : p_nwrite p = u32 (p_nread p + Z.of_nat (length q));
  rep_len : (length q <= Z.to_nat PIPESIZE)%nat;
  rep_lookup : forall j, (j < length q)%nat ->
    p_data p !! Z.to_nat ((p_nread p + Z.of_nat j) mod PIPESIZE) = q !! j
}.

Lemma u32_shift_inj a x y :
  0 <= x <= PIPESIZE -> 0 <= y <= PIPESIZE -> u32 (a + x) = u32 (a + y) -> x = y.
Proof.
  unfold u32, PIPESIZE. intros Hx Hy H.
  assert (Hd : (a + x - (a + y)) mod 2 ^ 32 = 0) by (rewrite Zminus_mod, H, Z.sub_diag; done).
  replace (a + x - (a + y)) with (x - y) in Hd by lia.
  apply Z.mod_divide in Hd as [k Hk]; lia.
Qed.

(** The size of the ring divides the range of the counters. *)
Lemma u32_mod_pipesize x : u32 x mod PIPESIZE = x mod PIPESIZE.
Proof.
  unfold u32, PIPESIZE. apply Z.mod_mod_divide. exists (2 ^ 23). reflexivity.
Qed.

Section rep.
Context (p : pipe) (q : list Z) (Hrep : pipe_rep p q).

Lemma pipe_full_spec : pipe_full p = (length q =? Z.to_nat PIPESIZE)%nat.
Proof.
  unfold pipe_full. rewrite (rep_nwrite p q Hrep).
  pose proof (rep_len p q Hrep) as Hl. unfold PIPESIZE in *.
  destruct (Nat.eqb_spec (length q) (Z.to_nat 512)) as [->|Hne].
  - rewrite Z2Nat.id by lia. apply Z.eqb_refl.
  - apply Z.eqb_neq. intros H. apply u32_shift_inj in H; unfold PIPESIZE in *; lia.
Qed.

Lemma pipe_empty_spec : pipe_empty p = (length q =? 0)%nat.
Proof.
  unfold pipe_empty. rewrite (rep_nwrite p q Hrep).
  pose proof (rep_len p q Hrep) as Hl. pose proof (rep_nread p q Hrep).
  destruct (Nat.eqb_spec (length q) 0) as [->|Hne].
  - rewrite Z.add_0_r, u32_small by done. apply Z.eqb_refl.
  - apply Z.eqb_neq. intros H1. rewrite <- (u32_small (p_nread p)) in H1 at 1 by done.
    rewrite <- (Z.add_0_r (p_nread p)) in H1 at 1.
    apply u32_shift_inj in H1; unfold PIPESIZE in *; lia.
Qed.

Lemma pipe_put_rep c : pipe_full p = false -> pipe_rep (pipe_put p c) (q ++ [c]).
Proof.
  rewrite pipe_full_spec. intros Hf. apply Nat.eqb_neq in Hf.
  destruct Hrep as [Hd Hr Hw Hl Hq]. unfold PIPESIZE in Hl, Hf.
  constructor; cbn [pipe_put p_data p_nread p_nwrite].
  - by rewrite length_insert.
  - done.
  - rewrite Hw, u32_add_l, length_app. cbn [length]. f_equal. lia.
  - rewrite length_app. cbn [length]. unfold PIPESIZE. lia.
  - intros j Hj. rewrite length_app in Hj. cbn [length] in Hj.
    rewrite Hw, u32_mod_pipesize.
    destruct (decide (j = length q)) as [->|Hne].
    + rewrite list_lookup_insert_eq.
      * rewrite lookup_app_r by lia. by rewrite Nat.sub_diag.
      * rewrite Hd. unfold PIPESIZE. pose proof (Z.mod_pos_bound
          (p_nread p + Z.of_nat (length q)) 512). lia.
    + rewrite lookup_app_l by lia. rewrite <- Hq by lia.
      apply list_lookup_insert_ne. intros He. unfold PIPESIZE in *.
      pose proof (Z.mod_pos_bound (p_nread p + Z.of_nat (length q)) 512).
      pose proof (Z.mod_pos_bound (p_nread p + Z.of_nat j) 512).
      apply Z2Nat.inj in He; [|lia..].
      pose proof (Z.div_mod (p_nread p + Z.of_nat (length q)) 512).
      pose proof (Z.div_mod (p_nread p + Z.of_nat j) 512). lia.
Qed.
End rep.

Lemma pipe_get_rep p c q :
  pipe_rep p (c :: q) -> (pipe_get p).1 = c /\ pipe_rep (pipe_get p).2 q.
Proof.
  intros [Hd Hr Hw Hl Hq]. cbn [length] in *. split.
  - cbn [pipe_get fst]. specialize (Hq 0%nat). rewrite Z.add_0_r in Hq.
    by rewrite Hq by lia.
  - constructor; cbn [pipe_get snd p_data p_nread p_nwrite].
    + done.
    + apply u32_range.
    + rewrite u32_add_l, Hw. f_equal. lia.
    + lia.
    + intros j Hj. change (q !! j) with ((c :: q) !! S j).
      rewrite <- (Hq (S j)) by lia. f_equal. f_equal.
      rewrite <- (u32_mod_pipesize (u32 _ + _)), u32_add_l, u32_mod_pipesize.
      f_equal. lia.
Qed.

Lemma piperead_loop_rep n : forall p q, pipe_rep p q ->
  exists p', piperead_loop n p = (take n q, p') /\ pipe_rep p' (drop n q) /\
    p_readopen p' = p_readopen p /\ p_writeopen p' = p_writeopen p.
Proof.
  induction n as [|n IH]; intros p q Hrep; cbn [piperead_loop].
  { exists p. rewrite take_0, drop_0. done. }
  rewrite (pipe_empty_spec p q Hrep). destruct q as [|c q]; cbn [length Nat.eqb].
  { exists p. by rewrite take_nil, drop_nil. }
  destruct (pipe_get_rep p c q Hrep) as [Hc Hrep'].
  destruct (pipe_get p) as [c' p'] eqn:E. simpl in Hc, Hrep'. subst c'.
  destruct (IH p' q Hrep') as (p'' & -> & Hrep'' & Ho & Hw).
  exists p''. unfold pipe_get in E. simplify_eq/=. done.
Qed.

Lemma pipewrite_loop_rep killed src : forall i p q r w p',
  pipe_rep p q -> pipewrite_loop killed src i p = (r, w, p') ->
  exists done_ rest, src = done_ ++ rest /\ pipe_rep p' (q ++ done_) /\
    p_readopen p' = p_readopen p /\ p_writeopen p' = p_writeopen p /\
    match r with
    | WSleep j rest' => rest' = rest /\ rest <> [] /\ j = i + Z.of_nat (length done_) /\
        pipe_full p' = true /\ p_readopen p = true /\ killed = false /\ w = [Ch_nread]
    | WRet z =>
        (rest = [] /\ z = i + Z.of_nat (length src) /\ w = [Ch_nread]) \/
        (z = -1 /\ rest <> [] /\ pipe_full p' = true /\
         (p_readopen p = false \/ killed = true) /\ w = [])
    end.
Proof.
  induction src as [|c src IH]; intros i p q r w p' Hrep; cbn [pipewrite_loop].
  - intros H. simplify_eq. exists [], []. rewrite (app_nil_r q). split_and!; try done.
    left. cbn [length]. split_and!; try done. lia.
  - destruct (pipe_full p) eqn:F.
    + destruct (negb (p_readopen p) || killed) eqn:E; intros H; simplify_eq;
        exists [], (c :: src); rewrite (app_nil_r q); split_and!; try done.
      * right. split_and!; try done. apply orb_true_iff in E as [E|E]; [left|by right].
        by apply negb_true_iff.
      * cbn [length]. lia.
      * by bsplit.
      * by bsplit.
    + intros H. apply IH with (q := q ++ [c]) in H; [|by apply pipe_put_rep].
      destruct H as (dn & rest & -> & Hrep' & Ho & Hw & Hr).
      exists (c :: dn), rest. rewrite <- app_assoc in Hrep'. split_and!; try done.
      cbn [length]. destruct r as [z|j rest'].
      * destruct Hr as [(-> & -> & ->)|Hr]; [left; split_and!; (done || lia)|by right].
      * destruct Hr as (-> & Hne & -> & Hr). split_and!; try done; try lia; apply Hr.
Qed.

(** * The pipe and the processes that use it *)

(** A pipe with, for each of its two channels, whether some process sleeps on it,
    and the bytes stored and delivered so far. *)
Record psys := PSys {
  ps_pipe : pipe;
  ps_wsleep : bool;       (** a writer sleeps on [&p->nwrite] *)
  ps_rsleep : bool;       (** a reader sleeps on [&p->nread] *)
  ps_written : list Z;
  ps_read : list Z
}.

(** [wakeup] clears the sleepers of the channels it names. *)
Definition still (c : chan) (woken : list chan) (asleep : bool) : bool :=
  asleep && negb (bool_decide (c ∈ woken)).

Definition wres_sleeps (r : wres) : bool := match r with WSleep _ _ => true | _ => false end.
Definition rres_sleeps (r : rres) : bool := match r with RSleep => true | _ => false end.
Definition rres_bytes (r : rres) : list Z := match r with RRet _ l => l | _ => [] end.

(** How many bytes a call stored. *)
Definition stored (p p' : pipe) : nat := Z.to_nat (u32 (p_nwrite p' - p_nwrite p)).

(** One run of a system call on the pipe up to its return or its sleep. The caller
    has its end open, and an end is closed only when no process sleeps in a call on
    it, because file.c counts the references. [live] says that no process that writes
    has been killed. *)
Inductive pipe_step (live : bool) : psys -> psys -> Prop :=
| step_write s killed src i r w p' :
    (live = true -> killed = false) -> p_writeopen (ps_pipe s) = true ->
    pipewrite_loop killed src i (ps_pipe s) = (r, w, p') ->
    pipe_step live s
      (PSys p' (still Ch_nwrite w (ps_wsleep s) || wres_sleeps r)
         (still Ch_nread w (ps_rsleep s))
         (ps_written s ++ take (stored (ps_pipe s) p') src) (ps_read s))
| step_read s killed n r w p' :
    p_readopen (ps_pipe s) = true ->
    piperead killed n (ps_pipe s) = (r, w, p') ->
    pipe_step live s
      (PSys p' (still Ch_nwrite w (ps_wsleep s))
         (still Ch_nread w (ps_rsleep s) || rres_sleeps r)
         (ps_written s) (ps_read s ++ rres_bytes r))
| step_close s (writable : bool) p' w fr :
    (if writable then ps_wsleep s else ps_rsleep s) = false ->
    pipeclose writable (ps_pipe s) = (p', w, fr) ->
    pipe_step live s
      (PSys p' (still Ch_nwrite w (ps_wsleep s)) (still Ch_nread w (ps_rsleep s))
         (ps_written s) (ps_read s)).

(** A pipe as [pipealloc] hands it out, in a page with arbitrary contents. *)
Definition pipe_start (s : psys) : Prop :=
  exists page : list Z, length page = Z.to_nat PIPESIZE /\
    s = PSys (pipe_init page) false false [] [].

Definition pipe_reach (live : bool) : psys -> Prop := reachable pipe_start (pipe_step live).

Lemma stored_spec p q p' q' l :
  pipe_rep p q -> pipe_rep p' q' -> p_nread p' = p_nread p -> q' = q ++ l ->
  stored p p' = length l.
Proof.
  intros H H' Hn ->. unfold stored. rewrite (rep_nwrite _ _ H), (rep_nwrite _ _ H'), Hn.
  rewrite u32_sub_l. unfold u32. rewrite Zminus_mod_idemp_r.
  pose proof (rep_len _ _ H') as Hl. rewrite length_app in *. unfold PIPESIZE in Hl.
  replace (p_nread p + Z.of_nat (length q + length l) - (p_nread p + Z.of_nat (length q)))
    with (Z.of_nat (length l)) by lia.
  rewrite Z.mod_small by lia. lia.
Qed.

Lemma pipewrite_loop_nread killed src : forall i p r w p',
  pipewrite_loop killed src i p = (r, w, p') -> p_nread p' = p_nread p.
Proof.
  induction src as [|c src IH]; intros i p r w p'; cbn [pipewrite_loop].
  - intros ?; by simplify_eq.
  - repeat case_match; intros ?; simplify_eq; try done.
    by erewrite IH by eassumption.
Qed.

Definition fifo_inv (s : psys) : Prop :=
  exists q, pipe_rep (ps_pipe s) q /\ ps_written s = ps_read s ++ q.

Lemma pipeclose_rep writable p p' w fr q :
  pipeclose writable p = (p', w, fr) -> pipe_rep p q -> pipe_rep p' q.
Proof.
  unfold pipeclose. destruct writable; intros E [Hd Hr Hw Hl Hq]; simplify_eq; by constructor.
Qed.

Lemma piperead_rep killed n p r w p' q :
  piperead killed n p = (r, w, p') -> pipe_rep p q ->
  exists q', pipe_rep p' q' /\ q = rres_bytes r ++ q' /\
    p_readopen p' = p_readopen p /\ p_writeopen p' = p_writeopen p /\
    (rres_sleeps r = true -> q' = [] /\ p_writeopen p' = true) /\
    (w = [] -> p' = p).
Proof.
  intros E Hrep. unfold piperead in E.
  destruct (pipe_empty p && p_writeopen p) eqn:C.
  - destruct killed; simplify_eq; exists q; split_and!; try done.
    intros _. bsplit. rewrite (pipe_empty_spec _ _ Hrep) in *.
    by destruct q.
  - destruct (piperead_loop_rep (Z.to_nat n) p q Hrep) as (p1 & E1 & Hrep1 & Ho & Hw).
    rewrite E1 in E. simplify_eq. exists (drop (Z.to_nat n) q). cbn [rres_bytes rres_sleeps].
    split_and!; try done. by rewrite take_drop.
Qed.

Lemma pipe_start_inv s : pipe_start s -> fifo_inv s.
Proof.
  intros (page & Hp & ->). exists []. split; [|done].
  constructor; cbn; try done; lia.
Qed.

Lemma pipe_step_fifo live s s' : fifo_inv s -> pipe_step live s s' -> fifo_inv s'.
Proof.
  intros (q & Hrep & Hwr) Hstep. destruct Hstep as
    [s kl src i r w p' _ _ E|s kl n r w p' _ E|s wr p' w fr _ E].
  - destruct (pipewrite_loop_rep _ _ _ _ _ _ _ _ Hrep E) as (dn & rest & -> & Hrep' & _).
    exists (q ++ dn). split; [done|]. cbn [ps_written ps_read].
    rewrite (stored_spec _ _ _ _ dn Hrep Hrep') by (eauto using pipewrite_loop_nread).
    rewrite take_app_length, Hwr. by rewrite app_assoc.
  - destruct (piperead_rep _ _ _ _ _ _ _ E Hrep) as (q' & Hrep' & -> & _).
    exists q'. split; [done|]. cbn [ps_written ps_read]. by rewrite <- app_assoc, Hwr.
  - exists q. split; [|done]. eauto using pipeclose_rep.
Qed.

(** C39. A pipe is a FIFO of at most 512 bytes. In every state reachable by any
    interleaving of writes, reads and closes, by any number of processes, with
    sleeps anywhere and the 32-bit counters wrapping, the bytes stored so far are
    the bytes delivered so far followed by the bytes in the ring. *)
Theorem pipe_fifo s :
  pipe_reach false s ->
  exists q, pipe_rep (ps_pipe s) q /\ (length q <= 512)%nat /\
    ps_written s = ps_read s ++ q.
Proof.
  intros H. destruct (reachable_invariant _ _ fifo_inv pipe_start_inv
                        (pipe_step_fifo false) s H) as (q & Hrep & Hw).
  exists q. split_and!; try done. apply (rep_len _ _ Hrep).
Qed.

(** * Sleeping processes *)

Definition sleep_inv (s : psys) : Prop :=
  fifo_inv s /\
  (ps_wsleep s = true -> pipe_full (ps_pipe s) = true /\ p_readopen (ps_pipe s) = true /\
     p_writeopen (ps_pipe s) = true) /\
  (ps_rsleep s = true -> pipe_empty (ps_pipe s) = true /\ p_writeopen (ps_pipe s) = true /\
     p_readopen (ps_pipe s) = true).

Lemma still_in c w b : c ∈ w -> still c w b = false.
Proof. intros H. unfold still. rewrite bool_decide_eq_true_2 by done. apply andb_false_r. Qed.

Lemma still_nil c b : still c [] b = b.
Proof. unfold still. rewrite bool_decide_eq_false_2 by set_solver. apply andb_true_r. Qed.

Lemma still_le c w b : still c w b = true -> b = true.
Proof. unfold still. by destruct b. Qed.

Lemma sleep_write s src i r w p' :
  sleep_inv s -> p_writeopen (ps_pipe s) = true ->
  pipewrite_loop false src i (ps_pipe s) = (r, w, p') ->
  (still Ch_nwrite w (ps_wsleep s) || wres_sleeps r = true ->
     pipe_full p' = true /\ p_readopen p' = true /\ p_writeopen p' = true) /\
  (still Ch_nread w (ps_rsleep s) = true ->
     pipe_empty p' = true /\ p_writeopen p' = true /\ p_readopen p' = true).
Proof.
  intros ((q & Hrep & _) & Hws & Hrs) Hwo E.
  destruct (pipewrite_loop_rep _ _ _ _ _ _ _ _ Hrep E)
    as (dn & rest & -> & Hrep' & Ho & Hw & Hr).
  rewrite Ho, Hw. destruct r as [z|j rest']; cbn [wres_sleeps].
  - rewrite orb_false_r.
    destruct Hr as [(-> & -> & ->)|(-> & Hne & Hfull & [Hc|?] & ->)]; [| |done].
    + rewrite app_nil_r in E. split; [|by rewrite still_in by (by left)].
      intros Hs%still_le. destruct (Hws Hs) as (Hfl & Hro & _).
      destruct dn as [|c dn]; cbn in E; [simplify_eq; done|].
      by rewrite Hfl, Hro in E.
    + rewrite !still_nil. split; intros Hs.
      * destruct (Hws Hs) as (_ & ? & _). congruence.
      * destruct (Hrs Hs) as (_ & _ & ?). congruence.
  - destruct Hr as (_ & _ & _ & Hfl & Hro & _ & ->). split; [done|].
    by rewrite still_in by (by left).
Qed.

Lemma sleep_read s kl n r w p' :
  sleep_inv s -> p_readopen (ps_pipe s) = true ->
  piperead kl n (ps_pipe s) = (r, w, p') ->
  (still Ch_nwrite w (ps_wsleep s) = true ->
     pipe_full p' = true /\ p_readopen p' = true /\ p_writeopen p' = true) /\
  (still Ch_nread w (ps_rsleep s) || rres_sleeps r = true ->
     pipe_empty p' = true /\ p_writeopen p' = true /\ p_readopen p' = true).
Proof.
  intros ((q & Hrep & _) & Hws & Hrs) Hro E. unfold piperead in E.
  destruct (pipe_empty (ps_pipe s) && p_writeopen (ps_pipe s)) eqn:C.
  - apply andb_true_iff in C as [C1 C2].
    destruct kl; simplify_eq; rewrite still_nil; split; auto.
  - destruct (piperead_loop_rep (Z.to_nat n) _ q Hrep) as (p1 & E1 & Hrep1 & Ho & Hw).
    rewrite E1 in E. simplify_eq. cbn [rres_sleeps]. rewrite orb_false_r.
    rewrite still_in by (by left). split; [done|]. intros Hs%still_le.
    destruct (Hrs Hs) as (He & Hwo & _). rewrite He, Hwo in C. done.
Qed.

Lemma sleep_close s (wr : bool) p' w fr :
  sleep_inv s -> (if wr then ps_wsleep s else ps_rsleep s) = false ->
  pipeclose wr (ps_pipe s) = (p', w, fr) ->
  still Ch_nwrite w (ps_wsleep s) = false /\ still Ch_nread w (ps_rsleep s) = false.
Proof.
  intros _ Hg E. unfold pipeclose in E. destruct wr; simplify_eq;
    split; rewrite ?Hg; try done; apply still_in; by left.
Qed.

Lemma pipe_step_sleep s s' : sleep_inv s -> pipe_step true s s' -> sleep_inv s'.
Proof.
  intros Hinv Hstep. split; [destruct Hinv; eauto using pipe_step_fifo|].
  destruct Hstep as [s kl src i r w p' Hk Ho E|s kl n r w p' Ho E|s wr p' w fr Hg E]; cbn.
  - specialize (Hk eq_refl) as ->. by eapply sleep_write.
  - by eapply sleep_read.
  - destruct (sleep_close s wr p' w fr Hinv Hg E) as [-> ->]. done.
Qed.

(** C40. No wakeup is lost as long as no writer is killed: a process asleep on the
    pipe has nothing it could do. A sleeping writer finds the pipe full with its
    reader present, a sleeping reader finds it empty with a writer present, and so
    the two never sleep at the same time. *)
Theorem pipe_no_lost_wakeup s :
  pipe_reach true s ->
  (ps_wsleep s = true -> pipe_full (ps_pipe s) = true /\ p_readopen (ps_pipe s) = true) /\
  (ps_rsleep s = true -> pipe_empty (ps_pipe s) = true /\ p_writeopen (ps_pipe s) = true) /\
  ps_wsleep s && ps_rsleep s = false.
Proof.
  intros H. assert (Hi : sleep_inv s).
  { revert s H. apply reachable_invariant; [|eauto using pipe_step_sleep].
    intros s Hs. split; [by apply pipe_start_inv|]. by destruct Hs as (? & _ & ->). }
  destruct Hi as ((q & Hrep & _) & Hws & Hrs). split_and!; [intros Hs; by destruct (Hws Hs) as (? & ? & _)|intros Hs; by destruct (Hrs Hs) as (? & ? & _)|].
  destruct (ps_wsleep s), (ps_rsleep s); try done. exfalso.
  destruct (Hws eq_refl) as (Hfl & _), (Hrs eq_refl) as (He & _).
  rewrite (pipe_full_spec _ _ Hrep) in Hfl. rewrite (pipe_empty_spec _ _ Hrep) in He.
  apply Nat.eqb_eq in Hfl, He. unfold PIPESIZE in Hfl. lia.
Qed.

(** A reader that finds an empty pipe goes to sleep; then a writer stores 600 bytes. *)
Definition demo_start : psys := PSys (pipe_init (replicate 512 0)) false false [] [].
Definition demo_asleep : psys := PSys (pipe_init (replicate 512 0)) false true [] [].

Lemma demo_start_ok : pipe_start demo_start.
Proof. exists (replicate 512 0). split; reflexivity. Qed.

Lemma demo_asleep_step live : pipe_step live demo_start demo_asleep.
Proof. apply (step_read live demo_start false 1 RSleep []); reflexivity. Qed.

Lemma pipe_fifo_witness :
  exists q, pipe_rep (ps_pipe demo_asleep) q /\ (length q <= 512)%nat /\
    ps_written demo_asleep = ps_read demo_asleep ++ q.
Proof.
  apply (pipe_fifo demo_asleep). eapply reach_step; [|apply demo_asleep_step].
  apply reach_init, demo_start_ok.
Defined.

Lemma pipe_no_lost_wakeup_witness :
  pipe_empty (ps_pipe demo_asleep) = true /\ p_writeopen (ps_pipe demo_asleep) = true.
Proof.
  apply (pipe_no_lost_wakeup demo_asleep); [|reflexivity].
  eapply reach_step; [|apply demo_asleep_step]. apply reach_init, demo_start_ok.
Defined.

(** A killed writer loses a wakeup. When [pipewrite] fills the ring and then
    finds its process killed it returns -1 without [wakeup(&p->nread)], so a reader
    that went to sleep on the empty pipe stays asleep although 512 bytes are there
    to read and the write end is still open. *)
Theorem pipe_killed_writer_loses_wakeup :
  exists s, pipe_reach false s /\ ps_rsleep s = true /\
    pipe_full (ps_pipe s) = true /\ p_writeopen (ps_pipe s) = true.
Proof.
  destruct (pipewrite_loop true (replicate 600 7) 0 (ps_pipe demo_asleep))
    as [[r w] p'] eqn:E.
  exists (PSys p' (still Ch_nwrite w false || wres_sleeps r) (still Ch_nread w true)
            ([] ++ take (stored (ps_pipe demo_asleep) p') (replicate 600 7)) []).
  split.
  - eapply reach_step.
    + eapply reach_step; [apply reach_init, demo_start_ok|apply demo_asleep_step].
    + by apply (step_write false demo_asleep true (replicate 600 7) 0 r w p').
  - vm_compute in E. simplify_eq. split_and!; reflexivity.
Qed.
