(* ===== verification/Spinlock.v ===== *)
(** [spinlock.c]: interrupt nesting and spin locks.

    The first part models each function as a whole, run by one CPU. The second part
    is a step relation in which any number of CPUs interleave inside [acquire] and
    [release], one memory access at a time, under sequential consistency (the
    [__sync_synchronize] barriers and [xchg] order the accesses on x86). *)

From S2P Require Import Prelude CString Mmu.

(** The fields of [struct cpu] these functions use, and the interrupt flag of
    EFLAGS. *)
Record cpu := Cpu { c_if : bool; c_ncli : Z; c_intena : bool }.

Record spinlock := Spinlock { lk_locked : bool; lk_cpu : option nat }.

Definition initlock : spinlock := Spinlock false None.

Definition pushcli : M cpu unit := fun c =>
  let eflags := c_if c in
  let intena := if c_ncli c =? 0 then eflags else c_intena c in
  Ret (tt, Cpu false (c_ncli c + 1) intena).

Definition popcli : M cpu unit := fun c =>
  if c_if c then Panic "popcli - interruptible"
  else
    let n := c_ncli c - 1 in
    if n <? 0 then Panic "popcli"
    else Ret (tt, Cpu ((n =? 0) && c_intena c) n (c_intena c)).

(** [me] is [mycpu()]. *)
Definition holding (me : nat) (lk : spinlock) : M cpu bool :=
  pushcli ;;;
  let r := lk_locked lk && bool_decide (lk_cpu lk = Some me) in
  popcli ;;;
  ret r.

(** One CPU and one lock. *)
Definition on_cpu {A} (m : M cpu A) : M (cpu * spinlock) A := fun s =>
  match m s.1 with
  | Ret (a, c) => Ret (a, (c, s.2))
  | Panic e => Panic e | Block => Block | Fault => Fault | NoFuel => NoFuel
  end.

(** [acquire] spins ([Block]) while another CPU has the lock. *)
Definition acquire (me : nat) : M (cpu * spinlock) unit :=
  on_cpu pushcli ;;;
  let* lk := gets snd in
  let* h := on_cpu (holding me lk) in
  if (h : bool) then panic "acquire"
  else if lk_locked lk then block
  else modify (fun s => (s.1, Spinlock true (Some me))).

Definition release (me : nat) : M (cpu * spinlock) unit :=
  let* lk := gets snd in
  let* h := on_cpu (holding me lk) in
  if negb h then panic "release"
  else
    modify (fun s => (s.1, Spinlock false None)) ;;;
    on_cpu popcli.

(** [getcallerpcs(v, pcs)] follows at most ten saved frame pointers. *)
Fixpoint getcallerpcs_loop (m : mem) (ebp : Z) (n : nat) : list Z :=
  match n with
  | O => []
  | S n' =>
      if (ebp =? 0) || (ebp <? KERNBASE) || (ebp =? 0xffffffff) then replicate n 0
      else load32 m (ebp + 4) :: getcallerpcs_loop m (load32 m ebp) n'
  end.

Definition getcallerpcs (m : mem) (v : Z) : list Z := getcallerpcs_loop m (v - 8) 10.

Lemma length_getcallerpcs m v : length (getcallerpcs m v) = 10%nat.
Proof.
  unfold getcallerpcs. generalize (v - 8). generalize 10%nat as n.
  induction n as [|n IH]; intros e; [done|]. cbn [getcallerpcs_loop].
  case_match; [apply length_replicate|]. cbn [length]. by rewrite IH.
Qed.

(** * Interrupt nesting *)

Inductive cli_op := Push | Pop.

(** Run a sequence of [pushcli] and [popcli]. *)
Fixpoint run_cli (ops : list cli_op) : M cpu unit :=
  match ops with
  | [] => ret tt
  | Push :: ops => pushcli ;;; run_cli ops
  | Pop :: ops => popcli ;;; run_cli ops
  end.

(** The nesting depth after [ops]; [None] when a pop has no push. *)
Fixpoint depth (ops : list cli_op) (d : Z) : option Z :=
  match ops with
  | [] => Some d
  | Push :: ops => depth ops (d + 1)
  | Pop :: ops => if d <=? 0 then None else depth ops (d - 1)
  end.

Lemma run_cli_nested ops : forall d d' b c,
  depth ops d = Some d' -> 0 <= d -> c_ncli c = d ->
  (0 < d -> c_if c = false /\ c_intena c = b) -> (d = 0 -> c_if c = b) ->
  exists c', run_cli ops c = Ret (tt, c') /\ c_ncli c' = d' /\ 0 <= d' /\
    (0 < d' -> c_if c' = false /\ c_intena c' = b) /\ (d' = 0 -> c_if c' = b).
Proof.
  induction ops as [|[] ops IH]; intros d d' b c Hd Hpos Hn Hin Hout; cbn [depth run_cli] in *.
  - simplify_eq. by exists c.
  - unfold bind at 1. unfold pushcli. eapply IH; [exact Hd|lia|cbn; lia| |lia].
    intros _. cbn. split; [done|]. destruct (Z.eqb_spec (c_ncli c) 0) as [E|E].
    + apply Hout. lia.
    + apply Hin. lia.
  - destruct (Z.leb_spec d 0); [done|]. unfold bind at 1. unfold popcli.
    destruct (Hin ltac:(lia)) as [-> Hi]. destruct (Z.ltb_spec (c_ncli c - 1) 0); [lia|].
    eapply IH; [exact Hd|lia|cbn; lia| |]; cbn; rewrite Hn.
    + intros. destruct (Z.eqb_spec (d - 1) 0); [lia|done].
    + intros ->. by rewrite Hi.
Qed.

(** Every well-nested sequence of [pushcli] and [popcli] runs without a panic;
    interrupts are off at every depth above zero, and when the nesting is back at
    zero the interrupt flag is what it was before the first [pushcli], on or off. *)
Theorem cli_nesting ops (b i : bool) d :
  depth ops 0 = Some d ->
  exists c, run_cli ops (Cpu b 0 i) = Ret (tt, c) /\ c_ncli c = d /\ 0 <= d /\
    c_if c = (if d =? 0 then b else false).
Proof.
  intros H. destruct (run_cli_nested ops 0 d b (Cpu b 0 i)) as (c & Hr & Hn & Hd & H1 & H2);
    try done; try lia.
  exists c. split_and!; try done. destruct (Z.eqb_spec d 0); [auto|]. apply H1. lia.
Qed.

Lemma cli_nesting_witness :
  exists c, run_cli [Push; Push; Pop; Pop] (Cpu true 0 false) = Ret (tt, c) /\
    c_ncli c = 0 /\ 0 <= 0 /\ c_if c = (if 0 =? 0 then true else false).
Proof. apply (cli_nesting [Push; Push; Pop; Pop] true false 0). reflexivity. Defined.

(** A CPU that takes a free lock and releases it is back in the state it
    started from: the lock free, the nesting depth and the interrupt flag restored;
    taking it twice panics and releasing it unheld panics. *)
Theorem acquire_release_roundtrip me (c : cpu) :
  0 <= c_ncli c -> (0 < c_ncli c -> c_if c = false) ->
  exists c1 c2,
    acquire me (c, initlock) = Ret (tt, (c1, Spinlock true (Some me))) /\
    c_if c1 = false /\ c_ncli c1 = c_ncli c + 1 /\
    acquire me (c1, Spinlock true (Some me)) = Panic "acquire" /\
    release me (c1, Spinlock true (Some me)) = Ret (tt, (c2, initlock)) /\
    c_ncli c2 = c_ncli c /\ c_if c2 = c_if c /\
    release me (c, initlock) = Panic "release".
Proof.
  destruct c as [f n i]. cbn. intros Hn Hf.
  exists (Cpu false (n + 1) (if n =? 0 then f else i)),
         (Cpu f n (if n =? 0 then f else i)).
  unfold acquire, release, holding, on_cpu, pushcli, popcli, bind, gets, modify, ret,
    panic, block, initlock; cbn.
  rewrite !bool_decide_eq_true_2 by done. cbn.
  repeat match goal with
  | |- context [?a <? ?b] => destruct (Z.ltb_spec a b); [lia|]; cbn
  end.
  replace (n + 1 + 1 - 1) with (n + 1) by lia. replace (n + 1 - 1) with n by lia.
  destruct (Z.eqb_spec (n + 1) 0); [lia|]. cbn.
  replace (n + 1 + 1 + 1 - 1) with (n + 1 + 1) by lia.
  destruct (Z.eqb_spec (n + 1 + 1) 0); [lia|]. cbn.
  destruct (Z.eqb_spec n 0) as [->|Hn0]; cbn.
  - split_and!; try done; by destruct f.
  - specialize (Hf ltac:(lia)) as ->. split_and!; done.
Qed.

Lemma acquire_release_roundtrip_witness :
  exists c1 c2,
    acquire 3 (Cpu true 0 false, initlock) = Ret (tt, (c1, Spinlock true (Some 3%nat))) /\
    c_if c1 = false /\ c_ncli c1 = 0 + 1 /\
    acquire 3 (c1, Spinlock true (Some 3%nat)) = Panic "acquire" /\
    release 3 (c1, Spinlock true (Some 3%nat)) = Ret (tt, (c2, initlock)) /\
    c_ncli c2 = 0 /\ c_if c2 = true /\
    release 3 (Cpu true 0 false, initlock) = Panic "release".
Proof. apply (acquire_release_roundtrip 3 (Cpu true 0 false)); cbn; lia. Defined.

(** * Interleaving *)

(** Where a CPU is. The names follow the source: [A_*] inside [acquire], [R_*]
    inside [release]; the flag is the value of [lock->locked] that [holding] read. *)
Inductive pc :=
| Out
| A_holding
| A_holding_cpu (locked : bool)
| A_spin                  (** about to execute [xchg(&lk->locked, 1)] *)
| A_set                   (** got the lock, about to store [lk->cpu] *)
| Crit
| R_holding
| R_holding_cpu (locked : bool)
| R_clear                 (** about to store [lk->cpu = 0] *)
| R_unlock                (** about to store [lk->locked = 0] *)
| Panicked.

#[export] Instance pc_eq_dec : EqDecision pc.
Proof. solve_decision. Defined.

Record msys := MSys { ms_lock : spinlock; ms_pc : list pc }.

(** The result of [r = lock->locked && lock->cpu == mycpu()] after [locked] was read. *)
Definition held (locked : bool) (lk : spinlock) (c : nat) : bool :=
  locked && bool_decide (lk_cpu lk = Some c).

(** One memory access of CPU [c]: its next place and the lock. *)
Definition cpu_step (c : nat) (lk : spinlock) (p : pc) : pc * spinlock :=
  match p with
  | Out => (A_holding, lk)
  | A_holding => (A_holding_cpu (lk_locked lk), lk)
  | A_holding_cpu l => (if held l lk c then Panicked else A_spin, lk)
  | A_spin => (if lk_locked lk then A_spin else A_set, Spinlock true (lk_cpu lk))
  | A_set => (Crit, Spinlock (lk_locked lk) (Some c))
  | Crit => (R_holding, lk)
  | R_holding => (R_holding_cpu (lk_locked lk), lk)
  | R_holding_cpu l => (if held l lk c then R_clear else Panicked, lk)
  | R_clear => (R_unlock, Spinlock (lk_locked lk) None)
  | R_unlock => (Out, Spinlock false (lk_cpu lk))
  | Panicked => (Panicked, lk)
  end.

Inductive lock_step : msys -> msys -> Prop :=
| LockStep s c p p' lk' :
    ms_pc s !! c = Some p -> cpu_step c (ms_lock s) p = (p', lk') ->
    lock_step s (MSys lk' (<[c := p']> (ms_pc s))).

Definition lock_start (s : msys) : Prop :=
  ms_lock s = initlock /\ Forall (eq Out) (ms_pc s).

Definition lock_reach : msys -> Prop := reachable lock_start lock_step.

(** Between the [xchg] that took the lock and the store that frees it. *)
Definition owns (p : pc) : bool :=
  match p with
  | A_set | Crit | R_holding | R_holding_cpu _ | R_clear | R_unlock => true
  | _ => false
  end.

(** The owner has stored its name in [lk->cpu]. *)
Definition named (p : pc) : bool :=
  match p with Crit | R_holding | R_holding_cpu _ | R_clear => true | _ => false end.

(** What [lk->cpu] holds when the owner is [o]. *)
Definition owner_name (pcs : list pc) (o : option nat) : option nat :=
  c ← o; p ← pcs !! c; if named p then Some c else None.

(** [o] is the CPU that owns the lock, if any. *)
Record lock_inv (s : msys) (o : option nat) : Prop := {
  li_locked : lk_locked (ms_lock s) = bool_decide (is_Some o);
  li_owns : forall c p, ms_pc s !! c = Some p -> owns p = bool_decide (o = Some c);
  li_in : forall c, o = Some c -> is_Some (ms_pc s !! c);
  li_cpu : lk_cpu (ms_lock s) = owner_name (ms_pc s) o;
  li_nopanic : forall c, ms_pc s !! c <> Some Panicked;
  li_read : forall c, ms_pc s !! c <> Some (R_holding_cpu false)
}.

Lemma lock_start_inv s : lock_start s -> lock_inv s None.
Proof.
  intros [Hl Hp]. rewrite Forall_lookup in Hp.
  constructor; rewrite ?Hl; try done.
  - intros c p H%Hp. by subst.
  - intros c H%Hp. done.
  - intros c H%Hp. done.
Qed.

(** A step of CPU [c] that leaves ownership alone. *)
Lemma lock_inv_keep s o c p p' lk' :
  lock_inv s o -> ms_pc s !! c = Some p -> owns p' = owns p -> p' <> Panicked ->
  p' <> R_holding_cpu false -> lk_locked lk' = lk_locked (ms_lock s) ->
  lk_cpu lk' = (if owns p then (if named p' then Some c else None)
                else lk_cpu (ms_lock s)) ->
  lock_inv (MSys lk' (<[c := p']> (ms_pc s))) o.
Proof.
  intros [Hl Ho Hin Hc Hn Hr] Hp He Hn' Hr' Hlk Hcpu.
  pose proof (lookup_lt_Some _ _ _ Hp) as Hlt.
  assert (Hop := Ho c p Hp). constructor; cbn [ms_lock ms_pc].
  - congruence.
  - intros d q Hq. destruct (decide (d = c)) as [->|Hdc].
    + rewrite list_lookup_insert_eq in Hq by done. simplify_eq. congruence.
    + rewrite list_lookup_insert_ne in Hq by done. auto.
  - intros d Hd. apply Hin in Hd. apply lookup_lt_is_Some.
    rewrite length_insert. by apply lookup_lt_is_Some.
  - rewrite Hcpu, Hop. case_bool_decide as E.
    + subst o. cbn. by rewrite list_lookup_insert_eq by done.
    + rewrite Hc. destruct o as [d|]; [|done]. cbn.
      rewrite list_lookup_insert_ne by congruence. done.
  - intros d. destruct (decide (d = c)) as [->|Hdc].
    + rewrite list_lookup_insert_eq by done. congruence.
    + rewrite list_lookup_insert_ne by done. auto.
  - intros d. destruct (decide (d = c)) as [->|Hdc].
    + rewrite list_lookup_insert_eq by done. congruence.
    + rewrite list_lookup_insert_ne by done. auto.
Qed.

(** The [xchg] that finds the lock free, and the store that frees it. *)
Lemma lock_inv_change s o c p p' o' lk' :
  lock_inv s o -> ms_pc s !! c = Some p -> (o = None \/ o = Some c) ->
  p' <> Panicked -> p' <> R_holding_cpu false -> owns p' = bool_decide (o' = Some c) ->
  (o' = None \/ o' = Some c) ->
  lk_locked lk' = bool_decide (is_Some o') -> named p' = false -> lk_cpu lk' = None ->
  lock_inv (MSys lk' (<[c := p']> (ms_pc s))) o'.
Proof.
  intros [Hl Ho Hin Hc Hn Hr] Hp Hoc Hn' Hr' Hown Hoc' Hlk Hnm Hcpu.
  pose proof (lookup_lt_Some _ _ _ Hp) as Hlt. constructor; cbn [ms_lock ms_pc].
  - done.
  - intros d q Hq. destruct (decide (d = c)) as [->|Hdc].
    + rewrite list_lookup_insert_eq in Hq by done. by simplify_eq.
    + rewrite list_lookup_insert_ne in Hq by done. rewrite (Ho d q Hq).
      rewrite !bool_decide_eq_false_2; [done|destruct Hoc'; congruence|].
      destruct Hoc; congruence.
  - intros d ->. destruct Hoc'; simplify_eq. by rewrite list_lookup_insert_eq.
  - rewrite Hcpu. destruct Hoc' as [->| ->]; [done|]. cbn.
    rewrite list_lookup_insert_eq by done. cbn. by rewrite Hnm.
  - intros d. destruct (decide (d = c)) as [->|Hdc].
    + rewrite list_lookup_insert_eq by done. congruence.
    + rewrite list_lookup_insert_ne by done. auto.
  - intros d. destruct (decide (d = c)) as [->|Hdc].
    + rewrite list_lookup_insert_eq by done. congruence.
    + rewrite list_lookup_insert_ne by done. auto.
Qed.

Lemma lock_step_inv s s' o : lock_inv s o -> lock_step s s' -> exists o', lock_inv s' o'.
Proof.
  intros Hi Hs. destruct Hs as [s c p p' lk' Hp E].
  pose proof (li_owns s o Hi c p Hp) as Hop. pose proof (li_locked s o Hi) as Hlk.
  pose proof (li_cpu s o Hi) as Hcpu.
  assert (Hme : owns p = true -> o = Some c /\ lk_locked (ms_lock s) = true /\
            lk_cpu (ms_lock s) = if named p then Some c else None).
  { intros Ht. rewrite Hop in Ht. apply bool_decide_eq_true in Ht as ->.
    rewrite Hcpu, Hlk. cbn. by rewrite Hp. }
  assert (Hother : owns p = false -> lk_cpu (ms_lock s) <> Some c).
  { intros Hf. rewrite Hop in Hf. apply bool_decide_eq_false in Hf. rewrite Hcpu.
    destruct o as [d|]; [|done]. cbn. destruct (ms_pc s !! d) as [q|]; [|done]. cbn.
    destruct (named q); congruence. }
  destruct p; cbn in E; simplify_eq;
    try (exists o; eapply lock_inv_keep; try done; fail).
  - exists o. unfold held. rewrite bool_decide_eq_false_2 by auto. rewrite andb_false_r.
    by eapply lock_inv_keep.
  - destruct (lk_locked (ms_lock s)) eqn:L.
    + exists o. eapply lock_inv_keep; try done.
    + exists (Some c). symmetry in Hlk. apply bool_decide_eq_false in Hlk.
      destruct o as [d|]; [by destruct Hlk; eexists|].
      eapply lock_inv_change; try done; auto; cbn; by rewrite ?bool_decide_eq_true_2.
  - destruct (Hme eq_refl) as (-> & HL & HC). exists (Some c).
    eapply lock_inv_keep; try done.
  - destruct (Hme eq_refl) as (-> & HL & HC). exists (Some c).
    rewrite HL. eapply lock_inv_keep; try done.
  - destruct (Hme eq_refl) as (-> & HL & HC). exists (Some c).
    destruct locked; [|by apply (li_read _ _ Hi) in Hp].
    unfold held. rewrite bool_decide_eq_true_2 by done. by eapply lock_inv_keep.
  - destruct (Hme eq_refl) as (-> & HL & HC). exists None.
    eapply lock_inv_change; try done; auto.
  - by apply (li_nopanic _ _ Hi) in Hp.
Qed.

Lemma lock_reach_inv s : lock_reach s -> exists o, lock_inv s o.
Proof.
  induction 1 as [s Hs|s s' _ [o IH] Hst].
  - exists None. by apply lock_start_inv.
  - by eapply lock_step_inv.
Qed.


(** The lock is never stuck: if a CPU spins in [acquire], then either the lock
    is free and the next [xchg] of that CPU takes it, or some other CPU is in its
    critical section or on the way through it. *)
Theorem spinlock_progress s c :
  lock_reach s -> ms_pc s !! c = Some A_spin ->
  (exists s', lock_step s s' /\ ms_pc s' !! c = Some A_set) \/
  (exists d q, ms_pc s !! d = Some q /\ owns q = true /\ d <> c).
Proof.
  intros Hreach Hc. pose proof (lock_reach_inv s Hreach) as (o & Hi).
  destruct o as [d|].
  - right. destruct (li_in _ _ Hi d eq_refl) as [q Hq].
    exists d, q. pose proof (li_owns _ _ Hi d q Hq) as Ho.
    rewrite bool_decide_eq_true_2 in Ho by done. split_and!; try done.
    intros ->. by simplify_eq.
  - left. pose proof (li_locked _ _ Hi) as Hl. cbn in Hl.
    eexists. split; [eapply LockStep; [exact Hc|cbn; by rewrite Hl]|].
    cbn. apply list_lookup_insert_eq. by eapply lookup_lt_Some.
Qed.

(** Two CPUs, both past the [holding] check. *)
Definition demo_spin : msys := MSys initlock [A_spin; A_spin].

Lemma demo_spin_reach : lock_reach demo_spin.
Proof.
  unfold lock_reach, demo_spin.
  eapply reach_step; [|apply (LockStep (MSys initlock [A_holding_cpu false; A_spin]) 0
    (A_holding_cpu false) A_spin initlock); reflexivity].
  eapply reach_step; [|apply (LockStep (MSys initlock [A_holding; A_spin]) 0
    A_holding (A_holding_cpu false) initlock); reflexivity].
  eapply reach_step; [|apply (LockStep (MSys initlock [Out; A_spin]) 0
    Out A_holding initlock); reflexivity].
  eapply reach_step; [|apply (LockStep (MSys initlock [Out; A_holding_cpu false]) 1
    (A_holding_cpu false) A_spin initlock); reflexivity].
  eapply reach_step; [|apply (LockStep (MSys initlock [Out; A_holding]) 1
    A_holding (A_holding_cpu false) initlock); reflexivity].
  eapply reach_step; [|apply (LockStep (MSys initlock [Out; Out]) 1
    Out A_holding initlock); reflexivity].
  apply reach_init. split; [done|repeat constructor].
Qed.


Lemma spinlock_progress_witness :
  (exists s', lock_step demo_spin s' /\ ms_pc s' !! 0%nat = Some A_set) \/
  (exists d q, ms_pc demo_spin !! d = Some q /\ owns q = true /\ d <> 0%nat).
Proof. apply (spinlock_progress demo_spin 0); [apply demo_spin_reach|reflexivity]. Defined.
