(* ===== verification/Proc.v ===== *)
(** [proc.c]: the process table, scheduling, [fork], [exit], [wait], [sleep],
    [wakeup] and [kill].

    A process is named by its index in [ptable.proc]; a null pointer is [None]. Each
    definition below is the code between two points where [ptable.lock] is free, with
    the lock taken and released through the functions of Spinlock.v; [swtch] into the
    scheduler and the scheduler's way back to a process are two such stretches. The
    allocator, the page tables and the file layer are reached through the operations
    of the class [ProcEnv]. *)

From S2P Require Import Prelude CString Mmu Spinlock.

Definition NPROC : nat := 64.
Definition KSTACKSIZE : Z := 4096.
Definition NOFILE : nat := 16.

Inductive procstate := UNUSED | EMBRYO | SLEEPING | RUNNABLE | RUNNING | ZOMBIE.

#[export] Instance procstate_eq_dec : EqDecision procstate.
Proof. solve_decision. Defined.

(** The registers of [struct trapframe] without its padding. *)
Record trapframe := Trapframe {
  tf_edi : Z; tf_esi : Z; tf_ebp : Z; tf_oesp : Z;
  tf_ebx : Z; tf_edx : Z; tf_ecx : Z; tf_eax : Z;
  tf_gs : Z; tf_fs : Z; tf_es : Z; tf_ds : Z; tf_trapno : Z;
  tf_err : Z; tf_eip : Z; tf_cs : Z; tf_eflags : Z; tf_esp : Z; tf_ss : Z
}.

Definition tf_zero : trapframe := Trapframe 0 0 0 0 0 0 0 0 0 0 0 0 0 0 0 0 0 0 0.

(** The saved registers, the word above them (where [forkret] returns to), and the
    local variable of [sched] that outlives the switch on the kernel stack. *)
Record context := Context {
  cx_edi : Z; cx_esi : Z; cx_ebx : Z; cx_ebp : Z; cx_eip : Z;
  cx_ret : Z;
  cx_intena : bool
}.

Definition sizeof_trapframe : Z := 76.
Definition sizeof_context : Z := 20.

(** What a process sleeps on: the address of a process ([wait]) or another address. *)
Inductive pchan := ChProc (i : nat) | ChAddr (a : Z).

#[export] Instance pchan_eq_dec : EqDecision pchan.
Proof. solve_decision. Defined.

Record proc := Proc {
  p_sz : Z;
  p_pgdir : Z;
  p_kstack : Z;
  p_state : procstate;
  p_pid : Z;
  p_parent : option nat;
  p_tf : trapframe;              (** the contents of [*p->tf] *)
  p_tfaddr : Z;                  (** the pointer [p->tf] *)
  p_ctx : context;
  p_ctxaddr : Z;
  p_chan : option pchan;
  p_killed : bool;
  p_ofile : list (option nat);
  p_cwd : option nat;
  p_name : list Z
}.

Definition proc_zero : proc :=
  Proc 0 0 0 UNUSED 0 None tf_zero 0 (Context 0 0 0 0 0 0 false) 0 None false
    (replicate NOFILE None) None (replicate 16 0).

Definition set_state (st : procstate) (p : proc) : proc :=
  Proc (p_sz p) (p_pgdir p) (p_kstack p) st (p_pid p) (p_parent p) (p_tf p) (p_tfaddr p)
    (p_ctx p) (p_ctxaddr p) (p_chan p) (p_killed p) (p_ofile p) (p_cwd p) (p_name p).
Definition set_pid (v : Z) (p : proc) : proc :=
  Proc (p_sz p) (p_pgdir p) (p_kstack p) (p_state p) v (p_parent p) (p_tf p) (p_tfaddr p)
    (p_ctx p) (p_ctxaddr p) (p_chan p) (p_killed p) (p_ofile p) (p_cwd p) (p_name p).
Definition set_kstack (v : Z) (p : proc) : proc :=
  Proc (p_sz p) (p_pgdir p) v (p_state p) (p_pid p) (p_parent p) (p_tf p) (p_tfaddr p)
    (p_ctx p) (p_ctxaddr p) (p_chan p) (p_killed p) (p_ofile p) (p_cwd p) (p_name p).
Definition set_pgdir (v : Z) (p : proc) : proc :=
  Proc (p_sz p) v (p_kstack p) (p_state p) (p_pid p) (p_parent p) (p_tf p) (p_tfaddr p)
    (p_ctx p) (p_ctxaddr p) (p_chan p) (p_killed p) (p_ofile p) (p_cwd p) (p_name p).
Definition set_sz (v : Z) (p : proc) : proc :=
  Proc v (p_pgdir p) (p_kstack p) (p_state p) (p_pid p) (p_parent p) (p_tf p) (p_tfaddr p)
    (p_ctx p) (p_ctxaddr p) (p_chan p) (p_killed p) (p_ofile p) (p_cwd p) (p_name p).
Definition set_parent (v : option nat) (p : proc) : proc :=
  Proc (p_sz p) (p_pgdir p) (p_kstack p) (p_state p) (p_pid p) v (p_tf p) (p_tfaddr p)
    (p_ctx p) (p_ctxaddr p) (p_chan p) (p_killed p) (p_ofile p) (p_cwd p) (p_name p).
Definition set_tf (v : trapframe) (p : proc) : proc :=
  Proc (p_sz p) (p_pgdir p) (p_kstack p) (p_state p) (p_pid p) (p_parent p) v (p_tfaddr p)
    (p_ctx p) (p_ctxaddr p) (p_chan p) (p_killed p) (p_ofile p) (p_cwd p) (p_name p).
Definition set_stack (tfa : Z) (cx : context) (cxa : Z) (p : proc) : proc :=
  Proc (p_sz p) (p_pgdir p) (p_kstack p) (p_state p) (p_pid p) (p_parent p) (p_tf p) tfa
    cx cxa (p_chan p) (p_killed p) (p_ofile p) (p_cwd p) (p_name p).
Definition set_chan (v : option pchan) (p : proc) : proc :=
  Proc (p_sz p) (p_pgdir p) (p_kstack p) (p_state p) (p_pid p) (p_parent p) (p_tf p)
    (p_tfaddr p) (p_ctx p) (p_ctxaddr p) v (p_killed p) (p_ofile p) (p_cwd p) (p_name p).
Definition set_killed (v : bool) (p : proc) : proc :=
  Proc (p_sz p) (p_pgdir p) (p_kstack p) (p_state p) (p_pid p) (p_parent p) (p_tf p)
    (p_tfaddr p) (p_ctx p) (p_ctxaddr p) (p_chan p) v (p_ofile p) (p_cwd p) (p_name p).
Definition set_ofile (v : list (option nat)) (p : proc) : proc :=
  Proc (p_sz p) (p_pgdir p) (p_kstack p) (p_state p) (p_pid p) (p_parent p) (p_tf p)
    (p_tfaddr p) (p_ctx p) (p_ctxaddr p) (p_chan p) (p_killed p) v (p_cwd p) (p_name p).
Definition set_cwd (v : option nat) (p : proc) : proc :=
  Proc (p_sz p) (p_pgdir p) (p_kstack p) (p_state p) (p_pid p) (p_parent p) (p_tf p)
    (p_tfaddr p) (p_ctx p) (p_ctxaddr p) (p_chan p) (p_killed p) (p_ofile p) v (p_name p).
Definition set_name (v : list Z) (p : proc) : proc :=
  Proc (p_sz p) (p_pgdir p) (p_kstack p) (p_state p) (p_pid p) (p_parent p) (p_tf p)
    (p_tfaddr p) (p_ctx p) (p_ctxaddr p) (p_chan p) (p_killed p) (p_ofile p) (p_cwd p) v.

Definition set_eax (v : Z) (t : trapframe) : trapframe :=
  Trapframe (tf_edi t) (tf_esi t) (tf_ebp t) (tf_oesp t) (tf_ebx t) (tf_edx t) (tf_ecx t) v
    (tf_gs t) (tf_fs t) (tf_es t) (tf_ds t) (tf_trapno t) (tf_err t) (tf_eip t) (tf_cs t)
    (tf_eflags t) (tf_esp t) (tf_ss t).

(** What proc.c asks of the other parts of the kernel, over their state [E]. *)
Class ProcEnv (E : Type) := {
  env_kalloc : M E Z;
  env_kfree : Z -> M E unit;
  env_setupkvm : M E Z;
  env_inituvm : Z -> list Z -> M E unit;
  env_copyuvm : Z -> Z -> M E Z;
  env_freevm : Z -> M E unit;
  env_allocuvm : Z -> Z -> Z -> M E Z;
  env_deallocuvm : Z -> Z -> Z -> M E Z;
  env_filedup : nat -> M E unit;
  env_fileclose : nat -> M E unit;
  env_idup : nat -> M E unit;
  env_iput_op : nat -> M E unit;       (** [begin_op(); iput(ip); end_op();] *)
  env_namei_root : M E (option nat)
}.

(** A CPU: its interrupt state, its APIC id and the process it runs. *)
Record cpuinfo := Cpuinfo { ci_cpu : cpu; ci_apicid : Z; ci_proc : option nat }.

Record kst (E : Type) := Kst {
  k_procs : list proc;          (** ptable.proc *)
  k_lock : spinlock;            (** ptable.lock *)
  k_nextpid : Z;
  k_initproc : option nat;
  k_cpus : list cpuinfo;
  k_env : E
}.
Arguments Kst {E}.
Arguments k_procs {E} _.
Arguments k_lock {E} _.
Arguments k_nextpid {E} _.
Arguments k_initproc {E} _.
Arguments k_cpus {E} _.
Arguments k_env {E} _.

Section proc.
Context {E : Type} `{!ProcEnv E}.
Local Abbreviation K := (M (kst E)).
(** Link-time addresses, and the bytes of initcode.S. *)
Variables (forkret_addr trapret_addr : Z) (initcode : list Z).

(** ** Access to the state *)

Definition upd (i : nat) (f : proc -> proc) : K unit := modify (fun s =>
  Kst (alter f i (k_procs s)) (k_lock s) (k_nextpid s) (k_initproc s) (k_cpus s) (k_env s)).

Definition map_procs (f : proc -> proc) : K unit := modify (fun s =>
  Kst (f <$> k_procs s) (k_lock s) (k_nextpid s) (k_initproc s) (k_cpus s) (k_env s)).

Definition upd_cpu (c : nat) (f : cpuinfo -> cpuinfo) : K unit := modify (fun s =>
  Kst (k_procs s) (k_lock s) (k_nextpid s) (k_initproc s) (alter f c (k_cpus s)) (k_env s)).

Definition set_nextpid (v : Z) : K unit := modify (fun s =>
  Kst (k_procs s) (k_lock s) v (k_initproc s) (k_cpus s) (k_env s)).

Definition set_initproc (v : option nat) : K unit := modify (fun s =>
  Kst (k_procs s) (k_lock s) (k_nextpid s) v (k_cpus s) (k_env s)).

(** Run an operation of another part of the kernel. *)
Definition on_env {A} (m : M E A) : K A := fun s =>
  match m (k_env s) with
  | Ret (a, e) => Ret (a, Kst (k_procs s) (k_lock s) (k_nextpid s) (k_initproc s) (k_cpus s) e)
  | Panic x => Panic x | Block => Block | Fault => Fault | NoFuel => NoFuel
  end.

(** Run code of CPU [c] on [ptable.lock]. *)
Definition on_lock {A} (c : nat) (m : M (cpu * spinlock) A) : K A := fun s =>
  match k_cpus s !! c with
  | None => Fault
  | Some ci =>
      match m (ci_cpu ci, k_lock s) with
      | Ret (a, (cp, lk)) =>
          Ret (a, Kst (k_procs s) lk (k_nextpid s) (k_initproc s)
                    (<[c := Cpuinfo cp (ci_apicid ci) (ci_proc ci)]> (k_cpus s)) (k_env s))
      | Panic x => Panic x | Block => Block | Fault => Fault | NoFuel => NoFuel
      end
  end.

Definition acquire_ptable (c : nat) : K unit := on_lock c (acquire c).
Definition release_ptable (c : nat) : K unit := on_lock c (release c).

(** Dereference of a process pointer. *)
Definition getproc (i : nat) : K proc := fun s =>
  match k_procs s !! i with Some p => Ret (p, s) | None => Fault end.

Definition getcpu (c : nat) : K cpuinfo := fun s =>
  match k_cpus s !! c with Some ci => Ret (ci, s) | None => Fault end.

(** ** CPUs *)

Definition mycpu (c : nat) (lapicid : Z) : K nat :=
  let* ci := getcpu c in
  if c_if (ci_cpu ci) then panic "mycpu called with interrupts enabled\n"
  else
    let* cs := gets k_cpus in
    match findi (fun x => ci_apicid x =? lapicid) cs with
    | Some i => ret i
    | None => panic "unknown apicid\n"
    end.

(** [myproc()] on CPU [c]. *)
Definition myproc (c : nat) : K (option nat) :=
  on_lock c (on_cpu pushcli) ;;;
  let* ci := getcpu c in
  on_lock c (on_cpu popcli) ;;;
  ret (ci_proc ci).

(** [myproc()] where the code dereferences the result. *)
Definition curproc (c : nat) : K nat :=
  let* p := myproc c in
  match p with Some i => ret i | None => fault end.

(** ** Processes *)

Definition is_unused (p : proc) : bool := bool_decide (p_state p = UNUSED).

Definition allocproc (c : nat) : K (option nat) :=
  acquire_ptable c ;;;
  let* ps := gets k_procs in
  match findi is_unused ps with
  | None => release_ptable c ;;; ret None
  | Some i =>
      upd i (set_state EMBRYO) ;;;
      let* pid := gets k_nextpid in
      upd i (set_pid pid) ;;;
      set_nextpid (s32 (pid + 1)) ;;;
      release_ptable c ;;;
      let* ks := on_env env_kalloc in
      upd i (set_kstack ks) ;;;
      if ks =? 0 then upd i (set_state UNUSED) ;;; ret None
      else
        let sp := u32 (ks + KSTACKSIZE) in
        let tfa := u32 (sp - sizeof_trapframe) in
        let cxa := u32 (tfa - 4 - sizeof_context) in
        upd i (set_stack tfa (Context 0 0 0 0 forkret_addr trapret_addr false) cxa) ;;;
        ret (Some i)
  end.

(** [p->chan == chan], with [None] for the null pointer. *)
Definition sleeps_on (ch : option pchan) (p : proc) : bool :=
  bool_decide (p_state p = SLEEPING) && bool_decide (p_chan p = ch).

Definition wake (ch : option pchan) (p : proc) : proc :=
  if sleeps_on ch p then set_state RUNNABLE p else p.

Definition wakeup1 (ch : option pchan) : K unit := map_procs (wake ch).

Definition wakeup (c : nat) (ch : option pchan) : K unit :=
  acquire_ptable c ;;; wakeup1 ch ;;; release_ptable c.

Definition userinit (c : nat) : K unit :=
  let* o := allocproc c in
  set_initproc o ;;;
  match o with
  | None => fault
  | Some i =>
      let* pg := on_env env_setupkvm in
      upd i (set_pgdir pg) ;;;
      if pg =? 0 then panic "userinit: out of memory?"
      else
        on_env (env_inituvm pg initcode) ;;;
        upd i (set_sz PGSIZE) ;;;
        let cs := Z.lor (Z.shiftl SEG_UCODE 3) DPL_USER in
        let ds := Z.lor (Z.shiftl SEG_UDATA 3) DPL_USER in
        upd i (set_tf (Trapframe 0 0 0 0 0 0 0 0 0 0 ds ds 0 0 0 cs FL_IF PGSIZE ds)) ;;;
        let* p := getproc i in
        match Kernel.safestrcpy (p_name p) [105; 110; 105; 116; 99; 111; 100; 101; 0] 16 with
        | None => fault
        | Some nm =>
            upd i (set_name nm) ;;;
            let* cwd := on_env env_namei_root in
            upd i (set_cwd cwd) ;;;
            acquire_ptable c ;;;
            upd i (set_state RUNNABLE) ;;;
            release_ptable c
        end
  end.

(** [switchuvm(p)]: its checks; the segment and page-directory registers it loads
    are not part of the state. *)
Definition switchuvm (i : nat) : K unit :=
  let* p := getproc i in
  if p_kstack p =? 0 then panic "switchuvm: no kstack"
  else if p_pgdir p =? 0 then panic "switchuvm: no pgdir"
  else ret tt.

Definition growproc (c : nat) (n : Z) : K Z :=
  let* cur := curproc c in
  let* p := getproc cur in
  let sz := p_sz p in
  let* sz' := (if 0 <? n then on_env (env_allocuvm (p_pgdir p) sz (u32 (sz + n)))
               else if n <? 0 then on_env (env_deallocuvm (p_pgdir p) sz (u32 (sz + n)))
               else ret sz) in
  if (negb (n =? 0)) && (sz' =? 0) then ret (-1)
  else
    upd cur (set_sz sz') ;;;
    switchuvm cur ;;;
    ret 0.

(** [for(i = 0; i < NOFILE; i++) if(curproc->ofile[i]) np->ofile[i] = filedup(...)] *)
Fixpoint fork_files (fs : list (option nat)) (i : nat) (np : nat) : K unit :=
  match fs with
  | [] => ret tt
  | None :: fs => fork_files fs (S i) np
  | Some f :: fs =>
      on_env (env_filedup f) ;;;
      upd np (fun p => set_ofile (<[i := Some f]> (p_ofile p)) p) ;;;
      fork_files fs (S i) np
  end.

Definition fork (c : nat) : K Z :=
  let* cur := curproc c in
  let* o := allocproc c in
  match o with
  | None => ret (-1)
  | Some np =>
      let* p := getproc cur in
      let* pg := on_env (env_copyuvm (p_pgdir p) (p_sz p)) in
      upd np (set_pgdir pg) ;;;
      if pg =? 0 then
        let* q := getproc np in
        on_env (env_kfree (p_kstack q)) ;;;
        upd np (set_kstack 0) ;;;
        upd np (set_state UNUSED) ;;;
        ret (-1)
      else
        upd np (set_sz (p_sz p)) ;;;
        upd np (set_parent (Some cur)) ;;;
        upd np (set_tf (set_eax 0 (p_tf p))) ;;;
        fork_files (p_ofile p) 0 np ;;;
        match p_cwd p with
        | None => fault
        | Some ip =>
            on_env (env_idup ip) ;;;
            upd np (set_cwd (Some ip)) ;;;
            let* q := getproc np in
            match Kernel.safestrcpy (p_name q) (p_name p) 16 with
            | None => fault
            | Some nm =>
                upd np (set_name nm) ;;;
                let* q := getproc np in
                acquire_ptable c ;;;
                upd np (set_state RUNNABLE) ;;;
                release_ptable c ;;;
                ret (p_pid q)
            end
        end
  end.

(** ** Switching *)

(** [sched()] up to its [swtch]: the checks, and the saved [intena]. *)
Definition sched (c : nat) : K unit :=
  let* i := curproc c in
  let* lk := gets k_lock in
  let* h := on_lock c (on_cpu (holding c lk)) in
  if negb h then panic "sched ptable.lock"
  else
    let* ci := getcpu c in
    if negb (c_ncli (ci_cpu ci) =? 1) then panic "sched locks"
    else
      let* p := getproc i in
      if bool_decide (p_state p = RUNNING) then panic "sched running"
      else if c_if (ci_cpu ci) then panic "sched interruptible"
      else upd i (fun p => set_stack (p_tfaddr p)
             (Context (cx_edi (p_ctx p)) (cx_esi (p_ctx p)) (cx_ebx (p_ctx p))
                (cx_ebp (p_ctx p)) (cx_eip (p_ctx p)) (cx_ret (p_ctx p))
                (c_intena (ci_cpu ci))) (p_ctxaddr p) p).

(** [swtch] into [scheduler()]: the rest of its loop body and, when it finds no
    other process, [release(&ptable.lock)]. *)
Definition scheduler_back (c : nat) : K unit :=
  upd_cpu c (fun ci => Cpuinfo (ci_cpu ci) (ci_apicid ci) None) ;;;
  release_ptable c.

Definition sched_out (c : nat) : K unit := sched c ;;; scheduler_back c.

(** One turn of the loop of [scheduler()] at entry [i] of the table, up to the
    [swtch] into the process; [false] is the [continue]. *)
Definition scheduler_pick (c i : nat) : K bool :=
  upd_cpu c (fun ci => Cpuinfo (Cpu true (c_ncli (ci_cpu ci)) (c_intena (ci_cpu ci)))
                         (ci_apicid ci) (ci_proc ci)) ;;;
  acquire_ptable c ;;;
  let* p := getproc i in
  if negb (bool_decide (p_state p = RUNNABLE)) then release_ptable c ;;; ret false
  else
    upd_cpu c (fun ci => Cpuinfo (ci_cpu ci) (ci_apicid ci) (Some i)) ;;;
    switchuvm i ;;;
    upd i (set_state RUNNING) ;;;
    ret true.

(** Back in the process after its [swtch] returned: the end of [sched] restores
    [intena], [sleep] clears [p->chan], and [yield], [sleep] or [forkret] release the
    table lock. *)
Definition resume (c i : nat) : K unit :=
  let* p := getproc i in
  upd_cpu c (fun ci => Cpuinfo (Cpu (c_if (ci_cpu ci)) (c_ncli (ci_cpu ci))
                                  (cx_intena (p_ctx p))) (ci_apicid ci) (ci_proc ci)) ;;;
  upd i (set_chan None) ;;;
  release_ptable c.

Definition forkret (c : nat) : K unit := release_ptable c.

Definition yield (c : nat) : K unit :=
  acquire_ptable c ;;;
  let* i := curproc c in
  upd i (set_state RUNNABLE) ;;;
  sched_out c.

(** [sleep(chan, lk)]; [lk] is [None] for the null pointer, [Some None] for
    [&ptable.lock], [Some (Some r)] for a lock whose release is [r]. *)
Definition sleep (c : nat) (ch : pchan) (lk : option (option (K unit))) : K unit :=
  let* o := myproc c in
  match o, lk with
  | None, _ => panic "sleep"
  | _, None => panic "sleep without lk"
  | Some i, Some l =>
      match l with
      | Some release_lk => acquire_ptable c ;;; release_lk
      | None => ret tt
      end ;;;
      upd i (set_chan (Some ch)) ;;;
      upd i (set_state SLEEPING) ;;;
      sched_out c
  end.

(** ** exit, wait, kill *)

Fixpoint close_files (fs : list (option nat)) (fd : nat) (cur : nat) : K unit :=
  match fs with
  | [] => ret tt
  | None :: fs => close_files fs (S fd) cur
  | Some f :: fs =>
      on_env (env_fileclose f) ;;;
      upd cur (fun p => set_ofile (<[fd := None]> (p_ofile p)) p) ;;;
      close_files fs (S fd) cur
  end.

(** The loop that passes the children of [cur] to init, entries [i ..] of the table. *)
Fixpoint reparent (n i cur : nat) (init : option nat) : K unit :=
  match n with
  | O => ret tt
  | S n =>
      let* p := getproc i in
      (if bool_decide (p_parent p = Some cur) then
         upd i (set_parent init) ;;;
         if bool_decide (p_state p = ZOMBIE) then wakeup1 (ChProc <$> init) else ret tt
       else ret tt) ;;;
      reparent n (S i) cur init
  end.

Definition exit (c : nat) : K unit :=
  let* cur := curproc c in
  let* init := gets k_initproc in
  if bool_decide (Some cur = init) then panic "init exiting"
  else
    let* p := getproc cur in
    close_files (p_ofile p) 0 cur ;;;
    match p_cwd p with
    | None => fault
    | Some ip =>
        on_env (env_iput_op ip) ;;;
        upd cur (set_cwd None) ;;;
        acquire_ptable c ;;;
        let* q := getproc cur in
        wakeup1 (ChProc <$> p_parent q) ;;;
        reparent NPROC 0 cur init ;;;
        upd cur (set_state ZOMBIE) ;;;
        sched_out c
    end.

Definition child_of (cur : nat) (p : proc) : bool := bool_decide (p_parent p = Some cur).
Definition zombie_child (cur : nat) (p : proc) : bool :=
  child_of cur p && bool_decide (p_state p = ZOMBIE).

(** [wait()] from where it holds no lock: it returns, or it goes to sleep and the
    caller runs the loop again when woken. *)
Inductive wait_res := WaitRet (pid : Z) | WaitSleep.

Definition wait (c : nat) : K wait_res :=
  let* cur := curproc c in
  acquire_ptable c ;;;
  let* ps := gets k_procs in
  match findi (zombie_child cur) ps with
  | Some i =>
      let* p := getproc i in
      on_env (env_kfree (p_kstack p)) ;;;
      upd i (set_kstack 0) ;;;
      on_env (env_freevm (p_pgdir p)) ;;;
      upd i (set_pid 0) ;;;
      upd i (set_parent None) ;;;
      upd i (fun p => set_name (<[0%nat := 0]> (p_name p)) p) ;;;
      upd i (set_killed false) ;;;
      upd i (set_state UNUSED) ;;;
      release_ptable c ;;;
      ret (WaitRet (p_pid p))
  | None =>
      let* me := getproc cur in
      if negb (existsb (child_of cur) ps) || p_killed me then
        release_ptable c ;;; ret (WaitRet (-1))
      else
        sleep c (ChProc cur) (Some None) ;;; ret WaitSleep
  end.

Definition kill (c : nat) (pid : Z) : K Z :=
  acquire_ptable c ;;;
  let* ps := gets k_procs in
  match findi (fun p => p_pid p =? pid) ps with
  | Some i =>
      upd i (set_killed true) ;;;
      upd i (fun p => if bool_decide (p_state p = SLEEPING) then set_state RUNNABLE p else p) ;;;
      release_ptable c ;;;
      ret 0
  | None => release_ptable c ;;; ret (-1)
  end.

Definition getproccount (c : nat) : K Z :=
  acquire_ptable c ;;;
  let* ps := gets k_procs in
  release_ptable c ;;;
  ret (Z.of_nat (length (List.filter (fun p => negb (is_unused p)) ps))).

(** [procdump()]: one line per process: pid, state, name, and for a sleeping one the
    return addresses up to the first zero. *)
Definition state_name (st : procstate) : string :=
  match st with
  | UNUSED => "unused" | EMBRYO => "embryo" | SLEEPING => "sleep "
  | RUNNABLE => "runble" | RUNNING => "run   " | ZOMBIE => "zombie"
  end.

Fixpoint until_zero (l : list Z) : list Z :=
  match l with [] => [] | x :: l => if x =? 0 then [] else x :: until_zero l end.

Definition procdump (m : mem) (ps : list proc) : list (Z * string * list Z * list Z) :=
  (fun p => (p_pid p, state_name (p_state p), p_name p,
             if bool_decide (p_state p = SLEEPING)
             then until_zero (getcallerpcs m (cx_ebp (p_ctx p) + 8)) else [])) <$>
  List.filter (fun p => negb (is_unused p)) ps.

End proc.
