(* ===== verification/ProcInv.v ===== *)
(** Theorems on [proc.c] (Proc.v): the invariant of the process table over every
    interleaving of its operations on any number of CPUs, and what [exit], [wait] and
    [kill] promise. *)

From S2P Require Import Prelude CString Mmu Spinlock Proc.

(** * Symbolic execution of the operations *)

(** The messages with which proc.c and the lock functions stop the machine. *)
Definition proc_panics : list string :=
  ["acquire"; "release"; "popcli"; "popcli - interruptible"; "sched ptable.lock";
   "sched locks"; "sched running"; "sched interruptible"; "sleep"; "sleep without lk";
   "switchuvm: no kstack"; "switchuvm: no pgdir"; "zombie exit"].

Definition other_panic (o : option string) : Prop :=
  match o with Some e => e ∉ proc_panics | None => True end.

(** An operation of another part of the kernel: it neither faults nor diverges, and
    panics only with its own messages. *)
Definition env_safe {E A} (m : M E A) : Prop := forall e,
  wp other_panic m e (fun _ _ => True).

Class ProcEnvSafe (E : Type) `{!ProcEnv E} := {
  safe_kalloc : env_safe (E := E) env_kalloc;
  safe_kfree v : env_safe (E := E) (env_kfree v);
  safe_copyuvm d sz : env_safe (E := E) (env_copyuvm d sz);
  safe_allocuvm d o n : env_safe (E := E) (env_allocuvm d o n);
  safe_deallocuvm d o n : env_safe (E := E) (env_deallocuvm d o n);
  safe_freevm d : env_safe (E := E) (env_freevm d);
  safe_filedup f : env_safe (E := E) (env_filedup f);
  safe_fileclose f : env_safe (E := E) (env_fileclose f);
  safe_idup i : env_safe (E := E) (env_idup i);
  safe_iput_op i : env_safe (E := E) (env_iput_op i);
  safe_setupkvm : env_safe (E := E) env_setupkvm;
  safe_inituvm d b : env_safe (E := E) (env_inituvm d b);
  safe_namei_root : env_safe (E := E) env_namei_root
}.

(** The nesting depths the code passes through. *)
Ltac zlit :=
  change (0 + 1 - 1) with 0; change (1 + 1 - 1) with 1; change (1 - 1) with 0;
  change (0 <? 0) with false; change (0 =? 0) with true;
  change (1 <? 0) with false; change (1 =? 0) with false; change (1 =? 1) with true;
  cbn.

Section run.
Context {E : Type} `{!ProcEnv E}.
Local Abbreviation wpk := (wp (S := kst E) other_panic).

(** A CPU after its first [pushcli] and after the matching [popcli]. *)
Definition ci_in (ci : cpuinfo) : cpuinfo :=
  Cpuinfo (Cpu false 1 (c_if (ci_cpu ci))) (ci_apicid ci) (ci_proc ci).
Definition ci_out (ci : cpuinfo) (p : option nat) : cpuinfo :=
  Cpuinfo (Cpu (c_intena (ci_cpu ci)) 0 (c_intena (ci_cpu ci))) (ci_apicid ci) p.

Lemma wp_acquire c ps lk np ip cs e ci Q :
  cs !! c = Some ci -> c_ncli (ci_cpu ci) = 0 -> lk_locked lk = false ->
  Q tt (Kst ps (Spinlock true (Some c)) np ip (<[c := ci_in ci]> cs) e) ->
  wpk (acquire_ptable c) (Kst ps lk np ip cs e) Q.
Proof.
  intros Hc Hn Hl HQ. destruct ci as [[iF n ia] ap pr], lk as [lo ow]. cbn in *. subst.
  unfold wp, acquire_ptable, on_lock. cbn. rewrite Hc. done.
Qed.

Lemma wp_release c ps np ip cs e ci Q :
  cs !! c = Some ci -> c_ncli (ci_cpu ci) = 1 -> c_if (ci_cpu ci) = false ->
  Q tt (Kst ps (Spinlock false None) np ip (<[c := ci_out ci (ci_proc ci)]> cs) e) ->
  wpk (release_ptable c) (Kst ps (Spinlock true (Some c)) np ip cs e) Q.
Proof.
  intros Hc Hn Hl HQ. destruct ci as [[iF n ia] ap pr]. cbn in *. subst.
  unfold wp, release_ptable, on_lock. cbn. rewrite Hc.
  unfold release, holding, on_cpu, bind, gets, ret, modify, popcli, pushcli; cbn.
  rewrite bool_decide_true by done. done.
Qed.

Lemma wp_myproc c ps lk np ip cs e ci Q :
  cs !! c = Some ci -> c_ncli (ci_cpu ci) = 0 ->
  (forall cs', cs' = <[c := Cpuinfo (Cpu (c_if (ci_cpu ci)) 0 (c_if (ci_cpu ci)))
                       (ci_apicid ci) (ci_proc ci)]> cs ->
   Q (ci_proc ci) (Kst ps lk np ip cs' e)) ->
  wpk (myproc c) (Kst ps lk np ip cs e) Q.
Proof.
  intros Hc Hn HQ. destruct ci as [[iF n ia] ap pr]. cbn in *. subst.
  pose proof (lookup_lt_Some _ _ _ Hc) as Hlt.
  unfold wp, myproc, on_lock, bind, getcpu, on_cpu, pushcli, popcli, ret. cbn. rewrite Hc. cbn.
  rewrite list_lookup_insert_eq by done. cbn.
  rewrite list_lookup_insert_eq by done. cbn. zlit. rewrite list_insert_insert_eq.
  by apply HQ.
Qed.

(** Inside the critical section [myproc] leaves the CPU as it is. *)
Lemma wp_myproc_in c ps lk np ip cs e ci Q :
  cs !! c = Some ci -> c_ncli (ci_cpu ci) = 1 -> c_if (ci_cpu ci) = false ->
  Q (ci_proc ci) (Kst ps lk np ip cs e) ->
  wpk (myproc c) (Kst ps lk np ip cs e) Q.
Proof.
  intros Hc Hn Hi HQ. destruct ci as [[iF n ia] ap pr]. cbn in *. subst.
  pose proof (lookup_lt_Some _ _ _ Hc) as Hlt.
  unfold wp, myproc, on_lock, bind, getcpu, on_cpu, pushcli, popcli, ret. cbn. rewrite Hc. cbn.
  rewrite list_lookup_insert_eq by done. cbn.
  rewrite list_lookup_insert_eq by done. cbn. zlit. rewrite list_insert_insert_eq.
  by rewrite list_insert_id by done.
Qed.

Lemma wp_upd i f ps lk np ip cs e p Q :
  ps !! i = Some p ->
  Q tt (Kst (<[i := f p]> ps) lk np ip cs e) ->
  wpk (upd i f) (Kst ps lk np ip cs e) Q.
Proof.
  intros Hi HQ. unfold wp, upd, modify. cbn.
  replace (alter f i ps) with (<[i := f p]> ps); [done|].
  apply list_eq. intros j. destruct (decide (i = j)) as [<-|Hj].
  - rewrite list_lookup_insert_eq by by eapply lookup_lt_Some.
    by rewrite list_lookup_alter_eq, Hi.
  - by rewrite list_lookup_insert_ne, list_lookup_alter_ne.
Qed.

Lemma wp_getproc i ps lk np ip cs e p Q :
  ps !! i = Some p -> Q p (Kst ps lk np ip cs e) ->
  wpk (getproc i) (Kst ps lk np ip cs e) Q.
Proof. intros Hi HQ. unfold wp, getproc. cbn. by rewrite Hi. Qed.

Lemma wp_env {A} (m : M E A) ps lk np ip cs e Q :
  env_safe m -> (forall a e', Q a (Kst ps lk np ip cs e')) ->
  wpk (on_env m) (Kst ps lk np ip cs e) Q.
Proof.
  intros Hm HQ. specialize (Hm e). unfold wp, on_env in *. cbn.
  by destruct (m e) as [[a e']| | | |].
Qed.

(** [sched] and the way back to the scheduler, from a critical section of the table
    lock with the state already changed. *)
Definition switched (ia : bool) (p : proc) : proc :=
  set_stack (p_tfaddr p)
    (Context (cx_edi (p_ctx p)) (cx_esi (p_ctx p)) (cx_ebx (p_ctx p)) (cx_ebp (p_ctx p))
       (cx_eip (p_ctx p)) (cx_ret (p_ctx p)) ia) (p_ctxaddr p) p.

Lemma wp_sched_out c ps np ip cs e ci i p Q :
  cs !! c = Some ci -> c_ncli (ci_cpu ci) = 1 -> c_if (ci_cpu ci) = false ->
  ci_proc ci = Some i -> ps !! i = Some p -> p_state p <> RUNNING ->
  Q tt (Kst (<[i := switched (c_intena (ci_cpu ci)) p]> ps) (Spinlock false None) np ip
         (<[c := ci_out ci None]> cs) e) ->
  wpk (sched_out c) (Kst ps (Spinlock true (Some c)) np ip cs e) Q.
Proof.
  intros Hc Hn Hi Hp Hps Hst HQ. pose proof (lookup_lt_Some _ _ _ Hc) as Hlt.
  unfold sched_out, sched, curproc. wbind.
  eapply wp_myproc_in; [done..|]. rewrite Hp. repeat wstep. wbind.
  assert (on_lock c (on_cpu (holding c (Spinlock true (Some c))))
    (Kst ps (Spinlock true (Some c)) np ip cs e) =
    Ret (true, Kst ps (Spinlock true (Some c)) np ip cs e)) as Hh.
  { destruct ci as [[iF n ia] ap pr]. cbn in *. subst. unfold on_lock. cbn. rewrite Hc.
    unfold on_cpu, holding, bind, pushcli, popcli, ret. cbn. zlit.
    rewrite bool_decide_true, list_insert_id by done. done. }
  unfold wp at 1. cbn [k_lock]. rewrite Hh. cbn [negb]. apply wp_bind.
  unfold wp at 1, getcpu. cbn [k_cpus]. rewrite Hc, Hn, Hi. zlit. apply wp_bind.
  eapply wp_getproc; [done|]. rewrite bool_decide_false by done.
  eapply wp_upd; [done|]. unfold scheduler_back. apply wp_bind.
  unfold wp at 1, upd_cpu, modify. cbn.
  replace (alter _ c cs) with (<[c := Cpuinfo (ci_cpu ci) (ci_apicid ci) None]> cs).
  2: { apply list_eq. intros j. destruct (decide (c = j)) as [<-|].
       - by rewrite list_lookup_insert_eq, list_lookup_alter_eq, Hc.
       - by rewrite list_lookup_insert_ne, list_lookup_alter_ne. }
  eapply wp_release; [by apply list_lookup_insert_eq|done..|].
  rewrite list_insert_insert_eq. exact HQ.
Qed.
End run.

(** * The invariant *)

Definition live (p : proc) : Prop := p_state p <> UNUSED.

(** The table [ps], the next pid [np], the process [init] and, per CPU, the process it
    runs, at points where the table lock is free. *)
Record table_ok (ps : list proc) (np : Z) (init : nat) (run : list (option nat)) : Prop := {
  t_len : length ps = NPROC;
  (** a process is RUNNING exactly when one CPU runs it *)
  t_run c i : run !! c = Some (Some i) -> exists p, ps !! i = Some p /\ p_state p = RUNNING;
  t_running i p : ps !! i = Some p -> p_state p = RUNNING -> exists c, run !! c = Some (Some i);
  t_one c c' i : run !! c = Some (Some i) -> run !! c' = Some (Some i) -> c = c';
  (** pids of live processes are positive, below [nextpid] and distinct *)
  t_pid i p : ps !! i = Some p -> live p -> 0 < p_pid p < np;
  t_distinct i j p q : ps !! i = Some p -> ps !! j = Some q -> live p -> live q ->
    p_pid p = p_pid q -> i = j;
  (** init exists for ever, and every other live process has a live parent that has
      not exited *)
  t_init : exists p, ps !! init = Some p /\ live p /\ p_state p <> ZOMBIE /\ p_parent p = None;
  t_parent i p : ps !! i = Some p -> live p -> i <> init ->
    exists q pq, p_parent p = Some q /\ q <> i /\ ps !! q = Some pq /\ live pq /\
      p_state pq <> ZOMBIE;
  t_unused i p : ps !! i = Some p -> p_state p = UNUSED -> p_parent p = None;
  (** a process asleep in [wait] has no exited child *)
  t_wait i j p : ps !! i = Some p -> p_state p = SLEEPING -> p_chan p = Some (ChProc j) ->
    j = i /\ forall k q, ps !! k = Some q -> p_parent q = Some i -> p_state q <> ZOMBIE;
  (** what a live process owns *)
  t_mem i p : ps !! i = Some p -> live p ->
    p_state p <> EMBRYO /\ p_kstack p <> 0 /\ p_pgdir p <> 0;
  t_cwd i p : ps !! i = Some p -> live p -> p_state p <> ZOMBIE -> p_cwd p <> None;
  t_name i p : ps !! i = Some p -> length (p_name p) = 16%nat
}.

(** Reduce lookups in updated tables to cases on the index. *)
Ltac ins :=
  repeat match goal with
  | H : <[_ := _]> _ !! _ = Some _ |- _ =>
      apply list_lookup_insert_Some in H as [(? & ? & ?)|[? H]]; simplify_eq
  end.

(** How the CPUs follow a change of process [i] to state [st]. *)
Record run_moves (run run' : list (option nat)) (i : nat) (st : procstate) : Prop := {
  m_new c : run' !! c = Some (Some i) -> st = RUNNING;
  m_has : st = RUNNING -> exists c, run' !! c = Some (Some i);
  m_one c c' : run' !! c = Some (Some i) -> run' !! c' = Some (Some i) -> c = c';
  m_other c j : j <> i -> run' !! c = Some (Some j) <-> run !! c = Some (Some j)
}.

Lemma run_stops ps np init run c i st :
  table_ok ps np init run -> run !! c = Some (Some i) -> st <> RUNNING ->
  run_moves run (<[c := None]> run) i st.
Proof.
  intros Hok Hc Hst. pose proof (t_one _ _ _ _ Hok) as Hone. split; try done.
  - intros c' H. ins. by pose proof (Hone _ _ _ Hc H).
  - intros c1 c2 H1 H2. ins. eauto.
  - intros c' j Hj. split; intros H; ins; try done.
    rewrite list_lookup_insert_ne; [done|]. intros ->. by simplify_eq.
Qed.

Lemma run_starts ps np init run c i p :
  table_ok ps np init run -> run !! c = Some None -> ps !! i = Some p ->
  p_state p <> RUNNING -> run_moves run (<[c := Some i]> run) i RUNNING.
Proof.
  intros Hok Hc Hi Hst. pose proof (t_run _ _ _ _ Hok) as Hrun.
  pose proof (lookup_lt_Some _ _ _ Hc).
  assert (forall c', run !! c' = Some (Some i) -> False) as Hno.
  { intros c' (q & Hq & Hs)%Hrun. by simplify_eq. }
  split; try done.
  - exists c. by rewrite list_lookup_insert_eq.
  - intros c1 c2 H1 H2. ins; try done; exfalso; eauto.
  - intros c' j Hj. split; intros H'; ins; try done.
    rewrite list_lookup_insert_ne; [done|]. intros ->. by simplify_eq.
Qed.

Lemma run_stays ps np init run i p p' :
  table_ok ps np init run -> ps !! i = Some p ->
  (p_state p = RUNNING <-> p_state p' = RUNNING) -> run_moves run run i (p_state p').
Proof.
  intros Hok Hi Heq. pose proof (t_run _ _ _ _ Hok) as Hrun. split; try done.
  - intros c (q & Hq & Hs)%Hrun. simplify_eq. tauto.
  - intros Hs. eapply (t_running _ _ _ _ Hok); [done|tauto].
  - intros c c'. by apply (t_one _ _ _ _ Hok).
Qed.

Lemma t_run_insert ps np init run run' i p' c j :
  table_ok ps np init run -> run_moves run run' i (p_state p') -> (i < length ps)%nat ->
  run' !! c = Some (Some j) -> exists q, <[i := p']> ps !! j = Some q /\ p_state q = RUNNING.
Proof.
  intros Hok Hm Hi Hc. destruct (decide (j = i)) as [->|Hj].
  - rewrite list_lookup_insert_eq by done. eauto using m_new.
  - rewrite list_lookup_insert_ne by done. eapply (t_run _ _ _ _ Hok).
    by apply (m_other _ _ _ _ Hm).
Qed.

Lemma t_running_insert ps np init run run' i p' j q :
  table_ok ps np init run -> run_moves run run' i (p_state p') ->
  <[i := p']> ps !! j = Some q -> p_state q = RUNNING -> exists c, run' !! c = Some (Some j).
Proof.
  intros Hok Hm Hj Hq. ins; [by apply (m_has _ _ _ _ Hm)|].
  destruct (t_running _ _ _ _ Hok j q Hj Hq) as [c Hc]. exists c. by apply (m_other _ _ _ _ Hm).
Qed.

Lemma t_one_insert ps np init run run' i st c c' j :
  table_ok ps np init run -> run_moves run run' i st ->
  run' !! c = Some (Some j) -> run' !! c' = Some (Some j) -> c = c'.
Proof.
  intros Hok Hm H1 H2. destruct (decide (j = i)) as [->|Hj]; [by eapply m_one|].
  apply (m_other _ _ _ _ Hm) in H1, H2; try done. by eapply (t_one _ _ _ _ Hok).
Qed.

(** A live process changes its scheduling state. *)
Definition awake_or_asleep (p : proc) : Prop := live p /\ p_state p <> ZOMBIE.

Lemma table_move ps np init run run' i p p' :
  table_ok ps np init run -> ps !! i = Some p ->
  awake_or_asleep p -> awake_or_asleep p' -> p_state p' <> EMBRYO ->
  p_pid p' = p_pid p -> p_parent p' = p_parent p -> p_kstack p' = p_kstack p ->
  p_pgdir p' = p_pgdir p -> p_cwd p' = p_cwd p -> p_name p' = p_name p ->
  (forall j, p_state p' = SLEEPING -> p_chan p' = Some (ChProc j) ->
     j = i /\ forall k q, ps !! k = Some q -> p_parent q = Some i -> p_state q <> ZOMBIE) ->
  run_moves run run' i (p_state p') -> table_ok (<[i := p']> ps) np init run'.
Proof.
  intros Hok Hi [Hl Hz] [Hl' Hz'] He Hpid Hpar Hks Hpg Hcwd Hnm Hw Hm.
  pose proof (lookup_lt_Some _ _ _ Hi) as Hlt. destruct Hok as [].
  pose proof (Build_table_ok ps np init run) as Hok. specialize (Hok ltac:(done)).
  repeat specialize (Hok ltac:(assumption)).
  split.
  - by rewrite length_insert.
  - intros c j. by eapply t_run_insert.
  - intros j q. by eapply t_running_insert.
  - intros c c' j. by eapply t_one_insert.
  - intros j q Hj ?. ins; [rewrite Hpid|]; eauto.
  - intros j k q r Hj Hk ? ? Hp. ins; try done; rewrite ?Hpid in Hp; eauto.
  - destruct t_init0 as (q & Hq & ? & ? & ?). destruct (decide (init = i)) as [->|Hne].
    + exists p'. rewrite list_lookup_insert_eq by done. simplify_eq. by rewrite Hpar.
    + exists q. by rewrite list_lookup_insert_ne.
  - intros j q Hj Hq Hne. assert (exists r pr, p_parent q = Some r /\ r <> j /\ ps !! r = Some pr /\
      live pr /\ p_state pr <> ZOMBIE) as (r & pr & ? & ? & ? & ? & ?).
    { ins; [rewrite Hpar|]; eauto. }
    destruct (decide (r = i)) as [->|]; [exists i, p'|exists r, pr].
    + by rewrite list_lookup_insert_eq.
    + by rewrite list_lookup_insert_ne.
  - intros j q Hj Hq. ins; eauto.
  - intros j k q Hj Hq Hch.
    assert (k = j /\ forall l r, ps !! l = Some r -> p_parent r = Some j ->
      p_state r <> ZOMBIE) as [-> Hnz] by (ins; eauto).
    split; [done|]. intros l r Hl0. ins; eauto.
  - intros j q Hj Hq. ins; eauto. rewrite Hks, Hpg. split; [done|]. by eapply t_mem0.
  - intros j q Hj Hq. ins; eauto. rewrite Hcwd. eauto.
  - intros j q Hj. ins; eauto. rewrite Hnm. eauto.
Qed.

(** What the other processes see of a wakeup: some sleepers become RUNNABLE. *)
Definition woken (p q : proc) : Prop :=
  (p_state q = p_state p \/ p_state p = SLEEPING /\ p_state q = RUNNABLE) /\
  p_pid q = p_pid p /\ p_chan q = p_chan p /\ p_kstack q = p_kstack p /\
  p_pgdir q = p_pgdir p /\ p_cwd q = p_cwd p /\ p_name q = p_name p.

Lemma woken_refl p : woken p p.
Proof. unfold woken. tauto. Qed.

Lemma woken_trans p q r : woken p q -> woken q r -> woken p r.
Proof. intros (Hs & ?&?&?&?&?&?) (Hs' & ?&?&?&?&?&?). split; [|split_and!; congruence].
  destruct Hs as [Hs|[Hs Hr]]; [rewrite <- Hs; tauto|]. rewrite Hs in *.
  destruct Hs' as [Hs'|[? ?]]; [|congruence]. right. split; [done|congruence]. Qed.

Lemma woken_live p q : woken p q -> live p <-> live q.
Proof. unfold live. intros ([->|[-> ->]] & _); split; congruence. Qed.

Lemma woken_state p q st : woken p q -> st <> SLEEPING -> st <> RUNNABLE ->
  p_state q = st <-> p_state p = st.
Proof. intros ([->|[-> ->]] & _); split; congruence. Qed.

(** Parents are followed through a change [f], entry by entry. *)
Lemma table_woken ps ps' np init run :
  table_ok ps np init run ->
  Forall2 (fun p q => woken p q /\ p_parent q = p_parent p) ps ps' ->
  table_ok ps' np init run.
Proof.
  intros Hok HF.
  assert (forall i q, ps' !! i = Some q -> exists p, ps !! i = Some p /\ woken p q /\
    p_parent q = p_parent p) as Hb.
  { intros i q Hq. destruct (Forall2_lookup_r _ _ _ _ _ HF Hq) as (p & ? & ? & ?). eauto. }
  assert (forall i p, ps !! i = Some p -> exists q, ps' !! i = Some q /\ woken p q /\
    p_parent q = p_parent p) as Hf.
  { intros i p Hp. destruct (Forall2_lookup_l _ _ _ _ _ HF Hp) as (q & ? & ? & ?). eauto. }
  assert (forall st p q, woken p q -> p_state q = st -> st <> RUNNABLE -> p_state p = st) as Hst.
  { intros st p q (Hs & _) <-. intuition congruence. }
  destruct Hok. split.
  - rewrite <- t_len0. symmetry. by eapply Forall2_length.
  - intros c i (p & Hp & Hs)%t_run0. destruct (Hf _ _ Hp) as (q & Hq & Hw & _).
    exists q. split; [done|]. by rewrite (woken_state p q RUNNING).
  - intros i q Hq Hs. destruct (Hb _ _ Hq) as (p & Hp & Hw & _). eauto.
  - done.
  - intros i q Hq Hl. destruct (Hb _ _ Hq) as (p & Hp & Hw & _).
    apply (woken_live _ _ Hw) in Hl. destruct Hw as (_ & -> & _). eauto.
  - intros i j q r Hq Hr Hlq Hlr. destruct (Hb _ _ Hq) as (p & Hp & Hw & _).
    destruct (Hb _ _ Hr) as (p' & Hp' & Hw' & _).
    apply (woken_live _ _ Hw) in Hlq. apply (woken_live _ _ Hw') in Hlr.
    destruct Hw as (_ & -> & _), Hw' as (_ & -> & _). eauto.
  - destruct t_init0 as (p & Hp & Hl & Hz & Hpar). destruct (Hf _ _ Hp) as (q & Hq & Hw & Hqp).
    exists q. split; [done|]. rewrite <- (woken_live _ _ Hw), Hqp.
    rewrite (woken_state p q ZOMBIE) by done. done.
  - intros i q Hq Hl Hne. destruct (Hb _ _ Hq) as (p & Hp & Hw & ->).
    apply (woken_live _ _ Hw) in Hl.
    destruct (t_parent0 i p Hp Hl Hne) as (r & pr & ? & ? & Hr & Hlr & Hz).
    destruct (Hf _ _ Hr) as (qr & ? & Hwr & _). exists r, qr.
    rewrite <- (woken_live _ _ Hwr), (woken_state pr qr ZOMBIE) by done. done.
  - intros i q Hq Hs. destruct (Hb _ _ Hq) as (p & Hp & Hw & ->). eauto.
  - intros i j q Hq Hs Hc. destruct (Hb _ _ Hq) as (p & Hp & Hw & _).
    destruct (t_wait0 i j p) as [-> Hn]; [done|eauto|destruct Hw; intuition congruence|].
    split; [done|]. intros k r Hr Hpr Hz. destruct (Hb _ _ Hr) as (p' & Hp' & Hw' & Hpp).
    eapply (Hn k p'); [done|congruence|eauto].
  - intros i q Hq Hl. destruct (Hb _ _ Hq) as (p & Hp & Hw & _).
    apply (woken_live _ _ Hw) in Hl. destruct (t_mem0 i p Hp Hl).
    rewrite (woken_state p q EMBRYO) by done. destruct Hw as (_ & _ & _ & -> & -> & _). done.
  - intros i q Hq Hl Hz. destruct (Hb _ _ Hq) as (p & Hp & Hw & _).
    apply (woken_live _ _ Hw) in Hl. rewrite (woken_state p q ZOMBIE) in Hz by done.
    destruct Hw as (_ & _ & _ & _ & _ & -> & _). eauto.
  - intros i q Hq. destruct (Hb _ _ Hq) as (p & Hp & Hw & _).
    destruct Hw as (_ & _ & _ & _ & _ & _ & ->). eauto.
Qed.

(** What [exit] of [cur] does to the others. *)
Definition reparented (cur init : nat) (p q : proc) : Prop :=
  woken p q /\
  p_parent q = if decide (p_parent p = Some cur) then Some init else p_parent p.

Definition in_wait (i : nat) (p : proc) : Prop :=
  p_state p = SLEEPING /\ p_chan p = Some (ChProc i).

Section exit.
Context (ps ps1 : list proc) (np : Z) (init : nat) (run : list (option nat)).
Context (c cur : nat) (p p' : proc).
Context (Hok : table_ok ps np init run) (Hrun : run !! c = Some (Some cur)).
Context (Hne : cur <> init) (Hlen : length ps1 = length ps).
Context (HF : forall j q r, j <> cur -> ps !! j = Some q -> ps1 !! j = Some r ->
  reparented cur init q r).
Context (Hp : ps !! cur = Some p).
Context (Hz : p_state p' = ZOMBIE) (Hpid : p_pid p' = p_pid p).
Context (Hpar : p_parent p' = p_parent p) (Hks : p_kstack p' = p_kstack p).
Context (Hpg : p_pgdir p' = p_pgdir p) (Hnm : p_name p' = p_name p).
Context (Hwake1 : forall r q, p_parent p = Some r -> ps1 !! r = Some q -> ~ in_wait r q).
Context (Hwake2 : forall k q q0, ps !! k = Some q -> p_parent q = Some cur ->
  p_state q = ZOMBIE -> ps1 !! init = Some q0 -> ~ in_wait init q0).

Lemma exit_running : p_state p = RUNNING.
Proof. destruct (t_run _ _ _ _ Hok _ _ Hrun) as (q & Hq & ?). by simplify_eq. Qed.

Lemma exit_back i q : <[cur := p']> ps1 !! i = Some q ->
  exists r, ps !! i = Some r /\
    (i = cur /\ r = p /\ q = p' \/ i <> cur /\ ps1 !! i = Some q /\ reparented cur init r q).
Proof.
  intros H. ins; [by eauto 10|].
  destruct (lookup_lt_is_Some_2 ps i) as [r Hr]; [apply lookup_lt_Some in H; lia|].
  exists r. split; [done|]. right. eauto.
Qed.

Lemma exit_forth i r : ps !! i = Some r -> i <> cur ->
  exists q, <[cur := p']> ps1 !! i = Some q /\ reparented cur init r q.
Proof.
  intros H Hi. destruct (lookup_lt_is_Some_2 ps1 i) as [q Hq]; [apply lookup_lt_Some in H; lia|].
  exists q. rewrite list_lookup_insert_ne by done. eauto.
Qed.

Lemma exit_pids i q : <[cur := p']> ps1 !! i = Some q -> live q ->
  exists r, ps !! i = Some r /\ live r /\ p_pid q = p_pid r.
Proof.
  intros (r & Hr & [(-> & -> & ->)|(_ & _ & Hw & _)])%exit_back Hl.
  - exists p. split_and!; try done. unfold live. by rewrite exit_running.
  - exists r. rewrite (woken_live _ _ Hw). split_and!; try done. by destruct Hw as (_ & -> & _).
Qed.

Lemma exit_parent i q : <[cur := p']> ps1 !! i = Some q -> live q -> i <> init ->
  exists r pr, p_parent q = Some r /\ r <> i /\ <[cur := p']> ps1 !! r = Some pr /\
    live pr /\ p_state pr <> ZOMBIE.
Proof.
  assert (forall r pr, ps !! r = Some pr -> r <> cur -> live pr -> p_state pr <> ZOMBIE ->
    exists pr', <[cur := p']> ps1 !! r = Some pr' /\ live pr' /\ p_state pr' <> ZOMBIE) as Hgo.
  { intros r pr Hr Hrc Hl Hrz. destruct (exit_forth _ _ Hr Hrc) as (q' & ? & Hw & _).
    exists q'. by rewrite <- (woken_live _ _ Hw), (woken_state _ _ ZOMBIE Hw). }
  intros (r & Hr & Hcase)%exit_back Hl Hi.
  assert (live r) as Hlr.
  { destruct Hcase as [(_ & -> & _)|(_ & _ & Hw & _)]; [|by rewrite (woken_live _ _ Hw)].
    unfold live. by rewrite exit_running. }
  destruct (t_parent _ _ _ _ Hok i r Hr Hlr Hi) as (x & px & Hx & Hxi & Hpx & Hlx & Hzx).
  destruct Hcase as [(-> & -> & ->)|(Hic & _ & Hw & Hqp)].
  - destruct (Hgo x px) as (px' & ? & ? & ?); try done. exists x, px'. by rewrite Hpar.
  - destruct (t_init _ _ _ _ Hok) as (pi & Hpi & Hli & Hzi & _).
    destruct (decide (p_parent r = Some cur)) as [Hc|Hc].
    + destruct (Hgo init pi) as (px' & ? & ? & ?); try done. exists init, px'. by rewrite Hqp.
    + destruct (Hgo x px) as (px' & ? & ? & ?); try done; [congruence|].
      exists x, px'. by rewrite Hqp.
Qed.

Lemma exit_wait i j q : <[cur := p']> ps1 !! i = Some q -> p_state q = SLEEPING ->
  p_chan q = Some (ChProc j) ->
  j = i /\ forall k r, <[cur := p']> ps1 !! k = Some r -> p_parent r = Some i ->
    p_state r <> ZOMBIE.
Proof.
  intros (r & Hr & [(-> & -> & ->)|(Hic & Hq1 & Hw & _)])%exit_back Hs Hch; [congruence|].
  assert (p_state r = SLEEPING /\ p_chan r = Some (ChProc j)) as [Hrs Hrc].
  { destruct Hw as ([?|[? ?]] & _ & ? & _); split; congruence. }
  destruct (t_wait _ _ _ _ Hok i j r Hr Hrs Hrc) as [-> Hn]. split; [done|].
  intros k x (y & Hy & [(-> & -> & ->)|(Hkc & _ & Hwx & Hxp)])%exit_back Hxi.
  - intros _. apply (Hwake1 i q); [congruence|done|by split].
  - rewrite (woken_state _ _ ZOMBIE Hwx) by done. intros Hyz.
    destruct (decide (p_parent y = Some cur)) as [Hc|Hc]; [|by apply (Hn k y); congruence].
    apply (Hwake2 k y q); try done; [by simplify_eq|]. split; [done|]. by simplify_eq.
Qed.

Lemma table_exit : table_ok (<[cur := p']> ps1) np init (<[c := None]> run).
Proof.
  pose proof exit_running as Hr.
  assert (cur < length ps1)%nat as Hlt by (rewrite Hlen; by eapply lookup_lt_Some).
  pose proof (run_stops _ _ _ _ c cur ZOMBIE Hok Hrun ltac:(done)) as Hm. split.
  - rewrite length_insert, Hlen. apply (t_len _ _ _ _ Hok).
  - intros c' i Hc'. destruct (decide (i = cur)) as [->|Hi]; [by apply (m_new _ _ _ _ Hm) in Hc'|].
    apply (m_other _ _ _ _ Hm c' i Hi), (t_run _ _ _ _ Hok) in Hc' as (q & Hq & Hs).
    destruct (exit_forth _ _ Hq Hi) as (q' & ? & Hw & _). exists q'.
    by rewrite (woken_state _ _ RUNNING Hw).
  - intros i q (r & Hir & [(-> & -> & ->)|(Hic & _ & Hw & _)])%exit_back Hs; [congruence|].
    rewrite (woken_state _ _ RUNNING Hw) in Hs by done.
    destruct (t_running _ _ _ _ Hok i r Hir Hs) as [c' ?]. exists c'. by apply (m_other _ _ _ _ Hm).
  - intros c1 c2 i. by eapply t_one_insert.
  - intros i q Hq Hl. destruct (exit_pids i q Hq Hl) as (r & ? & ? & ->).
    by apply (t_pid _ _ _ _ Hok i).
  - intros i j q r Hq Hr' Hlq Hlr. destruct (exit_pids _ _ Hq Hlq) as (q0 & ? & ? & ->).
    destruct (exit_pids _ _ Hr' Hlr) as (r0 & ? & ? & ->). by apply (t_distinct _ _ _ _ Hok).
  - destruct (t_init _ _ _ _ Hok) as (pi & Hpi & Hli & Hzi & Hppi).
    destruct (exit_forth init pi) as (q & Hq & Hw & Hqp); [done..|]. exists q.
    rewrite Hqp, Hppi, <- (woken_live _ _ Hw), (woken_state _ _ ZOMBIE Hw) by done.
    by rewrite decide_False.
  - exact exit_parent.
  - intros i q (r & Hir & [(-> & -> & ->)|(Hic & _ & Hw & Hqp)])%exit_back Hs; [congruence|].
    rewrite (woken_state _ _ UNUSED Hw) in Hs by done.
    rewrite Hqp, (t_unused _ _ _ _ Hok i r Hir Hs). by rewrite decide_False.
  - exact exit_wait.
  - intros i q (r & Hir & [(-> & -> & ->)|(Hic & _ & Hw & Hqp)])%exit_back Hl.
    + rewrite Hz, Hks, Hpg. split; [done|]. eapply (t_mem _ _ _ _ Hok); [done|]. unfold live. congruence.
    + apply (woken_live _ _ Hw) in Hl. destruct (t_mem _ _ _ _ Hok i r Hir Hl).
      rewrite (woken_state _ _ EMBRYO Hw) by done. by destruct Hw as (_ & _ & _ & -> & -> & _).
  - intros i q (r & Hir & [(-> & -> & ->)|(Hic & _ & Hw & Hqp)])%exit_back Hl Hqz; [done|].
    apply (woken_live _ _ Hw) in Hl. rewrite (woken_state _ _ ZOMBIE Hw) in Hqz by done.
    destruct Hw as (_ & _ & _ & _ & _ & -> & _). by apply (t_cwd _ _ _ _ Hok i).
  - intros i q (r & Hir & [(-> & -> & ->)|(Hic & _ & Hw & Hqp)])%exit_back.
    + rewrite Hnm. by apply (t_name _ _ _ _ Hok cur).
    + destruct Hw as (_ & _ & _ & _ & _ & _ & ->). by apply (t_name _ _ _ _ Hok i).
Qed.
End exit.

(** A slot is given back ([wait]), or stays free ([fork] that failed). *)
Lemma table_free ps np np' init run i p p' :
  table_ok ps np init run -> ps !! i = Some p -> p_state p = ZOMBIE \/ p_state p = UNUSED ->
  p_state p' = UNUSED -> p_parent p' = None -> length (p_name p') = 16%nat -> np <= np' ->
  table_ok (<[i := p']> ps) np' init run.
Proof.
  intros Hok Hi Hst Hs Hpar Hnm Hnp. pose proof (lookup_lt_Some _ _ _ Hi) as Hlt.
  assert (run_moves run run i (p_state p')) as Hm.
  { eapply run_stays; [done..|]. rewrite Hs. split; [|done]. destruct Hst as [-> | ->]; done. }
  assert (forall q, live q -> p_state q <> ZOMBIE -> ps !! i = Some q -> False) as Hdead.
  { intros q Hq Hz ?. simplify_eq. unfold live in Hq. tauto. }
  split.
  - rewrite length_insert. apply (t_len _ _ _ _ Hok).
  - intros c j. by eapply t_run_insert.
  - intros j q. by eapply t_running_insert.
  - intros c c' j. by eapply t_one_insert.
  - intros j q Hj Hl. ins; try done. destruct (t_pid _ _ _ _ Hok j q); [done..|lia].
  - intros j k q r Hj Hk Hq Hr. ins; try done. by apply (t_distinct _ _ _ _ Hok).
  - destruct (t_init _ _ _ _ Hok) as (q & Hq & ? & ? & ?). exists q.
    rewrite list_lookup_insert_ne; [done|]. intros ->. eauto.
  - intros j q Hj Hl Hne. ins; try done.
    destruct (t_parent _ _ _ _ Hok j q) as (r & pr & ? & ? & ? & ? & ?); [done..|].
    exists r, pr. rewrite list_lookup_insert_ne; [done|]. intros ->. eauto.
  - intros j q Hj Hq. ins; try done. by eapply (t_unused _ _ _ _ Hok).
  - intros j k q Hj Hq Hch. ins; try congruence.
    destruct (t_wait _ _ _ _ Hok j k q) as [-> Hn]; [done..|]. split; [done|].
    intros l r Hl. ins; try congruence. by apply Hn with l.
  - intros j q Hj Hl. ins; try done. by apply (t_mem _ _ _ _ Hok j).
  - intros j q Hj Hl. ins; try done. by apply (t_cwd _ _ _ _ Hok j).
  - intros j q Hj. ins; try done. by apply (t_name _ _ _ _ Hok j).
Qed.

(** A child is born in a free slot. *)
Lemma table_born ps np init run i p p' cur pc :
  table_ok ps np init run -> ps !! i = Some p -> p_state p = UNUSED ->
  ps !! cur = Some pc -> live pc -> p_state pc <> ZOMBIE ->
  p_state p' = RUNNABLE -> p_pid p' = np -> p_parent p' = Some cur -> p_kstack p' <> 0 ->
  p_pgdir p' <> 0 -> p_cwd p' <> None -> length (p_name p') = 16%nat ->
  table_ok (<[i := p']> ps) (np + 1) init run.
Proof.
  intros Hok Hi Hst Hcur Hlc Hzc Hs Hpid Hpar Hks Hpg Hcwd Hnm.
  pose proof (lookup_lt_Some _ _ _ Hi) as Hlt.
  assert (run_moves run run i (p_state p')) as Hm.
  { eapply run_stays; [done..|]. by rewrite Hs, Hst. }
  assert (forall q, live q -> ps !! i = Some q -> False) as Hdead.
  { intros q Hq ?. by simplify_eq. }
  assert (0 < np) as Hnp.
  { destruct (t_init _ _ _ _ Hok) as (q & Hq & Hl & _). pose proof (t_pid _ _ _ _ Hok _ _ Hq Hl). lia. }
  split.
  - rewrite length_insert. apply (t_len _ _ _ _ Hok).
  - intros c j. by eapply t_run_insert.
  - intros j q. by eapply t_running_insert.
  - intros c c' j. by eapply t_one_insert.
  - intros j q Hj Hl. ins; try lia. destruct (t_pid _ _ _ _ Hok j q); [done..|lia].
  - intros j k q r Hj Hk Hq Hr Heq. ins; try done.
    + pose proof (t_pid _ _ _ _ Hok j q Hj Hq). lia.
    + pose proof (t_pid _ _ _ _ Hok k r Hk Hr). lia.
    + by eapply (t_distinct _ _ _ _ Hok).
  - destruct (t_init _ _ _ _ Hok) as (q & Hq & ? & ? & ?). exists q.
    rewrite list_lookup_insert_ne; [done|]. intros ->. eauto.
  - intros j q Hj Hl Hne.
    assert (exists r pr, p_parent q = Some r /\ r <> j /\ ps !! r = Some pr /\ live pr /\
      p_state pr <> ZOMBIE) as (r & pr & ? & ? & ? & ? & ?).
    { ins; [|by apply (t_parent _ _ _ _ Hok)].
      exists cur, pc. split_and!; try done. intros ->. eauto. }
    exists r, pr. rewrite list_lookup_insert_ne; [done|]. intros ->. eauto.
  - intros j q Hj Hq. ins; try congruence. by eapply (t_unused _ _ _ _ Hok).
  - intros j k q Hj Hq Hch. ins; try congruence.
    destruct (t_wait _ _ _ _ Hok j k q) as [-> Hn]; [done..|]. split; [done|].
    intros l r Hl. ins; try congruence. by apply Hn with l.
  - intros j q Hj Hl. ins; [by rewrite Hs|]. by apply (t_mem _ _ _ _ Hok j).
  - intros j q Hj Hl. ins; try done. by apply (t_cwd _ _ _ _ Hok j).
  - intros j q Hj. ins; try done. by apply (t_name _ _ _ _ Hok j).
Qed.

Lemma wake_woken ch p : woken p (wake ch p) /\ p_parent (wake ch p) = p_parent p.
Proof.
  unfold wake. destruct (sleeps_on ch p) eqn:Hs; [|split; [apply woken_refl|done]].
  unfold sleeps_on in Hs. bsplit. rewrite bool_decide_eq_true in *.
  split; [|done]. split; [|done]. by right.
Qed.

(** * The operations keep the invariant *)

Definition kernel_ok {E} (s : kst E) : Prop :=
  lk_locked (k_lock s) = false /\
  Forall (fun ci => c_ncli (ci_cpu ci) = 0) (k_cpus s) /\
  exists init, k_initproc s = Some init /\
    table_ok (k_procs s) (k_nextpid s) init (ci_proc <$> k_cpus s).

Section ops.
Context {E : Type} `{!ProcEnv E, !ProcEnvSafe E}.
Context (forkret_addr trapret_addr : Z).
Local Abbreviation wpk := (wp (S := kst E) other_panic).

(** The state of an operation that CPU [c] runs; the other CPUs are those of [cs]. *)
Section cpu.
Context (c : nat) (cs : list cpuinfo) (Hc : (c < length cs)%nat).
Local Abbreviation St ps lk np ip ci e := (Kst ps lk np ip (<[c := ci]> cs) e).

Lemma wp_acq ps lk np ip ci e Q :
  c_ncli (ci_cpu ci) = 0 -> lk_locked lk = false ->
  (forall ci', c_ncli (ci_cpu ci') = 1 -> c_if (ci_cpu ci') = false ->
     ci_proc ci' = ci_proc ci -> Q tt (St ps (Spinlock true (Some c)) np ip ci' e)) ->
  wpk (acquire_ptable c) (St ps lk np ip ci e) Q.
Proof.
  intros Hn Hl HQ. eapply wp_acquire; [by apply list_lookup_insert_eq|done..|].
  rewrite list_insert_insert_eq. by apply HQ.
Qed.

Lemma wp_rel ps np ip ci e Q :
  c_ncli (ci_cpu ci) = 1 -> c_if (ci_cpu ci) = false ->
  (forall ci', c_ncli (ci_cpu ci') = 0 -> ci_proc ci' = ci_proc ci ->
     Q tt (St ps (Spinlock false None) np ip ci' e)) ->
  wpk (release_ptable c) (St ps (Spinlock true (Some c)) np ip ci e) Q.
Proof.
  intros Hn Hl HQ. eapply wp_release; [by apply list_lookup_insert_eq|done..|].
  rewrite list_insert_insert_eq. by apply HQ.
Qed.

Lemma wp_cur ps lk np ip ci e i Q :
  c_ncli (ci_cpu ci) = 0 -> ci_proc ci = Some i ->
  (forall ci', c_ncli (ci_cpu ci') = 0 -> ci_proc ci' = Some i ->
     Q i (St ps lk np ip ci' e)) ->
  wpk (curproc c) (St ps lk np ip ci e) Q.
Proof.
  intros Hn Hp HQ. unfold curproc. wbind.
  eapply wp_myproc; [by apply list_lookup_insert_eq|done|]. intros cs' ->.
  rewrite Hp, list_insert_insert_eq. apply wp_ret. by apply HQ.
Qed.

Lemma wp_my_in ps lk np ip ci e Q :
  c_ncli (ci_cpu ci) = 1 -> c_if (ci_cpu ci) = false ->
  Q (ci_proc ci) (St ps lk np ip ci e) -> wpk (myproc c) (St ps lk np ip ci e) Q.
Proof.
  intros. eapply wp_myproc_in; [by apply list_lookup_insert_eq|done..].
Qed.

Lemma wp_switch ps np ip ci e i p Q :
  c_ncli (ci_cpu ci) = 1 -> c_if (ci_cpu ci) = false -> ci_proc ci = Some i ->
  ps !! i = Some p -> p_state p <> RUNNING ->
  (forall ci' ia, c_ncli (ci_cpu ci') = 0 -> ci_proc ci' = None ->
     Q tt (St (<[i := switched ia p]> ps) (Spinlock false None) np ip ci' e)) ->
  wpk (sched_out c) (St ps (Spinlock true (Some c)) np ip ci e) Q.
Proof.
  intros Hn Hi Hp Hps Hst HQ.
  eapply wp_sched_out; [by apply list_lookup_insert_eq|done..|].
  rewrite list_insert_insert_eq. by apply HQ.
Qed.

(** Back to a state in which the lock is free. *)
Lemma kernel_ok_intro ps np init ci (e : E) :
  Forall (fun ci => c_ncli (ci_cpu ci) = 0) cs -> c_ncli (ci_cpu ci) = 0 ->
  table_ok ps np init (<[c := ci_proc ci]> (ci_proc <$> cs)) ->
  kernel_ok (St ps (Spinlock false None) np (Some init) ci e).
Proof.
  intros HF Hn Hok. split; [done|]. split; cbn [k_cpus].
  - by apply Forall_insert.
  - exists init. split; [done|]. by rewrite list_fmap_insert.
Qed.
End cpu.

(** Start an operation of CPU [c] from a state that satisfies the invariant. *)
Lemma kernel_ok_elim c s (P : kst E -> Prop) :
  kernel_ok s -> (c < length (k_cpus s))%nat ->
  (forall ps lk np init ci cs e, cs !! c = Some ci -> (c < length cs)%nat ->
     lk_locked lk = false -> c_ncli (ci_cpu ci) = 0 ->
     Forall (fun ci => c_ncli (ci_cpu ci) = 0) cs ->
     table_ok ps np init (ci_proc <$> cs) ->
     s = Kst ps lk np (Some init) cs e ->
     P (Kst ps lk np (Some init) (<[c := ci]> cs) e)) -> P s.
Proof.
  destruct s as [ps lk np ip cs e]. intros (Hl & HF & init & Hip & Hok) Hc HP. cbn in *. subst.
  destruct (lookup_lt_is_Some_2 _ _ Hc) as [ci Hci].
  rewrite <- (list_insert_id cs c ci) by done. eapply HP; eauto.
  by eapply (Forall_lookup_1 _ _ _ _ HF Hci).
Qed.

Definition runs (s : kst E) (c i : nat) : Prop :=
  exists ci, k_cpus s !! c = Some ci /\ ci_proc ci = Some i.

Lemma running_proc ps np init cs c ci i :
  table_ok ps np init (ci_proc <$> cs) -> cs !! c = Some ci -> ci_proc ci = Some i ->
  (ci_proc <$> cs) !! c = Some (Some i) /\
  exists p, ps !! i = Some p /\ p_state p = RUNNING /\ awake_or_asleep p.
Proof.
  intros Hok Hci Hp. assert ((ci_proc <$> cs) !! c = Some (Some i)) as Hr.
  { by rewrite list_lookup_fmap, Hci, <- Hp. }
  split; [done|]. destruct (t_run _ _ _ _ Hok _ _ Hr) as (p & Hi & Hs). exists p.
  unfold awake_or_asleep, live. by rewrite Hs.
Qed.

Lemma kernel_ok_run c i s (P : kst E -> Prop) :
  kernel_ok s -> runs s c i ->
  (forall ps lk np init ci cs e p, (c < length cs)%nat ->
     lk_locked lk = false -> c_ncli (ci_cpu ci) = 0 -> ci_proc ci = Some i ->
     Forall (fun ci => c_ncli (ci_cpu ci) = 0) cs ->
     table_ok ps np init (ci_proc <$> cs) -> (ci_proc <$> cs) !! c = Some (Some i) ->
     ps !! i = Some p -> (i < length ps)%nat -> p_state p = RUNNING -> awake_or_asleep p ->
     s = Kst ps lk np (Some init) cs e ->
     P (Kst ps lk np (Some init) (<[c := ci]> cs) e)) -> P s.
Proof.
  intros Hok (ci0 & Hci0 & Hp) HP. eapply (kernel_ok_elim c); [done|by eapply lookup_lt_Some|].
  intros ps lk np init ci cs e Hci Hlt Hl Hn HF Ht ->. cbn in Hci0.
  rewrite Hci in Hci0. injection Hci0 as <-.
  destruct (running_proc _ _ _ _ _ _ _ Ht Hci Hp) as (Hr & p & Hi & Hs & Ha).
  eapply (HP ps lk np init ci cs e p); eauto using lookup_lt_Some.
Qed.

(** Common to [yield] and [sleep]: the current process leaves the CPU. *)
Lemma table_stops ps np init run c i p p' :
  table_ok ps np init run -> run !! c = Some (Some i) -> ps !! i = Some p ->
  p_state p' = RUNNABLE \/ p_state p' = SLEEPING ->
  (p_pid p', p_parent p', p_kstack p', p_pgdir p', p_cwd p', p_name p') =
  (p_pid p, p_parent p, p_kstack p, p_pgdir p, p_cwd p, p_name p) ->
  (forall j, p_state p' = SLEEPING -> p_chan p' = Some (ChProc j) ->
     j = i /\ forall k q, ps !! k = Some q -> p_parent q = Some i -> p_state q <> ZOMBIE) ->
  table_ok (<[i := p']> ps) np init (<[c := None]> run).
Proof.
  intros Hok Hr Hi Hs Heq Hw. simplify_eq.
  destruct (t_run _ _ _ _ Hok _ _ Hr) as (q & Hq & Hst). simplify_eq.
  eapply table_move; try done.
  - unfold awake_or_asleep, live. by rewrite Hst.
  - unfold awake_or_asleep, live. destruct Hs as [-> | ->]; done.
  - destruct Hs as [-> | ->]; done.
  - eapply run_stops; [done..|]. destruct Hs as [-> | ->]; done.
Qed.

Lemma wp_yield s c i : kernel_ok s -> runs s c i ->
  wpk (yield c) s (fun _ s' => kernel_ok s').
Proof.
  intros Hok Hruns. pattern s. eapply (kernel_ok_run c i); [done..|].
  intros ps lk np init ci cs e p Hlt Hl Hn Hp HF Ht Hr Hi Hip Hs _ _. cbn beta.
  unfold yield. wbind. apply wp_acq; [done..|]. intros c1 Hn1 Hi1 Hp1.
  unfold curproc. wbind. apply wp_my_in; [done..|]. rewrite Hp1, Hp. wstep.
  wbind. eapply wp_upd; [done|].
  eapply wp_switch; [done..|by rewrite Hp1|by apply list_lookup_insert_eq|done|].
  intros c2 ia Hn2 Hp2. rewrite list_insert_insert_eq. apply kernel_ok_intro; [done..|].
  rewrite Hp2. eapply table_stops; [done..|by left|done|]. done.
Qed.

Lemma wp_wakeup s c ch : kernel_ok s -> (c < length (k_cpus s))%nat ->
  wpk (wakeup c ch) s (fun _ s' => kernel_ok s').
Proof.
  intros Hok Hc. pattern s. eapply (kernel_ok_elim c); [done..|].
  intros ps lk np init ci cs e Hci Hlt Hl Hn HF Ht _. cbn beta.
  unfold wakeup. wbind. apply wp_acq; [done..|]. intros c1 Hn1 Hi1 Hp1.
  wbind. unfold wp at 1, wakeup1, map_procs, modify. cbn.
  apply wp_rel; [done..|]. intros c2 Hn2 Hp2. apply kernel_ok_intro; [done..|].
  rewrite Hp2, Hp1, (list_insert_id (ci_proc <$> cs)) by by rewrite list_lookup_fmap, Hci.
  eapply table_woken; [done|]. apply Forall2_fmap_r, Forall_Forall2_diag, Forall_true.
  intros p. apply wake_woken.
Qed.

Lemma wp_updcpu c cs f ps lk np ip ci (e : E) Q : (c < length cs)%nat ->
  Q tt (Kst ps lk np ip (<[c := f ci]> cs) e) ->
  wpk (upd_cpu c f) (Kst ps lk np ip (<[c := ci]> cs) e) Q.
Proof.
  intros Hc HQ. unfold wp, upd_cpu, modify. cbn.
  replace (alter f c (<[c := ci]> cs)) with (<[c := f ci]> cs); [done|].
  apply list_eq. intros j. destruct (decide (c = j)) as [<-|].
  - by rewrite list_lookup_alter_eq, !list_lookup_insert_eq.
  - by rewrite list_lookup_alter_ne, !list_lookup_insert_ne.
Qed.

(** One process changes and the invariant does not see it. *)
Lemma table_same ps np init run i p p' :
  table_ok ps np init run -> ps !! i = Some p -> woken p p' -> p_parent p' = p_parent p ->
  table_ok (<[i := p']> ps) np init run.
Proof.
  intros Hok Hi Hw Hp. eapply table_woken; [done|].
  apply Forall2_same_length_lookup. rewrite length_insert. split; [done|].
  intros j q q' Hq Hq'. ins; [done|]. simplify_eq. split; [apply woken_refl|done].
Qed.

Lemma wp_kill s c pid : kernel_ok s -> (c < length (k_cpus s))%nat ->
  wpk (kill c pid) s (fun r s' => kernel_ok s' /\
    (r = 0 /\ (exists i p p', k_procs s !! i = Some p /\ p_pid p = pid /\
       k_procs s' !! i = Some p' /\ p_killed p' = true /\ p_state p' <> SLEEPING) \/
     r = -1 /\ k_procs s' = k_procs s /\ forall p, p ∈ k_procs s -> p_pid p <> pid)).
Proof.
  intros Hok Hc. pattern s. eapply (kernel_ok_elim c); [done..|].
  intros ps lk np init ci cs e Hci Hlt Hl Hn HF Ht _. cbn beta.
  assert ((ci_proc <$> cs) !! c = Some (ci_proc ci)) as Hcp by by rewrite list_lookup_fmap, Hci.
  unfold kill. wbind. apply wp_acq; [done..|]. intros c1 Hn1 Hi1 Hp1. wstep. cbn [k_procs].
  destruct (findi _ ps) as [i|] eqn:Hf.
  - apply findi_Some in Hf as (p & Hi & Hpid & _). bsplit. pose proof (lookup_lt_Some _ _ _ Hi).
    wbind. eapply wp_upd; [done|]. wbind. eapply wp_upd; [by apply list_lookup_insert_eq|].
    rewrite list_insert_insert_eq. wbind. apply wp_rel; [done..|]. intros c2 Hn2 Hp2. wstep.
    split.
    + apply kernel_ok_intro; [done..|]. rewrite Hp2, Hp1, (list_insert_id (ci_proc <$> cs)) by done.
      eapply table_same; [done..| |]; cbn; destruct (decide (p_state p = SLEEPING)) as [Hb|Hb];
        rewrite ?bool_decide_true, ?bool_decide_false by done; try done.
      * split; [by right|done].
      * split; [by left|done].
    + left. split; [done|]. exists i, p. eexists. cbn [k_procs].
      split_and!; [done..|by apply list_lookup_insert_eq| |]; cbn;
        destruct (decide (p_state p = SLEEPING)) as [Hb|Hb];
        rewrite ?bool_decide_true, ?bool_decide_false by done; done.
  - wbind. apply wp_rel; [done..|]. intros c2 Hn2 Hp2. wstep. split.
    + apply kernel_ok_intro; [done..|]. by rewrite Hp2, Hp1, (list_insert_id (ci_proc <$> cs)).
    + right. split_and!; try done. intros p Hp Heq. rewrite findi_None in Hf.
      specialize (Hf p Hp). cbn in Hf. bsplit. done.
Qed.

Lemma wp_getproccount s c : kernel_ok s -> (c < length (k_cpus s))%nat ->
  wpk (getproccount c) s (fun r s' => kernel_ok s' /\ k_procs s' = k_procs s /\
    r = Z.of_nat (length (List.filter (fun p => negb (is_unused p)) (k_procs s)))).
Proof.
  intros Hok Hc. pattern s. eapply (kernel_ok_elim c); [done..|].
  intros ps lk np init ci cs e Hci Hlt Hl Hn HF Ht _. cbn beta.
  unfold getproccount. wbind. apply wp_acq; [done..|]. intros c1 Hn1 Hi1 Hp1. wstep.
  wbind. apply wp_rel; [done..|]. intros c2 Hn2 Hp2. wstep. split; [|done].
  apply kernel_ok_intro; [done..|].
  by rewrite Hp2, Hp1, (list_insert_id (ci_proc <$> cs)) by by rewrite list_lookup_fmap, Hci.
Qed.

(** A CPU in its scheduler tries entry [i] of the table and, if it is RUNNABLE, lets
    the process return from the [sched] it went to sleep in. *)
Definition run_process (c i : nat) : M (kst E) unit :=
  let* b := scheduler_pick c i in
  if (b : bool) then resume c i else ret tt.

Lemma wp_switchuvm ps lk np ip cs (e : E) i p Q :
  ps !! i = Some p -> p_kstack p <> 0 -> p_pgdir p <> 0 ->
  Q tt (Kst ps lk np ip cs e) -> wpk (switchuvm i) (Kst ps lk np ip cs e) Q.
Proof.
  intros Hi Hk Hg HQ. unfold switchuvm. wbind. eapply wp_getproc; [done|].
  destruct (Z.eqb_spec (p_kstack p) 0); [done|].
  destruct (Z.eqb_spec (p_pgdir p) 0); [done|]. done.
Qed.

Lemma wp_run_process s c i : kernel_ok s ->
  (exists ci, k_cpus s !! c = Some ci /\ ci_proc ci = None) -> (i < NPROC)%nat ->
  wpk (run_process c i) s (fun _ s' => kernel_ok s' /\
    (forall p, k_procs s !! i = Some p -> p_state p = RUNNABLE -> runs s' c i)).
Proof.
  intros Hok (ci0 & Hci0 & Hp0) Hlen.
  assert (c < length (k_cpus s))%nat as Hc by by eapply lookup_lt_Some.
  revert Hci0. pattern s. eapply (kernel_ok_elim c); [done..|].
  intros ps lk np init ci cs e Hci Hlt Hl Hn HF Ht _. cbn [k_cpus k_procs].
  rewrite list_lookup_insert_eq by done. intros [= ->].
  assert ((ci_proc <$> cs) !! c = Some None) as Hcp by by rewrite list_lookup_fmap, Hci, <- Hp0.
  rewrite <- (t_len _ _ _ _ Ht) in Hlen. destruct (lookup_lt_is_Some_2 _ _ Hlen) as [p Hi].
  unfold run_process, scheduler_pick. wbind. apply wp_updcpu; [done|].
  wbind. apply wp_acq; [done..|]. intros c1 Hn1 Hi1 Hp1. cbn in Hp1. wbind.
  eapply wp_getproc; [done|]. destruct (decide (p_state p = RUNNABLE)) as [Hs|Hs].
  - rewrite bool_decide_true by done. cbn [negb]. wbind. apply wp_updcpu; [done|].
    destruct (t_mem _ _ _ _ Ht i p Hi) as (_ & Hks & Hpg); [unfold live; congruence|].
    wbind. eapply wp_switchuvm; [done..|]. wbind. eapply wp_upd; [done|]. wstep.
    unfold resume. wbind. eapply wp_getproc; [by apply list_lookup_insert_eq|].
    wbind. apply wp_updcpu; [done|]. wbind. eapply wp_upd; [by apply list_lookup_insert_eq|].
    rewrite list_insert_insert_eq. apply wp_rel; [done..|]. intros c2 Hn2 Hp2. cbn in Hp2. split.
    + apply kernel_ok_intro; [done..|]. rewrite Hp2.
      eapply table_move; try done; try (split; unfold live; cbn; congruence).
      eapply run_starts; [done..|congruence].
    + intros _ _ _. exists c2. cbn [k_cpus]. by rewrite list_lookup_insert_eq.
  - rewrite bool_decide_false by done. cbn [negb]. wbind. apply wp_rel; [done..|].
    intros c2 Hn2 Hp2. wstep. wstep. split.
    + apply kernel_ok_intro; [done..|]. by rewrite Hp2, Hp1, Hp0, (list_insert_id (ci_proc <$> cs)).
    + intros q ? ?. by simplify_eq.
Qed.

(** The current process goes to sleep on an address under a spin lock of another
    part of the kernel: taking that lock nests a [pushcli], and [sleep] gives it up. *)
Definition sleep_under (c : nat) (a : Z) (take give : M E unit) : M (kst E) unit :=
  on_lock c (on_cpu pushcli) ;;;
  on_env take ;;;
  sleep c (ChAddr a) (Some (Some (on_env give ;;; on_lock c (on_cpu popcli)))).

Lemma on_lock_ret {A} c cs ps lk np ip ci (e : E) (m : M (cpu * spinlock) A) a cp lk' :
  (c < length cs)%nat -> m (ci_cpu ci, lk) = Ret (a, (cp, lk')) ->
  on_lock c m (Kst ps lk np ip (<[c := ci]> cs) e) =
  Ret (a, Kst ps lk' np ip (<[c := Cpuinfo cp (ci_apicid ci) (ci_proc ci)]> cs) e).
Proof.
  intros Hc Hm. unfold on_lock. cbn [k_cpus k_lock].
  rewrite list_lookup_insert_eq by done. rewrite Hm. cbn. by rewrite list_insert_insert_eq.
Qed.

Lemma wp_sleep_under s c i a take give : kernel_ok s -> runs s c i ->
  env_safe take -> env_safe give ->
  wpk (sleep_under c a take give) s (fun _ s' => kernel_ok s').
Proof.
  intros Hok Hruns Ht1 Hg. pattern s. eapply (kernel_ok_run c i); [done..|].
  intros ps lk np init ci cs e p Hlt Hl Hn Hp HF Ht Hr Hi Hip Hs _ _. cbn beta.
  destruct ci as [[iF n ia] ap pr], lk as [lo ow]. cbn in Hn, Hp, Hl. subst.
  unfold sleep_under, sleep. wbind. unfold wp at 1.
  erewrite on_lock_ret by done. wbind. apply wp_env; [done|]. intros _ e1.
  wbind. apply wp_my_in; [done..|]. cbn [ci_proc ci_cpu ci_apicid]. wbind. unfold wp at 1.
  unfold acquire_ptable. erewrite on_lock_ret by done. wbind. apply wp_env; [done|].
  intros _ e2. unfold wp at 1. erewrite on_lock_ret by done. wbind.
  eapply wp_upd; [done|]. wbind. eapply wp_upd; [by apply list_lookup_insert_eq|].
  rewrite list_insert_insert_eq.
  eapply wp_switch; [done..|by apply list_lookup_insert_eq|done|].
  intros c2 ib Hn2 Hp2. rewrite list_insert_insert_eq. apply kernel_ok_intro; [done..|].
  rewrite Hp2. eapply table_stops; [done..|by right|done|]. done.
Qed.

(** What [wait] finds in the table. *)
Definition wait_post (cur : nat) (s : kst E) (r : wait_res) (s' : kst E) : Prop :=
  match r with
  | WaitRet pid =>
      (exists i p p', k_procs s !! i = Some p /\ p_parent p = Some cur /\
         p_state p = ZOMBIE /\ pid = p_pid p /\ 0 < pid /\
         k_procs s' = <[i := p']> (k_procs s) /\ p_state p' = UNUSED) \/
      (pid = -1 /\ k_procs s' = k_procs s /\
       (forall p, p ∈ k_procs s -> p_parent p = Some cur -> p_state p <> ZOMBIE) /\
       ((forall p, p ∈ k_procs s -> p_parent p <> Some cur) \/
        exists me, k_procs s !! cur = Some me /\ p_killed me = true))
  | WaitSleep =>
      (exists me, k_procs s' !! cur = Some me /\ in_wait cur me) /\
      (exists p, p ∈ k_procs s /\ p_parent p = Some cur) /\
      (forall p, p ∈ k_procs s -> p_parent p = Some cur -> p_state p <> ZOMBIE)
  end.

Lemma wp_wait s c i : kernel_ok s -> runs s c i ->
  wpk (wait c) s (fun r s' => kernel_ok s' /\ wait_post i s r s').
Proof.
  intros Hok Hruns. pattern s. eapply (kernel_ok_run c i); [done..|].
  intros ps lk np init ci cs e p Hlt Hl Hn Hp HF Ht Hr Hi Hip Hs _ _. cbn beta.
  unfold wait. wbind. apply (wp_cur c cs Hlt _ _ _ _ _ _ i); [done..|]. intros c0 Hn0 Hp0.
  wbind. apply wp_acq; [done..|]. intros c1 Hn1 Hi1 Hp1. wstep. cbn [k_procs].
  destruct (findi (zombie_child i) ps) as [k|] eqn:Hf.
  - apply findi_Some in Hf as (q & Hk & Hz & _). unfold zombie_child, child_of in Hz. bsplit.
    rewrite bool_decide_eq_true in *. pose proof (lookup_lt_Some _ _ _ Hk) as Hkl.
    wbind. eapply wp_getproc; [done|]. wbind. apply wp_env; [apply safe_kfree|]. intros _ e1.
    wbind. eapply wp_upd; [done|]. wbind. apply wp_env; [apply safe_freevm|]. intros _ e2.
    do 5 (wbind; eapply wp_upd; [by apply list_lookup_insert_eq|]; rewrite list_insert_insert_eq).
    wbind. apply wp_rel; [done..|]. intros c2 Hn2 Hp2. wstep. split.
    + apply kernel_ok_intro; [done..|]. rewrite Hp2, Hp1, Hp0.
      rewrite (list_insert_id (ci_proc <$> cs)) by done.
      eapply (table_free _ np); [done..|by left|done|done| |lia]. cbn. rewrite length_insert.
      by apply (t_name _ _ _ _ Ht k).
    + cbn [k_procs wait_post]. left. exists k, q. eexists. split_and!; try done.
      apply (t_pid _ _ _ _ Ht k q Hk). unfold live. congruence.
  - rewrite findi_None in Hf. assert (forall p, p ∈ ps -> p_parent p = Some i ->
      p_state p <> ZOMBIE) as Hnz.
    { intros q Hq Hpq Hqz. specialize (Hf q Hq). unfold zombie_child, child_of in Hf.
      rewrite !bool_decide_true in Hf; done. }
    wbind. eapply wp_getproc; [done|].
    destruct (negb (existsb (child_of i) ps) || p_killed p) eqn:Hb.
    + wbind. apply wp_rel; [done..|]. intros c2 Hn2 Hp2. wstep. split.
      * apply kernel_ok_intro; [done..|]. rewrite Hp2, Hp1, Hp0. by rewrite list_insert_id.
      * cbn [k_procs wait_post]. right. split_and!; try done.
        apply orb_true_iff in Hb as [Hb|Hb]; [left|right; by exists p].
        intros q Hq Hpq. apply negb_true_iff in Hb.
        assert (existsb (child_of i) ps = true); [|congruence]. apply existsb_exists.
        exists q. split; [by apply list_elem_of_In|]. unfold child_of. by apply bool_decide_true.
    + apply orb_false_iff in Hb as [Hb _]. apply negb_false_iff, existsb_exists in Hb as (q & Hq & Hqp).
      unfold child_of in Hqp. rewrite bool_decide_eq_true in Hqp. apply list_elem_of_In in Hq.
      unfold sleep. wbind. apply wp_my_in; [done..|]. rewrite Hp1, Hp0. wstep.
      wbind. eapply wp_upd; [done|]. wbind. eapply wp_upd; [by apply list_lookup_insert_eq|].
      rewrite list_insert_insert_eq.
      eapply wp_switch; [done..|by rewrite Hp1|by apply list_lookup_insert_eq|done|].
      intros c2 ia Hn2 Hp2. wstep. rewrite list_insert_insert_eq. split.
      * apply kernel_ok_intro; [done..|]. rewrite Hp2. eapply table_stops; [done..|by right|done|].
        intros j _ [= <-]. split; [done|]. intros k r Hk. apply Hnz. by eapply list_elem_of_lookup_2.
      * cbn [k_procs wait_post]. split_and!; [|by exists q|done]. eexists.
        split; [by apply list_lookup_insert_eq|done].
Qed.

Lemma wp_growproc s c i n : kernel_ok s -> runs s c i ->
  wpk (growproc c n) s (fun r s' => kernel_ok s' /\ (r = 0 \/ r = -1 /\ k_procs s' = k_procs s)).
Proof.
  intros Hok Hruns. pattern s. eapply (kernel_ok_run c i); [done..|].
  intros ps lk np init ci cs e p Hlt Hl Hn Hp HF Ht Hr Hi Hip Hs [Hlv _] _. cbn [k_procs].
  unfold growproc. wbind. apply (wp_cur c cs Hlt _ _ _ _ _ _ i); [done..|]. intros c0 Hn0 Hp0.
  wbind. eapply wp_getproc; [done|]. wbind.
  destruct (t_mem _ _ _ _ Ht i p Hi Hlv) as (_ & Hks & Hpg).
  destruct lk as [lo ow]. cbn in Hl. subst lo.
  assert (forall ps' (e' : E), table_ok ps' np init (ci_proc <$> cs) ->
    kernel_ok (Kst ps' (Spinlock false ow) np (Some init) (<[c := c0]> cs) e')) as Hdone.
  { intros ps' e' Ht'. split; [done|]. split; [by apply Forall_insert|]. exists init.
    split; [done|]. cbn. rewrite list_fmap_insert, Hp0. by rewrite list_insert_id. }
  assert (forall sz e', wpk (if negb (n =? 0) && (sz =? 0) then ret (-1)
     else upd i (set_sz sz) ;;; switchuvm i ;;; ret 0)
     (Kst ps (Spinlock false ow) np (Some init) (<[c := c0]> cs) e')
     (fun r s' => kernel_ok s' /\ (r = 0 \/ r = -1 /\ k_procs s' = ps))) as Hrest.
  { intros sz e'. destruct (negb (n =? 0) && (sz =? 0)).
    - wstep. eauto.
    - wbind. eapply wp_upd; [done|]. wbind.
      eapply wp_switchuvm; [by apply list_lookup_insert_eq|done..|]. wstep. split; [|by left].
      apply Hdone. eapply table_same; [done..| |done]. split; [by left|done]. }
  destruct (0 <? n); [|destruct (n <? 0)].
  - apply wp_env; [apply safe_allocuvm|]. intros sz e'. apply Hrest.
  - apply wp_env; [apply safe_deallocuvm|]. intros sz e'. apply Hrest.
  - wstep. apply Hrest.
Qed.

Lemma wp_fork_files np' fs : forall k ps lk np ip cs (e : E) q Q,
  ps !! np' = Some q ->
  (forall fl e', Q tt (Kst (<[np' := set_ofile fl q]> ps) lk np ip cs e')) ->
  wpk (fork_files fs k np') (Kst ps lk np ip cs e) Q.
Proof.
  induction fs as [|[f|] fs IH]; intros k ps lk np ip cs e q Q Hq HQ; cbn [fork_files].
  - wstep. specialize (HQ (p_ofile q) e). destruct q. cbn in HQ. by rewrite list_insert_id in HQ.
  - pose proof (lookup_lt_Some _ _ _ Hq). wbind. apply wp_env; [apply safe_filedup|].
    intros _ e1. wbind. eapply wp_upd; [done|].
    eapply IH; [by apply list_lookup_insert_eq|]. intros fl e2.
    rewrite list_insert_insert_eq. apply HQ.
  - by eapply IH.
Qed.

Lemma wp_close_files cur fs : forall k ps lk np ip cs (e : E) q Q,
  ps !! cur = Some q ->
  (forall fl e', Q tt (Kst (<[cur := set_ofile fl q]> ps) lk np ip cs e')) ->
  wpk (close_files fs k cur) (Kst ps lk np ip cs e) Q.
Proof.
  induction fs as [|[f|] fs IH]; intros k ps lk np ip cs e q Q Hq HQ; cbn [close_files].
  - wstep. specialize (HQ (p_ofile q) e). destruct q. cbn in HQ. by rewrite list_insert_id in HQ.
  - pose proof (lookup_lt_Some _ _ _ Hq). wbind. apply wp_env; [apply safe_fileclose|].
    intros _ e1. wbind. eapply wp_upd; [done|].
    eapply IH; [by apply list_lookup_insert_eq|]. intros fl e2.
    rewrite list_insert_insert_eq. apply HQ.
  - by eapply IH.
Qed.

Lemma name_copy' f t : length f = 16%nat -> readable 15 t = true ->
  exists f', Kernel.safestrcpy f t 16 = Some f' /\ length f' = 16%nat.
Proof.
  intros Hf Ht. unfold Kernel.safestrcpy. cbn [Z.leb Z.compare].
  destruct (safestrcpy_loop_Some 15 f t) as (f' & Hs & Hl & _); [lia|done|].
  exists f'. by rewrite Hl.
Qed.

Lemma name_copy f t : length f = 16%nat -> length t = 16%nat ->
  exists f', Kernel.safestrcpy f t 16 = Some f' /\ length f' = 16%nat.
Proof.
  intros Hf Ht. apply name_copy'; [done|].
  assert (forall n l, (n <= length l)%nat -> readable n l = true) as Hr.
  { induction n as [|n IH]; intros [|x l] Hl; simpl in *; try done; [lia|].
    rewrite IH by lia. by destruct (x =? 0). }
  apply Hr. lia.
Qed.

(** [allocproc] hands out an UNUSED slot as EMBRYO with a fresh pid, or fails and
    leaves the slot UNUSED. *)
Lemma wp_allocproc c cs ps lk np ip ci (e : E) Q :
  (c < length cs)%nat -> lk_locked lk = false -> c_ncli (ci_cpu ci) = 0 -> 0 < np < 2 ^ 31 - 1 ->
  (forall ci' e', c_ncli (ci_cpu ci') = 0 -> ci_proc ci' = ci_proc ci ->
     Q None (Kst ps (Spinlock false None) np ip (<[c := ci']> cs) e')) ->
  (forall ci' e' i p p', c_ncli (ci_cpu ci') = 0 -> ci_proc ci' = ci_proc ci ->
     ps !! i = Some p -> p_state p = UNUSED -> p_state p' = UNUSED -> p_parent p' = p_parent p ->
     p_name p' = p_name p ->
     Q None (Kst (<[i := p']> ps) (Spinlock false None) (np + 1) ip (<[c := ci']> cs) e')) ->
  (forall ci' e' i p p', c_ncli (ci_cpu ci') = 0 -> ci_proc ci' = ci_proc ci ->
     ps !! i = Some p -> p_state p = UNUSED -> p_state p' = EMBRYO -> p_pid p' = np ->
     p_parent p' = p_parent p -> p_name p' = p_name p -> p_kstack p' <> 0 ->
     Q (Some i) (Kst (<[i := p']> ps) (Spinlock false None) (np + 1) ip (<[c := ci']> cs) e')) ->
  wpk (allocproc forkret_addr trapret_addr c) (Kst ps lk np ip (<[c := ci]> cs) e) Q.
Proof.
  intros Hc Hl Hn Hnp HQ0 HQ1 HQ2. unfold allocproc. wbind. apply wp_acq; [done..|].
  intros c1 Hn1 Hi1 Hp1. wstep. cbn [k_procs]. destruct (findi is_unused ps) as [i|] eqn:Hf.
  2: { wbind. apply wp_rel; [done..|]. intros c2 Hn2 Hp2. wstep. apply HQ0; [done|congruence]. }
  apply findi_Some in Hf as (p & Hi & Hu & _). unfold is_unused in Hu.
  rewrite bool_decide_eq_true in Hu. pose proof (lookup_lt_Some _ _ _ Hi).
  wbind. eapply wp_upd; [done|]. wstep. cbn [k_nextpid]. wbind.
  eapply wp_upd; [by apply list_lookup_insert_eq|]. rewrite list_insert_insert_eq. wbind.
  unfold wp at 1, set_nextpid, modify. cbn. rewrite s32_small by lia. wbind.
  apply wp_rel; [done..|]. intros c2 Hn2 Hp2. wbind. apply wp_env; [apply safe_kalloc|].
  intros ks e1. wbind. eapply wp_upd; [by apply list_lookup_insert_eq|].
  rewrite list_insert_insert_eq. destruct (Z.eqb_spec ks 0) as [->|Hks].
  - wbind. eapply wp_upd; [by apply list_lookup_insert_eq|]. rewrite list_insert_insert_eq.
    wstep. eapply HQ1; try done. congruence.
  - wbind. eapply wp_upd; [by apply list_lookup_insert_eq|]. rewrite list_insert_insert_eq.
    wstep. eapply HQ2; try done. congruence.
Qed.

Definition fork_post (cur : nat) (s : kst E) (r : Z) (s' : kst E) : Prop :=
  r = -1 \/
  r = k_nextpid s /\ exists i p' pc, i <> cur /\ k_procs s' !! i = Some p' /\
    k_procs s !! cur = Some pc /\ k_procs s' !! cur = Some pc /\
    p_state p' = RUNNABLE /\ p_pid p' = r /\ p_parent p' = Some cur /\
    p_tf p' = set_eax 0 (p_tf pc) /\ p_sz p' = p_sz pc /\ p_cwd p' = p_cwd pc.

Lemma wp_fork s c i : kernel_ok s -> runs s c i -> k_nextpid s < 2 ^ 31 - 1 ->
  wpk (fork forkret_addr trapret_addr c) s (fun r s' => kernel_ok s' /\ fork_post i s r s').
Proof.
  intros Hok Hruns. pattern s. eapply (kernel_ok_run c i); [done..|].
  intros ps lk np init ci cs e p Hlt Hl Hn Hp HF Ht Hr Hi Hip Hs [Hlv Hnz] _. cbn [k_nextpid].
  intros Hnp. unfold fork. wbind. apply (wp_cur c cs Hlt _ _ _ _ _ _ i); [done..|].
  intros c0 Hn0 Hp0. wbind.
  pose proof (t_pid _ _ _ _ Ht i p Hi Hlv) as Hpid.
  assert ((ci_proc <$> cs) = <[c := Some i]> (ci_proc <$> cs)) as Hrun by by rewrite list_insert_id.
  apply wp_allocproc; [done..|lia| | |].
  - intros c1 e1 Hn1 Hp1. wstep. split; [|by left]. apply kernel_ok_intro; [done..|].
    by rewrite Hp1, Hp0, <- Hrun.
  - intros c1 e1 j q q' Hn1 Hp1 Hj Hu Hu' Hpar Hnm. wstep. split; [|by left].
    apply kernel_ok_intro; [done..|]. rewrite Hp1, Hp0, <- Hrun.
    eapply (table_free _ np); [done..|by right|done| | |lia].
    + rewrite Hpar. by eapply (t_unused _ _ _ _ Ht).
    + rewrite Hnm. by eapply (t_name _ _ _ _ Ht).
  - intros c1 e1 j q q' Hn1 Hp1 Hj Hu Hu' Hqp Hpar Hnm Hks.
    assert (j <> i) as Hji by (intros ->; congruence). pose proof (lookup_lt_Some _ _ _ Hj) as Hjl.
    wbind. eapply wp_getproc; [by rewrite list_lookup_insert_ne|]. wbind.
    apply wp_env; [apply safe_copyuvm|]. intros pg e2. wbind.
    eapply wp_upd; [by apply list_lookup_insert_eq|]. rewrite list_insert_insert_eq.
    destruct (Z.eqb_spec pg 0) as [->|Hpg].
    + wbind. eapply wp_getproc; [by apply list_lookup_insert_eq|]. wbind.
      apply wp_env; [apply safe_kfree|]. intros _ e3.
      do 2 (wbind; eapply wp_upd; [by apply list_lookup_insert_eq|]; rewrite list_insert_insert_eq).
      wstep. split; [|by left]. apply kernel_ok_intro; [done..|]. rewrite Hp1, Hp0, <- Hrun.
      eapply (table_free _ np); [done..|by right|done| | |lia]; cbn; rewrite ?Hpar, ?Hnm.
      * by eapply (t_unused _ _ _ _ Ht).
      * by eapply (t_name _ _ _ _ Ht).
    + do 3 (wbind; eapply wp_upd; [by apply list_lookup_insert_eq|]; rewrite list_insert_insert_eq).
      wbind. eapply wp_fork_files; [by apply list_lookup_insert_eq|]. intros fl e3.
      rewrite list_insert_insert_eq. pose proof (t_cwd _ _ _ _ Ht i p Hi Hlv Hnz) as Hcwd.
      destruct (p_cwd p) as [ip|] eqn:Hip'; [|done]. wbind.
      apply wp_env; [apply safe_idup|]. intros _ e4.
      wbind; eapply wp_upd; [by apply list_lookup_insert_eq|]. rewrite list_insert_insert_eq.
      wbind. eapply wp_getproc; [by apply list_lookup_insert_eq|]. cbn [p_name set_cwd set_ofile set_tf
        set_parent set_sz set_pgdir].
      destruct (name_copy (p_name q') (p_name p)) as (nm & -> & Hnl).
      { rewrite Hnm. by eapply (t_name _ _ _ _ Ht). } { by eapply (t_name _ _ _ _ Ht). }
      wbind; eapply wp_upd; [by apply list_lookup_insert_eq|]. rewrite list_insert_insert_eq.
      wbind. eapply wp_getproc; [by apply list_lookup_insert_eq|].
      wbind. apply wp_acq; [done..|]. intros c2 Hn2 Hi2 Hp2.
      wbind; eapply wp_upd; [by apply list_lookup_insert_eq|]. rewrite list_insert_insert_eq.
      wbind. apply wp_rel; [done..|]. intros c3 Hn3 Hp3. wstep. split.
      * apply kernel_ok_intro; [done..|]. rewrite Hp3, Hp2, Hp1, Hp0, <- Hrun.
        by eapply table_born with (cur := i).
      * right. split; [done|]. exists j. eexists _, p. cbn [k_procs].
        rewrite list_lookup_insert_eq, list_lookup_insert_ne by done.
        split; [done|]. split; [reflexivity|]. split; [done|]. split; [done|].
        split; [reflexivity|]. split; [cbn; reflexivity|]. split; [reflexivity|].
        split; [reflexivity|]. split; [reflexivity|]. symmetry. exact Hip'.
Qed.

Lemma woken_in_wait p q i : woken p q -> in_wait i q -> in_wait i p.
Proof. intros ([Hs|[Hs Hr]] & _ & Hc & _) [Hs' Hc']; split; congruence. Qed.

Lemma wake_not_in_wait i p : ~ in_wait i (wake (Some (ChProc i)) p).
Proof.
  unfold wake, sleeps_on, in_wait. intros [Hs Hc].
  destruct (decide (p_state p = SLEEPING)), (decide (p_chan p = Some (ChProc i)));
    rewrite ?bool_decide_true, ?(bool_decide_false (p_state p = SLEEPING)),
      ?(bool_decide_false (p_chan p = _)) in Hs, Hc by done; done.
Qed.

(** The loop of [exit] over the children. *)
Lemma wp_reparent cur init n : forall i ps lk np ip cs (e : E) Q,
  (i + n <= length ps)%nat ->
  (forall ps',
     length ps' = length ps ->
     (forall j p, ps !! j = Some p -> exists q, ps' !! j = Some q /\ woken p q /\
        p_parent q = if decide (p_parent p = Some cur /\ (i <= j < i + n)%nat)
                     then Some init else p_parent p) ->
     (forall k p q, (i <= k < i + n)%nat -> ps !! k = Some p -> p_parent p = Some cur ->
        p_state p = ZOMBIE -> ps' !! init = Some q -> ~ in_wait init q) ->
     Q tt (Kst ps' lk np ip cs e)) ->
  wpk (reparent n i cur (Some init)) (Kst ps lk np ip cs e) Q.
Proof.
  induction n as [|n IH]; intros i ps lk np ip cs e Q Hlen HQ; cbn [reparent].
  { wstep. apply HQ; [done| |intros; lia]. intros j p Hj. exists p.
    split_and!; [done|apply woken_refl|]. rewrite decide_False; [done|lia]. }
  destruct (lookup_lt_is_Some_2 ps i ltac:(lia)) as [p Hi]. wbind.
  eapply wp_getproc; [done|]. wbind.
  (* the table after this entry *)
  assert (forall ps1, length ps1 = length ps ->
    (forall j q, ps !! j = Some q -> exists r, ps1 !! j = Some r /\ woken q r /\
       p_parent r = if decide (p_parent q = Some cur /\ j = i) then Some init else p_parent q) ->
    (forall q, p_parent p = Some cur -> p_state p = ZOMBIE -> ps1 !! init = Some q ->
       ~ in_wait init q) ->
    wpk (reparent n (S i) cur (Some init)) (Kst ps1 lk np ip cs e) Q) as Hgo.
  { intros ps1 Hl1 H1 Hz. apply IH; [lia|]. intros ps2 Hl2 H2 Hz2. apply HQ; [congruence| |].
    - intros j q Hj. destruct (H1 j q Hj) as (r & Hr & Hw & Hpr).
      destruct (H2 j r Hr) as (t & Ht & Hw2 & Hpt). exists t.
      split_and!; [done|by eapply woken_trans|]. rewrite Hpt, Hpr.
      clear - H1. repeat case_decide; try done; exfalso; intuition (lia || congruence).
    - intros k q t Hk Hq Hqp Hqz Hti Hw. destruct (decide (k = i)) as [->|Hki].
      + simplify_eq. destruct (lookup_lt_is_Some_2 ps1 init) as [r Hr].
        { apply lookup_lt_Some in Hti. lia. }
        destruct (H2 init r Hr) as (t' & Ht' & Hw' & _). simplify_eq.
        eapply Hz; [done..|]. by eapply woken_in_wait.
      + destruct (H1 k q Hq) as (r & Hr & Hwr & Hpr).
        eapply (Hz2 k r t); try done; [lia| |].
        * rewrite Hpr, decide_False by tauto. done.
        * by apply (woken_state _ _ ZOMBIE Hwr). }
  destruct (decide (p_parent p = Some cur)) as [Hpc|Hpc].
  2: { rewrite bool_decide_false by done. wstep. apply Hgo; [done| |done].
       intros j q Hj. exists q. split_and!; [done|apply woken_refl|].
       rewrite decide_False; [done|]. intros [? ->]. by simplify_eq. }
  rewrite bool_decide_true by done. wbind. eapply wp_upd; [done|].
  assert (forall j q, ps !! j = Some q -> exists r, <[i := set_parent (Some init) p]> ps !! j = Some r /\
    woken q r /\ p_parent r = if decide (p_parent q = Some cur /\ j = i) then Some init else p_parent q) as Hset.
  { intros j q Hj. destruct (decide (j = i)) as [->|Hji]; simplify_eq.
    - eexists. rewrite list_lookup_insert_eq by lia. split_and!; [done|split; [by left|done]|].
      by rewrite decide_True.
    - exists q. rewrite list_lookup_insert_ne by done. split_and!; [done|apply woken_refl|].
      rewrite decide_False by tauto. done. }
  case_bool_decide as Hz.
  - unfold wp at 1, wakeup1, map_procs, modify. cbn. apply Hgo.
    + by rewrite length_fmap, length_insert.
    + intros j q Hj. destruct (Hset j q Hj) as (r & Hr & Hw & Hpr).
      destruct (wake_woken (Some (ChProc init)) r) as [Hw2 Hp2].
      exists (wake (Some (ChProc init)) r). rewrite list_lookup_fmap, Hr.
      split_and!; [done|by eapply woken_trans|congruence].
    + intros q _ _ Hq. rewrite list_lookup_fmap in Hq. apply fmap_Some in Hq as (r & _ & ->).
      apply wake_not_in_wait.
  - wstep. apply Hgo; [by rewrite length_insert|done|done].
Qed.

Lemma wp_exit s c i : kernel_ok s -> runs s c i -> k_initproc s <> Some i ->
  wpk (exit c) s (fun _ s' => kernel_ok s' /\
    exists p p', k_procs s !! i = Some p /\ k_procs s' !! i = Some p' /\
      p_state p' = ZOMBIE /\ p_parent p' = p_parent p /\ p_pid p' = p_pid p).
Proof.
  intros Hok Hruns. pattern s. eapply (kernel_ok_run c i); [done..|].
  intros ps lk np init ci cs e p Hlt Hl Hn Hp HF Ht Hr Hi Hip Hs [Hlv Hnz] _. cbn [k_initproc].
  intros Hni. unfold exit. wbind. apply (wp_cur c cs Hlt _ _ _ _ _ _ i); [done..|].
  intros c0 Hn0 Hp0. wstep. cbn [k_initproc]. rewrite bool_decide_false by congruence.
  wbind. eapply wp_getproc; [done|]. wbind. eapply wp_close_files; [done|]. intros fl e1.
  pose proof (t_cwd _ _ _ _ Ht i p Hi Hlv Hnz) as Hcwd.
  destruct (p_cwd p) as [ip|] eqn:Hip'; [|done]. wbind. apply wp_env; [apply safe_iput_op|].
  intros _ e2. wbind. eapply wp_upd; [by apply list_lookup_insert_eq|].
  rewrite list_insert_insert_eq. wbind. apply wp_acq; [done..|]. intros c1 Hn1 Hi1 Hp1.
  wbind. eapply wp_getproc; [by apply list_lookup_insert_eq|]. cbn [p_parent set_cwd set_ofile].
  wbind. unfold wp at 1, wakeup1, map_procs, modify. cbn [k_procs k_lock k_nextpid k_initproc k_cpus k_env].
  set (p1 := set_cwd None (set_ofile fl p)). set (ps1 := <[i := p1]> ps).
  set (ch := ChProc <$> p_parent p).
  assert (Hl1 : length ps1 = length ps) by by unfold ps1; rewrite length_insert.
  wbind. apply wp_reparent. { rewrite length_fmap, Hl1, (t_len _ _ _ _ Ht). lia. }
  rewrite length_fmap, Hl1, (t_len _ _ _ _ Ht). intros ps2 Hl2 H2 Hz2.
  assert (forall j q, ps1 !! j = Some q -> exists r, ps2 !! j = Some r /\ woken (wake ch q) r /\
    p_parent r = if decide (p_parent q = Some i) then Some init else p_parent q) as H1.
  { intros j q Hj. pose proof (lookup_lt_Some _ _ _ Hj) as Hjl.
    destruct (H2 j (wake ch q)) as (r & ? & ? & Hpr); [by rewrite list_lookup_fmap, Hj|].
    exists r. split_and!; try done. rewrite Hpr. rewrite (proj2 (wake_woken ch q)).
    rewrite Hl1, (t_len _ _ _ _ Ht) in Hjl. clear - Hjl.
    repeat case_decide; try done; exfalso; intuition lia. }
  assert (ps1 !! i = Some p1) as Hi1' by by apply list_lookup_insert_eq.
  assert (p_parent p <> Some i) as Hself.
  { destruct (t_parent _ _ _ _ Ht i p Hi Hlv) as (r & pr & ? & ? & _); congruence. }
  destruct (H1 i p1 Hi1') as (p2 & Hp2i & Hw2 & Hpar2).
  rewrite decide_False in Hpar2 by done.
  assert (wake ch p1 = p1) as Hwk.
  { unfold wake, sleeps_on. cbn. by rewrite Hs. }
  rewrite Hwk in Hw2. wbind. eapply wp_upd; [done|].
  eapply wp_switch; [done..|by rewrite Hp1|apply list_lookup_insert_eq; by eapply lookup_lt_Some|done|].
  intros c3 ia Hn3 Hp3. rewrite list_insert_insert_eq. split.
  2: { exists p. eexists. split; [done|].
       split; [apply list_lookup_insert_eq; by eapply lookup_lt_Some|].
       destruct Hw2 as (_ & Hpid2 & _). split_and!; [done|exact Hpar2|exact Hpid2]. }
  apply kernel_ok_intro; [done..|]. rewrite Hp3.
  destruct Hw2 as (_ & Hpid2 & _ & Hks2 & Hpg2 & _ & Hnm2).
  eapply (table_exit ps ps2 np init _ c i p); try done; try congruence.
  - by rewrite Hl2, (t_len _ _ _ _ Ht).
  - intros j q r Hj Hq Hr'. destruct (H1 j q) as (r' & ? & Hw & Hpr).
    { unfold ps1. by rewrite list_lookup_insert_ne. }
    simplify_eq. split; [|done]. eapply woken_trans; [|done]. apply wake_woken.
  - intros r q Hpr Hq Hw. assert (r <> i) as Hri by congruence.
    destruct (lookup_lt_is_Some_2 ps1 r) as [q0 Hq0].
    { apply lookup_lt_Some in Hq. rewrite Hl1, (t_len _ _ _ _ Ht). lia. }
    destruct (H1 r q0 Hq0) as (q' & ? & Hwq & _). simplify_eq.
    unfold ch in Hwq. rewrite Hpr in Hwq. eapply wake_not_in_wait, woken_in_wait; [|done]. done.
  - intros k q q0 Hk Hkp Hkz Hq0. assert (k <> i) as Hki by congruence.
    assert (ps1 !! k = Some q) as Hk1 by by unfold ps1; rewrite list_lookup_insert_ne.
    apply (Hz2 k (wake ch q) q0); try done.
    + apply lookup_lt_Some in Hk. rewrite (t_len _ _ _ _ Ht) in Hk. lia.
    + by rewrite list_lookup_fmap, Hk1.
    + by rewrite (proj2 (wake_woken ch q)).
    + apply (woken_state _ _ ZOMBIE (proj1 (wake_woken ch q))); done.
Qed.

(** * All interleavings *)

(** The calls of the process table that the CPUs make, in any order. *)
Inductive kcall :=
| KFork (c : nat) | KExit (c : nat) | KWait (c : nat) | KYield (c : nat)
| KSleep (c : nat) (a : Z) (take give : M E unit)
| KGrow (c : nat) (n : Z) | KKill (c : nat) (pid : Z) | KWakeup (c : nat) (ch : option pchan)
| KCount (c : nat) | KSched (c i : nat).

Definition run_call (k : kcall) : M (kst E) unit :=
  match k with
  | KFork c => fork forkret_addr trapret_addr c ;;; ret tt
  | KExit c => exit c
  | KWait c => wait c ;;; ret tt
  | KYield c => yield c
  | KSleep c a take give => sleep_under c a take give
  | KGrow c n => growproc c n ;;; ret tt
  | KKill c pid => kill c pid ;;; ret tt
  | KWakeup c ch => wakeup c ch
  | KCount c => getproccount c ;;; ret tt
  | KSched c i => run_process c i
  end.

(** A system call needs a current process; [exit] is not called by init; pids have
    not run out; a CPU without a process is in its scheduler. *)
Definition enabled (k : kcall) (s : kst E) : Prop :=
  match k with
  | KFork c => (exists i, runs s c i) /\ k_nextpid s < 2 ^ 31 - 1
  | KExit c => exists i, runs s c i /\ k_initproc s <> Some i
  | KWait c | KYield c | KGrow c _ => exists i, runs s c i
  | KSleep c _ take give => (exists i, runs s c i) /\ env_safe take /\ env_safe give
  | KKill c _ | KWakeup c _ | KCount c => (c < length (k_cpus s))%nat
  | KSched c i => (exists ci, k_cpus s !! c = Some ci /\ ci_proc ci = None) /\ (i < NPROC)%nat
  end.

Definition proc_step (s s' : kst E) : Prop :=
  exists k, enabled k s /\ run_call k s = Ret (tt, s').

Lemma wp_call k s : kernel_ok s -> enabled k s ->
  wpk (run_call k) s (fun _ s' => kernel_ok s').
Proof.
  assert (forall A (m : M (kst E) A) s Q, wpk m s (fun r s' => kernel_ok s' /\ Q r s') ->
    wpk (m ;;; ret tt) s (fun _ s' => kernel_ok s')) as Hdrop.
  { intros A m s0 Q Hm. wbind. eapply wp_mono; [exact Hm|]. intros a s' [? _]. by wstep. }
  intros Hok. destruct k as [c|c|c|c|c a t g|c n|c pid|c ch|c|c i]; cbn [enabled run_call].
  - intros [[i Hi] Hn]. eapply Hdrop. by apply wp_fork.
  - intros (i & Hi & Hn). eapply wp_mono; [by apply (wp_exit _ _ i)|]. by intros _ s' [? _].
  - intros [i Hi]. eapply Hdrop. by apply wp_wait.
  - intros [i Hi]. by eapply wp_yield.
  - intros ([i Hi] & Ht & Hg). by eapply wp_sleep_under.
  - intros [i Hi]. eapply Hdrop. by eapply wp_growproc.
  - intros Hc. eapply Hdrop. by apply wp_kill.
  - intros Hc. by apply wp_wakeup.
  - intros Hc. eapply Hdrop. by apply wp_getproccount.
  - intros [Hc Hi]. eapply wp_mono; [by apply wp_run_process|]. by intros _ s' [? _].
Qed.

(** * Boot *)

Variable initcode : list Z.

(** The kernel when [userinit] is called: an empty table and idle CPUs. *)
Definition boot_state (cs : list cpuinfo) (e : E) : kst E :=
  Kst (replicate NPROC proc_zero) initlock 1 None cs e.

Definition idle (ci : cpuinfo) : Prop := c_ncli (ci_cpu ci) = 0 /\ ci_proc ci = None.

(** [userinit] returned, and [namei] found the root directory. *)
Definition booted (s : kst E) : Prop :=
  exists c cs e, (c < length cs)%nat /\ Forall idle cs /\
    userinit forkret_addr trapret_addr initcode c (boot_state cs e) = Ret (tt, s) /\
    forall i p, k_initproc s = Some i -> k_procs s !! i = Some p -> p_cwd p <> None.

Lemma table_boot i p' (n : nat) :
  (i < NPROC)%nat -> p_state p' = RUNNABLE -> p_pid p' = 1 -> p_parent p' = None ->
  p_kstack p' <> 0 -> p_pgdir p' <> 0 -> p_cwd p' <> None -> length (p_name p') = 16%nat ->
  table_ok (<[i := p']> (replicate NPROC proc_zero)) 2 i (replicate n None).
Proof.
  intros Hi Hs Hpid Hpar Hks Hpg Hcwd Hnm.
  assert (forall j q, <[i := p']> (replicate NPROC proc_zero) !! j = Some q ->
    j = i /\ q = p' \/ q = proc_zero) as Hl.
  { intros j q Hq. ins; [by left|]. apply lookup_replicate in Hq as [-> _]. by right. }
  assert (~ live proc_zero) as Hd by (unfold live; tauto). split.
  - by rewrite length_insert, length_replicate.
  - intros c j. by intros [? _]%lookup_replicate.
  - intros j q [[-> ->]| ->]%Hl ?; [congruence|done].
  - intros c c' j. by intros [? _]%lookup_replicate.
  - intros j q [[-> ->]| ->]%Hl ?; [lia|done].
  - intros j k q r [[-> ->]| ->]%Hl [[-> ->]| ->]%Hl; done.
  - exists p'. rewrite list_lookup_insert_eq by by rewrite length_replicate.
    unfold live. by rewrite Hs.
  - intros j q [[-> ->]| ->]%Hl ?; done.
  - intros j q [[-> ->]| ->]%Hl ?; [congruence|done].
  - intros j k q [[-> ->]| ->]%Hl ?; [congruence|done].
  - intros j q [[-> ->]| ->]%Hl ?; [|done]. by rewrite Hs.
  - intros j q [[-> ->]| ->]%Hl ?; done.
  - intros j q [[-> ->]| ->]%Hl; done.
Qed.

Lemma booted_ok s : booted s -> kernel_ok s.
Proof.
  intros (c & cs & e & Hc & Hidle & Hu & Hcwd).
  destruct (lookup_lt_is_Some_2 _ _ Hc) as [ci Hci].
  destruct (Forall_lookup_1 _ _ _ _ Hidle Hci) as [Hn Hp].
  unfold boot_state in Hu. rewrite <- (list_insert_id cs c ci) in Hu by done.
  apply bind_inv in Hu as (o & s1 & Ha & Hu).
  apply (wp_Ret other_panic _ _ (fun o s1 => o = None \/ exists i p' c1 e1,
    (i < NPROC)%nat /\ o = Some i /\ c_ncli (ci_cpu c1) = 0 /\ ci_proc c1 = None /\
    p_state p' = EMBRYO /\ p_pid p' = 1 /\ p_parent p' = None /\ length (p_name p') = 16%nat /\
    p_kstack p' <> 0 /\
    s1 = Kst (<[i := p']> (replicate NPROC proc_zero)) (Spinlock false None) 2 None
           (<[c := c1]> cs) e1)) in Ha.
  2: { apply wp_allocproc; [done..|lia| | |]; [by left|by left|].
       intros c1 e1 i p p' Hn1 Hp1 (-> & Hi)%lookup_replicate Hst Hs' Hpid Hpar Hnm Hks. right.
       exists i, p', c1, e1. by rewrite Hpar, Hnm, Hp1. }
  destruct Ha as [->|(i & p' & c1 & e1 & Hi & -> & Hn1 & Hp1 & Hs & Hpid & Hpar & Hnm & Hks & ->)];
    [done|].
  cut (forall i p, k_initproc s = Some i -> k_procs s !! i = Some p -> p_cwd p <> None); [|done].
  clear Hcwd. refine (wp_Ret other_panic _ _ (fun _ s =>
    (forall i p, k_initproc s = Some i -> k_procs s !! i = Some p -> p_cwd p <> None) ->
    kernel_ok s) _ _ _ Hu).
  wbind. unfold wp at 1, set_initproc, modify.
  cbn [k_procs k_lock k_nextpid k_initproc k_cpus k_env].
  assert (i < length (replicate NPROC proc_zero))%nat as Hil by by rewrite length_replicate.
  wbind. apply wp_env; [apply safe_setupkvm|]. intros pg e2. wbind.
  eapply wp_upd; [by apply list_lookup_insert_eq|]. rewrite list_insert_insert_eq.
  destruct (Z.eqb_spec pg 0) as [->|Hpg]; [by apply (bool_decide_unpack _)|].
  wbind. apply wp_env; [apply safe_inituvm|]. intros _ e3.
  do 2 (wbind; eapply wp_upd; [by apply list_lookup_insert_eq|]; rewrite list_insert_insert_eq).
  wbind. eapply wp_getproc; [by apply list_lookup_insert_eq|]. cbn [p_name set_tf set_sz set_pgdir].
  destruct (name_copy' (p_name p') [105; 110; 105; 116; 99; 111; 100; 101; 0]) as (nm & Hcp & Hnl);
    [done..|]. rewrite Hcp.
  wbind. eapply wp_upd; [by apply list_lookup_insert_eq|]. rewrite list_insert_insert_eq.
  wbind. apply wp_env; [apply safe_namei_root|]. intros cwd e4.
  wbind. eapply wp_upd; [by apply list_lookup_insert_eq|]. rewrite list_insert_insert_eq.
  wbind. apply wp_acq; [done..|]. intros c2 Hn2 Hi2 Hp2.
  wbind. eapply wp_upd; [by apply list_lookup_insert_eq|]. rewrite list_insert_insert_eq.
  apply wp_rel; [done..|]. intros c3 Hn3 Hp3 Hcwd. apply kernel_ok_intro; [|done|].
  { eapply Forall_impl; [done|]. by intros x [? _]. }
  rewrite Hp3, Hp2, Hp1, (list_insert_id (ci_proc <$> cs)).
  2: { by rewrite list_lookup_fmap, Hci, <- Hp. }
  replace (ci_proc <$> cs) with (replicate (length cs) (None : option nat)).
  2: { symmetry. clear - Hidle. induction Hidle as [|x l [_ Hx] _ IH]; [done|].
       cbn. by rewrite Hx, <- IH. }
  apply table_boot; try done. eapply (Hcwd i); [done|]. by apply list_lookup_insert_eq.
Qed.

Lemma reachable_kernel_ok s : reachable booted proc_step s -> kernel_ok s.
Proof.
  apply reachable_invariant; [apply booted_ok|].
  intros s1 s2 Hok (k & Hk & Hrun). exact (wp_Ret _ _ _ _ _ _ (wp_call k s1 Hok Hk) Hrun).
Qed.



(** [wait] is exact: it returns the pid of a child that has exited and frees
    its slot, or -1 when there is no child (or the caller was killed) and no exited
    one, or goes to sleep when it has children and none has exited. *)
Theorem wait_exact s c i r s' :
  kernel_ok s -> runs s c i -> wait c s = Ret (r, s') -> wait_post i s r s'.
Proof. intros Hok Hr Hw. exact (proj2 (wp_Ret _ _ _ _ _ _ (wp_wait s c i Hok Hr) Hw)). Qed.


(** [fork] returns -1, or the fresh pid of a RUNNABLE child with the caller as
    parent, whose registers are the caller's but for %eax, which is 0. *)
Theorem fork_exact s c i r s' :
  kernel_ok s -> runs s c i -> k_nextpid s < 2 ^ 31 - 1 ->
  fork forkret_addr trapret_addr c s = Ret (r, s') -> fork_post i s r s'.
Proof. intros Hok Hr Hn Hw. exact (proj2 (wp_Ret _ _ _ _ _ _ (wp_fork s c i Hok Hr Hn) Hw)). Qed.

End ops.

(** * A concrete kernel *)

(** An environment whose page-table copies succeed or fail as scripted. *)
#[export] Instance script_env : ProcEnv (list bool) := {|
  env_kalloc := ret 0x80400000;
  env_kfree _ := ret tt;
  env_setupkvm := ret 0x80500000;
  env_inituvm _ _ := ret tt;
  env_copyuvm _ _ := fun (e : list bool) =>
    match e with [] => Ret (0x80600000, []) | b :: e => Ret (if (b : bool) then 0x80600000 else 0, e) end;
  env_freevm _ := ret tt;
  env_allocuvm _ _ n := ret n;
  env_deallocuvm _ _ n := ret n;
  env_filedup _ := ret tt;
  env_fileclose _ := ret tt;
  env_idup _ := ret tt;
  env_iput_op _ := ret tt;
  env_namei_root := ret (Some 0%nat)
|}.

#[export] Instance script_safe : ProcEnvSafe (list bool).
Proof. split; try done. intros d sz e. by destruct e as [|[] e]. Qed.

(** Two CPUs, init running on the first. *)
Definition demo_cpus : list cpuinfo :=
  [Cpuinfo (Cpu true 0 false) 0 None; Cpuinfo (Cpu true 0 false) 1 None].

Definition demo_boot (script : list bool) : kst (list bool) :=
  match userinit 100 200 [] 0 (boot_state demo_cpus script) with
  | Ret (_, s) => s | _ => boot_state [] []
  end.

Definition demo_run {A} (m : M (kst (list bool)) A) (s : kst (list bool)) : kst (list bool) :=
  match m s with Ret (_, s') => s' | _ => s end.

(** init runs on CPU 0 and forks; the child runs on CPU 1. *)
Definition demo1 : kst (list bool) := demo_run (run_process 0 0) (demo_boot []).
Definition demo2 : kst (list bool) := demo_run (fork 100 200 0) demo1.
Definition demo3 : kst (list bool) := demo_run (run_process 1 1) demo2.
Definition demo4 : kst (list bool) := demo_run (exit 1) demo3.

Lemma demo_booted script : booted 100 200 [] (demo_boot script).
Proof.
  exists 0%nat, demo_cpus, script. split_and!; [cbn; lia| |vm_compute; reflexivity|].
  - repeat constructor.
  - intros i p Hi Hp. vm_compute in Hi. injection Hi as <-. vm_compute in Hp.
    injection Hp as <-. discriminate.
Qed.

Lemma demo_step {k s s'} :
  enabled k s -> run_call 100 200 k s = Ret (tt, s') ->
  reachable (booted 100 200 []) (proc_step 100 200) s ->
  reachable (booted (E := list bool) 100 200 []) (proc_step 100 200) s'.
Proof. intros He Hr Hs. eapply reach_step; [exact Hs|]. by exists k. Qed.

Lemma demo1_reach : reachable (booted 100 200 []) (proc_step 100 200) demo1.
Proof.
  apply (demo_step (k := KSched 0 0) (s := demo_boot [])).
  - split; [|vm_compute; lia]. eexists. split; [vm_compute; reflexivity|done].
  - by vm_compute.
  - apply reach_init, demo_booted.
Qed.

Lemma demo2_reach : reachable (booted 100 200 []) (proc_step 100 200) demo2.
Proof.
  apply (demo_step (k := KFork 0) (s := demo1)).
  - split; [|by vm_compute]. exists 0%nat. eexists. split; [vm_compute; reflexivity|done].
  - by vm_compute.
  - apply demo1_reach.
Qed.

Lemma demo3_reach : reachable (booted 100 200 []) (proc_step 100 200) demo3.
Proof.
  apply (demo_step (k := KSched 1 1) (s := demo2)).
  - split; [|vm_compute; lia]. eexists. split; [vm_compute; reflexivity|done].
  - by vm_compute.
  - apply demo2_reach.
Qed.



Lemma wait_exact_witness :
  forall r s', wait 0 demo3 = Ret (r, s') -> wait_post 0 demo3 r s'.
Proof.
  intros r s'. apply (wait_exact demo3 0 0).
  - apply (reachable_kernel_ok 100 200 [] demo3 demo3_reach).
  - eexists. split; [vm_compute; reflexivity|done].
Defined.


Lemma fork_exact_witness : fork_post 0 demo1 2 demo2.
Proof.
  refine (fork_exact 100 200 demo1 0 0 2 demo2 _ _ _ _).
  - apply (reachable_kernel_ok 100 200 [] demo1 demo1_reach).
  - eexists. split; [vm_compute; reflexivity|done].
  - by vm_compute.
  - vm_compute. reflexivity.
Defined.

(** init whose next [fork] fails for want of memory and whose later ones succeed. *)
Definition stale0 : kst (list bool) := demo_run (run_process 0 0) (demo_boot [false]).

(** A [fork] that fails leaves its pid in the slot it gives back: [kill] of
    that pid, which no live process has, reports success, and the flag it sets is
    still there when the slot is used again, so the next child is born killed. *)
Theorem fork_failure_leaves_killable_slot :
  exists s1 s2 s3 pid p,
    kernel_ok stale0 /\
    fork 100 200 0 stale0 = Ret (-1, s1) /\
    (forall q, q ∈ k_procs s1 -> live q -> p_pid q <> 2) /\
    kill 0 2 s1 = Ret (0, s2) /\
    fork 100 200 0 s2 = Ret (pid, s3) /\ 0 < pid /\
    k_procs s3 !! 1%nat = Some p /\ p_pid p = pid /\ p_state p = RUNNABLE /\
    p_killed p = true.
Proof.
  do 5 eexists. split_and!; [|vm_compute; reflexivity| |vm_compute; reflexivity
    |vm_compute; reflexivity|done|vm_compute; reflexivity|done|done|done].
  - apply (reachable_kernel_ok 100 200 [] stale0).
    apply (demo_step (k := KSched 0 0) (s := demo_boot [false])).
    + split; [|vm_compute; lia]. eexists. split; [vm_compute; reflexivity|done].
    + by vm_compute.
    + apply reach_init, demo_booted.
  - match goal with |- forall q, q ∈ ?l -> _ =>
      assert (Forall (fun q => p_state q = UNUSED \/ p_pid q <> 2) l) as HF
        by (apply (bool_decide_unpack _); by vm_compute) end.
    rewrite Forall_forall in HF. intros q Hq Hl. by destruct (HF q Hq).
Qed.
