(* ===== verification/Vm.v ===== *)
(** [vm.c]: two-level page tables in physical memory.

    A page directory and its tables are pages of the flat memory of [Kalloc.kmem];
    pointers are kernel addresses, null is 0, and a load or store through null is the
    outcome [Fault]. [readi] of [loaduvm] and the buffer of [copyout] are bytes. *)

From S2P Require Import Prelude CString Mmu Kalloc.

Section vm.
(** [end] and [data] of kernel.ld. *)
Context (kend data : Z).

(** [*p] for a pointer to a page-table entry, and [*p = v]. *)
Definition load (p : Z) : M kmem Z := fun s =>
  if p =? 0 then Fault else Ret (load32 (km_mem s) p, s).
Definition store (p v : Z) : M kmem unit := fun s =>
  if p =? 0 then Fault
  else Ret (tt, Kmem (km_use_lock s) (km_freelist s) (store32 (km_mem s) p v)).

(** [memset] and [memmove] on the memory. *)
Definition mem_set (p c n : Z) : M kmem unit := fun s =>
  if p =? 0 then Fault
  else Ret (tt, Kmem (km_use_lock s) (km_freelist s) (Kernel.memset (km_mem s) p c n)).
Definition mem_move (dst src n : Z) : M kmem unit := fun s =>
  if (dst =? 0) || (src =? 0) then Fault
  else Ret (tt, Kmem (km_use_lock s) (km_freelist s) (Kernel.memmove (km_mem s) dst src n)).

(** Bytes stored from [p] on. *)
Fixpoint put_bytes (m : mem) (p : Z) (l : list Z) : mem :=
  match l with [] => m | b :: l => put_bytes (mupd m p b) (p + 1) l end.
Definition mem_write (p : Z) (l : list Z) : M kmem unit := fun s =>
  if p =? 0 then Fault
  else Ret (tt, Kmem (km_use_lock s) (km_freelist s) (put_bytes (km_mem s) p l)).

Definition walkpgdir (pgdir va : Z) (alloc : bool) : M kmem Z :=
  let pde := pgdir + 4 * PDX va in
  let* e := load pde in
  if negb (Z.land e PTE_P =? 0) then ret (P2V (PTE_ADDR e) + 4 * PTX va)
  else if negb alloc then ret 0
  else
    let* pgtab := kalloc in
    if pgtab =? 0 then ret 0
    else
      mem_set pgtab 0 PGSIZE ;;;
      store pde (Z.lor (Z.lor (Z.lor (V2P pgtab) PTE_P) PTE_W) PTE_U) ;;;
      ret (pgtab + 4 * PTX va).

(** The loop of [mappages] from [a] to [last]. *)
Fixpoint mappages_loop (fuel : nat) (pgdir a last pa perm : Z) : M kmem Z :=
  match fuel with
  | O => fun _ => NoFuel
  | S fuel =>
      let* pte := walkpgdir pgdir a true in
      if pte =? 0 then ret (-1)
      else
        let* e := load pte in
        if negb (Z.land e PTE_P =? 0) then panic "remap"
        else
          store pte (Z.lor (Z.lor pa perm) PTE_P) ;;;
          if a =? last then ret 0
          else mappages_loop fuel pgdir (u32 (a + PGSIZE)) last (u32 (pa + PGSIZE)) perm
  end.

Definition mappages (pgdir va size pa perm : Z) : M kmem Z :=
  let a := PGROUNDDOWN va in
  let last := PGROUNDDOWN (u32 (va + size - 1)) in
  mappages_loop (S (Z.to_nat (u32 (last - a) / PGSIZE))) pgdir a last pa perm.

(** The loop of [deallocuvm]. *)
Fixpoint deallocuvm_loop (fuel : nat) (pgdir a oldsz : Z) : M kmem unit :=
  match fuel with
  | O => fun _ => NoFuel
  | S fuel =>
      if a <? oldsz then
        let* pte := walkpgdir pgdir a false in
        if pte =? 0 then
          let a := u32 (PGADDR (PDX a + 1) 0 0 - PGSIZE) in
          deallocuvm_loop fuel pgdir (u32 (a + PGSIZE)) oldsz
        else
          let* e := load pte in
          (if negb (Z.land e PTE_P =? 0) then
             let pa := PTE_ADDR e in
             if pa =? 0 then panic "kfree"
             else kfree kend (P2V pa) ;;; store pte 0
           else ret tt) ;;;
          deallocuvm_loop fuel pgdir (u32 (a + PGSIZE)) oldsz
      else ret tt
  end.

Definition deallocuvm (pgdir oldsz newsz : Z) : M kmem Z :=
  if oldsz <=? newsz then ret oldsz
  else
    let a := PGROUNDUP newsz in
    deallocuvm_loop (S (Z.to_nat ((oldsz - a + PGSIZE - 1) / PGSIZE))) pgdir a oldsz ;;;
    ret newsz.

(** The loop of [allocuvm]. *)
Fixpoint allocuvm_loop (fuel : nat) (pgdir oldsz newsz a : Z) : M kmem Z :=
  match fuel with
  | O => fun _ => NoFuel
  | S fuel =>
      if a <? newsz then
        let* mem := kalloc in
        if mem =? 0 then deallocuvm pgdir newsz oldsz ;;; ret 0
        else
          mem_set mem 0 PGSIZE ;;;
          let* r := mappages pgdir a PGSIZE (V2P mem) (Z.lor PTE_W PTE_U) in
          if r <? 0 then
            deallocuvm pgdir newsz oldsz ;;; kfree kend mem ;;; ret 0
          else allocuvm_loop fuel pgdir oldsz newsz (u32 (a + PGSIZE))
      else ret newsz
  end.

Definition allocuvm (pgdir oldsz newsz : Z) : M kmem Z :=
  if KERNBASE <=? newsz then ret 0
  else if newsz <? oldsz then ret oldsz
  else
    let a := PGROUNDUP oldsz in
    allocuvm_loop (S (Z.to_nat ((newsz - a + PGSIZE - 1) / PGSIZE))) pgdir oldsz newsz a.

Definition freevm (pgdir : Z) : M kmem unit :=
  if pgdir =? 0 then panic "freevm: no pgdir"
  else
    deallocuvm pgdir KERNBASE 0 ;;;
    for_up (Z.to_nat NPDENTRIES) 0 (fun i =>
      let* e := load (pgdir + 4 * Z.of_nat i) in
      if negb (Z.land e PTE_P =? 0) then kfree kend (P2V (PTE_ADDR e)) else ret tt) ;;;
    kfree kend pgdir.

(** [struct kmap] and the table of the kernel's mappings. *)
Record kmap := Kmap { virt : Z; phys_start : Z; phys_end : Z; k_perm : Z }.
Definition kmaps : list kmap :=
  [Kmap KERNBASE 0 EXTMEM PTE_W;
   Kmap KERNLINK (V2P KERNLINK) (V2P data) 0;
   Kmap data (V2P data) PHYSTOP PTE_W;
   Kmap DEVSPACE DEVSPACE 0 PTE_W].

Fixpoint setupkvm_loop (pgdir : Z) (ks : list kmap) : M kmem Z :=
  match ks with
  | [] => ret pgdir
  | k :: ks =>
      let* r := mappages pgdir (virt k) (u32 (phys_end k - phys_start k)) (phys_start k) (k_perm k) in
      if r <? 0 then freevm pgdir ;;; ret 0
      else setupkvm_loop pgdir ks
  end.

Definition setupkvm : M kmem Z :=
  let* pgdir := kalloc in
  if pgdir =? 0 then ret 0
  else
    mem_set pgdir 0 PGSIZE ;;;
    if DEVSPACE <? P2V PHYSTOP then panic "PHYSTOP too high"
    else setupkvm_loop pgdir kmaps.

Definition inituvm (pgdir : Z) (init : list Z) (sz : Z) : M kmem unit :=
  if PGSIZE <=? sz then panic "inituvm: more than a page"
  else
    let* mem := kalloc in
    mem_set mem 0 PGSIZE ;;;
    mappages pgdir 0 PGSIZE (V2P mem) (Z.lor PTE_W PTE_U) ;;;
    mem_write mem (take (Z.to_nat sz) init).

(** [readi(ip, P2V(pa), off, n)]: the bytes, or [None] for -1. *)
Fixpoint loaduvm_loop (fuel : nat) (readi : Z -> Z -> option (list Z))
    (pgdir addr offset sz i : Z) : M kmem Z :=
  match fuel with
  | O => fun _ => NoFuel
  | S fuel =>
      if i <? sz then
        let* pte := walkpgdir pgdir (u32 (addr + i)) false in
        if pte =? 0 then panic "loaduvm: address should exist"
        else
          let* e := load pte in
          let pa := PTE_ADDR e in
          let n := if sz - i <? PGSIZE then sz - i else PGSIZE in
          match readi (u32 (offset + i)) n with
          | Some bytes =>
              mem_write (P2V pa) bytes ;;;
              if negb (Z.of_nat (length bytes) =? n) then ret (-1)
              else loaduvm_loop fuel readi pgdir addr offset sz (u32 (i + PGSIZE))
          | None => ret (-1)
          end
      else ret 0
  end.

Definition loaduvm (readi : Z -> Z -> option (list Z)) (pgdir addr offset sz : Z) : M kmem Z :=
  if negb (addr mod PGSIZE =? 0) then panic "loaduvm: addr must be page aligned"
  else loaduvm_loop (S (Z.to_nat ((sz + PGSIZE - 1) / PGSIZE))) readi pgdir addr offset sz 0.

Definition clearpteu (pgdir uva : Z) : M kmem unit :=
  let* pte := walkpgdir pgdir uva false in
  if pte =? 0 then panic "clearpteu"
  else let* e := load pte in store pte (Z.land e (u32 (Z.lnot PTE_U))).

Fixpoint copyuvm_loop (fuel : nat) (pgdir d sz i : Z) : M kmem Z :=
  match fuel with
  | O => fun _ => NoFuel
  | S fuel =>
      if i <? sz then
        let* pte := walkpgdir pgdir i false in
        if pte =? 0 then panic "copyuvm: pte should exist"
        else
          let* e := load pte in
          if Z.land e PTE_P =? 0 then panic "copyuvm: page not present"
          else
            let pa := PTE_ADDR e in
            let flags := PTE_FLAGS e in
            let* mem := kalloc in
            if mem =? 0 then freevm d ;;; ret 0
            else
              mem_move mem (P2V pa) PGSIZE ;;;
              let* r := mappages d i PGSIZE (V2P mem) flags in
              if r <? 0 then kfree kend mem ;;; freevm d ;;; ret 0
              else copyuvm_loop fuel pgdir d sz (u32 (i + PGSIZE))
      else ret d
  end.

Definition copyuvm (pgdir sz : Z) : M kmem Z :=
  let* d := setupkvm in
  if d =? 0 then ret 0
  else copyuvm_loop (S (Z.to_nat ((sz + PGSIZE - 1) / PGSIZE))) pgdir d sz 0.

Definition uva2ka (pgdir uva : Z) : M kmem Z :=
  let* pte := walkpgdir pgdir uva false in
  let* e := load pte in
  if Z.land e PTE_P =? 0 then ret 0
  else
    let* e := load pte in
    if Z.land e PTE_U =? 0 then ret 0
    else let* e := load pte in ret (P2V (PTE_ADDR e)).

Fixpoint copyout_loop (fuel : nat) (pgdir va : Z) (buf : list Z) : M kmem Z :=
  match fuel with
  | O => fun _ => NoFuel
  | S fuel =>
      match buf with
      | [] => ret 0
      | _ =>
          let va0 := PGROUNDDOWN va in
          let* pa0 := uva2ka pgdir va0 in
          if pa0 =? 0 then ret (-1)
          else
            let n := Z.min (PGSIZE - (va - va0)) (Z.of_nat (length buf)) in
            mem_write (pa0 + (va - va0)) (take (Z.to_nat n) buf) ;;;
            copyout_loop fuel pgdir (u32 (va0 + PGSIZE)) (drop (Z.to_nat n) buf)
      end
  end.

Definition copyout (pgdir va : Z) (buf : list Z) : M kmem Z :=
  copyout_loop (S (length buf)) pgdir va buf.

End vm.
