(* ===== verification/VmSpec.v ===== *)
(** Address spaces: what the page tables of [vm.c] represent, and rules for the
    operations on them. *)

From stdpp Require Import gmap.
From S2P Require Import Prelude CString Mmu Kalloc Vm.

(** * Page-table entries *)

Lemma lor_page a f : a mod PGSIZE = 0 -> 0 <= f < PGSIZE -> Z.lor a f = a + f.
Proof.
  intros Ha Hf. unfold PGSIZE in *. rewrite <- Z.lxor_lor, <- Z.add_nocarry_lxor; [done|..];
    apply Z.bits_inj'; intros i Hi; rewrite Z.land_spec, Z.bits_0;
    (destruct (Z_lt_le_dec i 12);
      [rewrite <- (Z.mod_pow2_bits_low a 12) by lia; change (2 ^ 12) with 4096; rewrite Ha, Z.bits_0; done|
       rewrite <- (Z.mod_small f (2 ^ 12)) by lia; rewrite Z.mod_pow2_bits_high by lia; apply andb_false_r]).
Qed.

Lemma PTE_ADDR_add a f : a mod PGSIZE = 0 -> 0 <= a < 2 ^ 32 -> 0 <= f < PGSIZE -> PTE_ADDR (a + f) = a.
Proof.
  intros Ha Hr Hf. unfold PGSIZE in *. pose proof (Z.div_mod a 4096).
  rewrite PTE_ADDR_div by lia. unfold PGSIZE.
  replace (a + f) with (f + a / 4096 * 4096) by lia. rewrite Z.div_add, Z.div_small by lia. lia.
Qed.

Lemma PTE_FLAGS_add a f : a mod PGSIZE = 0 -> 0 <= f < PGSIZE -> PTE_FLAGS (a + f) = f.
Proof.
  intros Ha Hf. rewrite PTE_FLAGS_mod. unfold PGSIZE in *.
  rewrite Z.add_mod, Ha, Z.add_0_l, !Z.mod_mod, Z.mod_small by lia. done.
Qed.

Lemma land_flag a f k : a mod PGSIZE = 0 -> 0 <= f < PGSIZE -> 0 <= k < PGSIZE ->
  Z.land (a + f) k = Z.land f k.
Proof.
  intros Ha Hf Hk. rewrite <- lor_page, Z.land_lor_distr_l by done.
  replace (Z.land a k) with 0; [done|]. symmetry. unfold PGSIZE in *.
  apply Z.bits_inj'; intros i Hi. rewrite Z.land_spec, Z.bits_0. destruct (Z_lt_le_dec i 12).
  - rewrite <- (Z.mod_pow2_bits_low a 12) by lia. change (2 ^ 12) with 4096. by rewrite Ha, Z.bits_0.
  - rewrite <- (Z.mod_small k (2 ^ 12)) by lia. rewrite Z.mod_pow2_bits_high by lia. apply andb_false_r.
Qed.

(** An entry is present; the page it maps. *)
Definition present (e : Z) : bool := negb (Z.land e PTE_P =? 0).
Definition frame (e : Z) : Z := P2V (PTE_ADDR e).

(** Writes inside the pages that satisfy [P]. *)
Definition only (P : Z -> Prop) (m m' : mem) : Prop :=
  forall x, (forall q, P q -> x < q \/ q + PGSIZE <= x) -> m' x = m x.

Lemma only_refl P m : only P m m.
Proof. by intros x _. Qed.
Lemma only_trans P m1 m2 m3 : only P m1 m2 -> only P m2 m3 -> only P m1 m3.
Proof. intros H1 H2 x Hx. by rewrite H2, H1. Qed.
Lemma only_mono (P Q : Z -> Prop) m m' : only P m m' -> (forall q, P q -> Q q) -> only Q m m'.
Proof. intros H HPQ x Hx. apply H. auto. Qed.

(** A page that belongs to the address space. *)
Definition owned (pgdir : Z) (T : gmap Z Z) (p : Z) : Prop := p = pgdir \/ exists d, T !! d = Some p.

(** Pages taken from the free list became tables. *)
Definition takes (l : list Z) (T : gmap Z Z) (l' : list Z) (T' : gmap Z Z) : Prop :=
  T ⊆ T' /\ exists ps, l = ps ++ l' /\
    forall p, (exists d, T' !! d = Some p) <-> (exists d, T !! d = Some p) \/ p ∈ ps.

Lemma takes_refl l T : takes l T l T.
Proof. split; [done|]. exists []. split; [done|]. set_solver. Qed.

Lemma takes_trans l T l1 T1 l2 T2 : takes l T l1 T1 -> takes l1 T1 l2 T2 -> takes l T l2 T2.
Proof.
  intros (H1 & ps & -> & P1) (H2 & qs & -> & P2). split; [by etrans|].
  exists (ps ++ qs). rewrite <- app_assoc. split; [done|]. intros p. rewrite P2, P1, elem_of_app. tauto.
Qed.

Lemma takes_owned l T l' T' pgdir p : takes l T l' T' -> owned pgdir T p -> owned pgdir T' p.
Proof. intros (_ & ps & _ & H) [->|Hp]; [by left|]. right. apply H. by left. Qed.

Lemma takes_owned_inv l T l' T' pgdir p : takes l T l' T' -> owned pgdir T' p -> owned pgdir T p \/ p ∈ l.
Proof.
  intros (_ & ps & -> & H) [->|Hp]; [by left; left|]. apply H in Hp as [Hp|Hp].
  - left. by right.
  - right. apply elem_of_app. by left.
Qed.

Lemma takes_free l T l' T' p : takes l T l' T' -> p ∈ l' -> p ∈ l.
Proof. intros (_ & ps & -> & _) Hp. apply elem_of_app. by right. Qed.

Lemma va_page va : 0 <= va < 2 ^ 32 -> PDX va = va / PGSIZE / 1024 /\ PTX va = (va / PGSIZE) mod 1024 /\
  0 <= va / PGSIZE < 2 ^ 20 /\ 0 <= va / PGSIZE / 1024 < 1024.
Proof.
  intros Hva. rewrite PDX_div, PTX_div by done. unfold PGSIZE. rewrite Z.div_div by lia.
  split; [done|]. split; [done|].
  assert (va / 4096 < 2 ^ 20) by (apply Z.div_lt_upper_bound; lia).
  assert (0 <= va / 4096) by (apply Z.div_pos; lia).
  split; [done|]. split; [apply Z.div_pos; lia|apply Z.div_lt_upper_bound; lia].
Qed.

(** The tables that mapping the pages from [n] to [last] has to allocate, at most. *)
Definition no_table (T : gmap Z Z) (n : Z) : Z := match T !! (n / 1024) with Some _ => 0 | None => 1 end.
Definition tabs_need (T : gmap Z Z) (n last : Z) : Z := last / 1024 - n / 1024 + no_table T n.

Lemma no_table_range T n : 0 <= no_table T n <= 1.
Proof. unfold no_table. destruct (T !! (n / 1024)); lia. Qed.

Lemma tabs_need_pos T n last : n <= last -> no_table T n <= tabs_need T n last.
Proof. intros H. unfold tabs_need. pose proof (Z.div_le_mono n last 1024 ltac:(lia) H). lia. Qed.

Lemma no_table_next T n tab : T !! (n / 1024) = Some tab -> no_table T (n + 1) <= (n + 1) / 1024 - n / 1024.
Proof.
  intros HT. pose proof (no_table_range T (n + 1)).
  pose proof (Z.div_mod n 1024). pose proof (Z.div_mod (n + 1) 1024).
  pose proof (Z.mod_pos_bound n 1024). pose proof (Z.mod_pos_bound (n + 1) 1024).
  destruct (decide ((n + 1) / 1024 = n / 1024)) as [E|]; [|lia].
  unfold no_table. rewrite E, HT. lia.
Qed.

Definition upd (A : Z -> Z) (n v : Z) : Z -> Z := fun x => if x =? n then v else A x.

Section spec.
Context (kend : Z) (Hkend : 0 < kend < 2 ^ 32).

(** A page of the allocator. *)
Definition good (p : Z) : Prop := kfree_bad kend p = false /\ page_in_memory p.

Lemma good_range p : good p ->
  KERNBASE <= p /\ p + PGSIZE <= KERNBASE + PHYSTOP /\ p mod PGSIZE = 0.
Proof.
  intros [Hb Hm]. unfold kfree_bad in Hb. unfold page_in_memory in Hm. bsplit.
  unfold V2P, KERNBASE, PHYSTOP, PGSIZE in *.
  assert (0x80000000 <= p) as Hlo.
  { destruct (Z_lt_le_dec p 0x80000000) as [Hlt|]; [|done]. exfalso.
    assert (u32 (p - 0x80000000) = p - 0x80000000 + 2 ^ 32) as Hu.
    { unfold u32. rewrite <- (Z.mod_add _ 1) by lia. apply Z.mod_small. lia. }
    lia. }
  rewrite u32_small in * by lia. pose proof (Z.div_mod p 4096). lia.
Qed.

Lemma good_V2P p : good p -> V2P p = p - KERNBASE /\ V2P p mod PGSIZE = 0 /\ 0 <= V2P p < 2 ^ 32 /\
  P2V (V2P p) = p.
Proof.
  intros Hg. destruct (good_range p Hg) as (H1 & H2 & H3).
  unfold V2P, P2V. unfold KERNBASE, PHYSTOP, PGSIZE in *. rewrite (u32_small (p - _)) by lia.
  split; [done|]. pose proof (Z.div_mod p 4096).
  split; [rewrite Zminus_mod, H3; done|]. split; [lia|]. rewrite u32_small; lia.
Qed.

Lemma good_apart p q : good p -> good q -> p <> q -> p + PGSIZE <= q \/ q + PGSIZE <= p.
Proof.
  intros Hp Hq Hne. destruct (good_range p Hp) as (_ & _ & Ha). destruct (good_range q Hq) as (_ & _ & Hb).
  unfold PGSIZE in *. pose proof (Z.div_mod p 4096). pose proof (Z.div_mod q 4096). lia.
Qed.

(** * Address spaces *)

(** [l] are the free pages; the directory [pgdir] has a table for the indices of [T];
    [A n] is the entry of the virtual page [n], 0 where there is no table. *)
Record aspace (s : kmem) (l : list Z) (pgdir : Z) (T : gmap Z Z) (A : Z -> Z) : Prop := {
  as_free : kmem_rep kend s l;
  as_mem : Forall page_in_memory l;
  as_dir : good pgdir;
  as_dir_l : pgdir ∉ l;
  as_pde : forall d, 0 <= d < 1024 ->
    match T !! d with
    | Some tab => load32 (km_mem s) (pgdir + 4 * d) = V2P tab + 7
    | None => present (load32 (km_mem s) (pgdir + 4 * d)) = false
    end;
  as_tab : forall d tab, T !! d = Some tab -> 0 <= d < 1024 /\ good tab /\ tab <> pgdir /\ (tab ∉ l);
  as_inj : forall d d' tab, T !! d = Some tab -> T !! d' = Some tab -> d = d';
  as_pte : forall n, 0 <= n < 2 ^ 20 ->
    A n = match T !! (n / 1024) with
          | Some tab => load32 (km_mem s) (tab + 4 * (n mod 1024))
          | None => 0
          end;
}.

Lemma free_good s l p : kmem_rep kend s l -> Forall page_in_memory l -> p ∈ l -> good p.
Proof.
  intros [Hf _] Hm Hp. split; [by eapply flist_bad|]. by rewrite Forall_forall in Hm; apply Hm.
Qed.

Lemma load32_only P m m' q a : only P m m' -> good q -> q <= a -> a + 4 <= q + PGSIZE ->
  (forall p, P p -> good p /\ p <> q) -> load32 m' a = load32 m a.
Proof.
  intros Ho Hq H1 H2 HP. apply load32_ext. intros x Hx. apply Ho. intros p Hp.
  destruct (HP p Hp) as [Hg Hne]. destruct (good_apart p q Hg Hq Hne); lia.
Qed.

Lemma kmem_rep_only P u s l m' : only P (km_mem s) m' -> (forall p, P p -> good p /\ (p ∉ l)) ->
  kmem_rep kend s l -> kmem_rep kend (Kmem u (km_freelist s) m') l.
Proof.
  intros Ho HP [Hf Hn]. split; [|done]. cbn [km_mem km_freelist].
  revert Hf HP. clear Hn. generalize (km_freelist s). induction l as [|a l IH]; intros p Hf HP; [done|].
  destruct Hf as (-> & Ha & Hl). cbn [flist]. split_and!; [done..|].
  rewrite (load32_ext m' (km_mem s)).
  - apply IH; [done|]. intros q Hq. destruct (HP q Hq) as [? Hn]. split; [done|].
    intros Hin. apply Hn. by right.
  - intros x Hx. apply Ho. intros q Hq. destruct (HP q Hq) as [Hg Hn].
    assert (q <> a) as Hne by (intros ->; apply Hn; by left).
    destruct (good_pages_apart kend Hkend q a (proj1 Hg) Ha Hne); unfold PGSIZE in *; lia.
Qed.

(** Writes to pages that are neither free nor owned keep the address space. *)
Lemma aspace_only P u s l pgdir T A m' : only P (km_mem s) m' ->
  (forall p, P p -> good p /\ (p ∉ l) /\ ~ owned pgdir T p) ->
  aspace s l pgdir T A -> aspace (Kmem u (km_freelist s) m') l pgdir T A.
Proof.
  intros Ho HP R. destruct R.
  assert (HP1 : forall p, P p -> good p /\ p <> pgdir).
  { intros p Hp. destruct (HP p Hp) as (? & _ & Hn). split; [done|]. intros ->. apply Hn. by left. }
  split; cbn [km_mem]; try done.
  - eapply kmem_rep_only; [exact Ho| |done]. intros p Hp. destruct (HP p Hp) as (? & ? & _). done.
  - intros d Hd. specialize (as_pde0 d Hd).
    by rewrite (load32_only P (km_mem s) m' pgdir) by (done || unfold PGSIZE; lia).
  - intros n Hn. rewrite as_pte0 by done. destruct (T !! (n / 1024)) as [tab|] eqn:E; [|done].
    destruct (as_tab0 _ _ E) as (_ & Hg & _ & _). pose proof (Z.mod_pos_bound n 1024).
    symmetry. apply (load32_only P _ _ tab); try done; try (unfold PGSIZE; lia).
    intros p Hp. destruct (HP p Hp) as (? & _ & Hno). split; [done|]. intros ->. apply Hno. right. eauto.
Qed.

(** * Rules for the operations on memory *)

Section rules.
Context (may : option string -> Prop).

Lemma wp_load p s (Q : Z -> kmem -> Prop) : p <> 0 -> Q (load32 (km_mem s) p) s -> wp may (load p) s Q.
Proof. intros Hp HQ. unfold wp, load. by rewrite (proj2 (Z.eqb_neq _ _)). Qed.

Lemma store32_only m p a v : p <= a -> a + 4 <= p + PGSIZE -> only (eq p) m (store32 m a v).
Proof. intros H1 H2 x Hx. apply store32_ne. specialize (Hx p eq_refl). lia. Qed.

Lemma memset_page m p x : good p ->
  Kernel.memset m p 0 PGSIZE x = if (p <=? x) && (x <? p + PGSIZE) then 0 else m x.
Proof.
  intros Hg. destruct (good_range p Hg) as (H1 & H2 & _).
  rewrite memset_spec; [done|..]; unfold PGSIZE, KERNBASE, PHYSTOP in *; lia.
Qed.

Lemma memset_page_only m p : good p -> only (eq p) m (Kernel.memset m p 0 PGSIZE).
Proof.
  intros Hg x Hx. rewrite memset_page by done. specialize (Hx p eq_refl).
  destruct (Z.leb_spec p x), (Z.ltb_spec x (p + PGSIZE)); simpl; done || lia.
Qed.

Lemma load32_memset_page m p a : good p -> p <= a -> a + 4 <= p + PGSIZE ->
  load32 (Kernel.memset m p 0 PGSIZE) a = 0.
Proof.
  intros Hg H1 H2. unfold load32.
  assert (forall x, a <= x < a + 4 -> Kernel.memset m p 0 PGSIZE x = 0) as Hz.
  { intros x Hx. rewrite memset_page by done.
    destruct (Z.leb_spec p x), (Z.ltb_spec x (p + PGSIZE)); simpl; done || lia. }
  rewrite !Hz by lia. done.
Qed.

Lemma aspace_pop s p l pgdir T A : aspace s (p :: l) pgdir T A ->
  exists s', kalloc s = Ret (p, s') /\ aspace s' l pgdir T A /\ km_mem s' = km_mem s /\
    good p /\ (p ∉ l) /\ ~ owned pgdir T p.
Proof.
  intros R. pose proof (free_good _ _ p (as_free _ _ _ _ _ R) (as_mem _ _ _ _ _ R) (list_elem_of_here _ _)) as Hg.
  destruct R. destruct (kalloc_pop kend Hkend s p l as_free0) as (s' & Hk & Hrep & _ & Hn & Hm).
  exists s'. apply Forall_cons in as_mem0 as [_ Hml]. apply not_elem_of_cons in as_dir_l0 as [Hne Hdl].
  assert (~ owned pgdir T p) as Hno.
  { intros [->|[d Hd]]; [done|]. destruct (as_tab0 _ _ Hd) as (_ & _ & _ & Hx). apply Hx. by left. }
  split_and!; try done. split; rewrite ?Hm; try done.
  intros d tab Hd. destruct (as_tab0 d tab Hd) as (? & ? & ? & Hx). do 3 (split; [done|]).
  intros Hin. apply Hx. by right.
Qed.

Lemma wp_kalloc s l pgdir T A (Q : Z -> kmem -> Prop) : aspace s l pgdir T A ->
  (l = [] -> Q 0 s) ->
  (forall p l' s', l = p :: l' -> aspace s' l' pgdir T A -> km_mem s' = km_mem s ->
     good p -> (p ∉ l') -> ~ owned pgdir T p -> Q p s') ->
  wp may kalloc s Q.
Proof.
  intros R H0 H1. destruct l as [|p l].
  - unfold wp, kalloc. destruct R as [[Hf _]]. cbn in Hf. rewrite Hf, Z.eqb_refl. cbn.
    by apply H0.
  - destruct (aspace_pop _ _ _ _ _ _ R) as (s' & Hk & R' & Hm & Hg & Hn & Ho).
    unfold wp. rewrite Hk. by eapply H1.
Qed.

(** [kfree] of a page that nothing uses. *)
Lemma wp_kfree v s l pgdir T A (Q : unit -> kmem -> Prop) : aspace s l pgdir T A ->
  good v -> v ∉ l -> ~ owned pgdir T v ->
  (forall s', aspace s' (v :: l) pgdir T A -> only (eq v) (km_mem s) (km_mem s') -> Q tt s') ->
  wp may (kfree kend v) s Q.
Proof.
  intros R Hg Hl Ho HQ. pose proof R as R0. destruct R0.
  destruct (kfree_push kend Hkend s l v as_free0 as_mem0 (proj1 Hg) Hl) as (s' & Hk & Hrep & _ & Hm).
  unfold wp. rewrite Hk. assert (Hon : only (eq v) (km_mem s) (km_mem s')).
  { intros x Hx. apply Hm. specialize (Hx v eq_refl). lia. }
  apply HQ; [|done].
  pose proof (aspace_only (eq v) (km_use_lock s) s l pgdir T A (km_mem s') Hon) as H.
  destruct H as [_ _ _ _ H1 _ _ H2]; [intros q <-; done|done|]. split; try done.
  - constructor; [apply Hg|done].
  - apply not_elem_of_cons. split; [|done]. intros ->. apply Ho. by left.
  - intros d tab Hd. destruct (as_tab0 _ _ Hd) as (? & ? & ? & ?). do 3 (split; [done|]).
    apply not_elem_of_cons. split; [|done]. intros ->. apply Ho. right. eauto.
Qed.

(** * Virtual pages *)

(** The address of the entry of page [n] in its table. *)
Definition slot (tab n : Z) : Z := tab + 4 * (n mod 1024).

Lemma slot_in tab n : good tab -> tab <= slot tab n /\ slot tab n + 4 <= tab + PGSIZE /\ slot tab n <> 0.
Proof.
  intros Hg. destruct (good_range tab Hg) as (H1 & _). unfold slot, PGSIZE, KERNBASE in *.
  pose proof (Z.mod_pos_bound n 1024). lia.
Qed.

Lemma wp_load_pte s l pgdir T A n tab Q : aspace s l pgdir T A -> 0 <= n < 2 ^ 20 ->
  T !! (n / 1024) = Some tab -> Q (A n) s -> wp may (load (slot tab n)) s Q.
Proof.
  intros R Hn HT HQ. destruct R. destruct (as_tab0 _ _ HT) as (_ & Hg & _).
  apply wp_load; [by apply slot_in|]. unfold slot. specialize (as_pte0 n Hn). rewrite HT in as_pte0.
  by rewrite <- as_pte0.
Qed.

Lemma wp_store_pte s l pgdir T A n tab v (Q : unit -> kmem -> Prop) : aspace s l pgdir T A ->
  0 <= n < 2 ^ 20 -> T !! (n / 1024) = Some tab -> 0 <= v < 2 ^ 32 ->
  (forall s', aspace s' l pgdir T (upd A n v) -> only (eq tab) (km_mem s) (km_mem s') -> Q tt s') ->
  wp may (store (slot tab n) v) s Q.
Proof.
  intros R Hn HT Hv HQ. pose proof R as []. destruct (as_tab0 _ _ HT) as (_ & Hg & Hnd & Hnl).
  destruct (slot_in tab n Hg) as (S1 & S2 & S3). unfold wp, store.
  rewrite (proj2 (Z.eqb_neq _ _)) by done.
  pose proof (store32_only (km_mem s) tab (slot tab n) v S1 S2) as Ho.
  apply HQ; [|done]. split; cbn [km_mem]; try done.
  - eapply kmem_rep_only; [exact Ho| |done]. by intros p <-.
  - intros d Hd. specialize (as_pde0 d Hd).
    rewrite (load32_only (eq tab) (km_mem s) _ pgdir); try done; try (unfold PGSIZE; lia).
    by intros p <-.
  - intros n' Hn'. unfold upd. destruct (Z.eqb_spec n' n) as [->|Hne].
    { rewrite HT. fold (slot tab n). by rewrite load32_store32_eq, u32_small. }
    rewrite as_pte0 by done. destruct (T !! (n' / 1024)) as [tab'|] eqn:E; [|done].
    destruct (as_tab0 _ _ E) as (_ & Hg' & _). pose proof (Z.mod_pos_bound n' 1024).
    destruct (decide (tab' = tab)) as [->|Ht].
    + pose proof (as_inj0 _ _ _ E HT). rewrite load32_store32_ne; [done|]. unfold slot.
      pose proof (Z.div_mod n 1024). pose proof (Z.div_mod n' 1024). lia.
    + symmetry. apply (load32_only (eq tab) _ _ tab'); try done; try (unfold PGSIZE; lia).
      intros p <-. done.
Qed.

(** A zeroed page that nothing uses becomes the table of directory entry [d]. *)
Lemma aspace_new_table s l pgdir T A p d m : aspace s l pgdir T A -> km_mem s = m ->
  good p -> p ∉ l -> ~ owned pgdir T p -> 0 <= d < 1024 -> T !! d = None ->
  aspace (Kmem (km_use_lock s) (km_freelist s)
            (store32 (Kernel.memset m p 0 PGSIZE) (pgdir + 4 * d) (V2P p + 7)))
    l pgdir (<[d := p]> T) A.
Proof.
  intros R <- Hg Hl Ho Hd HT. pose proof R as [].
  destruct (good_V2P p Hg) as (Hv0 & Hv1 & Hv2 & _).
  assert (Hpd : p <> pgdir) by (intros ->; apply Ho; by left).
  pose proof (memset_page_only (km_mem s) p Hg) as O1.
  set (m1 := Kernel.memset (km_mem s) p 0 PGSIZE) in *.
  assert (O2 : only (eq pgdir) m1 (store32 m1 (pgdir + 4 * d) (V2P p + 7)))
    by (apply store32_only; unfold PGSIZE; lia).
  set (m2 := store32 m1 (pgdir + 4 * d) (V2P p + 7)) in *.
  assert (O : only (fun q => q = p \/ q = pgdir) (km_mem s) m2).
  { eapply only_trans; eapply only_mono; [exact O1| |exact O2|]; intros q <-; tauto. }
  split; cbn [km_mem]; try done.
  - eapply kmem_rep_only; [exact O| |done]. intros q [->| ->]; done.
  - intros e He. destruct (decide (e = d)) as [->|Hne].
    + rewrite lookup_insert_eq. unfold m2. rewrite load32_store32_eq, u32_small; [done|].
      unfold V2P in *. destruct (good_range p Hg) as (_ & H & _). unfold KERNBASE, PHYSTOP, PGSIZE in *. lia.
    + rewrite lookup_insert_ne by done. specialize (as_pde0 e He).
      assert (load32 m2 (pgdir + 4 * e) = load32 (km_mem s) (pgdir + 4 * e)) as ->; [|done].
      unfold m2. rewrite load32_store32_ne by lia.
      apply (load32_only (eq p) _ _ pgdir); try done; [lia|unfold PGSIZE; lia|by intros q <-].
  - intros e tab Hlk. apply lookup_insert_Some in Hlk as [[<- <-]|[_ Hlk]]; [done|by eapply as_tab0].
  - intros e e' tab H1 H2. apply lookup_insert_Some in H1 as [[<- <-]|[_ H1]];
      apply lookup_insert_Some in H2 as [[<- H2]|[_ H2]]; try done.
    + exfalso. apply Ho. right. eauto.
    + exfalso. apply Ho. right. subst tab. eauto.
    + by eapply as_inj0.
  - intros n Hn. rewrite as_pte0 by done. pose proof (Z.mod_pos_bound n 1024).
    destruct (decide (n / 1024 = d)) as [->|Hne].
    + rewrite HT, lookup_insert_eq. symmetry.
      rewrite (load32_only (eq pgdir) m1 m2 p); try done; try (unfold PGSIZE; lia); [|by intros q <-].
      apply load32_memset_page; [done|lia|unfold PGSIZE; lia].
    + rewrite lookup_insert_ne by done. destruct (T !! (n / 1024)) as [tab|] eqn:E; [|done].
      destruct (as_tab0 _ _ E) as (_ & Hgt & Htd & _). symmetry.
      apply (load32_only _ _ _ tab _ O); try done; try (unfold PGSIZE; lia).
      intros q [->| ->]; [|by split]. split; [done|]. intros ->. apply Ho. right. eauto.
Qed.

Lemma pde_present tab : good tab -> present (V2P tab + 7) = true /\ P2V (PTE_ADDR (V2P tab + 7)) = tab.
Proof.
  intros Hg. destruct (good_V2P tab Hg) as (_ & H1 & H2 & H3). unfold present.
  rewrite land_flag, PTE_ADDR_add by (done || (unfold PTE_P, PGSIZE; lia)). done.
Qed.

Lemma pde_ne0 pgdir d : good pgdir -> 0 <= d -> pgdir + 4 * d <> 0.
Proof. intros Hg Hd. destruct (good_range _ Hg) as (H & _). unfold KERNBASE in H. lia. Qed.

Lemma wp_walk s l pgdir T A va alloc (Q : Z -> kmem -> Prop) : aspace s l pgdir T A -> 0 <= va < 2 ^ 32 ->
  (T !! (va / PGSIZE / 1024) = None -> alloc = false /\ Q 0 s) ->
  (forall tab, T !! (va / PGSIZE / 1024) = Some tab -> Q (slot tab (va / PGSIZE)) s) ->
  wp may (walkpgdir pgdir va alloc) s Q.
Proof.
  intros R Hva H0 H1. destruct (va_page va Hva) as (Hd & Ht & Hn & Hdr). pose proof R as [].
  unfold walkpgdir. rewrite Hd, Ht. wbind. apply wp_load; [apply pde_ne0; [done|lia]|].
  specialize (as_pde0 _ Hdr). destruct (T !! (va / PGSIZE / 1024)) as [tab|] eqn:E.
  - rewrite as_pde0. destruct (as_tab0 _ _ E) as (_ & Hg & _).
    destruct (pde_present tab Hg) as [Hp Ha]. unfold present in Hp. rewrite Hp, Ha.
    apply wp_ret. by apply H1.
  - unfold present in as_pde0. rewrite as_pde0. destruct (H0 eq_refl) as [-> HQ]. by apply wp_ret.
Qed.

Lemma wp_walk_alloc s l pgdir T A va (Q : Z -> kmem -> Prop) : aspace s l pgdir T A -> 0 <= va < 2 ^ 32 ->
  (l = [] -> no_table T (va / PGSIZE) = 1 -> Q 0 s) ->
  (forall s' l' T' tab, aspace s' l' pgdir T' A -> T' !! (va / PGSIZE / 1024) = Some tab ->
     takes l T l' T' -> Z.of_nat (length l) = Z.of_nat (length l') + no_table T (va / PGSIZE) ->
     only (owned pgdir T') (km_mem s) (km_mem s') -> Q (slot tab (va / PGSIZE)) s') ->
  wp may (walkpgdir pgdir va true) s Q.
Proof.
  intros R Hva H0 H1. destruct (va_page va Hva) as (Hd & Ht & Hn & Hdr).
  destruct (T !! (va / PGSIZE / 1024)) as [tab|] eqn:E.
  { eapply wp_walk; [done|done|congruence|]. intros tab' HT.
    apply (H1 s l T); [done|done|apply takes_refl| |apply only_refl]. unfold no_table. rewrite E. lia. }
  assert (Hno : no_table T (va / PGSIZE) = 1) by (unfold no_table; by rewrite E).
  pose proof R as []. unfold walkpgdir. rewrite Hd, Ht. wbind.
  apply wp_load; [apply pde_ne0; [done|lia]|].
  pose proof (as_pde0 _ Hdr) as Hpde. rewrite E in Hpde. unfold present in Hpde. rewrite Hpde. cbn [negb].
  wbind. apply (wp_kalloc s l pgdir T A); [done| |].
  { intros Hl. rewrite Z.eqb_refl. apply wp_ret. auto. }
  intros p l' s1 -> R1 Hm1 Hg Hpl Hpo. destruct (good_range p Hg) as (Hp1 & _).
  rewrite (proj2 (Z.eqb_neq p 0)) by (unfold KERNBASE in Hp1; lia).
  wbind. unfold wp, mem_set. rewrite (proj2 (Z.eqb_neq p 0)) by (unfold KERNBASE in Hp1; lia).
  change (wp may (store (pgdir + 4 * (va / PGSIZE / 1024))
      (Z.lor (Z.lor (Z.lor (V2P p) PTE_P) PTE_W) PTE_U) ;;; ret (p + 4 * ((va / PGSIZE) mod 1024)))
    (Kmem (km_use_lock s1) (km_freelist s1) (Kernel.memset (km_mem s1) p 0 PGSIZE)) Q).
  wbind. unfold wp at 1, store. rewrite (proj2 (Z.eqb_neq _ 0)) by (apply pde_ne0; [done|lia]).
  apply wp_ret. cbn [km_mem km_use_lock km_freelist]. rewrite Hm1.
  destruct (good_V2P p Hg) as (_ & Hv1 & Hv2 & _).
  replace (Z.lor (Z.lor (Z.lor (V2P p) PTE_P) PTE_W) PTE_U) with (V2P p + 7)
    by (rewrite <- !Z.lor_assoc; change (Z.lor PTE_P (Z.lor PTE_W PTE_U)) with 7;
        rewrite lor_page by (done || (unfold PGSIZE; lia)); done).
  apply (H1 _ l' (<[va / PGSIZE / 1024 := p]> T)).
  - by apply (aspace_new_table s1 l' pgdir T A p).
  - by rewrite lookup_insert_eq.
  - split; [by apply insert_subseteq|]. exists [p]. split; [done|]. intros q.
    rewrite list_elem_of_singleton. split.
    + intros [d Hq]. apply lookup_insert_Some in Hq as [[_ ->]|[_ Hq]]; [by right|left; eauto].
    + intros [[d Hq]| ->]; [|eexists; apply lookup_insert_eq]. exists d. rewrite lookup_insert_ne; [done|].
      intros <-. congruence.
  - rewrite Hno. cbn [length]. lia.
  - apply (only_trans _ _ (Kernel.memset (km_mem s) p 0 PGSIZE)).
    + eapply only_mono; [by apply memset_page_only|]. intros q <-. right. eexists. apply lookup_insert_eq.
    + eapply only_mono; [apply (store32_only _ pgdir); unfold PGSIZE in *; lia|]. intros q <-. by left.
Qed.
End rules.
End spec.
