(* ===== verification/VmThm.v ===== *)
(** Mapping, growing and shrinking address spaces: [mappages], [deallocuvm], [allocuvm]
    and [copyout] of [vm.c]. *)

From stdpp Require Import gmap.
From S2P Require Import Prelude CString Mmu Kalloc Vm VmSpec.

(** * Mapping a range *)

(** The entry that [mappages] writes. *)
Definition entry (pa perm : Z) : Z := Z.lor (Z.lor pa perm) PTE_P.

Lemma lor_perm perm : 0 <= perm < PGSIZE -> 0 <= Z.lor perm PTE_P < PGSIZE.
Proof.
  intros Hp. assert (H : Z.land (Z.lor perm PTE_P) (Z.ones 12) = Z.lor perm PTE_P).
  { rewrite Z.land_lor_distr_l. f_equal. rewrite Z.land_ones by lia. apply Z.mod_small.
    unfold PGSIZE in Hp. lia. }
  rewrite <- H, Z.land_ones by lia. apply (Z.mod_pos_bound _ (2 ^ 12)). lia.
Qed.

Lemma entry_add pa perm : pa mod PGSIZE = 0 -> 0 <= perm < PGSIZE -> entry pa perm = pa + Z.lor perm PTE_P.
Proof. intros Ha Hp. unfold entry. rewrite <- Z.lor_assoc. by apply lor_page, lor_perm. Qed.

Lemma entry_range pa perm : pa mod PGSIZE = 0 -> 0 <= pa < 2 ^ 32 -> 0 <= perm < PGSIZE ->
  0 <= entry pa perm < 2 ^ 32.
Proof.
  intros Ha Hr Hp. rewrite entry_add by done. pose proof (lor_perm perm Hp). unfold PGSIZE in *.
  pose proof (Z.div_mod pa 4096). lia.
Qed.

Lemma entry_present pa perm : present (entry pa perm) = true.
Proof.
  unfold present, entry. rewrite Z.land_lor_distr_l. apply negb_true_iff, Z.eqb_neq.
  intros H. apply (f_equal (fun x => Z.testbit x 0)) in H. rewrite Z.lor_spec in H.
  change (Z.testbit (Z.land PTE_P PTE_P) 0) with true in H. rewrite orb_true_r in H. done.
Qed.

Lemma entry_frame p perm kend : good kend p -> 0 <= perm < PGSIZE -> frame (entry (V2P p) perm) = p.
Proof.
  intros Hg Hp. destruct (good_V2P kend p Hg) as (_ & H1 & H2 & H3).
  unfold frame. rewrite entry_add, PTE_ADDR_add by (done || by apply lor_perm). done.
Qed.

Lemma entry_flags pa perm : pa mod PGSIZE = 0 -> 0 <= perm < PGSIZE ->
  PTE_FLAGS (entry pa perm) = Z.lor perm PTE_P.
Proof. intros Ha Hp. rewrite entry_add, PTE_FLAGS_add by (done || by apply lor_perm). done. Qed.

(** [j] pages from page [n0] on mapped to the physical memory from [pa] on. *)
Definition map_range (A : Z -> Z) (n0 j pa perm : Z) : Z -> Z := fun n =>
  if (n0 <=? n) && (n <? n0 + j) then entry (pa + PGSIZE * (n - n0)) perm else A n.

Section thm.
Context (kend : Z) (Hkend : 0 < kend < 2 ^ 32).
Local Abbreviation aspace := (aspace kend).
Local Abbreviation good := (good kend).

Lemma aspace_ext s l pgdir T A A' : (forall n, 0 <= n < 2 ^ 20 -> A' n = A n) ->
  aspace s l pgdir T A -> aspace s l pgdir T A'.
Proof. intros HA R. destruct R. split; try done. intros n Hn. rewrite HA by done. by apply as_pte. Qed.

Lemma owned_good s l pgdir T A q : aspace s l pgdir T A -> owned pgdir T q -> good q.
Proof. intros R [->|[d Hd]]; [apply R|]. by apply (as_tab kend _ _ _ _ _ R _ _ Hd). Qed.

Lemma free_page_good s l pgdir T A q : aspace s l pgdir T A -> q ∈ l -> good q.
Proof. intros R Hq. by apply (free_good kend Hkend s l q (as_free _ _ _ _ _ _ R) (as_mem _ _ _ _ _ _ R)). Qed.

Lemma page_div n : (PGSIZE * n) / PGSIZE = n.
Proof. unfold PGSIZE. rewrite Z.mul_comm. apply Z.div_mul. lia. Qed.

(** The pages from [n0] to [n0 + k] can be mapped. *)
Definition remap (A : Z -> Z) (n0 : Z) (k : nat) (o : option string) : Prop :=
  o = Some "remap" /\ exists n, n0 <= n <= n0 + Z.of_nat k /\ present (A n) = true.

(** One page: the body of the loop of [mappages]. *)
Lemma wp_map_page may pgdir n pa perm (k : M kmem Z) s l T A (Q : Z -> kmem -> Prop) :
  0 <= n < 2 ^ 20 -> pa mod PGSIZE = 0 -> 0 <= pa < 2 ^ 32 -> 0 <= perm < PGSIZE ->
  aspace s l pgdir T A -> (l = [] -> no_table T n = 1 -> Q (-1) s) ->
  (present (A n) = true -> may (Some "remap")) ->
  (forall s' l' T' tab, aspace s' l' pgdir T' (upd A n (entry pa perm)) -> takes l T l' T' ->
     T' !! (n / 1024) = Some tab -> Z.of_nat (length l) = Z.of_nat (length l') + no_table T n ->
     only (owned pgdir T') (km_mem s) (km_mem s') -> wp may k s' Q) ->
  wp may (let* pte := walkpgdir pgdir (PGSIZE * n) true in
          if pte =? 0 then ret (-1)
          else
            let* e := load pte in
            if negb (Z.land e PTE_P =? 0) then panic "remap"
            else store pte (Z.lor (Z.lor pa perm) PTE_P) ;;; k) s Q.
Proof.
  intros Hn Hal Hpa Hperm R H0 Hre Hk. wbind.
  apply (wp_walk_alloc kend Hkend _ s l pgdir T A); [done|unfold PGSIZE; lia| |]; rewrite ?page_div.
  { intros Hl Hno. by apply wp_ret, H0. }
  intros s1 l1 T1 tab R1 HT Htk Hlen Ho. destruct (as_tab kend _ _ _ _ _ R1 _ _ HT) as (_ & Hgt & _ & _).
  destruct (slot_in kend tab n Hgt) as (_ & _ & Hs). rewrite (proj2 (Z.eqb_neq _ _)) by done.
  wbind. eapply (wp_load_pte kend); [exact R1|lia|exact HT|].
  fold (present (A n)). destruct (present (A n)) eqn:Ep; [by apply Hre|].
  fold (entry pa perm). wbind.
  eapply (wp_store_pte kend Hkend); [exact R1|lia|exact HT|by apply entry_range|].
  intros s2 R2 Ho2. apply (Hk s2 l1 T1 tab R2 Htk HT Hlen).
  eapply only_trans; [exact Ho|eapply only_mono; [exact Ho2|intros q <-; right; eauto]].
Qed.

Lemma map_range_0 A n0 pa perm n : map_range A n0 0 pa perm n = A n.
Proof. unfold map_range. destruct (Z.leb_spec n0 n), (Z.ltb_spec n (n0 + 0)); simpl; done || lia. Qed.

Lemma map_range_upd A n0 j pa perm n : 0 <= j ->
  map_range (upd A n0 (entry pa perm)) (n0 + 1) j (pa + PGSIZE) perm n = map_range A n0 (j + 1) pa perm n.
Proof.
  intros Hj. unfold map_range, upd.
  destruct (Z.leb_spec n0 n), (Z.ltb_spec n (n0 + (j + 1))), (Z.leb_spec (n0 + 1) n),
    (Z.ltb_spec n (n0 + 1 + j)), (Z.eqb_spec n n0); simpl; try done; try lia;
    f_equal; unfold PGSIZE; lia.
Qed.

Lemma wp_mappages_loop pgdir perm k : forall fuel n0 pa s l T A,
  (k < fuel)%nat -> 0 <= n0 -> n0 + Z.of_nat k < 2 ^ 20 ->
  pa mod PGSIZE = 0 -> 0 <= pa -> pa + PGSIZE * Z.of_nat k < 2 ^ 32 -> 0 <= perm < PGSIZE ->
  aspace s l pgdir T A ->
  wp (remap A n0 k)
    (mappages_loop fuel pgdir (PGSIZE * n0) (PGSIZE * (n0 + Z.of_nat k)) pa perm) s
    (fun r s' => exists l' T' j, aspace s' l' pgdir T' (map_range A n0 j pa perm) /\
       takes l T l' T' /\ only (owned pgdir T') (km_mem s) (km_mem s') /\
       (r = 0 /\ j = Z.of_nat k + 1 /\
          Z.of_nat (length l) <= Z.of_nat (length l') + tabs_need T n0 (n0 + Z.of_nat k) \/
        r = -1 /\ 0 <= j <= Z.of_nat k /\ l' = [] /\
          Z.of_nat (length l) < tabs_need T n0 (n0 + Z.of_nat k))).
Proof.
  induction k as [|k IH]; intros [|fuel] n0 pa s l T A Hfuel H0 Hmax Hal Hpa Hlim Hperm R; try lia;
    cbn [mappages_loop]; (eapply wp_map_page; [lia|done|unfold PGSIZE in *; lia|done|exact R|..]).
  1,4: intros -> Hno; exists [], T, 0;
    (split; [eapply aspace_ext; [|exact R]; intros n Hn; apply map_range_0|]);
    (split; [apply takes_refl|]); (split; [apply only_refl|]); right; split; [done|]; split; [lia|];
    (split; [done|]); (eapply Z.lt_le_trans; [|apply tabs_need_pos; lia]); rewrite Hno; cbn [length]; lia.
  1,3: intros Hp; split; [done|]; exists n0; split; [lia|done].
  - intros s2 l1 T1 tab R2 Htk HT Hlen Ho. rewrite (proj2 (Z.eqb_eq _ _)) by lia. apply wp_ret.
    exists l1, T1, 1. split_and!; try done; [|left; unfold tabs_need; rewrite Z.add_0_r; lia].
    eapply aspace_ext; [|exact R2]. intros n Hn. rewrite <- (map_range_upd _ _ 0) by lia. apply map_range_0.
  - intros s2 l1 T1 tab R2 Htk HT Hlen Ho. rewrite (proj2 (Z.eqb_neq _ _)) by (unfold PGSIZE; lia).
    replace (u32 (PGSIZE * n0 + PGSIZE)) with (PGSIZE * (n0 + 1)) by (rewrite u32_small; unfold PGSIZE; lia).
    replace (n0 + Z.of_nat (S k)) with (n0 + 1 + Z.of_nat k) by lia.
    rewrite (u32_small (pa + PGSIZE)) by (unfold PGSIZE in *; lia).
    eapply wp_weaken; [|eapply wp_mono; [apply (IH fuel (n0 + 1) (pa + PGSIZE) s2 l1 T1 (upd A n0 (entry pa perm)))|]];
      try done; try (unfold PGSIZE in *; lia).
    + intros o (-> & n & Hn & Hp). split; [done|]. exists n. split; [lia|].
      unfold upd in Hp. destruct (Z.eqb_spec n n0); [lia|done].
    + rewrite Zplus_mod, Hal. done.
    + intros r s3 (l' & T' & j & R3 & Htk3 & Ho3 & Hr). exists l', T', (j + 1). split_and!.
      * eapply aspace_ext; [|exact R3]. intros n Hn. symmetry. apply map_range_upd. lia.
      * by eapply takes_trans.
      * eapply only_trans; [|exact Ho3]. eapply only_mono; [exact Ho|].
        intros q Hq. by eapply takes_owned.
      * pose proof (no_table_next T1 n0 tab HT). unfold tabs_need in *.
        destruct Hr as [(-> & -> & ?)|(-> & ? & -> & ?)]; [left; lia|right; split_and!; done || lia].
Qed.

(** [mappages] from the page of [va] to the page of [va + size - 1]. *)
Lemma wp_mappages pgdir va size pa perm s l T A : let n0 := va / PGSIZE in
  let k := Z.to_nat ((va + size - 1) / PGSIZE - va / PGSIZE) in
  0 <= va -> 0 < size -> va + size <= 2 ^ 32 -> pa mod PGSIZE = 0 -> 0 <= pa ->
  pa + PGSIZE * Z.of_nat k < 2 ^ 32 -> 0 <= perm < PGSIZE ->
  aspace s l pgdir T A ->
  wp (remap A n0 k) (mappages pgdir va size pa perm) s
    (fun r s' => exists l' T' j, aspace s' l' pgdir T' (map_range A n0 j pa perm) /\
       takes l T l' T' /\ only (owned pgdir T') (km_mem s) (km_mem s') /\
       (r = 0 /\ j = Z.of_nat k + 1 /\
          Z.of_nat (length l) <= Z.of_nat (length l') + tabs_need T n0 (n0 + Z.of_nat k) \/
        r = -1 /\ 0 <= j <= Z.of_nat k /\ l' = [] /\
          Z.of_nat (length l) < tabs_need T n0 (n0 + Z.of_nat k))).
Proof.
  intros n0 k Hva Hsz Hlim Hal Hpa Hpl Hperm R. unfold mappages.
  rewrite (u32_small (va + size - 1)), !PGROUNDDOWN_div by lia.
  assert (Hle : va / PGSIZE <= (va + size - 1) / PGSIZE) by (apply Z.div_le_mono; unfold PGSIZE; lia).
  assert (H0 : 0 <= va / PGSIZE) by (apply Z.div_pos; unfold PGSIZE; lia).
  assert (H1 : (va + size - 1) / PGSIZE < 2 ^ 20) by (apply Z.div_lt_upper_bound; unfold PGSIZE; lia).
  assert (Hk : (va + size - 1) / PGSIZE = n0 + Z.of_nat k) by (unfold k, n0; lia).
  rewrite Hk in H1 |- *. fold n0 in H0 |- *. clear Hk Hle. clearbody k n0.
  rewrite u32_small by (unfold PGSIZE in *; lia).
  replace (PGSIZE * (n0 + Z.of_nat k) - PGSIZE * n0) with (PGSIZE * Z.of_nat k) by lia.
  rewrite page_div, Nat2Z.id. apply wp_mappages_loop; try done; lia.
Qed.

(** * Shrinking *)

Definition UPAGES : Z := KERNBASE / PGSIZE.

(** The pages mapped below KERNBASE belong to this address space alone. *)
Record user_ok (l : list Z) (pgdir : Z) (T : gmap Z Z) (A : Z -> Z) : Prop := {
  uo_frame : forall n, 0 <= n < UPAGES -> present (A n) = true ->
    0 <= A n < 2 ^ 32 /\ good (frame (A n)) /\ (frame (A n) ∉ l) /\ ~ owned pgdir T (frame (A n));
  uo_inj : forall n n', 0 <= n < UPAGES -> 0 <= n' < UPAGES ->
    present (A n) = true -> present (A n') = true -> frame (A n) = frame (A n') -> n = n';
}.

(** The pages mapped by the [k] entries from [n] on. *)
Fixpoint frames_in (A : Z -> Z) (n : Z) (k : nat) : list Z :=
  match k with
  | O => []
  | S k => (if present (A n) then [frame (A n)] else []) ++ frames_in A (n + 1) k
  end.

(** The [k] entries from [n0] on removed. *)
Definition cleared (A : Z -> Z) (n0 k : Z) : Z -> Z := fun n =>
  if (n0 <=? n) && (n <? n0 + k) && present (A n) then 0 else A n.

Lemma frames_in_ext A A' k : forall n, (forall i, n <= i < n + Z.of_nat k -> A i = A' i) ->
  frames_in A n k = frames_in A' n k.
Proof.
  induction k as [|k IH]; intros n H; [done|]. cbn [frames_in]. rewrite H by lia. f_equal. apply IH.
  intros i Hi. apply H. lia.
Qed.

Lemma frames_in_skip A j k : forall n, (forall i, n <= i < n + Z.of_nat j -> present (A i) = false) ->
  frames_in A n (j + k) = frames_in A (n + Z.of_nat j) k.
Proof.
  induction j as [|j IH]; intros n H; cbn [frames_in Nat.add].
  - f_equal. lia.
  - rewrite H by lia. cbn [app]. rewrite IH; [f_equal; lia|]. intros i Hi. apply H. lia.
Qed.

Lemma cleared_skip A n0 j k n : 0 <= j <= k ->
  (forall i, n0 <= i < n0 + j -> present (A i) = false) ->
  cleared A n0 k n = cleared A (n0 + j) (k - j) n.
Proof.
  intros Hj H. unfold cleared. destruct (decide (n0 <= n < n0 + j)) as [Hin|].
  - by rewrite (H n Hin), !andb_false_r.
  - destruct (Z.leb_spec n0 n), (Z.leb_spec (n0 + j) n), (Z.ltb_spec n (n0 + k)),
      (Z.ltb_spec n (n0 + j + (k - j))); simpl; done || lia.
Qed.

Lemma present_0 : present 0 = false.
Proof. done. Qed.

Lemma cleared_step A n0 k n : 0 <= k ->
  cleared (upd A n0 0) (n0 + 1) k n = cleared (upd A n0 0) n0 (k + 1) n.
Proof.
  intros Hk. replace k with (k + 1 - 1) at 1 by lia. symmetry. apply cleared_skip; [lia|].
  intros i Hi. assert (i = n0) as -> by lia. unfold upd. by rewrite Z.eqb_refl.
Qed.

Lemma cleared_upd A n0 k n : 0 < k -> present (A n0) = true ->
  cleared (upd A n0 0) n0 k n = cleared A n0 k n.
Proof.
  intros Hk Hp. unfold cleared, upd. destruct (Z.eqb_spec n n0) as [->|]; [|done].
  rewrite present_0, andb_false_r, Hp. destruct (Z.leb_spec n0 n0), (Z.ltb_spec n0 (n0 + k)); simpl; done || lia.
Qed.

(** Freeing one mapped page. *)
Lemma user_ok_free l pgdir T A n : 0 <= n < UPAGES -> present (A n) = true ->
  user_ok l pgdir T A -> user_ok (frame (A n) :: l) pgdir T (upd A n 0).
Proof.
  intros Hn Hp U. destruct U as [U1 U2]. split.
  - intros i Hi Hpi. unfold upd in *. destruct (Z.eqb_spec i n) as [->|Hne]; [done|].
    destruct (U1 i Hi Hpi) as (? & ? & ? & ?). do 2 (split; [done|]). split; [|done].
    apply not_elem_of_cons. split; [|done]. intros He. by apply Hne, U2.
  - intros i i' Hi Hi' Hpi Hpi'. unfold upd in *.
    destruct (Z.eqb_spec i n) as [->|], (Z.eqb_spec i' n) as [->|]; try done. by apply U2.
Qed.

Lemma user_ok_ext l pgdir T A A' : (forall n, 0 <= n < UPAGES -> A' n = A n) ->
  user_ok l pgdir T A -> user_ok l pgdir T A'.
Proof.
  intros HA U. destruct U as [U1 U2]. split.
  - intros n Hn. rewrite HA by done. by apply U1.
  - intros n n' Hn Hn'. rewrite !HA by done. by apply U2.
Qed.

(** The end of the region of the directory entry of page [n]. *)
Lemma next_region n : 0 <= n < UPAGES ->
  u32 (u32 (PGADDR (PDX (PGSIZE * n) + 1) 0 0 - PGSIZE) + PGSIZE) = PGSIZE * (1024 * (n / 1024 + 1)).
Proof.
  intros Hn. change UPAGES with 524288 in Hn.
  destruct (va_page (PGSIZE * n)) as (-> & _); [unfold PGSIZE; lia|]. rewrite page_div.
  assert (0 <= n / 1024 < 512) by (split; [apply Z.div_pos|apply Z.div_lt_upper_bound]; lia).
  unfold PGADDR, PDXSHIFT, PTXSHIFT. rewrite Z.shiftl_0_l, !Z.lor_0_r, Z.shiftl_mul_pow2 by lia.
  rewrite u32_add_l. replace (u32 ((n / 1024 + 1) * 2 ^ 22) - PGSIZE + PGSIZE)
    with (u32 ((n / 1024 + 1) * 2 ^ 22)) by lia.
  rewrite u32_u32, u32_small by lia. unfold PGSIZE. lia.
Qed.

Lemma frame_nonzero e : KERNBASE < kend -> 0 <= e < 2 ^ 32 -> good (frame e) -> PTE_ADDR e <> 0.
Proof.
  intros Hk He [Hb _] H0. unfold frame in Hb. rewrite H0 in Hb. unfold kfree_bad in Hb. bsplit.
  change (P2V 0) with KERNBASE in *. lia.
Qed.

Context (Hkern : KERNBASE < kend).
Abbreviation never := (fun _ : option string => False).

(** What [deallocuvm] does to the pages from [n0] to [n0 + k - 1]. *)
Definition dealloc_post (l : list Z) (pgdir : Z) (T : gmap Z Z) (A : Z -> Z) (n0 : Z) (k : nat)
    (s s' : kmem) : Prop :=
  let l' := reverse (frames_in A n0 k) ++ l in
  let A' := cleared A n0 (Z.of_nat k) in
  aspace s' l' pgdir T A' /\ user_ok l' pgdir T A' /\
  only (fun q => owned pgdir T q \/ q ∈ frames_in A n0 k) (km_mem s) (km_mem s').

Lemma dealloc_skip l pgdir T A n0 j k s s' :
  (forall i, n0 <= i < n0 + Z.of_nat j -> present (A i) = false) ->
  dealloc_post l pgdir T A (n0 + Z.of_nat j) k s s' -> dealloc_post l pgdir T A n0 (j + k) s s'.
Proof.
  intros Hj (R & U & O). unfold dealloc_post. rewrite frames_in_skip by done.
  assert (HA : forall n, cleared A n0 (Z.of_nat (j + k)) n = cleared A (n0 + Z.of_nat j) (Z.of_nat k) n).
  { intros n. rewrite (cleared_skip A n0 (Z.of_nat j)) by (done || lia). f_equal. lia. }
  split_and!; [eapply aspace_ext; [intros n _; apply HA|done]|eapply user_ok_ext; [intros n _; apply HA|done]|done].
Qed.

Lemma dealloc_0 l pgdir T A n0 s : aspace s l pgdir T A -> user_ok l pgdir T A ->
  dealloc_post l pgdir T A n0 0 s s.
Proof.
  intros R U. unfold dealloc_post. cbn.
  assert (HA : forall n, cleared A n0 0 n = A n).
  { intros n. unfold cleared. destruct (Z.leb_spec n0 n), (Z.ltb_spec n (n0 + 0)); simpl; done || lia. }
  split_and!; [eapply aspace_ext; [intros n _; apply HA|done]|eapply user_ok_ext; [intros n _; apply HA|done]|apply only_refl].
Qed.

(** One mapped page is freed, then the rest. *)
Lemma dealloc_step l pgdir T A n0 k s s1 s' : 0 <= n0 < UPAGES -> present (A n0) = true ->
  only (fun q => owned pgdir T q \/ q = frame (A n0)) (km_mem s) (km_mem s1) ->
  dealloc_post (frame (A n0) :: l) pgdir T (upd A n0 0) (n0 + 1) k s1 s' ->
  dealloc_post l pgdir T A n0 (S k) s s'.
Proof.
  intros Hn Hp O1 (R & U & O2). unfold dealloc_post in *. cbn [frames_in]. rewrite Hp. cbn [app].
  assert (Hfr : frames_in (upd A n0 0) (n0 + 1) k = frames_in A (n0 + 1) k).
  { apply frames_in_ext. intros i Hi. unfold upd. destruct (Z.eqb_spec i n0); [lia|done]. }
  rewrite Hfr in *. rewrite reverse_cons, <- app_assoc. cbn [app].
  assert (HA : forall n, cleared A n0 (Z.of_nat (S k)) n = cleared (upd A n0 0) (n0 + 1) (Z.of_nat k) n).
  { intros n. rewrite cleared_step by lia. replace (Z.of_nat (S k)) with (Z.of_nat k + 1) by lia.
    symmetry. apply cleared_upd; [lia|done]. }
  split_and!; [eapply aspace_ext; [intros n _; apply HA|done]|eapply user_ok_ext; [intros n _; apply HA|done]|].
  eapply only_trans; [eapply only_mono; [exact O1|]|eapply only_mono; [exact O2|]]; cbn beta; set_solver.
Qed.

Lemma wp_dealloc_loop pgdir oldsz T k : forall fuel n0 s l A,
  (k < fuel)%nat -> 0 <= n0 -> n0 + Z.of_nat k <= UPAGES ->
  oldsz <= PGSIZE * (n0 + Z.of_nat k) -> (k = O \/ PGSIZE * (n0 + Z.of_nat k - 1) < oldsz) ->
  aspace s l pgdir T A -> user_ok l pgdir T A ->
  wp never (deallocuvm_loop kend fuel pgdir (PGSIZE * n0) oldsz) s
    (fun _ s' => dealloc_post l pgdir T A n0 k s s').
Proof.
  induction k as [k IH] using lt_wf_ind. intros [|fuel] n0 s l A Hf H0 Hmax Hhi Hlo R U; [lia|].
  cbn [deallocuvm_loop]. destruct k as [|k].
  { rewrite (proj2 (Z.ltb_ge _ _)) by lia. by apply wp_ret, dealloc_0. }
  destruct Hlo as [|Hlo]; [done|]. assert (Hn0 : 0 <= n0 < UPAGES) by lia.
  pose proof Hn0 as Hn1. change UPAGES with 524288 in Hn1, Hmax.
  rewrite (proj2 (Z.ltb_lt _ _)) by (unfold PGSIZE in *; lia).
  wbind. eapply (wp_walk kend); [exact R|unfold PGSIZE; lia|..]; rewrite page_div.
  - intros HT. split; [done|]. rewrite Z.eqb_refl, next_region by done.
    pose proof (Z.div_mod n0 1024). pose proof (Z.mod_pos_bound n0 1024).
    assert (Hnp : forall i, n0 <= i < 1024 * (n0 / 1024 + 1) -> i < 2 ^ 20 -> present (A i) = false).
    { intros i Hi Hi2. rewrite (as_pte kend _ _ _ _ _ R i) by lia.
      replace (i / 1024) with (n0 / 1024); [by rewrite HT|].
      apply Z.div_unique with (i - 1024 * (n0 / 1024)); lia. }
    destruct (Z.le_gt_cases (1024 * (n0 / 1024 + 1)) (n0 + Z.of_nat (S k))) as [Hc|Hc].
    + set (j := Z.to_nat (1024 * (n0 / 1024 + 1) - n0)).
      replace (1024 * (n0 / 1024 + 1)) with (n0 + Z.of_nat j) in * by (unfold j; lia).
      replace (S k) with (j + (S k - j))%nat in * by lia.
      eapply wp_mono; [apply (IH (S k - j)%nat); [unfold j; lia|unfold j in *; lia|lia|..]|].
      all: try done; try (change UPAGES with 524288; lia).
      intros u s' Hpost. apply dealloc_skip; [|exact Hpost]. intros i Hi. apply Hnp; lia.
    + destruct fuel as [|fuel]; [lia|]. cbn [deallocuvm_loop].
      rewrite (proj2 (Z.ltb_ge _ _)) by (unfold PGSIZE in *; lia). apply wp_ret.
      replace (S k) with (S k + 0)%nat by lia. apply dealloc_skip; [|by apply dealloc_0].
      intros i Hi. apply Hnp; lia.
  - intros tab HT. destruct (as_tab kend _ _ _ _ _ R _ _ HT) as (_ & Hgt & _ & _).
    destruct (slot_in kend tab n0 Hgt) as (_ & _ & Hs). rewrite (proj2 (Z.eqb_neq _ _)) by done.
    wbind. eapply (wp_load_pte kend); [exact R|lia|exact HT|]. fold (present (A n0)).
    replace (u32 (PGSIZE * n0 + PGSIZE)) with (PGSIZE * (n0 + 1)) by (rewrite u32_small; unfold PGSIZE; lia).
    destruct (present (A n0)) eqn:Ep; wbind.
    + destruct (uo_frame _ _ _ _ U n0 Hn0 Ep) as (Hr & Hg & Hfl & Hfo).
      rewrite (proj2 (Z.eqb_neq _ _)) by by apply frame_nonzero. wbind.
      eapply (wp_kfree kend Hkend); [exact R|exact Hg|done|done|]. intros s1 R1 O1.
      eapply (wp_store_pte kend Hkend); [exact R1|lia|exact HT|lia|]. intros s2 R2 O2.
      eapply wp_mono; [apply (IH k); [lia|lia|lia|change UPAGES with 524288; lia|lia|lia|exact R2|by apply user_ok_free]|].
      intros u s' Hpost. eapply dealloc_step; [done|done| |exact Hpost].
      eapply only_trans; eapply only_mono; [exact O1| |exact O2|]; intros q <-; [by right|left; right; eauto].
    + apply wp_ret. eapply wp_mono; [apply (IH k); [lia|lia|lia|change UPAGES with 524288; lia|lia|lia|done|done]|].
      intros u s' Hpost. apply (dealloc_skip _ _ _ _ _ 1 k); [|exact Hpost].
      intros i Hi. by assert (i = n0) as -> by lia.
Qed.

(** Pages up to a size. *)
Definition pages (sz : Z) : Z := (sz + PGSIZE - 1) / PGSIZE.

Lemma pages_bounds sz : PGSIZE * (pages sz - 1) < sz <= PGSIZE * pages sz.
Proof. unfold pages, PGSIZE. pose proof (Z.div_mod (sz + 4096 - 1) 4096). pose proof (Z.mod_pos_bound (sz + 4096 - 1) 4096). lia. Qed.

Lemma pages_mono a b : a <= b -> pages a <= pages b.
Proof. intros H. unfold pages. apply Z.div_le_mono; unfold PGSIZE; lia. Qed.

Lemma pages_kern sz : sz <= KERNBASE -> pages sz <= UPAGES.
Proof. intros H. etrans; [by apply pages_mono|done]. Qed.

Lemma PGROUNDUP_pages sz : 0 <= sz <= KERNBASE -> PGROUNDUP sz = PGSIZE * pages sz.
Proof. intros H. apply PGROUNDUP_div; unfold PGSIZE, KERNBASE in *; lia. Qed.

Lemma pages_sub a b : (b - PGSIZE * pages a + PGSIZE - 1) / PGSIZE = pages b - pages a.
Proof.
  replace (b - PGSIZE * pages a + PGSIZE - 1) with (b + PGSIZE - 1 + - pages a * PGSIZE) by lia.
  rewrite Z.div_add by (unfold PGSIZE; lia). unfold pages at 2. lia.
Qed.

Lemma wp_deallocuvm pgdir oldsz newsz s l T A : 0 <= newsz -> newsz < oldsz <= KERNBASE ->
  aspace s l pgdir T A -> user_ok l pgdir T A ->
  wp never (deallocuvm kend pgdir oldsz newsz) s
    (fun r s' => r = newsz /\
       dealloc_post l pgdir T A (pages newsz) (Z.to_nat (pages oldsz - pages newsz)) s s').
Proof.
  intros H0 Hlt R U. unfold deallocuvm. rewrite (proj2 (Z.leb_gt _ _)) by lia.
  rewrite PGROUNDUP_pages, pages_sub by lia. wbind.
  pose proof (pages_mono newsz oldsz ltac:(lia)). pose proof (pages_bounds oldsz). pose proof (pages_bounds newsz).
  pose proof (pages_kern oldsz ltac:(lia)).
  eapply wp_mono; [apply (wp_dealloc_loop pgdir oldsz T (Z.to_nat (pages oldsz - pages newsz)) _ (pages newsz)); try done; unfold PGSIZE in *; lia|].
  intros u s' Hp. by apply wp_ret.
Qed.

(** * Growing *)

Definition PTE_UW : Z := Z.lor PTE_W PTE_U.

(** The pages [ps] mapped from page [n] on. *)
Fixpoint grown (A : Z -> Z) (n : Z) (ps : list Z) : Z -> Z :=
  match ps with
  | [] => A
  | p :: ps => grown (upd A n (entry (V2P p) PTE_UW)) (n + 1) ps
  end.

Lemma grown_lookup ps : forall A n m,
  grown A n ps m =
    if (n <=? m) && (m <? n + Z.of_nat (length ps))
    then entry (V2P (nth (Z.to_nat (m - n)) ps 0)) PTE_UW else A m.
Proof.
  induction ps as [|p ps IH]; intros A n m; cbn [grown length].
  - destruct (Z.leb_spec n m), (Z.ltb_spec m (n + Z.of_nat 0)); simpl; done || lia.
  - rewrite IH. unfold upd.
    destruct (Z.leb_spec (n + 1) m), (Z.ltb_spec m (n + 1 + Z.of_nat (length ps))), (Z.leb_spec n m),
      (Z.ltb_spec m (n + Z.of_nat (S (length ps)))), (Z.eqb_spec m n); simpl; try done; try lia.
    + replace (Z.to_nat (m - n)) with (S (Z.to_nat (m - (n + 1)))) by lia. done.
    + subst m. by rewrite Z.sub_diag.
Qed.

(** No page is lost or gained: the free pages and tables before are the free pages and
    tables after and the pages [ps]. *)
Definition keeps (l : list Z) (T : gmap Z Z) (l' : list Z) (T' : gmap Z Z) (ps : list Z) : Prop :=
  forall p, p ∈ l \/ (exists d, T !! d = Some p) <-> p ∈ l' \/ p ∈ ps \/ exists d, T' !! d = Some p.

Lemma user_ok_takes l T l' T' pgdir A : takes l T l' T' -> user_ok l pgdir T A -> user_ok l' pgdir T' A.
Proof.
  intros Htk U. destruct U as [U1 U2]. split; [|done]. intros n Hn Hp.
  destruct (U1 n Hn Hp) as (? & ? & Hl & Ho). do 2 (split; [done|]). split.
  - intros Hin. apply Hl. by eapply takes_free.
  - intros Hin. destruct (takes_owned_inv _ _ _ _ _ _ Htk Hin); tauto.
Qed.

Lemma user_ok_sub l l' pgdir T A : (forall p, p ∈ l' -> p ∈ l) -> user_ok l pgdir T A -> user_ok l' pgdir T A.
Proof.
  intros Hs U. destruct U as [U1 U2]. split; [|done]. intros n Hn Hp.
  destruct (U1 n Hn Hp) as (? & ? & Hl & Ho). do 2 (split; [done|]). split; [|done]. auto.
Qed.

(** A fresh page is mapped. *)
Lemma user_ok_map l pgdir T A n p perm : 0 <= perm < PGSIZE -> good p -> (p ∉ l) -> ~ owned pgdir T p ->
  (forall i, 0 <= i < UPAGES -> present (A i) = true -> frame (A i) <> p) ->
  user_ok l pgdir T A -> user_ok l pgdir T (upd A n (entry (V2P p) perm)).
Proof.
  intros HU Hg Hl Ho Hfr U. destruct U as [U1 U2]. destruct (good_V2P kend p Hg) as (_ & Hv1 & Hv2 & _).
  assert (Hf : frame (entry (V2P p) perm) = p) by by apply entry_frame with kend.
  split.
  - intros i Hi. unfold upd. destruct (Z.eqb_spec i n) as [->|]; [|by apply U1]. intros _.
    rewrite Hf. split; [by apply entry_range|done].
  - intros i i' Hi Hi'. unfold upd. destruct (Z.eqb_spec i n) as [->|], (Z.eqb_spec i' n) as [->|]; try done.
    + rewrite Hf. intros _ Hp He. by destruct (Hfr i' Hi' Hp).
    + rewrite Hf. intros Hp _ He. by destruct (Hfr i Hi Hp).
    + by apply U2.
Qed.

(** The outcome of [allocuvm] from page [n] on, with [k] pages to go: success, or failure
    after which the pages from [n0] to [n0 + K - 1] are freed again. *)
Definition zeroed (m : mem) (ps : list Z) : Prop :=
  forall p x, p ∈ ps -> p <= x < p + PGSIZE -> m x = 0.

(** The pages that growing by [k] pages from page [n] on takes, at most. *)
Definition grow_need (T : gmap Z Z) (n : Z) (k : nat) : Z :=
  match k with O => 0 | _ => Z.of_nat k + tabs_need T n (n + Z.of_nat k - 1) end.

Lemma grow_need_step T T2 n k tab : T2 !! (n / 1024) = Some tab ->
  1 + no_table T n + grow_need T2 (n + 1) k <= grow_need T n (S k).
Proof.
  intros HT. pose proof (no_table_next T2 n tab HT). unfold grow_need, tabs_need.
  destruct k as [|k]; [rewrite Z.add_simpl_r; lia|].
  replace (n + 1 + Z.of_nat (S k) - 1) with (n + Z.of_nat (S (S k)) - 1) by lia. lia.
Qed.

Definition alloc_ok (l : list Z) (pgdir : Z) (T : gmap Z Z) (A : Z -> Z) (n : Z) (k : nat) (s s' : kmem) : Prop :=
  exists l' T' ps, length ps = k /\ aspace s' l' pgdir T' (grown A n ps) /\
    user_ok l' pgdir T' (grown A n ps) /\ T ⊆ T' /\ keeps l T l' T' ps /\
    (forall p, p ∈ ps -> p ∈ l) /\ zeroed (km_mem s') ps /\
    Z.of_nat (length l) <= Z.of_nat (length l') + grow_need T n k /\
    only (fun q => owned pgdir T q \/ q ∈ l) (km_mem s) (km_mem s').

Definition alloc_fail (l : list Z) (pgdir : Z) (T : gmap Z Z) (A : Z -> Z) (n0 : Z) (K : nat) (s s' : kmem) : Prop :=
  exists l' T', aspace s' l' pgdir T' (cleared A n0 (Z.of_nat K)) /\
    user_ok l' pgdir T' (cleared A n0 (Z.of_nat K)) /\ T ⊆ T' /\
    keeps (frames_in A n0 K ++ l) T l' T' [] /\
    only (fun q => owned pgdir T q \/ q ∈ frames_in A n0 K ++ l) (km_mem s) (km_mem s').

Lemma elem_of_dealloc p A n0 K l : p ∈ reverse (frames_in A n0 K) ++ l <-> p ∈ frames_in A n0 K \/ p ∈ l.
Proof. by rewrite elem_of_app, elem_of_reverse. Qed.

Lemma frames_in_elem A k : forall n p, p ∈ frames_in A n k <->
  exists i, n <= i < n + Z.of_nat k /\ present (A i) = true /\ p = frame (A i).
Proof.
  induction k as [|k IH]; intros n p; cbn [frames_in].
  { rewrite elem_of_nil. split; [done|]. intros (i & Hi & _). lia. }
  rewrite elem_of_app, IH. split.
  - intros [Hp|(i & Hi & ? & ?)]; [|exists i; split; [lia|done]].
    destruct (present (A n)) eqn:E; [|by apply not_elem_of_nil in Hp].
    apply list_elem_of_singleton in Hp as ->. exists n. split; [lia|done].
  - intros (i & Hi & Hp & ->). destruct (decide (i = n)) as [->|].
    + left. rewrite Hp. by left.
    + right. exists i. split; [lia|done].
Qed.

(** A fresh page with the contents it has in [m] becomes page [n]. *)
Lemma wp_grow_page may pgdir n s l T A p u m perm (Q : Z -> kmem -> Prop) : 0 <= n < UPAGES ->
  0 <= perm < PGSIZE -> aspace s l pgdir T A -> only (eq p) (km_mem s) m ->
  good p -> (p ∉ l) -> ~ owned pgdir T p -> present (A n) = false ->
  (forall s' T', aspace s' [] pgdir T' A -> takes l T [] T' -> Z.of_nat (length l) < no_table T n ->
     only (fun q => owned pgdir T' q \/ q = p) (km_mem s) (km_mem s') -> Q (-1) s') ->
  (forall s' l' T', aspace s' l' pgdir T' (upd A n (entry (V2P p) perm)) -> takes l T l' T' ->
     Z.of_nat (length l) <= Z.of_nat (length l') + no_table T n ->
     only (fun q => owned pgdir T' q \/ q = p) (km_mem s) (km_mem s') ->
     (forall x, p <= x < p + PGSIZE -> km_mem s' x = m x) -> Q 0 s') ->
  wp may (mappages pgdir (PGSIZE * n) PGSIZE (V2P p) perm) (Kmem u (km_freelist s) m) Q.
Proof.
  intros Hn Hperm R O1 Hg Hl Ho Hp Hfail Hok. change UPAGES with 524288 in Hn.
  assert (R1 : aspace (Kmem u (km_freelist s) m) l pgdir T A).
  { eapply aspace_only; [exact Hkend|exact O1| |exact R]. by intros q <-. }
  destruct (good_V2P kend p Hg) as (_ & Hv1 & Hv2 & _).
  assert (Hk : (PGSIZE * n + PGSIZE - 1) / PGSIZE = n).
  { symmetry. apply Z.div_unique with (PGSIZE - 1); unfold PGSIZE; lia. }
  pose proof (wp_mappages pgdir (PGSIZE * n) PGSIZE (V2P p) perm
    (Kmem u (km_freelist s) m) l T A) as H.
  cbv zeta in H. rewrite Hk, page_div, Z.sub_diag in H. cbn [Z.to_nat Z.of_nat] in H.
  eapply wp_weaken; [|eapply wp_mono; [apply H; try done; try (unfold PGSIZE; lia)|]].
  - intros o (_ & i & Hi & Hpi). assert (i = n) as -> by lia. congruence.
  - intros r s' (l' & T' & j & R' & Htk & O2 & Hr). change (Z.of_nat (Z.to_nat 0)) with 0 in Hr. cbn [km_mem] in O2.
    unfold tabs_need in Hr. rewrite Z.add_0_r, Z.sub_diag in Hr.
    assert (Oall : only (fun q => owned pgdir T' q \/ q = p) (km_mem s) (km_mem s')).
    { eapply only_trans; eapply only_mono; [exact O1| |exact O2|]; intros q; [intros <-; by right|by left]. }
    destruct Hr as [(-> & -> & Hlen)|(-> & Hj & -> & Hlen)].
    + apply (Hok s' l' T'); [|done|lia|done|].
      * eapply aspace_ext; [|exact R']. intros i Hi. unfold map_range, upd.
        destruct (Z.leb_spec n i), (Z.ltb_spec i (n + (0 + 1))), (Z.eqb_spec i n); simpl; try done; try lia.
        subst i. by rewrite Z.sub_diag, Z.mul_0_r, Z.add_0_r.
      * intros x Hx. rewrite (O2 x); [done|].
        intros q Hq. assert (q <> p /\ good q) as [Hqp Hgq].
        { destruct (takes_owned_inv _ _ _ _ _ _ Htk Hq) as [Hq'|Hq'].
          - split; [by intros ->|]. exact (owned_good _ _ _ _ _ _ R Hq').
          - split; [by intros ->|]. exact (free_page_good _ _ _ _ _ _ R Hq'). }
        destruct (good_apart kend q p Hgq Hg Hqp); lia.
    + assert (j = 0) as -> by lia. apply (Hfail s' T'); [|done|lia|done].
      eapply aspace_ext; [|exact R']. intros i _. symmetry. apply map_range_0.
Qed.

Lemma keeps_takes l T l' T' : takes l T l' T' -> keeps l T l' T' [].
Proof using.
  clear Hkend Hkern.
  intros (_ & qs & -> & H) p. rewrite elem_of_app, elem_of_nil, H. tauto.
Qed.

Lemma keeps_trans l T l1 T1 ps l' T' qs :
  keeps l T l1 T1 ps -> keeps l1 T1 l' T' qs -> keeps l T l' T' (ps ++ qs).
Proof using. clear Hkend Hkern. intros H1 H2 p. specialize (H1 p). specialize (H2 p). rewrite elem_of_app. tauto. Qed.

(** A mapped page has a table. *)
Lemma entry_table s l pgdir T A n e : aspace s l pgdir T (upd A n (entry e PTE_UW)) -> 0 <= n < UPAGES ->
  exists tab, T !! (n / 1024) = Some tab.
Proof.
  intros R Hn. change UPAGES with 524288 in Hn. pose proof (as_pte kend _ _ _ _ _ R n ltac:(lia)) as H.
  unfold upd in H. rewrite Z.eqb_refl in H. destruct (T !! (n / 1024)) as [tab|]; [eauto|].
  pose proof (entry_present e PTE_UW) as Hp. by rewrite H in Hp.
Qed.

(** One page more. *)
Lemma alloc_ok_cons l1 l2 pgdir T T2 A n k p s s2 s' :
  0 <= n < UPAGES -> good p -> (p ∉ l2) -> ~ owned pgdir T2 p -> takes l1 T l2 T2 ->
  Z.of_nat (length l1) <= Z.of_nat (length l2) + no_table T n ->
  aspace s2 l2 pgdir T2 (upd A n (entry (V2P p) PTE_UW)) ->
  only (fun q => owned pgdir T2 q \/ q = p) (km_mem s) (km_mem s2) -> zeroed (km_mem s2) [p] ->
  alloc_ok l2 pgdir T2 (upd A n (entry (V2P p) PTE_UW)) (n + 1) k s2 s' ->
  alloc_ok (p :: l1) pgdir T A n (S k) s s'.
Proof.
  intros Hn Hg Hpl Hpo Htk Hl12 R2 O Hz (l' & T' & ps & Hlen & R' & U' & HT & Hk & Hps & Hzs & Hl' & O').
  exists l', T', (p :: ps). split; [cbn; lia|]. split; [done|]. split; [done|].
  split; [by etrans; [apply Htk|]|]. split_and!.
  - pose proof (keeps_trans _ _ _ _ _ _ _ _ (keeps_takes _ _ _ _ Htk) Hk) as Hk'. intros q.
    specialize (Hk' q). cbn [app] in Hk'. rewrite !elem_of_cons. tauto.
  - intros q Hq. apply elem_of_cons in Hq as [->|Hq]; [by left|]. right. by eapply takes_free, Hps.
  - intros q x Hq Hx. apply elem_of_cons in Hq as [->|Hq]; [|by eapply Hzs].
    rewrite (O' x); [by apply (Hz p); [left|]|]. intros q Hq.
    assert (good q /\ q <> p) as [Hgq Hne].
    { destruct Hq as [Hq|Hq]; (split; [|by intros ->]).
      - exact (owned_good _ _ _ _ _ _ R2 Hq).
      - exact (free_page_good _ _ _ _ _ _ R2 Hq). }
    destruct (good_apart kend q p Hgq Hg Hne); lia.
  - destruct (entry_table _ _ _ _ _ _ _ R2 Hn) as [tab Htab].
    pose proof (grow_need_step T T2 n k tab Htab). cbn [length]. lia.
  - eapply only_trans; eapply only_mono; [exact O| |exact O'|]; cbn beta; intros q [Hq|Hq].
    + destruct (takes_owned_inv _ _ _ _ _ _ Htk Hq) as [|]; [by left|right; by right].
    + subst q. right. by left.
    + destruct (takes_owned_inv _ _ _ _ _ _ Htk Hq) as [|]; [by left|right; by right].
    + right. right. by eapply takes_free.
Qed.

Lemma frames_in_upd A n p n0 K q : A n = 0 -> good p -> n0 <= n < n0 + Z.of_nat K ->
  q ∈ frames_in (upd A n (entry (V2P p) PTE_UW)) n0 K <-> q = p \/ q ∈ frames_in A n0 K.
Proof.
  intros HA Hg Hn. assert (Hf : frame (entry (V2P p) PTE_UW) = p).
  { apply entry_frame with kend; [done|]. change PTE_UW with 6. unfold PGSIZE. lia. }
  rewrite !frames_in_elem. unfold upd. split.
  - intros (i & Hi & Hp & ->). destruct (Z.eqb_spec i n) as [->|]; [by left|right; eauto].
  - intros [->|(i & Hi & Hp & ->)].
    + exists n. rewrite Z.eqb_refl, entry_present. split; [lia|]. split; [done|by symmetry].
    + exists i. destruct (Z.eqb_spec i n) as [->|]; [by rewrite HA in Hp|done].
Qed.

Lemma alloc_fail_cons l1 l2 pgdir T T2 A n n0 K p s s2 s' :
  good p -> takes l1 T l2 T2 -> n0 <= n -> n < n0 + Z.of_nat K -> A n = 0 ->
  only (fun q => owned pgdir T2 q \/ q = p) (km_mem s) (km_mem s2) ->
  alloc_fail l2 pgdir T2 (upd A n (entry (V2P p) PTE_UW)) n0 K s2 s' ->
  alloc_fail (p :: l1) pgdir T A n0 K s s'.
Proof.
  intros Hg Htk Hn Hn2 HA O (l' & T' & R' & U' & HT & Hk & O').
  assert (Hc : forall i, cleared A n0 (Z.of_nat K) i =
    cleared (upd A n (entry (V2P p) PTE_UW)) n0 (Z.of_nat K) i).
  { intros i. unfold cleared, upd. destruct (Z.eqb_spec i n) as [->|]; [|done].
    rewrite HA, entry_present, present_0, andb_false_r.
    destruct (Z.leb_spec n0 n), (Z.ltb_spec n (n0 + Z.of_nat K)); simpl; done || lia. }
  pose proof (fun q => frames_in_upd A n p n0 K q HA Hg (conj Hn Hn2)) as Hfr.
  exists l', T'. split_and!.
  - eapply aspace_ext; [intros i _; apply Hc|done].
  - eapply user_ok_ext; [intros i _; apply Hc|done].
  - by etrans; [apply Htk|].
  - intros q. rewrite <- (Hk q), !elem_of_app, Hfr, elem_of_cons.
    pose proof (keeps_takes _ _ _ _ Htk q) as Hq. rewrite elem_of_nil in Hq. tauto.
  - eapply only_trans; eapply only_mono; [exact O| |exact O'|]; cbn beta; intros q;
      rewrite !elem_of_app, ?Hfr, elem_of_cons.
    + intros [Hq| ->]; [|tauto]. destruct (takes_owned_inv _ _ _ _ _ _ Htk Hq); tauto.
    + intros [Hq|[Hq|Hq]]; [destruct (takes_owned_inv _ _ _ _ _ _ Htk Hq); tauto|tauto|].
      pose proof (takes_free _ _ _ _ _ Htk Hq). tauto.
Qed.

Lemma wp_alloc_loop pgdir oldsz newsz k : 0 <= oldsz -> oldsz < newsz < KERNBASE ->
  let n0 := pages oldsz in let K := Z.to_nat (pages newsz - pages oldsz) in
  forall fuel n s l T A, (k < fuel)%nat -> n0 <= n -> n + Z.of_nat k = pages newsz ->
  aspace s l pgdir T A -> user_ok l pgdir T A ->
  (forall i, n <= i < n + Z.of_nat k -> A i = 0) ->
  wp never (allocuvm_loop kend fuel pgdir oldsz newsz (PGSIZE * n)) s
    (fun r s' => r = newsz /\ alloc_ok l pgdir T A n k s s' \/
       r = 0 /\ alloc_fail l pgdir T A n0 K s s' /\ Z.of_nat (length l) < grow_need T n k).
Proof.
  intros Hold Hlt n0 K. pose proof (pages_bounds newsz) as Hnb. pose proof (pages_kern newsz ltac:(lia)) as Hnk.
  assert (Hn0 : 0 <= n0) by (unfold n0, pages; apply Z.div_pos; unfold PGSIZE; lia).
  induction k as [|k IH]; intros [|fuel] n s l T A Hf Hn Hnk2 R U Hnp; try lia; cbn [allocuvm_loop].
  { rewrite (proj2 (Z.ltb_ge _ _)) by (unfold PGSIZE in *; lia). apply wp_ret. left. split; [done|].
    exists l, T, []. split_and!; try done; [intros p; rewrite elem_of_nil; tauto|set_solver|intros p x Hp; set_solver|cbn; lia]. }
  assert (Hneed : 1 + no_table T n <= grow_need T n (S k)).
  { unfold grow_need. pose proof (tabs_need_pos T n (n + Z.of_nat (S k) - 1) ltac:(lia)). lia. }
  rewrite (proj2 (Z.ltb_lt _ _)) by (unfold PGSIZE in *; lia).
  assert (HnU : 0 <= n < UPAGES) by lia.
  wbind. apply (wp_kalloc kend Hkend _ s l pgdir T A); [done| |].
  - intros ->. rewrite Z.eqb_refl. wbind.
    eapply wp_mono; [apply (wp_deallocuvm pgdir newsz oldsz s [] T A); try done; lia|].
    intros r s' [_ (R' & U' & O')]. apply wp_ret. right. split; [done|].
    split; [|pose proof (no_table_range T n); cbn [length]; lia].
    eexists _, T. split_and!; [exact R'|exact U'|done| |].
    + intros p. rewrite elem_of_dealloc, elem_of_app, elem_of_nil. tauto.
    + eapply only_mono; [exact O'|]. cbn beta. intros q. rewrite elem_of_app. tauto.
  - intros p l1 s1 -> R1 Hm1 Hg Hpl Hpo. destruct (good_range kend p Hg) as (Hp1 & _).
    assert (Hp0 : p <> 0) by (unfold KERNBASE in Hp1; lia). rewrite (proj2 (Z.eqb_neq p 0)) by done.
    wbind. unfold wp at 1, mem_set. rewrite (proj2 (Z.eqb_neq p 0)) by done. fold PTE_UW. wbind.
    assert (Hfr : forall i, 0 <= i < UPAGES -> present (A i) = true -> frame (A i) <> p).
    { intros i Hi Hpi He. destruct (uo_frame _ _ _ _ U i Hi Hpi) as (_ & _ & Hni & _). apply Hni.
      rewrite He. by left. }
    assert (U1 : user_ok l1 pgdir T A) by (eapply user_ok_sub; [|exact U]; intros q Hq; by right).
    eapply (wp_grow_page _ pgdir n s1 l1 T A p); try done; [by apply (memset_page_only kend)|by rewrite Hnp by lia|..].
    + (* no memory for a table *)
      intros s2 T2 R2 Htk Hshort O2. change (-1 <? 0) with true. cbn [negb]. wbind.
      assert (U2 : user_ok [] pgdir T2 A) by by eapply user_ok_takes.
      eapply wp_mono; [apply (wp_deallocuvm pgdir newsz oldsz s2 [] T2 A); try done; lia|].
      intros r s3 [_ (R3 & U3 & O3)]. wbind.
      assert (Hpo2 : ~ owned pgdir T2 p).
      { intros Hx. destruct (takes_owned_inv _ _ _ _ _ _ Htk Hx); tauto. }
      assert (Hpf : p ∉ reverse (frames_in A (pages oldsz) (Z.to_nat (pages newsz - pages oldsz))) ++ []).
      { rewrite elem_of_dealloc. intros [Hx|Hx]; [|by apply not_elem_of_nil in Hx].
        apply frames_in_elem in Hx as (i & Hi & Hpi & ->). apply (Hfr i); try done. fold n0 in Hi. lia. }
      eapply (wp_kfree kend Hkend); [exact R3|done|done|done|]. intros s4 R4 O4. apply wp_ret. right. split; [done|].
      split; [|cbn [length]; lia].
      eexists _, T2. split_and!; [exact R4| |apply Htk| |].
      * destruct U3 as [U3a U3b]. split; [|done]. intros i Hi Hpi.
        destruct (U3a i Hi Hpi) as (? & ? & ? & ?). do 2 (split; [done|]). split; [|done].
        apply not_elem_of_cons. split; [|done]. intros He.
        unfold cleared in Hpi, He. destruct (_ && _ && _); [done|]. by apply (Hfr i).
      * intros q. rewrite elem_of_app, !elem_of_cons, elem_of_dealloc, elem_of_nil. fold n0 K.
        pose proof (keeps_takes _ _ _ _ Htk q) as Hq. rewrite !elem_of_nil in Hq. tauto.
      * rewrite <- Hm1. eapply only_trans; [eapply only_mono; [exact O2|]|
          eapply only_trans; eapply only_mono; [exact O3| |exact O4|]]; cbn beta; fold n0 K; intros q;
          rewrite elem_of_app, elem_of_cons.
        -- intros [Hq|Hq]; [destruct (takes_owned_inv _ _ _ _ _ _ Htk Hq); tauto|tauto].
        -- intros [Hq|Hq]; [destruct (takes_owned_inv _ _ _ _ _ _ Htk Hq); tauto|tauto].
        -- intros <-. tauto.
    + intros s2 l2 T2 R2 Htk Hlen2 O2 Hc. change (0 <? 0) with false.
      assert (Hz : zeroed (km_mem s2) [p]).
      { intros q x Hq Hx. apply list_elem_of_singleton in Hq as ->. rewrite Hc, (memset_page kend) by done.
        destruct (Z.leb_spec p x), (Z.ltb_spec x (p + PGSIZE)); simpl; done || lia. }
      replace (u32 (PGSIZE * n + PGSIZE)) with (PGSIZE * (n + 1))
        by (change UPAGES with 524288 in *; rewrite u32_small; unfold PGSIZE; lia).
      assert (Hpl2 : p ∉ l2) by (intros Hx; apply Hpl; by eapply takes_free).
      assert (Hpo2 : ~ owned pgdir T2 p).
      { intros Hx. destruct (takes_owned_inv _ _ _ _ _ _ Htk Hx); tauto. }
      assert (U2 : user_ok l2 pgdir T2 (upd A n (entry (V2P p) PTE_UW)))
        by (apply user_ok_map; try done; by eapply user_ok_takes).
      eapply wp_mono; [apply (IH fuel (n + 1) s2 l2 T2); try done; try lia|].
      { intros i Hi. unfold upd. destruct (Z.eqb_spec i n); [lia|]. apply Hnp. lia. }
      intros r s3 [[-> Hok]|(-> & Hfail & Hshort)]; [left|right]; (split; [done|]).
      * eapply alloc_ok_cons; try done. by rewrite <- Hm1.
      * split.
        -- eapply alloc_fail_cons; [done|exact Htk|exact Hn|unfold K, n0 in *; lia|apply Hnp; lia| |done].
           by rewrite <- Hm1.
        -- destruct (entry_table _ _ _ _ _ _ _ R2 HnU) as [tab Htab].
           pose proof (grow_need_step T T2 n k tab Htab). cbn [length]. lia.
Qed.
End thm.
