(* ===== verification/VmCopy.v ===== *)
(** Writing into an address space with [copyout], and the properties of [vm.c]. *)

From stdpp Require Import gmap.
From S2P Require Import Prelude CString Mmu Kalloc Vm VmSpec VmThm.

Lemma put_bytes_lookup l : forall m p x,
  put_bytes m p l x =
    if (p <=? x) && (x <? p + Z.of_nat (length l)) then nth (Z.to_nat (x - p)) l 0 else m x.
Proof.
  induction l as [|b l IH]; intros m p x; cbn [put_bytes length].
  - destruct (Z.leb_spec p x), (Z.ltb_spec x (p + Z.of_nat 0)); simpl; done || lia.
  - rewrite IH. unfold mupd.
    destruct (Z.leb_spec (p + 1) x), (Z.ltb_spec x (p + 1 + Z.of_nat (length l))), (Z.leb_spec p x),
      (Z.ltb_spec x (p + Z.of_nat (S (length l)))), (Z.eqb_spec x p); simpl; try done; try lia.
    + replace (Z.to_nat (x - p)) with (S (Z.to_nat (x - (p + 1)))) by lia. done.
    + subst x. by rewrite Z.sub_diag.
Qed.

(** A page that user code can access. *)
Definition user_page (e : Z) : bool := present e && negb (Z.land e PTE_U =? 0).

(** The byte a user program finds at [x]. *)
Definition ubyte (s : kmem) (A : Z -> Z) (x : Z) : option Z :=
  if user_page (A (x / PGSIZE)) then Some (km_mem s (frame (A (x / PGSIZE)) + x mod PGSIZE)) else None.

(** A page mapped below KERNBASE. *)
Definition user_frame (A : Z -> Z) (p : Z) : Prop :=
  exists n, 0 <= n < UPAGES /\ present (A n) = true /\ p = frame (A n).

Abbreviation never := (fun _ : option string => False).

Section copy.
Context (kend : Z) (Hkend : 0 < kend < 2 ^ 32).
Local Abbreviation aspace := (aspace kend).
Local Abbreviation good := (good kend).
Local Abbreviation user_ok := (user_ok kend).

Lemma wp_uva2ka may s l pgdir T A va tab Q : aspace s l pgdir T A -> 0 <= va < 2 ^ 32 ->
  T !! (va / PGSIZE / 1024) = Some tab ->
  Q (if user_page (A (va / PGSIZE)) then frame (A (va / PGSIZE)) else 0) s ->
  wp may (uva2ka pgdir va) s Q.
Proof.
  intros R Hva HT HQ. unfold uva2ka. wbind.
  eapply (wp_walk kend); [exact R|done|congruence|]. intros tab' HT'.
  destruct (va_page va Hva) as (_ & _ & Hn & _).
  assert (Hload : forall Q' : Z -> kmem -> Prop, Q' (A (va / PGSIZE)) s -> wp may (load (slot tab' (va / PGSIZE))) s Q').
  { intros Q' H. by eapply (wp_load_pte kend); [exact R|done|exact HT'|]. }
  unfold user_page, present in HQ. wbind. apply Hload.
  destruct (Z.land (A (va / PGSIZE)) PTE_P =? 0); [by apply wp_ret|]. wbind. apply Hload.
  destruct (Z.land (A (va / PGSIZE)) PTE_U =? 0); [by apply wp_ret|]. wbind. apply Hload. by apply wp_ret.
Qed.

(** Bytes written into the page of [va]. *)
Lemma write_page s l pgdir T A va (b : list Z) : aspace s l pgdir T A -> user_ok l pgdir T A ->
  0 <= va -> va < KERNBASE -> user_page (A (va / PGSIZE)) = true ->
  va mod PGSIZE + Z.of_nat (length b) <= PGSIZE ->
  let s' := Kmem (km_use_lock s) (km_freelist s)
              (put_bytes (km_mem s) (frame (A (va / PGSIZE)) + va mod PGSIZE) b) in
  aspace s' l pgdir T A /\
  forall x, 0 <= x < KERNBASE ->
    ubyte s' A x = if (va <=? x) && (x <? va + Z.of_nat (length b))
                   then Some (nth (Z.to_nat (x - va)) b 0) else ubyte s A x.
Proof.
  intros R U H0 Hk Hu Hlen s'. set (n := va / PGSIZE) in *.
  assert (HU : UPAGES = 524288) by done.
  assert (Hn : 0 <= n < UPAGES).
  { rewrite HU. unfold n, PGSIZE, KERNBASE in *. split; [apply Z.div_pos; lia|apply Z.div_lt_upper_bound; lia]. }
  assert (Hp : present (A n) = true) by (unfold user_page in Hu; by apply andb_true_iff in Hu as [? _]).
  destruct (uo_frame _ _ _ _ _ U n Hn Hp) as (_ & Hg & Hl & Ho). set (f := frame (A n)) in *.
  pose proof (Z.mod_pos_bound va PGSIZE ltac:(done)) as Hm. pose proof (Z.div_mod va PGSIZE ltac:(done)) as Hd.
  fold n in Hd. split.
  - eapply (aspace_only kend Hkend (eq f)); [|by intros p <-|exact R]. intros x Hx.
    specialize (Hx f eq_refl). rewrite put_bytes_lookup.
    destruct (Z.leb_spec (f + va mod PGSIZE) x), (Z.ltb_spec x (f + va mod PGSIZE + Z.of_nat (length b)));
      simpl; done || lia.
  - intros x Hx. unfold ubyte, s'. cbn [km_mem].
    pose proof (Z.mod_pos_bound x PGSIZE ltac:(done)) as Hmx. pose proof (Z.div_mod x PGSIZE ltac:(done)) as Hdx.
    destruct (decide (x / PGSIZE = n)) as [Hxn|Hxn].
    + rewrite Hxn in *. fold f. rewrite Hu, put_bytes_lookup.
      destruct (Z.leb_spec (f + va mod PGSIZE) (f + x mod PGSIZE)),
        (Z.ltb_spec (f + x mod PGSIZE) (f + va mod PGSIZE + Z.of_nat (length b))),
        (Z.leb_spec va x), (Z.ltb_spec x (va + Z.of_nat (length b))); simpl; try done; try lia.
      do 2 f_equal. lia.
    + assert (~ (va <= x < va + Z.of_nat (length b))) as Hout.
      { intros Hin. apply Hxn. symmetry. apply Z.div_unique with (x - PGSIZE * n); lia. }
      replace ((va <=? x) && (x <? va + Z.of_nat (length b))) with false
        by (destruct (Z.leb_spec va x), (Z.ltb_spec x (va + Z.of_nat (length b))); simpl; done || lia).
      destruct (user_page (A (x / PGSIZE))) eqn:Eu; [|done]. do 2 f_equal.
      assert (Hnx : 0 <= x / PGSIZE < UPAGES).
      { rewrite HU. unfold PGSIZE, KERNBASE in *. split; [apply Z.div_pos; lia|apply Z.div_lt_upper_bound; lia]. }
      assert (Hpx : present (A (x / PGSIZE)) = true) by (unfold user_page in Eu; by apply andb_true_iff in Eu as [? _]).
      destruct (uo_frame _ _ _ _ _ U _ Hnx Hpx) as (_ & Hgx & _ & _).
      assert (Hne : frame (A (x / PGSIZE)) <> f).
      { intros He. apply Hxn. by apply (uo_inj _ _ _ _ _ U). }
      rewrite put_bytes_lookup.
      destruct (good_apart kend _ _ Hgx Hg Hne);
        destruct (Z.leb_spec (f + va mod PGSIZE) (frame (A (x / PGSIZE)) + x mod PGSIZE)),
          (Z.ltb_spec (frame (A (x / PGSIZE)) + x mod PGSIZE) (f + va mod PGSIZE + Z.of_nat (length b)));
        simpl; done || lia.
Qed.

(** [j] bytes of [buf] written from the user address [va] on. *)
Definition written (s s' : kmem) (A : Z -> Z) (va : Z) (buf : list Z) (j : Z) : Prop :=
  forall x, 0 <= x < KERNBASE ->
    ubyte s' A x = if (va <=? x) && (x <? va + j) then Some (nth (Z.to_nat (x - va)) buf 0) else ubyte s A x.

Lemma written_app s s1 s' A va (n : nat) buf j va' : (n <= length buf)%nat -> 0 <= j ->
  (0 < j -> va' = va + Z.of_nat n) ->
  written s s1 A va (take n buf) (Z.of_nat n) -> written s1 s' A va' (drop n buf) j ->
  written s s' A va buf (Z.of_nat n + j).
Proof.
  intros Hn Hj Hva H1 H2 x Hx. rewrite H2, H1 by done.
  destruct (decide (j = 0)) as [->|Hj0].
  - destruct (Z.leb_spec va' x), (Z.ltb_spec x (va' + 0)); simpl; try lia;
      rewrite Z.add_0_r; destruct (Z.leb_spec va x), (Z.ltb_spec x (va + Z.of_nat n)); simpl; try done;
      f_equal; rewrite nth_firstn; rewrite (proj2 (Nat.ltb_lt _ _)) by lia; done.
  - rewrite (Hva ltac:(lia)).
    destruct (Z.leb_spec (va + Z.of_nat n) x), (Z.ltb_spec x (va + Z.of_nat n + j)),
      (Z.leb_spec va x), (Z.ltb_spec x (va + Z.of_nat n)), (Z.ltb_spec x (va + (Z.of_nat n + j))); simpl; try done; try lia.
    + f_equal. rewrite nth_skipn. f_equal. lia.
    + f_equal. rewrite nth_firstn, (proj2 (Nat.ltb_lt _ _)) by lia. done.
Qed.

Lemma wp_copyout_loop pgdir l T A fuel : forall va buf s, (length buf < fuel)%nat ->
  aspace s l pgdir T A -> user_ok l pgdir T A -> 0 <= va -> va + Z.of_nat (length buf) <= KERNBASE ->
  (forall x, va <= x < va + Z.of_nat (length buf) -> exists tab, T !! (x / PGSIZE / 1024) = Some tab) ->
  wp never (copyout_loop fuel pgdir va buf) s (fun r s' => exists j,
    aspace s' l pgdir T A /\ written s s' A va buf j /\ only (user_frame A) (km_mem s) (km_mem s') /\
    (r = 0 /\ j = Z.of_nat (length buf) \/
     r = -1 /\ 0 <= j < Z.of_nat (length buf) /\ user_page (A ((va + j) / PGSIZE)) = false)).
Proof.
  induction fuel as [|fuel IH]; intros va buf s Hf R U H0 Hk HT; [lia|]. cbn [copyout_loop].
  assert (Hno : written s s A va buf 0).
  { intros x Hx. destruct (Z.leb_spec va x), (Z.ltb_spec x (va + 0)); simpl; done || lia. }
  destruct buf as [|b0 buf0] eqn:Eb; [apply wp_ret; exists 0; split_and!; try done; by left|].
  rewrite <- Eb in *. assert (Hlb : (0 < length buf)%nat) by (rewrite Eb; cbn; lia). clear Eb b0 buf0.
  assert (Hva : 0 <= va < 2 ^ 32) by (unfold KERNBASE in Hk; lia).
  rewrite PGROUNDDOWN_div by done.
  pose proof (Z.mod_pos_bound va PGSIZE ltac:(done)) as Hm. pose proof (Z.div_mod va PGSIZE ltac:(done)) as Hd.
  assert (Hn0 : 0 <= va / PGSIZE) by (apply Z.div_pos; unfold PGSIZE; lia).
  destruct (HT va ltac:(lia)) as [tab Htab]. wbind.
  eapply wp_uva2ka; [exact R|unfold PGSIZE in *; lia|rewrite page_div; exact Htab|]. rewrite page_div.
  destruct (user_page (A (va / PGSIZE))) eqn:Eu.
  2:{ rewrite Z.eqb_refl. apply wp_ret. exists 0. split_and!; try done. right. rewrite Z.add_0_r. split; [done|]. split; [lia|done]. }
  assert (Hp : present (A (va / PGSIZE)) = true) by (unfold user_page in Eu; by apply andb_true_iff in Eu as [? _]).
  assert (HnU : 0 <= va / PGSIZE < UPAGES).
  { change UPAGES with 524288. split; [done|]. apply Z.div_lt_upper_bound; unfold PGSIZE, KERNBASE in *; lia. }
  destruct (uo_frame _ _ _ _ _ U _ HnU Hp) as (_ & Hg & _ & _). destruct (good_range kend _ Hg) as (Hfk & _).
  rewrite (proj2 (Z.eqb_neq _ 0)) by (unfold KERNBASE in Hfk; lia).
  replace (va - PGSIZE * (va / PGSIZE)) with (va mod PGSIZE) by lia.
  set (n := Z.to_nat (Z.min (PGSIZE - va mod PGSIZE) (Z.of_nat (length buf)))).
  assert (Hnb : (0 < n <= length buf)%nat) by (unfold n; lia).
  assert (Htl : length (take n buf) = n) by (rewrite length_take; lia).
  destruct (write_page s l pgdir T A va (take n buf)) as [R1 W1]; try done; [lia|rewrite Htl; unfold n; lia|].
  wbind. unfold wp at 1, mem_write. rewrite (proj2 (Z.eqb_neq _ 0)) by (unfold KERNBASE in Hfk; lia).
  rewrite Htl in W1. set (s1 := Kmem _ _ _) in *.
  replace (u32 (PGSIZE * (va / PGSIZE) + PGSIZE)) with (PGSIZE * (va / PGSIZE) + PGSIZE)
    by (rewrite u32_small; [done|change UPAGES with 524288 in HnU; unfold PGSIZE in *; lia]).
  eapply wp_mono; [apply (IH (PGSIZE * (va / PGSIZE) + PGSIZE) (drop n buf) s1); try done|].
  - rewrite length_drop. lia.
  - unfold PGSIZE in *. lia.
  - rewrite length_drop. destruct (decide (n = length buf)) as [->|].
    + change UPAGES with 524288 in HnU. unfold PGSIZE, KERNBASE in *. lia.
    + unfold n in *. lia.
  - rewrite length_drop. intros x Hx. apply HT. unfold n in *. lia.
  - intros r s' (j & R' & W' & O' & Hr). exists (Z.of_nat n + j). rewrite length_drop in Hr. split; [done|].
    assert (Hj : 0 <= j <= Z.of_nat (length buf - n)) by lia.
    assert (Hva' : 0 < j \/ (n < length buf)%nat -> PGSIZE * (va / PGSIZE) + PGSIZE = va + Z.of_nat n)
      by (unfold n in *; lia).
    split; [eapply (written_app s s1 s'); [lia|lia|intros; apply Hva'; by left|exact W1|exact W']|].
    split.
    { eapply only_trans; [|exact O']. eapply (only_mono (eq (frame (A (va / PGSIZE))))); [|intros q <-; by exists (va / PGSIZE)].
      intros x Hx. specialize (Hx _ eq_refl). cbn [km_mem s1]. rewrite put_bytes_lookup, Htl.
      destruct (Z.leb_spec (frame (A (va / PGSIZE)) + va mod PGSIZE) x),
        (Z.ltb_spec x (frame (A (va / PGSIZE)) + va mod PGSIZE + Z.of_nat n)); simpl; unfold n in *; done || lia. }
    destruct Hr as [[-> ->]|(-> & Hjl & Hu)]; [left; lia|right]. split; [done|]. split; [lia|].
    rewrite Z.add_assoc, <- Hva' by (right; lia). done.
Qed.

(** * The properties *)

Context (Hkern : KERNBASE < kend).

(** C6. [mappages] maps exactly the pages that [va .. va + size - 1] touches, in order, to
    the physical pages from [pa] on with the permissions given, and changes no other
    entry, whatever tables it has to allocate. It panics only when a page of the range is
    mapped already, and returns -1 only when there are fewer free pages than tables to
    allocate, with a prefix mapped. *)
Theorem mappages_exact pgdir va size pa perm s l T A :
  let n0 := va / PGSIZE in
  let k := Z.to_nat ((va + size - 1) / PGSIZE - va / PGSIZE) in
  0 <= va -> 0 < size -> va + size <= 2 ^ 32 -> pa mod PGSIZE = 0 -> 0 <= pa ->
  pa + PGSIZE * Z.of_nat k < 2 ^ 32 -> 0 <= perm < PGSIZE ->
  aspace s l pgdir T A ->
  wp (remap A n0 k) (mappages pgdir va size pa perm) s
    (fun r s' => exists l' T' j, aspace s' l' pgdir T' (map_range A n0 j pa perm) /\
       takes l T l' T' /\ only (owned pgdir T') (km_mem s) (km_mem s') /\
       (r = 0 /\ j = Z.of_nat k + 1 /\
          Z.of_nat (length l) <= Z.of_nat (length l') + tabs_need T n0 (n0 + Z.of_nat k) \/
        r = -1 /\ 0 <= j <= Z.of_nat k /\ l' = [] /\
          Z.of_nat (length l) < tabs_need T n0 (n0 + Z.of_nat k))).
Proof. intros n0 k. by apply wp_mappages. Qed.

(** [deallocuvm] frees every page mapped between the two sizes, and only those, and
    removes their entries; it skips regions without a table and terminates. Each page
    returns to the free list once, and no page that is still mapped is freed. *)
Theorem deallocuvm_exact pgdir oldsz newsz s l T A :
  0 <= newsz -> newsz < oldsz <= KERNBASE -> aspace s l pgdir T A -> user_ok l pgdir T A ->
  wp never (deallocuvm kend pgdir oldsz newsz) s
    (fun r s' => r = newsz /\
       dealloc_post kend l pgdir T A (pages newsz) (Z.to_nat (pages oldsz - pages newsz)) s s').
Proof. by apply wp_deallocuvm. Qed.

Lemma cleared_id A n k i : (forall j, n <= j < n + k -> A j = 0) -> cleared A n k i = A i.
Proof.
  intros HA. unfold cleared. destruct (Z.leb_spec n i), (Z.ltb_spec i (n + k)); simpl; try done.
  rewrite HA by lia. done.
Qed.

(** What [allocuvm] returns and leaves. *)
Definition alloc_post (l : list Z) (pgdir : Z) (T : gmap Z Z) (A : Z -> Z) (oldsz newsz : Z)
    (s : kmem) (r : Z) (s' : kmem) : Prop :=
  if KERNBASE <=? newsz then r = 0 /\ s' = s
  else if newsz <? oldsz then r = oldsz /\ s' = s
  else r = newsz /\ alloc_ok kend l pgdir T A (pages oldsz) (Z.to_nat (pages newsz - pages oldsz)) s s' \/
    r = 0 /\ Z.of_nat (length l) < grow_need T (pages oldsz) (Z.to_nat (pages newsz - pages oldsz)) /\
    exists l' T', aspace s' l' pgdir T' A /\ user_ok l' pgdir T' A /\ T ⊆ T' /\ keeps l T l' T' [] /\
      only (fun q => owned pgdir T q \/ q ∈ l) (km_mem s) (km_mem s').

Lemma frames_in_none A k : forall n, (forall j, n <= j < n + Z.of_nat k -> A j = 0) -> frames_in A n k = [].
Proof.
  induction k as [|k IH]; intros n HA; [done|]. cbn [frames_in]. rewrite HA by lia. cbn [present app].
  apply IH. intros j Hj. apply HA. lia.
Qed.

Lemma wp_allocuvm pgdir oldsz newsz s l T A :
  0 <= oldsz -> 0 <= newsz -> aspace s l pgdir T A -> user_ok l pgdir T A ->
  (forall i, pages oldsz <= i < pages newsz -> A i = 0) ->
  wp never (allocuvm kend pgdir oldsz newsz) s (alloc_post l pgdir T A oldsz newsz s).
Proof.
  intros H0 H1 R U HA. unfold allocuvm, alloc_post.
  destruct (Z.leb_spec KERNBASE newsz); [by apply wp_ret|].
  destruct (Z.ltb_spec newsz oldsz); [by apply wp_ret|].
  rewrite PGROUNDUP_pages, pages_sub by lia.
  pose proof (pages_mono oldsz newsz ltac:(lia)) as Hpm.
  destruct (decide (oldsz = newsz)) as [->|Hne].
  - rewrite Z.sub_diag. cbn [Z.to_nat allocuvm_loop]. pose proof (pages_bounds newsz).
    rewrite (proj2 (Z.ltb_ge _ _)) by lia. apply wp_ret. left. split; [done|].
    exists l, T, []. split_and!; try done; [intros p; rewrite elem_of_nil; tauto|set_solver|intros p x Hp; set_solver|change (Z.to_nat 0) with O; unfold grow_need; lia].
  - eapply wp_mono; [apply (wp_alloc_loop kend Hkend Hkern pgdir oldsz newsz (Z.to_nat (pages newsz - pages oldsz)));
      try done; try lia|].
    { intros i Hi. apply HA. lia. }
    intros r s' [Hok|(-> & (l' & T' & R' & U' & HT & Hk & O') & Hshort)]; [by left|right]. split; [done|].
    split; [done|].
    rewrite frames_in_none in Hk, O' by (intros j Hj; apply HA; lia).
    assert (Hc : forall i, A i = cleared A (pages oldsz) (Z.of_nat (Z.to_nat (pages newsz - pages oldsz))) i).
    { intros i. symmetry. apply cleared_id. intros j Hj. apply HA. lia. }
    exists l', T'. split_and!; [eapply aspace_ext; [intros i _; apply Hc|done]|
      eapply user_ok_ext; [intros i _; apply Hc|done]|done..].
Qed.

(** C10. [allocuvm] grows an address space by fresh zeroed pages, writable by the user, that
    were free before and that nothing else maps; every other entry and every other page
    in use stays as it was. When there are too few free pages it returns 0 and the entries are what
    they were: each page it had taken is free again or a page table of this space, and
    no page appears from elsewhere. *)
Theorem allocuvm_exact pgdir oldsz newsz s l T A :
  0 <= oldsz -> 0 <= newsz -> aspace s l pgdir T A -> user_ok l pgdir T A ->
  (forall i, pages oldsz <= i < pages newsz -> A i = 0) ->
  wp never (allocuvm kend pgdir oldsz newsz) s (alloc_post l pgdir T A oldsz newsz s).
Proof. by apply wp_allocuvm. Qed.


(** [uva2ka] does not check the result of [walkpgdir]: for an address in a region
    without a page table it dereferences the null pointer. *)
Theorem uva2ka_no_table_faults pgdir va s l T A :
  aspace s l pgdir T A -> 0 <= va < 2 ^ 32 -> T !! (va / PGSIZE / 1024) = None ->
  uva2ka pgdir va s = Fault.
Proof.
  intros R Hva HT. unfold uva2ka, bind.
  assert (H : wp never (walkpgdir pgdir va false) s (fun r s' => r = 0 /\ s' = s)).
  { eapply (wp_walk kend); [exact R|done|done|congruence]. }
  unfold wp in H. destruct (walkpgdir pgdir va false s) as [[r s']| | | |]; try done.
  destruct H as [-> ->]. done.
Qed.

(** An empty directory. *)
Lemma aspace_empty s l pgdir : kmem_rep kend s l -> Forall page_in_memory l -> good pgdir -> (pgdir ∉ l) ->
  (forall x, pgdir <= x < pgdir + PGSIZE -> km_mem s x = 0) -> aspace s l pgdir ∅ (fun _ => 0).
Proof.
  intros Hr Hm Hg Hl Hz. split; try done.
  intros d Hd. rewrite lookup_empty. unfold load32. rewrite !Hz by (unfold PGSIZE; lia). done.
Qed.

Lemma user_ok_empty l pgdir : user_ok l pgdir ∅ (fun _ => 0).
Proof. by split. Qed.
End copy.

(** * Witnesses *)

Definition demo_kend : Z := KERNBASE + 0x400000.
Definition demo_dir : Z := demo_kend.
Definition demo_free : list Z := [demo_kend + 0x3000; demo_kend + 0x2000; demo_kend + 0x1000].

Lemma demo_kend_range : 0 < demo_kend < 2 ^ 32 /\ KERNBASE < demo_kend.
Proof. vm_compute. done. Qed.

(** Three free pages and a directory without tables. *)
Lemma demo_space : exists s, aspace demo_kend s demo_free demo_dir ∅ (fun _ => 0).
Proof.
  destruct demo_kend_range as [Hk _].
  destruct (kfree_push demo_kend Hk (Kmem false 0 (fun _ => 0)) [] (demo_kend + 0x1000))
    as (s1 & _ & R1 & _ & M1); [by split; [|constructor]|constructor|done|apply not_elem_of_nil|].
  destruct (kfree_push demo_kend Hk s1 _ (demo_kend + 0x2000) R1) as (s2 & _ & R2 & _ & M2);
    [by repeat constructor|done|set_solver by done|].
  destruct (kfree_push demo_kend Hk s2 _ (demo_kend + 0x3000) R2) as (s3 & _ & R3 & _ & M3);
    [by repeat constructor|done|set_solver by done|].
  exists s3. apply aspace_empty; [done|by repeat constructor|done| |].
  - unfold demo_free. rewrite !not_elem_of_cons. split_and!; try done. apply not_elem_of_nil.
  - intros x Hx. unfold demo_dir, PGSIZE in *. rewrite M3, M2, M1 by (unfold PGSIZE; lia). done.
Qed.

(** One page mapped at 0x5000: a table is taken from the free list. *)
Lemma mappages_exact_witness : exists s,
  wp (remap (fun _ => 0) 5 0) (mappages demo_dir 0x5000 PGSIZE 0x1000 PTE_UW) s
    (fun r s' => exists l' T' j, aspace demo_kend s' l' demo_dir T' (map_range (fun _ => 0) 5 j 0x1000 PTE_UW) /\
       takes demo_free ∅ l' T' /\ only (owned demo_dir T') (km_mem s) (km_mem s') /\
       (r = 0 /\ j = 1 /\ 3 <= Z.of_nat (length l') + tabs_need ∅ 5 5 \/
        r = -1 /\ 0 <= j <= 0 /\ l' = [] /\ 3 < tabs_need ∅ 5 5)).
Proof.
  destruct demo_space as [s R]. exists s.
  apply (mappages_exact demo_kend (proj1 demo_kend_range) demo_dir 0x5000 PGSIZE 0x1000 PTE_UW s demo_free ∅ (fun _ => 0));
    try exact R; vm_compute; done.
Defined.

Lemma deallocuvm_exact_witness : exists s,
  wp never (deallocuvm demo_kend demo_dir 0x3000 0) s
    (fun r s' => r = 0 /\ dealloc_post demo_kend demo_free demo_dir ∅ (fun _ => 0) (pages 0)
       (Z.to_nat (pages 0x3000 - pages 0)) s s').
Proof.
  destruct demo_space as [s R]. exists s.
  apply (deallocuvm_exact demo_kend (proj1 demo_kend_range) (proj2 demo_kend_range) demo_dir 0x3000 0 s demo_free ∅ (fun _ => 0));
    try exact R; try apply user_ok_empty; vm_compute; done.
Defined.

(** Two pages: with their table they are all that is free. *)
Lemma allocuvm_exact_witness : exists s,
  wp never (allocuvm demo_kend demo_dir 0 0x2000) s
    (alloc_post demo_kend demo_free demo_dir ∅ (fun _ => 0) 0 0x2000 s).
Proof.
  destruct demo_space as [s R]. exists s.
  apply (allocuvm_exact demo_kend (proj1 demo_kend_range) (proj2 demo_kend_range) demo_dir 0 0x2000 s demo_free ∅ (fun _ => 0));
    try exact R; try apply user_ok_empty; done.
Defined.

Lemma uva2ka_no_table_faults_witness : exists s, uva2ka demo_dir 0x5000 s = Fault.
Proof.
  destruct demo_space as [s R]. exists s.
  apply (uva2ka_no_table_faults demo_kend demo_dir 0x5000 s demo_free ∅ (fun _ => 0)); try exact R; done.
Defined.

Definition demo_tab : Z := demo_kend + 0x4000.

Lemma store_pte_ex kend s l pgdir T A n tab v : 0 < kend < 2 ^ 32 -> aspace kend s l pgdir T A ->
  0 <= n < 2 ^ 20 -> T !! (n / 1024) = Some tab -> 0 <= v < 2 ^ 32 ->
  exists s', aspace kend s' l pgdir T (upd A n v).
Proof.
  intros Hk R Hn HT Hv.
  assert (H : wp never (store (slot tab n) v) s (fun _ s' => aspace kend s' l pgdir T (upd A n v))).
  { eapply (wp_store_pte kend Hk); [exact R|done|exact HT|done|auto]. }
  unfold wp in H. destruct (store _ _ s) as [[u s']| | | |]; try done. eauto.
Qed.

(** A space with one table and two mapped pages. *)
Lemma demo_grown : exists s l T A, aspace demo_kend s l demo_dir T A /\ user_ok demo_kend l demo_dir T A /\
  (exists tab, T !! 0 = Some tab) /\ user_page (A 0) = true /\ user_page (A 1) = true.
Proof.
  pose proof (proj1 demo_kend_range) as Hk.
  assert (R0 : aspace demo_kend (Kmem false 0 (fun _ => 0)) [] demo_dir ∅ (fun _ => 0)).
  { apply aspace_empty; try done; [by split; [|constructor]|apply not_elem_of_nil]. }
  pose proof (aspace_new_table demo_kend Hk _ [] demo_dir ∅ (fun _ => 0) demo_tab 0 _ R0 eq_refl) as R1.
  destruct (store_pte_ex demo_kend _ _ _ _ _ 0 demo_tab (entry (V2P (demo_kend + 0x1000)) PTE_UW) Hk (R1
    ltac:(done) ltac:(apply not_elem_of_nil) ltac:(by intros [?|[d Hd]]) ltac:(done) ltac:(done)))
    as [s2 R2]; [done|done|done|].
  destruct (store_pte_ex demo_kend _ _ _ _ _ 1 demo_tab (entry (V2P (demo_kend + 0x2000)) PTE_UW) Hk R2)
    as [s3 R3]; [done|done|done|].
  exists s3, [], (<[0 := demo_tab]> ∅), (upd (upd (fun _ => 0) 0 (entry (V2P (demo_kend + 0x1000)) PTE_UW)) 1
    (entry (V2P (demo_kend + 0x2000)) PTE_UW)).
  assert (Hno : forall p, p <> demo_dir -> p <> demo_tab -> ~ owned demo_dir (<[0 := demo_tab]> ∅) p).
  { intros p H1 H2 [?|[d Hd]]; [done|]. apply lookup_insert_Some in Hd as [[_ Hd]|[_ Hd]]; [by subst|].
    by rewrite lookup_empty in Hd. }
  split; [exact R3|]. split; [|split; [eexists; reflexivity|done]].
  apply user_ok_map; [done|done|apply not_elem_of_nil|by apply Hno| |].
  - intros i Hi Hp. unfold upd in *. destruct (i =? 0); [|done]. by vm_compute.
  - apply user_ok_map; [done|done|apply not_elem_of_nil|by apply Hno|done|by split].
Qed.

