(* ===== verification/VmSpace.v ===== *)
(** Address spaces apart from the free list, so that several can share the memory, and the
    end of one: [freevm] of [vm.c]. *)

From stdpp Require Import gmap.
From S2P Require Import Prelude CString Mmu Kalloc Vm VmSpec VmThm VmCopy.

(** The pages of an address space: its directory, its tables and its user pages. *)
Definition holds (pgdir : Z) (T : gmap Z Z) (A : Z -> Z) (p : Z) : Prop :=
  owned pgdir T p \/ user_frame A p.

Lemma holds_dir pgdir T A : holds pgdir T A pgdir.
Proof. left. by left. Qed.

Section space.
Context (kend : Z) (Hkend : 0 < kend < 2 ^ 32).
Local Abbreviation aspace := (aspace kend).
Local Abbreviation good := (good kend).
Local Abbreviation user_ok := (user_ok kend).

(** The free pages. *)
Definition free_pages (s : kmem) (l : list Z) : Prop := kmem_rep kend s l /\ Forall page_in_memory l.

Record uspace (m : mem) (pgdir : Z) (T : gmap Z Z) (A : Z -> Z) : Prop := {
  us_dir : good pgdir;
  us_pde : forall d, 0 <= d < 1024 ->
    match T !! d with
    | Some tab => load32 m (pgdir + 4 * d) = V2P tab + 7
    | None => present (load32 m (pgdir + 4 * d)) = false
    end;
  us_table : forall d tab, T !! d = Some tab -> 0 <= d < 1024 /\ good tab /\ tab <> pgdir;
  us_tinj : forall d d' tab, T !! d = Some tab -> T !! d' = Some tab -> d = d';
  us_pte : forall n, 0 <= n < 2 ^ 20 ->
    A n = match T !! (n / 1024) with
          | Some tab => load32 m (tab + 4 * (n mod 1024))
          | None => 0
          end;
  us_frame : forall n, 0 <= n < UPAGES -> present (A n) = true ->
    0 <= A n < 2 ^ 32 /\ good (frame (A n)) /\ ~ owned pgdir T (frame (A n));
  us_finj : forall n n', 0 <= n < UPAGES -> 0 <= n' < UPAGES ->
    present (A n) = true -> present (A n') = true -> frame (A n) = frame (A n') -> n = n';
}.

Lemma uspace_of s l pgdir T A : aspace s l pgdir T A -> user_ok l pgdir T A ->
  free_pages s l /\ uspace (km_mem s) pgdir T A /\ forall p, holds pgdir T A p -> p ∉ l.
Proof.
  intros R U. destruct R, U. split; [done|]. split.
  - split; try done.
    + intros d tab Hd. destruct (as_tab d tab Hd) as (? & ? & ? & _). done.
    + intros n Hn Hp. destruct (uo_frame n Hn Hp) as (? & ? & _ & ?). done.
  - intros p [[->|[d Hd]]|(n & Hn & Hp & ->)]; [done|by apply (as_tab _ _ Hd)|by apply uo_frame].
Qed.

Lemma uspace_join s l pgdir T A : free_pages s l -> uspace (km_mem s) pgdir T A ->
  (forall p, holds pgdir T A p -> p ∉ l) -> aspace s l pgdir T A /\ user_ok l pgdir T A.
Proof.
  intros [F M] U H. destruct U. split; split; try done.
  - apply H, holds_dir.
  - intros d tab Hd. destruct (us_table0 d tab Hd) as (? & ? & ?). split_and!; try done; [lia..|].
    apply H. left. right. eauto.
  - intros n Hn Hp. destruct (us_frame0 n Hn Hp) as (? & ? & ?). split_and!; try done; [lia..|].
    apply H. right. by exists n.
Qed.

Lemma holds_good m pgdir T A p : uspace m pgdir T A -> holds pgdir T A p -> good p.
Proof.
  intros U [[->|[d Hd]]|(n & Hn & Hp & ->)]; [apply U|by apply (us_table _ _ _ _ U _ _ Hd)|by apply U].
Qed.

(** Writes to other pages keep a space and what its program sees. *)
Lemma uspace_only P m m' pgdir T A : only P m m' -> (forall p, P p -> good p /\ ~ holds pgdir T A p) ->
  uspace m pgdir T A -> uspace m' pgdir T A.
Proof.
  intros Ho HP U. pose proof U as [].
  assert (HP1 : forall q, holds pgdir T A q -> forall p, P p -> good p /\ p <> q).
  { intros q Hq p Hp. destruct (HP p Hp) as [? Hn]. split; [done|]. by intros ->. }
  split; try done.
  - intros d Hd. specialize (us_pde0 d Hd).
    by rewrite (load32_only kend P m m' pgdir) by (done || (unfold PGSIZE; lia) || apply HP1, holds_dir).
  - intros n Hn. rewrite us_pte0 by done. destruct (T !! (n / 1024)) as [tab|] eqn:E; [|done].
    destruct (us_table0 _ _ E) as (_ & Hg & _). pose proof (Z.mod_pos_bound n 1024).
    symmetry. apply (load32_only kend P _ _ tab); try done; try (unfold PGSIZE; lia).
    apply HP1. left. right. eauto.
Qed.

Lemma ubyte_only P s s' pgdir T A x : only P (km_mem s) (km_mem s') ->
  (forall p, P p -> good p /\ ~ user_frame A p) -> uspace (km_mem s) pgdir T A ->
  0 <= x < KERNBASE -> ubyte s' A x = ubyte s A x.
Proof.
  intros Ho HP U Hx. unfold ubyte. destruct (user_page (A (x / PGSIZE))) eqn:Eu; [|done]. f_equal.
  assert (Hn : 0 <= x / PGSIZE < UPAGES).
  { change UPAGES with 524288. unfold PGSIZE, KERNBASE in *.
    split; [apply Z.div_pos; lia|apply Z.div_lt_upper_bound; lia]. }
  assert (Hp : present (A (x / PGSIZE)) = true) by (unfold user_page in Eu; by apply andb_true_iff in Eu as [? _]).
  destruct (us_frame _ _ _ _ U _ Hn Hp) as (_ & Hg & _). pose proof (Z.mod_pos_bound x PGSIZE ltac:(done)).
  apply Ho. intros p Pp. destruct (HP p Pp) as [Hgp Hnp].
  assert (p <> frame (A (x / PGSIZE))) as Hne by (intros ->; apply Hnp; by exists (x / PGSIZE)).
  destruct (good_apart kend p _ Hgp Hg Hne); lia.
Qed.

Lemma free_pages_good s l p : free_pages s l -> p ∈ l -> good p.
Proof. intros [F M]. by apply (free_good kend Hkend s). Qed.

(** [kfree] of a page that is not free. *)
Lemma wp_kfree_page may s l v (Q : unit -> kmem -> Prop) : free_pages s l -> good v -> v ∉ l ->
  (forall s', free_pages s' (v :: l) -> only (eq v) (km_mem s) (km_mem s') -> Q tt s') ->
  wp may (kfree kend v) s Q.
Proof.
  intros [F M] Hg Hl HQ.
  destruct (kfree_push kend Hkend s l v F M (proj1 Hg) Hl) as (s' & Hk & Hrep & _ & Hm).
  unfold wp. rewrite Hk. apply HQ.
  - split; [done|]. constructor; [apply Hg|done].
  - intros x Hx. apply Hm. specialize (Hx v eq_refl). lia.
Qed.

(** * Freeing the tables *)

(** After [i] entries of the directory: the tables found there are free. *)
Definition tables_freed (s0 : kmem) (l : list Z) (pgdir : Z) (T : gmap Z Z) (i : nat) (s : kmem) : Prop :=
  exists l', free_pages s l' /\
    (forall p, p ∈ l' <-> p ∈ l \/ exists d, d < Z.of_nat i /\ T !! d = Some p) /\
    only (fun q => exists d, T !! d = Some q) (km_mem s0) (km_mem s).

Lemma tables_freed_pde s0 l pgdir T A i s d : uspace (km_mem s0) pgdir T A ->
  tables_freed s0 l pgdir T i s -> 0 <= d < 1024 ->
  load32 (km_mem s) (pgdir + 4 * d) = load32 (km_mem s0) (pgdir + 4 * d).
Proof.
  intros U (l' & _ & _ & O) Hd. apply (load32_only kend _ _ _ pgdir _ O); [apply U|lia|unfold PGSIZE; lia|].
  intros p [e He]. by destruct (us_table _ _ _ _ U _ _ He) as (_ & ? & ?).
Qed.

Lemma wp_free_table s0 l pgdir T A i s : uspace (km_mem s0) pgdir T A ->
  (forall p, owned pgdir T p -> p ∉ l) -> (i < 1024)%nat ->
  tables_freed s0 l pgdir T i s ->
  wp never (let* e := load (pgdir + 4 * Z.of_nat i) in
            if negb (Z.land e PTE_P =? 0) then kfree kend (P2V (PTE_ADDR e)) else ret tt) s
    (fun _ s' => tables_freed s0 l pgdir T (S i) s').
Proof.
  intros U Hl Hi TF. wbind. apply wp_load; [apply (pde_ne0 kend); [apply U|lia]|].
  rewrite (tables_freed_pde s0 l pgdir T A i s) by (done || lia). fold (present (load32 (km_mem s0) (pgdir + 4 * Z.of_nat i))).
  pose proof (us_pde _ _ _ _ U (Z.of_nat i) ltac:(lia)) as Hpde.
  destruct TF as (l' & F & Hin & O). destruct (T !! Z.of_nat i) as [tab|] eqn:E.
  - destruct (us_table _ _ _ _ U _ _ E) as (_ & Hg & _).
    rewrite Hpde. destruct (pde_present kend tab Hg) as [-> ->].
    apply (wp_kfree_page _ s l' tab); [done|done| |].
    + rewrite Hin. intros [Hx|(d & Hd & Hx)]; [apply (Hl tab); [right; eauto|done]|].
      pose proof (us_tinj _ _ _ _ U _ _ _ Hx E). lia.
    + intros s' F' O'. exists (tab :: l'). split; [done|]. split.
      * intros p. rewrite elem_of_cons, Hin. split.
        -- intros [->|[?|(d & ? & ?)]]; [right; exists (Z.of_nat i); split; [lia|done]|by left|right; exists d; split; [lia|done]].
        -- intros [?|(d & Hd & Hx)]; [by right; left|]. destruct (decide (d = Z.of_nat i)) as [->|]; [left; congruence|].
           right. right. exists d. split; [lia|done].
      * eapply only_trans; [exact O|]. eapply only_mono; [exact O'|]. intros q <-. eauto.
  - rewrite Hpde. apply wp_ret. exists l'. split; [done|]. split; [|done]. intros p. rewrite Hin.
    split; (intros [?|(d & Hd & Hx)]; [by left|]); right; exists d; (split; [|done]); [lia|].
    destruct (decide (d = Z.of_nat i)) as [->|]; [congruence|lia].
Qed.

Context (Hkern : KERNBASE < kend).

Lemma cleared_user A n : 0 <= n < UPAGES -> present (cleared A 0 UPAGES n) = false.
Proof.
  intros Hn. unfold cleared. destruct (present (A n)) eqn:E; rewrite ?andb_true_r, ?andb_false_r; [|done].
  destruct (Z.leb_spec 0 n), (Z.ltb_spec n (0 + UPAGES)); simpl; done || lia.
Qed.

Lemma wp_freevm pgdir s l T A : aspace s l pgdir T A -> user_ok l pgdir T A ->
  wp never (freevm kend pgdir) s (fun _ s' => exists l', free_pages s' l' /\
    (forall p, p ∈ l' <-> p ∈ l \/ holds pgdir T A p) /\
    only (holds pgdir T A) (km_mem s) (km_mem s')).
Proof.
  intros R U. pose proof (as_dir _ _ _ _ _ _ R) as Hg. destruct (good_range kend _ Hg) as (Hr & _).
  unfold freevm. rewrite (proj2 (Z.eqb_neq _ _)) by (unfold KERNBASE in Hr; lia). wbind.
  eapply wp_mono; [apply (wp_deallocuvm kend Hkend Hkern pgdir KERNBASE 0 s l T A); try done|].
  change (pages 0) with 0. change (pages KERNBASE - 0) with UPAGES.
  intros r s1 [_ (R1 & U1 & O1)]. rewrite Z2Nat.id in R1, U1 by done.
  destruct (uspace_of _ _ _ _ _ R1 U1) as (F1 & S1 & H1).
  set (l1 := reverse (frames_in A 0 (Z.to_nat UPAGES)) ++ l) in *.
  assert (Hl1 : forall p, p ∈ l1 <-> p ∈ l \/ user_frame A p).
  { intros p. unfold l1. rewrite elem_of_dealloc, frames_in_elem, Z2Nat.id by done. rewrite Z.add_0_l. unfold user_frame. tauto. }
  assert (O1' : only (holds pgdir T A) (km_mem s) (km_mem s1)).
  { eapply only_mono; [exact O1|]. cbn beta. intros q [?|Hq]; [by left|]. right.
    apply frames_in_elem in Hq as (n & Hn & Hq). rewrite Z2Nat.id in Hn by done. by exists n. }
  clear O1 R1 U1. clearbody l1.
  wbind. eapply wp_mono; [apply (wp_for_up never _ (fun i s => tables_freed s1 l1 pgdir T i s))|].
  - intros i s2 Hi HI. eapply wp_free_table; [exact S1|intros p Hp; apply H1; by left|unfold NPDENTRIES in Hi; lia|done].
  - exists l1. split; [done|]. split; [|apply only_refl]. intros p. split; [by left|].
    intros [?|(d & Hd & Hx)]; [done|]. pose proof (us_table _ _ _ _ S1 _ _ Hx). lia.
  - intros u s2 (l2 & F2 & Hl2 & O2). apply (wp_kfree_page _ s2 l2 pgdir); [done|done| |].
    + rewrite Hl2. intros [Hx|(d & _ & Hx)]; [by apply (H1 pgdir); [apply holds_dir|]|].
      by destruct (us_table _ _ _ _ S1 _ _ Hx) as (_ & _ & ?).
    + intros s3 F3 O3. exists (pgdir :: l2). split; [done|]. split.
      * intros p. rewrite elem_of_cons, Hl2, Hl1. unfold holds, owned.
        split; [intros [?|[[?|?]|(d & _ & ?)]]; eauto|].
        intros [?|[[?|[d Hd]]|?]]; [tauto|tauto| |tauto]. right. right. exists d. split; [|done].
        destruct (us_table _ _ _ _ S1 _ _ Hd) as (? & _). rewrite Nat.add_0_l, Z2Nat.id by done. unfold NPDENTRIES. lia.
      * eapply only_trans; [|eapply only_trans]; eapply only_mono; [exact O1'|done|exact O2| |exact O3|]; cbn beta.
        -- intros q ?. left. by right.
        -- intros q <-. apply holds_dir.
Qed.
End space.
