(* ===== verification/VmSetup.v ===== *)
(** Making address spaces: [setupkvm] of [vm.c], with the accounting of pages that all the
    operations on a space under construction keep. *)

From stdpp Require Import gmap.
From S2P Require Import Prelude CString Mmu Kalloc Vm VmSpec VmThm VmCopy VmSpace.

(** The table of a kernel mapping. *)
Definition kmap_size (k : kmap) : Z := u32 (phys_end k - phys_start k).
Definition kmap_first (k : kmap) : Z := virt k / PGSIZE.
Definition kmap_count (k : kmap) : Z := (virt k + kmap_size k - 1) / PGSIZE - virt k / PGSIZE + 1.
Definition add_kmap (A : Z -> Z) (k : kmap) : Z -> Z :=
  map_range A (kmap_first k) (kmap_count k) (phys_start k) (k_perm k).

(** The entries of the kernel, shared by all spaces. *)
Definition kernel_map (data : Z) : Z -> Z := foldl add_kmap (fun _ => 0) (kmaps data).

Section setup.
Context (kend data : Z) (Hkend : 0 < kend < 2 ^ 32) (Hkern : KERNBASE < kend).
Local Abbreviation aspace := (aspace kend).
Local Abbreviation good := (good kend).
Local Abbreviation user_ok := (user_ok kend).
Local Abbreviation uspace := (uspace kend).
Local Abbreviation free_pages := (free_pages kend).

(** The space is made of pages that were free in [s0], where [P] were the free pages; [l]
    are still free. *)
Record space_in (P : list Z) (s0 s : kmem) (l : list Z) (pgdir : Z) (T : gmap Z Z) (A : Z -> Z) : Prop := {
  si_space : aspace s l pgdir T A;
  si_user : user_ok l pgdir T A;
  si_pages : forall p, p ∈ P <-> p ∈ l \/ holds pgdir T A p;
  si_only : only (fun q => q ∈ P) (km_mem s0) (km_mem s);
}.

(** All of them are free again. *)
Definition freed (P : list Z) (s0 s : kmem) : Prop :=
  exists l, free_pages s l /\ (forall p, p ∈ l <-> p ∈ P) /\ only (fun q => q ∈ P) (km_mem s0) (km_mem s).

Lemma freed_refl P s : free_pages s P -> freed P s s.
Proof. intros F. exists P. split; [done|]. split; [done|apply only_refl]. Qed.

Lemma wp_freevm_in P s0 s l pgdir T A : space_in P s0 s l pgdir T A ->
  wp never (freevm kend pgdir) s (fun _ s' => freed P s0 s').
Proof.
  intros [R U HP O]. eapply wp_mono; [by apply (wp_freevm kend Hkend Hkern pgdir s l T A)|].
  intros _ s' (l' & F & Hl & O'). exists l'. split; [done|]. split.
  - intros p. rewrite Hl. symmetry. apply HP.
  - eapply only_trans; [exact O|]. eapply only_mono; [exact O'|]. intros q Hq. apply HP. by right.
Qed.

Lemma holds_ext pgdir T A A' p : (forall n, 0 <= n < UPAGES -> A' n = A n) ->
  holds pgdir T A' p <-> holds pgdir T A p.
Proof.
  intros HA. unfold holds, user_frame. apply or_iff_compat_l.
  split; intros (n & Hn & Hx); exists n; (split; [done|]); specialize (HA n Hn); congruence.
Qed.

(** A change outside the user part, with tables from the free list. *)
Lemma space_in_takes P s0 s s' l l' pgdir T T' A A' :
  space_in P s0 s l pgdir T A -> aspace s' l' pgdir T' A' -> takes l T l' T' -> only (owned pgdir T') (km_mem s) (km_mem s') ->
  (forall n, 0 <= n < UPAGES -> A' n = A n) -> space_in P s0 s' l' pgdir T' A'.
Proof.
  intros [R U HP O] R' Htk O' HA. split; [done| | |].
  - eapply user_ok_ext; [exact HA|]; by eapply user_ok_takes.
  - intros p. rewrite HP, (holds_ext _ _ _ _ _ HA). unfold holds, owned.
    pose proof (keeps_takes _ _ _ _ Htk p) as Hk. rewrite elem_of_nil in Hk. tauto.
  - eapply only_trans; [exact O|]. eapply only_mono; [exact O'|]. intros q Hq. apply HP.
    destruct (takes_owned_inv _ _ _ _ _ _ Htk Hq); [right; by left|by left].
Qed.

(** * The kernel part *)

Definition kmap_ok (k : kmap) : Prop :=
  KERNBASE <= virt k /\ 0 < kmap_size k /\ virt k + kmap_size k <= 2 ^ 32 /\
  phys_start k mod PGSIZE = 0 /\ 0 <= phys_start k /\
  phys_start k + PGSIZE * (kmap_count k - 1) < 2 ^ 32 /\ 0 <= k_perm k < PGSIZE.

(** The mappings go to pages that are not mapped. *)
Fixpoint kmaps_fit (A : Z -> Z) (ks : list kmap) : Prop :=
  match ks with
  | [] => True
  | k :: ks =>
      kmap_ok k /\
      (forall n, kmap_first k <= n < kmap_first k + kmap_count k -> present (A n) = false) /\
      kmaps_fit (add_kmap A k) ks
  end.

Lemma map_range_user A k j n : kmap_ok k -> 0 <= n < UPAGES ->
  map_range A (kmap_first k) j (phys_start k) (k_perm k) n = A n.
Proof.
  intros (Hv & _) Hn. assert (UPAGES <= kmap_first k) by (unfold kmap_first, UPAGES; apply Z.div_le_mono; [done|lia]).
  unfold map_range. destruct (Z.leb_spec (kmap_first k) n); [lia|done].
Qed.

(** The tables for the mappings, at most. *)
Definition kmap_tabs (k : kmap) : Z := (kmap_first k + kmap_count k - 1) / 1024 - kmap_first k / 1024 + 1.
Fixpoint kmaps_tabs (ks : list kmap) : Z :=
  match ks with [] => 0 | k :: ks => kmap_tabs k + kmaps_tabs ks end.

Lemma kmaps_tabs_pos A ks : kmaps_fit A ks -> 0 <= kmaps_tabs ks.
Proof.
  revert A. induction ks as [|k ks IH]; intros A Hf; cbn [kmaps_tabs]; [done|].
  destruct Hf as ((_ & Hs & _) & _ & Hf). specialize (IH _ Hf). unfold kmap_tabs.
  assert (virt k / PGSIZE <= (virt k + kmap_size k - 1) / PGSIZE) by (apply Z.div_le_mono; [done|lia]).
  pose proof (Z.div_le_mono (kmap_first k) (kmap_first k + kmap_count k - 1) 1024 ltac:(done)
    ltac:(unfold kmap_count; lia)). lia.
Qed.

Lemma wp_setupkvm_loop P s0 pgdir ks : forall s l T A, space_in P s0 s l pgdir T A -> pgdir <> 0 ->
  kmaps_fit A ks ->
  wp never (setupkvm_loop kend pgdir ks) s (fun r s' =>
    r = 0 /\ freed P s0 s' /\ Z.of_nat (length l) < kmaps_tabs ks \/
    r = pgdir /\ exists l' T', space_in P s0 s' l' pgdir T' (foldl add_kmap A ks) /\
      Z.of_nat (length l) <= Z.of_nat (length l') + kmaps_tabs ks).
Proof.
  induction ks as [|k ks IH]; intros s l T A Sp Hne Hfit; cbn [setupkvm_loop foldl kmaps_tabs].
  { apply wp_ret. right. split; [done|]. exists l, T. split; [done|lia]. }
  destruct Hfit as (Hok & Hnp & Hfit). pose proof Sp as [R _ _ _]. wbind.
  pose proof Hok as (Hv & Hsz & Hlim & Hal & Hpa & Hpl & Hperm). fold (kmap_size k).
  assert (Hc : Z.of_nat (Z.to_nat ((virt k + kmap_size k - 1) / PGSIZE - virt k / PGSIZE)) = kmap_count k - 1).
  { assert (virt k / PGSIZE <= (virt k + kmap_size k - 1) / PGSIZE) by (apply Z.div_le_mono; [done|lia]).
    unfold kmap_count. lia. }
  assert (Htabs : tabs_need T (kmap_first k) (kmap_first k + (kmap_count k - 1)) <= kmap_tabs k).
  { unfold tabs_need, kmap_tabs. pose proof (no_table_range T (kmap_first k)). rewrite Z.add_sub_assoc. lia. }
  pose proof (kmaps_tabs_pos _ _ Hfit).
  pose proof (wp_mappages kend Hkend pgdir (virt k) (kmap_size k) (phys_start k) (k_perm k) s l T A) as H'.
  cbv zeta in H'. rewrite Hc in H'. fold (kmap_first k) in H'.
  eapply wp_weaken; [|eapply wp_mono; [apply H'; try done; unfold KERNBASE in Hv; lia|]].
  - intros o (_ & n & Hn & Hp). fold (kmap_first k) in Hc. rewrite Hc in Hn. rewrite Hnp in Hp by lia. done.
  - intros r s' (l' & T' & j & R' & Htk & O' & Hr).
    assert (Sp' : space_in P s0 s' l' pgdir T' (map_range A (kmap_first k) j (phys_start k) (k_perm k))).
    { eapply space_in_takes; [exact Sp|exact R'|done|done|]. intros n Hn. by apply map_range_user. }
    destruct Hr as [(-> & -> & Hlen)|(-> & _ & _ & Hlen)].
    + change (0 <? 0) with false. cbv iota.
      replace (kmap_count k - 1 + 1) with (kmap_count k) in Sp' by lia.
      eapply wp_mono; [by eapply IH|]. intros r s2 [(-> & Hf & ?)|(-> & l2 & T2 & Sp2 & ?)]; [left|right].
      * split_and!; done || lia.
      * split; [done|]. exists l2, T2. split; [done|lia].
    + change (-1 <? 0) with true. cbv iota. wbind.
      eapply wp_mono; [by eapply wp_freevm_in|]. intros u s2 F. apply wp_ret. left. split_and!; done || lia.
Qed.

(** [data] of kernel.ld: a page boundary after the text of the kernel. *)
Context (Hdata : KERNLINK < data < KERNBASE + PHYSTOP) (Hdatap : data mod PGSIZE = 0).

Lemma add_kmap_out A k n : n < kmap_first k \/ kmap_first k + kmap_count k <= n -> add_kmap A k n = A n.
Proof.
  intros Hn. unfold add_kmap, map_range.
  destruct (Z.leb_spec (kmap_first k) n), (Z.ltb_spec n (kmap_first k + kmap_count k)); simpl; done || lia.
Qed.

Local Abbreviation k_io := (Kmap KERNBASE 0 EXTMEM PTE_W).
Local Abbreviation k_text := (Kmap KERNLINK (V2P KERNLINK) (V2P data) 0).
Local Abbreviation k_data := (Kmap data (V2P data) PHYSTOP PTE_W).
Local Abbreviation k_dev := (Kmap DEVSPACE DEVSPACE 0 PTE_W).

Lemma data_pages : exists q, data = PGSIZE * q /\ V2P data = data - KERNBASE /\ 524544 < q < 581632 /\
  kmap_size k_text = data - KERNLINK /\ kmap_size k_data = KERNBASE + PHYSTOP - data.
Proof.
  assert (Hd : V2P data = data - KERNBASE) by
    (unfold V2P, KERNLINK, EXTMEM, KERNBASE, PHYSTOP in *; apply u32_small; lia).
  exists (data / PGSIZE). pose proof (Z.div_mod data PGSIZE ltac:(done)).
  unfold kmap_size. cbn [phys_end phys_start]. rewrite Hd. change (V2P KERNLINK) with EXTMEM.
  unfold KERNLINK, EXTMEM, KERNBASE, PHYSTOP, PGSIZE in *. rewrite !u32_small by lia. lia.
Qed.

(** The pages of the mappings of the text and of the data. *)
Lemma kmap_pages q : data = PGSIZE * q -> 524544 < q < 581632 ->
  kmap_size k_text = data - KERNLINK -> kmap_size k_data = KERNBASE + PHYSTOP - data ->
  kmap_count k_text = q - 524544 /\ kmap_first k_data = q /\ kmap_count k_data = 581632 - q.
Proof.
  intros Hq Hr H2 H3. unfold kmap_count, kmap_first. rewrite H2, H3. cbn [virt].
  replace (KERNLINK + (data - KERNLINK) - 1) with ((q - 1) * PGSIZE + (PGSIZE - 1)) by lia.
  replace (data + (KERNBASE + PHYSTOP - data) - 1) with (KERNBASE + PHYSTOP - 1) by lia.
  rewrite Z.div_add_l, (Z.div_small (PGSIZE - 1)), Hq, page_div by done.
  change (KERNLINK / PGSIZE) with 524544. change ((KERNBASE + PHYSTOP - 1) / PGSIZE) with 581631. lia.
Qed.

Lemma kmaps_ok : kmaps_fit (fun _ => 0) (kmaps data).
Proof.
  destruct data_pages as (q & Hq & Hd & Hr & H2 & H3). destruct (kmap_pages q Hq Hr H2 H3) as (C2 & F3 & C3).
  assert (F1 : kmap_first k_io = 524288) by done. assert (C1 : kmap_count k_io = 256) by done.
  assert (F2 : kmap_first k_text = 524544) by done. assert (F4 : kmap_first k_dev = 1040384) by done.
  cbn [kmaps kmaps_fit]. split_and!; try done.
  - unfold kmap_ok. rewrite H2, C2. cbn [virt phys_start k_perm]. change (V2P KERNLINK) with EXTMEM.
    unfold KERNLINK, EXTMEM, KERNBASE, PHYSTOP, PGSIZE in *. split_and!; done || lia.
  - intros n Hn. by rewrite add_kmap_out by (right; lia).
  - unfold kmap_ok. rewrite H3, C3. cbn [virt phys_start k_perm]. rewrite Hd, Hq.
    unfold KERNLINK, EXTMEM, KERNBASE, PHYSTOP, PGSIZE in *. split_and!; try done; try lia.
    replace (4096 * q - 2147483648) with ((q - 524288) * 4096) by lia. by apply Z.mod_mul.
  - intros n Hn. by rewrite !add_kmap_out by (right; lia).
  - intros n Hn. by rewrite !add_kmap_out by (right; lia).
Qed.

(** The user part is empty. *)
Lemma kernel_map_user n : 0 <= n < UPAGES -> kernel_map data n = 0.
Proof.
  intros Hn. pose proof kmaps_ok as H. unfold kernel_map.
  assert (HA : forall ks A, kmaps_fit A ks -> A n = 0 -> foldl add_kmap A ks n = 0).
  { induction ks as [|k ks IH]; intros A Hf H0; [done|]. destruct Hf as (Hk & _ & Hf). cbn [foldl].
    apply IH; [done|]. unfold add_kmap. by rewrite map_range_user. }
  by apply HA.
Qed.

(** The directory and the tables of the kernel part, at most. *)
Definition KVM_PAGES : Z := 67.

Lemma kmaps_data_tabs : kmaps_tabs (kmaps data) <= KVM_PAGES - 1.
Proof.
  destruct data_pages as (q & Hq & Hd & Hr & H2 & H3). destruct (kmap_pages q Hq Hr H2 H3) as (C2 & F3 & C3).
  cbn [kmaps kmaps_tabs]. unfold kmap_tabs. rewrite C2, F3, C3.
  change (kmap_first k_io) with 524288. change (kmap_count k_io) with 256.
  change (kmap_first k_text) with 524544. change (kmap_first k_dev) with 1040384. change (kmap_count k_dev) with 8192.
  replace (524544 + (q - 524544) - 1) with (q - 1) by lia. replace (q + (581632 - q) - 1) with 581631 by lia.
  pose proof (Z.div_le_mono (q - 1) q 1024 ltac:(done) ltac:(lia)).
  change ((524288 + 256 - 1) / 1024) with 512. change (524288 / 1024) with 512. change (524544 / 1024) with 512.
  change (581631 / 1024) with 567. change ((1040384 + 8192 - 1) / 1024) with 1023.
  change (1040384 / 1024) with 1016. unfold KVM_PAGES. lia.
Qed.

Lemma wp_setupkvm P s : free_pages s P ->
  wp never (setupkvm kend data) s (fun r s' =>
    r = 0 /\ freed P s s' /\ Z.of_nat (length P) < KVM_PAGES \/
    r <> 0 /\ exists l T, space_in P s s' l r T (kernel_map data) /\
      Z.of_nat (length P) <= Z.of_nat (length l) + KVM_PAGES).
Proof.
  intros F. unfold setupkvm. wbind. destruct P as [|p P].
  { unfold wp at 1, kalloc. destruct F as [[Hf Hn] M]. cbn in Hf. rewrite Hf, Z.eqb_refl. apply wp_ret.
    left. split; [done|]. split; [|done]. apply freed_refl. by split. }
  pose proof (free_pages_good kend Hkend _ _ p F ltac:(by left)) as Hg.
  destruct F as [F M]. destruct (kalloc_pop kend Hkend s p P F) as (s1 & Hk & F1 & Hne & Hpl & Hm).
  apply Forall_cons in M as [_ M]. unfold wp at 1. rewrite Hk, (proj2 (Z.eqb_neq _ _)) by done. wbind.
  unfold wp at 1, mem_set. rewrite (proj2 (Z.eqb_neq _ _)) by done.
  change (DEVSPACE <? P2V PHYSTOP) with false. cbv iota. set (s2 := Kmem _ _ _).
  pose proof (memset_page_only kend (km_mem s1) p Hg) as O.
  assert (R : aspace s2 P p ∅ (fun _ => 0)).
  { apply aspace_empty; try done.
    - apply (kmem_rep_only kend Hkend (eq p)); [exact O|by intros q <-|done].
    - intros x Hx. cbn [km_mem s2]. rewrite (memset_page kend) by done.
      destruct (Z.leb_spec p x), (Z.ltb_spec x (p + PGSIZE)); simpl; done || lia. }
  pose proof kmaps_data_tabs.
  eapply wp_mono; [apply (wp_setupkvm_loop (p :: P) s p (kmaps data) s2 P ∅ (fun _ => 0)); [|done|exact kmaps_ok]|].
  - split; [done|apply user_ok_empty| |].
    + intros q. rewrite elem_of_cons. unfold holds, owned. split; [tauto|].
      intros [?|[[?|[d Hd]]|(n & _ & Hp & _)]]; [by right|by left|by rewrite lookup_empty in Hd|done].
    + eapply only_mono; [rewrite <- Hm; exact O|]. intros q <-. by left.
  - intros r s' [(-> & Hf & ?)|(-> & l' & T' & Sp & ?)]; [left|right]; cbn [length].
    + split_and!; done || lia.
    + split; [done|]. exists l', T'. split; [done|]. lia.
Qed.
End setup.
