(* ===== verification/VmLoad.v ===== *)
(** Filling an address space under construction: what the program will see after
    [allocuvm], [loaduvm], [clearpteu] and [copyout] of [vm.c]. *)

From stdpp Require Import gmap.
From S2P Require Import Prelude CString Mmu Kalloc Vm VmSpec VmThm VmCopy VmSpace VmSetup.

(** The program sees the bytes [img] up to the last page of [sz]; above, the entries are
    those of [K]. *)
Definition sees (K : Z -> Z) (s : kmem) (A : Z -> Z) (sz : Z) (img : Z -> Z) : Prop :=
  (forall x, 0 <= x < PGSIZE * pages sz -> ubyte s A x = Some (img x)) /\
  (forall n, pages sz <= n < 2 ^ 20 -> A n = K n).

Lemma page_of x N : 0 <= x < PGSIZE * N -> 0 <= x / PGSIZE < N.
Proof. intros Hx. unfold PGSIZE in *. split; [apply Z.div_pos; lia|apply Z.div_lt_upper_bound; lia]. Qed.

Lemma ubyte_user s A x b : ubyte s A x = Some b -> user_page (A (x / PGSIZE)) = true.
Proof. unfold ubyte. by destruct (user_page _). Qed.

Lemma user_page_present e : user_page e = true -> present e = true.
Proof. unfold user_page. by intros [? _]%andb_true_iff. Qed.

Section load.
Context (kend : Z) (Hkend : 0 < kend < 2 ^ 32) (Hkern : KERNBASE < kend).
Local Abbreviation aspace := (aspace kend).
Local Abbreviation good := (good kend).
Local Abbreviation user_ok := (user_ok kend).
Local Abbreviation uspace := (uspace kend).
Local Abbreviation space_in := (space_in kend).

(** The kernel part of the space, with nothing in the user part. *)
Context (K : Z -> Z) (HK : forall n, 0 <= n < UPAGES -> K n = 0).

Lemma sees_above s A sz img n : sees K s A sz img -> 0 <= pages sz <= n -> n < UPAGES -> A n = 0.
Proof. intros [_ H] Hn Hu. change UPAGES with 524288 in *. rewrite H by lia. apply HK. change UPAGES with 524288. lia. Qed.

Lemma present_table s l pgdir T A n : aspace s l pgdir T A -> 0 <= n < 2 ^ 20 -> present (A n) = true ->
  exists tab, T !! (n / 1024) = Some tab.
Proof.
  intros R Hn Hp. rewrite (as_pte _ _ _ _ _ _ R n Hn) in Hp.
  destruct (T !! (n / 1024)) as [tab|]; [eauto|done].
Qed.

Lemma sees_table s l pgdir T A sz img x : aspace s l pgdir T A -> sees K s A sz img -> pages sz <= UPAGES ->
  0 <= x < PGSIZE * pages sz -> exists tab, T !! (x / PGSIZE / 1024) = Some tab.
Proof.
  intros R [Hs _] Hsz Hx. eapply present_table; [exact R| |].
  - pose proof (page_of x _ Hx). change UPAGES with 524288 in Hsz. lia.
  - apply user_page_present. eapply ubyte_user, Hs. done.
Qed.

(** A space whose own entries and pages are changed only. *)
Lemma space_in_step P s0 s s' l pgdir T A A' : space_in P s0 s l pgdir T A ->
  aspace s' l pgdir T A' -> user_ok l pgdir T A' -> (forall p, holds pgdir T A' p <-> holds pgdir T A p) ->
  only (holds pgdir T A) (km_mem s) (km_mem s') -> space_in P s0 s' l pgdir T A'.
Proof.
  intros [R U HP O] R' U' Hh O'. split; [done..| |].
  - intros p. by rewrite HP, Hh.
  - eapply only_trans; [exact O|]. eapply only_mono; [exact O'|]. intros q Hq. apply HP. by right.
Qed.

(** * Growing *)

Lemma grown_user n ps A m : n <= m < n + Z.of_nat (length ps) -> Forall good ps ->
  exists p, p ∈ ps /\ good p /\ frame (grown A n ps m) = p /\ user_page (grown A n ps m) = true.
Proof.
  intros Hm Hps. rewrite grown_lookup. destruct (Z.leb_spec n m), (Z.ltb_spec m (n + Z.of_nat (length ps))); try lia.
  cbn [andb]. assert (Hin : nth (Z.to_nat (m - n)) ps 0 ∈ ps) by (apply list_elem_of_In, nth_In; lia).
  rewrite Forall_forall in Hps. pose proof (Hps _ Hin) as Hg. exists (nth (Z.to_nat (m - n)) ps 0).
  destruct (good_V2P kend _ Hg) as (_ & Hv & Hr & _). assert (HU : 0 <= PTE_UW < PGSIZE) by done.
  split_and!; [done|done|by apply (entry_frame _ _ kend)|].
  unfold user_page. rewrite entry_present. cbn [andb]. rewrite entry_add by done.
  rewrite land_flag by (done || (unfold PTE_U, PGSIZE; lia) || (unfold PGSIZE; lia)). done.
Qed.

Lemma grown_out n ps A m : m < n \/ n + Z.of_nat (length ps) <= m -> grown A n ps m = A m.
Proof.
  intros Hm. rewrite grown_lookup.
  destruct (Z.leb_spec n m), (Z.ltb_spec m (n + Z.of_nat (length ps))); simpl; done || lia.
Qed.

(** The pages of a grown space. *)
Lemma grown_holds n ps A p : 0 <= n -> n + Z.of_nat (length ps) <= UPAGES -> Forall good ps ->
  (forall m, n <= m < n + Z.of_nat (length ps) -> A m = 0) ->
  user_frame (grown A n ps) p <-> user_frame A p \/ p ∈ ps.
Proof.
  intros Hn Hk Hps HA. unfold user_frame. split.
  - intros (m & Hm & Hp & ->). destruct (decide (n <= m < n + Z.of_nat (length ps))) as [Hin|Hout].
    + destruct (grown_user n ps A m Hin Hps) as (q & Hq & _ & -> & _). by right.
    + rewrite grown_out in Hp |- * by lia. left. eauto.
  - intros [(m & Hm & Hp & ->)|Hp].
    + exists m. assert (m < n \/ n + Z.of_nat (length ps) <= m) as Hout.
      { destruct (decide (n <= m < n + Z.of_nat (length ps))) as [Hin|]; [by rewrite HA in Hp|lia]. }
      by rewrite grown_out.
    + apply list_elem_of_lookup in Hp as [i Hi]. pose proof (lookup_lt_Some _ _ _ Hi).
      exists (n + Z.of_nat i). rewrite grown_lookup.
      destruct (Z.leb_spec n (n + Z.of_nat i)), (Z.ltb_spec (n + Z.of_nat i) (n + Z.of_nat (length ps))); try lia.
      cbn [andb]. replace (Z.to_nat (n + Z.of_nat i - n)) with i by lia.
      rewrite (nth_lookup_Some _ _ 0 p) by done. split; [lia|]. split; [apply entry_present|].
      rewrite Forall_forall in Hps. symmetry. apply (entry_frame _ _ kend); [|done]. apply Hps. by eapply list_elem_of_lookup_2.
Qed.

Lemma grow_need_le T n k : grow_need T n k <= 2 * Z.of_nat k + 2.
Proof.
  unfold grow_need, tabs_need. destruct k as [|k]; [lia|]. pose proof (no_table_range T n).
  assert ((n + Z.of_nat (S k) - 1) / 1024 <= n / 1024 + Z.of_nat (S k)); [|lia].
  rewrite <- (Z.div_add n (Z.of_nat (S k)) 1024) by lia. apply Z.div_le_mono; lia.
Qed.

(** Memory up to [sz], then zeros. *)
Definition zero_above (sz : Z) (img : Z -> Z) : Z -> Z := fun x => if x <? PGSIZE * pages sz then img x else 0.

Lemma sees_grown P s0 s s' l pgdir T A ps oldsz newsz img :
  space_in P s0 s l pgdir T A -> sees K s A oldsz img -> 0 <= oldsz <= newsz -> pages newsz <= UPAGES ->
  length ps = Z.to_nat (pages newsz - pages oldsz) -> (forall p, p ∈ ps -> p ∈ l) ->
  zeroed (km_mem s') ps -> only (fun q => owned pgdir T q \/ q ∈ l) (km_mem s) (km_mem s') ->
  sees K s' (grown A (pages oldsz) ps) newsz (zero_above oldsz img).
Proof.
  intros Sp [Hs Hn] Hsz HN Hlen Hps Hz O. pose proof (pages_mono oldsz newsz ltac:(lia)) as Hmono.
  assert (HP0 : 0 <= pages oldsz) by (unfold pages; apply Z.div_pos; unfold PGSIZE; lia).
  destruct Sp as [R U _ _]. destruct (uspace_of kend _ _ _ _ _ R U) as (F & S & Hh).
  assert (Hgl : forall p, p ∈ l -> good p) by (intros p; by apply (free_pages_good kend Hkend s)).
  assert (Hgp : Forall good ps) by (apply Forall_forall; auto).
  split.
  - intros x Hx. pose proof (page_of x _ Hx) as Hp. unfold zero_above.
    pose proof (Z.div_mod x PGSIZE ltac:(done)) as Hd. pose proof (Z.mod_pos_bound x PGSIZE ltac:(done)) as Hm.
    destruct (Z.ltb_spec x (PGSIZE * pages oldsz)) as [Hlt|Hge].
    + pose proof (page_of x _ (conj (proj1 Hx) Hlt)). rewrite <- (Hs x) by lia.
      transitivity (ubyte s' A x); [unfold ubyte; by rewrite grown_out by lia|].
      eapply (ubyte_only kend _ s s' pgdir T A); [exact O| |done|].
      * intros p [Hp'|Hp']; (split; [|intros Hx2]).
        -- exact (holds_good kend _ _ _ _ _ S (or_introl Hp')).
        -- destruct Hx2 as (m & Hm2 & Hpm & ->). by apply (us_frame _ _ _ _ _ S m Hm2 Hpm).
        -- by apply Hgl.
        -- apply (Hh p); [by right|done].
      * change UPAGES with 524288 in HN. unfold PGSIZE, KERNBASE in *. lia.
    + destruct (grown_user (pages oldsz) ps A (x / PGSIZE)) as (p & Hin & Hg & Hf & Hu); [|done|].
      { rewrite Hlen. split; [|lia]. apply Z.div_le_lower_bound; [done|lia]. }
      unfold ubyte. rewrite Hu, Hf. f_equal. apply (Hz p); [done|lia].
  - intros m Hm. rewrite grown_out by (rewrite Hlen; lia). apply Hn. lia.
Qed.

Lemma wp_grow_in P s0 s l pgdir T A oldsz newsz img : space_in P s0 s l pgdir T A ->
  sees K s A oldsz img -> 0 <= oldsz -> 0 <= newsz ->
  wp never (allocuvm kend pgdir oldsz newsz) s (fun r s' =>
    r = 0 /\ (exists l' T', space_in P s0 s' l' pgdir T' A) /\
      (KERNBASE <= newsz \/ Z.max oldsz newsz = 0 \/
       Z.of_nat (length l) < 2 * (pages newsz - pages oldsz) + 2) \/
    r = Z.max oldsz newsz /\ newsz < KERNBASE /\ exists l' T' A', space_in P s0 s' l' pgdir T' A' /\
      sees K s' A' r (if newsz <? oldsz then img else zero_above oldsz img) /\
      Z.of_nat (length l) <= Z.of_nat (length l') + 2 * (pages r - pages oldsz) + 2).
Proof.
  intros Sp Hsee Ho Hn. pose proof Sp as [R U HP O].
  assert (HP0 : 0 <= pages oldsz) by (unfold pages; apply Z.div_pos; unfold PGSIZE; lia).
  destruct (Z.leb_spec KERNBASE newsz) as [Hk|Hk].
  { unfold allocuvm. rewrite (proj2 (Z.leb_le _ _)) by done. apply wp_ret. left. split; [done|].
    split; [eauto|by left]. }
  pose proof (pages_kern newsz ltac:(lia)) as HN.
  eapply wp_mono; [apply (wp_allocuvm kend Hkend Hkern pgdir oldsz newsz s l T A); try done; try lia|].
  { intros i Hi. eapply sees_above; [exact Hsee|lia|lia]. }
  intros r s'. unfold alloc_post. rewrite (proj2 (Z.leb_gt _ _)) by done.
  destruct (Z.ltb_spec newsz oldsz) as [Hlt|Hge].
  { intros [-> ->]. right. split; [lia|]. split; [done|]. exists l, T, A. split; [done|]. split; [done|lia]. }
  pose proof (pages_mono oldsz newsz ltac:(lia)) as Hmono.
  pose proof (grow_need_le T (pages oldsz) (Z.to_nat (pages newsz - pages oldsz))) as Hneed.
  rewrite (Z.max_r oldsz newsz) by lia. intros [[-> Hok]|(-> & Hshort & l' & T' & R' & U' & HT & Hk' & O')].
  - right. split; [done|]. split; [done|]. destruct Hok as (l' & T' & ps & Hlen & R' & U' & HT & Hk' & Hps & Hz & Hroom & O').
    exists l', T', (grown A (pages oldsz) ps). split_and!; [| |lia].
    + assert (Hgp : Forall good ps) by (apply Forall_forall; intros p Hp; by eapply (free_page_good kend Hkend), Hps).
      split; [done|done| |].
      * intros p. rewrite HP. unfold holds. rewrite grown_holds; [|done|rewrite Hlen; lia|done|].
        -- unfold owned. specialize (Hk' p). tauto.
        -- intros m Hm. eapply sees_above; [exact Hsee|lia|lia].
      * eapply only_trans; [exact O|]. eapply only_mono; [exact O'|]. intros q [Hq|Hq]; apply HP; [right; by left|by left].
    + eapply sees_grown; try done; lia.
  - left. split; [done|]. split; [|right; right; lia]. exists l', T'. split; [done|done| |].
    + intros p. rewrite HP. unfold holds, owned. specialize (Hk' p). rewrite elem_of_nil in Hk'. tauto.
    + eapply only_trans; [exact O|]. eapply only_mono; [exact O'|]. intros q [Hq|Hq]; apply HP; [right; by left|by left].
Qed.

(** * Loading *)

(** Bytes placed over an image. *)
Definition put_img (va : Z) (b : list Z) (img : Z -> Z) : Z -> Z := fun x =>
  if (va <=? x) && (x <? va + Z.of_nat (length b)) then nth (Z.to_nat (x - va)) b 0 else img x.

Lemma put_img_app va b1 b2 img x :
  put_img (va + Z.of_nat (length b1)) b2 (put_img va b1 img) x = put_img va (b1 ++ b2) img x.
Proof.
  unfold put_img. rewrite length_app.
  destruct (Z.leb_spec (va + Z.of_nat (length b1)) x), (Z.leb_spec va x),
    (Z.ltb_spec x (va + Z.of_nat (length b1) + Z.of_nat (length b2))), (Z.ltb_spec x (va + Z.of_nat (length b1))),
    (Z.ltb_spec x (va + Z.of_nat (length b1 + length b2))); simpl; try done; try lia.
  - rewrite app_nth2 by lia. f_equal. lia.
  - by rewrite app_nth1 by lia.
Qed.

Lemma put_img_nil va img x : put_img va [] img x = img x.
Proof. unfold put_img. destruct (Z.leb_spec va x), (Z.ltb_spec x (va + Z.of_nat (length (@nil Z)))); simpl in *; done || lia. Qed.

Lemma sees_ext s A sz img img' : (forall x, 0 <= x < PGSIZE * pages sz -> img x = img' x) ->
  sees K s A sz img -> sees K s A sz img'.
Proof. intros H [H1 H2]. split; [|done]. intros x Hx. by rewrite H1, H by done. Qed.

(** Bytes written into one page. *)
Lemma write_in P s0 s l pgdir T A sz img va b : space_in P s0 s l pgdir T A -> sees K s A sz img ->
  pages sz <= UPAGES -> 0 <= va < PGSIZE * pages sz -> va mod PGSIZE + Z.of_nat (length b) <= PGSIZE ->
  let s' := Kmem (km_use_lock s) (km_freelist s)
              (put_bytes (km_mem s) (frame (A (va / PGSIZE)) + va mod PGSIZE) b) in
  space_in P s0 s' l pgdir T A /\ sees K s' A sz (put_img va b img).
Proof.
  intros Sp Hsee HN Hva Hlen s'. pose proof Sp as [R U _ _]. pose proof Hsee as [Hs Hz].
  pose proof (ubyte_user _ _ _ _ (Hs va Hva)) as Hu. pose proof (page_of va _ Hva) as Hpg.
  assert (Hk : PGSIZE * pages sz <= KERNBASE) by (change UPAGES with 524288 in HN; unfold PGSIZE, KERNBASE; lia).
  destruct (write_page kend Hkend s l pgdir T A va b R U ltac:(lia) ltac:(lia) Hu Hlen) as [R' W]. fold s' in R', W.
  pose proof (Z.mod_pos_bound va PGSIZE ltac:(done)). split.
  - eapply space_in_step; [exact Sp|done|done|done|].
    eapply (only_mono (eq (frame (A (va / PGSIZE))))).
    + intros x Hx. specialize (Hx _ eq_refl). cbn [km_mem s']. rewrite put_bytes_lookup.
      destruct (Z.leb_spec (frame (A (va / PGSIZE)) + va mod PGSIZE) x),
        (Z.ltb_spec x (frame (A (va / PGSIZE)) + va mod PGSIZE + Z.of_nat (length b))); simpl; done || lia.
    + intros q <-. right. exists (va / PGSIZE). split; [lia|]. split; [by apply user_page_present|done].
  - split; [|done]. intros x Hx. rewrite W by lia. rewrite Hs by done. unfold put_img.
    by destruct ((va <=? x) && (x <? va + Z.of_nat (length b))).
Qed.

(** [readi] on a file with these contents. *)
Definition reads (readi : Z -> Z -> option (list Z)) (file : list Z) : Prop :=
  forall off n, 0 <= off < 2 ^ 32 -> 0 <= n < 2 ^ 32 ->
    readi off n =
      if (Z.of_nat (length file) <? off) || (u32 (off + n) <? off) then None
      else Some (take (Z.to_nat n) (drop (Z.to_nat off) file)).

(** [n] bytes of the file from [off] on. *)
Definition slice (file : list Z) (off n : Z) : list Z := take (Z.to_nat n) (drop (Z.to_nat off) file).

Lemma fslice_app file off n m : 0 <= off -> 0 <= n -> 0 <= m ->
  slice file off (n + m) = slice file off n ++ slice file (off + n) m.
Proof.
  intros H1 H2 H3. unfold slice. rewrite !Z2Nat.inj_add by lia.
  by rewrite <- (drop_drop file (Z.to_nat n) (Z.to_nat off)), take_take_drop.
Qed.

Lemma slice_length file off n : 0 <= off -> 0 <= n ->
  Z.of_nat (length (slice file off n)) = Z.max 0 (Z.min n (Z.of_nat (length file) - off)).
Proof. intros H1 H2. unfold slice. rewrite length_take, length_drop. lia. Qed.

Lemma reads_slice readi file off n : reads readi file -> Z.of_nat (length file) < 2 ^ 31 ->
  0 <= off < 2 ^ 32 -> 0 <= n < 2 ^ 31 -> off + n < 2 ^ 32 ->
  readi off n = if Z.of_nat (length file) <? off then None else Some (slice file off n).
Proof.
  intros Hr Hf Ho Hn Hs. rewrite Hr by lia. rewrite u32_small by lia.
  by rewrite (proj2 (Z.ltb_ge (off + n) off)), orb_false_r by lia.
Qed.

Lemma reads_at readi file off n : reads readi file -> Z.of_nat (length file) < 2 ^ 31 ->
  0 <= off < 2 ^ 32 -> 0 <= n < 2 ^ 31 ->
  readi off n = if Z.of_nat (length file) <? off then None else Some (slice file off n).
Proof.
  intros Hr Hf Ho Hn. destruct (Z.ltb_spec (Z.of_nat (length file)) off) as [Hlt|Hge].
  - rewrite Hr by lia. by rewrite (proj2 (Z.ltb_lt _ _) Hlt).
  - rewrite (reads_slice readi file) by (done || lia). by rewrite (proj2 (Z.ltb_ge _ _) Hge).
Qed.

(** One page of [loaduvm]: the rest is run with the bytes in place. *)
Lemma wp_load_page (readi : Z -> Z -> option (list Z)) P s0 s l pgdir T A sz img va off n (k : Z -> M kmem Z) Q :
  space_in P s0 s l pgdir T A -> sees K s A sz img -> pages sz <= UPAGES ->
  0 <= va -> va mod PGSIZE = 0 -> 0 < n <= PGSIZE -> va + n <= PGSIZE * pages sz ->
  (readi off n = None -> Q (-1) s) ->
  (forall b s', readi off n = Some b -> (length b <= Z.to_nat n)%nat ->
     space_in P s0 s' l pgdir T A -> sees K s' A sz (put_img va b img) ->
     wp never (k (Z.of_nat (length b))) s' Q) ->
  (forall b, readi off n = Some b -> (length b <= Z.to_nat n)%nat) ->
  wp never (let* pte := walkpgdir pgdir va false in
            if pte =? 0 then panic "loaduvm: address should exist"
            else
              let* e := load pte in
              match readi off n with
              | Some bytes => mem_write (P2V (PTE_ADDR e)) bytes ;;; k (Z.of_nat (length bytes))
              | None => ret (-1)
              end) s Q.
Proof.
  intros Sp Hsee HN H0 Hal Hn Hva HNone Hk Hlen. pose proof Sp as [R U _ _].
  assert (Hva' : 0 <= va < PGSIZE * pages sz) by lia.
  assert (Hv32 : 0 <= va < 2 ^ 32) by (change UPAGES with 524288 in HN; unfold PGSIZE in *; lia).
  destruct (sees_table _ _ _ _ _ _ _ _ R Hsee HN Hva') as [tab HT]. wbind.
  eapply (wp_walk kend); [exact R|done|congruence|]. intros tab' HT'.
  destruct (va_page va Hv32) as (_ & _ & Hnr & _).
  destruct (as_tab _ _ _ _ _ _ R _ _ HT') as (_ & Hgt & _). destruct (slot_in kend tab' (va / PGSIZE) Hgt) as (_ & _ & Hs).
  rewrite (proj2 (Z.eqb_neq _ _)) by done. wbind. eapply (wp_load_pte kend); [exact R|done|exact HT'|].
  destruct (readi off n) as [b|] eqn:E; [|by apply wp_ret, HNone].
  assert (Hb : (length b <= Z.to_nat n)%nat) by by apply Hlen.
  destruct (write_in P s0 s l pgdir T A sz img va b Sp Hsee HN Hva' ltac:(lia)) as [Sp' Hsee'].
  rewrite Hal, Z.add_0_r in Sp', Hsee'.
  pose proof (user_page_present _ (ubyte_user _ _ _ _ (proj1 Hsee va Hva'))) as Hp.
  pose proof (page_of va _ Hva') as Hpg.
  destruct (uo_frame _ _ _ _ _ U (va / PGSIZE) ltac:(lia) Hp) as (_ & Hg & _). destruct (good_range kend _ Hg) as (Hfk & _).
  fold (frame (A (va / PGSIZE))). wbind. unfold wp at 1, mem_write.
  rewrite (proj2 (Z.eqb_neq _ _)) by (unfold KERNBASE in Hfk; lia). by apply (Hk b).
Qed.

(** The outcome of [loaduvm] from offset [i] of the segment on. *)
Definition load_post (P : list Z) (s0 : kmem) (l : list Z) (pgdir : Z) (T : gmap Z Z) (A : Z -> Z) (sz : Z)
    (img : Z -> Z) (file : list Z) (va off filesz i r : Z) (s' : kmem) : Prop :=
  space_in P s0 s' l pgdir T A /\
  (r = 0 /\ (filesz <= i \/ off + filesz <= Z.of_nat (length file)) /\
     sees K s' A sz (put_img (va + i) (slice file (off + i) (filesz - i)) img) \/
   r = -1 /\ i < filesz /\ Z.of_nat (length file) < off + filesz /\ exists img', sees K s' A sz img').

Lemma wp_load_loop readi file P s0 l pgdir T A sz va off filesz k : reads readi file ->
  Z.of_nat (length file) < 2 ^ 31 -> pages sz <= UPAGES -> 0 <= va -> va mod PGSIZE = 0 ->
  0 <= off < 2 ^ 32 -> 0 <= filesz -> va + filesz <= PGSIZE * pages sz ->
  forall fuel j s img, (k < fuel)%nat -> 0 <= j ->
  (k = 0%nat \/ j = 0 \/ off + PGSIZE * j <= Z.of_nat (length file)) ->
  filesz <= PGSIZE * (j + Z.of_nat k) -> (k = 0%nat \/ PGSIZE * (j + Z.of_nat k - 1) < filesz) ->
  space_in P s0 s l pgdir T A -> sees K s A sz img ->
  wp never (loaduvm_loop fuel readi pgdir va off filesz (PGSIZE * j)) s
    (fun r s' => load_post P s0 l pgdir T A sz img file va off filesz (PGSIZE * j) r s').
Proof.
  intros Hr Hf HN H0 Hal Ho Hfs Hva.
  assert (Hmax : va + filesz <= KERNBASE) by (change UPAGES with 524288 in HN; unfold PGSIZE, KERNBASE in *; lia).
  induction k as [|k IH]; intros [|fuel] j s img Hfuel Hj Hoff Hhi Hlo Sp Hsee; try lia; cbn [loaduvm_loop].
  { rewrite (proj2 (Z.ltb_ge _ _)) by lia. apply wp_ret. split; [done|]. left. split; [done|]. split; [left; lia|].
    eapply sees_ext; [|exact Hsee]. intros x _.
    assert (slice file (off + PGSIZE * j) (filesz - PGSIZE * j) = []) as ->; [|by rewrite put_img_nil].
    unfold slice. replace (Z.to_nat (filesz - PGSIZE * j)) with O by lia. done. }
  destruct Hlo as [|Hlo]; [done|]. destruct Hoff as [|Hoff]; [done|].
  assert (Hjf : PGSIZE * j < filesz) by (unfold PGSIZE in *; lia).
  rewrite (proj2 (Z.ltb_lt _ _)) by done. set (i := PGSIZE * j) in *.
  assert (Hi31 : 0 <= i < 2 ^ 31) by (unfold i, KERNBASE, PGSIZE in *; lia).
  rewrite (u32_small (va + i)) by (unfold KERNBASE in *; lia). rewrite (u32_small (off + i)) by (destruct Hoff; [subst j|]; unfold i in *; lia).
  set (n := if filesz - i <? PGSIZE then filesz - i else PGSIZE).
  assert (Hn : 0 < n <= PGSIZE /\ i + n <= filesz /\ (i + n = filesz \/ n = PGSIZE)).
  { unfold n. destruct (Z.ltb_spec (filesz - i) PGSIZE); unfold PGSIZE in *; lia. }
  destruct Hn as (Hn & Hin & Hn2).
  pose proof (reads_at readi file (off + i) n Hr Hf ltac:(destruct Hoff; [subst j|]; unfold i in *; lia)
    ltac:(unfold PGSIZE in *; lia)) as Hread.
  eapply (wp_load_page readi P s0 s l pgdir T A sz img (va + i) (off + i) n
    (fun m => if negb (m =? n) then ret (-1) else
              loaduvm_loop fuel readi pgdir va off filesz (u32 (i + PGSIZE)))); try done; try lia.
  - unfold i. rewrite (Z.mul_comm PGSIZE j), Z.mod_add by done. done.
  - rewrite Hread. destruct (Z.ltb_spec (Z.of_nat (length file)) (off + i)) as [Hlt|]; [|done]. intros _.
    split; [done|]. right. split; [done|]. split; [done|]. split; [lia|eauto].
  - intros b s' Hb Hlb Sp' Hsee'. rewrite Hread in Hb.
    destruct (Z.ltb_spec (Z.of_nat (length file)) (off + i)) as [|Hge]; [done|]. injection Hb as <-.
    pose proof (slice_length file (off + i) n ltac:(lia) ltac:(lia)) as Hsl.
    destruct (Z.eqb_spec (Z.of_nat (length (slice file (off + i) n))) n) as [Hfull|Hshort]; cbn [negb].
    + rewrite u32_small by (unfold PGSIZE in *; lia). replace (i + PGSIZE) with (PGSIZE * (j + 1)) by (unfold i; lia).
      eapply wp_mono; [apply (IH fuel (j + 1) s' (put_img (va + i) (slice file (off + i) n) img)); try done; try lia|].
      * destruct Hn2 as [He|He]; [left; unfold i, PGSIZE in *; lia|right; right; unfold i in *; lia].
      * intros r s2 (Sp2 & H2). split; [done|]. destruct H2 as [(-> & Hok & Hs2)|(-> & ? & ? & ?)].
        -- left. split; [done|]. split; [right; lia|]. eapply sees_ext; [|exact Hs2]. intros x _.
           destruct Hn2 as [He|He].
           ++ replace (filesz - i) with n by lia.
              assert (slice file (off + PGSIZE * (j + 1)) (filesz - PGSIZE * (j + 1)) = []) as ->; [|apply put_img_nil].
              unfold slice. replace (Z.to_nat (filesz - PGSIZE * (j + 1))) with O by (unfold i in *; lia). done.
           ++ replace (filesz - i) with (n + (filesz - PGSIZE * (j + 1))) by (unfold i; lia).
              assert (0 <= filesz - PGSIZE * (j + 1)) by (unfold i in *; lia).
              rewrite fslice_app, <- put_img_app, Hfull by lia.
              replace (va + i + n) with (va + PGSIZE * (j + 1)) by (unfold i; lia).
              by replace (off + i + n) with (off + PGSIZE * (j + 1)) by (unfold i; lia).
        -- right. split_and!; try done; lia.
    + apply wp_ret. split; [done|]. right. split_and!; try done; [lia|eauto].
  - intros b. rewrite Hread. destruct (Z.ltb_spec (Z.of_nat (length file)) (off + i)); [done|]. intros [= <-].
    pose proof (slice_length file (off + i) n ltac:(lia) ltac:(lia)). lia.
Qed.

Lemma wp_load_in readi file P s0 s l pgdir T A sz img va off filesz : reads readi file ->
  Z.of_nat (length file) < 2 ^ 31 -> pages sz <= UPAGES -> 0 <= va -> va mod PGSIZE = 0 ->
  0 <= off < 2 ^ 32 -> 0 <= filesz -> va + filesz <= PGSIZE * pages sz ->
  space_in P s0 s l pgdir T A -> sees K s A sz img ->
  wp never (loaduvm readi pgdir va off filesz) s
    (fun r s' => load_post P s0 l pgdir T A sz img file va off filesz 0 r s').
Proof.
  intros Hr Hf HN H0 Hal Ho Hfs Hva Sp Hsee. unfold loaduvm. rewrite Hal. cbn [negb Z.eqb].
  fold (pages filesz). pose proof (pages_bounds filesz) as Hpb.
  assert (0 <= pages filesz) by (unfold pages; apply Z.div_pos; unfold PGSIZE; lia).
  pose proof (wp_load_loop readi file P s0 l pgdir T A sz va off filesz (Z.to_nat (pages filesz)) Hr Hf HN H0 Hal Ho
    Hfs Hva (S (Z.to_nat (pages filesz))) 0 s img) as H'. rewrite Z.mul_0_r in H'.
  apply H'; try done; unfold PGSIZE in *; lia.
Qed.

(** * The guard page *)

Lemma guard_entry e : 0 <= e < 2 ^ 32 -> let e' := Z.land e (u32 (Z.lnot PTE_U)) in
  0 <= e' < 2 ^ 32 /\ present e' = present e /\ frame e' = frame e /\ user_page e' = false.
Proof.
  intros He e'. unfold e', present, frame, user_page, present, PTE_ADDR.
  change (u32 (Z.lnot PTE_U)) with 0xFFFFFFFB. rewrite <- !Z.land_assoc.
  change (Z.land 0xFFFFFFFB PTE_P) with PTE_P. change (Z.land 0xFFFFFFFB PTE_U) with 0.
  change (Z.land 0xFFFFFFFB (u32 (Z.lnot 4095))) with (u32 (Z.lnot 4095)).
  rewrite Z.land_0_r. split; [|by rewrite andb_false_r].
  assert (H : Z.land (Z.land e 0xFFFFFFFB) (Z.ones 32) = Z.land e 0xFFFFFFFB) by (by rewrite <- Z.land_assoc).
  rewrite Z.land_ones in H by lia. pose proof (Z.mod_pos_bound (Z.land e 0xFFFFFFFB) (2 ^ 32)). lia.
Qed.

(** The image with the page [g] closed to the program. *)
Definition sees_guard (K : Z -> Z) (s : kmem) (A : Z -> Z) (sz g : Z) (img : Z -> Z) : Prop :=
  (forall x, 0 <= x < PGSIZE * pages sz -> ubyte s A x = if x / PGSIZE =? g then None else Some (img x)) /\
  (forall n, 0 <= n < pages sz -> present (A n) = true) /\
  (forall n, pages sz <= n < 2 ^ 20 -> A n = K n).

Lemma sees_guard_ext s A sz g img img' : (forall x, 0 <= x < PGSIZE * pages sz -> img x = img' x) ->
  sees_guard K s A sz g img -> sees_guard K s A sz g img'.
Proof. intros H (H1 & H2). split; [|done]. intros x Hx. rewrite H1 by done. by rewrite H. Qed.

Lemma wp_guard_in P s0 s l pgdir T A sz img va : space_in P s0 s l pgdir T A -> sees K s A sz img ->
  pages sz <= UPAGES -> 0 <= va < PGSIZE * pages sz ->
  wp never (clearpteu pgdir va) s (fun _ s' => exists A', space_in P s0 s' l pgdir T A' /\
    sees_guard K s' A' sz (va / PGSIZE) img).
Proof.
  intros Sp Hsee HN Hva. pose proof Sp as [R U _ _]. pose proof Hsee as [Hs Hz].
  assert (Hv32 : 0 <= va < 2 ^ 32) by (change UPAGES with 524288 in HN; unfold PGSIZE in *; lia).
  pose proof (page_of va _ Hva) as Hpg. set (n := va / PGSIZE) in *.
  assert (Hpr : forall m, 0 <= m < pages sz -> user_page (A m) = true).
  { intros m Hm. rewrite <- (page_div m). eapply ubyte_user, Hs. unfold PGSIZE. lia. }
  pose proof (user_page_present _ (Hpr n Hpg)) as Hp.
  destruct (uo_frame _ _ _ _ _ U n ltac:(lia) Hp) as (Hr & Hg & Hfl & Hfo).
  destruct (guard_entry (A n) Hr) as (Hr' & Hp' & Hf' & Hu'). set (e' := Z.land _ _) in *.
  destruct (sees_table _ _ _ _ _ _ _ _ R Hsee HN Hva) as [tab HT]. fold n in HT. unfold clearpteu. wbind.
  eapply (wp_walk kend); [exact R|done|fold n; congruence|]. fold n. intros tab' HT'.
  destruct (as_tab _ _ _ _ _ _ R _ _ HT') as (_ & Hgt & _). destruct (slot_in kend tab' n Hgt) as (_ & _ & Hsl).
  rewrite (proj2 (Z.eqb_neq _ _)) by done. wbind.
  assert (Hn20 : 0 <= n < 2 ^ 20) by (change UPAGES with 524288 in HN; lia).
  eapply (wp_load_pte kend); [exact R|done|exact HT'|]. fold e'.
  eapply (wp_store_pte kend Hkend); [exact R|done|exact HT'|done|]. intros s' R' O'. exists (upd A n e').
  assert (Hpu : forall m, present (upd A n e' m) = present (A m) /\ frame (upd A n e' m) = frame (A m)).
  { intros m. unfold upd. destruct (Z.eqb_spec m n) as [->|]; [by split|done]. }
  assert (U' : user_ok l pgdir T (upd A n e')).
  { destruct U as [U1 U2]. split.
    - intros m Hm. destruct (Hpu m) as [-> ->]. intros Hpm. destruct (U1 m Hm Hpm) as (? & ?). split; [|done].
      unfold upd. by destruct (Z.eqb_spec m n) as [->|].
    - intros m m' Hm Hm'. destruct (Hpu m) as [-> ->], (Hpu m') as [-> ->]. by apply U2. }
  split.
  - eapply space_in_step; [exact Sp|done|done| |].
    + intros p. unfold holds, user_frame. apply or_iff_compat_l.
      split; intros (m & Hm & Hx); exists m; (split; [done|]); destruct (Hpu m) as [E1 E2]; congruence.
    + eapply only_mono; [exact O'|]. intros q <-. left. right. eauto.
  - destruct (uspace_of kend _ _ _ _ _ R U) as (_ & S & _). split_and!.
    + intros x Hx. unfold ubyte. unfold upd. destruct (Z.eqb_spec (x / PGSIZE) n) as [E|Hne].
      { by rewrite Hu'. }
      rewrite <- (Hs x Hx). fold (ubyte s' A x).
      eapply (ubyte_only kend _ s s' pgdir T A); [exact O'| |done|].
      * intros q <-. split; [done|]. intros (m & Hm & Hpm & He).
        apply (us_frame _ _ _ _ _ S m Hm Hpm). rewrite <- He. right. eauto.
      * change UPAGES with 524288 in HN. unfold PGSIZE, KERNBASE in *. lia.
    + intros m Hm. destruct (Hpu m) as [-> _]. by apply user_page_present, Hpr.
    + intros m Hm. unfold upd. destruct (Z.eqb_spec m n); [lia|]. by apply Hz.
Qed.

Lemma wp_copyout_in P s0 s l pgdir T A sz g img va buf : space_in P s0 s l pgdir T A ->
  sees_guard K s A sz g img -> pages sz <= UPAGES -> 0 <= va -> va + Z.of_nat (length buf) <= PGSIZE * pages sz ->
  wp never (copyout pgdir va buf) s (fun r s' => space_in P s0 s' l pgdir T A /\
    (r = 0 /\ (forall x, va <= x < va + Z.of_nat (length buf) -> x / PGSIZE <> g) /\
       sees_guard K s' A sz g (put_img va buf img) \/
     r = -1 /\ exists x, va <= x < va + Z.of_nat (length buf) /\ x / PGSIZE = g)).
Proof.
  intros Sp (Hs & Hp & Hz) HN H0 Hva. pose proof Sp as [R U _ _].
  assert (Hk : PGSIZE * pages sz <= KERNBASE) by (change UPAGES with 524288 in HN; unfold PGSIZE, KERNBASE; lia).
  eapply wp_mono; [apply (wp_copyout_loop kend Hkend pgdir l T A (S (length buf))); try done; try lia|].
  - intros x Hx. pose proof (page_of x (pages sz) ltac:(lia)). eapply present_table; [exact R| |by apply Hp].
    change UPAGES with 524288 in HN. lia.
  - intros r s' (j & R' & W & O & Hr). split.
    { eapply space_in_step; [exact Sp|done|done|done|]. eapply only_mono; [exact O|]. intros q Hq. by right. }
    destruct Hr as [[-> ->]|(-> & Hj & Hu)]; [left|right]; (split; [done|]).
    + assert (Hng : forall x, va <= x < va + Z.of_nat (length buf) -> x / PGSIZE <> g).
      { intros x Hx Hg. specialize (W x ltac:(lia)). specialize (Hs x ltac:(lia)). rewrite Hg, Z.eqb_refl in Hs.
        destruct (Z.leb_spec va x), (Z.ltb_spec x (va + Z.of_nat (length buf))); try lia. cbn [andb] in W.
        unfold ubyte in W, Hs. by destruct (user_page (A (x / PGSIZE))). }
      split; [done|]. split_and!; [|done..]. intros x Hx. rewrite W by lia. rewrite Hs by done. unfold put_img.
      destruct (Z.leb_spec va x), (Z.ltb_spec x (va + Z.of_nat (length buf))); simpl; try done.
      rewrite (proj2 (Z.eqb_neq _ _)); [done|]. apply Hng. lia.
    + exists (va + j). split; [lia|]. specialize (Hs (va + j) ltac:(lia)). unfold ubyte in Hs. rewrite Hu in Hs.
      by destruct (Z.eqb_spec ((va + j) / PGSIZE) g).
Qed.
End load.
