(* ===== verification/VmFork.v ===== *)
(** [copyuvm] of [vm.c], the copy of an address space that [fork] makes. *)

From stdpp Require Import gmap.
From S2P Require Import Prelude CString Mmu Kalloc Vm VmSpec VmThm VmCopy VmSpace VmSetup VmLoad.

(** The flags of an entry go to the copy. *)
Lemma copy_entry kend p e : good kend p -> 0 <= e < 2 ^ 32 -> present e = true ->
  let e' := entry (V2P p) (PTE_FLAGS e) in
  0 <= PTE_FLAGS e < PGSIZE /\ frame e' = p /\ present e' = true /\ user_page e' = user_page e.
Proof.
  intros Hg He Hp e'. destruct (good_V2P kend p Hg) as (_ & Hv & _).
  assert (Hf : 0 <= PTE_FLAGS e < PGSIZE).
  { rewrite PTE_FLAGS_mod. apply Z.mod_pos_bound. done. }
  split; [done|]. split; [by apply (entry_frame _ _ kend)|]. split; [apply entry_present|].
  unfold e', user_page. rewrite entry_present, Hp. cbn [andb]. do 2 f_equal.
  rewrite entry_add by done. rewrite land_flag by (done || by apply lor_perm).
  rewrite Z.land_lor_distr_l. change (Z.land PTE_P PTE_U) with 0. rewrite Z.lor_0_r.
  unfold PTE_FLAGS. by rewrite <- Z.land_assoc.
Qed.

(** One more page in the user part. *)
Lemma user_frame_upd A n e q : 0 <= n < UPAGES -> present (A n) = false -> present e = true ->
  user_frame (upd A n e) q <-> user_frame A q \/ q = frame e.
Proof.
  intros Hn Hp He. unfold user_frame, upd. split.
  - intros (m & Hm & Hpm & ->). destruct (Z.eqb_spec m n); [by right|left; eauto].
  - intros [(m & Hm & Hpm & ->)| ->].
    + exists m. destruct (Z.eqb_spec m n) as [->|]; [congruence|done].
    + exists n. by rewrite Z.eqb_refl.
Qed.

Section fork.
Context (kend data : Z) (Hkend : 0 < kend < 2 ^ 32) (Hkern : KERNBASE < kend).
Local Abbreviation aspace := (aspace kend).
Local Abbreviation good := (good kend).
Local Abbreviation user_ok := (user_ok kend).
Local Abbreviation uspace := (uspace kend).
Local Abbreviation space_in := (space_in kend).
Local Abbreviation freed := (freed kend).
Context (K : Z -> Z) (HK : forall n, 0 <= n < UPAGES -> K n = 0).

(** The parent, in the memory [s0]. *)
Context (P : list Z) (s0 : kmem) (pg : Z) (T0 : gmap Z Z) (A0 : Z -> Z).
Context (HP : forall p, p ∈ P -> good p) (S0 : uspace (km_mem s0) pg T0 A0).
Context (Hdis : forall p, holds pg T0 A0 p -> p ∉ P).

(** The first [n] pages are copied. *)
Definition copied (s : kmem) (A : Z -> Z) (n : Z) : Prop :=
  (forall x, 0 <= x < PGSIZE * n -> ubyte s A x = ubyte s0 A0 x) /\
  (forall m, n <= m < 2 ^ 20 -> A m = K m).

Lemma parent_kept s l d T A : space_in P s0 s l d T A ->
  uspace (km_mem s) pg T0 A0 /\ aspace s l pg T0 A0.
Proof.
  intros [R U HPl O]. assert (S : uspace (km_mem s) pg T0 A0).
  { eapply uspace_only; [exact O| |exact S0]. intros p Hp. split; [by apply HP|]. intros Hx. by apply (Hdis p). }
  split; [done|]. destruct (uspace_of kend _ _ _ _ _ R U) as (F & _ & _).
  apply (uspace_join kend s l pg T0 A0 F S). intros p Hp Hl. apply (Hdis p Hp), HPl. by left.
Qed.

(** The bytes of the parent are those of [s0]. *)
Lemma parent_bytes s l d T A n x : space_in P s0 s l d T A -> 0 <= n < UPAGES -> present (A0 n) = true ->
  0 <= x < PGSIZE -> km_mem s (frame (A0 n) + x) = km_mem s0 (frame (A0 n) + x).
Proof.
  intros [_ _ _ O] Hn Hp Hx. destruct (us_frame _ _ _ _ _ S0 n Hn Hp) as (_ & Hg & _).
  apply O. intros q Hq. assert (q <> frame (A0 n)) as Hne.
  { intros ->. apply (Hdis (frame (A0 n))); [right; by exists n|done]. }
  destruct (good_apart kend q _ (HP q Hq) Hg Hne); lia.
Qed.

(** The copy of page [n] is in place. *)
Lemma copied_step s s' l d T A n p : space_in P s0 s l d T A -> copied s A n ->
  0 <= n < UPAGES -> present (A0 n) = true -> good p -> p ∈ l ->
  only (fun q => owned d T q \/ q ∈ l) (km_mem s) (km_mem s') ->
  (forall x, p <= x < p + PGSIZE -> km_mem s' x = km_mem s (frame (A0 n) + (x - p))) ->
  copied s' (upd A n (entry (V2P p) (PTE_FLAGS (A0 n)))) (n + 1).
Proof.
  intros Sp [Hc Hk] Hn Hp Hg Hpl O Hcopy. pose proof Sp as [R U HPl _].
  destruct (us_frame _ _ _ _ _ S0 n Hn Hp) as (He & _ & _).
  destruct (copy_entry kend p (A0 n) Hg He Hp) as (_ & Hf & _ & Hu).
  destruct (uspace_of kend _ _ _ _ _ R U) as (F & S & Hh). split.
  - intros x Hx. pose proof (Z.div_mod x PGSIZE ltac:(done)) as Hd. pose proof (Z.mod_pos_bound x PGSIZE ltac:(done)) as Hm.
    destruct (Z.lt_ge_cases x (PGSIZE * n)) as [Hlt|Hge].
    + rewrite <- (Hc x) by lia. assert (x / PGSIZE < n) by (apply Z.div_lt_upper_bound; lia || done).
      transitivity (ubyte s' A x); [unfold ubyte, upd; by rewrite (proj2 (Z.eqb_neq _ n)) by lia|].
      eapply (ubyte_only kend _ s s' d T A); [exact O| |done|].
      * intros q [Hq|Hq]; (split; [|intros (k & Hk' & Hpk & ->)]).
        -- exact (holds_good kend _ _ _ _ _ S (or_introl Hq)).
        -- by apply (us_frame _ _ _ _ _ S k Hk' Hpk).
        -- by eapply (free_pages_good kend Hkend).
        -- apply (Hh (frame (A k))); [right; by exists k|done].
      * change UPAGES with 524288 in Hn. unfold PGSIZE, KERNBASE in *. lia.
    + assert (x / PGSIZE = n) as E by (symmetry; apply Z.div_unique with (x - PGSIZE * n); unfold PGSIZE in *; lia).
      unfold ubyte, upd. rewrite E, Z.eqb_refl, Hu, Hf. destruct (user_page (A0 n)); [|done]. f_equal.
      rewrite Hcopy by lia. replace (p + x mod PGSIZE - p) with (x mod PGSIZE) by lia.
      eapply parent_bytes; [exact Sp|done|done|lia].
  - intros k Hk'. unfold upd. rewrite (proj2 (Z.eqb_neq _ _)) by lia. apply Hk. lia.
Qed.

Lemma memmove_only m p q : good p -> good q ->
  only (eq p) m (Kernel.memmove m p q PGSIZE) /\
  forall x, p <= x < p + PGSIZE -> Kernel.memmove m p q PGSIZE x = m (q + (x - p)).
Proof.
  intros Hp Hq. destruct (good_range kend p Hp) as (Hp1 & _). destruct (good_range kend q Hq) as (Hq1 & Hq2 & _).
  assert (Hmv : forall x, Kernel.memmove m p q PGSIZE x =
    if (p <=? x) && (x <? p + PGSIZE) then m (q + (x - p)) else m x).
  { intros x. apply memmove_lookup; unfold KERNBASE, PHYSTOP, PGSIZE in *; lia. }
  split.
  - intros x Hx. specialize (Hx p eq_refl). rewrite Hmv.
    destruct (Z.leb_spec p x), (Z.ltb_spec x (p + PGSIZE)); simpl; done || lia.
  - intros x Hx. rewrite Hmv. destruct (Z.leb_spec p x), (Z.ltb_spec x (p + PGSIZE)); simpl; done || lia.
Qed.

(** The outcome of the copy of [k] pages from page [n] on. *)
Definition copy_post (l : list Z) (d : Z) (T : gmap Z Z) (n : Z) (k : nat) (r : Z) (s' : kmem) : Prop :=
  r = 0 /\ freed P s0 s' /\ Z.of_nat (length l) < grow_need T n k \/
  r = d /\ exists l' T' A', space_in P s0 s' l' d T' A' /\ copied s' A' (n + Z.of_nat k).

(** The rest of the copy of page [n]: the fresh page [p] has been taken. *)
Lemma wp_copy_page d n s s1 l T A p (rest : M kmem Z) Q : 0 <= n < UPAGES -> present (A0 n) = true ->
  space_in P s0 s (p :: l) d T A -> copied s A n -> aspace s1 l d T A -> km_mem s1 = km_mem s ->
  good p -> (p ∉ l) -> ~ owned d T p ->
  (forall s', freed P s0 s' -> Z.of_nat (length l) < no_table T n -> Q 0 s') ->
  (forall s' l' T' A' tab, space_in P s0 s' l' d T' A' -> copied s' A' (n + 1) -> T' !! (n / 1024) = Some tab ->
     Z.of_nat (length l) <= Z.of_nat (length l') + no_table T n -> wp never rest s' Q) ->
  wp never (mem_move p (P2V (PTE_ADDR (A0 n))) PGSIZE ;;;
            let* r := mappages d (PGSIZE * n) PGSIZE (V2P p) (PTE_FLAGS (A0 n)) in
            if r <? 0 then kfree kend p ;;; freevm kend d ;;; ret 0 else rest) s1 Q.
Proof.
  intros Hn Hp Sp Hc R1 Hm1 Hg Hpl Hpo Hfail Hok. pose proof Sp as [R U HPl O].
  destruct (us_frame _ _ _ _ _ S0 n Hn Hp) as (He & Hgf & _). fold (frame (A0 n)).
  destruct (copy_entry kend p (A0 n) Hg He Hp) as (Hperm & Hf & Hpe & Hu).
  destruct (memmove_only (km_mem s1) p (frame (A0 n)) Hg Hgf) as [Ov Hv].
  destruct (good_range kend p Hg) as (Hpk & _). destruct (good_range kend _ Hgf) as (Hfk & _).
  apply wp_bind. unfold wp at 1, mem_move.
  rewrite (proj2 (Z.eqb_neq p 0)), (proj2 (Z.eqb_neq (frame (A0 n)) 0)) by (unfold KERNBASE in *; lia). cbn [orb].
  assert (HAn : present (A n) = false).
  { destruct Hc as [_ Hk]. change UPAGES with 524288 in Hn. rewrite Hk by lia. rewrite HK; [done|]. change UPAGES with 524288. lia. }
  assert (Hfr : forall i, 0 <= i < UPAGES -> present (A i) = true -> frame (A i) <> p).
  { intros i Hi Hpi E. destruct (uo_frame _ _ _ _ _ U i Hi Hpi) as (_ & _ & Hni & _). apply Hni. rewrite E. by left. }
  assert (U1 : user_ok l d T A) by (eapply user_ok_sub; [|exact U]; intros q Hq; by right).
  apply wp_bind. eapply (wp_grow_page kend Hkend _ d n s1 l T A p); try done.
  - intros s2 T2 R2 Htk Hshort O2. change (-1 <? 0) with true. cbv iota. apply wp_bind.
    assert (Hpo2 : ~ owned d T2 p) by (intros Hx; destruct (takes_owned_inv _ _ _ _ _ _ Htk Hx); tauto).
    eapply (wp_kfree kend Hkend); [exact R2|done|apply not_elem_of_nil|done|]. intros s3 R3 O3.
    assert (Sp3 : space_in P s0 s3 [p] d T2 A).
    { split; [done| | |].
      - assert (user_ok [] d T2 A) as [U2a U2b] by (by eapply user_ok_takes). split; [|done]. intros i Hi Hpi.
        destruct (U2a i Hi Hpi) as (? & ? & _ & ?). do 2 (split; [done|]). split; [|done].
        rewrite list_elem_of_singleton. by apply Hfr.
      - intros q. rewrite HPl, elem_of_cons, list_elem_of_singleton. unfold holds, owned.
        pose proof (keeps_takes _ _ _ _ Htk q) as Hq. rewrite !elem_of_nil in Hq. tauto.
      - rewrite Hm1 in O2. eapply only_trans; [exact O|]. eapply only_trans; eapply only_mono; [exact O2| |exact O3|]; cbn beta.
        + intros q [Hq| ->]; apply HPl; [|left; by left]. destruct (takes_owned_inv _ _ _ _ _ _ Htk Hq); [right; by left|left; by right].
        + intros q <-. apply HPl. left. by left. }
    apply wp_bind. eapply wp_mono; [by eapply (wp_freevm_in kend Hkend Hkern)|]. intros u s4 F. apply wp_ret. by apply Hfail.
  - intros s2 l2 T2 R2 Htk Hlen O2 Hcp. change (0 <? 0) with false. cbv iota.
    assert (Hpo2 : ~ owned d T2 p) by (intros Hx; destruct (takes_owned_inv _ _ _ _ _ _ Htk Hx); tauto).
    assert (Hpl2 : p ∉ l2) by (intros Hx; apply Hpl; by eapply takes_free).
    destruct (present_table kend _ _ _ _ _ n R2) as [tab Htab].
    { change UPAGES with 524288 in Hn. lia. }
    { unfold upd. by rewrite Z.eqb_refl. }
    rewrite Hm1 in O2. assert (Ol : only (fun q => owned d T q \/ q ∈ p :: l) (km_mem s) (km_mem s2)).
    { eapply only_mono; [exact O2|]. cbn beta. intros q [Hq| ->]; [|right; by left].
      destruct (takes_owned_inv _ _ _ _ _ _ Htk Hq); [by left|right; by right]. }
    eapply (Hok s2 l2 T2); [| |exact Htab|exact Hlen].
    + split; [exact R2| | |].
      * apply user_ok_map; try done. by eapply user_ok_takes.
      * intros q. unfold holds. rewrite user_frame_upd by done. rewrite Hf, HPl, elem_of_cons. unfold holds, owned.
        pose proof (keeps_takes _ _ _ _ Htk q) as Hq. rewrite elem_of_nil in Hq. tauto.
      * eapply only_trans; [exact O|]. eapply only_mono; [exact Ol|]. intros q [Hq|Hq]; apply HPl; [right; by left|by left].
    + eapply copied_step; [exact Sp|done|done|done|done|by left|done|]. intros x Hx. rewrite Hcp, Hv by done. by rewrite Hm1.
Qed.

Lemma wp_copyuvm_loop d sz k : 0 <= sz <= KERNBASE -> d <> 0 ->
  (forall n, 0 <= n < pages sz -> present (A0 n) = true) ->
  forall fuel n s l T A, (k < fuel)%nat -> 0 <= n -> n + Z.of_nat k = pages sz ->
  space_in P s0 s l d T A -> copied s A n ->
  wp never (copyuvm_loop kend fuel pg d sz (PGSIZE * n)) s (copy_post l d T n k).
Proof.
  intros Hsz Hne Hpr. pose proof (pages_bounds sz) as Hb. pose proof (pages_kern sz ltac:(lia)) as HU.
  induction k as [|k IH]; intros [|fuel] n s l T A Hf Hn Hnk Sp Hc; try lia; cbn [copyuvm_loop].
  { rewrite (proj2 (Z.ltb_ge _ _)) by (unfold PGSIZE in *; lia). apply wp_ret. right. split; [done|].
    exists l, T, A. split; [done|]. by rewrite Z.add_0_r. }
  rewrite (proj2 (Z.ltb_lt _ _)) by (unfold PGSIZE in *; lia).
  destruct (parent_kept s l d T A Sp) as [_ Rp]. pose proof (Hpr n ltac:(lia)) as Hp.
  assert (HnU : 0 <= n < UPAGES) by lia. pose proof HnU as Hn'. change UPAGES with 524288 in Hn'.
  apply wp_bind. eapply (wp_walk kend); [exact Rp|unfold PGSIZE; lia| |]; rewrite page_div.
  { intros HT. destruct (present_table kend _ _ _ _ _ n Rp ltac:(lia) Hp). congruence. }
  intros tab HT. destruct (as_tab _ _ _ _ _ _ Rp _ _ HT) as (_ & Hgt & _). destruct (slot_in kend tab n Hgt) as (_ & _ & Hs).
  rewrite (proj2 (Z.eqb_neq _ _)) by done. apply wp_bind.
  eapply (wp_load_pte kend); [exact Rp|lia|exact HT|]. fold (present (A0 n)).
  replace (Z.land (A0 n) PTE_P =? 0) with false by (unfold present in Hp; by destruct (Z.land (A0 n) PTE_P =? 0)).
  cbv zeta. apply wp_bind. pose proof Sp as [R _ _ _].
  assert (Hneed : 1 + no_table T n <= grow_need T n (S k)).
  { unfold grow_need. pose proof (tabs_need_pos T n (n + Z.of_nat (S k) - 1) ltac:(lia)). lia. }
  pose proof (no_table_range T n).
  apply (wp_kalloc kend Hkend _ s l d T A); [done| |].
  { intros ->. rewrite Z.eqb_refl. apply wp_bind. eapply wp_mono; [by eapply (wp_freevm_in kend Hkend Hkern)|].
    intros u s' F. apply wp_ret. left. split; [done|]. split; [done|cbn [length]; lia]. }
  intros p l1 s1 -> R1 Hm1 Hg Hpl Hpo. destruct (good_range kend p Hg) as (Hp1 & _).
  rewrite (proj2 (Z.eqb_neq p 0)) by (unfold KERNBASE in Hp1; lia).
  eapply (wp_copy_page d n s s1 l1 T A p); try done.
  - intros s' F Hshort. left. split; [done|]. split; [done|cbn [length]; lia].
  - intros s' l' T' A' tab' Sp' Hc' Htab Hlen.
    replace (u32 (PGSIZE * n + PGSIZE)) with (PGSIZE * (n + 1)) by (rewrite u32_small; unfold PGSIZE; lia).
    eapply wp_mono; [apply (IH fuel (n + 1) s' l' T' A'); try done; lia|].
    intros r s2 [(-> & F & Hshort)|(-> & Hcopy)]; [left|right].
    + split; [done|]. split; [done|]. pose proof (grow_need_step T T' n k tab' Htab). cbn [length]. lia.
    + split; [done|]. by replace (n + Z.of_nat (S k)) with (n + 1 + Z.of_nat k) by lia.
Qed.
End fork.

Section copyuvm.
Context (kend data : Z) (Hkend : 0 < kend < 2 ^ 32) (Hkern : KERNBASE < kend).
Context (Hdata : KERNLINK < data < KERNBASE + PHYSTOP) (Hdatap : data mod PGSIZE = 0).

(** C16. [copyuvm] gives the child of [fork] a copy of the memory of its parent: every byte
    below [sz] that the parent can access has the same value in the child, pages closed to
    the parent are closed to the child, and above [sz] there is the kernel. The child is
    made of pages that were free, so the parent and its bytes are as before. With
    enough free pages it succeeds; otherwise it returns 0 and all pages are free again. *)
Theorem copyuvm_exact P s pg T0 A0 sz :
  free_pages kend s P -> uspace kend (km_mem s) pg T0 A0 -> (forall p, holds pg T0 A0 p -> p ∉ P) ->
  0 <= sz <= KERNBASE -> (forall n, 0 <= n < pages sz -> present (A0 n) = true) ->
  wp never (copyuvm kend data pg sz) s (fun d s' =>
    uspace kend (km_mem s') pg T0 A0 /\
    (forall x, 0 <= x < KERNBASE -> ubyte s' A0 x = ubyte s A0 x) /\
    (d = 0 /\ Z.of_nat (length P) < KVM_PAGES + 2 * pages sz + 2 /\
       (exists l, free_pages kend s' l /\ forall p, p ∈ l <-> p ∈ P) \/
     d <> 0 /\ exists l T A, aspace kend s' l d T A /\ user_ok kend l d T A /\
       (forall p, p ∈ P <-> p ∈ l \/ holds d T A p) /\
       (forall x, 0 <= x < PGSIZE * pages sz -> ubyte s' A x = ubyte s A0 x) /\
       (forall n, pages sz <= n < 2 ^ 20 -> A n = kernel_map data n))).
Proof.
  intros F S0 Hdis Hsz Hpr.
  assert (HP : forall p, p ∈ P -> good kend p) by (intros p; exact (free_pages_good kend Hkend s P p F)).
  assert (Hkeep : forall s', only (fun q => q ∈ P) (km_mem s) (km_mem s') ->
    uspace kend (km_mem s') pg T0 A0 /\ forall x, 0 <= x < KERNBASE -> ubyte s' A0 x = ubyte s A0 x).
  { intros s' O. split; [eapply uspace_only; [exact O| |exact S0]|intros x Hx; eapply ubyte_only; [exact O| |exact S0|done]];
      intros p Hp; (split; [by apply HP|]); intros Hx'; apply (Hdis p); try done. by right. }
  unfold copyuvm. apply wp_bind. eapply wp_mono; [by apply (wp_setupkvm kend data Hkend Hkern Hdata Hdatap P s)|].
  assert (H0 : 0 <= pages sz) by (unfold pages; apply Z.div_pos; unfold PGSIZE; lia).
  intros d s1 [(-> & (l & F1 & Hl & O) & Hshort)|(Hne & l & T & Sp & Hroom)].
  - rewrite Z.eqb_refl. apply wp_ret. destruct (Hkeep s1 O). split_and!; try done. left. split_and!; [done|lia|eauto].
  - rewrite (proj2 (Z.eqb_neq _ _)) by done. fold (pages sz).
    pose proof (wp_copyuvm_loop kend Hkend Hkern (kernel_map data) (kernel_map_user data Hdata Hdatap) P s pg T0 A0 HP S0 Hdis
      d sz (Z.to_nat (pages sz)) Hsz Hne Hpr (S (Z.to_nat (pages sz))) 0 s1 l T (kernel_map data)) as H.
    rewrite Z.mul_0_r in H. eapply wp_mono; [apply H; try done; [lia|lia|]|].
    { split; [intros x Hx; lia|done]. }
    intros r s2 [(-> & (l2 & F2 & Hl2 & O2) & Hshort)|(-> & l2 & T2 & A2 & [R2 U2 HP2 O2] & Hc & Hk)].
    + destruct (Hkeep s2 O2). split_and!; try done. left. split_and!; [done| |eauto].
      pose proof (grow_need_le T 0 (Z.to_nat (pages sz))). lia.
    + destruct (Hkeep s2 O2). split_and!; try done. right. split; [done|]. exists l2, T2, A2.
      rewrite Z2Nat.id, Z.add_0_l in Hc, Hk by lia. done.
Qed.
End copyuvm.

(** * Witness *)

Fixpoint demo_pages (n : nat) : list Z :=
  match n with O => [] | S n => demo_kend + PGSIZE * (Z.of_nat n + 1) :: demo_pages n end.

Lemma demo_pages_range n p : p ∈ demo_pages n -> demo_kend < p <= demo_kend + PGSIZE * Z.of_nat n.
Proof.
  induction n as [|n IH]; cbn [demo_pages]; [by intros ?%not_elem_of_nil|].
  intros [->|Hp]%elem_of_cons; [unfold PGSIZE; lia|]. specialize (IH Hp). unfold PGSIZE in *. lia.
Qed.

(** Some free pages, and an empty directory. *)
Lemma demo_pool n : (n <= 300)%nat ->
  exists km, free_pages demo_kend km (demo_pages n) /\
    forall x, demo_dir <= x < demo_dir + PGSIZE -> km_mem km x = 0.
Proof.
  induction n as [|n IH]; intros Hn.
  - exists (Kmem false 0 (fun _ => 0)). split; [|done]. by split; [split; [|constructor]|constructor].
  - destruct (IH ltac:(lia)) as (km & [F M] & Hz). set (v := demo_kend + PGSIZE * (Z.of_nat n + 1)).
    assert (Hg : kfree_bad demo_kend v = false).
    { unfold kfree_bad, v, V2P. change demo_kend with 0x80400000. unfold PGSIZE, PHYSTOP, KERNBASE.
      rewrite u32_small by lia. replace (0x80400000 + 4096 * (Z.of_nat n + 1)) with ((0x80400 + Z.of_nat n + 1) * 4096) by lia.
      rewrite Z.mod_mul by lia. cbn [Z.eqb negb orb].
      destruct (Z.ltb_spec ((0x80400 + Z.of_nat n + 1) * 4096) 0x80400000); [lia|].
      destruct (Z.leb_spec 0xE000000 ((0x80400 + Z.of_nat n + 1) * 4096 - 0x80000000)); [lia|done]. }
    destruct (kfree_push demo_kend (proj1 demo_kend_range) km (demo_pages n) v F M Hg) as (km' & _ & F' & _ & Hm).
    { intros Hv%demo_pages_range. unfold v, PGSIZE in Hv. lia. }
    exists km'. split; [split; [exact F'|]|].
    + constructor; [|done]. unfold page_in_memory, v. change demo_kend with 0x80400000. unfold PGSIZE. lia.
    + intros x Hx. rewrite Hm; [by apply Hz|]. left. unfold v, demo_dir, PGSIZE in *. lia.
Qed.

Definition demo_data : Z := KERNBASE + 0x200000.

(** A parent of two pages, with more than two hundred pages free. *)
Lemma demo_parent : exists s l pg T A, free_pages demo_kend s l /\ uspace demo_kend (km_mem s) pg T A /\
  (forall p, holds pg T A p -> p ∉ l) /\ 200 <= Z.of_nat (length l) /\
  forall n, 0 <= n < pages 0x2000 -> present (A n) = true.
Proof.
  destruct demo_kend_range as [Hk Hn]. destruct (demo_pool 300 ltac:(lia)) as (km & F & _).
  assert (Hlen : Z.of_nat (length (demo_pages 300)) = 300) by done.
  pose proof (wp_setupkvm demo_kend demo_data Hk Hn ltac:(done) ltac:(done) (demo_pages 300) km F) as H.
  unfold wp in H. destruct (setupkvm demo_kend demo_data km) as [[pg km1]| | | |]; try done.
  destruct H as [(_ & _ & ?)|(Hne & l & T & Sp & Hroom)]; [unfold KVM_PAGES in *; lia|].
  assert (HK : forall n, 0 <= n < UPAGES -> kernel_map demo_data n = 0) by (by apply kernel_map_user).
  assert (Hsee0 : sees (kernel_map demo_data) km1 (kernel_map demo_data) 0 (fun _ => 0)).
  { split; [|done]. intros x Hx. change (pages 0) with 0 in Hx. lia. }
  pose proof (wp_grow_in demo_kend Hk Hn (kernel_map demo_data) HK _ km km1 l pg T (kernel_map demo_data) 0 0x2000
    (fun _ => 0) Sp Hsee0 ltac:(done) ltac:(done)) as H.
  unfold wp in H. destruct (allocuvm demo_kend pg 0 0x2000 km1) as [[r km2]| | | |]; try done.
  destruct H as [(_ & _ & [?|[?|?]])|(-> & _ & l2 & T2 & A2 & Sp2 & Hsee & Hroom2)]; try done.
  - change (pages 0x2000) with 2 in *. change (pages 0) with 0 in *. unfold KVM_PAGES in Hroom. lia.
  - destruct Sp2 as [R U _ _]. destruct (uspace_of demo_kend _ _ _ _ _ R U) as (F2 & S2 & H2).
    exists km2, l2, pg, T2, A2. split_and!; try done.
    + change (pages (Z.max 0 0x2000)) with 2 in *. change (pages 0) with 0 in *. unfold KVM_PAGES in Hroom. lia.
    + intros n Hx. rewrite <- (page_div n). apply user_page_present. eapply ubyte_user, Hsee.
      change (pages (Z.max 0 0x2000)) with 2. change (pages 0x2000) with 2 in Hx. unfold PGSIZE. lia.
Qed.

(** Enough pages are free for the copy to succeed. *)
Lemma copyuvm_exact_witness : exists s l pg A0,
  KVM_PAGES + 2 * pages 0x2000 + 2 <= Z.of_nat (length l) /\ present (A0 1) = true /\
  wp never (copyuvm demo_kend demo_data pg 0x2000) s (fun d s' => exists T0,
    uspace demo_kend (km_mem s') pg T0 A0 /\
    (forall x, 0 <= x < KERNBASE -> ubyte s' A0 x = ubyte s A0 x) /\
    (d = 0 /\ Z.of_nat (length l) < KVM_PAGES + 2 * pages 0x2000 + 2 /\
       (exists l', free_pages demo_kend s' l' /\ forall p, p ∈ l' <-> p ∈ l) \/
     d <> 0 /\ exists l' T A, aspace demo_kend s' l' d T A /\ user_ok demo_kend l' d T A /\
       (forall p, p ∈ l <-> p ∈ l' \/ holds d T A p) /\
       (forall x, 0 <= x < PGSIZE * pages 0x2000 -> ubyte s' A x = ubyte s A0 x) /\
       (forall n, pages 0x2000 <= n < 2 ^ 20 -> A n = kernel_map demo_data n))).
Proof.
  destruct demo_parent as (s & l & pg & T & A & F & S & Hh & Hlen & Hp). exists s, l, pg, A.
  split; [change (pages 0x2000) with 2; unfold KVM_PAGES; lia|]. split; [by apply Hp|].
  eapply wp_mono; [apply (copyuvm_exact demo_kend demo_data (proj1 demo_kend_range) (proj2 demo_kend_range)
    ltac:(done) ltac:(done) l s pg T A 0x2000); done|].
  intros d s' H. exists T. exact H.
Defined.
