(* ===== verification/Sleeplock.v ===== *)
(** [sleeplock.c]: long-term locks for processes. The inner spin lock makes each
    function body one step, except that [acquiresleep] gives it up while it sleeps. *)

From S2P Require Import Prelude.

Record sleeplock := Sleeplock { sl_locked : bool; sl_pid : Z }.

Definition initsleeplock : sleeplock := Sleeplock false 0.

(** [pid] is [myproc()->pid]; [Block] is the [sleep(lk, &lk->lk)] of the loop, after
    which the condition is tested again. *)
Definition acquiresleep (pid : Z) : M sleeplock unit := fun lk =>
  if sl_locked lk then Block else Ret (tt, Sleeplock true pid).

(** The [wakeup(lk)] is the caller's business: see [sleepers] below. *)
Definition releasesleep : M sleeplock unit := fun lk => Ret (tt, Sleeplock false 0).

Definition holdingsleep (pid : Z) (lk : sleeplock) : bool :=
  sl_locked lk && (sl_pid lk =? pid).

(** * Processes that contend for one lock *)

(** What a process is doing: outside, about to test [lk->locked], asleep on the lock,
    or inside. *)
Inductive phase := Outside | Testing | Asleep | Inside.

#[export] Instance phase_eq_dec : EqDecision phase.
Proof. solve_decision. Defined.

(** Processes are numbered; process [i] has pid [pids i]. *)
Record slsys := Slsys { ss_lock : sleeplock; ss_phase : list phase }.

Section contend.
Context (pids : nat -> Z).

(** [wakeup(lk)]: every sleeper tests again. *)
Definition sleepers (l : list phase) : list phase :=
  (fun p => if decide (p = Asleep) then Testing else p) <$> l.

Inductive sl_step : slsys -> slsys -> Prop :=
| sl_call i lk l :
    l !! i = Some Outside -> sl_step (Slsys lk l) (Slsys lk (<[i := Testing]> l))
| sl_get i lk lk' l :
    l !! i = Some Testing -> acquiresleep (pids i) lk = Ret (tt, lk') ->
    sl_step (Slsys lk l) (Slsys lk' (<[i := Inside]> l))
| sl_sleep i lk l :
    l !! i = Some Testing -> acquiresleep (pids i) lk = Block ->
    sl_step (Slsys lk l) (Slsys lk (<[i := Asleep]> l))
| sl_release i lk lk' l :
    l !! i = Some Inside -> releasesleep lk = Ret (tt, lk') ->
    sl_step (Slsys lk l) (Slsys lk' (sleepers (<[i := Outside]> l))).

Definition sl_init (s : slsys) : Prop :=
  ss_lock s = initsleeplock /\ forall p, p ∈ ss_phase s -> p = Outside.

Record sl_inv (s : slsys) : Prop := {
  sl_inside i : ss_phase s !! i = Some Inside -> ss_lock s = Sleeplock true (pids i);
  sl_one i j : ss_phase s !! i = Some Inside -> ss_phase s !! j = Some Inside -> i = j;
  sl_owner : sl_locked (ss_lock s) = true -> exists i, ss_phase s !! i = Some Inside;
  sl_asleep i : ss_phase s !! i = Some Asleep -> sl_locked (ss_lock s) = true
}.

Lemma sleepers_lookup l i p :
  sleepers l !! i = Some p -> p <> Asleep /\ (p = Inside -> l !! i = Some Inside).
Proof.
  unfold sleepers. rewrite list_lookup_fmap. intros (q & Hq & ->)%fmap_Some.
  case_decide; [done|]. split; [done|]. by intros ->.
Qed.

Lemma sl_step_inv s s' : sl_inv s -> sl_step s s' -> sl_inv s'.
Proof.
  intros [Hin Hone Hown Hsl] Hstep.
  assert (forall (l : list phase) i j p q, <[i := p]> l !! j = Some q ->
    j = i /\ q = p \/ j <> i /\ l !! j = Some q) as Hl.
  { intros l i j p q [(-> & -> & _)|[? ?]]%list_lookup_insert_Some; auto. }
  destruct Hstep as [i lk l Hi|i lk lk' l Hi Ha|i lk l Hi Ha|i lk lk' l Hi Ha]; cbn in *.
  - split; cbn.
    + intros j [[-> ?]|[? Hj]]%Hl; [done|eauto].
    + intros j k [[-> ?]|[? Hj]]%Hl [[-> ?]|[? Hk]]%Hl; eauto; done.
    + intros Hlk. destruct (Hown Hlk) as [j Hj]. exists j. rewrite list_lookup_insert_ne; [done|congruence].
    + intros j [[-> ?]|[? Hj]]%Hl; [done|eauto].
  - unfold acquiresleep in Ha. destruct (sl_locked lk) eqn:Hk; [done|]. simplify_eq.
    assert (forall j, l !! j = Some Inside -> False) as Hno.
    { intros j Hj. apply Hin in Hj. by subst. }
    split; cbn.
    + intros j [[-> ?]|[? Hj]]%Hl; [done|by destruct (Hno j)].
    + intros j k [[-> ?]|[? Hj]]%Hl [[-> ?]|[? Hj']]%Hl; [done|by destruct (Hno k)|by destruct (Hno j)..].
    + intros _. exists i. apply list_lookup_insert_eq. by eapply lookup_lt_Some.
    + done.
  - unfold acquiresleep in Ha. destruct (sl_locked lk) eqn:Hk; [|done]. split; cbn; rewrite ?Hk.
    + intros j [[-> ?]|[? Hj]]%Hl; [done|eauto].
    + intros j k [[-> ?]|[? Hj]]%Hl [[-> ?]|[? Hk']]%Hl; eauto; done.
    + intros _. destruct (Hown eq_refl) as [j Hj]. exists j.
      rewrite list_lookup_insert_ne; [done|congruence].
    + done.
  - unfold releasesleep in Ha. simplify_eq.
    assert (forall j, sleepers (<[i := Outside]> l) !! j = Some Inside -> False) as Hno.
    { intros j [_ Hj]%sleepers_lookup. destruct (Hl _ _ _ _ _ (Hj eq_refl)) as [[? ?]|[Hji Hj']]; [done|].
      by apply Hji, Hone. }
    split; cbn; try done.
    + intros j Hj. by destruct (Hno j).
    + intros j k Hj. by destruct (Hno j).
    + intros j [? _]%sleepers_lookup. done.
Qed.


End contend.

