(* ===== verification/Cache.v ===== *)
(** The interface between the buffer cache and its clients (log.c and fs.c): the
    operations of bio.c on one disk, and what they promise. Clients are written and
    proved against these two classes; Bio.v is the implementation. *)

From S2P Require Import Prelude.

Definition BSIZE : Z := 512.
Definition NBUF : nat := 30.
Definition ROOTDEV : Z := 1.

(** A buffer is named by its index in [bcache.buf]. [bset] stands for stores into
    [b->data] and [bdirty] for [b->flags |= B_DIRTY]. *)
Class Cache (S : Type) := {
  bread : Z -> Z -> M S nat;
  bwrite : nat -> M S unit;
  brelse : nat -> M S unit;
  bdata : nat -> M S (list Z);
  bset : nat -> list Z -> M S unit;
  bdirty : nat -> M S unit;
  bblockno : nat -> M S Z
}.

(** The one way in which [bread] of a block that exists can fail. *)
Definition no_buffers (o : option string) : Prop := o = Some "bget: no buffers".

(** What the cache shows of its state: the contents a [bread] of a block finds, the
    contents of the disk, the disk writes so far, which buffers the caller has locked,
    and which blocks are pinned (dirty). A block that is neither locked nor pinned
    reads as it is on the disk. *)
Class CacheSpec (S : Type) `{!Cache S} := {
  cwf : S -> Prop;
  csize : S -> Z;
  cview : S -> Z -> list Z;
  cdisk : S -> Z -> list Z;
  chist : S -> list (Z * list Z);
  cheld : S -> nat -> option Z;
  cpin : S -> Z -> Prop;

  cview_size s b : cwf s -> 0 <= b < csize s -> length (cview s b) = Z.to_nat BSIZE;
  cdisk_size s b : cwf s -> 0 <= b < csize s -> length (cdisk s b) = Z.to_nat BSIZE;
  cheld_inj s h h' b : cwf s -> cheld s h = Some b -> cheld s h' = Some b -> h = h';
  cheld_range s h b : cwf s -> cheld s h = Some b -> 0 <= b < csize s;
  cclean s b : cwf s -> 0 <= b < csize s -> ~ cpin s b -> (forall h, cheld s h <> Some b) ->
    cview s b = cdisk s b;

  bread_ok s b :
    cwf s -> 0 <= b < csize s -> (forall h, cheld s h <> Some b) ->
    wp no_buffers (bread ROOTDEV b) s (fun h s' =>
      cwf s' /\ csize s' = csize s /\ chist s' = chist s /\
      (forall b', cview s' b' = cview s b') /\ (forall b', cdisk s' b' = cdisk s b') /\
      (forall b', cpin s' b' <-> cpin s b') /\
      cheld s h = None /\
      (forall h', cheld s' h' = if decide (h' = h) then Some b else cheld s h'));

  bdata_ok s h b : cwf s -> cheld s h = Some b -> bdata h s = Ret (cview s b, s);

  bblockno_ok s h b : cwf s -> cheld s h = Some b -> bblockno h s = Ret (b, s);

  bset_ok s h b d : cwf s -> cheld s h = Some b -> length d = Z.to_nat BSIZE ->
    exists s', bset h d s = Ret (tt, s') /\
      cwf s' /\ csize s' = csize s /\ chist s' = chist s /\
      (forall b', cview s' b' = if decide (b' = b) then d else cview s b') /\
      (forall b', cdisk s' b' = cdisk s b') /\ (forall b', cpin s' b' <-> cpin s b') /\
      (forall h', cheld s' h' = cheld s h');

  bdirty_ok s h b : cwf s -> cheld s h = Some b ->
    exists s', bdirty h s = Ret (tt, s') /\
      cwf s' /\ csize s' = csize s /\ chist s' = chist s /\
      (forall b', cview s' b' = cview s b') /\ (forall b', cdisk s' b' = cdisk s b') /\
      (forall b', cpin s' b' <-> b' = b \/ cpin s b') /\
      (forall h', cheld s' h' = cheld s h');

  bwrite_ok s h b : cwf s -> cheld s h = Some b ->
    exists s', bwrite h s = Ret (tt, s') /\
      cwf s' /\ csize s' = csize s /\ chist s' = chist s ++ [(b, cview s b)] /\
      (forall b', cview s' b' = cview s b') /\
      (forall b', cdisk s' b' = if decide (b' = b) then cview s b else cdisk s b') /\
      (forall b', cpin s' b' <-> b' <> b /\ cpin s b') /\
      (forall h', cheld s' h' = cheld s h');

  brelse_ok s h b : cwf s -> cheld s h = Some b -> cpin s b \/ cview s b = cdisk s b ->
    exists s', brelse h s = Ret (tt, s') /\
      cwf s' /\ csize s' = csize s /\ chist s' = chist s /\
      (forall b', cview s' b' = cview s b') /\ (forall b', cdisk s' b' = cdisk s b') /\
      (forall b', cpin s' b' <-> cpin s b') /\
      (forall h', cheld s' h' = if decide (h' = h) then None else cheld s h')
}.

(** * Abstract states of the cache

    The view, the disk, the write history, the locked buffers and the pinned blocks,
    as functions; each operation of the interface is a function of these. *)

Record cst := Cst {
  sv : Z -> list Z;
  sd : Z -> list Z;
  sh : list (Z * list Z);
  sheld : nat -> option Z;
  spin : Z -> Prop
}.

(** Write block [b]. *)
Definition bupd (f : Z -> list Z) (b : Z) (d : list Z) : Z -> list Z :=
  fun b' => if decide (b' = b) then d else f b'.

Lemma bupd_eq f b d : bupd f b d b = d.
Proof. unfold bupd. by rewrite decide_True. Qed.
Lemma bupd_ne f b d b' : b' <> b -> bupd f b d b' = f b'.
Proof. intros. unfold bupd. by rewrite decide_False. Qed.

Definition hupd (f : nat -> option Z) (h : nat) (o : option Z) : nat -> option Z :=
  fun h' => if decide (h' = h) then o else f h'.

Lemma hupd_eq f h o : hupd f h o h = o.
Proof. unfold hupd. by rewrite decide_True. Qed.
Lemma hupd_ne f h o h' : h' <> h -> hupd f h o h' = f h'.
Proof. intros. unfold hupd. by rewrite decide_False. Qed.

(** Close the fields of [cabs] after an operation: rewrite with every known field. *)
Ltac cabs_fields :=
  split_and!; cbn; try assumption; try congruence; intros;
  repeat match goal with
  | H : forall b, cview _ b = _ |- _ => rewrite !H; clear H
  | H : forall b, cdisk _ b = _ |- _ => rewrite !H; clear H
  | H : forall h, cheld _ h = _ |- _ => rewrite !H; clear H
  | H : forall b, cpin _ b <-> _ |- _ => rewrite !H; clear H
  end; unfold bupd, hupd; try case_decide; try done; try congruence.

Section cabs.
Context {S : Type} `{!Cache S, !CacheSpec S}.

Definition cabs (n : Z) (c : S) (a : cst) : Prop :=
  cwf c /\ csize c = n /\ (forall b, cview c b = sv a b) /\ (forall b, cdisk c b = sd a b) /\
  chist c = sh a /\ (forall h, cheld c h = sheld a h) /\ (forall b, cpin c b <-> spin a b).

(** Two abstract states that agree everywhere. *)
Definition cst_eq (a a' : cst) : Prop :=
  (forall b, sv a b = sv a' b) /\ (forall b, sd a b = sd a' b) /\ sh a = sh a' /\
  (forall h, sheld a h = sheld a' h) /\ (forall b, spin a b <-> spin a' b).

Lemma cabs_eq n c a a' : cst_eq a a' -> cabs n c a -> cabs n c a'.
Proof.
  intros (Hv & Hd & Hh & Hl & Hp) (? & ? & Hv' & Hd' & Hh' & Hl' & Hp').
  split_and!; try done; intros; [rewrite Hv'|rewrite Hd'|congruence|rewrite Hl'|rewrite Hp']; done.
Qed.

Lemma bread_abs may n c a b Q :
  (forall o, no_buffers o -> may o) -> cabs n c a -> 0 <= b < n ->
  (forall h, sheld a h <> Some b) ->
  (forall h c', sheld a h = None ->
     cabs n c' (Cst (sv a) (sd a) (sh a) (hupd (sheld a) h (Some b)) (spin a)) -> Q h c') ->
  wp may (bread ROOTDEV b) c Q.
Proof.
  intros Hmay (Hwf & Hn & Hv & Hd & Hh & Hl & Hp) Hb Hfree HQ.
  eapply wp_weaken; [exact Hmay|]. eapply wp_mono.
  - apply bread_ok; [done|by rewrite Hn|]. intros h. by rewrite Hl.
  - intros h c' (? & ? & Hh' & Hv' & Hd' & Hp' & Hnone & Hl'). apply HQ; [by rewrite <- Hl|].
    cabs_fields.
Qed.

Lemma bdata_abs n c a h b : cabs n c a -> sheld a h = Some b -> bdata h c = Ret (sv a b, c).
Proof.
  intros (Hwf & _ & Hv & _ & _ & Hl & _) Hh. rewrite <- Hv. apply bdata_ok; [done|by rewrite Hl].
Qed.

Lemma bblockno_abs n c a h b : cabs n c a -> sheld a h = Some b -> bblockno h c = Ret (b, c).
Proof. intros (Hwf & _ & _ & _ & _ & Hl & _) Hh. apply bblockno_ok; [done|by rewrite Hl]. Qed.

Lemma bset_abs n c a h b d : cabs n c a -> sheld a h = Some b -> length d = Z.to_nat BSIZE ->
  exists c', bset h d c = Ret (tt, c') /\
    cabs n c' (Cst (bupd (sv a) b d) (sd a) (sh a) (sheld a) (spin a)).
Proof.
  intros (Hwf & Hn & Hv & Hd & Hh & Hl & Hp) Hb Hlen.
  destruct (bset_ok c h b d) as (c' & Hrun & Hwf' & Hn' & Hh' & Hv' & Hd' & Hp' & Hl');
    [done|by rewrite Hl|done|].
  exists c'. split; [done|]. cabs_fields.
Qed.

Lemma bdirty_abs n c a h b : cabs n c a -> sheld a h = Some b ->
  exists c', bdirty h c = Ret (tt, c') /\
    cabs n c' (Cst (sv a) (sd a) (sh a) (sheld a) (fun b' => b' = b \/ spin a b')).
Proof.
  intros (Hwf & Hn & Hv & Hd & Hh & Hl & Hp) Hb.
  destruct (bdirty_ok c h b) as (c' & Hrun & Hwf' & Hn' & Hh' & Hv' & Hd' & Hp' & Hl');
    [done|by rewrite Hl|].
  exists c'. split; [done|]. cabs_fields.
Qed.

Lemma bwrite_abs n c a h b : cabs n c a -> sheld a h = Some b ->
  exists c', bwrite h c = Ret (tt, c') /\
    cabs n c' (Cst (sv a) (bupd (sd a) b (sv a b)) (sh a ++ [(b, sv a b)]) (sheld a)
                 (fun b' => b' <> b /\ spin a b')).
Proof.
  intros (Hwf & Hn & Hv & Hd & Hh & Hl & Hp) Hb.
  destruct (bwrite_ok c h b) as (c' & Hrun & Hwf' & Hn' & Hh' & Hv' & Hd' & Hp' & Hl');
    [done|by rewrite Hl|].
  exists c'. split; [done|]. cabs_fields.
Qed.

Lemma brelse_abs n c a h b : cabs n c a -> sheld a h = Some b -> spin a b \/ sv a b = sd a b ->
  exists c', brelse h c = Ret (tt, c') /\
    cabs n c' (Cst (sv a) (sd a) (sh a) (hupd (sheld a) h None) (spin a)).
Proof.
  intros (Hwf & Hn & Hv & Hd & Hh & Hl & Hp) Hb Hcl.
  destruct (brelse_ok c h b) as (c' & Hrun & Hwf' & Hn' & Hh' & Hv' & Hd' & Hp' & Hl');
    [done|by rewrite Hl|by rewrite Hp, Hv, Hd|].
  exists c'. split; [done|]. cabs_fields.
Qed.

Lemma cabs_size n c a b : cabs n c a -> 0 <= b < n -> length (sv a b) = Z.to_nat BSIZE.
Proof. intros (Hwf & Hn & Hv & _) Hb. rewrite <- Hv. apply cview_size; [done|]. by rewrite Hn. Qed.

Lemma cabs_disk_size n c a b : cabs n c a -> 0 <= b < n -> length (sd a b) = Z.to_nat BSIZE.
Proof. intros (Hwf & Hn & _ & Hd & _) Hb. rewrite <- Hd. apply cdisk_size; [done|]. by rewrite Hn. Qed.

Lemma cabs_clean n c a b : cabs n c a -> 0 <= b < n -> ~ spin a b ->
  (forall h, sheld a h <> Some b) -> sv a b = sd a b.
Proof.
  intros (Hwf & Hn & Hv & Hd & _ & Hl & Hp) Hb Hnp Hnh. rewrite <- Hv, <- Hd.
  apply cclean; [done|by rewrite Hn|by rewrite Hp|]. intros h. by rewrite Hl.
Qed.

Lemma cabs_inj n c a h h' b : cabs n c a -> sheld a h = Some b -> sheld a h' = Some b -> h = h'.
Proof.
  intros (Hwf & _ & _ & _ & _ & Hl & _) H1 H2. eapply cheld_inj; [done|rewrite Hl..]; done.
Qed.
End cabs.
