(* ===== verification/Bio.v ===== *)
(** [bio.c], the buffer cache, over the memory disk of [memide.c].

    The buffers and the list head are nodes of one array; [prev] and [next] are
    indices into it, as in the C code, and the list is updated pointer by pointer. The
    disk records, as ghost state, the writes made to it. *)

From S2P Require Import Prelude Sleeplock Cache.

Definition B_VALID : Z := 2.
Definition B_DIRTY : Z := 4.

Record buf := Buf {
  b_flags : Z;
  b_dev : Z;
  b_blockno : Z;
  b_lock : sleeplock;
  b_refcnt : Z;
  b_prev : nat;
  b_next : nat;
  b_data : list Z
}.

Record bio := Bio {
  bc_buf : list buf;                 (** [bcache.buf], then [bcache.head] *)
  d_blocks : list (list Z);          (** the memory disk *)
  d_hist : list (Z * list Z)
}.

(** The index of [bcache.head]. *)
Definition head : nat := NBUF.

Definition set_flags v b := Buf v (b_dev b) (b_blockno b) (b_lock b) (b_refcnt b) (b_prev b) (b_next b) (b_data b).
Definition set_lock v b := Buf (b_flags b) (b_dev b) (b_blockno b) v (b_refcnt b) (b_prev b) (b_next b) (b_data b).
Definition set_refcnt v b := Buf (b_flags b) (b_dev b) (b_blockno b) (b_lock b) v (b_prev b) (b_next b) (b_data b).
Definition set_prev v b := Buf (b_flags b) (b_dev b) (b_blockno b) (b_lock b) (b_refcnt b) v (b_next b) (b_data b).
Definition set_next v b := Buf (b_flags b) (b_dev b) (b_blockno b) (b_lock b) (b_refcnt b) (b_prev b) v (b_data b).
Definition set_data v b := Buf (b_flags b) (b_dev b) (b_blockno b) (b_lock b) (b_refcnt b) (b_prev b) (b_next b) v.

Definition getb (i : nat) : M bio buf := fun s =>
  match bc_buf s !! i with Some b => Ret (b, s) | None => Fault end.

Definition updb (i : nat) (f : buf -> buf) : M bio unit := fun s =>
  match bc_buf s !! i with
  | Some b => Ret (tt, Bio (<[i := f b]> (bc_buf s)) (d_blocks s) (d_hist s))
  | None => Fault
  end.

(** Run a sleep lock function on the lock of buffer [i]. *)
Definition on_block (i : nat) (m : M sleeplock unit) : M bio unit := fun s =>
  match bc_buf s !! i with
  | Some b =>
      match m (b_lock b) with
      | Ret (_, lk) => Ret (tt, Bio (<[i := set_lock lk b]> (bc_buf s)) (d_blocks s) (d_hist s))
      | Panic e => Panic e | Block => Block | Fault => Fault | NoFuel => NoFuel
      end
  | None => Fault
  end.

(** One turn of the loop of [binit]: buffer [b] becomes the first of the list. *)
Definition binit_one (b : nat) : M bio unit :=
  let* h := getb head in
  updb b (set_next (b_next h)) ;;;
  updb b (set_prev head) ;;;
  updb b (set_lock initsleeplock) ;;;
  let* h := getb head in
  updb (b_next h) (set_prev b) ;;;
  updb head (set_next b).

Fixpoint binit_loop (n b : nat) : M bio unit :=
  match n with
  | O => ret tt
  | S n => binit_one b ;;; binit_loop n (S b)
  end.

Definition binit : M bio unit :=
  updb head (set_prev head) ;;;
  updb head (set_next head) ;;;
  binit_loop NBUF 0.

(** [for(b = bcache.head.next; b != &bcache.head; b = b->next) if(test(b)) ...], with
    [dir] the pointer followed. *)
Fixpoint scan (dir : buf -> nat) (test : buf -> bool) (fuel i : nat) : M bio (option nat) :=
  match fuel with
  | O => fun _ => NoFuel
  | S fuel =>
      if (i =? head)%nat then ret None
      else
        let* b := getb i in
        if test b then ret (Some i) else scan dir test fuel (dir b)
  end.

Definition is_block (dev blockno : Z) (b : buf) : bool :=
  (b_dev b =? dev) && (b_blockno b =? blockno).

Definition recyclable (b : buf) : bool :=
  (b_refcnt b =? 0) && (Z.land (b_flags b) B_DIRTY =? 0).

Section bio.
(** The pid of the calling process. *)
Context (pid : Z).

Definition bget (dev blockno : Z) : M bio nat :=
  let* h := getb head in
  let* o := scan b_next (is_block dev blockno) (S NBUF) (b_next h) in
  match o with
  | Some i =>
      updb i (fun b => set_refcnt (b_refcnt b + 1) b) ;;;
      on_block i (acquiresleep pid) ;;;
      ret i
  | None =>
      let* o := scan b_prev recyclable (S NBUF) (b_prev h) in
      match o with
      | Some i =>
          updb i (fun b => Buf 0 dev blockno (b_lock b) 1 (b_prev b) (b_next b) (b_data b)) ;;;
          on_block i (acquiresleep pid) ;;;
          ret i
      | None => panic "bget: no buffers"
      end
  end.

(** memide.c: [memmove(p, b->data, BSIZE)] to the disk, or back. *)
Definition iderw (i : nat) : M bio unit :=
  let* b := getb i in
  if negb (holdingsleep pid (b_lock b)) then panic "iderw: buf not locked"
  else if Z.land (b_flags b) (Z.lor B_VALID B_DIRTY) =? B_VALID then panic "iderw: nothing to do"
  else if negb (b_dev b =? 1) then panic "iderw: request not for disk 1"
  else
    let* disk := gets d_blocks in
    if Z.of_nat (length disk) <=? b_blockno b then panic "iderw: block out of range"
    else
      if negb (Z.land (b_flags b) B_DIRTY =? 0) then
        updb i (fun b => set_flags (Z.land (b_flags b) (Z.lnot B_DIRTY)) b) ;;;
        modify (fun s => Bio (bc_buf s) (<[Z.to_nat (b_blockno b) := b_data b]> (d_blocks s))
                           (d_hist s ++ [(b_blockno b, b_data b)])) ;;;
        updb i (fun b => set_flags (Z.lor (b_flags b) B_VALID) b)
      else
        match disk !! Z.to_nat (b_blockno b) with
        | None => fault
        | Some d =>
            updb i (set_data d) ;;;
            updb i (fun b => set_flags (Z.lor (b_flags b) B_VALID) b)
        end.

Definition bio_bread (dev blockno : Z) : M bio nat :=
  let* i := bget dev blockno in
  let* b := getb i in
  if Z.land (b_flags b) B_VALID =? 0 then iderw i ;;; ret i else ret i.

Definition bio_bwrite (i : nat) : M bio unit :=
  let* b := getb i in
  if negb (holdingsleep pid (b_lock b)) then panic "bwrite"
  else
    updb i (fun b => set_flags (Z.lor (b_flags b) B_DIRTY) b) ;;;
    iderw i.

(** The six assignments that move buffer [i] to the front of the list. *)
Definition to_front (i : nat) : M bio unit :=
  let* b := getb i in
  updb (b_next b) (set_prev (b_prev b)) ;;;
  let* b := getb i in
  updb (b_prev b) (set_next (b_next b)) ;;;
  let* h := getb head in
  updb i (set_next (b_next h)) ;;;
  updb i (set_prev head) ;;;
  let* h := getb head in
  updb (b_next h) (set_prev i) ;;;
  updb head (set_next i).

Definition bio_brelse (i : nat) : M bio unit :=
  let* b := getb i in
  if negb (holdingsleep pid (b_lock b)) then panic "brelse"
  else
    on_block i releasesleep ;;;
    updb i (fun b => set_refcnt (b_refcnt b - 1) b) ;;;
    let* b := getb i in
    if b_refcnt b =? 0 then to_front i else ret tt.

#[export] Instance bio_cache : Cache bio := {|
  bread := bio_bread;
  bwrite := bio_bwrite;
  brelse := bio_brelse;
  bdata i := let* b := getb i in ret (b_data b);
  bset i d := updb i (set_data d);
  bdirty i := updb i (fun b => set_flags (Z.lor (b_flags b) B_DIRTY) b);
  bblockno i := let* b := getb i in ret (b_blockno b)
|}.

End bio.
