(* ===== verification/BioSpec.v ===== *)
(** The buffer cache of Bio.v implements the interface of Cache.v: the doubly linked
    list is well formed and ordered by recency of release, no block is cached twice,
    and unlocked clean buffers agree with the disk. *)

From S2P Require Import Prelude Sleeplock Cache Bio.

(** * Doubly linked segments

    [N] and [P] are the [next] and [prev] pointers. *)

Definition fupd (f : nat -> nat) (i v : nat) : nat -> nat :=
  fun j => if decide (j = i) then v else f j.

Lemma fupd_eq f i v : fupd f i v i = v.
Proof. unfold fupd. by rewrite decide_True. Qed.
Lemma fupd_ne f i v j : j <> i -> fupd f i v j = f j.
Proof. intros. unfold fupd. by rewrite decide_False. Qed.

(** From [x] along [l] to [y], linked both ways. *)
Fixpoint seg (N P : nat -> nat) (x : nat) (l : list nat) (y : nat) : Prop :=
  match l with
  | [] => N x = y /\ P y = x
  | a :: l => (N x = a /\ P a = x) /\ seg N P a l y
  end.

Lemma seg_app N P l1 : forall x a l2 y,
  seg N P x (l1 ++ a :: l2) y <-> seg N P x l1 a /\ seg N P a l2 y.
Proof.
  induction l1 as [|b l1 IH]; intros x a l2 y; cbn [app seg]; [done|].
  rewrite IH. tauto.
Qed.

Lemma seg_frame N P N' P' l : forall x y,
  (forall z, z ∈ x :: l -> N' z = N z) -> (forall z, z ∈ l ++ [y] -> P' z = P z) ->
  seg N P x l y -> seg N' P' x l y.
Proof.
  induction l as [|a l IH]; intros x y HN HP; cbn [seg].
  - intros [Hn Hp]. rewrite HN, HP by by left. done.
  - intros [[Hn Hp] Hs]. split.
    + rewrite HN, HP by by left. done.
    + apply IH; [|intros z Hz; apply HP; by right|done]. intros z Hz. apply HN. by right.
Qed.

Lemma seg_rev N P l : forall x y, seg N P x l y -> seg P N y (reverse l) x.
Proof.
  induction l as [|a l IH]; intros x y; cbn [seg].
  - intros [<- ?]. done.
  - intros [[? ?] Hs]. rewrite reverse_cons. apply seg_app. split; [by apply IH|done].
Qed.

(** Insertion after [h] and removal, as the code does them. *)
Lemma seg_push N P h i l :
  NoDup (h :: i :: l) -> seg N P h l h ->
  seg (fupd (fupd N i (N h)) h i) (fupd (fupd P i h) (N h) i) h (i :: l) h.
Proof.
  intros Hnd Hs. apply NoDup_cons in Hnd as [Hh Hnd]. apply NoDup_cons in Hnd as [Hi Hnd].
  rewrite not_elem_of_cons in Hh. destruct Hh as [Hhi Hh]. cbn [seg]. rewrite fupd_eq.
  destruct l as [|a l]; cbn [seg] in *.
  - destruct Hs as [HN HP]. rewrite HN.
    unfold fupd. repeat case_decide; done.
  - destruct Hs as [[HN HP] Hs]. rewrite HN. rewrite not_elem_of_cons in Hi, Hh.
    destruct Hi as [Hia Hi], Hh as [Hha Hh].
    split_and!; [done|unfold fupd; repeat case_decide; done..|].
    apply NoDup_cons in Hnd as [Ha Hnd].
    revert Hs. apply seg_frame.
    + intros z Hz. rewrite !fupd_ne; [done| |]; intros ->; apply elem_of_cons in Hz as [?|?]; done.
    + intros z Hz. apply elem_of_app in Hz as [Hz|Hz%list_elem_of_singleton].
      * rewrite !fupd_ne; [done| |]; by intros ->.
      * subst z. rewrite !fupd_ne by done. done.
Qed.

Lemma seg_last_in N P l : forall x i, seg N P x l i -> P i ∈ x :: l.
Proof.
  induction l as [|a l IH]; intros x i; cbn [seg].
  - intros [_ ->]. by left.
  - intros [_ Hs]. right. by apply IH.
Qed.

(** The segment that ended in [i] ends in [v] instead. *)
Lemma seg_retarget N P v l : forall x i,
  NoDup (x :: l) -> v ∉ l -> seg N P x l i ->
  seg (fupd N (P i) v) (fupd P v (P i)) x l v.
Proof.
  induction l as [|a l IH]; intros x i Hnd Hv; cbn [seg].
  - intros [_ ->]. by rewrite !fupd_eq.
  - intros [[HN HP] Hs]. apply NoDup_cons in Hnd as [Hx Hnd].
    rewrite not_elem_of_cons in Hv. destruct Hv as [Hva Hv]. split; [|by apply IH].
    pose proof (seg_last_in _ _ _ _ _ Hs). rewrite !fupd_ne; [done|done|]. by intros ->.
Qed.

Lemma seg_unlink N P h i l1 l2 :
  NoDup (h :: l1 ++ i :: l2) -> seg N P h (l1 ++ i :: l2) h ->
  seg (fupd N (P i) (N i)) (fupd P (N i) (P i)) h (l1 ++ l2) h.
Proof.
  intros Hnd [H1 H2]%seg_app. apply NoDup_cons in Hnd as [Hh Hnd].
  rewrite elem_of_app, elem_of_cons in Hh. apply NoDup_app in Hnd as (Hn1 & Hd & Hn2).
  assert (NoDup (h :: l1)) as Hn by (apply NoDup_cons; tauto).
  destruct l2 as [|c l2]; cbn [seg] in H2.
  - destruct H2 as [-> _]. rewrite app_nil_r. apply seg_retarget; tauto.
  - destruct H2 as [[-> HP] H2]. apply seg_app. rewrite elem_of_cons in Hh.
    apply NoDup_cons in Hn2 as [Hi2 Hn2]. apply NoDup_cons in Hn2 as [Hc2 Hn2]. split.
    + apply seg_retarget; [done| |done]. intros Hc. apply (Hd c Hc). right. by left.
    + pose proof (seg_last_in _ _ _ _ _ H1) as Hin. revert H2. apply seg_frame; intros z Hz.
      * apply fupd_ne. intros ->. apply elem_of_cons in Hin as [Hin|Hin].
        -- rewrite Hin, elem_of_cons in Hz. tauto.
        -- apply (Hd _ Hin). by right.
      * apply fupd_ne. intros ->. rewrite elem_of_app, list_elem_of_singleton in Hz.
        destruct Hz as [?|<-]; tauto.
Qed.

(** * The list of buffers *)

Definition nxt (nb : list buf) (i : nat) : nat := default i (b_next <$> nb !! i).
Definition prv (nb : list buf) (i : nat) : nat := default i (b_prev <$> nb !! i).

(** Everything in a buffer but its list pointers. *)
Definition bkey (b : buf) := (b_flags b, b_dev b, b_blockno b, b_lock b, b_refcnt b, b_data b).

Definition same_keys (nb nb' : list buf) : Prop :=
  forall j, bkey <$> nb' !! j = bkey <$> nb !! j.

Lemma same_keys_trans a b c : same_keys a b -> same_keys b c -> same_keys a c.
Proof. unfold same_keys. intros H1 H2 j. by rewrite H2. Qed.

(** The buffers in list order, most recently released first. *)
Definition ring (nb : list buf) (ord : list nat) : Prop :=
  length nb = S NBUF /\ ord ≡ₚ seq 0 NBUF /\ seg (nxt nb) (prv nb) head ord head.

Lemma ring_NoDup nb ord : ring nb ord -> NoDup (head :: ord).
Proof.
  intros (_ & Hp & _). rewrite Hp. apply NoDup_cons. split; [|apply NoDup_seq].
  rewrite elem_of_seq. unfold head. lia.
Qed.

Lemma ring_elem nb ord i : ring nb ord -> i ∈ ord <-> (i < NBUF)%nat.
Proof. intros (_ & Hp & _). rewrite Hp, elem_of_seq. lia. Qed.

Lemma getb_lt s i : (i < length (bc_buf s))%nat ->
  exists b, bc_buf s !! i = Some b /\ getb i s = Ret (b, s) /\
    b_next b = nxt (bc_buf s) i /\ b_prev b = prv (bc_buf s) i.
Proof.
  intros Hi. destruct (lookup_lt_is_Some_2 _ _ Hi) as [b Hb]. exists b.
  unfold getb, nxt, prv. by rewrite Hb.
Qed.

Definition with_buf (nb : list buf) (s : bio) : bio := Bio nb (d_blocks s) (d_hist s).

Lemma updb_next s i v : (i < length (bc_buf s))%nat ->
  exists nb, updb i (set_next v) s = Ret (tt, with_buf nb s) /\ length nb = length (bc_buf s) /\
    (forall j, nxt nb j = fupd (nxt (bc_buf s)) i v j) /\
    (forall j, prv nb j = prv (bc_buf s) j) /\ same_keys (bc_buf s) nb.
Proof.
  intros Hi. destruct (lookup_lt_is_Some_2 _ _ Hi) as [b Hb]. unfold updb. rewrite Hb.
  eexists. split; [done|]. rewrite length_insert. split; [done|].
  unfold nxt, prv, fupd, same_keys. split_and!; intros j; destruct (decide (j = i)) as [->|Hj];
    rewrite ?list_lookup_insert_eq, ?list_lookup_insert_ne by done; rewrite ?Hb; done.
Qed.

Lemma updb_prev s i v : (i < length (bc_buf s))%nat ->
  exists nb, updb i (set_prev v) s = Ret (tt, with_buf nb s) /\ length nb = length (bc_buf s) /\
    (forall j, nxt nb j = nxt (bc_buf s) j) /\
    (forall j, prv nb j = fupd (prv (bc_buf s)) i v j) /\ same_keys (bc_buf s) nb.
Proof.
  intros Hi. destruct (lookup_lt_is_Some_2 _ _ Hi) as [b Hb]. unfold updb. rewrite Hb.
  eexists. split; [done|]. rewrite length_insert. split; [done|].
  unfold nxt, prv, fupd, same_keys. split_and!; intros j; destruct (decide (j = i)) as [->|Hj];
    rewrite ?list_lookup_insert_eq, ?list_lookup_insert_ne by done; rewrite ?Hb; done.
Qed.

Lemma seg_ext N P N' P' x l y :
  (forall j, N' j = N j) -> (forall j, P' j = P j) -> seg N P x l y -> seg N' P' x l y.
Proof. intros HN HP. apply seg_frame; auto. Qed.

Lemma fupd_ext f g i v j : (forall k, f k = g k) -> fupd f i v j = fupd g i v j.
Proof. unfold fupd. case_decide; auto. Qed.

Lemma seg_bound N P l x y (n : nat) :
  (forall z, z ∈ x :: l -> z < n)%nat -> (y < n)%nat -> seg N P x l y ->
  forall z, z ∈ x :: l -> (N z < n)%nat.
Proof.
  revert x. induction l as [|a l IH]; intros x Hz Hy; cbn [seg].
  - intros [HN _] z ->%list_elem_of_singleton. by rewrite HN.
  - intros [[HN _] Hs] z [->|Hin]%elem_of_cons.
    + rewrite HN. apply Hz. right. by left.
    + apply (IH a); [|done|done|done]. intros w Hw. apply Hz. by right.
Qed.

(** The last four assignments of [brelse], which are also the loop body of [binit]:
    buffer [i], not in the list, goes to the front. *)
Definition push_front (i : nat) : M bio unit :=
  let* h := getb head in
  updb i (set_next (b_next h)) ;;;
  updb i (set_prev head) ;;;
  let* h := getb head in
  updb (b_next h) (set_prev i) ;;;
  updb head (set_next i).

Lemma push_front_ok s i l :
  length (bc_buf s) = S NBUF -> NoDup (head :: i :: l) ->
  (forall z, z ∈ i :: l -> z < NBUF)%nat ->
  seg (nxt (bc_buf s)) (prv (bc_buf s)) head l head ->
  exists nb, push_front i s = Ret (tt, with_buf nb s) /\ length nb = S NBUF /\
    seg (nxt nb) (prv nb) head (i :: l) head /\ same_keys (bc_buf s) nb.
Proof.
  intros Hlen Hnd Hlt Hs. unfold push_front.
  assert (i < NBUF)%nat as Hi by (apply Hlt; by left).
  assert (nxt (bc_buf s) head < S NBUF)%nat as Hf.
  { eapply seg_bound; [| |exact Hs|by left]; [|unfold head; lia].
    intros z [->|Hz]%elem_of_cons; [unfold head; lia|]. specialize (Hlt z). rewrite elem_of_cons in Hlt.
    specialize (Hlt (or_intror Hz)). lia. }
  destruct (getb_lt s head) as (h & _ & Hh & Hn & _); [unfold head; lia|].
  rewrite (bind_Ret _ _ _ _ _ Hh). rewrite Hn.
  destruct (updb_next s i (nxt (bc_buf s) head)) as (n1 & E1 & L1 & N1 & P1 & K1); [lia|].
  rewrite (bind_Ret _ _ _ _ _ E1).
  destruct (updb_prev (with_buf n1 s) i head) as (n2 & E2 & L2 & N2 & P2 & K2); [cbn; lia|].
  rewrite (bind_Ret _ _ _ _ _ E2). cbn [with_buf bc_buf] in *.
  destruct (getb_lt (with_buf n2 s) head) as (h2 & _ & Hh2 & Hn2 & _); [cbn; unfold head; lia|].
  rewrite (bind_Ret _ _ _ _ _ Hh2). cbn in Hn2.
  assert (b_next h2 = nxt (bc_buf s) head) as Hn2'.
  { rewrite Hn2, N2, N1. apply fupd_ne. unfold head. lia. }
  rewrite Hn2'.
  destruct (updb_prev (with_buf n2 s) (nxt (bc_buf s) head) i) as (n3 & E3 & L3 & N3 & P3 & K3);
    [cbn; lia|].
  rewrite (bind_Ret _ _ _ _ _ E3). cbn [with_buf bc_buf] in *.
  destruct (updb_next (with_buf n3 s) head i) as (n4 & E4 & L4 & N4 & P4 & K4);
    [cbn; unfold head; lia|]. cbn [with_buf bc_buf] in *.
  exists n4. split; [exact E4|]. split; [lia|]. split.
  - eapply seg_ext; [| |by apply seg_push].
    + intros j. rewrite N4. apply fupd_ext. intros k. by rewrite N3, N2, N1.
    + intros j. rewrite P4, P3. apply fupd_ext. intros k. rewrite P2. apply fupd_ext.
      intros m. by rewrite P1.
  - repeat (eapply same_keys_trans; [eassumption|]). done.
Qed.

Lemma seg_bound_prev N P l x y (n : nat) :
  (forall z, z ∈ l ++ [y] -> z < n)%nat -> (x < n)%nat -> seg N P x l y ->
  forall z, z ∈ l ++ [y] -> (P z < n)%nat.
Proof.
  intros Hl Hx Hs z Hz. apply seg_rev in Hs. eapply seg_bound; [|exact Hx|exact Hs|].
  - intros w Hw. apply Hl. revert Hw. rewrite !elem_of_app, !elem_of_cons, elem_of_reverse,
      elem_of_nil. tauto.
  - revert Hz. rewrite !elem_of_app, !elem_of_cons, elem_of_reverse, elem_of_nil. tauto.
Qed.

(** [brelse] moves the buffer to the front and keeps the order of the others. *)
Lemma to_front_ok s i l1 l2 :
  ring (bc_buf s) (l1 ++ i :: l2) ->
  exists nb, to_front i s = Ret (tt, with_buf nb s) /\ ring nb (i :: l1 ++ l2) /\
    same_keys (bc_buf s) nb.
Proof.
  intros Hr. pose proof (ring_NoDup _ _ Hr) as Hnd. pose proof Hr as (Hlen & Hperm & Hs).
  assert (forall z, z ∈ head :: l1 ++ i :: l2 -> z < S NBUF)%nat as Hb.
  { intros z [->|Hz]%elem_of_cons; [unfold head; lia|]. apply (ring_elem _ _ _ Hr) in Hz. lia. }
  assert (i ∈ l1 ++ i :: l2) as Hin by (rewrite elem_of_app, elem_of_cons; tauto).
  assert (nxt (bc_buf s) i < S NBUF)%nat as Hn.
  { eapply seg_bound; [exact Hb| |exact Hs|by right]. unfold head; lia. }
  assert (prv (bc_buf s) i < S NBUF)%nat as Hp.
  { eapply seg_bound_prev; [|by unfold head; apply Nat.lt_succ_diag_r|exact Hs|rewrite elem_of_app; by left].
    intros z Hz. apply Hb. revert Hz. rewrite (elem_of_app _ [head]), !elem_of_cons, elem_of_nil. tauto. }
  assert (i < S NBUF)%nat as Hi by (apply Hb; by right).
  assert (i <> nxt (bc_buf s) i) as Hne.
  { pose proof Hs as Hs2. apply seg_app in Hs2 as [_ Hs2]. apply NoDup_cons in Hnd as [Hh Hnd].
    apply NoDup_app in Hnd as (_ & _ & Hnd). apply NoDup_cons in Hnd as [Hi2 _].
    rewrite elem_of_app, elem_of_cons in Hh.
    destruct l2 as [|c l2]; cbn [seg] in Hs2; [destruct Hs2 as [-> _]; intros ->; tauto|].
    destruct Hs2 as [[-> _] _]. intros ->. apply Hi2. by left. }
  unfold to_front.
  destruct (getb_lt s i) as (b & _ & Hg & Hbn & Hbp); [lia|]. rewrite (bind_Ret _ _ _ _ _ Hg).
  rewrite Hbn, Hbp.
  destruct (updb_prev s (nxt (bc_buf s) i) (prv (bc_buf s) i)) as (n1 & E1 & L1 & N1 & P1 & K1); [lia|].
  rewrite (bind_Ret _ _ _ _ _ E1).
  destruct (getb_lt (with_buf n1 s) i) as (b1 & _ & Hg1 & Hbn1 & Hbp1); [cbn; lia|].
  rewrite (bind_Ret _ _ _ _ _ Hg1). cbn [with_buf bc_buf] in *.
  rewrite N1 in Hbn1. rewrite P1, fupd_ne in Hbp1 by done. rewrite Hbn1, Hbp1.
  destruct (updb_next (with_buf n1 s) (prv (bc_buf s) i) (nxt (bc_buf s) i))
    as (n2 & E2 & L2 & N2 & P2 & K2); [cbn; lia|].
  rewrite (bind_Ret _ _ _ _ _ E2). cbn [with_buf bc_buf] in *.
  destruct (push_front_ok (with_buf n2 s) i (l1 ++ l2)) as (n3 & E3 & L3 & S3 & K3).
  - cbn. lia.
  - by rewrite Permutation_middle.
  - intros z Hz. rewrite (Permutation_middle l1 l2 i) in Hz. by apply (ring_elem _ _ _ Hr).
  - eapply seg_ext; [| |by apply seg_unlink]; cbn.
    + intros j. rewrite N2. by apply fupd_ext.
    + intros j. rewrite P2. apply P1.
  - exists n3. split; [exact E3|]. split.
    + split; [done|]. split; [|done]. by rewrite Permutation_middle.
    + repeat (eapply same_keys_trans; [eassumption|]). done.
Qed.

(** * Scans *)

(** The first buffer of [l] that passes the test. *)
Definition pick (nb : list buf) (test : buf -> bool) (l : list nat) : option nat :=
  find (fun i => match nb !! i with Some b => test b | None => false end) l.

Lemma scan_ok dir test D s l : forall x fuel,
  (forall i b, bc_buf s !! i = Some b -> dir b = D i) ->
  (forall z, z ∈ l -> z < NBUF)%nat -> length (bc_buf s) = S NBUF -> (length l < fuel)%nat ->
  (exists P, seg D P x l head) ->
  scan dir test fuel (D x) s = Ret (pick (bc_buf s) test l, s).
Proof.
  induction l as [|a l IH]; intros x fuel Hd Hlt Hlen Hf Hs; destruct fuel as [|fuel];
    cbn in Hf; try lia; cbn [scan].
  - assert (D x = head) as -> by (destruct Hs as [P [? _]]; done).
    by rewrite Nat.eqb_refl.
  - assert (D x = a /\ exists P, seg D P a l head) as (-> & P & Hs').
    { destruct Hs as [P [[? _] ?]]. eauto. }
    assert (a < NBUF)%nat as Ha by (apply Hlt; by left).
    destruct (Nat.eqb_spec a head) as [->|Hne]; [unfold head in Ha; lia|].
    destruct (getb_lt s a) as (b & Hb & Hg & _ & _); [lia|]. rewrite (bind_Ret _ _ _ _ _ Hg).
    unfold pick. cbn [find]. rewrite Hb. destruct (test b); [done|].
    rewrite (Hd a b Hb). apply IH; [done| |done|lia|eauto]. intros z Hz. apply Hlt. by right.
Qed.

(** * The invariant and what the cache shows *)

Section spec.
Context (pid : Z).

Record buf_ok (dk : list (list Z)) (b : buf) : Prop := {
  bo_in : b_dev b = 1 -> 0 <= b_blockno b < Z.of_nat (length dk) /\
    length (b_data b) = Z.to_nat BSIZE /\ (b_flags b = 2 \/ b_flags b = 6);
  bo_out : b_dev b <> 1 -> b_flags b = 0 /\ b_refcnt b = 0;
  bo_lock : b_refcnt b = 0 /\ b_lock b = initsleeplock \/
            b_refcnt b = 1 /\ b_lock b = Sleeplock true pid;
  bo_clean : b_dev b = 1 -> b_refcnt b = 0 -> b_flags b = 2 ->
    dk !! Z.to_nat (b_blockno b) = Some (b_data b)
}.

Definition at_buf (s : bio) (i : nat) (b : buf) : Prop := (i < NBUF)%nat /\ bc_buf s !! i = Some b.

Record bio_wf (s : bio) : Prop := {
  w_ring : exists ord, ring (bc_buf s) ord;
  w_buf i b : at_buf s i b -> buf_ok (d_blocks s) b;
  w_uniq i j b c : at_buf s i b -> at_buf s j c -> b_dev b = 1 -> b_dev c = 1 ->
    b_blockno b = b_blockno c -> i = j;
  w_disk d : d ∈ d_blocks s -> length d = Z.to_nat BSIZE
}.

Definition bio_disk (s : bio) (b : Z) : list Z :=
  if b <? 0 then [] else default [] (d_blocks s !! Z.to_nat b).
Definition bio_view (s : bio) (b : Z) : list Z :=
  match findi (is_block 1 b) (take NBUF (bc_buf s)) with
  | Some i => default [] (b_data <$> bc_buf s !! i)
  | None => bio_disk s b
  end.
Definition bio_held (s : bio) (h : nat) : option Z :=
  if decide (h < NBUF)%nat then
    match bc_buf s !! h with
    | Some b => if b_refcnt b =? 1 then Some (b_blockno b) else None
    | None => None
    end
  else None.
Definition bio_pin (s : bio) (b : Z) : Prop :=
  exists i x, at_buf s i x /\ b_dev x = 1 /\ b_blockno x = b /\ b_flags x = 6.

Lemma disk_lookup s b d : 0 <= b -> d_blocks s !! Z.to_nat b = Some d -> bio_disk s b = d.
Proof. intros Hb Hd. unfold bio_disk. destruct (Z.ltb_spec b 0); [lia|]. by rewrite Hd. Qed.

Lemma is_block_true dev bn b : is_block dev bn b = true <-> b_dev b = dev /\ b_blockno b = bn.
Proof. unfold is_block. rewrite andb_true_iff, !Z.eqb_eq. done. Qed.

Lemma view_cached s i x : bio_wf s -> at_buf s i x -> b_dev x = 1 ->
  bio_view s (b_blockno x) = b_data x.
Proof.
  intros Hwf [Hi Hx] Hd. unfold bio_view.
  destruct (findi _ _) as [j|] eqn:Hf.
  - apply findi_Some in Hf as (y & Hy & [Hyd Hyb]%is_block_true & _).
    apply lookup_take_Some in Hy as [Hy Hj].
    assert (j = i) as -> by (eapply (w_uniq s Hwf); try done). by rewrite Hx.
  - rewrite findi_None in Hf. assert (is_block 1 (b_blockno x) x = false) as Hb.
    { apply Hf. eapply list_elem_of_lookup_2. by apply lookup_take_Some. }
    rewrite (proj2 (is_block_true _ _ _)) in Hb; done.
Qed.

Lemma view_uncached s b : (forall i x, at_buf s i x -> b_dev x = 1 -> b_blockno x <> b) ->
  bio_view s b = bio_disk s b.
Proof.
  intros Hno. unfold bio_view. destruct (findi _ _) as [j|] eqn:Hf; [|done].
  apply findi_Some in Hf as (y & Hy & [Hyd Hyb]%is_block_true & _).
  apply lookup_take_Some in Hy as [Hy Hj]. by destruct (Hno j y).
Qed.

Lemma cached_dec s b :
  (exists i x, at_buf s i x /\ b_dev x = 1 /\ b_blockno x = b) \/
  (forall i x, at_buf s i x -> b_dev x = 1 -> b_blockno x <> b).
Proof.
  destruct (findi (is_block 1 b) (take NBUF (bc_buf s))) as [j|] eqn:Hf.
  - left. apply findi_Some in Hf as (y & Hy & [Hyd Hyb]%is_block_true & _).
    apply lookup_take_Some in Hy as [Hy Hj]. exists j, y. done.
  - right. rewrite findi_None in Hf. intros i x [Hi Hx] Hd Hb.
    assert (is_block 1 b x = false) as Hf'.
    { apply Hf. eapply list_elem_of_lookup_2. by apply lookup_take_Some. }
    rewrite (proj2 (is_block_true _ _ _)) in Hf'; done.
Qed.

Lemma held_Some s h b : bio_held s h = Some b <->
  exists x, at_buf s h x /\ b_refcnt x = 1 /\ b_blockno x = b.
Proof.
  unfold bio_held, at_buf. case_decide as Hh.
  - destruct (bc_buf s !! h) as [x|]; [|naive_solver].
    destruct (Z.eqb_spec (b_refcnt x) 1); naive_solver.
  - split; [done|]. intros (x & [? _] & _). done.
Qed.

Lemma held_cached s h b : bio_wf s -> bio_held s h = Some b ->
  exists x, at_buf s h x /\ b_dev x = 1 /\ b_blockno x = b /\ b_refcnt x = 1 /\
    b_lock x = Sleeplock true pid.
Proof.
  intros Hwf (x & Hx & Hr & Hb)%held_Some. exists x. pose proof (w_buf s Hwf h x Hx) as [Hin Hout Hl Hc].
  destruct (decide (b_dev x = 1)) as [Hd|Hd]; [|destruct (Hout Hd); congruence].
  split_and!; try done. destruct Hl as [[? _]|[_ ?]]; [congruence|done].
Qed.

(** Replace buffer [i] by one with the same list pointers. *)
Definition put (s : bio) (i : nat) (x : buf) : bio := with_buf (<[i := x]> (bc_buf s)) s.

Lemma at_put s i x x' j y : at_buf s i x -> at_buf (put s i x') j y <->
  (j = i /\ y = x') \/ (j <> i /\ at_buf s j y).
Proof.
  intros [Hi Hx]. unfold at_buf, put. cbn. pose proof (lookup_lt_Some _ _ _ Hx).
  destruct (decide (j = i)) as [->|Hj].
  - rewrite list_lookup_insert_eq by done. naive_solver.
  - rewrite list_lookup_insert_ne by done. naive_solver.
Qed.

Lemma ring_put s i x x' ord : bc_buf s !! i = Some x -> b_next x' = b_next x ->
  b_prev x' = b_prev x -> ring (bc_buf s) ord -> ring (bc_buf (put s i x')) ord.
Proof.
  intros Hx Hn Hp (Hl & Hperm & Hs). pose proof (lookup_lt_Some _ _ _ Hx).
  split; [by cbn; rewrite length_insert|]. split; [done|]. revert Hs.
  apply seg_ext; intros j; unfold nxt, prv; cbn; destruct (decide (j = i)) as [->|Hj];
    rewrite ?list_lookup_insert_eq, ?list_lookup_insert_ne by done; rewrite ?Hx; cbn; congruence.
Qed.

Lemma wf_put s i x x' : bio_wf s -> at_buf s i x -> b_next x' = b_next x ->
  b_prev x' = b_prev x -> buf_ok (d_blocks s) x' ->
  (forall j y, j <> i -> at_buf s j y -> b_dev y = 1 -> b_dev x' = 1 ->
     b_blockno y <> b_blockno x') ->
  bio_wf (put s i x').
Proof.
  intros Hwf Hx Hn Hp Hok Hu. split.
  - destruct (w_ring s Hwf) as [ord Ho]. exists ord. eapply ring_put; try done. apply Hx.
  - intros j y [[-> ->]|[Hj Hy]]%(at_put _ _ _ _ _ _ Hx); [done|]. by eapply (w_buf s Hwf).
  - intros j k y z [[-> ->]|[Hj Hy]]%(at_put _ _ _ _ _ _ Hx)
      [[-> ->]|[Hk Hz]]%(at_put _ _ _ _ _ _ Hx) Hd Hd' Hb; try done.
    + by destruct (Hu k z).
    + by destruct (Hu j y).
    + by eapply (w_uniq s Hwf).
  - apply (w_disk s Hwf).
Qed.

Lemma pin_put s i x x' b : at_buf s i x ->
  bio_pin (put s i x') b <->
  (b_dev x' = 1 /\ b_blockno x' = b /\ b_flags x' = 6) \/
  (exists j y, j <> i /\ at_buf s j y /\ b_dev y = 1 /\ b_blockno y = b /\ b_flags y = 6).
Proof.
  intros Hx. unfold bio_pin. setoid_rewrite (at_put _ _ _ _ _ _ Hx). naive_solver.
Qed.

Lemma held_put s i x x' h : at_buf s i x ->
  bio_held (put s i x') h =
  if decide (h = i) then (if b_refcnt x' =? 1 then Some (b_blockno x') else None)
  else bio_held s h.
Proof.
  intros [Hi Hx]. unfold bio_held, put. cbn. pose proof (lookup_lt_Some _ _ _ Hx).
  destruct (decide (h = i)) as [->|Hh].
  - rewrite decide_True by done. by rewrite list_lookup_insert_eq.
  - by rewrite list_lookup_insert_ne.
Qed.

Lemma view_put_self s i x x' : bio_wf (put s i x') -> at_buf s i x -> b_dev x' = 1 ->
  bio_view (put s i x') (b_blockno x') = b_data x'.
Proof. intros Hwf Hx Hd. apply (view_cached _ i); try done. apply (at_put _ _ _ _ _ _ Hx). by left. Qed.

Lemma view_put_other s i x x' b : bio_wf s -> bio_wf (put s i x') -> at_buf s i x ->
  (b_dev x = 1 -> b_blockno x <> b) -> (b_dev x' = 1 -> b_blockno x' <> b) ->
  bio_view (put s i x') b = bio_view s b.
Proof.
  intros Hwf Hwf' Hx Hn Hn'. destruct (cached_dec s b) as [(j & y & Hy & Hd & <-)|Hno].
  - assert (j <> i) as Hj.
    { intros ->. destruct Hx as [_ Hx], Hy as [_ Hy]. simplify_eq. by apply Hn. }
    rewrite (view_cached s j y) by done. apply (view_cached _ j); try done.
    apply (at_put _ _ _ _ _ _ Hx). by right.
  - rewrite (view_uncached s b Hno). change (bio_disk s b) with (bio_disk (put s i x') b).
    apply view_uncached.
    intros j y [[-> ->]|[Hj Hy]]%(at_put _ _ _ _ _ _ Hx); [done|]. eauto.
Qed.

(** A change to a buffer that keeps its block. *)
Lemma put_same_block s i x x' d :
  bio_wf s -> at_buf s i x -> b_dev x = 1 ->
  x' = Buf (b_flags x') (b_dev x) (b_blockno x) (b_lock x') (b_refcnt x') (b_prev x) (b_next x) d ->
  buf_ok (d_blocks s) x' ->
  bio_wf (put s i x') /\
  (forall b, bio_view (put s i x') b = if decide (b = b_blockno x) then d else bio_view s b) /\
  (forall b, bio_pin (put s i x') b <->
     b = b_blockno x /\ b_flags x' = 6 \/ b <> b_blockno x /\ bio_pin s b) /\
  (forall h, bio_held (put s i x') h =
     if decide (h = i) then (if b_refcnt x' =? 1 then Some (b_blockno x) else None)
     else bio_held s h).
Proof.
  intros Hwf Hx Hd Hx' Hok.
  assert (b_dev x' = 1 /\ b_blockno x' = b_blockno x /\ b_data x' = d) as (Hd' & Hb' & Hda)
    by by rewrite Hx'.
  assert (bio_wf (put s i x')) as Hwf'.
  { eapply wf_put; [done|done|by rewrite Hx'..|done|]. intros j y Hj Hy Hdy _ Heq.
    apply Hj. apply (w_uniq s Hwf j i y x); try done. congruence. }
  split_and!; [done| | |].
  - intros b. case_decide as Hbb.
    + subst b. rewrite <- Hb'. rewrite <- Hda. by eapply view_put_self.
    + eapply view_put_other; [done..| |]; congruence.
  - intros b. rewrite (pin_put _ _ _ _ _ Hx). rewrite Hd', Hb'. split.
    + intros [(_ & -> & ?)|(j & y & Hj & Hy & Hdy & <- & Hf)]; [by left|right]. split.
      * intros Heq. apply Hj. by apply (w_uniq s Hwf j i y x).
      * by exists j, y.
    + intros [[-> ?]|[Hne (j & y & Hy & Hdy & <- & Hf)]]; [by left|right].
      exists j, y. split_and!; try done. intros ->. destruct Hx as [_ Hx], Hy as [_ Hy]. by simplify_eq.
  - intros h. rewrite (held_put _ _ _ _ _ Hx). by rewrite Hb'.
Qed.

(** * bread *)

Lemma pick_Some nb test l i : pick nb test l = Some i ->
  i ∈ l /\ exists b, nb !! i = Some b /\ test b = true.
Proof.
  unfold pick. intros [Hin Ht]%find_some. split; [by apply list_elem_of_In|].
  destruct (nb !! i) as [b|]; [|done]. eauto.
Qed.

Lemma pick_None nb test l i b : pick nb test l = None -> i ∈ l -> nb !! i = Some b -> test b = false.
Proof.
  unfold pick. intros Hn Hi Hb. apply list_elem_of_In in Hi.
  pose proof (find_none _ _ Hn i Hi) as Ht. cbn in Ht. by rewrite Hb in Ht.
Qed.

Lemma flags_clean f : f = 0 \/ f = 2 \/ f = 6 -> (Z.land f B_DIRTY =? 0) = true -> f = 0 \/ f = 2.
Proof. intros [->|[->| ->]]; vm_compute; auto; discriminate. Qed.

(** A hit: the buffer is locked and its reference counted. *)
Definition locked_buf (x : buf) : buf :=
  Buf (b_flags x) (b_dev x) (b_blockno x) (Sleeplock true pid) 1 (b_prev x) (b_next x) (b_data x).

(** A miss: the buffer is taken over for the block and filled from the disk. *)
Definition filled_buf (x : buf) (bn : Z) (d : list Z) : buf :=
  Buf 2 1 bn (Sleeplock true pid) 1 (b_prev x) (b_next x) d.

(** [bread] of a block nobody has locked. The block is found in the cache, or the
    least recently released buffer that is neither referenced nor dirty is recycled
    for it. *)
Lemma bio_bread_run s bn ord :
  bio_wf s -> ring (bc_buf s) ord -> 0 <= bn < Z.of_nat (length (d_blocks s)) ->
  (forall h, bio_held s h <> Some bn) ->
  (exists i x, at_buf s i x /\ b_dev x = 1 /\ b_blockno x = bn /\ b_refcnt x = 0 /\
     bio_bread pid 1 bn s = Ret (i, put s i (locked_buf x))) \/
  (forall j y, at_buf s j y -> b_dev y = 1 -> b_blockno y <> bn) /\
  match pick (bc_buf s) recyclable (reverse ord) with
  | Some i => exists x d, at_buf s i x /\ recyclable x = true /\
      d_blocks s !! Z.to_nat bn = Some d /\
      bio_bread pid 1 bn s = Ret (i, put s i (filled_buf x bn d))
  | None => bio_bread pid 1 bn s = Panic "bget: no buffers"
  end.
Proof.
  intros Hwf Hr Hbn Hh. pose proof Hr as (Hlen & Hperm & Hs).
  assert (forall z, z ∈ ord -> z < NBUF)%nat as Hord by (intros z; by apply (ring_elem _ _ _ Hr)).
  assert (length ord < S NBUF)%nat as Hfuel by (rewrite Hperm, length_seq; lia).
  destruct (getb_lt s head) as (h & _ & Hg & Hgn & Hgp); [unfold head; lia|].
  unfold bio_bread, bget. rewrite bind_assoc, (bind_Ret _ _ _ _ _ Hg), Hgn, Hgp.
  rewrite bind_assoc.
  rewrite (bind_Ret _ _ _ _ _ (scan_ok b_next (is_block 1 bn) (nxt (bc_buf s)) s ord head (S NBUF)
    ltac:(intros i b Hb; unfold nxt; by rewrite Hb) Hord Hlen Hfuel ltac:(eauto))).
  destruct (pick (bc_buf s) (is_block 1 bn) ord) as [i|] eqn:Hp.
  - left. apply pick_Some in Hp as (Hi & x & Hx & [Hd Hb]%is_block_true). apply Hord in Hi.
    assert (at_buf s i x) as Hax by done. pose proof (w_buf s Hwf i x Hax) as [Hin _ Hl _].
    assert (b_refcnt x = 0 /\ b_lock x = initsleeplock) as [Hr0 Hl0].
    { destruct Hl as [?|[Hr1 _]]; [done|]. exfalso. apply (Hh i). apply held_Some. eauto. }
    destruct (Hin Hd) as (_ & _ & Hf). exists i, x. split_and!; try done.
    pose proof (lookup_lt_Some _ _ _ Hx). unfold bind, updb, on_block, getb, put, with_buf. rewrite Hx.
    cbn. rewrite !list_lookup_insert_eq by by rewrite ?length_insert. cbn. rewrite Hl0. cbn.
    rewrite !list_lookup_insert_eq by by rewrite ?length_insert. cbn.
    rewrite !list_insert_insert_eq. unfold locked_buf. rewrite Hr0.
    unfold set_lock, set_refcnt. cbn. destruct Hf as [-> | ->]; done.
  - right. assert (forall j y, at_buf s j y -> b_dev y = 1 -> b_blockno y <> bn) as Hmiss.
    { intros j y [Hj Hy] Hd Hb. apply (ring_elem _ _ _ Hr) in Hj.
      pose proof (pick_None _ _ _ _ _ Hp Hj Hy) as Hf. by rewrite (proj2 (is_block_true _ _ _)) in Hf. }
    split; [done|]. rewrite bind_assoc.
    rewrite (bind_Ret _ _ _ _ _ (scan_ok b_prev recyclable (prv (bc_buf s)) s (reverse ord) head (S NBUF)
      ltac:(intros i b Hb; unfold prv; by rewrite Hb)
      ltac:(intros z Hz; apply Hord; by rewrite elem_of_reverse in Hz) Hlen
      ltac:(by rewrite length_reverse) ltac:(eexists; by apply seg_rev))).
    destruct (pick (bc_buf s) recyclable (reverse ord)) as [i|] eqn:Hp2; [|done].
    apply pick_Some in Hp2 as (Hi & x & Hx & Hrec). rewrite elem_of_reverse in Hi. apply Hord in Hi.
    assert (at_buf s i x) as Hax by done. pose proof (w_buf s Hwf i x Hax) as [_ _ Hl _].
    destruct (lookup_lt_is_Some_2 (d_blocks s) (Z.to_nat bn)) as [d Hd]; [lia|].
    exists x, d. split_and!; try done.
    unfold recyclable in Hrec. bsplit.
    assert (b_lock x = initsleeplock) as Hl0 by (destruct Hl as [[_ ?]|[? _]]; [done|congruence]).
    pose proof (lookup_lt_Some _ _ _ Hx). unfold bind, updb, on_block, getb, put, with_buf. rewrite Hx.
    cbn. rewrite !list_lookup_insert_eq by by rewrite ?length_insert. cbn. rewrite Hl0. cbn.
    rewrite !list_lookup_insert_eq by by rewrite ?length_insert. cbn.
    change (Z.land 0 B_VALID =? 0) with true. cbn.
    unfold iderw, holdingsleep. unfold bind, updb, getb, gets, ret. cbn.
    rewrite !list_lookup_insert_eq by by rewrite ?length_insert. cbn. rewrite Z.eqb_refl. cbn.
    change (Z.land 0 (Z.lor B_VALID B_DIRTY) =? B_VALID) with false. cbn.
    change (Z.land 0 B_DIRTY =? 0) with true.
    destruct (Z.leb_spec (Z.of_nat (length (d_blocks s))) bn); [lia|]. cbn.
    rewrite Hd. cbn. rewrite !list_lookup_insert_eq by by rewrite ?length_insert. cbn.
    rewrite !list_lookup_insert_eq by by rewrite ?length_insert. cbn.
    rewrite !list_insert_insert_eq. done.
Qed.

Lemma bio_bread_law s bn :
  bio_wf s -> 0 <= bn < Z.of_nat (length (d_blocks s)) -> (forall h, bio_held s h <> Some bn) ->
  wp no_buffers (bio_bread pid 1 bn) s (fun h s' =>
    bio_wf s' /\ d_blocks s' = d_blocks s /\ d_hist s' = d_hist s /\
    (forall b, bio_view s' b = bio_view s b) /\
    (forall b, bio_pin s' b <-> bio_pin s b) /\
    bio_held s h = None /\
    (forall h', bio_held s' h' = if decide (h' = h) then Some bn else bio_held s h')).
Proof.
  intros Hwf Hbn Hh. destruct (w_ring s Hwf) as [ord Hr].
  destruct (bio_bread_run s bn ord Hwf Hr Hbn Hh) as
    [(i & x & Hx & Hd & Hb & Hr0 & Hrun)|[Hmiss Hcase]].
  - unfold wp. rewrite Hrun. pose proof (w_buf s Hwf i x Hx) as [Hin Hout Hl Hc].
    destruct (put_same_block s i x (locked_buf x) (b_data x)) as (Hwf' & Hv & Hpin & Hheld); try done.
    { split; cbn; [done|done|by right|done]. }
    split_and!; try done.
    + intros b. rewrite Hv. case_decide as Hbb; [|done]. subst b. symmetry. by eapply view_cached.
    + intros b. rewrite Hpin. split.
      * intros [[-> Hf]|[_ ?]]; [|done]. by exists i, x.
      * intros Hp. destruct (decide (b = b_blockno x)) as [->|]; [left|by right]. split; [done|].
        destruct Hp as (j & y & Hy & Hdy & Hby & Hfy). assert (j = i) as ->.
        { by apply (w_uniq s Hwf j i y x). }
        destruct Hx as [_ Hx], Hy as [_ Hy]. by simplify_eq.
    + destruct (bio_held s i) as [b|] eqn:Hbi; [|done]. apply held_Some in Hbi as (y & Hy & Hry & _).
      destruct Hx as [_ Hx], Hy as [_ Hy]. simplify_eq. congruence.
    + intros h'. rewrite Hheld. cbn. by rewrite Hb.
  - destruct (pick _ _ _) as [i|]; [|unfold wp; by rewrite Hcase].
    destruct Hcase as (x & d & Hx & Hrec & Hd & Hrun). unfold wp. rewrite Hrun.
    pose proof (w_buf s Hwf i x Hx) as [Hin Hout Hl Hc].
    unfold recyclable in Hrec. bsplit.
    assert (b_flags x = 0 \/ b_flags x = 2) as Hfl.
    { apply flags_clean; [|by apply Z.eqb_eq].
      destruct (decide (b_dev x = 1)) as [Hd1|Hd1]; [|destruct (Hout Hd1); auto].
      destruct (Hin Hd1) as (_ & _ & ?). auto. }
    assert (bio_wf (put s i (filled_buf x bn d))) as Hwf'.
    { eapply wf_put; try done.
      - split; cbn; try done; [|by right]. intros _. split; [done|]. split; [|by left].
        apply (w_disk s Hwf). by eapply list_elem_of_lookup_2.
      - intros j y _ Hy Hdy _. by eapply Hmiss. }
    split_and!; try done.
    + intros b. destruct (decide (b = bn)) as [->|Hbb].
      * rewrite (view_uncached s bn Hmiss), (disk_lookup s bn d) by (done || lia).
        by apply (view_put_self s i x (filled_buf x bn d)).
      * destruct (decide (b_dev x = 1 /\ b_blockno x = b)) as [[Hdx <-]|Hno].
        -- rewrite (view_cached s i x) by done. rewrite view_uncached.
           ++ destruct (Hin Hdx) as ([? _] & _ & Hf). apply disk_lookup; [done|].
              apply Hc; try done. destruct Hf, Hfl; congruence.
           ++ intros j y [[-> ->]|[Hj Hy]]%(at_put _ _ _ _ _ _ Hx) Hdy; [cbn; congruence|].
              intros Heq. apply Hj. by apply (w_uniq s Hwf j i y x).
        -- eapply view_put_other; [done..| |]; [tauto|]. cbn. congruence.
    + intros b. rewrite (pin_put _ _ _ _ _ Hx). split.
      * intros [(_ & _ & ?)|(j & y & _ & ?)]; [done|]. by exists j, y.
      * intros (j & y & Hy & ? & ? & Hf). right. exists j, y. split_and!; try done. intros ->.
        destruct Hx as [_ Hx], Hy as [_ Hy]. simplify_eq. destruct Hfl; congruence.
    + destruct (bio_held s i) as [b|] eqn:Hbi; [|done]. apply held_Some in Hbi as (y & Hy & Hry & _).
      destruct Hx as [_ Hx], Hy as [_ Hy]. simplify_eq. congruence.
    + intros h'. by rewrite (held_put _ _ _ _ _ Hx).
Qed.

(** * The other operations *)

Lemma getb_at s i x : at_buf s i x -> getb i s = Ret (x, s).
Proof. intros [_ Hx]. unfold getb. by rewrite Hx. Qed.

Lemma updb_at s i x f : at_buf s i x -> updb i f s = Ret (tt, put s i (f x)).
Proof. intros [_ Hx]. unfold updb. by rewrite Hx. Qed.

Lemma at_put_self s i x x' : at_buf s i x -> at_buf (put s i x') i x'.
Proof. intros Hx. apply (at_put _ _ _ _ _ _ Hx). by left. Qed.

Lemma put_put s i x y : put (put s i x) i y = put s i y.
Proof. unfold put. cbn. by rewrite list_insert_insert_eq. Qed.

Lemma put_id s i x : at_buf s i x -> put s i x = s.
Proof. intros [_ Hx]. unfold put. rewrite list_insert_id by done. by destruct s. Qed.

(** Change the list order only. *)
Lemma wf_same_keys s nb ord : bio_wf s -> same_keys (bc_buf s) nb -> ring nb ord ->
  bio_wf (with_buf nb s) /\
  (forall b, bio_view (with_buf nb s) b = bio_view s b) /\
  (forall b, bio_pin (with_buf nb s) b <-> bio_pin s b) /\
  (forall h, bio_held (with_buf nb s) h = bio_held s h).
Proof.
  intros Hwf Hk Hr.
  assert (forall i y, at_buf (with_buf nb s) i y -> exists x, at_buf s i x /\ bkey y = bkey x) as Hb.
  { intros i y [Hi Hy]. cbn in Hy. specialize (Hk i). rewrite Hy in Hk. cbn in Hk.
    destruct (bc_buf s !! i) as [x|] eqn:Hx; [|done]. exists x. split; [done|]. cbn in Hk. congruence. }
  assert (forall i x, at_buf s i x -> exists y, at_buf (with_buf nb s) i y /\ bkey y = bkey x) as Hf.
  { intros i x [Hi Hx]. specialize (Hk i). rewrite Hx in Hk. cbn in Hk.
    destruct (nb !! i) as [y|] eqn:Hy; [|done]. exists y. split; [done|]. cbn in Hk. congruence. }
  assert (bio_wf (with_buf nb s)) as Hwf'.
  { split.
    - by exists ord.
    - intros i y (x & Hx & Hxy)%Hb. pose proof (w_buf s Hwf i x Hx) as [].
      unfold bkey in Hxy. injection Hxy as E1 E2 E3 E4 E5 E6.
      split; cbn; rewrite ?E1, ?E2, ?E3, ?E4, ?E5, ?E6; done.
    - intros i j y z (x & Hx & Hxy)%Hb (w & Hw & Hzw)%Hb. unfold bkey in Hxy, Hzw.
      injection Hxy as _ -> -> _ _ _. injection Hzw as _ -> -> _ _ _. by apply (w_uniq s Hwf).
    - apply (w_disk s Hwf). }
  split; [done|]. split_and!.
  - intros b. destruct (cached_dec s b) as [(i & x & Hx & Hd & <-)|Hno].
    + destruct (Hf i x Hx) as (y & Hy & Hxy). unfold bkey in Hxy. simplify_eq.
      rewrite (view_cached s i x) by done.
      replace (b_blockno x) with (b_blockno y) by done. rewrite (view_cached _ i y); [done|done|done|congruence].
    + rewrite (view_uncached s b Hno). change (bio_disk s b) with (bio_disk (with_buf nb s) b).
      apply view_uncached. intros i y (x & Hx & Hxy)%Hb. unfold bkey in Hxy. simplify_eq.
      intros Hd. replace (b_blockno y) with (b_blockno x) by done. apply (Hno i x Hx). congruence.
  - intros b. split; intros (i & x & Hx & Hd & Hbn & Hfl); [apply Hb in Hx|apply Hf in Hx];
      destruct Hx as (y & Hy & Hxy); unfold bkey in Hxy; simplify_eq;
      exists i, y; split_and!; congruence.
  - intros h. apply option_eq. intros b. rewrite !held_Some.
    split; intros (x & Hx & Hd & Hbn); [apply Hb in Hx|apply Hf in Hx];
      destruct Hx as (y & Hy & Hxy); unfold bkey in Hxy; simplify_eq;
      exists y; split_and!; congruence.
Qed.

Lemma pin_at s i x : bio_wf s -> at_buf s i x -> b_dev x = 1 ->
  bio_pin s (b_blockno x) <-> b_flags x = 6.
Proof.
  intros Hwf Hx Hd. split; [|by exists i, x].
  intros (j & y & Hy & Hdy & Hby & Hf). assert (j = i) as -> by by apply (w_uniq s Hwf j i y x).
  destruct Hx as [_ Hx], Hy as [_ Hy]. by simplify_eq.
Qed.

Lemma bio_bset_law s h b d : bio_wf s -> bio_held s h = Some b -> length d = Z.to_nat BSIZE ->
  exists s', updb h (set_data d) s = Ret (tt, s') /\
    bio_wf s' /\ d_blocks s' = d_blocks s /\ d_hist s' = d_hist s /\
    (forall b', bio_view s' b' = if decide (b' = b) then d else bio_view s b') /\
    (forall b', bio_pin s' b' <-> bio_pin s b') /\
    (forall h', bio_held s' h' = bio_held s h').
Proof.
  intros Hwf Hh Hd. destruct (held_cached s h b Hwf Hh) as (x & Hx & Hdev & Hb & Hr & Hl).
  pose proof (w_buf s Hwf h x Hx) as [Hin Hout Hlk Hc]. eexists. split; [by apply updb_at|].
  destruct (put_same_block s h x (set_data d x) d) as (Hwf' & Hv & Hp & Hheld); try done.
  { split; cbn; try done; [|congruence]. intros Hd1. destruct (Hin Hd1) as (? & _ & ?). done. }
  subst b. split_and!; try done.
  - intros b'. rewrite Hp. cbn. destruct (decide (b' = b_blockno x)) as [->|]; [|tauto].
    rewrite (pin_at s h x) by done. tauto.
  - intros h'. rewrite Hheld. cbn. rewrite Hr. case_decide as Hh'; [by subst|done].
Qed.

Lemma bio_bdirty_law s h b : bio_wf s -> bio_held s h = Some b ->
  exists s', updb h (fun x => set_flags (Z.lor (b_flags x) B_DIRTY) x) s = Ret (tt, s') /\
    bio_wf s' /\ d_blocks s' = d_blocks s /\ d_hist s' = d_hist s /\
    (forall b', bio_view s' b' = bio_view s b') /\
    (forall b', bio_pin s' b' <-> b' = b \/ bio_pin s b') /\
    (forall h', bio_held s' h' = bio_held s h').
Proof.
  intros Hwf Hh. destruct (held_cached s h b Hwf Hh) as (x & Hx & Hdev & Hb & Hr & Hl).
  pose proof (w_buf s Hwf h x Hx) as [Hin Hout Hlk Hc]. eexists. split; [by apply updb_at|].
  destruct (Hin Hdev) as (Hbr & Hdl & Hf).
  assert (Z.lor (b_flags x) B_DIRTY = 6) as -> by (destruct Hf as [-> | ->]; done).
  destruct (put_same_block s h x (set_flags 6 x) (b_data x)) as (Hwf' & Hv & Hp & Hheld); try done.
  { split; cbn; try done. auto. }
  subst b. split_and!; try done.
  - intros b'. rewrite Hv. case_decide as Hb'; [|done]. subst b'. symmetry. by eapply view_cached.
  - intros b'. rewrite Hp. cbn. destruct (decide (b' = b_blockno x)); tauto.
  - intros h'. rewrite Hheld. cbn. rewrite Hr. case_decide as Hh'; [by subst|done].
Qed.

Lemma wf_disk_write s i x d :
  bio_wf s -> at_buf s i x -> b_dev x = 1 -> b_flags x = 2 -> b_data x = d ->
  let s' := Bio (bc_buf s) (<[Z.to_nat (b_blockno x) := d]> (d_blocks s))
              (d_hist s ++ [(b_blockno x, d)]) in
  bio_wf s' /\ (forall b, bio_view s' b = bio_view s b) /\
  (forall b, bio_disk s' b = if decide (b = b_blockno x) then d else bio_disk s b).
Proof.
  intros Hwf Hx Hd Hf <-. cbn. pose proof (w_buf s Hwf i x Hx) as [Hin _ _ _].
  destruct (Hin Hd) as (Hb & Hlen & _).
  assert (forall b, 0 <= b -> b <> b_blockno x ->
    <[Z.to_nat (b_blockno x) := b_data x]> (d_blocks s) !! Z.to_nat b = d_blocks s !! Z.to_nat b) as Hne.
  { intros b Hb0 Hbx. rewrite list_lookup_insert_ne; [done|lia]. }
  set (s' := Bio _ _ _).
  assert (forall b, bio_disk s' b = if decide (b = b_blockno x) then b_data x else bio_disk s b) as Hdk.
  { intros b. unfold bio_disk. cbn. destruct (Z.ltb_spec b 0); case_decide as Hbb; try done; [lia| |].
    - subst b. rewrite list_lookup_insert_eq by lia. done.
    - by rewrite Hne. }
  assert (bio_wf s') as Hwf'.
  { split; [apply (w_ring s Hwf)| |apply (w_uniq s Hwf)|].
    - intros j y Hy. pose proof (w_buf s Hwf j y Hy) as [Hin' Hout' Hl' Hc'].
      split; cbn; rewrite ?length_insert; try done. intros Hdy Hry Hfy.
      destruct (decide (b_blockno y = b_blockno x)) as [Heq|Hneq].
      + assert (j = i) as -> by by apply (w_uniq s Hwf j i y x).
        destruct Hx as [_ Hx], Hy as [_ Hy]. cbn in Hy. simplify_eq. apply list_lookup_insert_eq. lia.
      + destruct (Hin' Hdy) as ([? ?] & _). rewrite Hne by done. by apply Hc'.
    - intros d [j Hj]%list_elem_of_lookup. cbn in Hj.
      apply list_lookup_insert_Some in Hj as [(_ & <- & _)|[_ Hj]]; [done|].
      apply (w_disk s Hwf). by eapply list_elem_of_lookup_2. }
  split_and!; [done| |done].
  intros b. destruct (cached_dec s b) as [(j & y & Hy & Hdy & <-)|Hno].
  - rewrite (view_cached s j y) by done. by apply (view_cached s' j y).
  - rewrite (view_uncached s b Hno), (view_uncached s' b Hno), Hdk.
    rewrite decide_False; [done|]. intros ->. by apply (Hno i x).
Qed.

Lemma bio_bwrite_law s h b : bio_wf s -> bio_held s h = Some b ->
  exists s', bio_bwrite pid h s = Ret (tt, s') /\
    bio_wf s' /\ length (d_blocks s') = length (d_blocks s) /\
    d_hist s' = d_hist s ++ [(b, bio_view s b)] /\
    (forall b', bio_view s' b' = bio_view s b') /\
    (forall b', bio_disk s' b' = if decide (b' = b) then bio_view s b else bio_disk s b') /\
    (forall b', bio_pin s' b' <-> b' <> b /\ bio_pin s b') /\
    (forall h', bio_held s' h' = bio_held s h').
Proof.
  intros Hwf Hh. destruct (held_cached s h b Hwf Hh) as (x & Hx & Hdev & Hb & Hr & Hl).
  pose proof (w_buf s Hwf h x Hx) as [Hin Hout Hlk Hc].
  destruct (Hin Hdev) as (Hbr & Hdl & Hf).
  pose proof (at_put_self s h x (set_flags 6 x) Hx) as Hx6.
  pose proof (at_put_self s h x (set_flags 2 x) Hx) as Hx2.
  assert (bio_view s b = b_data x) as Hview by (subst b; by eapply view_cached).
  set (s2 := put s h (set_flags 2 x)).
  set (s' := Bio (bc_buf s2) (<[Z.to_nat b := b_data x]> (d_blocks s2)) (d_hist s2 ++ [(b, b_data x)])).
  assert (bio_bwrite pid h s = Ret (tt, s')) as Hrun.
  { unfold bio_bwrite. rewrite (bind_Ret _ _ _ _ _ (getb_at s h x Hx)).
    unfold holdingsleep at 1. rewrite Hl. cbn [sl_locked sl_pid andb]. rewrite Z.eqb_refl. cbn [negb].
    rewrite (bind_Ret _ _ _ _ _ (updb_at s h x _ Hx)).
    assert (Z.lor (b_flags x) B_DIRTY = 6) as -> by (destruct Hf as [-> | ->]; done).
    unfold iderw. rewrite (bind_Ret _ _ _ _ _ (getb_at _ h _ Hx6)). cbn [b_lock b_flags b_dev set_flags].
    unfold holdingsleep. rewrite Hl, Hdev. cbn [sl_locked sl_pid andb]. rewrite Z.eqb_refl. cbn [negb].
    change (Z.land 6 (Z.lor B_VALID B_DIRTY) =? B_VALID) with false. change (1 =? 1) with true.
    change (Z.land 6 B_DIRTY =? 0) with false. cbn [negb]. unfold bind at 1. unfold gets. cbn [d_blocks put with_buf].
    destruct (Z.leb_spec (Z.of_nat (length (d_blocks s))) (b_blockno (set_flags 6 x))) as [Hge|_];
      [cbn in Hge; lia|].
    rewrite (bind_Ret _ _ _ _ _ (updb_at _ h _ _ Hx6)), put_put. unfold bind, modify.
    cbn [b_flags set_flags]. change (Z.land 6 (Z.lnot B_DIRTY)) with 2.
    change (set_flags 2 (set_flags 6 x)) with (set_flags 2 x).
    unfold updb. cbn [bc_buf put with_buf]. destruct Hx2 as [_ Hx2]. cbn in Hx2. cbn. rewrite Hx2. cbn.
    change (Z.lor 2 B_VALID) with 2. unfold s', s2, put. cbn. rewrite list_insert_insert_eq.
    by rewrite Hb. }
  exists s'. split; [done|].
  destruct (put_same_block s h x (set_flags 2 x) (b_data x)) as (Hwf2 & Hv2 & Hp2 & Hheld2); try done.
  { split; cbn; try done; [|congruence]. auto. }
  destruct (wf_disk_write s2 h (set_flags 2 x) (b_data x)) as (Hwf' & Hv' & Hd'); try done.
  cbn in Hwf', Hv', Hd'. subst b. split_and!; try done.
  - unfold s'. cbn. by rewrite length_insert.
  - unfold s'. cbn. by rewrite Hview.
  - intros b'. unfold s'. rewrite Hv'. unfold s2. rewrite Hv2. case_decide; [by subst|done].
  - intros b'. unfold s'. rewrite Hd', Hview. done.
  - intros b'. change (bio_pin s' b') with (bio_pin s2 b'). unfold s2. rewrite Hp2. cbn.
    intuition congruence.
  - intros h'. change (bio_held s' h') with (bio_held s2 h'). unfold s2. rewrite Hheld2. cbn.
    rewrite Hr. case_decide; [by subst|done].
Qed.

Lemma bio_brelse_law s h b : bio_wf s -> bio_held s h = Some b ->
  bio_pin s b \/ bio_view s b = bio_disk s b ->
  exists s', bio_brelse pid h s = Ret (tt, s') /\
    bio_wf s' /\ d_blocks s' = d_blocks s /\ d_hist s' = d_hist s /\
    (forall b', bio_view s' b' = bio_view s b') /\
    (forall b', bio_pin s' b' <-> bio_pin s b') /\
    (forall h', bio_held s' h' = if decide (h' = h) then None else bio_held s h').
Proof.
  intros Hwf Hh Hclean. destruct (held_cached s h b Hwf Hh) as (x & Hx & Hdev & Hb & Hr & Hl).
  pose proof (w_buf s Hwf h x Hx) as [Hin Hout Hlk Hc].
  destruct (Hin Hdev) as (Hbr & Hdl & Hf).
  assert (bio_view s b = b_data x) as Hview by (subst b; by eapply view_cached).
  set (x' := set_refcnt 0 (set_lock initsleeplock x)).
  destruct (put_same_block s h x x' (b_data x)) as (Hwf1 & Hv1 & Hp1 & Hheld1); try done.
  { split; cbn; [done|done|by left|]. intros _ _ Hf2.
    destruct Hclean as [Hpin|Heq].
    - subst b. rewrite (pin_at s h x) in Hpin by done. congruence.
    - rewrite Hview in Heq. unfold bio_disk in Heq. subst b.
      destruct (Z.ltb_spec (b_blockno x) 0); [lia|].
      destruct (lookup_lt_is_Some_2 (d_blocks s) (Z.to_nat (b_blockno x))) as [d Hd]; [lia|].
      rewrite Hd in *. cbn in Heq. by rewrite Heq. }
  destruct (w_ring _ Hwf1) as [ord Hr1].
  assert (h ∈ ord) as (l1 & l2 & ->)%list_elem_of_split by (apply (ring_elem _ _ _ Hr1); apply Hx).
  destruct (to_front_ok _ h l1 l2 Hr1) as (nb & Hrun & Hr2 & Hk).
  destruct (wf_same_keys _ nb _ Hwf1 Hk Hr2) as (Hwf2 & Hv2 & Hp2 & Hheld2).
  exists (with_buf nb (put s h x')). split.
  { unfold bio_brelse. rewrite (bind_Ret _ _ _ _ _ (getb_at s h x Hx)).
    unfold holdingsleep. rewrite Hl. cbn [sl_locked sl_pid andb]. rewrite Z.eqb_refl. cbn [negb].
    assert (on_block h releasesleep s = Ret (tt, put s h (set_lock initsleeplock x))) as Hrel.
    { unfold on_block. destruct Hx as [_ Hx]. by rewrite Hx. }
    rewrite (bind_Ret _ _ _ _ _ Hrel).
    pose proof (at_put_self s h x (set_lock initsleeplock x) Hx) as Hx1.
    rewrite (bind_Ret _ _ _ _ _ (updb_at _ h _ _ Hx1)), put_put. cbn [b_refcnt set_lock].
    rewrite Hr. change (1 - 1) with 0.
    rewrite (bind_Ret _ _ _ _ _ (getb_at _ h _ (at_put_self s h x _ Hx))). cbn. exact Hrun. }
  subst b. split_and!; try done.
  - intros b'. rewrite Hv2, Hv1. case_decide; [by subst|done].
  - intros b'. rewrite Hp2, Hp1. cbn. destruct (decide (b' = b_blockno x)) as [->|]; [|tauto].
    rewrite (pin_at s h x) by done. tauto.
  - intros h'. by rewrite Hheld2, Hheld1.
Qed.

Lemma bio_disk_size s b : bio_wf s -> 0 <= b < Z.of_nat (length (d_blocks s)) ->
  length (bio_disk s b) = Z.to_nat BSIZE.
Proof.
  intros Hwf Hb. destruct (lookup_lt_is_Some_2 (d_blocks s) (Z.to_nat b)) as [d Hd]; [lia|].
  rewrite (disk_lookup s b d) by (done || lia). apply (w_disk s Hwf). by eapply list_elem_of_lookup_2.
Qed.

Lemma bio_view_size s b : bio_wf s -> 0 <= b < Z.of_nat (length (d_blocks s)) ->
  length (bio_view s b) = Z.to_nat BSIZE.
Proof.
  intros Hwf Hb. destruct (cached_dec s b) as [(i & x & Hx & Hd & <-)|Hno].
  - rewrite (view_cached s i x) by done. by apply (bo_in _ _ (w_buf s Hwf i x Hx) Hd).
  - rewrite (view_uncached s b Hno). by apply bio_disk_size.
Qed.

Lemma bio_clean s b : bio_wf s -> ~ bio_pin s b -> (forall h, bio_held s h <> Some b) ->
  bio_view s b = bio_disk s b.
Proof.
  intros Hwf Hp Hh. destruct (cached_dec s b) as [(i & x & Hx & Hd & Hb)|Hno]; [|by apply view_uncached].
  pose proof (w_buf s Hwf i x Hx) as [Hin Hout Hlk Hc]. destruct (Hin Hd) as ([? _] & _ & Hf).
  subst b. rewrite (view_cached s i x) by done. symmetry. apply disk_lookup; [done|]. apply Hc; [done| |].
  - destruct Hlk as [[? _]|[Hr _]]; [done|]. exfalso. apply (Hh i), held_Some. eauto.
  - destruct Hf as [?|Hf]; [done|]. exfalso. apply Hp. by exists i, x.
Qed.

(** The buffer cache keeps its promises to log.c and fs.c. *)
#[export] Instance bio_spec : CacheSpec bio (Cache0 := bio_cache pid).
Proof.
  refine (Build_CacheSpec bio (bio_cache pid) bio_wf (fun s => Z.of_nat (length (d_blocks s)))
    bio_view bio_disk d_hist bio_held bio_pin bio_view_size bio_disk_size _ _ _ _ _ _ _ _ _ _).
  - intros s h h' b Hwf H1 H2. destruct (held_cached s h b Hwf H1) as (x & Hx & Hd & Hb & _).
    destruct (held_cached s h' b Hwf H2) as (y & Hy & Hd' & Hb' & _).
    apply (w_uniq s Hwf h h' x y); congruence.
  - intros s h b Hwf H1. destruct (held_cached s h b Hwf H1) as (x & Hx & Hd & <- & _).
    by apply (bo_in _ _ (w_buf s Hwf h x Hx) Hd).
  - intros s b Hwf _ Hp Hh. by apply bio_clean.
  - intros s b Hwf Hb Hh. eapply wp_mono; [by apply bio_bread_law|].
    intros h s' (? & Hd & ? & ? & ? & ? & ?). rewrite Hd. unfold bio_disk. rewrite Hd. by split_and!.
  - intros s h b Hwf H1. destruct (held_cached s h b Hwf H1) as (x & Hx & Hd & <- & _).
    cbn. rewrite (bind_Ret _ _ _ _ _ (getb_at s h x Hx)). rewrite (view_cached s h x); done.
  - intros s h b Hwf H1. destruct (held_cached s h b Hwf H1) as (x & Hx & Hd & <- & _).
    cbn. by rewrite (bind_Ret _ _ _ _ _ (getb_at s h x Hx)).
  - intros s h b d Hwf H1 Hd. destruct (bio_bset_law s h b d Hwf H1 Hd) as (s' & ? & ? & Hk & ? & ? & ? & ?).
    exists s'. cbn. unfold bio_disk. rewrite Hk. by split_and!.
  - intros s h b Hwf H1. destruct (bio_bdirty_law s h b Hwf H1) as (s' & ? & ? & Hk & ? & ? & ? & ?).
    exists s'. cbn. unfold bio_disk. rewrite Hk. by split_and!.
  - intros s h b Hwf H1. destruct (bio_bwrite_law s h b Hwf H1) as (s' & ? & ? & Hk & ? & ? & ? & ? & ?).
    exists s'. cbn. rewrite Hk. by split_and!.
  - intros s h b Hwf H1 Hc. destruct (bio_brelse_law s h b Hwf H1 Hc) as (s' & ? & ? & Hk & ? & ? & ? & ?).
    exists s'. cbn. unfold bio_disk. rewrite Hk. by split_and!.
Defined.

(** C7. [bread] of a block in range that the caller has not locked returns a locked
    buffer with the block's contents (the cached ones if cached, the disk's
    otherwise), changes the contents of no block and the order of the list not at
    all. On a miss it recycles the least recently released buffer that is neither
    referenced nor dirty, and it panics only if there is none. *)
Theorem bread_exact s bn ord :
  bio_wf s -> ring (bc_buf s) ord -> 0 <= bn < Z.of_nat (length (d_blocks s)) ->
  (forall h, bio_held s h <> Some bn) ->
  match bio_bread pid 1 bn s with
  | Ret (h, s') =>
      bio_wf s' /\ ring (bc_buf s') ord /\ (forall b, bio_view s' b = bio_view s b) /\
      (exists x, at_buf s' h x /\ b_dev x = 1 /\ b_blockno x = bn /\
         b_data x = bio_view s bn /\ holdingsleep pid (b_lock x) = true) /\
      ((exists x, at_buf s h x /\ b_dev x = 1 /\ b_blockno x = bn) \/
       (forall j y, at_buf s j y -> b_dev y = 1 -> b_blockno y <> bn) /\
       pick (bc_buf s) recyclable (reverse ord) = Some h)
  | Panic e => e = "bget: no buffers" /\ forall i x, at_buf s i x -> recyclable x = false
  | _ => False
  end.
Proof.
  intros Hwf Hr Hbn Hh. pose proof (bio_bread_law s bn Hwf Hbn Hh) as Hlaw. unfold wp in Hlaw.
  destruct (bio_bread_run s bn ord Hwf Hr Hbn Hh) as
    [(i & x & Hx & Hd & Hb & Hr0 & Hrun)|[Hmiss Hcase]].
  - rewrite Hrun in *. destruct Hlaw as (Hwf' & _ & _ & Hv & _). split_and!; try done.
    + eapply ring_put; [apply Hx|done..].
    + exists (locked_buf x). split_and!; try done; [by eapply at_put_self| |].
      * subst bn. cbn. symmetry. by apply (view_cached s i).
      * unfold holdingsleep. cbn. apply Z.eqb_refl.
    + left. eauto.
  - destruct (pick _ _ _) as [i|] eqn:Hp.
    + destruct Hcase as (x & d & Hx & Hrec & Hd & Hrun). rewrite Hrun in *.
      destruct Hlaw as (Hwf' & _ & _ & Hv & _). split_and!; try done.
      * eapply ring_put; [apply Hx|done..].
      * exists (filled_buf x bn d). split_and!; try done; [by eapply at_put_self| |].
        -- cbn. rewrite (view_uncached s bn Hmiss). symmetry. apply disk_lookup; [lia|done].
        -- unfold holdingsleep. cbn. apply Z.eqb_refl.
      * right. done.
    + rewrite Hcase. split; [done|]. intros i x [Hi Hx]. eapply pick_None; [exact Hp| |done].
      rewrite elem_of_reverse. by apply (ring_elem _ _ _ Hr).
Qed.

(** [brelse] of a locked buffer whose contents are on the disk or that is dirty
    (so that it cannot be lost) succeeds, keeps the contents of every block, and
    moves the buffer to the front of the list, leaving the others in order. *)
Theorem brelse_moves_to_front s h b l1 l2 :
  bio_wf s -> bio_held s h = Some b -> bio_pin s b \/ bio_view s b = bio_disk s b ->
  ring (bc_buf s) (l1 ++ h :: l2) ->
  exists s', bio_brelse pid h s = Ret (tt, s') /\ bio_wf s' /\
    ring (bc_buf s') (h :: l1 ++ l2) /\ (forall b', bio_view s' b' = bio_view s b') /\
    bio_held s' h = None.
Proof.
  intros Hwf Hh Hc Hr. destruct (bio_brelse_law s h b Hwf Hh Hc)
    as (s' & Hrun & Hwf' & _ & _ & Hv & _ & Hheld).
  exists s'. split_and!; try done; [|by rewrite Hheld, decide_True].
  destruct (held_cached s h b Hwf Hh) as (x & Hx & _ & _ & Hrc & Hl).
  unfold bio_brelse in Hrun. rewrite (bind_Ret _ _ _ _ _ (getb_at s h x Hx)) in Hrun.
  unfold holdingsleep in Hrun. rewrite Hl in Hrun. cbn [sl_locked sl_pid andb] in Hrun.
  rewrite Z.eqb_refl in Hrun. cbn [negb] in Hrun.
  assert (on_block h releasesleep s = Ret (tt, put s h (set_lock initsleeplock x))) as Hrel.
  { unfold on_block. destruct Hx as [_ Hx]. by rewrite Hx. }
  rewrite (bind_Ret _ _ _ _ _ Hrel) in Hrun.
  pose proof (at_put_self s h x (set_lock initsleeplock x) Hx) as Hx1.
  rewrite (bind_Ret _ _ _ _ _ (updb_at _ h _ _ Hx1)), put_put in Hrun.
  cbn [b_refcnt set_lock] in Hrun. rewrite Hrc in Hrun. change (1 - 1) with 0 in Hrun.
  rewrite (bind_Ret _ _ _ _ _ (getb_at _ h _ (at_put_self s h x _ Hx))) in Hrun. cbn in Hrun.
  destruct (to_front_ok (put s h (set_refcnt 0 (set_lock initsleeplock x))) h l1 l2)
    as (nb & Hf & Hr' & _).
  - eapply ring_put; [apply Hx|done..].
  - unfold put, with_buf in Hrun, Hf. rewrite Hf in Hrun. by simplify_eq.
Qed.

(** The cache after [binit] on zeroed memory. *)
Definition buf_zero : buf := Buf 0 0 0 initsleeplock 0 0 0 [].

Definition boot_bio (dk : list (list Z)) : bio := Bio (replicate (S NBUF) buf_zero) dk [].

Definition after_binit (dk : list (list Z)) : bio :=
  match binit (boot_bio dk) with Ret (_, s) => s | _ => boot_bio dk end.

Lemma binit_order dk : ring (bc_buf (after_binit dk)) (reverse (seq 0 NBUF)).
Proof.
  split; [by vm_compute|]. split; [by rewrite reverse_Permutation|].
  vm_compute. repeat split.
Qed.

Lemma after_binit_disk dk : d_blocks (after_binit dk) = dk.
Proof. vm_compute. reflexivity. Qed.

Lemma buf_ok_zero dk b :
  b_dev b = 0 -> b_flags b = 0 -> b_refcnt b = 0 -> b_lock b = initsleeplock -> buf_ok dk b.
Proof. intros Hd Hf Hr Hl. split; intros; try congruence; tauto. Qed.

Lemma after_binit_ok dk :
  (forall d, d ∈ dk -> length d = Z.to_nat BSIZE) ->
  bio_wf (after_binit dk) /\
  (forall b, bio_view (after_binit dk) b = bio_disk (boot_bio dk) b) /\
  (forall h, bio_held (after_binit dk) h = None).
Proof.
  intros Hdk.
  assert (Forall (fun b => b_dev b = 0 /\ b_flags b = 0 /\ b_refcnt b = 0 /\ b_lock b = initsleeplock)
    (bc_buf (after_binit dk))) as HF by (vm_compute; repeat constructor).
  rewrite Forall_lookup in HF.
  assert (bio_wf (after_binit dk)) as Hwf.
  { split.
    - eexists. apply binit_order.
    - intros i b [_ Hb]. destruct (HF i b Hb) as (? & ? & ? & ?). by apply buf_ok_zero.
    - intros i j b c [_ Hb] _ Hd. destruct (HF i b Hb) as (Hd0 & _). congruence.
    - by rewrite after_binit_disk. }
  split; [done|]. split.
  - intros b. assert (bio_disk (boot_bio dk) b = bio_disk (after_binit dk) b) as ->.
    { unfold bio_disk. by rewrite after_binit_disk. }
    apply view_uncached. intros i x [_ Hx]. destruct (HF i x Hx) as (-> & _). done.
  - intros h. unfold bio_held. case_decide; [|done].
    destruct (bc_buf (after_binit dk) !! h) as [x|] eqn:Hx; [|done].
    destruct (HF h x Hx) as (_ & _ & -> & _). done.
Qed.

(** [binit] on zeroed memory links the [NBUF] buffers into one circular list,
    the last one first, and establishes the invariant of the cache: nothing is
    cached and every block reads as it is on the disk. *)
Theorem binit_establishes dk :
  (forall d, d ∈ dk -> length d = Z.to_nat BSIZE) ->
  binit (boot_bio dk) = Ret (tt, after_binit dk) /\
  bio_wf (after_binit dk) /\ ring (bc_buf (after_binit dk)) (reverse (seq 0 NBUF)) /\
  (forall b, bio_view (after_binit dk) b = bio_disk (boot_bio dk) b) /\
  (forall h, bio_held (after_binit dk) h = None).
Proof.
  intros Hdk. destruct (after_binit_ok dk Hdk) as (Hwf & Hv & Hh).
  split; [by vm_compute|]. split_and!; [done|apply binit_order|done|done].
Qed.

End spec.

(** * Concrete runs *)

Definition demo_disk : list (list Z) := replicate 4 (replicate 512 0).
Definition demo_bio : bio := after_binit demo_disk.

Lemma demo_bio_wf : bio_wf 7 demo_bio.
Proof.
  apply (after_binit_ok 7 demo_disk). intros d. unfold demo_disk.
  intros [-> _]%elem_of_replicate. apply length_replicate.
Qed.

Lemma demo_bio_free h b : bio_held demo_bio h <> Some b.
Proof.
  unfold demo_bio. destruct (after_binit_ok 7 demo_disk) as (_ & _ & ->); [|done].
  intros d. unfold demo_disk. intros [-> _]%elem_of_replicate. apply length_replicate.
Qed.

(** Block 2 is read and locked, in buffer 0. *)
Definition demo_read : bio :=
  match bio_bread 7 1 2 demo_bio with Ret (_, s) => s | _ => demo_bio end.

Lemma demo_read_run : bio_bread 7 1 2 demo_bio = Ret (0%nat, demo_read).
Proof. vm_compute. reflexivity. Qed.

Lemma demo_range : 0 <= 2 < Z.of_nat (length (d_blocks demo_bio)).
Proof. unfold demo_bio. rewrite after_binit_disk. cbn. lia. Qed.

Lemma bread_exact_witness :
  bio_wf 7 demo_read /\ ring (bc_buf demo_read) (reverse (seq 0 NBUF)).
Proof.
  pose proof (bread_exact 7 demo_bio 2 (reverse (seq 0 NBUF)) demo_bio_wf (binit_order demo_disk)
    demo_range (fun h => demo_bio_free h 2)) as Hb.
  rewrite demo_read_run in Hb. destruct Hb as (Hwf & Hr & _). exact (conj Hwf Hr).
Defined.

Lemma demo_read_clean : bio_view demo_read 2 = bio_disk demo_read 2.
Proof. vm_compute. reflexivity. Qed.

Lemma demo_read_wf : bio_wf 7 demo_read /\ bio_held demo_read 0 = Some 2.
Proof.
  pose proof (wp_Ret _ _ _ _ _ _ (bio_bread_law 7 demo_bio 2 demo_bio_wf demo_range
    (fun h => demo_bio_free h 2)) demo_read_run) as (Hwf & _ & _ & _ & _ & _ & Hh).
  split; [exact Hwf|]. rewrite Hh. apply decide_True. reflexivity.
Qed.

Lemma brelse_moves_to_front_witness :
  exists s', bio_brelse 7 0 demo_read = Ret (tt, s') /\ bio_wf 7 s' /\
    ring (bc_buf s') (0%nat :: reverse (seq 1 29) ++ []) /\
    (forall b', bio_view s' b' = bio_view demo_read b') /\ bio_held s' 0 = None.
Proof.
  destruct demo_read_wf as (Hwf & Hh).
  refine (brelse_moves_to_front 7 demo_read 0 2 (reverse (seq 1 29)) [] Hwf Hh (or_intror demo_read_clean) _).
  split; [vm_compute; reflexivity|]. split.
  - change (reverse (seq 1 29) ++ [0%nat]) with (reverse (seq 0 NBUF)). apply reverse_Permutation.
  - vm_compute. repeat split.
Defined.

Lemma binit_establishes_witness :
  binit (boot_bio demo_disk) = Ret (tt, after_binit demo_disk) /\
  bio_wf 7 (after_binit demo_disk) /\
  ring (bc_buf (after_binit demo_disk)) (reverse (seq 0 NBUF)) /\
  (forall b, bio_view (after_binit demo_disk) b = bio_disk (boot_bio demo_disk) b) /\
  (forall h, bio_held (after_binit demo_disk) h = None).
Proof.
  apply (binit_establishes 7 demo_disk). intros d. unfold demo_disk.
  intros [-> _]%elem_of_replicate. apply length_replicate.
Defined.
