(* ===== verification/Log.v ===== *)
(** [log.c]: the redo log that makes file system transactions atomic.

    The code runs over any cache with the interface of Cache.v. A [sleep] of [begin_op]
    is the outcome [Block]: the caller tests the condition again when it is woken. *)

From S2P Require Import Prelude Cache.

Definition MAXOPBLOCKS : Z := 10.
Definition LOGSIZE : Z := MAXOPBLOCKS * 3.

(** [struct superblock] *)
Record superblock := Sb {
  sb_size : Z;
  sb_nblocks : Z;
  sb_ninodes : Z;
  sb_nlog : Z;
  sb_logstart : Z;
  sb_inodestart : Z;
  sb_bmapstart : Z
}.

Definition sb_decode (d : list Z) : superblock :=
  Sb (getn 4 d 0) (getn 4 d 4) (getn 4 d 8) (getn 4 d 12) (getn 4 d 16) (getn 4 d 20)
    (getn 4 d 24).

(** [struct log]; the header's [n] and [block]. *)
Record log := Log {
  lg_start : Z;
  lg_size : Z;
  lg_outstanding : Z;
  lg_committing : bool;
  lg_dev : Z;
  lg_n : Z;
  lg_block : list Z
}.

(** The part of the kernel below the file system: a cache and the log. *)
Record lst (S : Type) := Lst { l_cache : S; l_log : log }.
Arguments Lst {S} l_cache l_log.
Arguments l_cache {S} l.
Arguments l_log {S} l.

Definition set_n (v : Z) (l : log) : log :=
  Log (lg_start l) (lg_size l) (lg_outstanding l) (lg_committing l) (lg_dev l) v (lg_block l).
Definition set_block (i : nat) (v : Z) (l : log) : log :=
  Log (lg_start l) (lg_size l) (lg_outstanding l) (lg_committing l) (lg_dev l) (lg_n l)
    (<[i := v]> (lg_block l)).
Definition set_outstanding (v : Z) (l : log) : log :=
  Log (lg_start l) (lg_size l) v (lg_committing l) (lg_dev l) (lg_n l) (lg_block l).
Definition set_committing (v : bool) (l : log) : log :=
  Log (lg_start l) (lg_size l) (lg_outstanding l) v (lg_dev l) (lg_n l) (lg_block l).

(** The on-disk header: [n] and then the block numbers. *)
Definition hdr_n (d : list Z) : Z := geti d 0.
Definition hdr_block (d : list Z) (i : nat) : Z := geti d (4 + 4 * i).

Fixpoint put_blocks (d : list Z) (i : nat) (l : list Z) : list Z :=
  match l with
  | [] => d
  | b :: l => put_blocks (puti d (4 + 4 * i) b) (S i) l
  end.

(** [hb->n = log.lh.n; for(i = 0; i < log.lh.n; i++) hb->block[i] = log.lh.block[i];] *)
Definition header (d : list Z) (l : list Z) : list Z :=
  put_blocks (puti d 0 (Z.of_nat (length l))) 0 l.

Section log.
Context {S : Type} `{!Cache S}.
Local Abbreviation L := (M (lst S)).

Definition on_cache {A} (m : M S A) : L A := fun s =>
  match m (l_cache s) with
  | Ret (a, c) => Ret (a, Lst c (l_log s))
  | Panic e => Panic e | Block => Block | Fault => Fault | NoFuel => NoFuel
  end.

Definition upd_log (f : log -> log) : L unit := modify (fun s => Lst (l_cache s) (f (l_log s))).

(** [log.lh.block[i]] *)
Definition lh_block (i : nat) : L Z := fun s =>
  match lg_block (l_log s) !! i with Some b => Ret (b, s) | None => Fault end.

Definition set_lh_block (i : nat) (v : Z) : L unit := fun s =>
  if (i <? length (lg_block (l_log s)))%nat
  then Ret (tt, Lst (l_cache s) (set_block i v (l_log s))) else Fault.

Definition readsb (dev : Z) : L superblock :=
  let* bp := on_cache (bread dev 1) in
  let* d := on_cache (bdata bp) in
  on_cache (brelse bp) ;;;
  ret (sb_decode d).

Definition install_one (tail : nat) : L unit :=
  let* lg := gets l_log in
  let* lbuf := on_cache (bread (lg_dev lg) (lg_start lg + Z.of_nat tail + 1)) in
  let* b := lh_block tail in
  let* dbuf := on_cache (bread (lg_dev lg) b) in
  let* d := on_cache (bdata lbuf) in
  on_cache (bset dbuf d) ;;;
  on_cache (bwrite dbuf) ;;;
  on_cache (brelse lbuf) ;;;
  on_cache (brelse dbuf).

Definition install_trans : L unit :=
  let* lg := gets l_log in
  for_up (Z.to_nat (lg_n lg)) 0 install_one.

Definition read_head : L unit :=
  let* lg := gets l_log in
  let* buf := on_cache (bread (lg_dev lg) (lg_start lg)) in
  let* d := on_cache (bdata buf) in
  upd_log (set_n (hdr_n d)) ;;;
  for_up (Z.to_nat (hdr_n d)) 0 (fun i => set_lh_block i (hdr_block d i)) ;;;
  on_cache (brelse buf).

Definition write_head : L unit :=
  let* lg := gets l_log in
  let* buf := on_cache (bread (lg_dev lg) (lg_start lg)) in
  let* d := on_cache (bdata buf) in
  if LOGSIZE <? lg_n lg then fault
  else
    on_cache (bset buf (header d (take (Z.to_nat (lg_n lg)) (lg_block lg)))) ;;;
    on_cache (bwrite buf) ;;;
    on_cache (brelse buf).

Definition recover_from_log : L unit :=
  read_head ;;;
  install_trans ;;;
  upd_log (set_n 0) ;;;
  write_head.

Definition initlog (dev : Z) : L unit :=
  if BSIZE <=? 4 + 4 * LOGSIZE then panic "initlog: too big logheader"
  else
    let* sb := readsb dev in
    upd_log (fun l => Log (s32 (sb_logstart sb)) (s32 (sb_nlog sb)) (lg_outstanding l)
                        (lg_committing l) dev (lg_n l) (lg_block l)) ;;;
    recover_from_log.

Definition begin_op : L unit :=
  let* lg := gets l_log in
  if lg_committing lg then block
  else if LOGSIZE <? lg_n lg + (lg_outstanding lg + 1) * MAXOPBLOCKS then block
  else upd_log (set_outstanding (lg_outstanding lg + 1)).

Definition write_log_one (tail : nat) : L unit :=
  let* lg := gets l_log in
  let* to := on_cache (bread (lg_dev lg) (lg_start lg + Z.of_nat tail + 1)) in
  let* b := lh_block tail in
  let* from := on_cache (bread (lg_dev lg) b) in
  let* d := on_cache (bdata from) in
  on_cache (bset to d) ;;;
  on_cache (bwrite to) ;;;
  on_cache (brelse from) ;;;
  on_cache (brelse to).

Definition write_log : L unit :=
  let* lg := gets l_log in
  for_up (Z.to_nat (lg_n lg)) 0 write_log_one.

Definition commit : L unit :=
  let* lg := gets l_log in
  if 0 <? lg_n lg then
    write_log ;;;
    write_head ;;;
    install_trans ;;;
    upd_log (set_n 0) ;;;
    write_head
  else ret tt.

(** [end_op] up to the release of [log.lock]; the result is [do_commit]. *)
Definition end_op_leave : L bool :=
  upd_log (fun l => set_outstanding (lg_outstanding l - 1) l) ;;;
  let* lg := gets l_log in
  if lg_committing lg then panic "log.committing"
  else if lg_outstanding lg =? 0 then upd_log (set_committing true) ;;; ret true
  else ret false.

Definition end_op : L unit :=
  let* do_commit := end_op_leave in
  if (do_commit : bool) then
    commit ;;;
    upd_log (set_committing false)
  else ret tt.

(** The position of the block in the transaction, or its end. *)
Definition log_slot (lg : log) (blockno : Z) : nat :=
  match findi (fun b => b =? blockno) (take (Z.to_nat (lg_n lg)) (lg_block lg)) with
  | Some i => i
  | None => Z.to_nat (lg_n lg)
  end.

Definition log_write (b : nat) : L unit :=
  let* lg := gets l_log in
  if (LOGSIZE <=? lg_n lg) || (lg_size lg - 1 <=? lg_n lg) then panic "too big a transaction"
  else if lg_outstanding lg <? 1 then panic "log_write outside of trans"
  else
    let* blockno := on_cache (bblockno b) in
    let i := log_slot lg blockno in
    set_lh_block i blockno ;;;
    (if (i =? Z.to_nat (lg_n lg))%nat then upd_log (set_n (lg_n lg + 1)) else ret tt) ;;;
    on_cache (bdirty b).

End log.
