(* ===== verification/LogSpec.v ===== *)
(** Theorems on [log.c] (Log.v): a transaction is atomic under crashes, and what
    [begin_op] reserves.

    The disk changes only by block writes, in the order of the write history; a crash
    keeps some prefix of them. The first part reasons about lists of writes alone; the
    second shows that the code makes exactly those writes; the third combines them. *)

From S2P Require Import Prelude Sleeplock Cache Bio BioSpec Log.

(** * Lists of block writes *)

Definition disk := Z -> list Z.

Definition apply_ws (d : disk) (ws : list (Z * list Z)) : disk :=
  fold_left (fun f w => bupd f w.1 w.2) ws d.

#[global] Arguments apply_ws : simpl never.

Lemma apply_cons d b v ws : apply_ws d ((b, v) :: ws) = apply_ws (bupd d b v) ws.
Proof. done. Qed.

Lemma apply_nil d : apply_ws d [] = d.
Proof. done. Qed.

Lemma apply_app d ws ws' : apply_ws d (ws ++ ws') = apply_ws (apply_ws d ws) ws'.
Proof. unfold apply_ws. apply fold_left_app. Qed.

Lemma apply_notin ws : forall d b, b ∉ ws.*1 -> apply_ws d ws b = d b.
Proof.
  induction ws as [|[b0 v] ws IH]; intros d b Hb; [done|]. rewrite apply_cons. cbn in Hb.
  rewrite not_elem_of_cons in Hb. destruct Hb as [Hne Hb].
  rewrite IH by done. by apply bupd_ne.
Qed.

Lemma apply_in ws : forall d i b v, NoDup ws.*1 -> ws !! i = Some (b, v) -> apply_ws d ws b = v.
Proof.
  induction ws as [|[b0 v0] ws IH]; intros d i b v Hnd Hi; [done|]. rewrite apply_cons. cbn in Hnd.
  apply NoDup_cons in Hnd as [Hb0 Hnd]. destruct i as [|i]; cbn in Hi.
  - simplify_eq. rewrite apply_notin by done. apply bupd_eq.
  - by eapply IH.
Qed.

Lemma apply_snoc d ws b v : apply_ws d (ws ++ [(b, v)]) = bupd (apply_ws d ws) b v.
Proof. by rewrite apply_app, apply_cons. Qed.

Lemma apply_ext ws : forall d d' b, (forall x, d x = d' x) -> apply_ws d ws b = apply_ws d' ws b.
Proof.
  induction ws as [|[b0 v0] ws IH]; intros d d' b Hd; [apply Hd|]. rewrite !apply_cons. apply IH.
  intros x. unfold bupd. by case_decide.
Qed.

(** * The header block *)

Lemma length_put_blocks l : forall d i, (4 + 4 * (i + length l) <= length d)%nat ->
  length (put_blocks d i l) = length d.
Proof.
  induction l as [|b l IH]; intros d i H; cbn [put_blocks]; [done|]. cbn in H.
  rewrite IH; rewrite length_puti; lia.
Qed.

Lemma geti_put_blocks_below l : forall d i off, (4 + 4 * (i + length l) <= length d)%nat ->
  (off + 4 <= 4 + 4 * i)%nat -> geti (put_blocks d i l) off = geti d off.
Proof.
  induction l as [|b l IH]; intros d i off H Hoff; cbn [put_blocks]; [done|]. cbn in H.
  rewrite IH by (rewrite ?length_puti; lia). apply geti_puti_ne; lia.
Qed.

Lemma geti_put_blocks l : forall d i k b, (4 + 4 * (i + length l) <= length d)%nat ->
  l !! k = Some b -> - 2 ^ 31 <= b < 2 ^ 31 -> geti (put_blocks d i l) (4 + 4 * (i + k)) = b.
Proof.
  induction l as [|b0 l IH]; intros d i k b H Hk Hb; [done|]. cbn [put_blocks]. cbn in H.
  destruct k as [|k]; cbn in Hk.
  - simplify_eq. rewrite Nat.add_0_r.
    rewrite geti_put_blocks_below by (rewrite ?length_puti; lia). apply geti_puti_eq; [lia|done].
  - replace (i + S k)%nat with (S i + k)%nat by lia. apply IH; [rewrite length_puti; lia|done|done].
Qed.

Section header.
Context (d l : list Z).
Context (Hd : length d = Z.to_nat BSIZE) (Hl : (length l <= Z.to_nat LOGSIZE)%nat).

Lemma length_header : length (header d l) = Z.to_nat BSIZE.
Proof.
  unfold header. change (Z.to_nat BSIZE) with 512%nat in *. change (Z.to_nat LOGSIZE) with 30%nat in *.
  rewrite length_put_blocks; rewrite length_puti; lia.
Qed.

Lemma header_n : hdr_n (header d l) = Z.of_nat (length l).
Proof.
  unfold header, hdr_n. change (Z.to_nat BSIZE) with 512%nat in *. change (Z.to_nat LOGSIZE) with 30%nat in *.
  rewrite geti_put_blocks_below by (rewrite ?length_puti; lia). apply geti_puti_eq; lia.
Qed.

Lemma header_block k b : l !! k = Some b -> - 2 ^ 31 <= b < 2 ^ 31 -> hdr_block (header d l) k = b.
Proof.
  intros Hk Hb. unfold header, hdr_block.
  change (Z.to_nat BSIZE) with 512%nat in *. change (Z.to_nat LOGSIZE) with 30%nat in *.
  change (4 + 4 * k)%nat with (4 + 4 * (0 + k))%nat.
  apply geti_put_blocks; [rewrite length_puti; lia|done|done].
Qed.
End header.

(** * Crashes *)

Section crash.
Context (start size : Z).

(** Blocks that are not part of the log. *)
Definition home (b : Z) : Prop := b < start \/ start + size <= b.

Definition log_ws (vs : list (list Z)) : list (Z * list Z) :=
  imap (fun i v => (start + Z.of_nat i + 1, v)) vs.

Lemma log_ws_fst vs b : b ∈ (log_ws vs).*1 -> start < b <= start + Z.of_nat (length vs).
Proof.
  intros (p & -> & Hp)%list_elem_of_fmap. unfold log_ws in Hp.
  apply elem_of_lookup_imap in Hp as (i & v & -> & Hi%lookup_lt_Some). cbn. lia.
Qed.

Lemma log_ws_NoDup vs : NoDup (log_ws vs).*1.
Proof.
  unfold log_ws. rewrite NoDup_alt. intros i j x.
  rewrite !list_lookup_fmap, !list_lookup_imap.
  destruct (vs !! i); [|done]. destruct (vs !! j); [|done]. cbn. intros ? ?. simplify_eq. lia.
Qed.

(** The writes of [commit] for the transaction that gives the blocks [bs] the contents
    [vs], when the header block holds [h0]. *)
Definition commit_ws (h0 : list Z) (bs : list Z) (vs : list (list Z)) : list (Z * list Z) :=
  log_ws vs ++ [(start, header h0 bs)] ++ zip bs vs ++ [(start, header (header h0 bs) [])].

(** The writes of [recover_from_log] on disk [D]. *)
Definition rec_blocks (D : disk) : list Z :=
  hdr_block (D start) <$> seq 0 (Z.to_nat (hdr_n (D start))).
Definition rec_data (D : disk) : list (list Z) :=
  (fun i => D (start + Z.of_nat i + 1)) <$> seq 0 (Z.to_nat (hdr_n (D start))).
Definition recover_ws (D : disk) : list (Z * list Z) :=
  zip (rec_blocks D) (rec_data D) ++ [(start, header (D start) [])].

(** Disks that a crash during a recovery, a crash during the recovery after that, and
    so on can leave. *)
Inductive crashes (D : disk) : disk -> Prop :=
| crashes_refl : crashes D D
| crashes_step D' j : crashes D D' -> crashes D (apply_ws D' (take j (recover_ws D'))).

Context (Hsize : 1 <= size).

Lemma home_ne_start b : home b -> b <> start.
Proof. unfold home. lia. Qed.

(** The log holds no transaction and the home blocks read as in [H]. *)
Definition clean (H D : disk) : Prop :=
  hdr_n (D start) = 0 /\ length (D start) = Z.to_nat BSIZE /\ forall b, home b -> D b = H b.

Lemma clean_recover H D j : clean H D -> clean H (apply_ws D (take j (recover_ws D))).
Proof.
  intros (Hh & Hl & Hb). unfold recover_ws, rec_blocks, rec_data. rewrite Hh.
  change (Z.to_nat 0) with 0%nat. cbn [seq fmap list_fmap zip_with app].
  destruct j as [|j]; [done|]. cbn [take]. rewrite take_nil, apply_cons, apply_nil. split_and!.
  - rewrite bupd_eq, header_n; [done|done|cbn; lia].
  - rewrite bupd_eq. apply length_header; [done|cbn; lia].
  - intros b Hhb. rewrite bupd_ne by by apply home_ne_start. auto.
Qed.

Lemma clean_crashes H D D' : clean H D -> crashes D D' -> clean H D'.
Proof. intros Hc. induction 1; [done|]. by apply clean_recover. Qed.

Lemma clean_recovered H D : clean H D -> clean H (apply_ws D (recover_ws D)).
Proof.
  intros Hc. pose proof (clean_recover H D (length (recover_ws D)) Hc) as Hr.
  by rewrite take_ge in Hr by lia.
Qed.

Lemma clean_ext H D D' : (forall b, D' b = D b) -> clean H D -> clean H D'.
Proof.
  intros He (Hz' & Hl & Ho). unfold clean. rewrite !He. split_and!; [done|done|].
  intros b Hb. rewrite He. auto.
Qed.

(** A transaction on the disk [D0]. *)
Context (D0 : disk) (bs : list Z) (vs : list (list Z)).
Context (Hlen : length bs = length vs) (Hnd : NoDup bs).
Context (Hhome : forall b, b ∈ bs -> home b).
Context (Hrange : forall b, b ∈ bs -> 0 <= b < 2 ^ 31).
Context (Hn : (length bs <= Z.to_nat LOGSIZE)%nat) (Hsz : Z.of_nat (length bs) <= size - 1).
Context (H0 : length (D0 start) = Z.to_nat BSIZE) (Hz : hdr_n (D0 start) = 0).

Definition new : disk := apply_ws D0 (zip bs vs).

Lemma zip_fst : (zip bs vs).*1 = bs.
Proof. apply fst_zip. clear - Hlen. lia. Qed.

(** The log holds the transaction; its home blocks may be written or not. *)
Definition committed (D : disk) : Prop :=
  length (D start) = Z.to_nat BSIZE /\ hdr_n (D start) = Z.of_nat (length bs) /\
  rec_blocks D = bs /\ rec_data D = vs /\
  forall b, home b -> b ∉ bs -> D b = D0 b.

Lemma new_notin b : b ∉ bs -> new b = D0 b.
Proof. intros H. unfold new. apply apply_notin. by rewrite zip_fst. Qed.

Lemma new_in i b v : bs !! i = Some b -> vs !! i = Some v -> new b = v.
Proof.
  intros Hb Hv. unfold new. eapply (apply_in _ _ i); [by rewrite zip_fst|].
  rewrite lookup_zip_with, Hb. cbn. by rewrite Hv.
Qed.

(** Every home write of the transaction is in place after all of [zip bs vs]. *)
Lemma installed D b : home b -> (b ∉ bs -> D b = D0 b) -> apply_ws D (zip bs vs) b = new b.
Proof.
  intros Hh HD. destruct (decide (b ∈ bs)) as [Hin|Hout].
  - apply list_elem_of_lookup in Hin as [i Hi].
    destruct (lookup_lt_is_Some_2 vs i) as [v Hv]; [apply lookup_lt_Some in Hi; lia|].
    rewrite (new_in i b v) by done. eapply (apply_in _ _ i); [by rewrite zip_fst|].
    rewrite lookup_zip_with, Hi. cbn. by rewrite Hv.
  - rewrite apply_notin by by rewrite zip_fst. rewrite HD by done. by rewrite new_notin.
Qed.

Lemma in_take_zip j b : b ∈ (take j (zip bs vs)).*1 -> b ∈ bs.
Proof.
  intros Hb. rewrite fmap_take, zip_fst in Hb. apply list_elem_of_lookup in Hb as [i Hi].
  apply lookup_take_Some in Hi as [Hi _]. by eapply list_elem_of_lookup_2.
Qed.

Lemma committed_home_write D j : committed D -> committed (apply_ws D (take j (zip bs vs))).
Proof.
  intros (Hl & Hhn & Hb & Hv & Ho).
  assert (forall b, ~ home b -> apply_ws D (take j (zip bs vs)) b = D b) as Hlog.
  { intros b Hnb. apply apply_notin. intros Hin%in_take_zip. by apply Hnb, Hhome. }
  assert (apply_ws D (take j (zip bs vs)) start = D start) as Hst.
  { apply Hlog. unfold home. lia. }
  unfold committed, rec_blocks, rec_data. rewrite Hst. split_and!; [done|done|done| |].
  - transitivity (rec_data D); [|done]. unfold rec_data. apply list_fmap_ext. intros i x Hx.
    apply lookup_seq in Hx as [-> Hi]. apply Hlog.
    assert (length (rec_blocks D) = length bs) as Hlb by by rewrite Hb.
    unfold rec_blocks in Hlb. rewrite length_fmap, length_seq in Hlb. unfold home. lia.
  - intros b Hh Hnb. rewrite apply_notin by (intros Hin%in_take_zip; done). auto.
Qed.

Lemma committed_recover D j : committed D ->
  let D' := apply_ws D (take j (recover_ws D)) in
  committed D' /\ (j <= length bs)%nat \/ clean new D'.
Proof.
  assert (length (zip bs vs) = length bs) as Hlz by (rewrite length_zip_with; lia).
  intros Hc. pose proof Hc as (Hl & _ & Hb & Hv & Ho). cbn.
  unfold recover_ws. rewrite Hb, Hv.
  destruct (decide (j <= length (zip bs vs))%nat) as [Hj|Hj].
  - left. rewrite take_app_le by done. split; [by apply committed_home_write|lia].
  - right. rewrite take_ge.
    2: { rewrite length_app. cbn. lia. }
    rewrite apply_app, apply_cons, apply_nil.
    assert (apply_ws D (zip bs vs) start = D start) as Hst.
    { apply apply_notin. rewrite zip_fst. intros Hin. apply (home_ne_start start); auto. }
    split_and!.
    + rewrite bupd_eq, header_n; [done|done|cbn; lia].
    + rewrite bupd_eq. apply length_header; [done|cbn; lia].
    + intros b Hh. rewrite bupd_ne by by apply home_ne_start. apply installed; auto.
Qed.

(** Where a crash during [commit] leaves the disk. *)
Lemma commit_prefix k :
  let D := apply_ws D0 (take k (commit_ws (D0 start) bs vs)) in
  (k <= length bs)%nat /\ clean D0 D \/ (length bs < k)%nat /\ (committed D \/ clean new D).
Proof.
  cbn. unfold commit_ws.
  assert (length (log_ws vs) = length bs) as Hll by (unfold log_ws; by rewrite length_imap).
  destruct (decide (k <= length bs)%nat) as [Hk|Hk].
  { left. split; [done|]. rewrite take_app_le by lia.
    assert (forall b, ~ (start < b < start + size) -> apply_ws D0 (take k (log_ws vs)) b = D0 b) as Hlog.
    { intros b Hb. apply apply_notin. rewrite fmap_take. intros Hin. apply Hb.
      apply list_elem_of_lookup in Hin as [i Hi]. apply lookup_take_Some in Hi as [Hi _].
      apply list_elem_of_lookup_2, log_ws_fst in Hi. lia. }
    split_and!; [by rewrite Hlog by lia..|]. intros b Hb. apply Hlog. unfold home in Hb. lia. }
  right. split; [lia|]. rewrite take_app_ge, apply_app by lia. rewrite Hll.
  destruct (k - length bs)%nat as [|j] eqn:Hj; [lia|]. cbn [app take]. rewrite apply_cons.
  set (D1 := apply_ws D0 (log_ws vs)).
  assert (forall b, ~ (start < b < start + size) -> D1 b = D0 b) as Hlog.
  { intros b Hb. apply apply_notin. intros Hin%log_ws_fst. lia. }
  set (h := header (D0 start) bs).
  assert (committed (bupd D1 start h)) as Hc.
  { unfold committed, rec_blocks, rec_data. rewrite bupd_eq.
    assert (hdr_n h = Z.of_nat (length bs)) as -> by by apply header_n.
    rewrite Nat2Z.id. split_and!; [by apply length_header|done|..].
    - apply list_eq. intros i. rewrite list_lookup_fmap.
      destruct (bs !! i) as [b|] eqn:Hi.
      + rewrite lookup_seq_lt by by eapply lookup_lt_Some. cbn. f_equal.
        apply header_block; [done..|]. apply list_elem_of_lookup_2, Hrange in Hi. lia.
      + apply lookup_ge_None in Hi. by rewrite lookup_seq_ge.
    - apply list_eq. intros i. rewrite list_lookup_fmap.
      destruct (vs !! i) as [v|] eqn:Hi.
      + rewrite lookup_seq_lt by (apply lookup_lt_Some in Hi; lia). cbn. f_equal.
        rewrite bupd_ne by lia. unfold D1. eapply (apply_in _ _ i); [apply log_ws_NoDup|].
        unfold log_ws. by rewrite list_lookup_imap, Hi.
      + apply lookup_ge_None in Hi. rewrite lookup_seq_ge by lia. done.
    - intros b Hb _. rewrite bupd_ne by by apply home_ne_start. apply Hlog. unfold home in Hb. lia. }
  destruct (decide (j <= length (zip bs vs))%nat) as [Hj2|Hj2].
  - left. rewrite take_app_le by done. by apply committed_home_write.
  - right. rewrite take_ge by (rewrite length_app; cbn; lia). rewrite apply_app, apply_cons, apply_nil.
    assert (length h = Z.to_nat BSIZE) as Hlh by by apply length_header.
    split_and!.
    + rewrite bupd_eq, header_n; [done|done|cbn; lia].
    + rewrite bupd_eq. apply length_header; [done|cbn; lia].
    + intros b Hb. rewrite bupd_ne by by apply home_ne_start. apply installed; [done|].
      intros Hnb. rewrite bupd_ne by by apply home_ne_start. apply Hlog. unfold home in Hb. lia.
Qed.

(** A [commit] that is not interrupted. *)
Lemma commit_installs b : home b -> apply_ws D0 (commit_ws (D0 start) bs vs) b = new b.
Proof.
  intros Hb. pose proof (home_ne_start b Hb). unfold commit_ws.
  rewrite !apply_app, !apply_cons, !apply_nil, bupd_ne by done. apply installed; [done|].
  intros _. rewrite bupd_ne by done. apply apply_notin. intros Hin%log_ws_fst. unfold home in Hb. lia.
Qed.

Lemma committed_crashes D D' : committed D -> crashes D D' -> committed D' \/ clean new D'.
Proof.
  intros Hc. induction 1 as [|D' j _ [IH|IH]]; [by left| |].
  { destruct (committed_recover D' j IH) as [[? _]|?]; auto. }
  right. by apply clean_recover.
Qed.

(** However often the machine crashes, the log then holds nothing and the home blocks
    are all old or all new, or it still holds the whole transaction. *)
Lemma crash_cases k D' :
  crashes (apply_ws D0 (take k (commit_ws (D0 start) bs vs))) D' ->
  clean D0 D' \/ committed D' \/ clean new D'.
Proof.
  intros Hc. destruct (commit_prefix k) as [[_ H]|[_ [H|H]]].
  - left. by eapply clean_crashes.
  - right. by eapply committed_crashes.
  - right. right. by eapply clean_crashes.
Qed.

(** A recovery that runs to its end empties the log. *)
Lemma committed_recovered D : committed D -> clean new (apply_ws D (recover_ws D)).
Proof.
  intros Hc. pose proof Hc as (_ & _ & Hb & Hv & _).
  destruct (committed_recover D (length (recover_ws D)) Hc) as [[_ Hj]|H].
  2: { by rewrite take_ge in H by lia. }
  unfold recover_ws in Hj. rewrite Hb, Hv, length_app, length_zip_with in Hj. cbn in Hj. lia.
Qed.

Lemma committed_ext D D' : (forall b, D' b = D b) -> committed D -> committed D'.
Proof.
  intros He (Hl & Hhn & Hb & Hv & Ho). unfold committed, rec_blocks, rec_data. rewrite !He.
  split_and!; [done|done|done| |intros b ? ?; rewrite He; auto].
  transitivity (rec_data D); [|done]. unfold rec_data. apply list_fmap_ext. intros i x _. apply He.
Qed.

End crash.

(** * The writes the code makes *)

Definition no_held : nat -> option Z := fun _ => None.

Section code.
Context {S : Type} `{!Cache S, !CacheSpec S}.
Context (N : Z) (may : option string -> Prop) (Hmay : forall o, no_buffers o -> may o).
Local Abbreviation wpl := (wp (S := lst S) may).

Lemma wp_on_cache {A} (m : M S A) c lg Q :
  wp may m c (fun a c' => Q a (Lst c' lg)) -> wpl (on_cache m) (Lst c lg) Q.
Proof. unfold wp, on_cache. cbn. by destruct (m c) as [[a c']| | | |]. Qed.

Lemma wp_lbread c a lg b Q :
  cabs N c a -> 0 <= b < N -> (forall h, sheld a h <> Some b) ->
  (forall h c', sheld a h = None ->
     cabs N c' (Cst (sv a) (sd a) (sh a) (hupd (sheld a) h (Some b)) (spin a)) ->
     Q h (Lst c' lg)) ->
  wpl (on_cache (bread ROOTDEV b)) (Lst c lg) Q.
Proof. intros. apply wp_on_cache. by eapply bread_abs. Qed.

Lemma wp_lbdata c a lg h b Q :
  cabs N c a -> sheld a h = Some b -> Q (sv a b) (Lst c lg) ->
  wpl (on_cache (bdata h)) (Lst c lg) Q.
Proof. intros Ha Hh HQ. apply wp_on_cache. eapply wp_run; [by eapply bdata_abs|done]. Qed.

Lemma wp_lbset c a lg h b d Q :
  cabs N c a -> sheld a h = Some b -> length d = Z.to_nat BSIZE ->
  (forall c', cabs N c' (Cst (bupd (sv a) b d) (sd a) (sh a) (sheld a) (spin a)) ->
     Q tt (Lst c' lg)) ->
  wpl (on_cache (bset h d)) (Lst c lg) Q.
Proof.
  intros Ha Hh Hd HQ. destruct (bset_abs N c a h b d Ha Hh Hd) as (c' & Hrun & Hc').
  apply wp_on_cache. eapply wp_run; [done|]. by apply HQ.
Qed.

Lemma wp_lbwrite c a lg h b Q :
  cabs N c a -> sheld a h = Some b ->
  (forall c', cabs N c' (Cst (sv a) (bupd (sd a) b (sv a b)) (sh a ++ [(b, sv a b)]) (sheld a)
     (fun b' => b' <> b /\ spin a b')) -> Q tt (Lst c' lg)) ->
  wpl (on_cache (bwrite h)) (Lst c lg) Q.
Proof.
  intros Ha Hh HQ. destruct (bwrite_abs N c a h b Ha Hh) as (c' & Hrun & Hc').
  apply wp_on_cache. eapply wp_run; [done|]. by apply HQ.
Qed.

Lemma wp_lbrelse c a lg h b Q :
  cabs N c a -> sheld a h = Some b -> spin a b \/ sv a b = sd a b ->
  (forall c', cabs N c' (Cst (sv a) (sd a) (sh a) (hupd (sheld a) h None) (spin a)) ->
     Q tt (Lst c' lg)) ->
  wpl (on_cache (brelse h)) (Lst c lg) Q.
Proof.
  intros Ha Hh Hcl HQ. destruct (brelse_abs N c a h b Ha Hh Hcl) as (c' & Hrun & Hc').
  apply wp_on_cache. eapply wp_run; [done|]. by apply HQ.
Qed.

Lemma wp_lbdirty c a lg h b Q :
  cabs N c a -> sheld a h = Some b ->
  (forall c', cabs N c' (Cst (sv a) (sd a) (sh a) (sheld a) (fun b' => b' = b \/ spin a b')) ->
     Q tt (Lst c' lg)) ->
  wpl (on_cache (bdirty h)) (Lst c lg) Q.
Proof.
  intros Ha Hh HQ. destruct (bdirty_abs N c a h b Ha Hh) as (c' & Hrun & Hc').
  apply wp_on_cache. eapply wp_run; [done|]. by apply HQ.
Qed.

Lemma wp_lh_block i b (c : S) lg Q :
  lg_block lg !! i = Some b -> Q b (Lst c lg) -> wpl (lh_block i) (Lst c lg) Q.
Proof. intros Hb HQ. eapply wp_run; [|exact HQ]. unfold lh_block. cbn. by rewrite Hb. Qed.

(** Release of what was taken: nothing is held. *)
Lemma released2 h1 h2 b1 b2 (o1 := Some b1) (o2 := Some b2) h :
  hupd (hupd (hupd (hupd no_held h1 o1) h2 o2) h2 None) h1 None h = None.
Proof. unfold hupd. repeat case_decide; done. Qed.

Lemma released2' h1 h2 b1 b2 (o1 := Some b1) (o2 := Some b2) h :
  hupd (hupd (hupd (hupd no_held h1 o1) h2 o2) h1 None) h2 None h = None.
Proof. unfold hupd. repeat case_decide; done. Qed.

Definition written (a : cst) (dst : Z) (d : list Z) : cst :=
  Cst (bupd (sv a) dst d) (bupd (sd a) dst d) (sh a ++ [(dst, d)]) no_held
    (fun b => b <> dst /\ spin a b).

Lemma wp_write_log_one c a lg tail src dst Q :
  cabs N c a -> sheld a = no_held -> lg_dev lg = ROOTDEV ->
  dst = lg_start lg + Z.of_nat tail + 1 -> lg_block lg !! tail = Some src ->
  0 <= src < N -> 0 <= dst < N -> src <> dst -> spin a src \/ sv a src = sd a src ->
  (forall c', cabs N c' (written a dst (sv a src)) -> Q tt (Lst c' lg)) ->
  wpl (write_log_one tail) (Lst c lg) Q.
Proof.
  intros Ha Hh Hdev -> Hsrc Hs Hd Hne Hcl HQ. unfold write_log_one. wstep. cbn [l_log].
  rewrite Hdev. wbind. eapply wp_lbread; [done|done|by rewrite Hh|]. intros h1 c1 _ H1.
  wbind. eapply wp_lh_block; [done|]. wbind. eapply wp_lbread; [done|done|cbn; rewrite Hh|].
  { intros h. unfold hupd. case_decide; [congruence|done]. }
  cbn. rewrite Hh. intros h2 c2 Hn2 H2.
  assert (h2 <> h1) as Hh12 by (intros ->; by rewrite hupd_eq in Hn2).
  wbind. eapply wp_lbdata; [done|cbn; apply hupd_eq|]. cbn.
  wbind. eapply wp_lbset; [done|cbn; rewrite hupd_ne by done; apply hupd_eq| |].
  { by eapply cabs_size. }
  intros c3 H3. wbind. eapply wp_lbwrite; [done|cbn; rewrite hupd_ne by done; apply hupd_eq|].
  intros c4 H4. cbn in H4. rewrite bupd_eq in H4.
  wbind. eapply wp_lbrelse; [done|cbn; apply hupd_eq| |].
  { cbn. rewrite !bupd_ne by done. tauto. }
  intros c5 H5. cbn in H5. eapply wp_lbrelse; [done| | |].
  { cbn. rewrite !hupd_ne by done. apply hupd_eq. }
  { right. cbn. by rewrite !bupd_eq. }
  intros c6 H6. apply HQ. eapply cabs_eq; [|exact H6]. cbn.
  split_and!; cbn; try done. intros h. apply released2.
Qed.

Lemma wp_install_one c a lg tail src dst Q :
  cabs N c a -> sheld a = no_held -> lg_dev lg = ROOTDEV ->
  src = lg_start lg + Z.of_nat tail + 1 -> lg_block lg !! tail = Some dst ->
  0 <= src < N -> 0 <= dst < N -> src <> dst -> spin a src \/ sv a src = sd a src ->
  (forall c', cabs N c' (written a dst (sv a src)) -> Q tt (Lst c' lg)) ->
  wpl (install_one tail) (Lst c lg) Q.
Proof.
  intros Ha Hh Hdev -> Hdst Hs Hd Hne Hcl HQ. unfold install_one. wstep. cbn [l_log].
  rewrite Hdev. wbind. eapply wp_lbread; [done|done|by rewrite Hh|]. intros h1 c1 _ H1.
  wbind. eapply wp_lh_block; [done|]. wbind. eapply wp_lbread; [done|done|cbn; rewrite Hh|].
  { intros h. unfold hupd. case_decide; [congruence|done]. }
  cbn. rewrite Hh. intros h2 c2 Hn2 H2.
  assert (h2 <> h1) as Hh12 by (intros ->; by rewrite hupd_eq in Hn2).
  wbind. eapply wp_lbdata; [done|cbn; rewrite hupd_ne by done; apply hupd_eq|]. cbn.
  wbind. eapply wp_lbset; [done|cbn; apply hupd_eq| |].
  { by eapply cabs_size. }
  intros c3 H3. wbind. eapply wp_lbwrite; [done|cbn; apply hupd_eq|].
  intros c4 H4. cbn in H4. rewrite bupd_eq in H4.
  wbind. eapply wp_lbrelse; [done|cbn; rewrite hupd_ne by done; apply hupd_eq| |].
  { cbn. rewrite !bupd_ne by done. tauto. }
  intros c5 H5. cbn in H5. eapply wp_lbrelse; [done| | |].
  { cbn. rewrite hupd_ne by done. apply hupd_eq. }
  { right. cbn. by rewrite !bupd_eq. }
  intros c6 H6. apply HQ. eapply cabs_eq; [|exact H6]. cbn.
  split_and!; cbn; try done. intros h. apply released2'.
Qed.

Lemma wp_write_head c a lg Q :
  cabs N c a -> sheld a = no_held -> lg_dev lg = ROOTDEV -> 0 <= lg_start lg < N ->
  0 <= lg_n lg <= LOGSIZE ->
  (forall c', cabs N c' (written a (lg_start lg)
     (header (sv a (lg_start lg)) (take (Z.to_nat (lg_n lg)) (lg_block lg)))) ->
     Q tt (Lst c' lg)) ->
  wpl write_head (Lst c lg) Q.
Proof.
  intros Ha Hh Hdev Hs Hn HQ. unfold write_head. wstep. cbn [l_log]. rewrite Hdev.
  wbind. eapply wp_lbread; [done|done|by rewrite Hh|]. intros h1 c1 _ H1.
  wbind. eapply wp_lbdata; [done|cbn; apply hupd_eq|]. cbn.
  destruct (Z.ltb_spec LOGSIZE (lg_n lg)); [lia|].
  wbind. eapply wp_lbset; [done|cbn; apply hupd_eq| |].
  { apply length_header; [by eapply cabs_size|]. rewrite length_take. lia. }
  intros c3 H3. wbind. eapply wp_lbwrite; [done|cbn; apply hupd_eq|].
  intros c4 H4. cbn in H4. rewrite bupd_eq in H4.
  eapply wp_lbrelse; [done|cbn; apply hupd_eq| |].
  { right. cbn. by rewrite !bupd_eq. }
  intros c5 H5. apply HQ. eapply cabs_eq; [|exact H5].
  split_and!; cbn; try done. intros h. rewrite Hh. unfold hupd. repeat case_decide; done.
Qed.

(** The log as [commit] and [recover_from_log] find it. *)
Record log_ok (lg : log) : Prop := {
  lo_dev : lg_dev lg = ROOTDEV;
  lo_start : 0 <= lg_start lg;
  lo_size : 1 <= lg_size lg;
  lo_end : lg_start lg + lg_size lg <= N;
  lo_N : N <= 2 ^ 31;
  lo_blocks : length (lg_block lg) = Z.to_nat LOGSIZE;
  lo_n : 0 <= lg_n lg <= LOGSIZE;
  lo_fit : lg_n lg <= lg_size lg - 1
}.

(** The blocks of the transaction. *)
Definition lg_blocks (lg : log) : list Z := take (Z.to_nat (lg_n lg)) (lg_block lg).

Definition blocks_ok (lg : log) : Prop :=
  NoDup (lg_blocks lg) /\
  forall b, b ∈ lg_blocks lg -> home (lg_start lg) (lg_size lg) b /\ 0 <= b < N.

Lemma lg_blocks_length lg : log_ok lg -> length (lg_blocks lg) = Z.to_nat (lg_n lg).
Proof. intros []. unfold lg_blocks. rewrite length_take, lo_blocks0. lia. Qed.

Lemma lg_blocks_lookup lg i b : lg_blocks lg !! i = Some b -> lg_block lg !! i = Some b.
Proof. unfold lg_blocks. by intros [? _]%lookup_take_Some. Qed.

Lemma take_log_out f lg vs j x : home (lg_start lg) (lg_size lg) x ->
  Z.of_nat (length vs) <= lg_size lg - 1 ->
  apply_ws f (take j (log_ws (lg_start lg) vs)) x = f x.
Proof.
  intros Hx Hl. apply apply_notin. rewrite fmap_take. intros Hin.
  apply list_elem_of_lookup in Hin as [k Hk]. apply lookup_take_Some in Hk as [Hk _].
  apply list_elem_of_lookup_2, log_ws_fst in Hk. unfold home in Hx. lia.
Qed.

Lemma wp_write_log c a lg Q :
  cabs N c a -> sheld a = no_held -> log_ok lg -> blocks_ok lg ->
  (forall b, spin a b -> home (lg_start lg) (lg_size lg) b) ->
  (forall b, b ∈ lg_blocks lg -> spin a b) ->
  (forall c', let ws := log_ws (lg_start lg) (sv a <$> lg_blocks lg) in
     cabs N c' (Cst (apply_ws (sv a) ws) (apply_ws (sd a) ws) (sh a ++ ws) no_held (spin a)) ->
     Q tt (Lst c' lg)) ->
  wpl write_log (Lst c lg) Q.
Proof.
  intros Ha Hh Hlg [Hnd Hbs] Hpin Hpinned HQ. pose proof Hlg as [].
  set (bs := lg_blocks lg) in *. cbn in HQ. set (ws := log_ws _ _) in HQ.
  assert (length bs = Z.to_nat (lg_n lg)) as Hlb by by apply lg_blocks_length.
  assert (length ws = length bs) as Hlw by (unfold ws, log_ws; by rewrite length_imap, length_fmap).
  unfold write_log. wstep. cbn [l_log].
  set (I := fun (j : nat) (s : lst S) => exists c, s = Lst c lg /\ cabs N c
    (Cst (apply_ws (sv a) (take j ws)) (apply_ws (sd a) (take j ws)) (sh a ++ take j ws)
       no_held (spin a))).
  eapply wp_mono; [apply (wp_for_up may write_log_one I)|].
  - intros j s Hj (c1 & -> & Hc1).
    destruct (lookup_lt_is_Some_2 bs j) as [b Hb]; [lia|].
    assert (b ∈ bs) as Hin by by eapply list_elem_of_lookup_2.
    destruct (Hbs b Hin) as [Hhome Hr].
    set (dst := lg_start lg + Z.of_nat j + 1).
    assert (ws !! j = Some (dst, sv a b)) as Hwj.
    { unfold ws, log_ws. rewrite list_lookup_imap, list_lookup_fmap, Hb. done. }
    assert (forall f x, home (lg_start lg) (lg_size lg) x -> apply_ws f (take j ws) x = f x) as Hout.
    { intros f x Hx. apply take_log_out; [done|]. rewrite length_fmap. lia. }
    eapply (wp_write_log_one c1 _ lg j b dst); [exact Hc1|done|done|done|by apply lg_blocks_lookup|done| | | |].
    + unfold dst. lia.
    + unfold dst, home in *. lia.
    + left. by apply Hpinned.
    + intros c2 Hc2. exists c2. split; [done|]. eapply cabs_eq; [|exact Hc2].
      unfold written. cbn. rewrite Hout by done. rewrite (take_S_r _ _ _ Hwj), !apply_snoc.
      split_and!; cbn; try done; [by rewrite app_assoc|].
      intros b0. split; [by intros [_ ?]|]. intros Hb0. split; [|done].
      apply Hpin in Hb0. unfold dst, home in *. lia.
  - exists c. split; [done|]. cbn. rewrite app_nil_r. eapply cabs_eq; [|exact Ha].
    split_and!; try done. intros h. by rewrite Hh.
  - intros u s' (c' & -> & Hc'). destruct u. apply HQ. cbn in Hc'. by rewrite take_ge in Hc' by lia.
Qed.

Lemma wp_install_trans c a lg vs Q :
  cabs N c a -> sheld a = no_held -> log_ok lg -> blocks_ok lg ->
  length vs = length (lg_blocks lg) ->
  (forall i v, vs !! i = Some v -> sv a (lg_start lg + Z.of_nat i + 1) = v /\
     sd a (lg_start lg + Z.of_nat i + 1) = v) ->
  (forall c', let ws := zip (lg_blocks lg) vs in
     cabs N c' (Cst (apply_ws (sv a) ws) (apply_ws (sd a) ws) (sh a ++ ws) no_held
       (fun b => spin a b /\ b ∉ lg_blocks lg)) -> Q tt (Lst c' lg)) ->
  wpl install_trans (Lst c lg) Q.
Proof.
  intros Ha Hh Hlg [Hnd Hbs] Hlv Hvs HQ. pose proof Hlg as [].
  set (bs := lg_blocks lg) in *. cbn in HQ. set (ws := zip bs vs) in HQ.
  assert (length bs = Z.to_nat (lg_n lg)) as Hlb by by apply lg_blocks_length.
  assert (length ws = length bs) as Hlw by (unfold ws; rewrite length_zip_with; lia).
  unfold install_trans. wstep. cbn [l_log].
  set (I := fun (j : nat) (s : lst S) => exists c, s = Lst c lg /\ cabs N c
    (Cst (apply_ws (sv a) (take j ws)) (apply_ws (sd a) (take j ws)) (sh a ++ take j ws)
       no_held (fun b => spin a b /\ b ∉ take j bs))).
  eapply wp_mono; [apply (wp_for_up may install_one I)|].
  - intros j s Hj (c1 & -> & Hc1).
    destruct (lookup_lt_is_Some_2 bs j) as [b Hb]; [lia|].
    destruct (lookup_lt_is_Some_2 vs j) as [v Hv]; [lia|].
    assert (b ∈ bs) as Hin by by eapply list_elem_of_lookup_2.
    destruct (Hbs b Hin) as [Hhome Hr]. destruct (Hvs j v Hv) as [Hv1 Hv2].
    set (src := lg_start lg + Z.of_nat j + 1) in *.
    assert (ws !! j = Some (b, v)) as Hwj.
    { unfold ws. rewrite lookup_zip_with, Hb. cbn. by rewrite Hv. }
    assert (forall f, apply_ws f (take j ws) src = f src) as Hout.
    { intros f. apply apply_notin. rewrite fmap_take. unfold ws. rewrite fst_zip by lia. intros Hk.
      apply list_elem_of_lookup in Hk as [k Hk]. apply lookup_take_Some in Hk as [Hk _].
      apply list_elem_of_lookup_2, Hbs in Hk as [Hk _]. unfold src, home in Hk. lia. }
    eapply (wp_install_one c1 _ lg j src b); [exact Hc1|done|done|done|by apply lg_blocks_lookup| |done| | |].
    + unfold src. lia.
    + unfold src, home in *. lia.
    + right. cbn. rewrite !Hout. congruence.
    + intros c2 Hc2. exists c2. split; [done|]. eapply cabs_eq; [|exact Hc2].
      unfold written. cbn. rewrite Hout, Hv1. rewrite (take_S_r _ _ _ Hwj), !apply_snoc.
      split_and!; cbn; try done; [by rewrite app_assoc|].
      intros b0. rewrite (take_S_r _ _ _ Hb), elem_of_app, list_elem_of_singleton. tauto.
  - exists c. split; [done|]. cbn. rewrite app_nil_r. eapply cabs_eq; [|exact Ha].
    split_and!; try done; [intros h; by rewrite Hh|]. intros b. cbn. rewrite elem_of_nil. tauto.
  - intros u s' (c' & -> & Hc'). destruct u. apply HQ. cbn in Hc'.
    by rewrite !take_ge in Hc' by lia.
Qed.

(** [commit] makes the writes [commit_ws]. *)
Lemma wp_commit c a lg Q :
  cabs N c a -> sheld a = no_held -> log_ok lg -> blocks_ok lg ->
  (forall b, spin a b <-> b ∈ lg_blocks lg) ->
  (forall c' ws V D,
     ws = (if 0 <? lg_n lg then commit_ws (lg_start lg) (sd a (lg_start lg)) (lg_blocks lg)
             (sv a <$> lg_blocks lg) else []) ->
     (forall b, D b = apply_ws (sd a) ws b) ->
     cabs N c' (Cst V D (sh a ++ ws) no_held (fun _ => False)) ->
     Q tt (Lst c' (set_n 0 lg))) ->
  wpl commit (Lst c lg) Q.
Proof.
  intros Ha Hh Hlg Hbk Hpin HQ. pose proof Hlg as []. pose proof Hbk as [Hnd Hbs].
  set (bs := lg_blocks lg) in *. set (vs := sv a <$> bs) in *.
  assert (length bs = Z.to_nat (lg_n lg)) as Hlb by by apply lg_blocks_length.
  assert (length vs = length bs) as Hlv by apply length_fmap.
  assert (~ home (lg_start lg) (lg_size lg) (lg_start lg)) as Hsh by (unfold home; lia).
  assert (forall b, spin a b -> home (lg_start lg) (lg_size lg) b) as Hph.
  { intros b Hb%Hpin. by apply Hbs. }
  unfold commit. wstep. cbn [l_log]. destruct (Z.ltb_spec 0 (lg_n lg)) as [Hpos|Hz].
  - wbind. eapply wp_write_log; [done..|by intros b; apply Hpin|]. cbn. fold bs vs. intros c1 H1.
    set (lw := log_ws (lg_start lg) vs) in *.
    wbind. eapply wp_write_head; [exact H1|done|done|lia|lia|]. cbn. fold (lg_blocks lg). fold bs.
    assert (forall f, apply_ws f lw (lg_start lg) = f (lg_start lg)) as Hst.
    { intros f. apply apply_notin. intros Hin%log_ws_fst. lia. }
    assert (sv a (lg_start lg) = sd a (lg_start lg)) as Hss.
    { apply (cabs_clean N c); [done|lia| |by rewrite Hh]. intros Hs%Hph. done. }
    rewrite Hst, Hss. set (h := header (sd a (lg_start lg)) bs). intros c2 H2.
    wbind. eapply (wp_install_trans c2 _ lg vs); [exact H2|done|done|done|done| |].
    { cbn. intros i v Hi. rewrite !bupd_ne by lia.
      assert (lw !! i = Some (lg_start lg + Z.of_nat i + 1, v)) as Hwi.
      { unfold lw, log_ws. by rewrite list_lookup_imap, Hi. }
      split; eapply (apply_in lw _ i); try done; apply log_ws_NoDup. }
    cbn. fold bs. intros c3 H3. wbind. unfold upd_log at 1. eapply wp_run; [done|]. cbn.
    eapply wp_write_head; [exact H3|done|done|cbn; lia|cbn; unfold LOGSIZE, MAXOPBLOCKS; lia|].
    cbn. assert (forall f, apply_ws f (zip bs vs) (lg_start lg) = f (lg_start lg)) as Hst2.
    { intros f. apply apply_notin. rewrite fst_zip by lia. intros Hin%Hbs. tauto. }
    rewrite Hst2, bupd_eq. intros c4 H4.
    eapply (HQ c4 _ _ _ eq_refl); [|eapply cabs_eq; [|exact H4]].
    2: { unfold written. split_and!; cbn; [reflexivity|reflexivity| |done|].
         - unfold commit_ws. fold lw h. by rewrite <- !app_assoc.
         - intros b. rewrite Hpin. tauto. }
    intros b. unfold commit_ws. fold lw h. by rewrite !apply_app.
  - assert (lg_n lg = 0) as Hn0 by lia. wstep.
    assert (bs = []) as Hbs0 by (apply nil_length_inv; lia).
    replace lg with (set_n 0 lg) by (rewrite <- Hn0; by destruct lg).
    eapply (HQ c [] (sv a) (sd a)); [done|done|]. eapply cabs_eq; [|exact Ha].
    split_and!; cbn; try done; [by rewrite app_nil_r|by intros h; rewrite Hh|].
    intros b. rewrite Hpin, Hbs0, elem_of_nil. done.
Qed.

(** A header that a recovery can follow. *)
Definition header_ok (lg : log) (D : disk) : Prop :=
  0 <= hdr_n (D (lg_start lg)) <= LOGSIZE /\ hdr_n (D (lg_start lg)) <= lg_size lg - 1 /\
  NoDup (rec_blocks (lg_start lg) D) /\
  forall b, b ∈ rec_blocks (lg_start lg) D -> home (lg_start lg) (lg_size lg) b /\ 0 <= b < N.

Lemma wp_read_head c a lg Q :
  cabs N c a -> sheld a = no_held -> log_ok lg -> (forall b, 0 <= b < N -> sv a b = sd a b) ->
  0 <= hdr_n (sd a (lg_start lg)) <= LOGSIZE ->
  (forall c' lg', cabs N c' a -> lg_blocks lg' = rec_blocks (lg_start lg) (sd a) ->
     lg_start lg' = lg_start lg -> lg_size lg' = lg_size lg -> lg_dev lg' = lg_dev lg ->
     lg_n lg' = hdr_n (sd a (lg_start lg)) -> length (lg_block lg') = Z.to_nat LOGSIZE ->
     lg_outstanding lg' = lg_outstanding lg -> lg_committing lg' = lg_committing lg ->
     Q tt (Lst c' lg')) ->
  wpl read_head (Lst c lg) Q.
Proof.
  intros Ha Hh [] Hcl Hn HQ. unfold read_head. wstep. cbn [l_log]. rewrite lo_dev0. wbind.
  eapply wp_lbread; [done|lia|by rewrite Hh|]. intros h1 c1 _ H1. wbind.
  eapply wp_lbdata; [done|cbn; apply hupd_eq|]. cbn. rewrite Hcl by lia.
  set (d := sd a (lg_start lg)) in *. wbind. unfold upd_log at 1. eapply wp_run; [done|]. cbn.
  wbind. set (I := fun (j : nat) (s : lst S) => exists l, s = Lst c1 (Log (lg_start lg) (lg_size lg)
    (lg_outstanding lg) (lg_committing lg) (lg_dev lg) (hdr_n d) l) /\
    length l = Z.to_nat LOGSIZE /\ take j l = hdr_block d <$> seq 0 j).
  eapply wp_mono; [apply (wp_for_up may _ I)|].
  - intros j s Hj (l & -> & Hl & Ht). 
    assert ((j <? length l)%nat = true) as Hlt by (apply Nat.ltb_lt; lia).
    eapply wp_run; [unfold set_lh_block; cbn [l_log lg_block]; by rewrite Hlt|].
    exists (<[j := hdr_block d j]> l). split; [done|]. rewrite length_insert. split; [done|].
    rewrite (take_S_r _ j (hdr_block d j)) by (apply list_lookup_insert_eq; lia).
    rewrite take_insert_ge by lia. rewrite Ht, seq_S, fmap_app. done.
  - exists (lg_block lg). split; [done|]. done.
  - intros u s' (l & -> & Hl & Ht). cbn in Ht. destruct u.
    eapply wp_lbrelse; [exact H1|cbn; apply hupd_eq|right; apply Hcl; lia|]. cbn. intros c2 H2.
    apply HQ; try done.
    eapply cabs_eq; [|exact H2]. split_and!; cbn; try done.
    intros h. rewrite Hh. unfold hupd. repeat case_decide; done.
Qed.

(** [recover_from_log] makes the writes [recover_ws]. *)
Lemma wp_recover c a lg Q :
  cabs N c a -> sheld a = no_held -> (forall b, ~ spin a b) -> log_ok lg ->
  header_ok lg (sd a) -> (forall b, 0 <= b < N -> sv a b = sd a b) ->
  (forall c' lg' V D,
     (forall b, D b = apply_ws (sd a) (recover_ws (lg_start lg) (sd a)) b) ->
     cabs N c' (Cst V D (sh a ++ recover_ws (lg_start lg) (sd a)) no_held (fun _ => False)) ->
     lg_n lg' = 0 -> lg_start lg' = lg_start lg -> Q tt (Lst c' lg')) ->
  wpl recover_from_log (Lst c lg) Q.
Proof.
  intros Ha Hh Hpin Hlg (Hn & Hfit & Hnd & Hbs) Hcl HQ. pose proof Hlg as [].
  unfold recover_from_log. wbind. eapply wp_read_head; [done..|].
  intros c1 lg1 H1 Hb1 Hs1 Hz1 Hd1 Hn1 Hl1 _ _.
  assert (log_ok lg1) as Hlg1 by (split; congruence || lia).
  set (bs := rec_blocks (lg_start lg) (sd a)) in *. set (vs := rec_data (lg_start lg) (sd a)).
  assert (length vs = length bs) as Hlv.
  { unfold vs, bs, rec_data, rec_blocks. by rewrite !length_fmap. }
  wbind. eapply (wp_install_trans c1 a lg1 vs); [done..| | | |].
  { split; rewrite Hb1, ?Hs1, ?Hz1; done. }
  { by rewrite Hb1. }
  { intros i v Hi. unfold vs, rec_data in Hi.
    rewrite list_lookup_fmap in Hi. apply fmap_Some in Hi as (k & Hk & ->).
    apply lookup_seq in Hk as [-> Hk]. rewrite Hs1, Hcl by lia. done. }
  rewrite Hb1. cbn. intros c2 H2. wbind. unfold upd_log at 1. eapply wp_run; [done|]. cbn.
  eapply wp_write_head; [exact H2|done|cbn; congruence|cbn; lia|cbn; unfold LOGSIZE, MAXOPBLOCKS; lia|].
  cbn. rewrite Hs1.
  assert (forall f, apply_ws f (zip bs vs) (lg_start lg) = f (lg_start lg)) as Hst2.
  { intros f. apply apply_notin. rewrite fst_zip by lia. intros [Hx _]%Hbs. unfold home in Hx. lia. }
  rewrite Hst2, Hcl by lia. intros c3 H3.
  eapply (HQ c3 _ _ _); [|eapply cabs_eq; [|exact H3]|done|done].
  2: { unfold written. split_and!; cbn; [reflexivity|reflexivity| |done|].
       - unfold recover_ws. fold bs vs. by rewrite <- !app_assoc.
       - intros b. split; [|done]. intros [_ [? _]]. by apply (Hpin b). }
  intros b. unfold recover_ws. fold bs vs. by rewrite !apply_app.
Qed.
End code.

(** * Atomicity *)

Section atomic.
Context {S : Type} `{!Cache S, !CacheSpec S} (N : Z).

(** A cache in which nothing is locked. *)
Definition quiet (c : S) : Prop := cwf c /\ csize c = N /\ forall h, cheld c h = None.

(** A transaction that [end_op] is about to commit: the pinned blocks are the logged
    ones, and the header on the disk is empty. *)
Record ready (c : S) (lg : log) : Prop := {
  r_quiet : quiet c;
  r_log : log_ok N lg;
  r_blocks : blocks_ok N lg;
  r_pin b : cpin c b <-> b ∈ lg_blocks lg;
  r_empty : hdr_n (cdisk c (lg_start lg)) = 0
}.

(** The kernel after a reboot on disk [D], before [initlog]. *)
Record rebooted (lg : log) (D : disk) (s : lst S) : Prop := {
  rb_quiet : quiet (l_cache s);
  rb_disk b : cdisk (l_cache s) b = D b;
  rb_pin b : ~ cpin (l_cache s) b;
  rb_log : log_ok N (l_log s);
  rb_start : lg_start (l_log s) = lg_start lg;
  rb_size : lg_size (l_log s) = lg_size lg
}.

Lemma quiet_cabs c : quiet c ->
  cabs N c (Cst (cview c) (cdisk c) (chist c) no_held (cpin c)).
Proof. intros (? & ? & Hh). by split_and!. Qed.

Lemma recover_run lg D s (H : disk) :
  rebooted lg D s -> header_ok N lg D ->
  (forall D', (forall b, D' b = apply_ws D (recover_ws (lg_start lg) D) b) ->
     forall b, home (lg_start lg) (lg_size lg) b -> D' b = H b) ->
  wp no_buffers recover_from_log s (fun _ s' =>
    forall b, home (lg_start lg) (lg_size lg) b -> cdisk (l_cache s') b = H b).
Proof.
  intros [Hq Hd Hp Hl Hs Hz] Hhd HH. destruct s as [c lg']. cbn in *.
  pose proof (quiet_cabs c Hq) as Ha. destruct Hq as (Hwf & Hn & Hheld).
  assert (rec_blocks (lg_start lg) (cdisk c) = rec_blocks (lg_start lg) D) as Hrb.
  { unfold rec_blocks. by rewrite Hd. }
  assert (recover_ws (lg_start lg) (cdisk c) = recover_ws (lg_start lg) D) as Hrw.
  { unfold recover_ws. rewrite Hrb, Hd. f_equal. f_equal. unfold rec_data. rewrite Hd.
    apply list_fmap_ext. intros i x _. apply Hd. }
  eapply (wp_recover N no_buffers (fun o Ho => Ho) c _ lg'); [exact Ha|done|done|done| | |].
  - unfold header_ok. cbn. rewrite Hs, Hz, Hrb, Hd. exact Hhd.
  - intros b Hb. cbn. apply cclean; [done|by rewrite Hn|done|]. intros h. by rewrite Hheld.
  - cbn. rewrite Hs, Hrw. intros c' lg1 V D' HD' Hc' _ _ b Hb.
    destruct Hc' as (_ & _ & _ & Hdd & _). cbn in Hdd. rewrite Hdd.
    apply (HH D'); [|done]. intros b0. rewrite HD'. by apply apply_ext.
Qed.

Lemma ready_new c lg b :
  ready c lg -> home (lg_start lg) (lg_size lg) b -> 0 <= b < N ->
  new (cdisk c) (lg_blocks lg) (cview c <$> lg_blocks lg) b = cview c b.
Proof.
  intros [(Hwf & Hn & Hh) Hlg [Hnd Hbs] Hpin _] Hb Hr.
  destruct (decide (b ∈ lg_blocks lg)) as [Hin|Hout].
  - apply list_elem_of_lookup in Hin as [i Hi].
    eapply new_in; [by rewrite length_fmap|done|exact Hi|]. by rewrite list_lookup_fmap, Hi.
  - rewrite new_notin; [|by rewrite length_fmap|done]. symmetry. apply cclean; try done.
    + by rewrite Hn.
    + by rewrite Hpin.
    + intros h. by rewrite Hh.
Qed.

Lemma header_ok_clean lg H D : log_ok N lg ->
  clean (lg_start lg) (lg_size lg) H D -> header_ok N lg D.
Proof.
  intros [] (Hz & _ & _). unfold header_ok, rec_blocks. rewrite Hz.
  split_and!; [lia|unfold LOGSIZE, MAXOPBLOCKS; lia|lia|constructor|]. intros b. by rewrite elem_of_nil.
Qed.

Lemma header_ok_committed lg D0 D vs : log_ok N lg -> blocks_ok N lg ->
  committed (lg_start lg) (lg_size lg) D0 (lg_blocks lg) vs D -> header_ok N lg D.
Proof.
  intros Hlg [Hnd Hbs] (_ & Hn & Hb & _). rewrite (lg_blocks_length N lg Hlg) in Hn.
  destruct Hlg. unfold header_ok. rewrite Hb, Hn. split_and!; [lia|lia|lia|done|done].
Qed.

(** What recovery makes of a disk that a crashed [commit] left. *)
Lemma recover_cases lg D0 D s bs vs :
  log_ok N lg -> blocks_ok N lg -> bs = lg_blocks lg -> length bs = length vs ->
  length (D0 (lg_start lg)) = Z.to_nat BSIZE ->
  clean (lg_start lg) (lg_size lg) D0 D \/
  committed (lg_start lg) (lg_size lg) D0 bs vs D \/
  clean (lg_start lg) (lg_size lg) (new D0 bs vs) D ->
  rebooted lg D s ->
  wp no_buffers recover_from_log s (fun _ s' =>
    (forall b, home (lg_start lg) (lg_size lg) b -> cdisk (l_cache s') b = D0 b) \/
    (forall b, home (lg_start lg) (lg_size lg) b -> cdisk (l_cache s') b = new D0 bs vs b)).
Proof.
  intros Hlg Hbk -> Hlen H0 Hcs Hrb. pose proof Hbk as [Hnd Hbs].
  pose proof (lg_blocks_length N lg Hlg) as Hlb. pose proof Hlg as [].
  assert (forall H, clean (lg_start lg) (lg_size lg) H D ->
    wp no_buffers recover_from_log s (fun _ s' =>
      forall b, home (lg_start lg) (lg_size lg) b -> cdisk (l_cache s') b = H b)) as Hclean.
  { intros H Hc. eapply recover_run; [done|by apply (header_ok_clean lg H)|].
    intros D' HD' b Hb. rewrite HD'. by apply (clean_recovered (lg_start lg) (lg_size lg) ltac:(done) H D). }
  destruct Hcs as [Hc|[Hc|Hc]].
  - eapply wp_mono; [by apply Hclean|]. auto.
  - eapply wp_mono; [|intros u s' Hs; right; exact Hs].
    eapply recover_run; [done|by eapply header_ok_committed|].
    assert (clean (lg_start lg) (lg_size lg) (new D0 (lg_blocks lg) vs)
      (apply_ws D (recover_ws (lg_start lg) D))) as (_ & _ & Hr).
    { apply committed_recovered; try done; try lia. intros b Hb. by apply Hbs. }
    intros D' HD' b Hb. rewrite HD'. auto.
  - eapply wp_mono; [by apply Hclean|]. auto.
Qed.

(** [commit] and what recovery makes of a crash in it. *)
Lemma commit_atomic c lg :
  ready c lg ->
  wp no_buffers commit (Lst c lg) (fun _ s' => exists ws,
    chist (l_cache s') = chist c ++ ws /\ lg_n (l_log s') = 0 /\
    (forall b, home (lg_start lg) (lg_size lg) b -> 0 <= b < N ->
       cdisk (l_cache s') b = cview c b) /\
    (forall k D s0, crashes (lg_start lg) (apply_ws (cdisk c) (take k ws)) D ->
       rebooted lg D s0 ->
       wp no_buffers recover_from_log s0 (fun _ s1 =>
         (forall b, home (lg_start lg) (lg_size lg) b -> 0 <= b < N ->
            cdisk (l_cache s1) b = cdisk c b) \/
         (forall b, home (lg_start lg) (lg_size lg) b -> 0 <= b < N ->
            cdisk (l_cache s1) b = cview c b)))).
Proof.
  intros Hready. pose proof Hready as [Hq Hlg Hbk Hpin He].
  pose proof (quiet_cabs c Hq) as Ha. pose proof Hq as (Hwf & Hn & Hh). pose proof Hlg as [].
  set (bs := lg_blocks lg) in *. set (vs := cview c <$> bs).
  assert (length bs = length vs) as Hlen by (unfold vs; by rewrite length_fmap).
  assert (length bs = Z.to_nat (lg_n lg)) as Hlb by by apply (lg_blocks_length N).
  pose proof Hbk as [Hnd Hbs].
  assert (forall b, b ∈ bs -> home (lg_start lg) (lg_size lg) b) as Hhome by (intros b Hb; by apply Hbs).
  assert (forall b, b ∈ bs -> 0 <= b < 2 ^ 31) as Hrange by (intros b Hb%Hbs; lia).
  assert (length (cdisk c (lg_start lg)) = Z.to_nat BSIZE) as Hlh by (apply cdisk_size; [done|lia]).
  assert (forall b, home (lg_start lg) (lg_size lg) b -> 0 <= b < N -> new (cdisk c) bs vs b = cview c b)
    as Hnew by (intros b; by apply ready_new).
  eapply (wp_commit N no_buffers (fun o Ho => Ho) c _ lg); [exact Ha|done|done|done|done|].
  intros c' ws V D Hws HD Hc'. cbn in Hws, HD. fold bs vs in Hws.
  destruct Hc' as (_ & _ & _ & Hd & Hhist & _). cbn in *.
  exists ws. split; [done|]. split; [done|]. split.
  - intros b Hb Hr. rewrite Hd, HD, Hws, <- Hnew by done. destruct (Z.ltb_spec 0 (lg_n lg)).
    + apply (commit_installs _ (lg_size lg)); try done; lia.
    + assert (bs = []) as -> by (apply length_zero_iff_nil; lia). done.
  - intros k D' s0 Hcr Hrb. eapply wp_mono; [eapply recover_cases; [done|done|done|exact Hlen|done| |done]|].
    + rewrite Hws in Hcr. destruct (Z.ltb_spec 0 (lg_n lg)).
      * eapply crash_cases; try exact Hcr; try done; fold bs; lia.
      * rewrite take_nil in Hcr. left. by apply (clean_crashes _ _ lo_size0 _ (cdisk c)).
    + intros u s1 [H1|H1]; [left; auto|right]. intros b Hb Hr. rewrite H1 by done. by apply Hnew.
Qed.

End atomic.
