(* ===== verification/LogRes.v ===== *)
(** [log.c]: what [log_write] records, the space that [begin_op] reserves, and why a
    transaction never overflows a log of [LOGSIZE + 1] blocks. *)

From stdpp Require Import gmap.
From S2P Require Import Prelude Cache Bio BioSpec Log LogSpec.

(** * [log_write] *)

Lemma log_slot_in lg b i : log_slot lg b = i -> (i < Z.to_nat (lg_n lg))%nat ->
  lg_blocks lg !! i = Some b.
Proof.
  unfold log_slot, lg_blocks. intros Hi Hlt.
  destruct (findi _ _) as [j|] eqn:Hf; [|lia]. subst j.
  apply findi_Some in Hf as (x & Hx & Hp & _). rewrite Hx. f_equal. lia.
Qed.

Lemma log_slot_out lg b : b ∉ lg_blocks lg -> log_slot lg b = Z.to_nat (lg_n lg).
Proof.
  intros Hb. unfold log_slot. fold (lg_blocks lg). destruct (findi _ _) as [j|] eqn:Hf; [|done].
  exfalso. apply findi_Some in Hf as (x & Hx & Hp & _). apply Hb.
  apply list_elem_of_lookup_2 in Hx. by replace b with x by lia.
Qed.

Lemma log_slot_lt lg b : b ∈ lg_blocks lg -> (log_slot lg b < Z.to_nat (lg_n lg))%nat.
Proof.
  intros Hb. unfold log_slot. fold (lg_blocks lg). destruct (findi _ _) as [j|] eqn:Hf.
  - apply findi_lookup_lt in Hf. unfold lg_blocks in Hf. rewrite length_take in Hf. lia.
  - rewrite findi_None in Hf. specialize (Hf b Hb). lia.
Qed.

(** The log after block [b] has been recorded. *)
Definition logged (lg : log) (b : Z) : log :=
  if decide (b ∈ lg_blocks lg) then lg
  else set_n (lg_n lg + 1) (set_block (Z.to_nat (lg_n lg)) b lg).

Lemma logged_blocks N lg b : log_ok N lg -> lg_n lg < LOGSIZE ->
  lg_blocks (logged lg b) = if decide (b ∈ lg_blocks lg) then lg_blocks lg else lg_blocks lg ++ [b].
Proof.
  intros [] Hn. unfold logged. case_decide; [done|]. unfold lg_blocks. cbn.
  replace (Z.to_nat (lg_n lg + 1)) with (S (Z.to_nat (lg_n lg))) by lia.
  rewrite (take_S_r _ _ b).
  - by rewrite take_insert_ge by lia.
  - rewrite list_lookup_insert_eq; [done|]. rewrite lo_blocks. lia.
Qed.

Lemma set_block_id lg i v : lg_block lg !! i = Some v -> set_block i v lg = lg.
Proof. intros H. destruct lg as [? ? ? ? ? ? bl]. unfold set_block. cbn in *. by rewrite list_insert_id. Qed.

Section log_write.
Context {S : Type} `{!Cache S, !CacheSpec S}.

Lemma log_write_run N c a lg h b :
  cabs N c a -> sheld a h = Some b -> log_ok N lg ->
  lg_n lg < LOGSIZE -> lg_n lg < lg_size lg - 1 -> 1 <= lg_outstanding lg ->
  exists c', log_write h (Lst c lg) = Ret (tt, Lst c' (logged lg b)) /\
    cabs N c' (Cst (sv a) (sd a) (sh a) (sheld a) (fun b' => b' = b \/ spin a b')).
Proof.
  intros Ha Hh Hlg Hn Hs Ho. destruct (bdirty_abs N c a h b Ha Hh) as (c' & Hrun & Hc').
  exists c'. split; [|done]. pose proof Hlg as []. unfold log_write, bind, gets. cbn [l_log].
  rewrite (proj2 (Z.leb_gt _ _)), (proj2 (Z.leb_gt _ _)), (proj2 (Z.ltb_ge _ _)) by lia. cbn [orb].
  unfold on_cache at 1. cbn [l_cache]. rewrite (bblockno_abs N c a h b Ha Hh). cbn [l_log].
  unfold set_lh_block. cbn [l_log l_cache].
  assert (log_slot lg b < length (lg_block lg))%nat as Hlt.
  { destruct (decide (b ∈ lg_blocks lg)) as [Hin|Hout].
    - pose proof (log_slot_lt lg b Hin). lia.
    - rewrite log_slot_out by done. lia. }
  rewrite (proj2 (Nat.ltb_lt _ _)) by done. unfold logged.
  destruct (decide (b ∈ lg_blocks lg)) as [Hin|Hout].
  - pose proof (log_slot_lt lg b Hin) as Hl. rewrite (proj2 (Nat.eqb_neq _ _)) by lia. cbn.
    unfold on_cache. cbn. rewrite Hrun. rewrite set_block_id; [done|].
    eapply lg_blocks_lookup, log_slot_in; [done|done].
  - rewrite log_slot_out by done. rewrite Nat.eqb_refl. cbn. unfold on_cache. cbn. by rewrite Hrun.
Qed.

(** A transaction of one block, ready for [commit]. *)
Lemma one_block_ready N c lg h b d c1 :
  quiet N c -> log_ok N lg -> (forall b, ~ cpin c b) -> hdr_n (cdisk c (lg_start lg)) = 0 ->
  lg_n lg = 0 -> lg_outstanding lg = 1 -> 2 <= lg_size lg ->
  home (lg_start lg) (lg_size lg) b -> 0 <= b < N -> length d = Z.to_nat BSIZE ->
  bread ROOTDEV b c = Ret (h, c1) ->
  exists c', ready N c' (logged lg b) /\ lg_blocks (logged lg b) = [b] /\ cview c' b = d /\
    forall x, cdisk c' x = cdisk c x.
Proof.
  intros Hq Hlg Hnp Hz Hn Ho Hsz Hhome Hb Hd Hrun. pose proof (quiet_cabs N c Hq) as Ha.
  assert (lg_blocks lg = []) as Hbl by (unfold lg_blocks; by rewrite Hn).
  assert (lg_blocks (logged lg b) = [b]) as Hbl'.
  { rewrite (logged_blocks N) by (done || (rewrite Hn; unfold LOGSIZE, MAXOPBLOCKS; lia)).
    rewrite Hbl, decide_False; [done|]. apply not_elem_of_nil. }
  pose proof (wp_Ret _ _ _ _ _ _ (bread_abs no_buffers N c _ b
    (fun h c' => cabs N c' (Cst (cview c) (cdisk c) (chist c) (hupd no_held h (Some b)) (cpin c)))
    (fun o Ho => Ho) Ha Hb (fun h => ltac:(done)) (fun h c' _ Hc => Hc)) Hrun) as H1.
  destruct (bset_abs N c1 _ h b d H1 (hupd_eq _ _ _) Hd) as (c2 & _ & H2).
  destruct (log_write_run N c2 _ lg h b H2 (hupd_eq _ _ _) Hlg) as (c3 & _ & H3);
    [unfold LOGSIZE, MAXOPBLOCKS; lia|lia|lia|].
  destruct (brelse_abs N c3 _ h b H3 (hupd_eq _ _ _)) as (c4 & _ & H4); [by left; left|].
  destruct H4 as (Hwf & HN & Hv & Hdk & _ & Hh & Hp). cbn in *. exists c4.
  split_and!; [|done|by rewrite Hv, bupd_eq|done]. split.
  - split_and!; [done|done|]. intros h'. rewrite Hh. unfold hupd. by repeat case_decide.
  - unfold logged. case_decide; [done|]. destruct Hlg.
    split; cbn; try done; rewrite ?length_insert; try done; unfold LOGSIZE, MAXOPBLOCKS; lia.
  - split; [by rewrite Hbl'; apply NoDup_singleton|]. intros x. rewrite Hbl', list_elem_of_singleton.
    intros ->. unfold logged. by case_decide.
  - intros x. rewrite Hp, Hbl', list_elem_of_singleton. naive_solver.
  - rewrite Hdk. unfold logged. by case_decide.
Qed.
End log_write.

(** * Reservations *)

Section reservation.
Context {S : Type} `{!Cache S, !CacheSpec S} (N : Z).

(** The kernel with the operations that are between [begin_op] and [end_op], each with
    the set of blocks that it has logged. *)
Definition rst : Type := lst S * list (gset Z).

(** An operation logs at most [MAXOPBLOCKS] different blocks. The cache may change
    arbitrarily between the steps, as other processes read and release buffers. *)
Inductive res_step : rst -> rst -> Prop :=
| res_begin s s' ops :
    begin_op s = Ret (tt, s') -> res_step (s, ops) (s', ∅ :: ops)
| res_write s s' ops i o h b :
    ops !! i = Some o -> Z.of_nat (size ({[b]} ∪ o)) <= MAXOPBLOCKS ->
    cwf (l_cache s) -> csize (l_cache s) = N -> cheld (l_cache s) h = Some b ->
    log_write h s = Ret (tt, s') -> res_step (s, ops) (s', <[i := {[b]} ∪ o]> ops)
| res_leave s s' ops i r :
    (i < length ops)%nat -> end_op_leave s = Ret (r, s') ->
    res_step (s, ops) (s', delete i ops)
| res_commit s s' ops :
    lg_committing (l_log s) = true ->
    (commit ;;; upd_log (set_committing false)) s = Ret (tt, s') ->
    res_step (s, ops) (s', ops)
| res_cache c c' lg ops : res_step (Lst c lg, ops) (Lst c' lg, ops).

Definition res_init (x : rst) : Prop :=
  snd x = [] /\ log_ok N (l_log (fst x)) /\ LOGSIZE < lg_size (l_log (fst x)) /\
  lg_n (l_log (fst x)) = 0 /\ lg_outstanding (l_log (fst x)) = 0 /\
  lg_committing (l_log (fst x)) = false.

(** The blocks that the active operations may still log. *)
Fixpoint room (ops : list (gset Z)) : Z :=
  match ops with
  | [] => 0
  | o :: ops => (MAXOPBLOCKS - Z.of_nat (size o)) + room ops
  end.

Record res_inv (x : rst) : Prop := {
  ri_log : log_ok N (l_log (fst x));
  ri_size : LOGSIZE < lg_size (l_log (fst x));
  ri_out : lg_outstanding (l_log (fst x)) = Z.of_nat (length (snd x));
  ri_comm : lg_committing (l_log (fst x)) = true -> snd x = [];
  ri_idle : snd x = [] -> lg_committing (l_log (fst x)) = false -> lg_n (l_log (fst x)) = 0;
  ri_ops o : o ∈ snd x -> Z.of_nat (size o) <= MAXOPBLOCKS /\
    forall b, b ∈ o -> b ∈ lg_blocks (l_log (fst x));
  ri_room : snd x <> [] -> lg_n (l_log (fst x)) + room (snd x) <= LOGSIZE
}.

Lemma room_insert ops i o o' : ops !! i = Some o ->
  room (<[i := o']> ops) = room ops + Z.of_nat (size o) - Z.of_nat (size o').
Proof.
  revert i. induction ops as [|p ops IH]; intros [|i] Hi; simplify_eq/=; [lia|].
  rewrite IH by done. lia.
Qed.

Lemma room_delete ops i o : ops !! i = Some o ->
  room (delete i ops) = room ops - (MAXOPBLOCKS - Z.of_nat (size o)).
Proof.
  revert i. induction ops as [|p ops IH]; intros [|i] Hi; simplify_eq/=; [lia|].
  rewrite IH by done. lia.
Qed.

Lemma room_bounds ops : (forall o, o ∈ ops -> Z.of_nat (size o) <= MAXOPBLOCKS) ->
  0 <= room ops <= Z.of_nat (length ops) * MAXOPBLOCKS.
Proof.
  induction ops as [|o ops IH]; intros H; cbn [room length]; [lia|].
  specialize (IH (fun o' Ho' => H o' (list_elem_of_further _ _ _ Ho'))).
  pose proof (H o (list_elem_of_here _ _)). lia.
Qed.

Lemma in_delete (ops : list (gset Z)) i o : o ∈ delete i ops -> o ∈ ops.
Proof.
  revert i. induction ops as [|p ops IH]; intros [|i] H; cbn in H; [done|done|by right|].
  apply elem_of_cons in H as [->|H]; [by left|]. right. eauto.
Qed.

Lemma room_pos ops i o b : (forall o, o ∈ ops -> Z.of_nat (size o) <= MAXOPBLOCKS) ->
  ops !! i = Some o -> b ∉ o -> Z.of_nat (size ({[b]} ∪ o)) <= MAXOPBLOCKS -> 1 <= room ops.
Proof.
  intros Hops Hi Hb Hs. rewrite size_union_alt, size_singleton, difference_disjoint in Hs by set_solver.
  assert (0 <= room (delete i ops)).
  { apply room_bounds. intros o' Ho'. by apply Hops, (in_delete ops i). }
  rewrite (room_delete ops i o Hi) in H. lia.
Qed.

(** Code that leaves the log record alone. *)
Definition keeps_log {A} (m : M (lst S) A) : Prop :=
  forall s a s', m s = Ret (a, s') -> l_log s' = l_log s.

Lemma keeps_on_cache {A} (m : M S A) : keeps_log (on_cache m).
Proof. intros s a s'. unfold on_cache. destruct (m _) as [[]| | | |]; intros; by simplify_eq/=. Qed.
Lemma keeps_gets {A} (f : lst S -> A) : keeps_log (gets f).
Proof. intros s a s' H. by inversion H. Qed.
Lemma keeps_fault {A} : keeps_log (A := A) fault.
Proof. by intros s a s' H. Qed.
Lemma keeps_ret {A} (a : A) : keeps_log (ret a).
Proof. intros s b s' H. by inversion H. Qed.
Lemma keeps_lh_block i : keeps_log (lh_block i).
Proof. intros s a s' H. unfold lh_block in H. destruct (_ !! _); by simplify_eq. Qed.
Lemma keeps_bind {A B} (m : M (lst S) A) (k : A -> M (lst S) B) :
  keeps_log m -> (forall a, keeps_log (k a)) -> keeps_log (let* x := m in k x).
Proof. intros Hm Hk s b s' (a & s1 & H1 & H2)%bind_inv. rewrite (Hk _ _ _ _ H2). eauto. Qed.
Lemma keeps_for n from (body : nat -> M (lst S) unit) :
  (forall i, keeps_log (body i)) -> keeps_log (for_up n from body).
Proof.
  intros Hb. revert from. induction n as [|n IH]; intros from; cbn [for_up]; [apply keeps_ret|].
  apply keeps_bind; auto.
Qed.

Ltac keeps := repeat first
  [ apply keeps_bind | apply keeps_on_cache | apply keeps_gets | apply keeps_fault
  | apply keeps_lh_block | apply keeps_ret | apply keeps_for; intros
  | match goal with |- keeps_log (if ?b then _ else _) => destruct b end | intros ].

Lemma keeps_write_log : keeps_log write_log.
Proof. unfold write_log, write_log_one. keeps. Qed.
Lemma keeps_write_head : keeps_log write_head.
Proof. unfold write_head. keeps. Qed.
Lemma keeps_install : keeps_log install_trans.
Proof. unfold install_trans, install_one. keeps. Qed.

Lemma commit_log s u s' : 0 <= lg_n (l_log s) -> commit s = Ret (u, s') ->
  l_log s' = set_n 0 (l_log s).
Proof.
  intros Hn H. unfold commit in H. apply bind_inv in H as (lg & s0 & H0 & H).
  inversion H0; subst lg s0. destruct (Z.ltb_spec 0 (lg_n (l_log s))) as [Hp|Hp].
  - apply bind_inv in H as (? & s1 & H1%keeps_write_log & H).
    apply bind_inv in H as (? & s2 & H2%keeps_write_head & H).
    apply bind_inv in H as (? & s3 & H3%keeps_install & H).
    apply bind_inv in H as (? & s4 & H4 & H5%keeps_write_head).
    inversion H4; subst. rewrite H5. cbn. congruence.
  - inversion H; subst. destruct (l_log s'). unfold set_n. cbn in *. f_equal. lia.
Qed.


Lemma inv_begin s s' ops :
  res_inv (s, ops) -> begin_op s = Ret (tt, s') -> res_inv (s', ∅ :: ops).
Proof.
  intros [Hlg Hsz Hout Hcomm Hidle Hops Hroom] H. cbn [fst snd] in *.
  unfold begin_op in H. apply bind_inv in H as (lg & s0 & H0 & H). inversion H0; subst lg s0.
  destruct (lg_committing (l_log s)) eqn:Hc; [done|].
  destruct (Z.ltb_spec LOGSIZE (lg_n (l_log s) + (lg_outstanding (l_log s) + 1) * MAXOPBLOCKS))
    as [|Hfit]; [done|].
  inversion H; subst s'; clear H H0. destruct Hlg. split; cbn [fst snd l_log set_outstanding] in *.
  - by split.
  - done.
  - cbn. lia.
  - cbn. congruence.
  - done.
  - intros o [->|Ho]%elem_of_cons; [|by apply Hops].
    rewrite size_empty. split; [unfold MAXOPBLOCKS; lia|set_solver].
  - intros _. cbn [room]. rewrite size_empty. cbn [lg_n].
    pose proof (room_bounds ops (fun o Ho => proj1 (Hops o Ho))).
    unfold MAXOPBLOCKS in *. cbn [lg_n set_outstanding]. lia.
Qed.

Lemma log_write_guards h s s' : log_write h s = Ret (tt, s') ->
  lg_n (l_log s) < LOGSIZE /\ lg_n (l_log s) < lg_size (l_log s) - 1 /\
  1 <= lg_outstanding (l_log s).
Proof.
  intros H. unfold log_write in H. apply bind_inv in H as (lg & s0 & H0 & H).
  inversion H0; subst lg s0. destruct (_ || _) eqn:Hg; [done|].
  destruct (_ <? _) eqn:Ho; [done|]. bsplit. lia.
Qed.

(** [log_write] in a reachable state, when the log has room. *)
Lemma inv_write_run s h b : log_ok N (l_log s) ->
  cwf (l_cache s) -> csize (l_cache s) = N -> cheld (l_cache s) h = Some b ->
  lg_n (l_log s) < LOGSIZE -> lg_n (l_log s) < lg_size (l_log s) - 1 ->
  1 <= lg_outstanding (l_log s) ->
  exists c', log_write h s = Ret (tt, Lst c' (logged (l_log s) b)).
Proof.
  intros Hlg Hwf HN Hh Hn Hs Ho. destruct s as [c lg]. cbn [l_log l_cache] in *.
  destruct (log_write_run N c (Cst (cview c) (cdisk c) (chist c) (cheld c) (cpin c)) lg h b)
    as (c' & Hrun & _); try done. by exists c'.
Qed.

Lemma logged_log_ok lg b : log_ok N lg -> lg_n lg < LOGSIZE -> lg_n lg < lg_size lg - 1 ->
  log_ok N (logged lg b).
Proof.
  intros [] Hn Hs. unfold logged. case_decide; [by split|].
  split; cbn; try done; [by rewrite length_insert|lia|lia].
Qed.

Lemma logged_in lg b x : log_ok N lg -> lg_n lg < LOGSIZE ->
  x ∈ lg_blocks (logged lg b) <-> x = b \/ x ∈ lg_blocks lg.
Proof.
  intros Hlg Hn. rewrite (logged_blocks N) by done. case_decide; [naive_solver|].
  rewrite elem_of_app, list_elem_of_singleton. tauto.
Qed.

Lemma inv_write s s' ops i o h b :
  res_inv (s, ops) -> ops !! i = Some o -> Z.of_nat (size ({[b]} ∪ o)) <= MAXOPBLOCKS ->
  cwf (l_cache s) -> csize (l_cache s) = N -> cheld (l_cache s) h = Some b ->
  log_write h s = Ret (tt, s') -> res_inv (s', <[i := {[b]} ∪ o]> ops).
Proof.
  intros [Hlg Hsz Hout Hcomm Hidle Hops Hroom] Hi Ho Hwf HN Hh Hrun. cbn [fst snd] in *.
  destruct (log_write_guards _ _ _ Hrun) as (Hn & Hs & Hou).
  destruct (inv_write_run s h b) as [c' Hrun']; try done. rewrite Hrun' in Hrun.
  inversion Hrun; subst s'; clear Hrun. cbn [l_log].
  assert (ops <> []) as Hne by (intros ->; done). specialize (Hroom Hne).
  assert (<[i:={[b]} ∪ o]> ops <> []) as Hne'.
  { intros H%(f_equal length). rewrite length_insert in H. by destruct ops. }
  assert (lg_outstanding (logged (l_log s) b) = lg_outstanding (l_log s) /\
    lg_size (logged (l_log s) b) = lg_size (l_log s) /\
    lg_committing (logged (l_log s) b) = lg_committing (l_log s)) as (Hl1 & Hl2 & Hl3).
  { unfold logged. by case_decide. }
  split; cbn [fst snd l_log]; rewrite ?Hl1, ?Hl2, ?Hl3, ?length_insert; try done.
  - by apply logged_log_ok.
  - intros Hc. by apply Hcomm in Hc.
  - intros p [j Hj]%list_elem_of_lookup.
    apply list_lookup_insert_Some in Hj as [(-> & <- & _)|[_ Hj%list_elem_of_lookup_2]].
    + split; [done|]. intros x. rewrite elem_of_union, elem_of_singleton, logged_in by done.
      intros [->|Hx]; [by left|right]. eapply Hops; [by eapply list_elem_of_lookup_2|done].
    + split; [by apply Hops|]. intros x Hx. rewrite logged_in by done. right. by eapply Hops.
  - intros _. rewrite (room_insert ops i o) by done.
    destruct (decide (b ∈ o)) as [Hb|Hb].
    + replace ({[b]} ∪ o) with o by set_solver. unfold logged. rewrite decide_True; [lia|].
      eapply Hops; [by eapply list_elem_of_lookup_2|done].
    + rewrite size_union, size_singleton by set_solver. unfold logged. case_decide; cbn [lg_n set_n]; lia.
Qed.

Lemma inv_leave s s' ops i r :
  res_inv (s, ops) -> (i < length ops)%nat -> end_op_leave s = Ret (r, s') ->
  res_inv (s', delete i ops).
Proof.
  intros [Hlg Hsz Hout Hcomm Hidle Hops Hroom] Hi H. cbn [fst snd] in *.
  destruct (lookup_lt_is_Some_2 ops i Hi) as [o Ho].
  assert (ops <> []) as Hne by (intros ->; done). specialize (Hroom Hne).
  unfold end_op_leave in H. apply bind_inv in H as (u & s0 & H0 & H). inversion H0; subst s0; clear H0.
  apply bind_inv in H as (lg & s0 & H0 & H). inversion H0; subst s0 lg; clear H0. cbn [l_log] in H.
  cbn in H. destruct (lg_committing (l_log s)) eqn:Hc; [done|].
  pose proof (length_delete ops i (ex_intro _ o Ho)) as Hlen.
  assert (Z.of_nat (size o) <= MAXOPBLOCKS) as Hso by (by eapply Hops, list_elem_of_lookup_2).
  assert (forall p, p ∈ delete i ops -> Z.of_nat (size p) <= MAXOPBLOCKS /\
    forall b, b ∈ p -> b ∈ lg_blocks (l_log s)) as Hops' by (intros p Hp%in_delete; by apply Hops).
  destruct Hlg. destruct (lg_outstanding (l_log s) - 1 =? 0) eqn:Hz; bsplit.
  - inversion H; subst. assert (delete i ops = []) as Hd by (apply length_zero_iff_nil; lia).
    rewrite Hd in *. split; cbn; try done; lia.
  - inversion H; subst. assert (delete i ops <> []) as Hd.
    { intros Hd. rewrite Hd in Hlen. cbn in Hlen. lia. }
    split; cbn -[room delete]; try done; [lia|congruence|].
    intros _. rewrite (room_delete ops i o Ho). lia.
Qed.

Lemma inv_commit s s' ops :
  res_inv (s, ops) -> lg_committing (l_log s) = true ->
  (commit ;;; upd_log (set_committing false)) s = Ret (tt, s') -> res_inv (s', ops).
Proof.
  intros [Hlg Hsz Hout Hcomm Hidle Hops Hroom] Hc H. cbn [fst snd] in *.
  apply bind_inv in H as (u & s0 & H0 & H). inversion H; subst s'; clear H. destruct Hlg.
  apply commit_log in H0; [|lia]. rewrite H0. specialize (Hcomm Hc) as ->.
  split; cbn; try done; [|intros o Ho; by apply elem_of_nil in Ho].
  split; cbn; try done; lia.
Qed.

Lemma res_invariant x : reachable res_init res_step x -> res_inv x.
Proof.
  revert x. apply reachable_invariant.
  - intros [s ops] (Hops & Hlg & Hsz & Hn & Ho & Hc). cbn [fst snd] in *. subst ops.
    split; cbn [fst snd]; try done. intros o Ho'. by apply elem_of_nil in Ho'.
  - intros x x' Hx Hstep. destruct Hstep; [by eapply inv_begin|by eapply inv_write|by eapply inv_leave
      |by eapply inv_commit|]. by destruct Hx.
Qed.

End reservation.

(** * On the buffer cache *)

Definition zero_disk (n : nat) : list (list Z) := replicate n (replicate 512 0).

Lemma zero_disk_ok n d : d ∈ zero_disk n -> length d = Z.to_nat BSIZE.
Proof. intros [-> _]%elem_of_replicate. apply length_replicate. Qed.

Definition boot_log (start size : Z) : log := Log start size 0 false ROOTDEV 0 (replicate 30 0).

(** A disk of 40 blocks with a log of 31 blocks from block 2 on. *)
Definition fs40 : lst bio := Lst (after_binit (zero_disk 40)) (boot_log 2 31).

Definition fs40_read : bio :=
  match bio_bread 7 1 35 (after_binit (zero_disk 40)) with
  | Ret (_, s) => s
  | _ => after_binit (zero_disk 40)
  end.

Lemma fs40_read_run : bio_bread 7 1 35 (after_binit (zero_disk 40)) = Ret (0%nat, fs40_read).
Proof. vm_compute. reflexivity. Qed.

Lemma fs40_read_wf :
  bio_wf 7 fs40_read /\ Z.of_nat (length (d_blocks fs40_read)) = 40 /\ bio_held fs40_read 0 = Some 35.
Proof.
  destruct (after_binit_ok 7 (zero_disk 40) (zero_disk_ok 40)) as (Hwf & _ & Hh).
  assert (length (d_blocks (after_binit (zero_disk 40))) = 40%nat) as HN by by rewrite after_binit_disk.
  pose proof (wp_Ret _ _ _ _ _ _ (bio_bread_law 7 (after_binit (zero_disk 40)) 35 Hwf
    ltac:(rewrite HN; lia) (fun h => ltac:(rewrite Hh; done))) fs40_read_run) as (Hwf' & Hs & _ & _ & _ & _ & Hh').
  split; [done|]. split; [|by rewrite Hh']. by rewrite Hs, HN.
Qed.

Lemma fs40_log_ok n : 0 <= n <= 30 -> log_ok 40 (set_n n (boot_log 2 31)).
Proof. intros Hn. split; cbn; try done; unfold LOGSIZE, MAXOPBLOCKS; lia. Qed.


(** Three operations begin and log ten different blocks each. *)
Definition log_one (b : nat) : M (lst bio) unit :=
  let* h := on_cache (@bread bio (bio_cache 7) 1 (Z.of_nat b)) in
  log_write (Cache0 := bio_cache 7) h ;;;
  on_cache (@brelse bio (bio_cache 7) h).
Definition three_ops : M (lst bio) unit :=
  begin_op ;;; begin_op ;;; begin_op ;;; for_up 30 33 log_one.

Definition ends_with {S A} (o : outcome (A * S)) : string :=
  match o with Panic e => e | Ret _ => "returned" | _ => "other" end.

(** [begin_op] admits operations while they fit [LOGSIZE] blocks, and [mkfs] makes
    a log of [LOGSIZE] blocks, one of which is the header: three operations, each
    within its [MAXOPBLOCKS], are admitted together and the thirtieth block they log
    panics the kernel. One more log block, and the same run goes through. *)
Theorem mkfs_log_one_block_short :
  ends_with (three_ops (Lst (after_binit (zero_disk 64)) (boot_log 2 LOGSIZE))) =
    "too big a transaction" /\
  ends_with (three_ops (Lst (after_binit (zero_disk 64)) (boot_log 2 (LOGSIZE + 1)))) =
    "returned".
Proof. vm_compute. split; reflexivity. Qed.

Lemma after_binit_flags dk i x : bc_buf (after_binit dk) !! i = Some x -> b_flags x = 0.
Proof.
  assert (Forall (fun b => b_flags b = 0) (bc_buf (after_binit dk))) as HF
    by (vm_compute; repeat constructor).
  intros Hx. by eapply Forall_lookup_1 in HF.
Qed.

Lemma zero_quiet n :
  quiet (Cache0 := bio_cache 7) (CacheSpec0 := bio_spec 7) (Z.of_nat n) (after_binit (zero_disk n)) /\
  (forall b, ~ bio_pin (after_binit (zero_disk n)) b).
Proof.
  destruct (after_binit_ok 7 (zero_disk n) (zero_disk_ok n)) as (Hwf & Hv & Hh). split.
  - split; [exact Hwf|]. split; [|exact Hh]. 
    pose proof (after_binit_disk (zero_disk n)) as Hdk. revert Hdk. generalize (after_binit (zero_disk n)).
    intros c Hdk. cbn. rewrite Hdk. unfold zero_disk. by rewrite length_replicate.
  - intros b (i & x & [_ Hx%after_binit_flags] & _ & _ & Hf). congruence.
Qed.

Lemma fs40_header : hdr_n (bio_disk (after_binit (zero_disk 40)) 2) = 0.
Proof. vm_compute. reflexivity. Qed.

Lemma fs40_block35 : bio_disk (after_binit (zero_disk 40)) 35 = replicate 512 0.
Proof. vm_compute. reflexivity. Qed.

