(* ===== verification/Fs.v ===== *)
(** [fs.c]: blocks, inodes, directories and path names.

    The code runs over any cache with the interface of Cache.v and the log of Log.v.
    An inode pointer is an index into [icache.inode]; a null pointer is [None] at the
    places where the code can produce one. [pid] is the pid of the calling process and
    [devsw] the table of device drivers, both of which the code reads from outside. *)

From S2P Require Import Prelude CString Sleeplock Cache Log.

Definition NDIRECT : Z := 12.
Definition NINDIRECT : Z := BSIZE / 4.
Definition MAXFILE : Z := NDIRECT + NINDIRECT.
Definition DIRSIZ : Z := 14.
Definition ROOTINO : Z := 1.
Definition NINODE : nat := 100.
Definition NDEV : Z := 10.
Definition T_DIR : Z := 1.
Definition T_FILE : Z := 2.
Definition T_DEV : Z := 3.
Definition DINODE : Z := 64.   (* sizeof(struct dinode) *)
Definition DIRENT : Z := 16.   (* sizeof(struct dirent) *)
Definition IPB : Z := BSIZE / DINODE.
Definition BPB : Z := BSIZE * 8.
Definition IBLOCK (i : Z) (sb : superblock) : Z := u32 (i / IPB + sb_inodestart sb).
Definition BBLOCK (b : Z) (sb : superblock) : Z := u32 (b / BPB + sb_bmapstart sb).

(** [struct inode] *)
Record inode := Inode {
  i_dev : Z;
  i_inum : Z;
  i_ref : Z;
  i_lock : sleeplock;
  i_valid : bool;
  i_type : Z;
  i_major : Z;
  i_minor : Z;
  i_nlink : Z;
  i_size : Z;
  i_addrs : list Z
}.

Definition set_i_ref (v : Z) (i : inode) : inode :=
  Inode (i_dev i) (i_inum i) v (i_lock i) (i_valid i) (i_type i) (i_major i) (i_minor i)
    (i_nlink i) (i_size i) (i_addrs i).
Definition set_i_lock (v : sleeplock) (i : inode) : inode :=
  Inode (i_dev i) (i_inum i) (i_ref i) v (i_valid i) (i_type i) (i_major i) (i_minor i)
    (i_nlink i) (i_size i) (i_addrs i).
Definition set_i_valid (v : bool) (i : inode) : inode :=
  Inode (i_dev i) (i_inum i) (i_ref i) (i_lock i) v (i_type i) (i_major i) (i_minor i)
    (i_nlink i) (i_size i) (i_addrs i).
Definition set_i_type (v : Z) (i : inode) : inode :=
  Inode (i_dev i) (i_inum i) (i_ref i) (i_lock i) (i_valid i) v (i_major i) (i_minor i)
    (i_nlink i) (i_size i) (i_addrs i).
Definition set_i_dev (major minor nlink : Z) (i : inode) : inode :=
  Inode (i_dev i) (i_inum i) (i_ref i) (i_lock i) (i_valid i) (i_type i) major minor
    nlink (i_size i) (i_addrs i).
Definition set_i_nlink (v : Z) (i : inode) : inode :=
  Inode (i_dev i) (i_inum i) (i_ref i) (i_lock i) (i_valid i) (i_type i) (i_major i) (i_minor i)
    v (i_size i) (i_addrs i).
Definition set_i_size (v : Z) (i : inode) : inode :=
  Inode (i_dev i) (i_inum i) (i_ref i) (i_lock i) (i_valid i) (i_type i) (i_major i) (i_minor i)
    (i_nlink i) v (i_addrs i).
Definition set_i_addr (n : nat) (v : Z) (i : inode) : inode :=
  Inode (i_dev i) (i_inum i) (i_ref i) (i_lock i) (i_valid i) (i_type i) (i_major i) (i_minor i)
    (i_nlink i) (i_size i) (<[n := v]> (i_addrs i)).

(** [struct dinode] at byte [off] of a block. *)
Definition dinode_type (d : list Z) (off : nat) : Z := s16 (getn 2 d off).

Definition get_dinode (d : list Z) (off : nat) (i : inode) : inode :=
  Inode (i_dev i) (i_inum i) (i_ref i) (i_lock i) (i_valid i) (dinode_type d off)
    (s16 (getn 2 d (off + 2))) (s16 (getn 2 d (off + 4))) (s16 (getn 2 d (off + 6)))
    (getn 4 d (off + 8)) ((fun j => getn 4 d (off + 12 + 4 * j)) <$> seq 0 13).

Definition put_dinode (d : list Z) (off : nat) (i : inode) : list Z :=
  let d := putn 2 d off (i_type i) in
  let d := putn 2 d (off + 2) (i_major i) in
  let d := putn 2 d (off + 4) (i_minor i) in
  let d := putn 2 d (off + 6) (i_nlink i) in
  let d := putn 4 d (off + 8) (i_size i) in
  splice d (off + 12) (concat (le_bytes 4 <$> i_addrs i)).

Record stat := Stat { st_type : Z; st_dev : Z; st_ino : Z; st_nlink : Z; st_size : Z }.

(** [while( *path == '/') path++;]; [None] when it runs off the object. *)
Fixpoint skip_slashes (path : list Z) : option (list Z) :=
  match path with
  | [] => None
  | c :: rest => if c =? 47 then skip_slashes rest else Some path
  end.

(** [while( *path != '/' && *path != 0) path++;]: the characters passed and the rest. *)
Fixpoint span_elem (path : list Z) : option (list Z * list Z) :=
  match path with
  | [] => None
  | c :: rest =>
      if (c =? 47) || (c =? 0) then Some ([], path)
      else '(s, r) ← span_elem rest; Some (c :: s, r)
  end.

(** The path returned and the contents of [name]; [Some None] is a null pointer. *)
Definition skipelem (path name : list Z) : option (option (list Z * list Z)) :=
  path ← skip_slashes path;
  match path with
  | [] => None
  | c :: _ =>
      if c =? 0 then Some None
      else
        '(s, path) ← span_elem path;
        let len := Z.of_nat (length s) in
        let name := if DIRSIZ <=? len then splice name 0 (take (Z.to_nat DIRSIZ) s)
                    else splice name 0 (s ++ [0]) in
        path ← skip_slashes path;
        Some (Some (path, name))
  end.

(** The file system part of the kernel: the log and cache below it, the superblock
    and the inode cache. *)
Record fs (S : Type) := Fs { f_low : lst S; f_sb : superblock; f_ic : list inode }.
Arguments Fs {S} f_low f_sb f_ic.
Arguments f_low {S} f.
Arguments f_sb {S} f.
Arguments f_ic {S} f.

Section fs.
Context {S : Type} `{!Cache S}.
Local Abbreviation F := (M (fs S)).
Context (pid : Z).

Definition nofuel {A} : F A := fun _ => NoFuel.

Definition on_low {A} (m : M (lst S) A) : F A := fun s =>
  match m (f_low s) with
  | Ret (a, l) => Ret (a, Fs l (f_sb s) (f_ic s))
  | Panic e => Panic e | Block => Block | Fault => Fault | NoFuel => NoFuel
  end.
Definition on_buf {A} (m : M S A) : F A := on_low (on_cache m).

(** A byte of a buffer. *)
Definition byte_at (d : list Z) (i : Z) : F Z := fun s =>
  match d !! Z.to_nat i with Some v => Ret (v, s) | None => Fault end.

(** [icache.inode[ip]] *)
Definition get_i (ip : nat) : F inode := fun s =>
  match f_ic s !! ip with Some i => Ret (i, s) | None => Fault end.
Definition upd_i (ip : nat) (f : inode -> inode) : F unit := fun s =>
  match f_ic s !! ip with
  | Some i => Ret (tt, Fs (f_low s) (f_sb s) (<[ip := f i]> (f_ic s)))
  | None => Fault
  end.

(** A sleep lock of an inode. *)
Definition on_ilock (ip : nat) (m : M sleeplock unit) : F unit :=
  let* i := get_i ip in
  fun s => match m (i_lock i) with
           | Ret (_, lk) => upd_i ip (set_i_lock lk) s
           | Panic e => Panic e | Block => Block | Fault => Fault | NoFuel => NoFuel
           end.

(** * Blocks *)

Definition bzero (dev bno : Z) : F unit :=
  let* bp := on_buf (bread dev bno) in
  on_buf (bset bp (replicate (Z.to_nat BSIZE) 0)) ;;;
  on_low (log_write bp) ;;;
  on_buf (brelse bp).

(** The inner loop of [balloc], from bit [bi] on with [n] bits left in the block. *)
Fixpoint balloc_bits (dev : Z) (bp : nat) (b : Z) (n : nat) (bi : Z) : F (option Z) :=
  match n with
  | O => ret None
  | Datatypes.S n =>
      let* sb := gets f_sb in
      if b + bi <? sb_size sb then
        let m := Z.shiftl 1 (bi mod 8) in
        let* d := on_buf (bdata bp) in
        let* c := byte_at d (bi / 8) in
        if Z.land c m =? 0 then
          on_buf (bset bp (<[Z.to_nat (bi / 8) := u8 (Z.lor c m)]> d)) ;;;
          on_low (log_write bp) ;;;
          on_buf (brelse bp) ;;;
          bzero dev (b + bi) ;;;
          ret (Some (b + bi))
        else balloc_bits dev bp b n (bi + 1)
      else ret None
  end.

Fixpoint balloc_loop (dev : Z) (fuel : nat) (b : Z) : F Z :=
  match fuel with
  | O => nofuel
  | Datatypes.S fuel =>
      let* sb := gets f_sb in
      if b <? sb_size sb then
        let* bp := on_buf (bread dev (BBLOCK b sb)) in
        let* r := balloc_bits dev bp b (Z.to_nat BPB) 0 in
        match r with
        | Some x => ret x
        | None => on_buf (brelse bp) ;;; balloc_loop dev fuel (b + BPB)
        end
      else panic "balloc: out of blocks"
  end.

Definition balloc (dev : Z) : F Z :=
  let* sb := gets f_sb in
  balloc_loop dev (Z.to_nat (sb_size sb / BPB + 2)) 0.

Definition bfree (dev b : Z) : F unit :=
  let* sb := gets f_sb in
  let* bp := on_buf (bread dev (BBLOCK b sb)) in
  let bi := b mod BPB in
  let m := Z.shiftl 1 (bi mod 8) in
  let* d := on_buf (bdata bp) in
  let* c := byte_at d (bi / 8) in
  if Z.land c m =? 0 then panic "freeing free block"
  else
    on_buf (bset bp (<[Z.to_nat (bi / 8) := u8 (Z.land c (Z.lnot m))]> d)) ;;;
    on_low (log_write bp) ;;;
    on_buf (brelse bp).

(** * Inodes *)

(** [iinit] on [icache.inode], the superblock already read into [sb] by [readsb]; the
    line it prints is not modelled. *)
Definition iinit (dev : Z) : F unit :=
  for_up NINODE 0 (fun i => upd_i i (set_i_lock initsleeplock)) ;;;
  let* sb := on_low (readsb dev) in
  modify (fun s => Fs (f_low s) sb (f_ic s)).

(** The scan of [iget]: a cached inode, or the first empty slot. *)
Fixpoint iget_scan (dev inum : Z) (l : list inode) (ip : nat) (empty : option nat)
    : nat + option nat :=
  match l with
  | [] => inr empty
  | i :: l =>
      if (0 <? i_ref i) && (i_dev i =? dev) && (i_inum i =? inum) then inl ip
      else iget_scan dev inum l (Datatypes.S ip)
             (match empty with
              | None => if i_ref i =? 0 then Some ip else None
              | Some e => Some e
              end)
  end.

Definition iget (dev inum : Z) : F nat :=
  let* ic := gets f_ic in
  match iget_scan dev inum ic 0 None with
  | inl ip => upd_i ip (fun i => set_i_ref (i_ref i + 1) i) ;;; ret ip
  | inr None => panic "iget: no inodes"
  | inr (Some ip) =>
      upd_i ip (fun i => Inode dev inum 1 (i_lock i) false (i_type i) (i_major i) (i_minor i)
                           (i_nlink i) (i_size i) (i_addrs i)) ;;;
      ret ip
  end.

Definition dinode_off (inum : Z) : nat := Z.to_nat (DINODE * (inum mod IPB)).

(** [n] inodes are left to try, from [inum] on. *)
Fixpoint ialloc_loop (dev type : Z) (n : nat) (inum : Z) : F nat :=
  match n with
  | O => panic "ialloc: no inodes"
  | Datatypes.S n =>
      let* sb := gets f_sb in
      let* bp := on_buf (bread dev (IBLOCK inum sb)) in
      let* d := on_buf (bdata bp) in
      let dip := dinode_off inum in
      if dinode_type d dip =? 0 then
        on_buf (bset bp (putn 2 (splice d dip (replicate (Z.to_nat DINODE) 0)) dip type)) ;;;
        on_low (log_write bp) ;;;
        on_buf (brelse bp) ;;;
        iget dev inum
      else
        on_buf (brelse bp) ;;;
        ialloc_loop dev type n (inum + 1)
  end.

Definition ialloc (dev type : Z) : F nat :=
  let* sb := gets f_sb in
  ialloc_loop dev type (Z.to_nat (sb_ninodes sb - 1)) 1.

Definition iupdate (ip : nat) : F unit :=
  let* sb := gets f_sb in
  let* i := get_i ip in
  let* bp := on_buf (bread (i_dev i) (IBLOCK (i_inum i) sb)) in
  let* d := on_buf (bdata bp) in
  on_buf (bset bp (put_dinode d (dinode_off (i_inum i)) i)) ;;;
  on_low (log_write bp) ;;;
  on_buf (brelse bp).

Definition idup (ip : nat) : F nat :=
  upd_i ip (fun i => set_i_ref (i_ref i + 1) i) ;;; ret ip.

Definition ilock (ip : nat) : F unit :=
  let* i := get_i ip in
  if i_ref i <? 1 then panic "ilock"
  else
    on_ilock ip (acquiresleep pid) ;;;
    let* i := get_i ip in
    if i_valid i then ret tt
    else
      let* sb := gets f_sb in
      let* bp := on_buf (bread (i_dev i) (IBLOCK (i_inum i) sb)) in
      let* d := on_buf (bdata bp) in
      upd_i ip (get_dinode d (dinode_off (i_inum i))) ;;;
      on_buf (brelse bp) ;;;
      upd_i ip (set_i_valid true) ;;;
      let* i := get_i ip in
      if i_type i =? 0 then panic "ilock: no type" else ret tt.

Definition iunlock (ip : nat) : F unit :=
  let* i := get_i ip in
  if negb (holdingsleep pid (i_lock i)) || (i_ref i <? 1) then panic "iunlock"
  else on_ilock ip releasesleep.

(** * Inode content *)

Definition addr_at (ip : nat) (n : nat) : F Z :=
  let* i := get_i ip in
  fun s => match i_addrs i !! n with Some a => Ret (a, s) | None => Fault end.

Definition bmap (ip : nat) (bn : Z) : F Z :=
  let* i := get_i ip in
  if bn <? NDIRECT then
    let* addr := addr_at ip (Z.to_nat bn) in
    if addr =? 0 then
      let* addr := balloc (i_dev i) in
      upd_i ip (set_i_addr (Z.to_nat bn) addr) ;;;
      ret addr
    else ret addr
  else
    let bn := bn - NDIRECT in
    if bn <? NINDIRECT then
      let* addr := addr_at ip (Z.to_nat NDIRECT) in
      let* addr :=
        (if addr =? 0 then
           let* addr := balloc (i_dev i) in
           upd_i ip (set_i_addr (Z.to_nat NDIRECT) addr) ;;;
           ret addr
         else ret addr) in
      let* bp := on_buf (bread (i_dev i) addr) in
      let* a := on_buf (bdata bp) in
      let addr := getn 4 a (4 * Z.to_nat bn) in
      let* addr :=
        (if addr =? 0 then
           let* addr := balloc (i_dev i) in
           on_buf (bset bp (putn 4 a (4 * Z.to_nat bn) addr)) ;;;
           on_low (log_write bp) ;;;
           ret addr
         else ret addr) in
      on_buf (brelse bp) ;;;
      ret addr
    else panic "bmap: out of range".

Definition itrunc_direct (ip : nat) (n : nat) : F unit :=
  let* i := get_i ip in
  let* addr := addr_at ip n in
  if addr =? 0 then ret tt
  else bfree (i_dev i) addr ;;; upd_i ip (set_i_addr n 0).

Definition itrunc_indirect (dev : Z) (bp : nat) (j : nat) : F unit :=
  let* a := on_buf (bdata bp) in
  let addr := getn 4 a (4 * j) in
  if addr =? 0 then ret tt else bfree dev addr.

Definition itrunc (ip : nat) : F unit :=
  for_up (Z.to_nat NDIRECT) 0 (itrunc_direct ip) ;;;
  let* i := get_i ip in
  let* addr := addr_at ip (Z.to_nat NDIRECT) in
  (if addr =? 0 then ret tt
   else
     let* bp := on_buf (bread (i_dev i) addr) in
     for_up (Z.to_nat NINDIRECT) 0 (itrunc_indirect (i_dev i) bp) ;;;
     on_buf (brelse bp) ;;;
     bfree (i_dev i) addr ;;;
     upd_i ip (set_i_addr (Z.to_nat NDIRECT) 0)) ;;;
  upd_i ip (set_i_size 0) ;;;
  iupdate ip.

Definition iput (ip : nat) : F unit :=
  on_ilock ip (acquiresleep pid) ;;;
  let* i := get_i ip in
  (if i_valid i && (i_nlink i =? 0) then
     let* i := get_i ip in
     if i_ref i =? 1 then
       itrunc ip ;;;
       upd_i ip (set_i_type 0) ;;;
       iupdate ip ;;;
       upd_i ip (set_i_valid false)
     else ret tt
   else ret tt) ;;;
  on_ilock ip releasesleep ;;;
  upd_i ip (fun i => set_i_ref (i_ref i - 1) i).

Definition iunlockput (ip : nat) : F unit := iunlock ip ;;; iput ip.

Definition stati (ip : nat) : F stat :=
  let* i := get_i ip in
  ret (Stat (i_type i) (s32 (i_dev i)) (i_inum i) (i_nlink i) (i_size i)).

(** The drivers: [devsw[major].read] and [devsw[major].write]. *)
Context (dev_read : Z -> option (nat -> Z -> F (Z * list Z))).
Context (dev_write : Z -> option (nat -> list Z -> Z -> F Z)).

(** The loop of [readi]; the result is what it stores at [dst]. *)
Fixpoint readi_loop (fuel : nat) (ip : nat) (off n tot : Z) : F (list Z) :=
  if tot <? n then
    match fuel with
    | O => nofuel
    | Datatypes.S fuel =>
        let* i := get_i ip in
        let* b := bmap ip (off / BSIZE) in
        let* bp := on_buf (bread (i_dev i) b) in
        let m := Z.min (n - tot) (BSIZE - off mod BSIZE) in
        let* d := on_buf (bdata bp) in
        on_buf (brelse bp) ;;;
        let* rest := readi_loop fuel ip (u32 (off + m)) n (u32 (tot + m)) in
        ret (take (Z.to_nat m) (drop (Z.to_nat (off mod BSIZE)) d) ++ rest)
    end
  else ret [].

(** The value returned and the bytes stored at [dst]. *)
Definition readi (ip : nat) (off n : Z) : F (Z * list Z) :=
  let* i := get_i ip in
  if i_type i =? T_DEV then
    if (i_major i <? 0) || (NDEV <=? i_major i) then ret (-1, [])
    else match dev_read (i_major i) with
         | None => ret (-1, [])
         | Some read => read ip n
         end
  else if (i_size i <? off) || (u32 (off + n) <? off) then ret (-1, [])
  else
    let n := if i_size i <? u32 (off + n) then u32 (i_size i - off) else n in
    let* d := readi_loop (Z.to_nat n) ip off n 0 in
    ret (n, d).

(** The loop of [writei]; the result is the final [off]. *)
Fixpoint writei_loop (fuel : nat) (ip : nat) (src : list Z) (off n tot : Z) : F Z :=
  if tot <? n then
    match fuel with
    | O => nofuel
    | Datatypes.S fuel =>
        let* i := get_i ip in
        let* b := bmap ip (off / BSIZE) in
        let* bp := on_buf (bread (i_dev i) b) in
        let m := Z.min (n - tot) (BSIZE - off mod BSIZE) in
        let* d := on_buf (bdata bp) in
        if (Z.of_nat (length src) <? m) then fault
        else
          on_buf (bset bp (splice d (Z.to_nat (off mod BSIZE)) (take (Z.to_nat m) src))) ;;;
          on_low (log_write bp) ;;;
          on_buf (brelse bp) ;;;
          writei_loop fuel ip (drop (Z.to_nat m) src) (u32 (off + m)) n (u32 (tot + m))
    end
  else ret off.

Definition writei (ip : nat) (src : list Z) (off n : Z) : F Z :=
  let* i := get_i ip in
  if i_type i =? T_DEV then
    if (i_major i <? 0) || (NDEV <=? i_major i) then ret (-1)
    else match dev_write (i_major i) with
         | None => ret (-1)
         | Some write => write ip src n
         end
  else if (i_size i <? off) || (u32 (off + n) <? off) then ret (-1)
  else if MAXFILE * BSIZE <? u32 (off + n) then ret (-1)
  else
    let* off := writei_loop (Z.to_nat n) ip src off n 0 in
    let* i := get_i ip in
    (if (0 <? n) && (i_size i <? off) then
       upd_i ip (set_i_size off) ;;; iupdate ip
     else ret tt) ;;;
    ret n.

(** * Directories *)

Definition namecmp (s t : list Z) : option Z := Kernel.strncmp s t DIRSIZ.

Definition de_inum (de : list Z) : Z := getn 2 de 0.
Definition de_name (de : list Z) : list Z := drop 2 de.

(** The inode and the offset of its entry. *)
Fixpoint dirlookup_loop (fuel : nat) (dp : nat) (name : list Z) (off : Z)
    : F (option (nat * Z)) :=
  let* i := get_i dp in
  if off <? i_size i then
    match fuel with
    | O => nofuel
    | Datatypes.S fuel =>
        let* r := readi dp off DIRENT in
        if negb (fst r =? DIRENT) then panic "dirlookup read"
        else
          let de := snd r in
          if de_inum de =? 0 then dirlookup_loop fuel dp name (u32 (off + DIRENT))
          else
            match namecmp name (de_name de) with
            | None => fault
            | Some c =>
                if c =? 0 then
                  let* ip := iget (i_dev i) (de_inum de) in
                  ret (Some (ip, off))
                else dirlookup_loop fuel dp name (u32 (off + DIRENT))
            end
    end
  else ret None.

Definition dirlookup (dp : nat) (name : list Z) : F (option (nat * Z)) :=
  let* i := get_i dp in
  if negb (i_type i =? T_DIR) then panic "dirlookup not DIR"
  else dirlookup_loop (Z.to_nat (i_size i)) dp name 0.

(** The offset of the first empty entry, or of the end. *)
Fixpoint dirlink_slot (fuel : nat) (dp : nat) (off : Z) : F Z :=
  let* i := get_i dp in
  if off <? i_size i then
    match fuel with
    | O => nofuel
    | Datatypes.S fuel =>
        let* r := readi dp off DIRENT in
        if negb (fst r =? DIRENT) then panic "dirlink read"
        else if de_inum (snd r) =? 0 then ret off
        else dirlink_slot fuel dp (off + DIRENT)
    end
  else ret off.

Definition dirlink (dp : nat) (name : list Z) (inum : Z) : F Z :=
  let* r := dirlookup dp name in
  match r with
  | Some (ip, _) => iput ip ;;; ret (-1)
  | None =>
      let* i := get_i dp in
      let* off := dirlink_slot (Z.to_nat (i_size i)) dp 0 in
      match Kernel.strncpy (replicate (Z.to_nat DIRSIZ) 0) name DIRSIZ with
      | None => fault
      | Some name' =>
          let* n := writei dp (le_bytes 2 inum ++ name') off DIRENT in
          if negb (n =? DIRENT) then panic "dirlink" else ret 0
      end
  end.

(** * Paths *)

(** The loop of [namex] at inode [ip]; the result is the inode and [name]. *)
Fixpoint namex_loop (fuel : nat) (ip : nat) (path : list Z) (nameiparent : bool) (name : list Z)
    : F (option (nat * list Z)) :=
  match skipelem path name with
  | None => fault
  | Some None =>
      if nameiparent then iput ip ;;; ret None else ret (Some (ip, name))
  | Some (Some (path, name)) =>
      match fuel with
      | O => nofuel
      | Datatypes.S fuel =>
          ilock ip ;;;
          let* i := get_i ip in
          if negb (i_type i =? T_DIR) then iunlockput ip ;;; ret None
          else if nameiparent && (hd 0 path =? 0) then iunlock ip ;;; ret (Some (ip, name))
          else
            let* next := dirlookup ip name in
            match next with
            | None => iunlockput ip ;;; ret None
            | Some (next, _) => iunlockput ip ;;; namex_loop fuel next path nameiparent name
            end
      end
  end.

(** [cwd] is [myproc()->cwd]. *)
Definition namex (cwd : nat) (path : list Z) (nameiparent : bool) (name : list Z)
    : F (option (nat * list Z)) :=
  let* ip := (if hd 0 path =? 47 then iget ROOTDEV ROOTINO else idup cwd) in
  namex_loop (length path) ip path nameiparent name.

Definition namei (cwd : nat) (path : list Z) : F (option nat) :=
  let* r := namex cwd path false (replicate (Z.to_nat DIRSIZ) 0) in
  ret (fst <$> r).

Definition nameiparent (cwd : nat) (path name : list Z) : F (option (nat * list Z)) :=
  namex cwd path true name.

End fs.
