(* ===== verification/FsSpec.v ===== *)
(** [fs.c] inside a transaction: rules for buffers that are read, logged and released,
    and what the block allocator does to the bitmap and to the blocks.

    A transaction sees a view [V] of the blocks: what the cache shows, whether it has
    reached the disk or not. *)

From S2P Require Import Prelude CString Sleeplock Cache Log LogSpec LogRes Fs.

Abbreviation too_big := (Some "too big a transaction").

(** * Buffers in a transaction *)

(** What a transaction leaves alone until it commits: the disk, the writes made so far
    and the operations that are active. *)
Record txn := Txn {
  tx_disk : Z -> list Z;
  tx_hist : list (Z * list Z);
  tx_out : Z;
  tx_comm : bool
}.

Section low.
Context {S : Type} `{!Cache S, !CacheSpec S}.
Context (N start size : Z) {base : txn}.

(** The cache and log of a running transaction: the view of the blocks is [V], the
    locked buffers are [H], the logged blocks are the pinned ones, and every other
    block is on the disk as it is in the view. *)
Record low (l : lst S) (V : Z -> list Z) (H : nat -> option Z) : Prop := {
  lw_cwf : cwf (l_cache l);
  lw_size : csize (l_cache l) = N;
  lw_view b : cview (l_cache l) b = V b;
  lw_held h : cheld (l_cache l) h = H h;
  lw_pin b : cpin (l_cache l) b <-> b ∈ lg_blocks (l_log l);
  lw_log : log_ok N (l_log l);
  lw_blocks : blocks_ok N (l_log l);
  lw_start : lg_start (l_log l) = start;
  lw_lsize : lg_size (l_log l) = size;
  lw_hdr : hdr_n (cdisk (l_cache l) start) = 0;
  lw_out : 1 <= lg_outstanding (l_log l);
  lw_clean b : 0 <= b < N -> b ∉ lg_blocks (l_log l) -> V b = cdisk (l_cache l) b;
  lw_disk b : cdisk (l_cache l) b = tx_disk base b;
  lw_hist : chist (l_cache l) = tx_hist base;
  lw_outs : lg_outstanding (l_log l) = tx_out base;
  lw_comm : lg_committing (l_log l) = tx_comm base
}.

Lemma low_cabs l V H : low l V H ->
  cabs N (l_cache l) (Cst V (cdisk (l_cache l)) (chist (l_cache l)) H
    (fun b => b ∈ lg_blocks (l_log l))).
Proof. intros []. by split_and!. Qed.

Lemma low_ext l V V' H H' :
  low l V H -> (forall b, V' b = V b) -> (forall h, H' h = H h) -> low l V' H'.
Proof.
  intros [] HV HH. split; try done; [by intros; rewrite HV|by intros; rewrite HH|].
  intros b Hb Hn. rewrite HV. auto.
Qed.

Lemma low_block_size l V H b : low l V H -> 0 <= b < N -> length (V b) = 512%nat.
Proof. intros [] Hb. rewrite <- lw_view0. apply (cview_size (l_cache l)); [done|lia]. Qed.

(** A transaction with nothing locked and no other operation active is [ready]. *)
Lemma low_ready l V H : low l V H -> (forall h, H h = None) -> ready N (l_cache l) (l_log l).
Proof.
  intros [] Hh. split; try done.
  - split_and!; try done. intros h. by rewrite lw_held0.
  - by rewrite lw_start0.
Qed.

Section rules.
Context (may : option string -> Prop).
Context (Hbuf : forall o, no_buffers o -> may o) (Hbig : may too_big).
Local Abbreviation wpf := (wp (S := fs S) may).

Lemma wp_on_low {A} (m : M (lst S) A) l sb ic Q :
  wp may m l (fun a l' => Q a (Fs l' sb ic)) -> wpf (on_low m) (Fs l sb ic) Q.
Proof. unfold wp, on_low. cbn. by destruct (m l) as [[a l']| | | |]. Qed.

Lemma wp_bread l V H sb ic b Q :
  low l V H -> 0 <= b < N -> (forall h, H h <> Some b) ->
  (forall h l', H h = None -> low l' V (hupd H h (Some b)) -> Q h (Fs l' sb ic)) ->
  wpf (on_buf (bread ROOTDEV b)) (Fs l sb ic) Q.
Proof.
  intros Hl Hb Hf HQ. apply wp_on_low. pose proof (low_cabs l V H Hl) as Ha.
  destruct l as [c lg]. eapply wp_lbread; [exact Hbuf|exact Ha|done|done|].
  intros h c' Hn (Hwf & Hs & Hv & Hd & Hhi & Hh & Hp). cbn in *. apply HQ; [done|].
  destruct Hl. cbn in *. split; cbn; try done; try congruence; intros; rewrite Hd; auto.
Qed.

Lemma wp_bdata l V H sb ic h b Q :
  low l V H -> H h = Some b -> Q (V b) (Fs l sb ic) -> wpf (on_buf (bdata h)) (Fs l sb ic) Q.
Proof.
  intros Hl Hh HQ. apply wp_on_low. pose proof (low_cabs l V H Hl) as Ha. destruct l as [c lg].
  eapply wp_lbdata; [exact Ha|exact Hh|done].
Qed.

Lemma wp_brelse l V H sb ic h b Q :
  low l V H -> H h = Some b ->
  (forall l', low l' V (hupd H h None) -> Q tt (Fs l' sb ic)) ->
  wpf (on_buf (brelse h)) (Fs l sb ic) Q.
Proof.
  intros Hl Hh HQ. apply wp_on_low. pose proof (low_cabs l V H Hl) as Ha. destruct l as [c lg].
  eapply wp_lbrelse; [exact Ha|exact Hh| |].
  { destruct Hl. cbn in *. destruct (decide (b ∈ lg_blocks lg)); [by left|right].
    apply lw_clean0; [|done]. rewrite <- lw_size0. eapply cheld_range; [done|]. by rewrite lw_held0. }
  intros c' (Hwf & Hs & Hv & Hd & Hhi & Hh' & Hp). cbn in *. apply HQ.
  destruct Hl. cbn in *. split; cbn; try done; try congruence; intros; rewrite Hd; auto.
Qed.

(** A store into a locked buffer and the [log_write] that follows it. *)
Lemma wp_bset_log {A} l V H sb ic h b d (k : M (fs S) A) Q :
  low l V H -> H h = Some b -> home start size b -> length d = 512%nat ->
  (forall l', low l' (bupd V b d) H -> wpf k (Fs l' sb ic) Q) ->
  wpf (on_buf (bset h d) ;;; on_low (log_write h) ;;; k) (Fs l sb ic) Q.
Proof.
  intros Hl Hh Hhome Hd HQ. pose proof (low_cabs l V H Hl) as Ha. destruct l as [c lg].
  destruct Hl as [Hwf Hs Hv Hhd Hp Hlg Hbk Hst Hsz Hz Ho Hcl Hdk Hhist Hout Hcom]. cbn [l_cache l_log] in *.
  assert (0 <= b < N) as Hb.
  { rewrite <- Hs. eapply cheld_range; [done|]. by rewrite Hhd. }
  destruct (bset_abs N c _ h b d Ha Hh Hd) as (c1 & Hrun & H1). cbn in H1.
  wbind. eapply wp_run; [unfold on_buf, on_low, on_cache; cbn; by rewrite Hrun|]. wbind.
  apply wp_on_low. cbn [f_low f_sb f_ic l_log].
  destruct (decide (lg_n lg < LOGSIZE /\ lg_n lg < lg_size lg - 1)) as [[Hn Hn']|Hfull].
  - destruct (log_write_run N c1 _ lg h b H1 Hh Hlg Hn Hn' Ho) as (c2 & Hrun2 & H2).
    eapply wp_run; [exact Hrun2|]. apply HQ. destruct H2 as (Hwf2 & Hs2 & Hv2 & Hd2 & Hhi2 & Hh2 & Hp2).
    cbn in *. assert (forall x, x ∈ lg_blocks (logged lg b) <-> x = b \/ x ∈ lg_blocks lg) as Hin
      by (intros x; by apply (logged_in N)).
    assert (lg_start (logged lg b) = start /\ lg_size (logged lg b) = size /\
      lg_outstanding (logged lg b) = lg_outstanding lg /\
      lg_committing (logged lg b) = lg_committing lg) as (Hl1 & Hl2 & Hl3 & Hl4)
      by (unfold logged; by case_decide).
    split; cbn [l_cache l_log]; rewrite ?Hl1, ?Hl2, ?Hl3, ?Hl4; try done; try congruence.
    + intros x. rewrite Hp2, Hin. done.
    + by apply logged_log_ok.
    + destruct Hbk as [Hnd Hbk]. split.
      * rewrite (logged_blocks N) by done. case_decide; [done|]. apply NoDup_app. split_and!; [done| |].
        { intros x Hx ->%list_elem_of_singleton. done. }
        apply NoDup_singleton.
      * intros x [->|Hx]%Hin; rewrite Hl1, Hl2; [done|]. rewrite <- Hst, <- Hsz. by apply Hbk.
    + intros x Hx Hnx. rewrite Hin in Hnx. rewrite bupd_ne by tauto. rewrite Hd2. apply Hcl; tauto.
  - unfold wp, log_write, bind, gets. cbn [l_log].
    replace ((LOGSIZE <=? lg_n lg) || (lg_size lg - 1 <=? lg_n lg)) with true; [done|].
    symmetry. apply orb_true_iff. rewrite !Z.leb_le. lia.
Qed.

(** Release of the buffer locked last. *)
Lemma wp_brelse_last l V H sb ic h b Q :
  low l V (hupd H h (Some b)) -> H h = None ->
  (forall l', low l' V H -> Q tt (Fs l' sb ic)) ->
  wpf (on_buf (brelse h)) (Fs l sb ic) Q.
Proof.
  intros Hl Hn HQ. eapply wp_brelse; [exact Hl|apply hupd_eq|]. intros l' Hl'. apply HQ.
  eapply low_ext; [exact Hl'|done|]. intros h'. unfold hupd. repeat case_decide; congruence.
Qed.
End rules.
End low.

(** * The bitmap *)

Lemma land_bit c k : 0 <= k -> (Z.land c (Z.shiftl 1 k) =? 0) = negb (Z.testbit c k).
Proof.
  intros Hk. rewrite Z.shiftl_1_l. destruct (Z.testbit c k) eqn:Hb; cbn.
  - apply Z.eqb_neq. intros H0. apply (f_equal (fun z => Z.testbit z k)) in H0.
    rewrite Z.land_spec, Hb, Z.pow2_bits_true, Z.bits_0 in H0 by lia. done.
  - apply Z.eqb_eq. apply Z.bits_inj_0. intros j. rewrite Z.land_spec, Z.pow2_bits_eqb by lia.
    destruct (Z.eqb_spec k j) as [<-|]; [by rewrite Hb|by rewrite andb_false_r].
Qed.

Lemma u8_testbit x j : 0 <= j < 8 -> Z.testbit (u8 x) j = Z.testbit x j.
Proof. intros Hj. unfold u8. by rewrite Z.mod_pow2_bits_low by lia. Qed.

Lemma set_bit_testbit c k j : 0 <= k -> 0 <= j < 8 ->
  Z.testbit (u8 (Z.lor c (Z.shiftl 1 k))) j = bool_decide (j = k) || Z.testbit c j.
Proof.
  intros Hk Hj. rewrite u8_testbit, Z.lor_spec, Z.shiftl_1_l, Z.pow2_bits_eqb by lia.
  rewrite orb_comm. f_equal. case_bool_decide; lia.
Qed.

Lemma clear_bit_testbit c k j : 0 <= k -> 0 <= j < 8 ->
  Z.testbit (u8 (Z.land c (Z.lnot (Z.shiftl 1 k)))) j = negb (bool_decide (j = k)) && Z.testbit c j.
Proof.
  intros Hk Hj. rewrite u8_testbit, Z.land_spec, Z.lnot_spec, Z.shiftl_1_l, Z.pow2_bits_eqb by lia.
  rewrite andb_comm. f_equal. f_equal. case_bool_decide; lia.
Qed.

(** The bit of block [b] in the free map. *)
Definition bitmap_block (sb : superblock) (b : Z) : Z := b / BPB + sb_bmapstart sb.
Definition bitmap_byte (b : Z) : nat := Z.to_nat (b mod BPB / 8).
Definition used (sb : superblock) (V : Z -> list Z) (b : Z) : bool :=
  Z.testbit (nth (bitmap_byte b) (V (bitmap_block sb b)) 0) (b mod 8).

(** Mark block [b] as used or free. *)
Definition mark (f : Z -> Z -> Z) (sb : superblock) (V : Z -> list Z) (b : Z) : Z -> list Z :=
  let d := V (bitmap_block sb b) in
  bupd V (bitmap_block sb b)
    (<[bitmap_byte b := u8 (f (nth (bitmap_byte b) d 0) (Z.shiftl 1 (b mod 8)))]> d).
Definition mark_used := mark Z.lor.
Definition mark_free := mark (fun c m => Z.land c (Z.lnot m)).

(** Two blocks have their bits in the same place only if they are the same. *)
Lemma same_bit b b' : 0 <= b -> 0 <= b' -> b / BPB = b' / BPB -> bitmap_byte b = bitmap_byte b' ->
  b mod 8 = b' mod 8 -> b = b'.
Proof.
  unfold bitmap_byte, BPB, BSIZE. intros Hb Hb' Hblk Hbyte Hbit.
  change (512 * 8) with 4096 in *. apply Z2Nat.inj in Hbyte; [|apply Z.div_pos; [apply Z.mod_pos_bound|]; lia..].
  rewrite (Z.div_mod b 4096), (Z.div_mod b' 4096) by lia. rewrite Hblk. f_equal.
  rewrite (Z.div_mod (b mod 4096) 8), (Z.div_mod (b' mod 4096) 8) by lia. rewrite Hbyte. f_equal.
  rewrite !Z.mod_mod_divide; [done| |]; by exists 512.
Qed.

Lemma bitmap_byte_lt b : 0 <= b -> (bitmap_byte b < 512)%nat.
Proof.
  intros Hb. unfold bitmap_byte, BPB, BSIZE. change (512 * 8) with 4096.
  pose proof (Z.mod_pos_bound b 4096). assert (b mod 4096 / 8 < 512) by (apply Z.div_lt_upper_bound; lia).
  pose proof (Z.div_pos (b mod 4096) 8). lia.
Qed.

Lemma used_mark f g sb V b b' :
  (forall c k j, 0 <= k -> 0 <= j < 8 ->
     Z.testbit (u8 (f c (Z.shiftl 1 k))) j = if bool_decide (j = k) then g else Z.testbit c j) ->
  0 <= b -> 0 <= b' -> length (V (bitmap_block sb b)) = 512%nat ->
  used sb (mark f sb V b) b' = if bool_decide (b' = b) then g else used sb V b'.
Proof.
  intros Hf Hb Hb' Hl. unfold used, mark. pose proof (Z.mod_pos_bound b 8). pose proof (Z.mod_pos_bound b' 8).
  destruct (decide (bitmap_block sb b' = bitmap_block sb b)) as [Hblk|Hblk].
  - rewrite Hblk, bupd_eq. destruct (decide (bitmap_byte b' = bitmap_byte b)) as [Hbyte|Hbyte].
    + rewrite Hbyte, (nth_lookup_Some _ _ _ (u8 (f (nth (bitmap_byte b) (V (bitmap_block sb b)) 0)
        (Z.shiftl 1 (b mod 8))))).
      2: { apply list_lookup_insert_eq. rewrite Hl. by apply bitmap_byte_lt. }
      rewrite Hf by lia. repeat case_bool_decide; try done; [|by subst].
      exfalso. unfold bitmap_block in Hblk. apply H2. apply same_bit; lia || done.
    + rewrite bool_decide_false by (intros ->; done).
      rewrite !nth_lookup. by rewrite list_lookup_insert_ne.
  - rewrite bupd_ne by done. rewrite bool_decide_false; [done|]. intros ->. done.
Qed.

Lemma used_mark_used sb V b b' : 0 <= b -> 0 <= b' -> length (V (bitmap_block sb b)) = 512%nat ->
  used sb (mark_used sb V b) b' = bool_decide (b' = b) || used sb V b'.
Proof.
  intros. unfold mark_used. rewrite (used_mark _ true); [by case_bool_decide| |done..].
  intros c k j Hk Hj. rewrite set_bit_testbit by done. by case_bool_decide.
Qed.

Lemma used_mark_free sb V b b' : 0 <= b -> 0 <= b' -> length (V (bitmap_block sb b)) = 512%nat ->
  used sb (mark_free sb V b) b' = negb (bool_decide (b' = b)) && used sb V b'.
Proof.
  intros. unfold mark_free. rewrite (used_mark _ false); [by case_bool_decide| |done..].
  intros c k j Hk Hj. rewrite clear_bit_testbit by done. by case_bool_decide.
Qed.

(** * The block allocator *)

(** The first data block: the boot block, the superblock, the log, the inodes and the
    free map come before it. *)
Definition dstart (sb : superblock) : Z := sb_bmapstart sb + sb_size sb / BPB + 1.

Definition zeroes : list Z := replicate (Z.to_nat BSIZE) 0.

(** The layout of the disk that [mkfs] makes. *)
Record layout (N start size : Z) (sb : superblock) : Prop := {
  ly_start : 2 <= start;
  ly_lsize : 1 <= size;
  ly_inodes : start + size <= sb_inodestart sb;
  ly_ninodes : 0 <= sb_ninodes sb;
  ly_bmap : sb_inodestart sb + sb_ninodes sb / IPB + 1 <= sb_bmapstart sb;
  ly_data : dstart sb <= sb_size sb;
  ly_N : sb_size sb = N;
  ly_max : 0 <= N <= 2 ^ 31
}.

(** The blocks before the data are marked used. *)
Definition meta_used (sb : superblock) (V : Z -> list Z) : Prop :=
  forall b, 0 <= b < dstart sb -> used sb V b = true.

(** Only data blocks that are in use are locked. *)
Definition held_data (sb : superblock) (V : Z -> list Z) (H : nat -> option Z) : Prop :=
  forall h b, H h = Some b -> dstart sb <= b /\ used sb V b = true.

(** Block [b] allocated. *)
Definition alloc (sb : superblock) (V : Z -> list Z) (b : Z) : Z -> list Z :=
  bupd (mark_used sb V b) b zeroes.

Section balloc.
Context {S : Type} `{!Cache S, !CacheSpec S} {base : txn}.
Context (N start size : Z) (sb : superblock) (Hly : layout N start size sb).
Context (may : option string -> Prop).
Context (Hbuf : forall o, no_buffers o -> may o) (Hbig : may too_big).
Local Abbreviation wpf := (wp (S := fs S) may).
Local Abbreviation low := (low N start size (base := base)).

Lemma bitmap_range b : 0 <= b < N ->
  sb_bmapstart sb <= bitmap_block sb b < dstart sb /\ BBLOCK b sb = bitmap_block sb b.
Proof.
  intros Hb. destruct Hly. unfold bitmap_block, BBLOCK, dstart in *. rewrite ly_N0 in *.
  assert (0 <= b / BPB) by (apply Z.div_pos; unfold BPB, BSIZE; lia).
  assert (b / BPB <= N / BPB) by (apply Z.div_le_mono; unfold BPB, BSIZE; lia).
  assert (0 <= sb_ninodes sb / IPB) by (apply Z.div_pos; [lia|done]).
  split; [lia|]. apply u32_small. lia.
Qed.

Lemma dstart_range : 2 <= sb_bmapstart sb /\ dstart sb <= N /\ start + size <= sb_bmapstart sb /\
  sb_bmapstart sb < dstart sb.
Proof.
  destruct Hly. unfold dstart in *. assert (0 <= sb_ninodes sb / IPB) by (apply Z.div_pos; [lia|done]).
  assert (0 <= sb_size sb / BPB) by (apply Z.div_pos; [lia|done]). lia.
Qed.

Lemma home_meta b : sb_inodestart sb <= b -> home start size b.
Proof. destruct Hly. unfold home. lia. Qed.

Lemma home_data b : dstart sb <= b -> home start size b.
Proof.
  intros Hb. pose proof dstart_range. unfold home. right. unfold dstart in Hb. destruct Hly.
  assert (0 <= sb_size sb / BPB) by (apply Z.div_pos; [lia|done]). lia.
Qed.

Lemma home_bitmap b : 0 <= b < N -> home start size (bitmap_block sb b).
Proof. intros Hb. pose proof (bitmap_range b Hb). pose proof dstart_range. unfold home. lia. Qed.

Lemma free_is_data V b : meta_used sb V -> 0 <= b -> used sb V b = false -> dstart sb <= b.
Proof. intros Hm Hb Hu. destruct (Z.le_gt_cases (dstart sb) b) as [|Hlt]; [done|]. by rewrite Hm in Hu. Qed.

Lemma wp_bzero l V H ic b Q :
  low l V H -> 0 <= b < N -> home start size b -> (forall h, H h <> Some b) ->
  (forall l', low l' (bupd V b zeroes) H -> Q tt (Fs l' sb ic)) ->
  wpf (bzero ROOTDEV b) (Fs l sb ic) Q.
Proof.
  intros Hl Hb Hh Hf HQ. unfold bzero. wbind.
  eapply wp_bread; [exact Hbuf|exact Hl|done|done|]. intros h l1 Hn H1.
  eapply wp_bset_log; [exact Hbig|exact H1|apply hupd_eq|done|apply length_replicate|].
  intros l2 H2. eapply wp_brelse_last; [exact H2|done|done].
Qed.

Lemma chunk_bit b bi : b mod BPB = 0 -> 0 <= bi < BPB ->
  bitmap_byte (b + bi) = Z.to_nat (bi / 8) /\ (b + bi) mod 8 = bi mod 8 /\
  bitmap_block sb (b + bi) = b / BPB + sb_bmapstart sb.
Proof.
  unfold bitmap_byte, bitmap_block, BPB, BSIZE. change (512 * 8) with 4096. intros Hb Hbi.
  apply Z.mod_divide in Hb as [k ->]; [|done]. rewrite (Z.add_comm (k * 4096)).
  rewrite Z_mod_plus_full, Z.mod_small by lia. rewrite Z.div_add, (Z.div_small bi 4096), Z.div_mul by lia.
  replace (k * 4096) with (k * 512 * 8) by lia. rewrite Z_mod_plus_full. split_and!; lia || done.
Qed.

Lemma wp_balloc_bits l V H ic h b Q :
  low l V (hupd H h (Some (b / BPB + sb_bmapstart sb))) -> H h = None ->
  meta_used sb V -> held_data sb V H -> 0 <= b -> b mod BPB = 0 ->
  (forall x l', b <= x < N -> used sb V x = false -> (forall y, b <= y < x -> used sb V y = true) ->
     low l' (alloc sb V x) H -> Q (Some x) (Fs l' sb ic)) ->
  ((forall y, b <= y < b + BPB -> y < N -> used sb V y = true) ->
     Q None (Fs l sb ic)) ->
  forall n bi, 0 <= bi -> bi + Z.of_nat n = BPB ->
  (forall y, b <= y < b + bi -> used sb V y = true) ->
  wpf (balloc_bits ROOTDEV h b n bi) (Fs l sb ic) Q.
Proof.
  intros Hl Hn Hm Hh Hb Hmod HS HN. pose proof (ly_N _ _ _ _ Hly) as HNs.
  induction n as [|n IH]; intros bi Hbi Hsum Hall; cbn [balloc_bits].
  { apply wp_ret, HN. intros y Hy _. apply Hall. lia. }
  wbind. apply wp_gets. cbn [f_sb]. rewrite HNs. destruct (Z.ltb_spec (b + bi) N) as [Hlt|Hge].
  2: { apply wp_ret, HN. intros y Hy HyN. apply Hall. lia. }
  destruct (chunk_bit b bi Hmod ltac:(lia)) as (Hbyte & Hbit & Hblk).
  assert (0 <= b + bi < N) as Hr by lia.
  pose proof (bitmap_range _ Hr) as [Hbr _]. pose proof dstart_range as (Hbm & Hds & _).
  assert (length (V (bitmap_block sb (b + bi))) = 512%nat) as Hlen
    by (eapply low_block_size; [exact Hl|]; lia).
  wbind. eapply wp_bdata; [exact Hl|apply hupd_eq|]. rewrite <- Hblk.
  wbind. eapply (wp_run _ _ _ (nth (bitmap_byte (b + bi)) (V (bitmap_block sb (b + bi))) 0)).
  { unfold byte_at. rewrite <- Hbyte. destruct (lookup_lt_is_Some_2 (V (bitmap_block sb (b + bi)))
      (bitmap_byte (b + bi))) as [v Hv]; [rewrite Hlen; apply bitmap_byte_lt; lia|].
    rewrite Hv. by rewrite (nth_lookup_Some _ _ _ _ Hv). }
  rewrite <- Hbit, <- Hbyte. rewrite land_bit by (apply Z.mod_pos_bound; lia).
  fold (used sb V (b + bi)). destruct (used sb V (b + bi)) eqn:Hu; cbn [negb].
  - apply IH; [lia|lia|]. intros y Hy. destruct (decide (y = b + bi)) as [->|]; [done|]. apply Hall. lia.
  - assert (dstart sb <= b + bi) as Hd by (by apply (free_is_data V); try lia).
    pose proof Hl as Hl'. rewrite <- Hblk in Hl'.
    eapply wp_bset_log; [exact Hbig|exact Hl'|apply hupd_eq|by apply home_bitmap
      |by rewrite length_insert|].
    intros l1 H1. wbind. eapply wp_brelse_last; [exact H1|done|].
    intros l2 H2. wbind. eapply wp_bzero; [exact H2|lia|by apply home_data| |].
    { intros h' Hh'. apply Hh in Hh' as [_ Hh']. congruence. }
    intros l3 H3. apply wp_ret. apply HS; [lia|done|intros y Hy; apply Hall; lia|exact H3].
Qed.

Lemma wp_balloc_loop H ic Q V :
  meta_used sb V -> held_data sb V H ->
  (forall x l', dstart sb <= x < N -> used sb V x = false ->
     (forall y, 0 <= y < x -> used sb V y = true) -> low l' (alloc sb V x) H -> Q x (Fs l' sb ic)) ->
  ((forall y, 0 <= y < N -> used sb V y = true) -> may (Some "balloc: out of blocks")) ->
  forall fuel b l, low l V H -> 0 <= b < N + BPB -> b mod BPB = 0 ->
  N + BPB <= b + Z.of_nat fuel * BPB ->
  (forall y, 0 <= y < b -> y < N -> used sb V y = true) ->
  wpf (balloc_loop ROOTDEV fuel b) (Fs l sb ic) Q.
Proof.
  intros Hm Hh HQ Hout. pose proof (ly_N _ _ _ _ Hly) as HNs.
  induction fuel as [|fuel IH]; intros b l Hl Hb Hmod Hfuel Hall; [lia|]. cbn [balloc_loop].
  wbind. apply wp_gets. cbn [f_sb]. rewrite HNs. destruct (Z.ltb_spec b N) as [Hlt|Hge].
  2: { apply Hout. intros y Hy. apply Hall; lia. }
  assert (0 <= b < N) as Hr by lia.
  pose proof (bitmap_range b Hr) as [Hbr ->]. pose proof dstart_range as (Hbm & Hds & _).
  wbind. eapply wp_bread; [exact Hbuf|exact Hl|lia|intros h Hx%Hh; lia|].
  intros h l1 Hn H1. wbind.
  eapply (wp_balloc_bits l1 V H ic h b); [exact H1|done|done|done|lia|done| | |lia|reflexivity|lia].
  - intros x l2 Hx Hu Hy H2. apply wp_ret. apply HQ; [|done| |done].
    + split; [|lia]. apply (free_is_data V); [done|lia|done].
    + intros y Hy'. destruct (Z.le_gt_cases b y); [apply Hy; lia|apply Hall; lia].
  - intros Hy. cbv beta iota. wbind. eapply wp_brelse_last; [exact H1|done|]. intros l2 H2.
    apply IH; [done|unfold BPB, BSIZE in *; lia| |lia|].
    + unfold BPB, BSIZE in *. change (512 * 8) with 4096 in *.
      by rewrite Z.add_mod, Hmod, Z.mod_same by lia.
    + intros y Hy1 Hy2. destruct (Z.le_gt_cases b y); [apply Hy; lia|apply Hall; lia].
Qed.

Lemma wp_balloc l V H ic Q :
  low l V H -> meta_used sb V -> held_data sb V H ->
  (forall x l', dstart sb <= x < N -> used sb V x = false ->
     (forall y, 0 <= y < x -> used sb V y = true) -> low l' (alloc sb V x) H -> Q x (Fs l' sb ic)) ->
  ((forall y, 0 <= y < N -> used sb V y = true) -> may (Some "balloc: out of blocks")) ->
  wpf (balloc ROOTDEV) (Fs l sb ic) Q.
Proof.
  intros Hl Hm Hh HQ Hout. unfold balloc. wbind. apply wp_gets. cbn [f_sb].
  pose proof (ly_max _ _ _ _ Hly). rewrite (ly_N _ _ _ _ Hly).
  eapply wp_balloc_loop; [done|done|done|done|done| |done| |].
  - unfold BPB, BSIZE. lia.
  - unfold BPB, BSIZE. change (512 * 8) with 4096. pose proof (Z.div_mod N 4096). pose proof (Z.mod_pos_bound N 4096).
    pose proof (Z.div_pos N 4096). lia.
  - intros y Hy. lia.
Qed.

Lemma wp_bfree l V H ic b Q :
  low l V H -> held_data sb V H -> 0 <= b < N ->
  (used sb V b = true -> forall l', low l' (mark_free sb V b) H -> Q tt (Fs l' sb ic)) ->
  (used sb V b = false -> may (Some "freeing free block")) ->
  wpf (bfree ROOTDEV b) (Fs l sb ic) Q.
Proof.
  intros Hl Hh Hb HQ Hp. unfold bfree. wbind. apply wp_gets. cbn [f_sb].
  pose proof (bitmap_range b Hb) as [Hbr ->]. pose proof dstart_range as (Hbm & Hds & _).
  wbind. eapply wp_bread; [exact Hbuf|exact Hl|lia|intros h Hx%Hh; lia|]. intros h l1 Hn H1.
  assert (length (V (bitmap_block sb b)) = 512%nat) as Hlen by (eapply low_block_size; [exact Hl|]; lia).
  wbind. eapply wp_bdata; [exact H1|apply hupd_eq|].
  assert (b mod BPB mod 8 = b mod 8) as ->.
  { apply Z.mod_mod_divide. by exists 512. }
  wbind. eapply (wp_run _ _ _ (nth (bitmap_byte b) (V (bitmap_block sb b)) 0)).
  { unfold byte_at. fold (bitmap_byte b).
    destruct (lookup_lt_is_Some_2 (V (bitmap_block sb b)) (bitmap_byte b)) as [v Hv];
      [rewrite Hlen; apply bitmap_byte_lt; lia|].
    rewrite Hv. by rewrite (nth_lookup_Some _ _ _ _ Hv). }
  rewrite land_bit by (apply Z.mod_pos_bound; lia). fold (used sb V b). fold (bitmap_byte b).
  destruct (used sb V b) eqn:Hu; cbn [negb]; [|by apply Hp].
  eapply wp_bset_log; [exact Hbig|exact H1|apply hupd_eq|by apply home_bitmap|by rewrite length_insert|].
  intros l2 H2. eapply wp_brelse_last; [exact H2|done|]. auto.
Qed.
End balloc.
