(* ===== verification/FsFile.v ===== *)
(** [fs.c]: the blocks of a file. [bmap] as a map from block indices to disk blocks,
    [readi] and [writei] as reads and writes of one list of bytes, and the copy of the
    inode on the disk. *)

From S2P Require Import Prelude CString Sleeplock Cache Log LogSpec LogRes Fs FsSpec.

(** * The inode on the disk *)

Definition s16_ok (x : Z) : Prop := - 2 ^ 15 <= x < 2 ^ 15.
Definition u32_ok (x : Z) : Prop := 0 <= x < 2 ^ 32.

(** An inode whose fields have values of their C types. *)
Record inode_typed (i : inode) : Prop := {
  it_type : s16_ok (i_type i);
  it_major : s16_ok (i_major i);
  it_minor : s16_ok (i_minor i);
  it_nlink : s16_ok (i_nlink i);
  it_size : u32_ok (i_size i);
  it_addrs : length (i_addrs i) = 13%nat;
  it_addr a : a ∈ i_addrs i -> u32_ok a
}.

Lemma s16_mod x : s16_ok x -> s16 (x mod 256 ^ Z.of_nat 2) = x.
Proof.
  intros Hx. unfold s16, u16, s16_ok in *. change (256 ^ Z.of_nat 2) with (2 ^ 16).
  rewrite Z.mod_mod by lia. change (2 ^ 15) with 32768 in *. change (2 ^ 16) with 65536 in *.
  destruct (Z.ltb_spec (x mod 65536) 32768) as [H|H].
  - pose proof (Z.div_mod x 65536). pose proof (Z.mod_pos_bound x 65536).
    assert (x / 65536 = 0 \/ x / 65536 = -1) by lia. lia.
  - pose proof (Z.div_mod x 65536). pose proof (Z.mod_pos_bound x 65536).
    assert (x / 65536 = 0 \/ x / 65536 = -1) by lia. lia.
Qed.

Lemma length_concat_bytes l : length (concat (le_bytes 4 <$> l)) = (4 * length l)%nat.
Proof. induction l as [|x l IH]; [done|]. cbn [fmap list_fmap concat]. rewrite length_app, IH, length_le_bytes. cbn. lia. Qed.

Lemma concat_bytes_slice l j x : l !! j = Some x ->
  take 4 (drop (4 * j) (concat (le_bytes 4 <$> l))) = le_bytes 4 x.
Proof.
  revert j. induction l as [|y l IH]; intros [|j] Hj; cbn in Hj; simplify_eq.
  - cbn [fmap list_fmap concat]. rewrite drop_0. rewrite <- (length_le_bytes 4 x) at 1.
    apply take_app_length.
  - replace (4 * Datatypes.S j)%nat with (4 + 4 * j)%nat by lia. rewrite <- (IH j Hj).
    cbn [fmap list_fmap concat]. rewrite drop_app_ge by (rewrite length_le_bytes; lia).
    rewrite length_le_bytes. f_equal. f_equal. lia.
Qed.

Lemma drop_splice_in {A} (l d : list A) off k n : (off + length d <= length l)%nat ->
  (k + n <= length d)%nat -> take n (drop (off + k) (splice l off d)) = take n (drop k d).
Proof.
  intros H Hk. apply list_eq. intros i. destruct (decide (i < n)%nat) as [Hi|Hi].
  - rewrite !lookup_take_lt, !lookup_drop by lia. rewrite splice_lookup_in by lia. f_equal. lia.
  - by rewrite !lookup_take_ge by lia.
Qed.

Lemma length_put_dinode d off i : length (i_addrs i) = 13%nat -> (off + 64 <= length d)%nat ->
  length (put_dinode d off i) = length d.
Proof.
  intros Ha Hd. unfold put_dinode.
  repeat first [rewrite length_splice | rewrite length_putn | rewrite length_concat_bytes]; lia.
Qed.

(** What [iupdate] stores is what [ilock] reads back. *)
Lemma get_put_dinode d off i : inode_typed i -> (off + 64 <= length d)%nat ->
  get_dinode (put_dinode d off i) off i = i.
Proof.
  intros [] Hd. unfold get_dinode, put_dinode, dinode_type.
  set (d1 := putn 2 d off (i_type i)). set (d2 := putn 2 d1 (off + 2) (i_major i)).
  set (d3 := putn 2 d2 (off + 4) (i_minor i)). set (d4 := putn 2 d3 (off + 6) (i_nlink i)).
  set (d5 := putn 4 d4 (off + 8) (i_size i)). set (ab := concat (le_bytes 4 <$> i_addrs i)).
  assert (length ab = 52%nat) as Hab by (unfold ab; rewrite length_concat_bytes; lia).
  assert (length d1 = length d) as H1 by (apply length_putn; lia).
  assert (length d2 = length d) as H2 by (rewrite <- H1; apply length_putn; lia).
  assert (length d3 = length d) as H3 by (rewrite <- H2; apply length_putn; lia).
  assert (length d4 = length d) as H4 by (rewrite <- H3; apply length_putn; lia).
  assert (length d5 = length d) as H5 by (rewrite <- H4; apply length_putn; lia).
  assert (forall n o, (o + n <= off + 12)%nat -> getn n (splice d5 (off + 12) ab) o = getn n d5 o) as Hs.
  { intros n o Ho. unfold getn. by rewrite slice_splice_out by lia. }
  rewrite !Hs by lia. unfold d5. rewrite (getn_putn_eq 4) by lia.
  rewrite !(getn_putn_ne 4 2) by lia. unfold d4. rewrite (getn_putn_eq 2 d3) by lia.
  rewrite !(getn_putn_ne 2 2 d3) by lia. unfold d3. rewrite (getn_putn_eq 2 d2) by lia.
  rewrite !(getn_putn_ne 2 2 d2) by lia. unfold d2. rewrite (getn_putn_eq 2 d1) by lia.
  rewrite !(getn_putn_ne 2 2 d1) by lia. unfold d1. rewrite (getn_putn_eq 2 d) by lia.
  rewrite !s16_mod, Z.mod_small by done.
  assert ((fun j => getn 4 (splice d5 (off + 12) ab) (off + 12 + 4 * j)) <$> seq 0 13 = i_addrs i) as Ha.
  { apply list_eq. intros j. rewrite list_lookup_fmap. destruct (i_addrs i !! j) as [a|] eqn:Hj.
    - pose proof (lookup_lt_Some _ _ _ Hj). rewrite lookup_seq_lt by lia. cbn [fmap option_fmap option_map].
      f_equal. rewrite Nat.add_0_l. unfold getn. rewrite drop_splice_in by lia. unfold ab. rewrite (concat_bytes_slice _ _ a Hj).
      rewrite le_word_bytes, Z.mod_mod by lia. apply Z.mod_small, it_addr0. by eapply list_elem_of_lookup_2.
    - apply lookup_ge_None in Hj. by rewrite lookup_seq_ge by lia. }
  unfold d5, d4, d3, d2, d1 in Ha. rewrite Ha. by destruct i.
Qed.

(** * The block map *)

(** The block addresses an inode reaches: slots 0-11 are the direct blocks, 12 is the
    indirect block and 13-140 are the entries of the indirect block. *)
Definition slot (V : Z -> list Z) (a : list Z) (k : nat) : Z :=
  if (k <? 13)%nat then nth k a 0
  else if nth 12 a 0 =? 0 then 0 else getn 4 (V (nth 12 a 0)) (4 * (k - 13)).

(** The slot of block [bn] of the file. *)
Definition sidx (bn : nat) : nat := if (bn <? 12)%nat then bn else Datatypes.S bn.

Lemma slot_direct V a k : (k < 13)%nat -> slot V a k = nth k a 0.
Proof. intros Hk. unfold slot. by rewrite (proj2 (Nat.ltb_lt _ _)). Qed.

Lemma slot_indirect V a k : (13 <= k)%nat -> nth 12 a 0 <> 0 ->
  slot V a k = getn 4 (V (nth 12 a 0)) (4 * (k - 13)).
Proof. intros Hk H0. unfold slot. rewrite (proj2 (Nat.ltb_ge _ _)), (proj2 (Z.eqb_neq _ _)) by done. done. Qed.

Lemma slot_none V a k : (13 <= k)%nat -> nth 12 a 0 = 0 -> slot V a k = 0.
Proof. intros Hk H0. unfold slot. by rewrite (proj2 (Nat.ltb_ge _ _)), H0. Qed.

Lemma sidx_ne12 bn : sidx bn <> 12%nat.
Proof. unfold sidx. destruct (Nat.ltb_spec bn 12); lia. Qed.
Lemma sidx_inj bn bn' : sidx bn = sidx bn' -> bn = bn'.
Proof. unfold sidx. destruct (Nat.ltb_spec bn 12), (Nat.ltb_spec bn' 12); lia. Qed.
Lemma sidx_lt bn : (bn < 140)%nat -> (sidx bn < 141)%nat.
Proof. unfold sidx. destruct (Nat.ltb_spec bn 12); lia. Qed.

Lemma nth_insert_eq (a : list Z) k x : (k < length a)%nat -> nth k (<[k := x]> a) 0 = x.
Proof. intros Hk. apply nth_lookup_Some. by apply list_lookup_insert_eq. Qed.
Lemma nth_insert_ne (a : list Z) k k' x : k <> k' -> nth k' (<[k := x]> a) 0 = nth k' a 0.
Proof. intros Hk. rewrite !nth_lookup. by rewrite list_lookup_insert_ne. Qed.

Lemma le_word_zero l : (forall x, x ∈ l -> x = 0) -> le_word l = 0.
Proof.
  induction l as [|x l IH]; intros H; [done|]. cbn [le_word].
  rewrite IH by (intros y Hy; apply H; by right). rewrite (H x) by by left. done.
Qed.

Lemma getn_zeroes n off : getn n zeroes off = 0.
Proof.
  unfold getn. rewrite le_word_zero; [apply Z.mod_0_l, Z.pow_nonzero; lia|].
  intros x [i Hi]%list_elem_of_lookup. apply lookup_take_Some in Hi as [Hi _].
  rewrite lookup_drop in Hi. unfold zeroes in Hi. by apply lookup_replicate in Hi as [-> _].
Qed.

Section map.
Context (N start size : Z) (sb : superblock) (Hly : layout N start size sb).

(** The slots in use are different data blocks, marked used. *)
Record map_ok (V : Z -> list Z) (a : list Z) : Prop := {
  mo_len : length a = 13%nat;
  mo_used k : (k < 141)%nat -> slot V a k <> 0 ->
    dstart sb <= slot V a k < N /\ used sb V (slot V a k) = true;
  mo_inj k k' : (k < 141)%nat -> (k' < 141)%nat -> slot V a k <> 0 ->
    slot V a k = slot V a k' -> k = k'
}.

(** From [V] and [a] to [V'] and [a'], slot [k] gets the fresh zeroed block [x]. *)
Record grow (V : Z -> list Z) (a : list Z) (V' : Z -> list Z) (a' : list Z) (k : nat) (x : Z)
    : Prop := {
  gr_len : length a' = 13%nat;
  gr_new : slot V' a' k = x;
  gr_slot k' : (k' < 141)%nat -> k' <> k -> slot V' a' k' = slot V a k';
  gr_fresh : dstart sb <= x < N /\ used sb V x = false;
  gr_used y : 0 <= y < N -> used sb V' y = bool_decide (y = x) || used sb V y;
  gr_zero : V' x = zeroes;
  gr_frame y : y < sb_bmapstart sb \/ dstart sb <= y -> y <> x ->
    (13 <= k)%nat /\ y = nth 12 a 0 /\ nth 12 a 0 <> 0 \/ V' y = V y;
  gr_size y : 0 <= y < N -> length (V' y) = 512%nat
}.

(** Views in which every block has its size. *)
Definition sized (V : Z -> list Z) : Prop := forall b, 0 <= b < N -> length (V b) = 512%nat.

Lemma alloc_other V x y : 0 <= x < N -> y < sb_bmapstart sb \/ dstart sb <= y -> y <> x ->
  alloc sb V x y = V y.
Proof.
  intros Hx Hy Hne. unfold alloc, mark_used, mark. rewrite bupd_ne by done. apply bupd_ne.
  pose proof (bitmap_range N start size sb Hly x Hx). lia.
Qed.

Lemma used_bupd V b d y : 0 <= y < N -> dstart sb <= b -> used sb (bupd V b d) y = used sb V y.
Proof.
  intros Hy Hb. unfold used. rewrite bupd_ne; [done|].
  pose proof (bitmap_range N start size sb Hly y Hy). lia.
Qed.

Lemma alloc_used V x y : sized V -> dstart sb <= x < N -> 0 <= y < N ->
  used sb (alloc sb V x) y = bool_decide (y = x) || used sb V y.
Proof.
  intros Hs Hx Hy. pose proof (dstart_range N start size sb Hly). unfold alloc.
  rewrite used_bupd by lia. apply used_mark_used; [lia|lia|]. apply Hs.
  pose proof (bitmap_range N start size sb Hly x ltac:(lia)). lia.
Qed.

Lemma alloc_sized V x : sized V -> 0 <= x < N -> sized (alloc sb V x).
Proof.
  intros Hs Hx b Hb. unfold alloc, mark_used, mark, bupd. repeat case_decide; [done| |by apply Hs].
  rewrite length_insert. apply Hs. pose proof (bitmap_range N start size sb Hly x Hx).
  pose proof (dstart_range N start size sb Hly). lia.
Qed.

Lemma alloc_meta V x : sized V -> dstart sb <= x < N -> meta_used sb V -> meta_used sb (alloc sb V x).
Proof.
  intros Hs Hx Hm b Hb. pose proof (dstart_range N start size sb Hly).
  rewrite alloc_used by (done || lia). rewrite Hm by done. apply orb_true_r.
Qed.

Lemma map_ok_indirect V a : map_ok V a -> nth 12 a 0 <> 0 ->
  dstart sb <= nth 12 a 0 < N /\ used sb V (nth 12 a 0) = true.
Proof. intros Hm H0. rewrite <- (slot_direct V) in * by lia. apply (mo_used V a Hm 12); [lia|done]. Qed.

(** A direct slot, or the slot of the indirect block. *)
Lemma grow_direct V a k x : sized V -> map_ok V a -> (k < 13)%nat -> nth k a 0 = 0 ->
  dstart sb <= x < N -> used sb V x = false -> grow V a (alloc sb V x) (<[k := x]> a) k x.
Proof.
  intros Hs Hm Hk Hz Hx Hu. pose proof (dstart_range N start size sb Hly).
  pose proof (mo_len _ _ Hm) as Hlen. split.
  - by rewrite length_insert.
  - rewrite slot_direct by done. apply nth_insert_eq. lia.
  - intros k' Hk' Hne. destruct (decide (k' < 13)%nat).
    { rewrite !slot_direct by done. by apply nth_insert_ne. }
    destruct (decide (k = 12%nat)) as [->|Hk12].
    + rewrite slot_indirect by (rewrite ?nth_insert_eq; lia). rewrite nth_insert_eq by lia.
      unfold alloc. rewrite bupd_eq, getn_zeroes. symmetry. apply slot_none; [lia|done].
    + destruct (decide (nth 12 a 0 = 0)) as [H0|H0].
      { rewrite !slot_none; [done|lia|done|lia|]. by rewrite nth_insert_ne. }
      rewrite !slot_indirect by (rewrite ?nth_insert_ne; lia || done). rewrite nth_insert_ne by done.
      destruct (map_ok_indirect V a Hm H0) as [Hr Hu'].
      rewrite alloc_other; [done|lia|lia|]. intros He. congruence.
  - done.
  - intros y Hy. by apply alloc_used.
  - unfold alloc. apply bupd_eq.
  - intros y Hy Hne. right. apply alloc_other; [lia|done|done].
  - apply alloc_sized; [done|lia].
Qed.

(** An entry of the indirect block. *)
Lemma grow_indirect V a k x : sized V -> map_ok V a -> (13 <= k < 141)%nat -> nth 12 a 0 <> 0 ->
  slot V a k = 0 -> dstart sb <= x < N -> used sb V x = false ->
  grow V a (bupd (alloc sb V x) (nth 12 a 0) (putn 4 (V (nth 12 a 0)) (4 * (k - 13)) x)) a k x.
Proof.
  intros Hs Hm Hk H0 Hz Hx Hu. pose proof (dstart_range N start size sb Hly) as (Hd1 & Hd2 & Hd3).
  pose proof (mo_len _ _ Hm) as Hlen. destruct (map_ok_indirect V a Hm H0) as [Hr Hu'].
  assert (nth 12 a 0 <> x) as Hne by congruence.
  assert (length (V (nth 12 a 0)) = 512%nat) as Hl by (apply Hs; lia).
  pose proof (ly_max _ _ _ _ Hly). split.
  - done.
  - rewrite slot_indirect by (done || lia). rewrite bupd_eq, getn_putn_eq by lia.
    apply Z.mod_small. change (256 ^ Z.of_nat 4) with (2 ^ 32). lia.
  - intros k' Hk' Hnek. destruct (decide (k' < 13)%nat); [by rewrite !slot_direct by done|].
    rewrite !slot_indirect by (done || lia). rewrite bupd_eq, getn_putn_ne by lia. done.
  - done.
  - intros y Hy. rewrite used_bupd by lia. by apply alloc_used.
  - rewrite bupd_ne by done. unfold alloc. apply bupd_eq.
  - intros y Hy Hney. destruct (decide (y = nth 12 a 0)) as [->|]; [left; split_and!; [lia|done|done]|right].
    rewrite bupd_ne by done. apply alloc_other; [lia|done|done].
  - intros y Hy. unfold bupd at 1. case_decide; [rewrite length_putn; lia|]. apply alloc_sized; [done|lia|done].
Qed.

Lemma grow_map_ok V a V' a' k x : (k < 141)%nat -> map_ok V a -> slot V a k = 0 ->
  grow V a V' a' k x -> map_ok V' a'.
Proof.
  intros Hk Hm Hz Hg. pose proof (dstart_range N start size sb Hly). destruct Hg. split; [done| |].
  - intros k' Hk' Hnz. destruct (decide (k' = k)) as [->|Hne].
    + rewrite gr_new0 in *. split; [tauto|]. rewrite gr_used0 by lia. by rewrite bool_decide_true.
    + rewrite gr_slot0 in * by done. destruct (mo_used V a Hm k' Hk' Hnz) as [Hr Hu]. split; [done|].
      rewrite gr_used0 by lia. rewrite Hu. apply orb_true_r.
  - assert (forall j, (j < 141)%nat -> j <> k -> slot V a j <> x) as Hx.
    { intros j Hj Hne He. destruct gr_fresh0 as [Hr Hu].
      destruct (mo_used V a Hm j Hj) as [_ Hu']; [lia|]. congruence. }
    intros j j' Hj Hj' Hnz He. destruct (decide (j = k)) as [->|Hne], (decide (j' = k)) as [->|Hne'].
    + done.
    + rewrite gr_new0, gr_slot0 in He by done. exfalso. by apply (Hx j').
    + rewrite gr_new0, gr_slot0 in He by done. exfalso. by apply (Hx j).
    + rewrite !gr_slot0 in * by done. by apply (mo_inj V a Hm).
Qed.
End map.

Definition with_addrs (a : list Z) (i : inode) : inode :=
  Inode (i_dev i) (i_inum i) (i_ref i) (i_lock i) (i_valid i) (i_type i) (i_major i) (i_minor i)
    (i_nlink i) (i_size i) a.

Lemma with_addrs_id i : with_addrs (i_addrs i) i = i.
Proof. by destruct i. Qed.

(** * [bmap] *)

Section bmap.
Context {S : Type} `{!Cache S, !CacheSpec S} {base : txn}.
Context (N start size : Z) (sb : superblock) (Hly : layout N start size sb).
Context (may : option string -> Prop).
Context (Hbuf : forall o, no_buffers o -> may o) (Hbig : may too_big).
Context (Hfull : may (Some "balloc: out of blocks")).
Local Abbreviation wpf := (wp (S := fs S) may).
Local Abbreviation low := (low N start size (base := base)).

Lemma wp_get_i (l : lst S) ic ip i Q : ic !! ip = Some i -> Q i (Fs l sb ic) ->
  wpf (get_i ip) (Fs l sb ic) Q.
Proof. intros Hi HQ. eapply wp_run; [|exact HQ]. unfold get_i. cbn. by rewrite Hi. Qed.

Lemma wp_upd_i (l : lst S) ic ip i f Q : ic !! ip = Some i ->
  Q tt (Fs l sb (<[ip := f i]> ic)) -> wpf (upd_i ip f) (Fs l sb ic) Q.
Proof. intros Hi HQ. eapply wp_run; [|exact HQ]. unfold upd_i. cbn. by rewrite Hi. Qed.

Lemma wp_addr_at (l : lst S) ic ip i k Q : ic !! ip = Some i -> (k < length (i_addrs i))%nat ->
  Q (nth k (i_addrs i) 0) (Fs l sb ic) -> wpf (addr_at ip k) (Fs l sb ic) Q.
Proof.
  intros Hi Hk HQ. eapply wp_run; [|exact HQ]. unfold addr_at, bind, get_i. cbn. rewrite Hi.
  destruct (lookup_lt_is_Some_2 _ _ Hk) as [v Hv]. rewrite Hv. by rewrite (nth_lookup_Some _ _ _ _ Hv).
Qed.

Lemma low_sized l V H : low l V H -> sized N V.
Proof. intros Hl b Hb. by eapply low_block_size. Qed.

(** The block is there. *)
Lemma wp_bmap_hit l V H ic ip i bn Q :
  low l V H -> (forall h, H h = None) -> ic !! ip = Some i -> i_dev i = ROOTDEV ->
  map_ok N sb V (i_addrs i) -> (bn < 140)%nat -> slot V (i_addrs i) (sidx bn) <> 0 ->
  (forall l', low l' V H -> Q (slot V (i_addrs i) (sidx bn)) (Fs l' sb ic)) ->
  wpf (bmap ip (Z.of_nat bn)) (Fs l sb ic) Q.
Proof.
  intros Hl HH Hi Hdev Hm Hbn Hnz HQ. pose proof (mo_len _ _ _ _ Hm) as Hlen.
  pose proof (dstart_range N start size sb Hly).
  unfold bmap. wbind. eapply wp_get_i; [exact Hi|]. unfold sidx in *. unfold NDIRECT.
  destruct (Nat.ltb_spec bn 12) as [Hd|Hd].
  - rewrite (proj2 (Z.ltb_lt _ _)) by lia. rewrite slot_direct in * by lia.
    wbind. eapply wp_addr_at; [exact Hi|rewrite Nat2Z.id; lia|]. rewrite Nat2Z.id.
    rewrite (proj2 (Z.eqb_neq _ _)) by done. apply wp_ret. auto.
  - rewrite (proj2 (Z.ltb_ge _ _)) by lia. unfold NINDIRECT, BSIZE. change (512 / 4) with 128.
    rewrite (proj2 (Z.ltb_lt _ _)) by lia.
    assert (nth 12 (i_addrs i) 0 <> 0) as H12.
    { intros Hz. rewrite slot_none in Hnz by (done || lia). done. }
    destruct (map_ok_indirect N sb V _ Hm H12) as [Hr _].
    rewrite slot_indirect in * by (done || lia).
    replace (Datatypes.S bn - 13)%nat with (bn - 12)%nat in * by lia.
    wbind. eapply wp_addr_at; [exact Hi|lia|]. change (Z.to_nat 12) with 12%nat. wbind.
    rewrite (proj2 (Z.eqb_neq _ _)) by done. apply wp_ret. wbind. rewrite Hdev.
    eapply wp_bread; [exact Hbuf|exact Hl|lia|by intros h; rewrite HH|]. intros h l1 Hn H1.
    wbind. eapply wp_bdata; [exact H1|apply hupd_eq|].
    replace (Z.to_nat (Z.of_nat bn - 12)) with (bn - 12)%nat by lia.
    wbind. rewrite (proj2 (Z.eqb_neq _ _)) by done. apply wp_ret.
    wbind. eapply wp_brelse_last; [exact H1|done|]. intros l2 H2. apply wp_ret. auto.
Qed.

(** What [bmap] does to a file that lacks the block of slot [k]: it gets the fresh
    zeroed block [x]; only the indirect block can change otherwise. *)
Record extends (V : Z -> list Z) (a : list Z) (V' : Z -> list Z) (a' : list Z) (k : nat) (x : Z)
    : Prop := {
  ex_map : map_ok N sb V' a';
  ex_new : slot V' a' k = x;
  ex_slot k' : (k' < 141)%nat -> k' <> k -> k' <> 12%nat -> slot V' a' k' = slot V a k';
  ex_fresh : dstart sb <= x < N /\ used sb V x = false;
  ex_used y : 0 <= y < N -> used sb V y = true -> used sb V' y = true;
  ex_zero : V' x = zeroes;
  ex_frame y : y < sb_bmapstart sb \/ dstart sb <= y < N /\ used sb V y = true ->
    y <> nth 12 a 0 \/ nth 12 a 0 = 0 -> V' y = V y;
  ex_ind : slot V' a' 12 = slot V a 12 \/ used sb V (slot V' a' 12) = false
}.

Lemma grow_extends V a V' a' k x : (k < 141)%nat -> map_ok N sb V a -> slot V a k = 0 ->
  grow N sb V a V' a' k x -> extends V a V' a' k x.
Proof.
  intros Hk Hm Hz Hg. pose proof (grow_map_ok _ _ _ _ Hly _ _ _ _ _ _ Hk Hm Hz Hg) as Hm'.
  pose proof (dstart_range N start size sb Hly). destruct Hg. split; try done.
  - intros k' Hk' Hne _. auto.
  - intros y Hy Hu. rewrite gr_used0, Hu by done. apply orb_true_r.
  - intros y Hy Hne. destruct gr_fresh0 as [Hr Hu].
    destruct (gr_frame0 y) as [(_ & -> & Hnz)|He]; [lia| |naive_solver|done].
    destruct Hy as [|[_ Hy]]; [lia|congruence].
  - destruct (decide (12%nat = k)) as [<-|]; [right; rewrite gr_new0; tauto|left; apply gr_slot0; lia].
Qed.

(** The indirect block is allocated first. *)
Lemma grow2_extends V a V1 a1 V2 a2 k y x : (13 <= k < 141)%nat -> map_ok N sb V a -> nth 12 a 0 = 0 ->
  grow N sb V a V1 a1 12 y -> slot V1 a1 k = 0 -> grow N sb V1 a1 V2 a2 k x -> extends V a V2 a2 k x.
Proof.
  intros Hk Hm Hz Hg1 Hz1 Hg2. pose proof (dstart_range N start size sb Hly).
  assert (map_ok N sb V1 a1) as Hm1.
  { eapply (grow_map_ok N start size sb Hly V a V1 a1 12); [lia|done|rewrite slot_direct; [done|lia]|done]. }
  pose proof (grow_extends V1 a1 V2 a2 k x ltac:(lia) Hm1 Hz1 Hg2) as [].
  destruct Hg1 as [_ Hn1 Hs1 [Hr1 Hf1] Hu1 _ Hfr1 _]. rewrite slot_direct in Hn1 by lia.
  assert (forall z, z < sb_bmapstart sb \/ dstart sb <= z < N /\ used sb V z = true -> z <> y) as Hzy.
  { intros z [Hz'|[_ Hz']]; [lia|congruence]. }
  split; try done.
  - intros k' Hk' Hne H12. rewrite ex_slot0, Hs1 by done. done.
  - destruct ex_fresh0 as [Hr Hu]. split; [done|]. rewrite Hu1 in Hu by lia. apply orb_false_iff in Hu. tauto.
  - intros z Hz' Hu. apply ex_used0; [done|]. rewrite Hu1, Hu by done. apply orb_true_r.
  - intros z Hz' Hne. pose proof (Hzy z Hz') as Hzn. rewrite ex_frame0.
    + destruct (Hfr1 z) as [(? & _)|?]; [lia|done|lia|done].
    + destruct Hz' as [|[Hr Hu]]; [by left|right]. split; [done|]. rewrite Hu1, Hu by lia. apply orb_true_r.
    + left. by rewrite Hn1.
  - right. rewrite (gr_slot _ _ _ _ _ _ _ _ Hg2) by lia. rewrite slot_direct by lia. by rewrite Hn1.
Qed.

(** The entry of the indirect block [ind] is empty. *)
Lemma wp_bmap_entry l V H ic a j ind Q :
  low l V H -> (forall h, H h = None) -> meta_used sb V -> map_ok N sb V a -> (j < 128)%nat ->
  nth 12 a 0 = ind -> ind <> 0 -> slot V a (13 + j) = 0 ->
  (forall l' V' x, low l' V' H -> meta_used sb V' -> grow N sb V a V' a (13 + j) x ->
     Q x (Fs l' sb ic)) ->
  wpf (let* bp := on_buf (bread ROOTDEV ind) in
       let* d := on_buf (bdata bp) in
       let* addr :=
         (if getn 4 d (4 * j) =? 0 then
            let* addr := balloc ROOTDEV in
            on_buf (bset bp (putn 4 d (4 * j) addr)) ;;;
            on_low (log_write bp) ;;;
            ret addr
          else ret (getn 4 d (4 * j))) in
       on_buf (brelse bp) ;;;
       ret addr) (Fs l sb ic) Q.
Proof.
  intros Hl HH Hmeta Hm Hj Hind Hnz Hz HQ. pose proof (low_sized l V H Hl) as Hs. subst ind.
  pose proof (dstart_range N start size sb Hly). destruct (map_ok_indirect N sb V a Hm Hnz) as [Hr Hu].
  pose proof Hz as Hz'. rewrite slot_indirect in Hz' by (done || lia).
  replace (13 + j - 13)%nat with j in Hz' by lia.
  wbind. eapply wp_bread; [exact Hbuf|exact Hl|lia|by intros h; rewrite HH|]. intros h l1 Hn H1.
  wbind. eapply wp_bdata; [exact H1|apply hupd_eq|]. rewrite Hz'. cbn [Z.eqb].
  wbind. eapply wp_balloc; [done|done|done|exact H1|done| | |done].
  { intros h' b. unfold hupd. case_decide; [|by rewrite HH]. intros [= <-]. split; [lia|done]. }
  intros x l2 Hx Hux _ H2. eapply wp_bset_log; [exact Hbig|exact H2|apply hupd_eq| | |].
  { apply (home_data N start size sb Hly). lia. }
  { rewrite length_putn; rewrite Hs; lia. }
  intros l3 H3. apply wp_ret. wbind. eapply wp_brelse_last; [exact H3|done|]. intros l4 H4. apply wp_ret.
  eapply HQ; [exact H4| |].
  - intros b Hb. rewrite (used_bupd N start size sb Hly) by lia. by apply (alloc_meta N start size sb Hly V x Hs).
  - pose proof (grow_indirect N start size sb Hly V a (13 + j) x Hs Hm ltac:(lia) Hnz Hz Hx Hux) as Hg.
    by replace (13 + j - 13)%nat with j in Hg by lia.
Qed.

(** The block is missing. *)
Lemma wp_bmap_miss l V H ic ip i bn Q :
  low l V H -> (forall h, H h = None) -> ic !! ip = Some i -> i_dev i = ROOTDEV ->
  meta_used sb V -> map_ok N sb V (i_addrs i) -> (bn < 140)%nat ->
  slot V (i_addrs i) (sidx bn) = 0 ->
  (forall l' V' a' x, low l' V' H -> meta_used sb V' -> extends V (i_addrs i) V' a' (sidx bn) x ->
     Q x (Fs l' sb (<[ip := with_addrs a' i]> ic))) ->
  wpf (bmap ip (Z.of_nat bn)) (Fs l sb ic) Q.
Proof.
  intros Hl HH Hi Hdev Hmeta Hm Hbn Hz HQ. pose proof (mo_len _ _ _ _ Hm) as Hlen.
  pose proof (dstart_range N start size sb Hly). pose proof (low_sized l V H Hl) as Hs.
  assert (held_data sb V H) as Hhd by (intros h b Hb; by rewrite HH in Hb).
  unfold bmap. wbind. eapply wp_get_i; [exact Hi|]. unfold sidx in *. unfold NDIRECT.
  destruct (Nat.ltb_spec bn 12) as [Hd|Hd].
  - rewrite (proj2 (Z.ltb_lt _ _)) by lia. pose proof Hz as Hz'. rewrite slot_direct in Hz' by lia.
    wbind. eapply wp_addr_at; [exact Hi|rewrite Nat2Z.id; lia|]. rewrite Nat2Z.id, Hz', Hdev. cbn [Z.eqb].
    wbind. eapply wp_balloc; [done..| |done]. intros x l1 Hx Hu _ H1.
    wbind. eapply wp_upd_i; [exact Hi|]. apply wp_ret. eapply HQ; [exact H1|by apply (alloc_meta N start size)|].
    apply grow_extends; [lia|done|done|]. eapply grow_direct; done || lia.
  - rewrite (proj2 (Z.ltb_ge _ _)) by lia. unfold NINDIRECT, BSIZE. change (512 / 4) with 128.
    rewrite (proj2 (Z.ltb_lt _ _)) by lia.
    wbind. eapply wp_addr_at; [exact Hi|lia|]. change (Z.to_nat 12) with 12%nat. rewrite Hdev.
    assert (Z.to_nat (Z.of_nat bn - 12) = (bn - 12)%nat) as Hj by lia.
    assert (13 + (bn - 12) = Datatypes.S bn)%nat as Hk by lia.
    wbind. destruct (Z.eqb_spec (nth 12 (i_addrs i) 0) 0) as [H12|H12].
    + wbind. eapply wp_balloc; [done..| |done]. intros y l1 Hy Huy _ H1.
      wbind. eapply wp_upd_i; [exact Hi|]. apply wp_ret. rewrite Hj.
      assert (grow N sb V (i_addrs i) (alloc sb V y) (<[12%nat := y]> (i_addrs i)) 12 y) as Hg1
        by (eapply grow_direct; done || lia).
      assert (slot (alloc sb V y) (<[12%nat := y]> (i_addrs i)) (13 + (bn - 12)) = 0) as Hz1.
      { rewrite (gr_slot _ _ _ _ _ _ _ _ Hg1) by lia. by rewrite Hk. }
      eapply (wp_bmap_entry l1 (alloc sb V y) H _ (<[12%nat := y]> (i_addrs i)) (bn - 12));
        [exact H1|done|by apply (alloc_meta N start size)| |lia|apply nth_insert_eq; lia|lia|done|].
      { eapply (grow_map_ok N start size sb Hly V _ _ _ 12); [lia|done| |exact Hg1].
        rewrite slot_direct; [done|lia]. }
      intros l2 V' x H2 Hm2 Hg2. eapply HQ; [exact H2|done|]. rewrite <- Hk.
      eapply grow2_extends; [lia|done|done|exact Hg1|done|exact Hg2].
    + apply wp_ret. rewrite Hj.
      eapply (wp_bmap_entry l V H _ (i_addrs i) (bn - 12)); [done|done|done|done|lia|done|done|by rewrite Hk|].
      intros l2 V' x H2 Hm2 Hg2.
      replace ic with (<[ip := with_addrs (i_addrs i) i]> ic) by (rewrite with_addrs_id; by apply list_insert_id).
      eapply HQ; [exact H2|done|]. rewrite <- Hk.
      apply grow_extends; [lia|done|by rewrite Hk|done].
Qed.

(** Blocks that are not the file's keep their contents; blocks of the file after the
    operation were its blocks before, or free. *)
Record fframe (V : Z -> list Z) (a : list Z) (V' : Z -> list Z) (a' : list Z) : Prop := {
  ff_same y : y < sb_bmapstart sb \/
    dstart sb <= y < N /\ used sb V y = true /\ (forall k, (k < 141)%nat -> slot V a k <> y) ->
    V' y = V y;
  ff_used y : 0 <= y < N -> used sb V y = true -> used sb V' y = true;
  ff_slot k : (k < 141)%nat -> slot V' a' k <> 0 ->
    (exists k', (k' < 141)%nat /\ slot V' a' k = slot V a k') \/ used sb V (slot V' a' k) = false
}.

Lemma fframe_refl V a : fframe V a V a.
Proof. split; try done. intros k Hk _. left. eauto. Qed.

Lemma fframe_trans V a V1 a1 V2 a2 : map_ok N sb V1 a1 -> map_ok N sb V2 a2 ->
  fframe V a V1 a1 -> fframe V1 a1 V2 a2 -> fframe V a V2 a2.
Proof.
  intros Hm1 Hm2 [H1 U1 S1] [H2 U2 S2]. pose proof (dstart_range N start size sb Hly).
  assert (forall z, dstart sb <= z < N -> used sb V1 z = false -> used sb V z = false) as Hmono.
  { intros z Hz Hf. destruct (used sb V z) eqn:Hu; [|done]. rewrite U1 in Hf by (done || lia). done. }
  split.
  - intros y [Hy|(Hy & Hu & Hk)]; [rewrite H2, H1; [done|by left|by left]|].
    rewrite H2, H1; [done|by right|]. right. split; [done|]. split; [apply U1; [lia|done]|].
    intros k Hk' He. destruct (decide (slot V1 a1 k = 0)) as [Hz|Hz].
    { rewrite Hz in He. lia. }
    destruct (S1 k Hk' Hz) as [(k' & Hk1 & Hs)|Hf]; [apply (Hk k' Hk1); congruence|congruence].
  - intros y Hy Hu. auto.
  - intros k Hk Hz. destruct (mo_used _ _ _ _ Hm2 k Hk Hz) as [Hr _].
    destruct (S2 k Hk Hz) as [(k' & Hk' & Hs)|Hf]; [|right; by apply Hmono].
    rewrite Hs in *. destruct (S1 k' Hk' Hz) as [(k2 & Hk2 & Hs2)|Hf]; [left; eauto|by right].
Qed.

Lemma extends_fframe V a V' a' k x : map_ok N sb V a -> (k < 141)%nat ->
  extends V a V' a' k x -> fframe V a V' a'.
Proof.
  intros Hm Hk Hex. pose proof (dstart_range N start size sb Hly).
  destruct Hex as [Hm' Hnew Hslot [Hr Hu] Hused Hzero Hframe Hind]. split; [|done|].
  - intros y Hy. apply Hframe.
    + destruct Hy as [|(? & ? & _)]; auto.
    + destruct (decide (nth 12 a 0 = 0)) as [Hz|Hz]; [by right|left].
      destruct (map_ok_indirect N sb V a Hm Hz) as [Hri _].
      destruct Hy as [Hy|(_ & _ & Hy)]; [lia|]. intros ->. apply (Hy 12%nat); [lia|].
      rewrite slot_direct; [done|lia].
  - intros k' Hk' Hnz. destruct (decide (k' = k)) as [->|Hne]; [right; by rewrite Hnew|].
    destruct (decide (k' = 12%nat)) as [->|H12].
    + destruct Hind as [->|]; [left; exists 12%nat; split; [lia|done]|by right].
    + left. exists k'. auto.
Qed.

(** [bmap] on a file: the block, which the file now has. *)
Lemma wp_bmap l V H ic ip i bn Q :
  low l V H -> (forall h, H h = None) -> ic !! ip = Some i -> i_dev i = ROOTDEV ->
  meta_used sb V -> map_ok N sb V (i_addrs i) -> (bn < 140)%nat ->
  (forall l' V' a' b, low l' V' H -> meta_used sb V' -> map_ok N sb V' a' ->
     slot V' a' (sidx bn) = b -> b <> 0 ->
     (forall bn', (bn' < 140)%nat -> bn' <> bn \/ slot V (i_addrs i) (sidx bn) <> 0 ->
        slot V' a' (sidx bn') = slot V (i_addrs i) (sidx bn')) ->
     (forall bn', (bn' < 140)%nat -> slot V (i_addrs i) (sidx bn') <> 0 ->
        V' (slot V (i_addrs i) (sidx bn')) = V (slot V (i_addrs i) (sidx bn'))) ->
     fframe V (i_addrs i) V' a' ->
     (slot V (i_addrs i) (sidx bn) <> 0 -> a' = i_addrs i) ->
     Q b (Fs l' sb (<[ip := with_addrs a' i]> ic))) ->
  wpf (bmap ip (Z.of_nat bn)) (Fs l sb ic) Q.
Proof.
  intros Hl HH Hi Hdev Hmeta Hm Hbn HQ. pose proof (dstart_range N start size sb Hly).
  destruct (decide (slot V (i_addrs i) (sidx bn) = 0)) as [Hz|Hz].
  - eapply wp_bmap_miss; [done..|]. intros l' V' a' x Hl' Hm' Hex.
    pose proof (extends_fframe _ _ _ _ _ _ Hm (sidx_lt bn Hbn) Hex) as Hff.
    destruct Hex as [Hm2 Hnew Hslot [Hr Hu] Hused Hzero Hframe Hind].
    eapply HQ; try done; [lia| |].
    + intros bn' Hbn' [Hne|?]; [|done]. apply Hslot; [by apply sidx_lt|intros ?%sidx_inj; done|apply sidx_ne12].
    + intros bn' Hbn' Hnz. destruct (mo_used _ _ _ _ Hm (sidx bn') (sidx_lt bn' Hbn') Hnz) as [Hr' Hu'].
      apply Hframe; [by right|]. destruct (decide (nth 12 (i_addrs i) 0 = 0)); [by right|left].
      intros He. apply (sidx_ne12 bn'). apply (mo_inj _ _ _ _ Hm); [by apply sidx_lt|lia|done|].
      rewrite (slot_direct V _ 12); [done|lia].
  - eapply wp_bmap_hit; [done..|]. intros l' Hl'.
    replace ic with (<[ip := with_addrs (i_addrs i) i]> ic) by (rewrite with_addrs_id; by apply list_insert_id).
    eapply HQ; try done. apply fframe_refl.
Qed.
End bmap.
