(* ===== verification/FsRw.v ===== *)
(** [fs.c]: [readi] and [writei] as reads and writes of one list of bytes, the content
    of the file, whatever blocks hold it. *)

From S2P Require Import Prelude CString Sleeplock Cache Log LogSpec LogRes Fs FsSpec FsFile.

(** * The content of a file *)

Definition fbyte (V : Z -> list Z) (a : list Z) (p : nat) : Z :=
  nth (p mod 512) (V (slot V a (sidx (p / 512)))) 0.

(** The first [L] bytes. *)
Definition content (V : Z -> list Z) (a : list Z) (L : nat) : list Z := fbyte V a <$> seq 0 L.

Lemma length_content V a L : length (content V a L) = L.
Proof. unfold content. by rewrite length_fmap, length_seq. Qed.

Lemma content_lookup V a L p : (p < L)%nat -> content V a L !! p = Some (fbyte V a p).
Proof. intros Hp. unfold content. by rewrite list_lookup_fmap, lookup_seq_lt. Qed.

(** The part of the content that lies in one block. *)
Lemma content_block V a L bn o m : (o + m <= 512)%nat -> (512 * bn + o + m <= L)%nat ->
  length (V (slot V a (sidx bn))) = 512%nat ->
  take m (drop o (V (slot V a (sidx bn)))) = take m (drop (512 * bn + o) (content V a L)).
Proof.
  intros Ho HL Hl. apply list_eq. intros j. destruct (decide (j < m)%nat) as [Hj|Hj].
  - rewrite !lookup_take_lt, !lookup_drop, content_lookup by lia. unfold fbyte.
    replace (512 * bn + o + j)%nat with (o + j + bn * 512)%nat by lia.
    rewrite Nat.div_add, Nat.div_small, Nat.Div0.mod_add, Nat.mod_small by lia. cbn [Nat.add].
    destruct (lookup_lt_is_Some_2 (V (slot V a (sidx bn))) (o + j)) as [v Hv]; [lia|].
    rewrite Hv. f_equal. symmetry. by apply nth_lookup_Some.
  - by rewrite !lookup_take_ge by lia.
Qed.

Lemma slice_app {A} (l : list A) o m r : (m <= r)%nat ->
  take m (drop o l) ++ take (r - m) (drop (o + m) l) = take r (drop o l).
Proof.
  intros Hm. rewrite <- drop_drop. replace r with (m + (r - m))%nat at 2 by lia.
  by rewrite take_take_drop.
Qed.

(** The file has a block for each byte below [L] and no other. *)
Definition full (V : Z -> list Z) (a : list Z) (L : nat) : Prop :=
  forall bn, (bn < 140)%nat -> slot V a (sidx bn) <> 0 <-> (512 * bn < L)%nat.

(** The content after [s] is written at [off]. *)
Lemma splice_lookup_extend {A} (l s : list A) off p : (off <= length l)%nat ->
  splice l off s !! p = if decide (off <= p < off + length s)%nat then s !! (p - off)%nat else l !! p.
Proof.
  intros Ho. unfold splice. destruct (decide (p < off)%nat) as [Hp|Hp].
  { rewrite lookup_app_l by (rewrite length_take; lia). rewrite lookup_take_lt by done.
    by rewrite decide_False by lia. }
  rewrite lookup_app_r by (rewrite length_take; lia). rewrite length_take, Nat.min_l by lia.
  case_decide.
  - by rewrite lookup_app_l by lia.
  - rewrite lookup_app_r by lia. rewrite lookup_drop. f_equal. lia.
Qed.

Lemma length_splice_extend {A} (l s : list A) off : (off <= length l)%nat ->
  length (splice l off s) = Nat.max (length l) (off + length s).
Proof. intros Ho. unfold splice. rewrite !length_app, length_take, length_drop. lia. Qed.

Lemma splice_nil {A} (l : list A) off : splice l off [] = l.
Proof. unfold splice. cbn. rewrite Nat.add_0_r. apply take_drop. Qed.

(** Two consecutive writes are one. *)
Lemma splice_splice {A} (l s t : list A) off : (off <= length l)%nat ->
  splice (splice l off s) (off + length s) t = splice l off (s ++ t).
Proof.
  intros Ho. apply list_eq. intros p.
  rewrite (splice_lookup_extend (splice l off s)) by (rewrite length_splice_extend; lia).
  rewrite !splice_lookup_extend, length_app by done.
  destruct (decide (off + length s <= p < off + length s + length t)%nat).
  - rewrite decide_True by lia. rewrite lookup_app_r by lia. f_equal. lia.
  - destruct (decide (off <= p < off + length s)%nat).
    + rewrite decide_True by lia. by rewrite lookup_app_l by lia.
    + by rewrite decide_False by lia.
Qed.

(** One block written: [V1], [a1] differ from [V], [a] in that block [bn] exists. *)
Lemma content_write V a V1 a1 L bn o s b :
  full V a L -> slot V1 a1 (sidx bn) = b -> b <> 0 -> (bn < 140)%nat ->
  (forall bn', (bn' < 140)%nat -> bn' <> bn \/ slot V a (sidx bn) <> 0 ->
     slot V1 a1 (sidx bn') = slot V a (sidx bn')) ->
  (forall bn', (bn' < 140)%nat -> slot V a (sidx bn') <> 0 ->
     V1 (slot V a (sidx bn')) = V (slot V a (sidx bn'))) ->
  (forall bn', (bn' < 140)%nat -> bn' <> bn -> slot V1 a1 (sidx bn') <> b) ->
  (forall k, slot (bupd V1 b (splice (V1 b) o s)) a1 k = slot V1 a1 k) ->
  length (V1 b) = 512%nat -> (o + length s <= 512)%nat -> (512 * bn + o <= L)%nat -> (L <= 512 * 140)%nat ->
  content (bupd V1 b (splice (V1 b) o s)) a1 (Nat.max L (512 * bn + o + length s)) =
  splice (content V a L) (512 * bn + o) s.
Proof.
  intros Hf Hb Hnz Hbn Hslot Hkeep Hne Hsl Hlen Ho HL Hmax. apply list_eq. intros p.
  rewrite splice_lookup_extend by by rewrite length_content.
  destruct (decide (p < Nat.max L (512 * bn + o + length s))%nat) as [Hp|Hp].
  2: { rewrite decide_False by lia. rewrite !lookup_ge_None_2; [done|rewrite length_content; lia..]. }
  rewrite content_lookup by done. unfold fbyte. rewrite Hsl.
  pose proof (Nat.div_mod p 512 ltac:(lia)) as Hdm. pose proof (Nat.mod_upper_bound p 512 ltac:(lia)) as Hmb.
  assert (p < 512 * 140)%nat as Hp2 by lia.
  assert (p / 512 < 140)%nat as Hp3 by (apply Nat.Div0.div_lt_upper_bound; lia).
  destruct (decide (p / 512 = bn)%nat) as [He|He].
  - rewrite He, Hb, bupd_eq. rewrite nth_lookup. case_decide as Hin.
    + rewrite splice_lookup_in by lia. replace (p mod 512 - o)%nat with (p - (512 * bn + o))%nat by lia.
      destruct (lookup_lt_is_Some_2 s (p - (512 * bn + o))) as [v Hv]; [lia|]. by rewrite Hv.
    + rewrite splice_lookup_out by lia. rewrite content_lookup by lia. unfold fbyte. rewrite He.
      assert (slot V a (sidx bn) <> 0) as Hz by (apply Hf; lia).
      rewrite nth_lookup. rewrite <- (Hkeep bn) by done. rewrite <- (Hslot bn) by auto. by rewrite Hb.
  - rewrite decide_False by lia. rewrite content_lookup by lia. f_equal. unfold fbyte.
    assert (slot V a (sidx (p / 512)) <> 0) as Hz by (apply Hf; lia).
    rewrite bupd_ne by by apply Hne. rewrite Hslot by auto. by rewrite Hkeep.
Qed.

Section rw.
Context {S : Type} `{!Cache S, !CacheSpec S} {base : txn}.
Context (N start size : Z) (sb : superblock) (Hly : layout N start size sb).
Context (may : option string -> Prop).
Context (Hbuf : forall o, no_buffers o -> may o).
Context (dev_read : Z -> option (nat -> Z -> M (fs S) (Z * list Z))).
Context (dev_write : Z -> option (nat -> list Z -> Z -> M (fs S) Z)).
Local Abbreviation wpf := (wp (S := fs S) may).
Local Abbreviation low := (low N start size (base := base)).

(** A file (or directory) that is not being changed. *)
Record file_ok (V : Z -> list Z) (i : inode) : Prop := {
  fo_dev : i_dev i = ROOTDEV;
  fo_type : i_type i <> T_DEV;
  fo_map : map_ok N sb V (i_addrs i);
  fo_size : 0 <= i_size i <= MAXFILE * BSIZE;
  fo_full : full V (i_addrs i) (Z.to_nat (i_size i))
}.

Lemma block_arith o m : (m <= 512 - o mod 512)%nat ->
  Z.of_nat o / BSIZE = Z.of_nat (o / 512) /\ Z.of_nat o mod BSIZE = Z.of_nat (o mod 512) /\
  o = (512 * (o / 512) + o mod 512)%nat /\ (o mod 512 < 512)%nat.
Proof.
  intros Hm. unfold BSIZE. pose proof (Nat.mod_upper_bound o 512 ltac:(lia)).
  rewrite Nat2Z.inj_div, Nat2Z.inj_mod. split_and!; [done|done|apply Nat.div_mod; lia|lia].
Qed.

Lemma wp_readi_loop V H ic ip i L Q : (forall h, H h = None) -> ic !! ip = Some i ->
  i_dev i = ROOTDEV -> map_ok N sb V (i_addrs i) -> full V (i_addrs i) L -> (L <= 512 * 140)%nat ->
  forall fuel o r t l, low l V H -> (r <= fuel)%nat -> (o + r <= L)%nat -> (r + t <= 512 * 140)%nat ->
  (forall l', low l' V H -> Q (take r (drop o (content V (i_addrs i) L))) (Fs l' sb ic)) ->
  wpf (readi_loop fuel ip (Z.of_nat o) (Z.of_nat (r + t)) (Z.of_nat t)) (Fs l sb ic) Q.
Proof.
  intros HH Hi Hdev Hm Hf HL. pose proof (dstart_range N start size sb Hly) as Hds.
  intros fuel. revert Q. induction fuel as [|fuel IH]; intros Q o r t l Hl Hr Ho Hrt HQ; cbn [readi_loop].
  - replace r with 0%nat in * by lia. rewrite (proj2 (Z.ltb_ge _ _)) by lia. apply wp_ret. by apply HQ.
  - destruct (Z.ltb_spec (Z.of_nat t) (Z.of_nat (r + t))) as [Hlt|Hge].
    2: { replace r with 0%nat in * by lia. apply wp_ret. by apply HQ. }
    set (m := Nat.min r (512 - o mod 512)). destruct (block_arith o m ltac:(lia)) as (Hd & Hmod & Hdm & Hlt').
    assert (o / 512 < 140)%nat as Hbn by (apply Nat.Div0.div_lt_upper_bound; lia).
    assert (slot V (i_addrs i) (sidx (o / 512)) <> 0) as Hnz by (apply Hf; lia).
    destruct (mo_used _ _ _ _ Hm _ (sidx_lt _ Hbn) Hnz) as [Hrange _].
    wbind. eapply wp_get_i; [exact Hi|]. rewrite Hd, Hmod, Hdev.
    wbind. eapply wp_bmap_hit; [exact Hly|exact Hbuf|exact Hl|done|exact Hi|done|done|done|done|].
    intros l1 H1. wbind. eapply wp_bread; [exact Hbuf|exact H1|lia|by intros h; rewrite HH|].
    intros h l2 Hn H2. wbind. eapply wp_bdata; [exact H2|apply hupd_eq|].
    wbind. eapply wp_brelse_last; [exact H2|done|]. intros l3 H3.
    replace (Z.min (Z.of_nat (r + t) - Z.of_nat t) (BSIZE - Z.of_nat (o mod 512))) with (Z.of_nat m)
      by (unfold m, BSIZE; lia).
    wbind. replace (u32 (Z.of_nat o + Z.of_nat m)) with (Z.of_nat (o + m)) by (rewrite u32_small; lia).
    replace (u32 (Z.of_nat t + Z.of_nat m)) with (Z.of_nat (t + m)) by (rewrite u32_small; lia).
    replace (r + t)%nat with (r - m + (t + m))%nat by lia.
    assert (1 <= m)%nat by lia. apply IH; [done|lia|lia|lia|]. intros l4 H4. apply wp_ret.
    rewrite !Nat2Z.id. rewrite (content_block V (i_addrs i) L) by (lia || (eapply low_block_size; [exact Hl|lia])).
    rewrite <- Hdm. rewrite slice_app by lia. by apply HQ.
Qed.

(** What [readi] of [n] bytes at [off] returns on a file with content [c]. *)
Definition readi_result (c : list Z) (off n : Z) : Z * list Z :=
  if (Z.of_nat (length c) <? off) || (2 ^ 32 <=? off + n) then (-1, [])
  else
    let m := Z.min n (Z.of_nat (length c) - off) in
    (m, take (Z.to_nat m) (drop (Z.to_nat off) c)).

Lemma wp_readi l V H ic ip i off n Q :
  low l V H -> (forall h, H h = None) -> ic !! ip = Some i -> file_ok V i ->
  0 <= off < 2 ^ 32 -> 0 <= n < 2 ^ 32 ->
  (forall l', low l' V H ->
     Q (readi_result (content V (i_addrs i) (Z.to_nat (i_size i))) off n) (Fs l' sb ic)) ->
  wpf (readi dev_read ip off n) (Fs l sb ic) Q.
Proof.
  intros Hl HH Hi [Hdev Hty Hm [Hs0 Hs] Hf] Hoff Hn HQ. unfold readi. wbind. eapply wp_get_i; [exact Hi|].
  unfold MAXFILE, NDIRECT, NINDIRECT, BSIZE in Hs. change ((12 + 512 / 4) * 512) with 71680 in Hs.
  rewrite (proj2 (Z.eqb_neq _ _)) by done. unfold readi_result in HQ. rewrite length_content, Z2Nat.id in HQ by done.
  destruct (Z.ltb_spec (i_size i) off) as [Hgt|Hle]; cbn [orb].
  { apply wp_ret. by apply HQ. }
  destruct (Z.leb_spec (2 ^ 32) (off + n)) as [Hov|Hno]; cbn [orb] in HQ.
  { assert (u32 (off + n) < off) as Hw.
    { unfold u32. rewrite <- (Z_mod_plus_full _ (-1)). rewrite Z.mod_small by lia. lia. }
    rewrite (proj2 (Z.ltb_lt _ _)) by done. apply wp_ret. by apply HQ. }
  rewrite (u32_small (off + n)) by lia. rewrite (proj2 (Z.ltb_ge (off + n) off)) by lia.
  assert ((if i_size i <? off + n then u32 (i_size i - off) else n) = Z.min n (i_size i - off)) as Hmin.
  { destruct (Z.ltb_spec (i_size i) (off + n)); [rewrite u32_small; lia|lia]. }
  rewrite Hmin. set (m := Z.min n (i_size i - off)) in *. wbind.
  assert (readi_loop (Z.to_nat m) ip off m 0 =
    readi_loop (Z.to_nat m) ip (Z.of_nat (Z.to_nat off)) (Z.of_nat (Z.to_nat m + 0)) (Z.of_nat 0)) as ->
    by (f_equal; lia).
  eapply (wp_readi_loop V H ic ip i (Z.to_nat (i_size i))); try done; lia.
Qed.

Context (Hbig : may too_big) (Hfull : may (Some "balloc: out of blocks")).

Lemma slot_bupd_data V a b d k : map_ok N sb V a -> b <> nth 12 a 0 ->
  slot (bupd V b d) a k = slot V a k.
Proof.
  intros Hm Hb. unfold slot. destruct (k <? 13)%nat; [done|]. destruct (_ =? 0); [done|].
  by rewrite bupd_ne.
Qed.

Lemma map_ok_bupd V a b d : map_ok N sb V a -> dstart sb <= b < N -> b <> nth 12 a 0 ->
  map_ok N sb (bupd V b d) a.
Proof.
  intros Hm Hr Hb. pose proof (dstart_range N start size sb Hly). destruct Hm as [Hl Hu Hj] eqn:E. split; [done| |].
  - intros k Hk. rewrite slot_bupd_data by done. intros Hnz. destruct (Hu k Hk Hnz) as [Hr' Hu'].
    split; [done|]. rewrite (used_bupd N start size sb Hly) by lia. done.
  - intros k k' Hk Hk'. rewrite !slot_bupd_data by done. auto.
Qed.

Lemma fframe_bupd V a b d k : map_ok N sb V a -> (k < 141)%nat -> slot V a k = b -> b <> 0 ->
  b <> nth 12 a 0 -> fframe N sb V a (bupd V b d) a.
Proof.
  intros Hm Hk Hb Hnz Hne. pose proof (dstart_range N start size sb Hly).
  destruct (mo_used _ _ _ _ Hm k Hk) as [Hr Hu]; [congruence|]. rewrite Hb in *. split.
  - intros y Hy. apply bupd_ne. destruct Hy as [|(_ & _ & Hy)]; [lia|]. specialize (Hy k Hk). congruence.
  - intros y Hy Huy. by rewrite (used_bupd N start size sb Hly) by lia.
  - intros k' Hk' Hnz'. left. exists k'. split; [done|]. by apply slot_bupd_data.
Qed.

(** One pass of the loop of [writei]: block [bn] exists and [s] is stored in it. *)
Lemma file_write V a V1 a1 L bn o s b :
  map_ok N sb V1 a1 -> sized N V1 -> full V a L -> (L <= 512 * 140)%nat -> (bn < 140)%nat ->
  slot V1 a1 (sidx bn) = b -> b <> 0 -> (512 * bn + o <= L)%nat -> (o + length s <= 512)%nat ->
  (0 < length s)%nat -> (o < 512)%nat ->
  (forall bn', (bn' < 140)%nat -> bn' <> bn \/ slot V a (sidx bn) <> 0 ->
     slot V1 a1 (sidx bn') = slot V a (sidx bn')) ->
  (forall bn', (bn' < 140)%nat -> slot V a (sidx bn') <> 0 ->
     V1 (slot V a (sidx bn')) = V (slot V a (sidx bn'))) ->
  let V2 := bupd V1 b (splice (V1 b) o s) in
  let L2 := Nat.max L (512 * bn + o + length s) in
  map_ok N sb V2 a1 /\ full V2 a1 L2 /\ fframe N sb V1 a1 V2 a1 /\
  content V2 a1 L2 = splice (content V a L) (512 * bn + o) s.
Proof.
  intros Hm Hs Hf HL Hbn Hb Hnz Hoff Hlen Hpos Ho Hslot Hkeep V2 L2.
  pose proof (dstart_range N start size sb Hly).
  assert (b <> nth 12 a1 0) as Hne.
  { rewrite <- (slot_direct V1 a1 12) by lia. intros He. apply (sidx_ne12 bn).
    apply (mo_inj _ _ _ _ Hm); [by apply sidx_lt|lia|congruence|congruence]. }
  destruct (mo_used _ _ _ _ Hm (sidx bn) (sidx_lt bn Hbn)) as [Hr Hu]; [congruence|]. rewrite Hb in *.
  split; [by apply map_ok_bupd|]. split; [|split].
  - intros bn' Hbn'. unfold V2. rewrite slot_bupd_data by done. destruct (decide (bn' = bn)) as [->|Hnb].
    + rewrite Hb. split; [lia|done].
    + rewrite Hslot by auto. rewrite (Hf bn' Hbn'). lia.
  - by apply (fframe_bupd V1 a1 b _ (sidx bn)); [|apply sidx_lt|..].
  - unfold V2, L2. apply content_write; try done.
    + intros bn' Hbn' Hnb He. apply Hnb, sidx_inj. apply (mo_inj _ _ _ _ Hm); try by apply sidx_lt.
      * by rewrite He.
      * congruence.
    + intros k. by apply slot_bupd_data.
    + apply Hs. lia.
Qed.

Lemma wp_writei_loop H ip : (forall h, H h = None) ->
  forall fuel o r t src l V i ic L Q,
  low l V H -> meta_used sb V -> ic !! ip = Some i -> i_dev i = ROOTDEV ->
  map_ok N sb V (i_addrs i) -> full V (i_addrs i) L -> (L <= 512 * 140)%nat ->
  (o <= L)%nat -> (r <= fuel)%nat -> (o + r <= 512 * 140)%nat -> (r + t <= 512 * 140)%nat ->
  (r <= length src)%nat ->
  (forall l' V' a', low l' V' H -> meta_used sb V' -> map_ok N sb V' a' ->
     full V' a' (Nat.max L (o + r)) ->
     content V' a' (Nat.max L (o + r)) = splice (content V (i_addrs i) L) o (take r src) ->
     fframe N sb V (i_addrs i) V' a' -> ((o + r <= L)%nat -> a' = i_addrs i) ->
     Q (Z.of_nat (o + r)) (Fs l' sb (<[ip := with_addrs a' i]> ic))) ->
  wpf (writei_loop fuel ip src (Z.of_nat o) (Z.of_nat (r + t)) (Z.of_nat t)) (Fs l sb ic) Q.
Proof.
  intros HH. pose proof (dstart_range N start size sb Hly) as Hds.
  assert (forall o r src l V i ic L (Q : Z -> fs S -> Prop), r = 0%nat -> (o <= L)%nat ->
    low l V H -> meta_used sb V -> ic !! ip = Some i -> map_ok N sb V (i_addrs i) -> full V (i_addrs i) L ->
    (forall l' V' a', low l' V' H -> meta_used sb V' -> map_ok N sb V' a' ->
       full V' a' (Nat.max L (o + r)) ->
       content V' a' (Nat.max L (o + r)) = splice (content V (i_addrs i) L) o (take r src) ->
       fframe N sb V (i_addrs i) V' a' -> ((o + r <= L)%nat -> a' = i_addrs i) ->
       Q (Z.of_nat (o + r)) (Fs l' sb (<[ip := with_addrs a' i]> ic))) ->
    Q (Z.of_nat o) (Fs l sb ic)) as Hend.
  { intros o r src l V i ic L Q -> Ho Hl Hmeta Hi Hm Hf HQ.
    specialize (HQ l V (i_addrs i)). rewrite with_addrs_id, (list_insert_id ic ip i Hi), Nat.add_0_r in HQ.
    rewrite Nat.max_l in HQ by lia. apply HQ; try done; [by rewrite take_0, splice_nil|apply fframe_refl]. }
  intros fuel. induction fuel as [|fuel IH];
    intros o r t src l V i ic L Q Hl Hmeta Hi Hdev Hm Hf HL Ho Hr Hor Hrt Hsrc HQ; cbn [writei_loop].
  { rewrite (proj2 (Z.ltb_ge _ _)) by lia. apply wp_ret. eapply (Hend o r); try done. lia. }
  destruct (Z.ltb_spec (Z.of_nat t) (Z.of_nat (r + t))) as [Hlt|Hge].
  2: { apply wp_ret. eapply (Hend o r); try done. lia. }
  set (m := Nat.min r (512 - o mod 512)). destruct (block_arith o m ltac:(lia)) as (Hd & Hmod & Hdm & Hlt').
  assert (o / 512 < 140)%nat as Hbn by (apply Nat.Div0.div_lt_upper_bound; lia).
  wbind. eapply wp_get_i; [exact Hi|]. rewrite Hd, Hmod, Hdev.
  wbind. eapply wp_bmap; [exact Hly|exact Hbuf|exact Hbig|exact Hfull|exact Hl|done|exact Hi|done|done|done|done|].
  intros l1 V1 a1 b H1 Hmeta1 Hm1 Hb Hnz Hslot Hkeep Hff1 Hsame1.
  destruct (mo_used _ _ _ _ Hm1 _ (sidx_lt _ Hbn)) as [Hrange _]; [congruence|]. rewrite Hb in Hrange.
  wbind. eapply wp_bread; [exact Hbuf|exact H1|lia|by intros h; rewrite HH|].
  intros h l2 Hn H2. wbind. eapply wp_bdata; [exact H2|apply hupd_eq|].
  replace (Z.min (Z.of_nat (r + t) - Z.of_nat t) (BSIZE - Z.of_nat (o mod 512))) with (Z.of_nat m)
    by (unfold m, BSIZE; lia).
  rewrite (proj2 (Z.ltb_ge _ _)) by lia. rewrite !Nat2Z.id.
  assert (length (take m src) = m) as Hlm by (rewrite length_take; lia).
  destruct (file_write V (i_addrs i) V1 a1 L (o / 512) (o mod 512) (take m src) b)
    as (Hm2 & Hf2 & Hff2 & Hc2); try done; try lia; [by eapply low_sized|].
  rewrite <- Hdm, Hlm in *.
  assert (length (V1 b) = 512%nat) as Hlb by (eapply low_block_size; [exact H1|lia]).
  eapply wp_bset_log; [exact Hbig|exact H2|apply hupd_eq| |rewrite length_splice; rewrite ?Hlm; lia|].
  { apply (home_data N start size sb Hly). lia. }
  intros l3 H3. wbind. eapply wp_brelse_last; [exact H3|done|]. intros l4 H4.
  replace (u32 (Z.of_nat o + Z.of_nat m)) with (Z.of_nat (o + m)) by (rewrite u32_small; lia).
  replace (u32 (Z.of_nat t + Z.of_nat m)) with (Z.of_nat (t + m)) by (rewrite u32_small; lia).
  replace (r + t)%nat with (r - m + (t + m))%nat by lia.
  assert (1 <= m)%nat by lia.
  eapply (IH (o + m) (r - m) (t + m) (drop m src) l4 _ (with_addrs a1 i) _ (Nat.max L (o + m)))%nat;
    [exact H4| |by apply list_lookup_insert_eq, (lookup_lt_Some _ _ _ Hi)|done|exact Hm2|exact Hf2|lia|lia|lia|lia|lia
    |rewrite length_drop; lia|].
  { intros y Hy. rewrite (used_bupd N start size sb Hly) by lia. by apply Hmeta1. }
  cbn [with_addrs i_addrs]. intros l5 V5 a5 H5 Hmeta5 Hm5 Hf5 Hc5 Hff5 Hsame5.
  replace (o + m + (r - m))%nat with (o + r)%nat in * by lia.
  replace (Nat.max (Nat.max L (o + m)) (o + r)) with (Nat.max L (o + r)) in * by lia.
  rewrite list_insert_insert_eq. apply (HQ l5 V5 a5); try done.
  - rewrite Hc5, Hc2. replace (o + m)%nat with (o + length (take m src))%nat by (rewrite Hlm; lia).
    rewrite splice_splice by (rewrite length_content; lia).
    f_equal. rewrite take_take_drop. f_equal. lia.
  - eapply (fframe_trans N start size sb Hly _ _ V1 a1); [done|done|done|].
    eapply (fframe_trans N start size sb Hly _ _ _ _); [exact Hm2|done|exact Hff2|done].
  - intros HoL. rewrite Hsame5 by lia. apply Hsame1, Hf; lia.
Qed.

(** * The inode on the disk *)

Definition inode_block (i : inode) : Z := i_inum i / IPB + sb_inodestart sb.

(** The inode cache is write-through: the disk copy agrees with the cached one. *)
Definition synced (V : Z -> list Z) (i : inode) : Prop :=
  get_dinode (V (inode_block i)) (dinode_off (i_inum i)) i = i.

Lemma inode_block_range i : 0 <= i_inum i < sb_ninodes sb ->
  sb_inodestart sb <= inode_block i < sb_bmapstart sb /\ IBLOCK (i_inum i) sb = inode_block i /\
  (dinode_off (i_inum i) + 64 <= 512)%nat.
Proof.
  intros Hi. pose proof (dstart_range N start size sb Hly). destruct Hly. unfold inode_block, IBLOCK.
  unfold IPB, DINODE, BSIZE in *. change (512 / 64) with 8 in *.
  assert (0 <= i_inum i / 8) by (apply Z.div_pos; lia).
  assert (i_inum i / 8 <= sb_ninodes sb / 8) by (apply Z.div_le_mono; lia).
  split; [lia|]. split; [apply u32_small; lia|]. unfold dinode_off. change IPB with 8.
  unfold DINODE. pose proof (Z.mod_pos_bound (i_inum i) 8). lia.
Qed.

Lemma wp_iupdate l V H ic ip i Q :
  low l V H -> (forall h, H h = None) -> ic !! ip = Some i -> i_dev i = ROOTDEV ->
  0 <= i_inum i < sb_ninodes sb -> length (i_addrs i) = 13%nat ->
  (forall l', low l' (bupd V (inode_block i) (put_dinode (V (inode_block i)) (dinode_off (i_inum i)) i)) H ->
     Q tt (Fs l' sb ic)) ->
  wpf (iupdate ip) (Fs l sb ic) Q.
Proof.
  intros Hl HH Hi Hdev Hinum Ha HQ. destruct (inode_block_range i Hinum) as (Hr & Hib & Hoff).
  pose proof (dstart_range N start size sb Hly) as Hds. pose proof (ly_inodes _ _ _ _ Hly) as Hin0.
  pose proof (ly_start _ _ _ _ Hly) as Hst0. pose proof (ly_lsize _ _ _ _ Hly) as Hsz0.
  unfold iupdate. wbind. apply wp_gets. cbn [f_sb]. wbind. eapply wp_get_i; [exact Hi|]. rewrite Hdev, Hib.
  wbind. eapply wp_bread; [exact Hbuf|exact Hl|lia|by intros h; rewrite HH|]. intros h l1 Hn H1.
  wbind. eapply wp_bdata; [exact H1|apply hupd_eq|].
  assert (length (V (inode_block i)) = 512%nat) as Hlb by (eapply low_block_size; [exact Hl|lia]).
  eapply wp_bset_log; [exact Hbig|exact H1|apply hupd_eq| |rewrite length_put_dinode; lia|].
  { apply (home_meta N start size sb Hly). lia. }
  intros l2 H2. eapply wp_brelse_last; [exact H2|done|]. auto.
Qed.

(** Blocks below the free map that are not the block of the inode. *)
Lemma synced_update V i : inode_typed i -> length (V (inode_block i)) = 512%nat ->
  0 <= i_inum i < sb_ninodes sb ->
  synced (bupd V (inode_block i) (put_dinode (V (inode_block i)) (dinode_off (i_inum i)) i)) i.
Proof.
  intros Ht Hl Hi. unfold synced. rewrite bupd_eq. apply get_put_dinode; [done|].
  destruct (inode_block_range i Hi) as (_ & _ & ?). lia.
Qed.

(** A store into an inode block changes no file. *)
Lemma file_ok_meta V i b d : file_ok V i -> sb_inodestart sb <= b < sb_bmapstart sb ->
  file_ok (bupd V b d) i /\ content (bupd V b d) (i_addrs i) (Z.to_nat (i_size i)) =
    content V (i_addrs i) (Z.to_nat (i_size i)).
Proof.
  intros [Hdev Hty Hm Hs Hf] Hb. pose proof (dstart_range N start size sb Hly) as Hds.
  assert (forall k, (k < 141)%nat -> slot (bupd V b d) (i_addrs i) k = slot V (i_addrs i) k) as Hslot.
  { intros k Hk. unfold slot. destruct (k <? 13)%nat; [done|]. destruct (Z.eqb_spec (nth 12 (i_addrs i) 0) 0); [done|].
    rewrite bupd_ne; [done|]. destruct (map_ok_indirect N sb V _ Hm n). lia. }
  split; [split; try done|].
  - destruct Hm as [Hl Hu Hj]. split; [done| |].
    + intros k Hk. rewrite Hslot by done. intros Hnz. destruct (Hu k Hk Hnz) as [Hr Hu']. split; [done|].
      unfold used. rewrite bupd_ne; [done|].
      pose proof (bitmap_range N start size sb Hly (slot V (i_addrs i) k) ltac:(lia)). lia.
    + intros k k' Hk Hk'. rewrite !Hslot by done. auto.
  - intros bn Hbn. rewrite Hslot by by apply sidx_lt. auto.
  - unfold content. apply list_fmap_ext. intros j p Hp. apply lookup_seq in Hp as [-> Hj].
    unfold MAXFILE, NDIRECT, NINDIRECT, BSIZE in Hs. change ((12 + 512 / 4) * 512) with 71680 in Hs.
    assert (j / 512 < 140)%nat as Hbn by (apply Nat.Div0.div_lt_upper_bound; lia).
    pose proof (Nat.div_mod j 512 ltac:(lia)) as Hdm. pose proof (Nat.mod_upper_bound j 512 ltac:(lia)).
    unfold fbyte. cbn [Nat.add]. rewrite Hslot by by apply sidx_lt. rewrite bupd_ne; [done|].
    destruct (mo_used _ _ _ _ Hm _ (sidx_lt _ Hbn)) as [Hr _]; [apply Hf; lia|]. lia.
Qed.
End rw.
