(* ===== verification/FsThm.v ===== *)
(** [fs.c]: what the file operations promise to the rest of the kernel. A file is its
    content, the disk copy of every inode stays in step with the cached one, and the
    other files are left alone. *)

From S2P Require Import Prelude CString Sleeplock Cache Log LogSpec LogRes Fs FsSpec FsFile FsRw.

(** The resources that a transaction can run out of. *)
Definition fs_may (o : option string) : Prop :=
  no_buffers o \/ o = too_big \/ o = Some "balloc: out of blocks".

Lemma slice_putn_out n d off v o m :
  (off + n <= length d)%nat -> (o + m <= off \/ off + n <= o)%nat ->
  take m (drop o (putn n d off v)) = take m (drop o d).
Proof. intros H Ho. unfold putn. by rewrite slice_splice_out by (rewrite length_le_bytes; lia). Qed.

(** [iupdate] leaves the other inodes of the block alone. *)
Lemma put_dinode_other d off i o m : length (i_addrs i) = 13%nat -> (off + 64 <= length d)%nat ->
  (o + m <= off \/ off + 64 <= o)%nat -> take m (drop o (put_dinode d off i)) = take m (drop o d).
Proof.
  intros Ha Hd Ho. unfold put_dinode.
  rewrite slice_splice_out by (rewrite length_concat_bytes, ?Ha; repeat rewrite length_putn; lia).
  repeat rewrite slice_putn_out by (repeat rewrite length_putn; lia). done.
Qed.

Lemma get_dinode_slice d d' off i : (forall o m, (off <= o)%nat -> (o + m <= off + 64)%nat ->
    take m (drop o d') = take m (drop o d)) -> get_dinode d' off i = get_dinode d off i.
Proof.
  intros Hs. unfold get_dinode, dinode_type, getn.
  rewrite !Hs by lia. f_equal. apply list_fmap_ext. intros j k Hk.
  apply lookup_seq in Hk as [-> Hj]. rewrite Hs by lia. done.
Qed.

Section frame.
Context (N start size : Z) (sb : superblock) (Hly : layout N start size sb).

(** No block of [b] is a block of [a]. *)
Definition disjoint_files (V : Z -> list Z) (a b : list Z) : Prop :=
  forall k k', (k < 141)%nat -> (k' < 141)%nat -> slot V b k <> 0 -> slot V a k' <> slot V b k.

Lemma frame_block V a V' a' b k : fframe N sb V a V' a' -> map_ok N sb V b -> disjoint_files V a b ->
  (k < 141)%nat -> slot V b k <> 0 -> V' (slot V b k) = V (slot V b k).
Proof.
  intros [Hs _ _] Hm Hd Hk Hnz. destruct (mo_used _ _ _ _ Hm k Hk Hnz) as [Hr Hu].
  apply Hs. right. split; [done|]. split; [done|]. intros k' Hk'. by apply Hd.
Qed.

Lemma frame_slot V a V' a' b k : fframe N sb V a V' a' -> map_ok N sb V b -> disjoint_files V a b ->
  (k < 141)%nat -> slot V' b k = slot V b k.
Proof.
  intros Hf Hm Hd Hk. unfold slot. destruct (k <? 13)%nat; [done|].
  destruct (Z.eqb_spec (nth 12 b 0) 0) as [|Hz]; [done|].
  pose proof (frame_block V a V' a' b 12 Hf Hm Hd ltac:(lia)) as Hb.
  rewrite slot_direct in Hb by lia. by rewrite Hb.
Qed.

Lemma frame_file V a V' a' j : fframe N sb V a V' a' -> file_ok N sb V j ->
  disjoint_files V a (i_addrs j) ->
  file_ok N sb V' j /\ content V' (i_addrs j) (Z.to_nat (i_size j)) =
    content V (i_addrs j) (Z.to_nat (i_size j)).
Proof.
  intros Hf [Hdev Hty Hm Hs Hfu] Hd. pose proof (dstart_range N start size sb Hly) as Hds.
  assert (forall k, (k < 141)%nat -> slot V' (i_addrs j) k = slot V (i_addrs j) k) as Hslot.
  { intros k Hk. by eapply frame_slot. }
  split; [split; try done|].
  - destruct Hm as [Hl Hu Hj] eqn:E. split; [done| |].
    + intros k Hk. rewrite Hslot by done. intros Hnz. destruct (Hu k Hk Hnz) as [Hr Hu']. split; [done|].
      apply (ff_used _ _ _ _ _ _ Hf); [lia|done].
    + intros k k' Hk Hk'. rewrite !Hslot by done. auto.
  - intros bn Hbn. rewrite Hslot by by apply sidx_lt. auto.
  - unfold content. apply list_fmap_ext. intros p q Hp. apply lookup_seq in Hp as [-> Hp].
    unfold MAXFILE, NDIRECT, NINDIRECT, BSIZE in Hs. change ((12 + 512 / 4) * 512) with 71680 in Hs.
    assert (p / 512 < 140)%nat as Hbn by (apply Nat.Div0.div_lt_upper_bound; lia).
    pose proof (Nat.div_mod p 512 ltac:(lia)). pose proof (Nat.mod_upper_bound p 512 ltac:(lia)).
    unfold fbyte. cbn [Nat.add]. rewrite Hslot by by apply sidx_lt.
    rewrite (frame_block V a V' a'); try done; [by apply sidx_lt|]. apply Hfu; lia.
Qed.

(** Another inode and its file. *)
Record apart (V : Z -> list Z) (i j : inode) : Prop := {
  ap_file : file_ok N sb V j;
  ap_sync : synced sb V j;
  ap_inum : 0 <= i_inum j < sb_ninodes sb;
  ap_ne : i_inum j <> i_inum i;
  ap_disj : disjoint_files V (i_addrs i) (i_addrs j)
}.

Lemma dinode_apart i j : 0 <= i_inum i -> 0 <= i_inum j -> i_inum j <> i_inum i ->
  inode_block sb i = inode_block sb j ->
  (dinode_off (i_inum j) + 64 <= dinode_off (i_inum i) \/
   dinode_off (i_inum i) + 64 <= dinode_off (i_inum j))%nat.
Proof.
  intros Hi Hj Hne Hb. unfold inode_block, dinode_off in *. change IPB with 8 in *. unfold DINODE.
  pose proof (Z.div_mod (i_inum i) 8). pose proof (Z.div_mod (i_inum j) 8).
  pose proof (Z.mod_pos_bound (i_inum i) 8). pose proof (Z.mod_pos_bound (i_inum j) 8). lia.
Qed.
End frame.

Section theorems.
Context {S : Type} `{!Cache S, !CacheSpec S} {base : txn}.
Context (N start size : Z) (sb : superblock).
Context (dev_read : Z -> option (nat -> Z -> M (fs S) (Z * list Z))).
Context (dev_write : Z -> option (nat -> list Z -> Z -> M (fs S) Z)).

Lemma fs_may_buf o : no_buffers o -> fs_may o.
Proof. by left. Qed.
Lemma fs_may_big : fs_may too_big.
Proof. by right; left. Qed.
Lemma fs_may_full : fs_may (Some "balloc: out of blocks").
Proof. by right; right. Qed.

(** The file of inode [i] with all its bytes. *)
Definition file_bytes (V : Z -> list Z) (i : inode) : list Z :=
  content V (i_addrs i) (Z.to_nat (i_size i)).

(** An allocated inode in the inode cache. *)
Record inode_ok (V : Z -> list Z) (i : inode) : Prop := {
  io_file : file_ok N sb V i;
  io_sync : synced sb V i;
  io_typed : inode_typed i;
  io_inum : 0 <= i_inum i < sb_ninodes sb
}.

(** [balloc] hands out the lowest free data block, zeroed and marked used; no other
    bit of the map and no other block changes; it panics ("balloc: out of blocks")
    only when every block is in use. *)
Theorem balloc_exact l V H ic :
  layout N start size sb -> low N start size (base := base) l V H -> meta_used sb V -> held_data sb V H ->
  wp (fun o => no_buffers o \/ o = too_big \/
        o = Some "balloc: out of blocks" /\ forall b, 0 <= b < N -> used sb V b = true)
    (balloc ROOTDEV) (Fs l sb ic) (fun b s' => exists l' V',
      s' = Fs l' sb ic /\ low N start size (base := base) l' V' H /\
      dstart sb <= b < N /\ used sb V b = false /\ (forall y, 0 <= y < b -> used sb V y = true) /\
      V' b = replicate 512 0 /\
      (forall y, 0 <= y < N -> used sb V' y = bool_decide (y = b) || used sb V y) /\
      (forall y, y < sb_bmapstart sb \/ dstart sb <= y -> y <> b -> V' y = V y)).
Proof.
  intros Hly Hl Hm Hh. eapply (wp_balloc N start size sb Hly); [by left|by right; left|done|done|done| |].
  - intros x l' Hx Hu Hall Hl'. pose proof (dstart_range N start size sb Hly).
    exists l', (alloc sb V x). split_and!; try done; try lia.
    + unfold alloc. apply bupd_eq.
    + intros y Hy. apply (alloc_used N start size sb Hly); [by eapply low_sized|done|done].
    + intros y Hy Hne. apply (alloc_other N start size sb Hly); [lia|done|done].
  - intros Hall. right. right. done.
Qed.

(** [bfree] clears the bit of a used block and changes nothing else; for a free
    block it panics ("freeing free block"). *)
Theorem bfree_exact l V H ic b :
  layout N start size sb -> low N start size (base := base) l V H -> held_data sb V H -> 0 <= b < N ->
  wp (fun o => no_buffers o \/ o = too_big \/
        o = Some "freeing free block" /\ used sb V b = false)
    (bfree ROOTDEV b) (Fs l sb ic) (fun _ s' => exists l' V',
      s' = Fs l' sb ic /\ low N start size (base := base) l' V' H /\ used sb V b = true /\
      (forall y, 0 <= y < N -> used sb V' y = negb (bool_decide (y = b)) && used sb V y) /\
      (forall y, y < sb_bmapstart sb \/ dstart sb <= y -> V' y = V y)).
Proof.
  intros Hly Hl Hh Hb. pose proof (dstart_range N start size sb Hly) as Hds.
  pose proof (bitmap_range N start size sb Hly b Hb) as [Hbr _].
  eapply (wp_bfree N start size sb Hly); [by left|by right; left|done|done|done| |].
  - intros Hu l' Hl'. exists l', (mark_free sb V b). split_and!; try done.
    + intros y Hy. apply used_mark_free; [lia|lia|]. eapply low_block_size; [exact Hl|lia].
    + intros y Hy. unfold mark_free, mark. apply bupd_ne. lia.
  - intros Hu. right. right. done.
Qed.

(** [readi] reads the file's bytes: all of [n] or up to the end of the file, or -1
    when [off] is beyond the end or [off + n] overflows; the file system is unchanged. *)
Theorem readi_reads_content l V H ic ip i off n :
  layout N start size sb -> low N start size (base := base) l V H -> (forall h, H h = None) ->
  ic !! ip = Some i -> file_ok N sb V i -> 0 <= off < 2 ^ 32 -> 0 <= n < 2 ^ 32 ->
  wp no_buffers (readi dev_read ip off n) (Fs l sb ic) (fun r s' => exists l',
    s' = Fs l' sb ic /\ low N start size (base := base) l' V H /\
    r = if (i_size i <? off) || (2 ^ 32 <=? off + n) then (-1, [])
        else let m := Z.min n (i_size i - off) in
             (m, take (Z.to_nat m) (drop (Z.to_nat off) (file_bytes V i)))).
Proof.
  intros Hly Hl HH Hi Hf Hoff Hn. eapply (wp_readi N start size sb Hly); try done.
  intros l' Hl'. exists l'. split_and!; [done|done|]. unfold readi_result, file_bytes.
  rewrite length_content, Z2Nat.id by apply Hf. done.
Qed.

(** What a write of [d] at [off] makes of inode [i] (now [i']), its file, the other
    files and the bitmap. *)
Record written (V : Z -> list Z) (i : inode) (off : nat) (d : list Z) (V' : Z -> list Z) (i' : inode)
    : Prop := {
  wr_ok : inode_ok V' i';
  wr_meta : meta_used sb V';
  wr_bytes : file_bytes V' i' = splice (file_bytes V i) off d;
  wr_size : i_size i' = Z.max (i_size i) (Z.of_nat (off + length d));
  wr_inode : i' = set_i_size (i_size i') (with_addrs (i_addrs i') i);
  wr_other j : apart N sb V i j ->
    file_ok N sb V' j /\ synced sb V' j /\ file_bytes V' j = file_bytes V j
}.

Lemma fframe_sync V a V' a' j : layout N start size sb -> fframe N sb V a V' a' ->
  0 <= i_inum j < sb_ninodes sb -> synced sb V j -> synced sb V' j.
Proof.
  intros Hly Hf Hj Hs. destruct (inode_block_range N start size sb Hly j Hj) as (Hr & _).
  unfold synced. rewrite (ff_same _ _ _ _ _ _ Hf) by (left; lia). done.
Qed.

Lemma update_sync V i j : layout N start size sb -> length (i_addrs i) = 13%nat ->
  0 <= i_inum i < sb_ninodes sb -> 0 <= i_inum j < sb_ninodes sb -> i_inum j <> i_inum i ->
  length (V (inode_block sb i)) = 512%nat -> synced sb V j ->
  synced sb (bupd V (inode_block sb i)
    (put_dinode (V (inode_block sb i)) (dinode_off (i_inum i)) i)) j.
Proof.
  intros Hly Ha Hi Hj Hne Hl Hs. destruct (inode_block_range N start size sb Hly i Hi) as (_ & _ & Ho).
  unfold synced, bupd. case_decide as Hb; [|done]. etransitivity; [|exact Hs]. rewrite Hb.
  apply get_dinode_slice. intros o m Ho1 Ho2. apply put_dinode_other; [done|lia|].
  destruct (dinode_apart sb i j); lia.
Qed.

Lemma inode_typed_addrs V i a sz : inode_typed i -> layout N start size sb -> map_ok N sb V a ->
  0 <= sz < 2 ^ 32 -> inode_typed (set_i_size sz (with_addrs a i)).
Proof.
  intros [] Hly Hm Hsz. pose proof (ly_max _ _ _ _ Hly). pose proof (dstart_range N start size sb Hly) as Hds.
  split; cbn; try done; [apply Hm|].
  intros x [k Hk]%list_elem_of_lookup. unfold u32_ok.
  pose proof (lookup_lt_Some _ _ _ Hk) as Hlt. rewrite (mo_len _ _ _ _ Hm) in Hlt.
  destruct (decide (x = 0)) as [->|Hz]; [lia|].
  destruct (mo_used _ _ _ _ Hm k) as [Hr _]; [lia| |].
  - rewrite slot_direct by lia. by rewrite (nth_lookup_Some _ _ _ _ Hk).
  - rewrite slot_direct in Hr by lia. rewrite (nth_lookup_Some _ _ _ _ Hk) in Hr. lia.
Qed.

(** The file grew: the new size and addresses are stored in the disk inode. *)
Lemma written_grown V i off d V1 a1 sz : layout N start size sb -> sized N V1 ->
  inode_ok V i -> meta_used sb V1 -> map_ok N sb V1 a1 ->
  Z.to_nat sz = Nat.max (Z.to_nat (i_size i)) (off + length d) ->
  sz = Z.of_nat (off + length d) -> i_size i < sz -> sz <= MAXFILE * BSIZE ->
  full V1 a1 (Z.to_nat sz) -> content V1 a1 (Z.to_nat sz) = splice (file_bytes V i) off d ->
  fframe N sb V (i_addrs i) V1 a1 ->
  let i' := set_i_size sz (with_addrs a1 i) in
  written V i off d (bupd V1 (inode_block sb i')
    (put_dinode (V1 (inode_block sb i')) (dinode_off (i_inum i')) i')) i'.
Proof.
  intros Hly Hs1 [[Hdev Hty Hm [Hs0 Hs] Hf] Hsy Hit Hin] Hmeta Hm1 Hsz Hsz' Hlt Hmax Hf1 Hc1 Hff i'.
  pose proof (dstart_range N start size sb Hly) as Hds. pose proof (ly_inodes _ _ _ _ Hly) as Hly1.
  pose proof (ly_start _ _ _ _ Hly) as Hly2. pose proof (ly_lsize _ _ _ _ Hly) as Hly3.
  change (MAXFILE * BSIZE) with 71680 in *.
  destruct (inode_block_range N start size sb Hly i' Hin) as (Hr & _ & Ho).
  assert (inode_typed i') as Hit' by (apply (inode_typed_addrs V1); (done || lia)).
  assert (file_ok N sb V1 i') as Hfo by (split; cbn; (done || (change (MAXFILE * BSIZE) with 71680; lia))).
  assert (length (V1 (inode_block sb i')) = 512%nat) as Hl by (apply Hs1; lia).
  destruct (file_ok_meta N start size sb Hly V1 i' (inode_block sb i')
    (put_dinode (V1 (inode_block sb i')) (dinode_off (i_inum i')) i') Hfo Hr) as [Hfo' Hc'].
  split.
  - split; [done|by eapply synced_update|done|done].
  - intros b Hb. unfold used. rewrite bupd_ne; [by apply Hmeta|].
    pose proof (bitmap_range N start size sb Hly b ltac:(lia)). lia.
  - unfold file_bytes at 1. rewrite Hc'. exact Hc1.
  - cbn. lia.
  - done.
  - intros j [Hfj Hsj Hij Hne Hdj]. destruct (frame_file N start size sb Hly V _ V1 a1 j Hff Hfj Hdj) as [Hfj1 Hcj].
    destruct (file_ok_meta N start size sb Hly V1 j (inode_block sb i')
      (put_dinode (V1 (inode_block sb i')) (dinode_off (i_inum i')) i') Hfj1 Hr) as [Hfj2 Hcj2].
    split; [done|]. split; [|unfold file_bytes; congruence].
    apply update_sync; try done; [apply Hm1|]. by eapply fframe_sync.
Qed.

(** Bytes that were there are overwritten. *)
Lemma written_same V i off d V1 : layout N start size sb ->
  inode_ok V i -> meta_used sb V1 -> map_ok N sb V1 (i_addrs i) ->
  (off + length d <= Z.to_nat (i_size i))%nat -> full V1 (i_addrs i) (Z.to_nat (i_size i)) ->
  file_bytes V1 i = splice (file_bytes V i) off d ->
  fframe N sb V (i_addrs i) V1 (i_addrs i) -> written V i off d V1 i.
Proof.
  intros Hly [[Hdev Hty Hm [Hs0 Hs] Hf] Hsy Hit Hin] Hmeta Hm1 Hle Hf1 Hc1 Hff. split; try done.
  - split; try done. by eapply fframe_sync.
  - lia.
  - by destruct i.
  - intros j [Hfj Hsj Hij Hne Hdj]. destruct (frame_file N start size sb Hly V _ V1 _ j Hff Hfj Hdj) as [Hfj1 Hcj].
    split; [done|]. split; [by eapply fframe_sync|done].
Qed.

Lemma wp_writei l V H ic ip i src off n Q :
  layout N start size sb -> low N start size (base := base) l V H -> (forall h, H h = None) ->
  ic !! ip = Some i -> inode_ok V i -> meta_used sb V ->
  0 <= off < 2 ^ 32 -> 0 <= n < 2 ^ 32 -> n <= Z.of_nat (length src) ->
  (i_size i < off \/ 2 ^ 32 <= off + n \/ MAXFILE * BSIZE < off + n -> Q (-1) (Fs l sb ic)) ->
  (off <= i_size i -> off + n <= MAXFILE * BSIZE ->
   forall l' V' i', low N start size (base := base) l' V' H ->
     written V i (Z.to_nat off) (take (Z.to_nat n) src) V' i' ->
     Q n (Fs l' sb (<[ip := i']> ic))) ->
  wp fs_may (writei dev_write ip src off n) (Fs l sb ic) Q.
Proof.
  intros Hly Hl HH Hi [[Hdev Hty Hm [Hs0 Hs] Hf] Hsy Hit Hin] Hmeta Hoff Hn Hsrc Hbad HQ.
  unfold writei. wbind. eapply wp_get_i; [exact Hi|]. rewrite (proj2 (Z.eqb_neq _ _)) by done.
  change (MAXFILE * BSIZE) with 71680 in *.
  destruct (Z.ltb_spec (i_size i) off) as [Hgt|Hle]; cbn [orb].
  { apply wp_ret. apply Hbad. lia. }
  destruct (Z.le_gt_cases (2 ^ 32) (off + n)) as [Hov|Hno].
  { assert (u32 (off + n) < off) as Hw.
    { unfold u32. rewrite <- (Z_mod_plus_full _ (-1)). rewrite Z.mod_small by lia. lia. }
    rewrite (proj2 (Z.ltb_lt _ _)) by done. apply wp_ret. apply Hbad. lia. }
  rewrite (u32_small (off + n)) by lia. rewrite (proj2 (Z.ltb_ge (off + n) off)) by lia.
  destruct (Z.ltb_spec 71680 (off + n)) as [Hbig|Hfit].
  { apply wp_ret. apply Hbad. lia. }
  specialize (HQ Hle Hfit). wbind.
  assert (writei_loop (Z.to_nat n) ip src off n 0 =
    writei_loop (Z.to_nat n) ip src (Z.of_nat (Z.to_nat off)) (Z.of_nat (Z.to_nat n + 0)) (Z.of_nat 0))
    as -> by (f_equal; lia).
  eapply (wp_writei_loop N start size sb Hly fs_may fs_may_buf fs_may_big fs_may_full H ip HH _ _ _ _ _ _ _ i ic
    (Z.to_nat (i_size i))); try done; try lia.
  intros l1 V1 a1 H1 Hmeta1 Hm1 Hf1 Hc1 Hff Hsame.
  assert (length (take (Z.to_nat n) src) = Z.to_nat n) as Hlt by (rewrite length_take; lia).
  wbind. eapply wp_get_i; [by apply list_lookup_insert_eq, (lookup_lt_Some _ _ _ Hi)|]. cbn [with_addrs i_size].
  replace (Z.of_nat (Z.to_nat off + Z.to_nat n)) with (off + n) by lia.
  destruct (Z.ltb_spec (i_size i) (off + n)) as [Hgrow|Hin_place].
  - rewrite (proj2 (Z.ltb_lt 0 n)) by lia. cbn [andb].
    wbind. eapply wp_upd_i; [by apply list_lookup_insert_eq, (lookup_lt_Some _ _ _ Hi)|].
    rewrite list_insert_insert_eq.
    eapply (wp_iupdate N start size sb Hly _ fs_may_buf fs_may_big l1 V1 H _ ip);
      [exact H1|done|by apply list_lookup_insert_eq, (lookup_lt_Some _ _ _ Hi)|done|done|apply Hm1|].
    intros l2 H2. apply wp_ret. eapply HQ; [exact H2|].
    eapply (written_grown V i _ _ V1 a1 (off + n)); try done; rewrite ?Hlt; try lia.
    + by eapply low_sized.
    + replace (Z.to_nat (off + n)) with (Nat.max (Z.to_nat (i_size i)) (Z.to_nat off + Z.to_nat n)) by lia. done.
    + replace (Z.to_nat (off + n)) with (Nat.max (Z.to_nat (i_size i)) (Z.to_nat off + Z.to_nat n)) by lia. done.
  - rewrite andb_false_r. wbind. apply wp_ret. apply wp_ret. rewrite (Hsame ltac:(lia)) in *. rewrite with_addrs_id.
    rewrite Nat.max_l in * by lia. eapply HQ; [exact H1|]. eapply written_same; try done. lia.
Qed.

(** C9. [writei] overwrites or extends the file's bytes: afterwards they are the old
    ones with the new ones spliced in at [off], and the size is the maximum of the old
    size and [off + n]. The disk inode agrees with the cached one, the bitmap covers
    the new blocks, and every other file keeps its blocks, bytes and disk inode. A
    write that starts beyond the end or would exceed the largest file returns -1 and
    changes nothing. *)
Theorem writei_splices_content l V H ic ip i src off n :
  layout N start size sb -> low N start size (base := base) l V H -> (forall h, H h = None) ->
  ic !! ip = Some i -> inode_ok V i -> meta_used sb V ->
  0 <= off < 2 ^ 32 -> 0 <= n < 2 ^ 32 -> n <= Z.of_nat (length src) ->
  wp fs_may (writei dev_write ip src off n) (Fs l sb ic) (fun r s' =>
    if (i_size i <? off) || (2 ^ 32 <=? off + n) || (MAXFILE * BSIZE <? off + n)
    then r = -1 /\ s' = Fs l sb ic
    else r = n /\ exists l' V' i', s' = Fs l' sb (<[ip := i']> ic) /\ low N start size (base := base) l' V' H /\
           written V i (Z.to_nat off) (take (Z.to_nat n) src) V' i').
Proof.
  intros Hly Hl HH Hi Hok Hm Hoff Hn Hsrc. eapply wp_writei; try done.
  - intros Hbad. replace ((i_size i <? off) || (2 ^ 32 <=? off + n) || (MAXFILE * BSIZE <? off + n))
      with true; [done|]. symmetry. rewrite !orb_true_iff, !Z.ltb_lt, Z.leb_le. lia.
  - intros Hle Hfit l' V' i' Hl' Hw.
    replace ((i_size i <? off) || (2 ^ 32 <=? off + n) || (MAXFILE * BSIZE <? off + n)) with false.
    { split; [done|]. eauto 10. }
    symmetry. rewrite !orb_false_iff, !Z.ltb_ge, Z.leb_gt. change (MAXFILE * BSIZE) with 71680 in *. lia.
Qed.
End theorems.
