(* ===== verification/FsDir.v ===== *)
(** [fs.c]: directories and path names. A directory is the list of its entries;
    [dirlookup] finds the first one with the name, [dirlink] fills the first free one
    or appends, and [skipelem] cuts a path at its slashes. *)

From S2P Require Import Prelude CString Sleeplock Cache Log LogSpec LogRes Fs FsSpec FsFile FsRw FsThm.

(** * The inode cache *)

Definition cached (dev inum : Z) (i : inode) : bool :=
  (0 <? i_ref i) && (i_dev i =? dev) && (i_inum i =? inum).
Definition unused (i : inode) : bool := i_ref i =? 0.

Lemma iget_scan_eq dev inum l : forall ip empty,
  iget_scan dev inum l ip empty =
  match findi (cached dev inum) l with
  | Some j => inl (ip + j)%nat
  | None => inr (match empty with
                 | Some e => Some e
                 | None => (fun j => ip + j)%nat <$> findi unused l
                 end)
  end.
Proof.
  induction l as [|i l IH]; intros ip empty; cbn [iget_scan findi]; [by destruct empty|].
  unfold cached at 1, unused at 1. destruct (_ && _ && _) eqn:Hc.
  - by rewrite Nat.add_0_r.
  - rewrite IH. destruct (findi (cached dev inum) l) as [j|] eqn:Hf; cbn.
    + f_equal. lia.
    + destruct empty as [e|]; [done|]. destruct (i_ref i =? 0) eqn:He; cbn.
      * by rewrite Nat.add_0_r.
      * destruct (findi unused l); cbn; [|done]. do 2 f_equal. lia.
Qed.

(** The inode cache after [iget], and the entry it returns. *)
Definition iget_result (dev inum : Z) (ic : list inode) : option (nat * list inode) :=
  match findi (cached dev inum) ic with
  | Some j => i ← ic !! j; Some (j, <[j := set_i_ref (i_ref i + 1) i]> ic)
  | None =>
      j ← findi unused ic; i ← ic !! j;
      Some (j, <[j := Inode dev inum 1 (i_lock i) false (i_type i) (i_major i) (i_minor i)
                        (i_nlink i) (i_size i) (i_addrs i)]> ic)
  end.

Section iget.
Context {S : Type}.

Lemma iget_run (l : lst S) sb ic dev inum :
  iget dev inum (Fs l sb ic) =
  match iget_result dev inum ic with
  | Some (j, ic') => Ret (j, Fs l sb ic')
  | None => Panic "iget: no inodes"
  end.
Proof.
  unfold iget, iget_result, bind, gets. cbn [f_ic]. rewrite iget_scan_eq. cbn [Nat.add].
  destruct (findi (cached dev inum) ic) as [j|] eqn:Hf.
  - destruct (lookup_lt_is_Some_2 ic j) as [i Hi]; [by apply (findi_lookup_lt _ _ _ Hf)|].
    cbn. unfold upd_i. cbn. by rewrite Hi.
  - destruct (findi unused ic) as [j|] eqn:Hu; [|done].
    destruct (lookup_lt_is_Some_2 ic j) as [i Hi]; [by apply (findi_lookup_lt _ _ _ Hu)|].
    cbn. unfold upd_i. cbn. by rewrite Hi.
Qed.
End iget.

(** No inode is cached twice, and reference counts are not negative. *)
Record icache_ok (ic : list inode) : Prop := {
  ic_ref j i : ic !! j = Some i -> 0 <= i_ref i;
  ic_uniq j j' i i' : ic !! j = Some i -> ic !! j' = Some i' -> 0 < i_ref i -> 0 < i_ref i' ->
    i_dev i = i_dev i' -> i_inum i = i_inum i' -> j = j'
}.

Lemma icache_insert ic j i' : icache_ok ic -> 0 <= i_ref i' ->
  (forall k i, k <> j -> ic !! k = Some i -> 0 < i_ref i -> 0 < i_ref i' ->
     ~ (i_dev i = i_dev i' /\ i_inum i = i_inum i')) ->
  icache_ok (<[j := i']> ic).
Proof.
  intros [Href Huniq] Hr Hne. split.
  - intros k i Hk. apply list_lookup_insert_Some in Hk as [(-> & <- & _)|[_ Hk]]; eauto.
  - intros k k' a b Ha Hb Hra Hrb Hd Hi.
    apply list_lookup_insert_Some in Ha as [(-> & <- & _)|[Hka Ha]];
      apply list_lookup_insert_Some in Hb as [(<- & <- & _)|[Hkb Hb]]; [done|..].
    + exfalso. by apply (Hne k' b).
    + exfalso. by apply (Hne k a).
    + by apply (Huniq k k' a b).
Qed.

(** C32. [iget] keeps the inode cache consistent: it returns the entry of the inode if it
    is cached, with one more reference, and otherwise claims a free entry with one
    reference, to be read from the disk. No inode is ever cached twice; [iget] panics
    only when every entry is referenced and none is this inode. *)
Theorem iget_unique {S} (l : lst S) sb ic dev inum :
  icache_ok ic ->
  match iget dev inum (Fs l sb ic) with
  | Ret (j, s') => exists ic' i', s' = Fs l sb ic' /\ icache_ok ic' /\ ic' !! j = Some i' /\
      i_dev i' = dev /\ i_inum i' = inum /\
      (forall k, k <> j -> ic' !! k = ic !! k) /\
      (i_ref i' = 1 /\ i_valid i' = false \/
       exists i, ic !! j = Some i /\ 0 < i_ref i /\ i' = set_i_ref (i_ref i + 1) i)
  | Panic e => e = "iget: no inodes" /\
      forall j i, ic !! j = Some i -> i_ref i <> 0 /\ ~ (0 < i_ref i /\ i_dev i = dev /\ i_inum i = inum)
  | _ => False
  end.
Proof.
  intros Hok. pose proof Hok as [Href Huniq]. rewrite iget_run. unfold iget_result.
  destruct (findi (cached dev inum) ic) as [j|] eqn:Hf.
  - apply findi_Some in Hf as (i & Hi & Hc & _). unfold cached in Hc. bsplit. cbv beta iota. rewrite Hi. cbn.
    eexists _, _. split; [done|]. split; [apply icache_insert; [done|cbn; lia|]|].
    { cbn. intros k i2 Hk Hi2 H2 _ [Hd Hn]. apply Hk. apply (Huniq k j i2 i); try done; lia. }
    split; [apply list_lookup_insert_eq; by eapply lookup_lt_Some|]. cbn. split_and!; try done.
    + intros k Hk. by apply list_lookup_insert_ne.
    + right. exists i. split_and!; try done; lia.
  - rewrite findi_None in Hf. destruct (findi unused ic) as [j|] eqn:Hu.
    + apply findi_Some in Hu as (i & Hi & _ & _). cbn. rewrite Hi. cbn. eexists _, _. split; [done|].
      split; [apply icache_insert; [done|cbn; lia|]|].
      { cbn. intros k i2 Hk Hi2 H2 _ [Hd Hn]. specialize (Hf i2 (list_elem_of_lookup_2 _ _ _ Hi2)).
        unfold cached in Hf. rewrite Hd, Hn, !Z.eqb_refl, (proj2 (Z.ltb_lt _ _)) in Hf by done. done. }
      split; [apply list_lookup_insert_eq; by eapply lookup_lt_Some|]. cbn. split_and!; try done.
      * intros k Hk. by apply list_lookup_insert_ne.
      * by left.
    + cbn. split; [done|]. rewrite findi_None in Hu. intros j i Hi%list_elem_of_lookup_2.
      specialize (Hf i Hi). specialize (Hu i Hi). unfold unused in Hu. split; [lia|].
      intros (H1 & H2 & H3). unfold cached in Hf.
      rewrite H2, H3, !Z.eqb_refl, (proj2 (Z.ltb_lt _ _)) in Hf by done. done.
Qed.

(** * Directory entries *)

(** Entry [k] of a directory with bytes [c], and all of them. *)
Definition entry (c : list Z) (k : nat) : list Z := take 16 (drop (16 * k) c).
Definition entries (c : list Z) : list (list Z) := entry c <$> seq 0 (length c / 16).

(** Entries in use that hold the name: the names agree up to [DIRSIZ] bytes. *)
Definition names (name de : list Z) : bool :=
  negb (de_inum de =? 0) && bool_decide (cname 14 name = cname 14 (de_name de)).
Definition free_entry (de : list Z) : bool := de_inum de =? 0.

Lemma entries_lookup c k : (16 * k + 16 <= length c)%nat -> entries c !! k = Some (entry c k).
Proof.
  intros Hk. unfold entries. rewrite list_lookup_fmap, lookup_seq_lt; [done|].
  assert (16 * S k <= length c)%nat by lia. pose proof (Nat.Div0.div_le_mono (16 * S k) (length c) 16 H).
  rewrite (Nat.mul_comm 16), Nat.div_mul in H0 by lia. lia.
Qed.

Lemma length_entries c : length (entries c) = (length c / 16)%nat.
Proof. unfold entries. by rewrite length_fmap, length_seq. Qed.

Lemma entry_length c k : (16 * k + 16 <= length c)%nat -> length (entry c k) = 16%nat.
Proof. intros Hk. unfold entry. rewrite length_take, length_drop. lia. Qed.

Lemma entry_bytes c k : Forall byte_ok c -> Forall byte_ok (entry c k).
Proof. intros Hc. unfold entry. by apply Forall_take, Forall_drop. Qed.

Lemma entries_splice c k e j : length c = (16 * (length c / 16))%nat -> (16 * k <= length c)%nat ->
  length e = 16%nat ->
  entries (splice c (16 * k) e) !! j = if decide (j = k) then Some e else entries c !! j.
Proof.
  intros Hc Hk He. assert (length (splice c (16 * k) e) = Nat.max (length c) (16 * k + 16)) as Hl
    by (rewrite length_splice_extend; lia).
  assert (length (splice c (16 * k) e) / 16 = Nat.max (length c / 16) (k + 1))%nat as Hd.
  { rewrite Hl. set (q := (length c / 16)%nat) in *. rewrite Hc.
    replace (Nat.max (16 * q) (16 * k + 16)) with (Nat.max q (k + 1) * 16)%nat by lia. by rewrite Nat.div_mul. }
  destruct (decide (j < Nat.max (length c / 16) (k + 1))%nat) as [Hj|Hj].
  2: { rewrite decide_False by lia. rewrite !lookup_ge_None_2; [done| |]; rewrite length_entries; lia. }
  rewrite entries_lookup by lia. unfold entry. case_decide as Hjk.
  - subst j. f_equal. unfold splice. rewrite drop_app_length' by (rewrite length_take; lia).
    by rewrite take_app_length'.
  - rewrite entries_lookup by lia. unfold entry. f_equal. apply list_eq. intros x.
    destruct (decide (x < 16)%nat); [|by rewrite !lookup_take_ge by lia].
    rewrite !lookup_take_lt, !lookup_drop by lia. rewrite splice_lookup_extend by lia.
    by rewrite decide_False by lia.
Qed.

Lemma de_inum_bytes inum nm : 0 <= inum < 2 ^ 16 -> de_inum (le_bytes 2 inum ++ nm) = inum.
Proof.
  intros Hi. unfold de_inum, getn. rewrite drop_0. rewrite take_app_length' by by rewrite length_le_bytes.
  rewrite le_word_bytes. change (256 ^ Z.of_nat 2) with (2 ^ 16). rewrite Z.mod_mod by lia. by apply Z.mod_small.
Qed.

Lemma de_name_bytes inum nm : de_name (le_bytes 2 inum ++ nm) = nm.
Proof. unfold de_name. by rewrite drop_app_length' by by rewrite length_le_bytes. Qed.

Lemma namecmp_eq name de : readable 14 name = true -> Forall byte_ok name -> length de = 16%nat ->
  Forall byte_ok de -> exists r, namecmp name (de_name de) = Some r /\
    (r =? 0) = bool_decide (cname 14 name = cname 14 (de_name de)).
Proof.
  intros Hn Hb Hl Hd. unfold namecmp, Kernel.strncmp, DIRSIZ. change (Z.to_nat 14) with 14%nat.
  destruct (strncmp_loop_total 14 name (de_name de)) as [r Hr]; [done| |].
  { apply readable_length. unfold de_name. rewrite length_drop. lia. }
  exists r. split; [done|]. pose proof (strncmp_loop_zero 14 name (de_name de) r Hb) as Hz.
  specialize (Hz ltac:(by apply Forall_drop) Hr). case_bool_decide as Hc; destruct (Z.eqb_spec r 0); tauto.
Qed.

(** A directory that is not being changed. *)
Record dir_ok (N : Z) (sb : superblock) (V : Z -> list Z) (i : inode) : Prop := {
  do_file : file_ok N sb V i;
  do_type : i_type i = T_DIR;
  do_size : i_size i mod DIRENT = 0;
  do_bytes : Forall byte_ok (file_bytes V i)
}.

Section dir.
Context {S : Type} `{!Cache S, !CacheSpec S} {base : txn}.
Context (N start size : Z) (sb : superblock).
Context (dev_read : Z -> option (nat -> Z -> M (fs S) (Z * list Z))).
Context (dev_write : Z -> option (nat -> list Z -> Z -> M (fs S) Z)).
Context (may : option string -> Prop) (Hbuf : forall o, no_buffers o -> may o).
Local Abbreviation wpf := (wp (S := fs S) may).
Local Abbreviation low := (low N start size (base := base)).

Lemma wp_iget (l : lst S) ic dev inum Q :
  (forall j ic', iget_result dev inum ic = Some (j, ic') -> Q j (Fs l sb ic')) ->
  (iget_result dev inum ic = None -> may (Some "iget: no inodes")) ->
  wpf (iget dev inum) (Fs l sb ic) Q.
Proof.
  intros HQ Hn. unfold wp. rewrite iget_run. destruct (iget_result dev inum ic) as [[j ic']|]; eauto.
Qed.

Lemma length_file_bytes V i : length (file_bytes V i) = Z.to_nat (i_size i).
Proof. unfold file_bytes. apply length_content. Qed.

(** One entry, as [dirlookup] and [dirlink] read it. *)
Lemma wp_read_entry l V H ic dp i k Q :
  layout N start size sb -> low l V H -> (forall h, H h = None) -> ic !! dp = Some i ->
  file_ok N sb V i -> 16 * Z.of_nat k + 16 <= i_size i ->
  (forall l', low l' V H -> Q (DIRENT, entry (file_bytes V i) k) (Fs l' sb ic)) ->
  wpf (readi dev_read dp (16 * Z.of_nat k) DIRENT) (Fs l sb ic) Q.
Proof.
  intros Hly Hl HH Hi Hf Hk HQ. pose proof (fo_size _ _ _ _ Hf) as Hs. change (MAXFILE * BSIZE) with 71680 in Hs.
  eapply (wp_readi N start size sb Hly); try done; [lia|]. intros l' Hl'. specialize (HQ l' Hl').
  unfold readi_result. rewrite length_content, Z2Nat.id by lia. unfold DIRENT in *.
  rewrite (proj2 (Z.ltb_ge _ _)), (proj2 (Z.leb_gt _ _)) by lia. cbn [orb].
  rewrite Z.min_l by lia. replace (Z.to_nat (16 * Z.of_nat k)) with (16 * k)%nat by lia. exact HQ.
Qed.

Lemma wp_dirlookup_loop V H ic dp i name Q :
  layout N start size sb -> (forall h, H h = None) -> ic !! dp = Some i -> dir_ok N sb V i ->
  readable 14 name = true -> Forall byte_ok name ->
  (forall l', low l' V H -> findi (names name) (entries (file_bytes V i)) = None ->
     Q None (Fs l' sb ic)) ->
  (forall l' k de ip ic', low l' V H ->
     findi (names name) (entries (file_bytes V i)) = Some k -> entries (file_bytes V i) !! k = Some de ->
     iget_result (i_dev i) (de_inum de) ic = Some (ip, ic') ->
     Q (Some (ip, 16 * Z.of_nat k)) (Fs l' sb ic')) ->
  may (Some "iget: no inodes") ->
  forall fuel k l, low l V H -> i_size i <= 16 * Z.of_nat (k + fuel) -> 16 * Z.of_nat k <= i_size i ->
  (forall j de, (j < k)%nat -> entries (file_bytes V i) !! j = Some de -> names name de = false) ->
  wpf (dirlookup_loop dev_read fuel dp name (16 * Z.of_nat k)) (Fs l sb ic) Q.
Proof.
  intros Hly HH Hi [Hf Hty Hmod Hb] Hn Hbn HN HS Hig.
  pose proof (fo_size _ _ _ _ Hf) as Hs. change (MAXFILE * BSIZE) with 71680 in Hs.
  assert (length (entries (file_bytes V i)) = Z.to_nat (i_size i / 16)) as Hlen.
  { rewrite length_entries, length_file_bytes. rewrite Z2Nat.inj_div by lia. done. }
  unfold DIRENT in Hmod. pose proof (Z.div_mod (i_size i) 16 ltac:(lia)) as Hdm. rewrite Hmod in Hdm.
  induction fuel as [|fuel IH]; intros k l Hl Hfuel Hk Hpre; cbn [dirlookup_loop].
  all: wbind; (eapply wp_get_i; [exact Hi|]).
  all: destruct (Z.ltb_spec (16 * Z.of_nat k) (i_size i)) as [Hlt|Hge]; try lia.
  all: try (apply wp_ret; apply HN; [done|]; apply findi_None; intros de [j Hj]%list_elem_of_lookup;
    apply (Hpre j de); [|done]; apply lookup_lt_Some in Hj; lia).
  assert (16 * Z.of_nat k + 16 <= i_size i) as Hk16 by lia.
  wbind. eapply wp_read_entry; try done. intros l1 H1. cbn [fst snd].
  set (de := entry (file_bytes V i) k).
  assert (entries (file_bytes V i) !! k = Some de) as Hde.
  { apply entries_lookup. rewrite length_file_bytes. lia. }
  assert (length de = 16%nat) as Hl16 by (apply entry_length; rewrite length_file_bytes; lia).
  rewrite Z.eqb_refl. cbn [negb].
  replace (u32 (16 * Z.of_nat k + DIRENT)) with (16 * Z.of_nat (Datatypes.S k))
    by (unfold DIRENT; rewrite u32_small; lia).
  assert (names name de = false ->
    wpf (dirlookup_loop dev_read fuel dp name (16 * Z.of_nat (Datatypes.S k))) (Fs l1 sb ic) Q) as Hnext.
  { intros Hnm. apply IH; [done|lia|lia|]. intros j de' Hj Hde'.
    destruct (decide (j = k)) as [->|]; [congruence|]. apply (Hpre j); [lia|done]. }
  unfold names in Hnext. destruct (Z.eqb_spec (de_inum de) 0) as [Hz|Hnz]; [by apply Hnext|].
  destruct (namecmp_eq name de) as (r & -> & Hr); [done|done|done|by apply entry_bytes|]. rewrite Hr.
  destruct (bool_decide _) eqn:Hnm; [|by apply Hnext].
  wbind. apply wp_iget; [|done]. intros ip ic' Hg. apply wp_ret. eapply HS; [done| |exact Hde|done].
  apply (findi_first _ _ k de); [done|unfold names; rewrite Hnm; by rewrite (proj2 (Z.eqb_neq _ _))|done].
Qed.

Lemma wp_dirlookup l V H ic dp i name Q :
  layout N start size sb -> low l V H -> (forall h, H h = None) -> ic !! dp = Some i -> dir_ok N sb V i ->
  readable 14 name = true -> Forall byte_ok name ->
  (forall l', low l' V H -> findi (names name) (entries (file_bytes V i)) = None ->
     Q None (Fs l' sb ic)) ->
  (forall l' k de ip ic', low l' V H ->
     findi (names name) (entries (file_bytes V i)) = Some k -> entries (file_bytes V i) !! k = Some de ->
     iget_result (i_dev i) (de_inum de) ic = Some (ip, ic') ->
     Q (Some (ip, 16 * Z.of_nat k)) (Fs l' sb ic')) ->
  may (Some "iget: no inodes") ->
  wpf (dirlookup dev_read dp name) (Fs l sb ic) Q.
Proof.
  intros Hly Hl HH Hi Hd Hn Hbn HN HS Hig. unfold dirlookup. wbind. eapply wp_get_i; [exact Hi|].
  pose proof (fo_size _ _ _ _ (do_file _ _ _ _ Hd)) as Hs.
  rewrite (do_type _ _ _ _ Hd), Z.eqb_refl. cbn [negb]. change 0 with (16 * Z.of_nat 0).
  eapply (wp_dirlookup_loop V H ic dp i name); try done; lia.
Qed.

Lemma wp_dirlink_slot V H ic dp i Q :
  layout N start size sb -> (forall h, H h = None) -> ic !! dp = Some i -> dir_ok N sb V i ->
  (forall l' k, low l' V H -> 16 * Z.of_nat k <= i_size i ->
     (forall de, entries (file_bytes V i) !! k = Some de -> de_inum de = 0) ->
     (16 * Z.of_nat k = i_size i \/ is_Some (entries (file_bytes V i) !! k)) ->
     Q (16 * Z.of_nat k) (Fs l' sb ic)) ->
  forall fuel k l, low l V H -> i_size i <= 16 * Z.of_nat (k + fuel) -> 16 * Z.of_nat k <= i_size i ->
  wpf (dirlink_slot dev_read fuel dp (16 * Z.of_nat k)) (Fs l sb ic) Q.
Proof.
  intros Hly HH Hi [Hf Hty Hmod Hb] HQ.
  pose proof (fo_size _ _ _ _ Hf) as Hs. change (MAXFILE * BSIZE) with 71680 in Hs.
  assert (length (entries (file_bytes V i)) = Z.to_nat (i_size i / 16)) as Hlen.
  { rewrite length_entries, length_file_bytes. rewrite Z2Nat.inj_div by lia. done. }
  unfold DIRENT in Hmod. pose proof (Z.div_mod (i_size i) 16 ltac:(lia)) as Hdm. rewrite Hmod in Hdm.
  induction fuel as [|fuel IH]; intros k l Hl Hfuel Hk; cbn [dirlink_slot].
  all: wbind; (eapply wp_get_i; [exact Hi|]).
  all: destruct (Z.ltb_spec (16 * Z.of_nat k) (i_size i)) as [Hlt|Hge]; try lia.
  all: try (apply wp_ret; apply HQ; [done|lia| |left; lia]; intros de Hde%lookup_lt_Some; lia).
  assert (16 * Z.of_nat k + 16 <= i_size i) as Hk16 by lia.
  wbind. eapply wp_read_entry; try done. intros l1 H1. cbn [fst snd].
  assert (entries (file_bytes V i) !! k = Some (entry (file_bytes V i) k)) as Hde.
  { apply entries_lookup. rewrite length_file_bytes. lia. }
  rewrite Z.eqb_refl. cbn [negb]. destruct (Z.eqb_spec (de_inum (entry (file_bytes V i) k)) 0) as [Hz|Hnz].
  - apply wp_ret. apply HQ; [done|lia| |right; by eexists]. intros de. by rewrite Hde; intros [= <-].
  - replace (16 * Z.of_nat k + DIRENT) with (16 * Z.of_nat (Datatypes.S k)) by (unfold DIRENT; lia).
    apply IH; [done|lia|lia].
Qed.
End dir.

Section dir_theorems.
Context {S : Type} `{!Cache S, !CacheSpec S} {base : txn} (pid : Z).
Context (N start size : Z) (sb : superblock).
Context (dev_read : Z -> option (nat -> Z -> M (fs S) (Z * list Z))).
Context (dev_write : Z -> option (nat -> list Z -> Z -> M (fs S) Z)).

Definition dir_may (o : option string) : Prop := fs_may o \/ o = Some "iget: no inodes".

(** [dirlookup] returns the inode of the first entry in use whose name agrees with
    the one asked for in its first [DIRSIZ] bytes, with the offset of the entry, and
    null when there is none; the directory is not changed. *)
Theorem dirlookup_first l V H ic dp i name :
  layout N start size sb -> low N start size (base := base) l V H -> (forall h, H h = None) ->
  ic !! dp = Some i -> dir_ok N sb V i -> readable 14 name = true -> Forall byte_ok name ->
  wp dir_may (dirlookup dev_read dp name) (Fs l sb ic) (fun r s' => exists l' ic',
    s' = Fs l' sb ic' /\ low N start size (base := base) l' V H /\
    match findi (names name) (entries (file_bytes V i)) with
    | None => r = None /\ ic' = ic
    | Some k => exists de ip, entries (file_bytes V i) !! k = Some de /\
        iget_result (i_dev i) (de_inum de) ic = Some (ip, ic') /\ r = Some (ip, 16 * Z.of_nat k)
    end).
Proof.
  intros Hly Hl HH Hi Hd Hn Hb.
  eapply (wp_dirlookup N start size sb); try done.
  - intros o Ho. left. by left.
  - intros l' Hl' Hf. exists l', ic. rewrite Hf. done.
  - intros l' k de ip ic' Hl' Hf Hde Hg. exists l', ic'. rewrite Hf. split; [done|]. split; [done|].
    by exists de, ip.
  - by right.
Qed.

Lemma file_bytes_aligned V i : 0 <= i_size i -> i_size i mod DIRENT = 0 ->
  length (file_bytes V i) = (16 * (length (file_bytes V i) / 16))%nat.
Proof.
  intros H0 Hm. rewrite length_file_bytes. unfold DIRENT in Hm.
  pose proof (Z.div_mod (i_size i) 16 ltac:(lia)) as Hd. rewrite Hm in Hd.
  assert (Z.to_nat (i_size i) / 16 = Z.to_nat (i_size i / 16))%nat as -> by (by rewrite Z2Nat.inj_div by lia).
  lia.
Qed.

(** The directory after entry [k] got the name and the inode number. *)
Record linked (c c' : list Z) (k : nat) (name : list Z) (inum : Z) : Prop := {
  li_new : exists de, entries c' !! k = Some de /\ de_inum de = inum /\
    cname 14 (de_name de) = cname 14 name;
  li_old j : j <> k -> entries c' !! j = entries c !! j;
  li_free de : entries c !! k = Some de -> de_inum de = 0;
  li_bound : (k <= length (entries c))%nat
}.

(** Lookups in a directory with one entry more. *)
Lemma linked_find c c' k name inum : linked c c' k name inum -> inum <> 0 ->
  findi (names name) (entries c) = None ->
  findi (names name) (entries c') = Some k /\
  forall u, cname 14 u <> cname 14 name ->
    findi (names u) (entries c') = findi (names u) (entries c).
Proof.
  intros [(de & Hk & Hin & Hnm) Hold Hfree Hbd] Hnz Hnone. rewrite findi_None in Hnone. split.
  - apply (findi_first _ _ k de); [done| |].
    + unfold names. rewrite Hin, Hnm, (proj2 (Z.eqb_neq _ _)) by done. by rewrite bool_decide_true.
    + intros j y Hj Hy. rewrite Hold in Hy by lia. apply Hnone. by eapply list_elem_of_lookup_2.
  - intros u Hu. assert (forall j y, entries c' !! j = Some y -> names u y = true ->
      entries c !! j = Some y) as Hback.
    { intros j y Hy Hm. destruct (decide (j = k)) as [->|]; [|by rewrite <- Hold].
      unfold names in Hm. apply andb_true_iff in Hm as [_ Hm%bool_decide_eq_true]. congruence. }
    assert (forall j y, entries c !! j = Some y -> names u y = true -> entries c' !! j = Some y) as Hfwd.
    { intros j y Hy Hm. destruct (decide (j = k)) as [->|]; [|by rewrite Hold].
      unfold names in Hm. rewrite (Hfree y Hy) in Hm. done. }
    destruct (findi (names u) (entries c)) as [j|] eqn:Hf.
    + apply findi_Some in Hf as (y & Hy & Hm & Hpre). apply (findi_first _ _ j y); [by apply Hfwd|done|].
      intros j' z Hj' Hz. destruct (names u z) eqn:Hmz; [|done]. rewrite <- Hmz. apply (Hpre j'); [done|].
      by apply Hback.
    + rewrite findi_None in Hf. apply findi_None. intros y [j Hj]%list_elem_of_lookup.
      destruct (names u y) eqn:Hm; [|done]. rewrite <- Hm. apply Hf.
      eapply list_elem_of_lookup_2. by apply Hback.
Qed.

(** [dirlink] of a name that the directory lacks fills a free entry or appends one:
    afterwards [dirlookup]'s search finds the new inode number under that name, finds
    for every other name what it found before, and all other files are as they were.
    It panics ("dirlink") only when a directory of the largest size is full. *)
Theorem dirlink_adds l V H ic dp i name inum :
  layout N start size sb -> low N start size (base := base) l V H -> (forall h, H h = None) ->
  ic !! dp = Some i -> inode_ok N sb V i -> dir_ok N sb V i -> meta_used sb V ->
  readable 14 name = true -> Forall byte_ok name -> 0 < inum < 2 ^ 16 ->
  findi (names name) (entries (file_bytes V i)) = None ->
  wp (fun o => dir_may o \/ o = Some "dirlink" /\ i_size i = MAXFILE * BSIZE)
    (dirlink pid dev_read dev_write dp name inum) (Fs l sb ic) (fun r s' =>
    r = 0 /\ exists l' V' i' k d, s' = Fs l' sb (<[dp := i']> ic) /\ low N start size (base := base) l' V' H /\
      written N sb V i (16 * k) d V' i' /\ dir_ok N sb V' i' /\
      linked (file_bytes V i) (file_bytes V' i') k name inum /\
      findi (names name) (entries (file_bytes V' i')) = Some k /\
      (forall u, cname 14 u <> cname 14 name ->
         findi (names u) (entries (file_bytes V' i')) = findi (names u) (entries (file_bytes V i)))).
Proof.
  intros Hly Hl HH Hi Hok Hd Hm Hn Hb Hinum Hnone. pose proof Hd as [Hf Hty Hmod Hbytes].
  pose proof (fo_size _ _ _ _ Hf) as Hs. change (MAXFILE * BSIZE) with 71680 in *.
  unfold dirlink. wbind. eapply (wp_dirlookup N start size sb); try done.
  { intros o Ho. left. left. by left. }
  2: { intros l' k de ip ic' _ Hfd. congruence. }
  2: { left. by right. }
  intros l1 H1 _. wbind. eapply wp_get_i; [exact Hi|]. wbind.
  change (dirlink_slot dev_read (Z.to_nat (i_size i)) dp 0)
    with (dirlink_slot dev_read (Z.to_nat (i_size i)) dp (16 * Z.of_nat 0)).
  eapply (wp_dirlink_slot N start size sb dev_read);
    [intros o Ho; left; left; by left|exact Hly|done|exact Hi|exact Hd| |exact H1|lia|lia].
  intros l2 k H2 Hk Hfree Hend.
  unfold Kernel.strncpy, DIRSIZ. change (Z.to_nat 14) with 14%nat.
  destruct (strncpy_loop_Some 14 (replicate 14 0) name) as (nm & -> & Hnl & Hnc & Hnb);
    [by rewrite length_replicate|done|].
  rewrite drop_ge, app_nil_r by (rewrite length_replicate; lia).
  set (e := le_bytes 2 inum ++ nm).
  assert (length e = 16%nat) as He by (unfold e; rewrite length_app, length_le_bytes, Hnl; done).
  wbind. eapply wp_weaken; [|eapply (wp_writei N start size sb dev_write l2 V H ic dp i)]; try done;
    [intros o Ho; left; by left|lia| | |]; unfold DIRENT in *.
  - rewrite He. done.
  - intros Hbad. cbn [Z.eqb negb]. right. split; [done|]. change (MAXFILE * BSIZE) with 71680 in Hbad.
    destruct Hend as [|[de Hde%lookup_lt_Some]]; [lia|].
    rewrite length_entries, length_file_bytes in Hde. exfalso.
    assert (16 * (k + 1) <= Z.to_nat (i_size i))%nat; [|lia].
    pose proof (Nat.div_mod (Z.to_nat (i_size i)) 16 ltac:(lia)). lia.
  - intros _ _ l3 V' i' H3 Hw. rewrite take_ge in Hw by (rewrite He; done).
    replace (Z.to_nat (16 * Z.of_nat k)) with (16 * k)%nat in Hw by lia.
    cbn [Z.eqb negb Pos.eqb]. apply wp_ret. split; [done|].
    pose proof Hw as [Hok' Hm' Hbytes' Hsz' Hino' _].
    assert (linked (file_bytes V i) (file_bytes V' i') k name inum) as Hlk.
    { pose proof (file_bytes_aligned V i ltac:(lia) Hmod) as Hal.
      assert (forall j, entries (file_bytes V' i') !! j =
        if decide (j = k) then Some e else entries (file_bytes V i) !! j) as Hes.
      { intros j. rewrite Hbytes'. apply entries_splice; [done|rewrite length_file_bytes; lia|done]. }
      split; [|intros j Hj; by rewrite Hes, decide_False|done|].
      - exists e. rewrite Hes, decide_True by done. split; [done|]. unfold e.
        rewrite de_inum_bytes by lia. rewrite de_name_bytes. done.
      - rewrite length_entries, length_file_bytes. apply Nat.div_le_lower_bound; lia. }
    destruct (linked_find _ _ _ _ _ Hlk ltac:(lia) Hnone) as [Hfn Hfo].
    exists l3, V', i', k, e. split_and!; try done. split.
    + apply Hok'.
    + rewrite Hino'. done.
    + rewrite Hsz', He. unfold DIRENT in *. destruct (Z.max_spec (i_size i) (Z.of_nat (16 * k + 16))) as [[_ ->]|[_ ->]]; [|done].
      replace (Z.of_nat (16 * k + 16)) with (0 + Z.of_nat (k + 1) * 16) by lia. by rewrite Z_mod_plus_full.
    + rewrite Hbytes'. unfold splice. rewrite !Forall_app. split_and!; [by apply Forall_take| |by apply Forall_drop].
      unfold e. apply Forall_app. split; [apply le_bytes_byte|by apply Hnb].
Qed.
End dir_theorems.

(** * Path names *)

(** The elements of a path: what is left between its slashes. *)
Definition flush (cur : list Z) : list (list Z) := match cur with [] => [] | _ => [cur] end.
Fixpoint split_path (cur s : list Z) : list (list Z) :=
  match s with
  | [] => flush cur
  | c :: s => if c =? 47 then flush cur ++ split_path [] s else split_path (cur ++ [c]) s
  end.
Definition elems (s : list Z) : list (list Z) := split_path [] s.

Lemma split_path_app e : forall cur s, 47 ∉ e -> split_path cur (e ++ s) = split_path (cur ++ e) s.
Proof.
  induction e as [|c e IH]; intros cur s He; [by rewrite app_nil_r|]. cbn [app split_path].
  apply not_elem_of_cons in He as [Hc He]. rewrite (proj2 (Z.eqb_neq _ _)) by done.
  rewrite IH by done. by rewrite <- app_assoc.
Qed.

Lemma skip_slashes_elems s r : 0 ∉ s -> exists s', skip_slashes (s ++ 0 :: r) = Some (s' ++ 0 :: r) /\
  (0 ∉ s') /\ elems s' = elems s /\ hd 0 s' <> 47 /\ (length s' <= length s)%nat.
Proof.
  induction s as [|c s IH]; intros H0; cbn [app skip_slashes].
  { exists []. cbn. split_and!; try done. }
  apply not_elem_of_cons in H0 as [Hc H0]. destruct (Z.eqb_spec c 47) as [->|Hc47].
  - destruct (IH H0) as (s' & -> & ? & He & ? & ?). exists s'. cbn [length]. split_and!; try done. lia.
  - exists (c :: s). split_and!; try done. by apply not_elem_of_cons.
Qed.

Lemma span_elem_elems s r : 0 ∉ s -> exists e s', span_elem (s ++ 0 :: r) = Some (e, s' ++ 0 :: r) /\
  s = e ++ s' /\ (47 ∉ e) /\ (s' = [] \/ hd 0 s' = 47).
Proof.
  induction s as [|c s IH]; intros H0; cbn [app span_elem].
  { exists [], []. cbn. split_and!; try done; [apply not_elem_of_nil|by left]. }
  apply not_elem_of_cons in H0 as [Hc H0]. destruct (Z.eqb_spec c 47) as [->|Hc47]; cbn [orb].
  - exists [], (47 :: s). split_and!; try done; [apply not_elem_of_nil|by right].
  - rewrite (proj2 (Z.eqb_neq c 0)) by done. destruct (IH H0) as (e & s' & -> & -> & He & Hs).
    exists (c :: e), s'. cbn. split_and!; try done. by apply not_elem_of_cons.
Qed.

Lemma elems_span e s : e <> [] -> 47 ∉ e -> s = [] \/ hd 0 s = 47 -> elems (e ++ s) = e :: elems s.
Proof.
  intros Hne He Hs. unfold elems. rewrite split_path_app by done. cbn [app].
  destruct s as [|c s]; [by destruct e|]. destruct Hs as [|Hc]; [done|]. cbn in Hc. subst c. cbn.
  by destruct e.
Qed.

Lemma cname_app_nul n e r : 0 ∉ e -> (length e < n)%nat -> cname n (e ++ 0 :: r) = e.
Proof.
  revert n. induction e as [|c e IH]; intros [|n] H0 Hl; cbn in *; try done; try lia.
  apply not_elem_of_cons in H0 as [Hc H0]. rewrite (proj2 (Z.eqb_neq _ _)) by done. by rewrite IH by (done || lia).
Qed.

Lemma cname_full n e : 0 ∉ e -> (n <= length e)%nat -> cname n e = take n e.
Proof.
  revert n. induction e as [|c e IH]; intros [|n] H0 Hl; cbn in *; try done; try lia.
  apply not_elem_of_cons in H0 as [Hc H0]. rewrite (proj2 (Z.eqb_neq _ _)) by done. by rewrite IH by (done || lia).
Qed.

(** [skipelem] cuts the first element off a path. For every path, with any number of
    slashes anywhere: if it has no element the result is null; otherwise [name] holds
    the first element, cut to [DIRSIZ] bytes, and the path returned has exactly the
    remaining elements and no leading slash, so that it is empty at the last one. *)
Theorem skipelem_cuts (s r name : list Z) :
  0 ∉ s -> length name = Z.to_nat DIRSIZ ->
  match elems s with
  | [] => skipelem (s ++ 0 :: r) name = Some None
  | e :: es => exists s' name', skipelem (s ++ 0 :: r) name = Some (Some (s' ++ 0 :: r, name')) /\
      (0 ∉ s') /\ elems s' = es /\ hd 0 s' <> 47 /\ length name' = Z.to_nat DIRSIZ /\
      cname 14 name' = take 14 e /\ (length s' < length s)%nat
  end.
Proof.
  intros H0 Hn. unfold DIRSIZ in Hn. change (Z.to_nat 14) with 14%nat in Hn. unfold skipelem.
  destruct (skip_slashes_elems s r H0) as (s1 & -> & H01 & He1 & Hh1 & Hl1). cbn [mbind option_bind].
  rewrite <- He1. destruct s1 as [|c s1]; [done|]. cbn [app].
  apply not_elem_of_cons in H01 as [Hc H01]. rewrite (proj2 (Z.eqb_neq c 0)) by done.
  destruct (span_elem_elems (c :: s1) r) as (e & s2 & Hsp & Hse & He47 & Hs2); [by apply not_elem_of_cons|].
  cbn [app] in Hsp. rewrite Hsp. cbn [mbind option_bind].
  assert (e <> []) as Hne.
  { intros ->. cbn in Hse. subst s2. destruct Hs2 as [|Hs2]; [done|]. cbn in Hs2. by apply Hh1. }
  rewrite Hse, elems_span by done.
  assert (0 ∉ e ++ s2) as H02 by (rewrite <- Hse; by apply not_elem_of_cons).
  apply not_elem_of_app in H02 as [H0e H02].
  destruct (skip_slashes_elems s2 r H02) as (s3 & -> & H03 & He3 & Hh3 & Hl3). cbn [mbind option_bind].
  eexists s3, _. split; [done|]. split; [done|]. split; [done|]. split; [done|].
  assert (length s3 < length s)%nat as Hls.
  { apply (f_equal length) in Hse. rewrite length_app in Hse. destruct e; [done|]. cbn in *. lia. }
  unfold DIRSIZ. change (Z.to_nat 14) with 14%nat. destruct (Z.leb_spec 14 (Z.of_nat (length e))) as [Hlong|Hshort].
  - assert (length (take 14 e) = 14%nat) as Ht by (rewrite length_take; lia).
    rewrite length_splice by (rewrite Ht; lia). split_and!; [done| |done].
    unfold splice. rewrite take_0. cbn [app]. rewrite cname_app_full by done.
    rewrite cname_full; [by rewrite take_take, Nat.min_id| |lia]. intros Hin. apply H0e.
    apply list_elem_of_lookup in Hin as [j Hj]. apply lookup_take_Some in Hj as [Hj _].
    by eapply list_elem_of_lookup_2.
  - rewrite length_splice by (rewrite length_app; cbn; lia). split_and!; [done| |done].
    unfold splice. rewrite take_0. cbn [app]. rewrite <- app_assoc. cbn [app].
    rewrite cname_app_nul by (done || lia). by rewrite take_ge by lia.
Qed.

Lemma skipelem_cuts_witness :
  exists s' name', skipelem ([47; 97; 47; 47; 98; 98] ++ 0 :: []) (replicate 14 0) =
    Some (Some (s' ++ 0 :: [], name')) /\ elems s' = [[98; 98]].
Proof.
  destruct (skipelem_cuts [47; 97; 47; 47; 98; 98] [] (replicate 14 0)) as (s' & name' & H & _ & He & _).
  - repeat (apply not_elem_of_cons; split; [done|]). apply not_elem_of_nil.
  - reflexivity.
  - exact (ex_intro _ s' (ex_intro _ name' (conj H He))).
Defined.
