(* ===== verification/FsDemo.v ===== *)
(** A small file system on the buffer cache: 64 blocks, a log of 31 blocks, eight
    inodes, of which number 2 is an empty file and number 3 an empty directory. The
    theorems about fs.c are applied to it. *)

From S2P Require Import Prelude CString Sleeplock Cache Bio BioSpec Log LogSpec LogRes.
From S2P Require Import Fs FsSpec FsFile FsRw FsThm FsDir.

Definition sb64 : superblock := Sb 64 28 8 31 2 33 35.

Definition demo_inode (inum type : Z) : inode :=
  Inode 1 inum 1 (Sleeplock true 7) true type 0 0 1 0 (replicate 13 0).

Definition disk64 : list (list Z) :=
  <[33%nat := put_dinode (put_dinode zeroes 128 (demo_inode 2 T_FILE)) 192 (demo_inode 3 T_DIR)]>
  (<[35%nat := [255; 255; 255; 255; 15] ++ replicate 507 0]> (zero_disk 64)).

Definition view64 : Z -> list Z := bio_disk (boot_bio disk64).
Definition log64 : log := set_outstanding 1 (boot_log 2 31).
Definition low64 : lst bio := Lst (after_binit disk64) log64.
Definition ic64 : list inode :=
  [demo_inode 2 T_FILE; demo_inode 3 T_DIR] ++ replicate 98 (Inode 0 0 0 initsleeplock false 0 0 0 0 0 (replicate 13 0)).

Lemma disk64_ok d : d ∈ disk64 -> length d = Z.to_nat BSIZE.
Proof.
  intros [j Hj]%list_elem_of_lookup. unfold disk64 in Hj.
  apply list_lookup_insert_Some in Hj as [(_ & <- & _)|[_ Hj]].
  { vm_compute. reflexivity. }
  apply list_lookup_insert_Some in Hj as [(_ & <- & _)|[_ Hj]]; [done|].
  apply (zero_disk_ok 64). by eapply list_elem_of_lookup_2.
Qed.

Lemma layout64 : layout 64 2 31 sb64.
Proof. split; vm_compute; (done || (split; discriminate)). Qed.

Lemma view64_header : hdr_n (view64 2) = 0.
Proof. vm_compute. reflexivity. Qed.

Lemma after_binit_hist dk : d_hist (after_binit dk) = [].
Proof. vm_compute. reflexivity. Qed.

Lemma boot_low dk start size N : (forall d, d ∈ dk -> length d = Z.to_nat BSIZE) ->
  Z.of_nat (length dk) = N -> hdr_n (bio_disk (boot_bio dk) start) = 0 ->
  0 <= start -> 1 <= size -> start + size <= N -> N <= 2 ^ 31 ->
  low (Cache0 := bio_cache 7) (CacheSpec0 := bio_spec 7) N start size
    (base := Txn (bio_disk (boot_bio dk)) [] 1 false)
    (Lst (after_binit dk) (set_outstanding 1 (boot_log start size)))
    (bio_disk (boot_bio dk)) no_held.
Proof.
  intros Hdk HN Hz Hs Hz' Hend Hmax. destruct (after_binit_ok 7 dk Hdk) as (Hwf & Hv & Hh).
  assert (forall b, bio_disk (after_binit dk) b = bio_disk (boot_bio dk) b) as Hd.
  { intros b. unfold bio_disk. by rewrite after_binit_disk. }
  assert (forall b, ~ bio_pin (after_binit dk) b) as Hp.
  { intros b (i & x & [_ Hx%after_binit_flags] & _ & _ & Hf). congruence. }
  pose proof (after_binit_disk dk) as Hdd. pose proof (after_binit_hist dk) as Hhi.
  revert Hwf Hv Hh Hd Hp Hdd Hhi. generalize (after_binit dk). intros c Hwf Hv Hh Hd Hp Hdd Hhi. split; cbn [l_cache l_log]; try done.
  - cbn. by rewrite Hdd.
  - intros b. split; [by intros ?%Hp|]. cbn. intros Hb. by apply elem_of_nil in Hb.
  - split; cbn; try done; unfold LOGSIZE, MAXOPBLOCKS; lia.
  - split; [constructor|]. cbn. intros b Hb. by apply elem_of_nil in Hb.
  - change (hdr_n (bio_disk c start) = 0). by rewrite Hd.
Qed.

Definition base64 : txn := Txn view64 [] 1 false.

Lemma low64_ok : low (Cache0 := bio_cache 7) (CacheSpec0 := bio_spec 7) 64 2 31 (base := base64) low64 view64 no_held.
Proof. apply boot_low; [exact disk64_ok|reflexivity|exact view64_header|done|done|done|done]. Qed.

Lemma meta64 : meta_used sb64 view64.
Proof.
  intros b Hb. change (dstart sb64) with 36 in Hb.
  assert (forallb (used sb64 view64) (seqZ 0 36) = true) as Hall by (vm_compute; reflexivity).
  rewrite forallb_forall in Hall. apply Hall. apply list_elem_of_In, elem_of_seqZ. lia.
Qed.

(** A file with no blocks. *)
Lemma empty_slot V k : slot V (replicate 13 0) k = 0.
Proof.
  assert (nth 12 (replicate 13 0) 0 = 0) as H12 by done.
  unfold slot. rewrite H12. cbn [Z.eqb]. destruct (Nat.ltb_spec k 13); [|done].
  by do 13 (destruct k as [|k]; [done|]); lia.
Qed.

Lemma empty_file_ok N sb V inum type : type <> T_DEV -> file_ok N sb V (demo_inode inum type).
Proof.
  intros Ht. split; cbn [demo_inode i_dev i_type i_addrs i_size]; try done.
  - split; [done| |]; intros k; rewrite empty_slot; [done|]. intros k' _ _ Hk. done.
  - intros bn _. rewrite empty_slot. split; [done|lia].
Qed.

Lemma demo_typed inum type : s16_ok type -> inode_typed (demo_inode inum type).
Proof.
  intros Ht. split; cbn; try done; unfold s16_ok, u32_ok; try lia.
  intros a [-> _]%(elem_of_replicate 13 0). lia.
Qed.

Lemma synced64_2 : synced sb64 view64 (demo_inode 2 T_FILE).
Proof. vm_compute. reflexivity. Qed.
Lemma synced64_3 : synced sb64 view64 (demo_inode 3 T_DIR).
Proof. vm_compute. reflexivity. Qed.

Lemma inode64_2 : inode_ok 64 sb64 view64 (demo_inode 2 T_FILE).
Proof.
  split; [by apply empty_file_ok|exact synced64_2|apply demo_typed; unfold s16_ok, T_FILE; lia|cbn; lia].
Qed.
Lemma inode64_3 : inode_ok 64 sb64 view64 (demo_inode 3 T_DIR).
Proof.
  split; [by apply empty_file_ok|exact synced64_3|apply demo_typed; unfold s16_ok, T_DIR; lia|cbn; lia].
Qed.
Lemma dir64_3 : dir_ok 64 sb64 view64 (demo_inode 3 T_DIR).
Proof. split; [by apply empty_file_ok|done|done|]. constructor. Qed.

Section demo.
#[local] Existing Instance bio_cache.
#[local] Existing Instance bio_spec.
Local Abbreviation fs64 := (Fs low64 sb64 ic64).

Lemma held_none V : held_data sb64 V no_held.
Proof. by intros h b Hb. Qed.

Lemma balloc_exact_witness :
  wp (fun _ => True) (balloc (Cache0 := bio_cache 7) ROOTDEV) fs64 (fun b _ => b = 36).
Proof.
  eapply wp_weaken; [|eapply wp_mono; [exact (balloc_exact (Cache0 := bio_cache 7) (CacheSpec0 := bio_spec 7)
    64 2 31 sb64 low64 view64 no_held ic64 layout64 low64_ok meta64 (held_none _))|]]; [done|].
  intros b s' (l' & V' & _ & _ & Hr & Hu & Hall & _). change (dstart sb64) with 36 in Hr.
  destruct (decide (b = 36)) as [|Hne]; [done|]. exfalso.
  assert (used sb64 view64 36 = false) as H36 by (vm_compute; reflexivity).
  rewrite Hall in H36; [discriminate|lia].
Defined.

Lemma bfree_exact_witness :
  wp (fun _ => True) (bfree (Cache0 := bio_cache 7) ROOTDEV 5) fs64
    (fun _ s' => exists V', low (Cache0 := bio_cache 7) (CacheSpec0 := bio_spec 7) 64 2 31 (base := base64) (f_low s') V' no_held /\
       used sb64 V' 5 = false).
Proof.
  eapply wp_weaken; [|eapply wp_mono; [exact (bfree_exact (Cache0 := bio_cache 7) (CacheSpec0 := bio_spec 7)
    64 2 31 sb64 low64 view64 no_held ic64 5 layout64 low64_ok (held_none _) ltac:(lia))|]]; [done|].
  intros u s' (l' & V' & -> & Hl' & _ & Hu & _). exists V'. split; [exact Hl'|].
  rewrite Hu by lia. by rewrite bool_decide_true.
Defined.

Lemma readi_reads_content_witness :
  wp no_buffers (readi (Cache0 := bio_cache 7) (fun _ => None) 0 0 10) fs64 (fun r _ => r = (0, [])).
Proof.
  eapply wp_mono; [exact (readi_reads_content (Cache0 := bio_cache 7) (CacheSpec0 := bio_spec 7)
    64 2 31 sb64 (fun _ => None) low64 view64 no_held ic64 0 (demo_inode 2 T_FILE) 0 10 layout64 low64_ok
    (fun _ => eq_refl) eq_refl (io_file _ _ _ _ inode64_2) ltac:(lia) ltac:(lia))|].
  intros r s' (l' & _ & _ & ->). reflexivity.
Defined.

Lemma writei_splices_content_witness :
  wp fs_may (writei (Cache0 := bio_cache 7) (fun _ => None) 0 [104; 105] 0 2) fs64
    (fun r s' => r = 2 /\ exists V' i', f_ic s' !! 0%nat = Some i' /\ file_bytes V' i' = [104; 105]).
Proof.
  eapply wp_mono; [exact (writei_splices_content (Cache0 := bio_cache 7) (CacheSpec0 := bio_spec 7)
    64 2 31 sb64 (fun _ => None) low64 view64 no_held ic64 0 (demo_inode 2 T_FILE) [104; 105] 0 2 layout64 low64_ok
    (fun _ => eq_refl) eq_refl inode64_2 meta64 ltac:(lia) ltac:(lia) ltac:(cbn; lia))|].
  intros r s' (-> & l' & V' & i' & -> & _ & Hw). split; [reflexivity|]. exists V', i'. split; [reflexivity|].
  rewrite (wr_bytes _ _ _ _ _ _ _ _ Hw). reflexivity.
Defined.

Lemma dirlookup_first_witness :
  wp dir_may (dirlookup (Cache0 := bio_cache 7) (fun _ => None) 1 [97; 0]) fs64 (fun r _ => r = None).
Proof.
  eapply wp_mono; [exact (dirlookup_first (Cache0 := bio_cache 7) (CacheSpec0 := bio_spec 7)
    64 2 31 sb64 (fun _ => None) low64 view64 no_held ic64 1 (demo_inode 3 T_DIR) [97; 0] layout64 low64_ok
    (fun _ => eq_refl) eq_refl dir64_3 eq_refl ltac:(repeat constructor; unfold byte_ok; lia))|].
  intros r s' (l' & ic' & _ & _ & Hr). exact (proj1 Hr).
Defined.

Lemma dirlink_adds_witness :
  wp (fun o => dir_may o \/ o = Some "dirlink" /\ 0 = MAXFILE * BSIZE)
    (dirlink (Cache0 := bio_cache 7) 7 (fun _ => None) (fun _ => None) 1 [97; 0] 2) fs64
    (fun r s' => r = 0 /\ exists V' i', f_ic s' !! 1%nat = Some i' /\
       is_Some (findi (names [97; 0]) (entries (file_bytes V' i')))).
Proof.
  eapply wp_mono; [exact (dirlink_adds (Cache0 := bio_cache 7) (CacheSpec0 := bio_spec 7) 7
    64 2 31 sb64 (fun _ => None) (fun _ => None) low64 view64 no_held ic64 1 (demo_inode 3 T_DIR) [97; 0] 2
    layout64 low64_ok (fun _ => eq_refl) eq_refl inode64_3 dir64_3 meta64 eq_refl
    ltac:(repeat constructor; unfold byte_ok; lia) ltac:(lia) eq_refl)|].
  intros r s' (-> & l' & V' & i' & k & d & -> & _ & _ & _ & _ & Hf & _). split; [reflexivity|].
  exists V', i'. split; [reflexivity|]. rewrite Hf. by eexists.
Defined.

Lemma ic64_lookup j i : ic64 !! j = Some i ->
  j = 0%nat /\ i = demo_inode 2 T_FILE \/ j = 1%nat /\ i = demo_inode 3 T_DIR \/ i_ref i = 0.
Proof.
  unfold ic64. intros [H|[_ H]]%lookup_app_Some.
  - destruct j as [|[|j]]; cbn in H; naive_solver.
  - apply lookup_replicate in H as [-> _]. auto.
Qed.

Lemma ic64_ok : icache_ok ic64.
Proof.
  split.
  - intros j i [(_ & ->)|[(_ & ->)|Hr]]%ic64_lookup; cbn; lia.
  - intros j j' i i' [(-> & ->)|[(-> & ->)|Hr]]%ic64_lookup [(-> & ->)|[(-> & ->)|Hr']]%ic64_lookup;
      cbn; intros; done || lia.
Qed.

Lemma iget_unique_witness :
  match iget 1 2 fs64 with
  | Ret (j, s') => exists ic' i', s' = Fs low64 sb64 ic' /\ icache_ok ic' /\ ic' !! j = Some i' /\
      i_dev i' = 1 /\ i_inum i' = 2 /\ (forall k, k <> j -> ic' !! k = ic64 !! k) /\
      (i_ref i' = 1 /\ i_valid i' = false \/
       exists i, ic64 !! j = Some i /\ 0 < i_ref i /\ i' = set_i_ref (i_ref i + 1) i)
  | Panic e => e = "iget: no inodes" /\
      forall j i, ic64 !! j = Some i -> i_ref i <> 0 /\ ~ (0 < i_ref i /\ i_dev i = 1 /\ i_inum i = 2)
  | _ => False
  end.
Proof. exact (iget_unique low64 sb64 ic64 1 2 ic64_ok). Defined.
End demo.
