(* ===== verification/FsAtomic.v ===== *)
(** From the file system down to the disk: a file operation between [begin_op] and
    [end_op] reaches the disk as a whole or not at all. *)

From S2P Require Import Prelude CString Sleeplock Cache Bio BioSpec Log LogSpec LogRes.
From S2P Require Import Fs FsSpec FsFile FsRw FsThm FsDir FsDemo.

Lemma wp_and_run {S A} may (m : M S A) s (Q R : A -> S -> Prop) :
  wp may m s Q -> (forall a s', m s = Ret (a, s') -> Q a s' -> R a s') -> wp may m s R.
Proof. unfold wp. destruct (m s) as [[a s']| | | |]; auto. Qed.

Section atomic_fs.
Context {S : Type} `{!Cache S, !CacheSpec S}.
Context (N start size : Z) (sb : superblock).

(** However the machine crashes while the disk writes [ws] are made on the disk [D],
    a recovery leaves the blocks outside the log as they are in [D] or as in [V]. *)
Definition all_or_nothing (lg : log) (D V : Z -> list Z) (ws : list (Z * list Z)) : Prop :=
  forall k D' s0, crashes start (apply_ws D (take k ws)) D' -> rebooted N lg D' s0 ->
  wp no_buffers recover_from_log s0 (fun _ s1 =>
    (forall b, home start size b -> 0 <= b < N -> cdisk (l_cache s1) b = D b) \/
    (forall b, home start size b -> 0 <= b < N -> cdisk (l_cache s1) b = V b)).

Lemma ready_leave c lg : ready N c lg ->
  ready N c (set_committing true (set_outstanding (lg_outstanding lg - 1) lg)).
Proof. intros [Hq [] Hb Hp He]. by split; try done; split. Qed.

Lemma recover_ws_ext D D' : (forall b, D b = D' b) -> recover_ws start D = recover_ws start D'.
Proof.
  intros He. unfold recover_ws, rec_blocks, rec_data. rewrite !He. f_equal. f_equal.
  apply list_fmap_ext. intros j x _. apply He.
Qed.

(** Crashes do not tell disks with the same blocks apart. *)
Lemma crashes_ext D1 D2 D' : (forall b, D1 b = D2 b) -> crashes start D1 D' ->
  exists D'', crashes start D2 D'' /\ forall b, D' b = D'' b.
Proof.
  intros He. induction 1 as [|D' j _ (D'' & Hc & Hd)].
  - exists D2. split; [constructor|done].
  - exists (apply_ws D'' (take j (recover_ws start D''))). split; [by constructor|].
    intros b. rewrite (recover_ws_ext D' D'' Hd). by apply apply_ext.
Qed.

Lemma all_or_nothing_ext lg D1 D2 V ws : (forall b, D1 b = D2 b) ->
  all_or_nothing lg D1 V ws -> all_or_nothing lg D2 V ws.
Proof.
  intros He Ha k D' s0 Hc Hr.
  destruct (crashes_ext (apply_ws D2 (take k ws)) (apply_ws D1 (take k ws)) D') as (D'' & Hc' & Hd); [|done|].
  { intros b. by apply apply_ext. }
  eapply wp_mono; [apply (Ha k D'' s0 Hc')|].
  - destruct Hr as [? Hdk]. split; try done. intros b. by rewrite Hdk.
  - intros u s1 [H1|H1]; [left|by right]. intros b Hb Hb'. by rewrite H1.
Qed.

(** The last [end_op] of a transaction. *)
Lemma wp_end_op l V H D h :
  low N start size (base := Txn D h 1 false) l V H -> (forall b, H b = None) ->
  wp no_buffers end_op l (fun _ l' => exists ws,
    chist (l_cache l') = h ++ ws /\ lg_n (l_log l') = 0 /\ lg_outstanding (l_log l') = 0 /\
    lg_committing (l_log l') = false /\
    (forall b, home start size b -> 0 <= b < N -> cdisk (l_cache l') b = V b) /\
    all_or_nothing (l_log l') (cdisk (l_cache l)) V ws).
Proof.
  intros Hl HH. pose proof (low_ready N start size l V H Hl HH) as Hr. apply ready_leave in Hr.
  destruct Hl as [Hwf Hs Hv Hhd Hp Hlg Hbk Hst Hsz Hz Ho Hcl Hdk Hhist Hout Hcom]. destruct l as [c lg].
  cbn [l_cache l_log tx_out tx_comm tx_hist] in *.
  unfold end_op. wbind. eapply (wp_run _ _ _ true).
  { unfold end_op_leave. cbn. rewrite Hcom, Hout. cbn. done. }
  rewrite Hout in Hr. cbn -[commit]. wbind.
  eapply wp_and_run; [exact (commit_atomic N c _ Hr)|].
  cbn [l_cache l_log lg_start lg_size set_committing set_outstanding]. rewrite Hst, Hsz.
  intros u l' Hrun (ws & Hh & Hn & Hd & Hcr).
  apply commit_log in Hrun; [|cbn; destruct Hlg; lia]. destruct l' as [c' lg']. cbn in Hrun. subst lg'.
  eapply wp_run; [reflexivity|]. cbn [l_cache l_log] in *. exists ws.
  split; [by rewrite Hh, Hhist|]. split; [done|]. split; [done|]. split; [done|]. split.
  - intros b Hb Hb'. rewrite Hd by done. apply Hv.
  - intros k D' s0 Hcrash Hrb. eapply wp_mono; [eapply Hcr; [exact Hcrash|]|].
    + destruct Hrb. split; try done; cbn in *; congruence.
    + intros u1 s1 [H1|H1]; [by left|right]. intros b Hb Hb'. rewrite H1 by done. apply Hv.
Qed.

Context (dev_write : Z -> option (nat -> list Z -> Z -> M (fs S) Z)).

(** A write of [n] bytes as [filewrite] does it, in the last operation of a transaction. *)
Definition write_op (ip : nat) (src : list Z) (off n : Z) : M (fs S) Z :=
  let* r := writei dev_write ip src off n in
  on_low end_op ;;;
  ret r.

End atomic_fs.

