(* ===== verification/Grep.v ===== *)
(** [grep.c]: the regular expression matcher, proved to decide the language of the
    pattern, and the loop that cuts its input into lines.

    A pattern or a text is the list of its characters, without the terminating NUL. *)

From S2P Require Import Prelude.

(** [matchstar]: [m] is [matchhere] of the rest of the pattern. *)
Fixpoint matchstar (m : list Z -> bool) (c : Z) (text : list Z) : bool :=
  if m text then true
  else match text with
       | [] => false
       | t :: ts => if (t =? c) || (c =? 46) then matchstar m c ts else false
       end.

Fixpoint matchhere (re text : list Z) {struct re} : bool :=
  match re with
  | [] => true
  | c :: re1 =>
      match re1 with
      | x :: re2 =>
          if x =? 42 then matchstar (matchhere re2) c text
          else match text with
               | t :: ts => if (c =? 46) || (c =? t) then matchhere re1 ts else false
               | [] => false
               end
      | [] =>
          if c =? 36 then match text with [] => true | _ => false end
          else match text with
               | t :: ts => if (c =? 46) || (c =? t) then matchhere re1 ts else false
               | [] => false
               end
      end
  end.

(** The [do]-loop of [match]. *)
Fixpoint match_loop (re text : list Z) : bool :=
  if matchhere re text then true
  else match text with
       | [] => false
       | _ :: ts => match_loop re ts
       end.

Definition match_ (re text : list Z) : bool :=
  match re with
  | 94 :: re1 => matchhere re1 text
  | _ => match_loop re text
  end.

(** * The language of a pattern *)

(** A character or any number of them; the pattern character 46 is a dot. *)
Inductive item := One (c : Z) | Many (c : Z).

(** The items of a pattern, and whether it ends in a dollar. *)
Fixpoint parse (re : list Z) : list item * bool :=
  match re with
  | [] => ([], false)
  | c :: re1 =>
      match re1 with
      | x :: re2 =>
          if x =? 42 then let '(l, e) := parse re2 in (Many c :: l, e)
          else let '(l, e) := parse re1 in (One c :: l, e)
      | [] => if c =? 36 then ([], true) else ([One c], false)
      end
  end.

Definition fits (c x : Z) : Prop := c = 46 \/ c = x.

Inductive lang : list item -> list Z -> Prop :=
| lang_nil : lang [] []
| lang_one c x l v : fits c x -> lang l v -> lang (One c :: l) (x :: v)
| lang_many c u l v : Forall (fits c) u -> lang l v -> lang (Many c :: l) (u ++ v).

(** [re] matches at the beginning of [text]: a word of its language is a prefix, or
    all of it when the pattern ends in a dollar. *)
Definition here (re text : list Z) : Prop :=
  exists v post, text = v ++ post /\ lang (fst (parse re)) v /\ (snd (parse re) = true -> post = []).

(** The meaning of a pattern, with the anchors. *)
Definition denotes (re text : list Z) : Prop :=
  match re with
  | 94 :: re1 => here re1 text
  | _ => exists pre post, text = pre ++ post /\ here re post
  end.

Lemma matchstar_spec m c text :
  matchstar m c text = true <-> exists u v, text = u ++ v /\ Forall (fits c) u /\ m v = true.
Proof.
  induction text as [|t ts IH]; cbn [matchstar].
  - destruct (m []) eqn:Hm; split; try done.
    + intros _. by exists [], [].
    + intros (u & v & [-> ->]%eq_sym%app_eq_nil & _ & Hv). congruence.
  - destruct (m (t :: ts)) eqn:Hm.
    { split; [|done]. intros _. by exists [], (t :: ts). }
    destruct ((t =? c) || (c =? 46)) eqn:Hc.
    + rewrite IH. assert (fits c t) as Hf by (unfold fits; bsplit; lia). split.
      * intros (u & v & -> & Hu & Hv). exists (t :: u), v. split_and!; [done|by constructor|done].
      * intros (u & v & He & Hu & Hv). destruct u as [|x u]; cbn in He; simplify_eq; [congruence|].
        exists u, v. by inversion Hu.
    + split; [done|]. intros (u & v & He & Hu & Hv).
      destruct u as [|x u]; cbn in He; simplify_eq; [congruence|].
      inversion Hu as [|? ? Hx _]; subst. unfold fits in Hx. bsplit. lia.
Qed.

Lemma here_one c re text : fst (parse (c :: re)) = One c :: fst (parse re) ->
  snd (parse (c :: re)) = snd (parse re) ->
  here (c :: re) text <-> exists t ts, text = t :: ts /\ fits c t /\ here re ts.
Proof.
  intros H1 H2. unfold here. rewrite H1, H2. split.
  - intros (v & post & -> & Hl & He). inversion Hl; subst. cbn. eexists _, _. split; [done|].
    split; [done|]. by exists v0, post.
  - intros (t & ts & -> & Hf & v & post & -> & Hl & He). exists (t :: v), post.
    split; [done|]. split; [by constructor|done].
Qed.

Lemma here_many c x re text : x = 42 ->
  here (c :: x :: re) text <-> exists u v, text = u ++ v /\ Forall (fits c) u /\ here re v.
Proof.
  intros ->. unfold here. cbn [parse]. rewrite Z.eqb_refl. destruct (parse re) as [l e]. cbn. split.
  - intros (w & post & -> & Hl & He). inversion Hl; subst. exists u, (v ++ post).
    rewrite app_assoc. split_and!; [done|done|]. by exists v, post.
  - intros (u & w & -> & Hu & v & post & -> & Hl & He). exists (u ++ v), post.
    rewrite app_assoc. split_and!; [done|by constructor|done].
Qed.

(** A pattern character that is not starred and is not a final dollar. *)
Lemma match_char c re text : (forall t, matchhere re t = true <-> here re t) ->
  match text with
  | t :: ts => if (c =? 46) || (c =? t) then matchhere re ts else false
  | [] => false
  end = true <-> exists t ts, text = t :: ts /\ fits c t /\ here re ts.
Proof.
  intros IH. destruct text as [|t ts]; [naive_solver|].
  destruct ((c =? 46) || (c =? t)) eqn:Hc.
  - rewrite IH. split; [|naive_solver]. intros Hh. exists t, ts. split_and!; try done.
    unfold fits. bsplit; lia.
  - split; [done|]. intros (t' & ts' & He & Hf & _). simplify_eq. unfold fits in Hf. bsplit. lia.
Qed.

Lemma matchhere_spec n : forall re text, (length re <= n)%nat -> matchhere re text = true <-> here re text.
Proof.
  induction n as [|n IH]; intros re text Hn.
  all: destruct re as [|c re]; cbn in Hn; try lia.
  all: try (split; [|done]; intros _; exists [], text; split_and!; try done; constructor).
  assert (forall t, matchhere re t = true <-> here re t) as IH1 by (intros t; apply IH; lia).
  destruct re as [|x re2].
  - cbn [matchhere]. destruct (Z.eqb_spec c 36) as [->|Hc].
    + unfold here. cbn. destruct text as [|t ts]; split; try done.
      * intros _. exists [], []. split_and!; try done. constructor.
      * intros (v & post & He & Hl & Hp). inversion Hl; subst. cbn in He. by rewrite Hp in He.
    + change (match text with t :: ts => if (c =? 46) || (c =? t) then true else false | [] => false end)
        with (match text with t :: ts => if (c =? 46) || (c =? t) then matchhere [] ts else false | [] => false end).
      rewrite match_char by done. symmetry. apply here_one; cbn; by rewrite (proj2 (Z.eqb_neq _ _)).
  - change (matchhere (c :: x :: re2) text) with
      (if x =? 42 then matchstar (matchhere re2) c text
       else match text with t :: ts => if (c =? 46) || (c =? t) then matchhere (x :: re2) ts else false
            | [] => false end).
    destruct (Z.eqb_spec x 42) as [Hx|Hx].
    + rewrite matchstar_spec, here_many by done. cbn in Hn.
      split; intros (u & v & ? & ? & ?); exists u, v; split_and!; try done; apply IH; try done; lia.
    + rewrite match_char by done. symmetry.
      assert (parse (c :: x :: re2) = let '(l, e) := parse (x :: re2) in (One c :: l, e)) as Hp.
      { cbn [parse]. by rewrite (proj2 (Z.eqb_neq x 42)). }
      apply here_one; rewrite Hp; by destruct (parse (x :: re2)).
Qed.

Lemma match_loop_spec re text :
  match_loop re text = true <-> exists pre post, text = pre ++ post /\ here re post.
Proof.
  induction text as [|t ts IH]; cbn [match_loop].
  - destruct (matchhere re []) eqn:Hm; split; try done.
    + intros _. exists [], []. split; [done|]. by apply (matchhere_spec (length re)).
    + intros (pre & post & [-> ->]%eq_sym%app_eq_nil & Hh).
      apply (matchhere_spec (length re)) in Hh; [congruence|lia].
  - destruct (matchhere re (t :: ts)) eqn:Hm.
    { split; [|done]. intros _. exists [], (t :: ts). split; [done|]. by apply (matchhere_spec (length re)). }
    rewrite IH. split.
    + intros (pre & post & -> & Hh). by exists (t :: pre), post.
    + intros (pre & post & He & Hh). destruct pre as [|x pre]; cbn in He; simplify_eq.
      * apply (matchhere_spec (length re)) in Hh; [congruence|lia].
      * by exists pre, post.
Qed.

(** C37. [match] decides the language of the pattern: it returns true exactly when some
    part of the text, the beginning if the pattern starts with a caret, up to the end
    if it ends in a dollar, is a word of the language that the characters, dots and
    stars of the pattern describe. *)
Theorem match_decides_language (re text : list Z) :
  match_ re text = true <-> denotes re text.
Proof.
  unfold match_, denotes.
  destruct re as [|c re]; [apply match_loop_spec|].
  destruct (decide (c = 94)) as [->|Hc].
  - by apply (matchhere_spec (length re)).
  - pose proof (match_loop_spec (c :: re) text) as H.
    destruct c as [|p|p]; try exact H.
    repeat (destruct p as [p|p|]; try exact H). done.
Qed.

(** * The lines of the input *)

(** [strchr(p, '\n')] on the bytes from [p] to the NUL that [grep] stores at the end. *)
Fixpoint find_nl (s : list Z) : option nat :=
  match s with
  | [] => None
  | c :: s => if c =? 10 then Some 0%nat else if c =? 0 then None else Datatypes.S <$> find_nl s
  end.

(** The inner loop of [grep]: the bytes from the final [p] on and the lines written. *)
Fixpoint grep_lines (fuel : nat) (pattern s : list Z) : option (list Z * list (list Z)) :=
  match fuel with
  | O => None
  | Datatypes.S fuel =>
      match find_nl s with
      | None => Some (s, [])
      | Some q =>
          '(rest, out) ← grep_lines fuel pattern (drop (q + 1) s);
          Some (rest, if match_ pattern (take q s) then take (q + 1) s :: out else out)
      end
  end.

(** [read(fd, buf, room)]: the input arrives in chunks; an empty read is the end. *)
Definition read_chunk (room : nat) (chunks : list (list Z)) : list Z * list (list Z) :=
  match chunks with
  | [] => ([], [])
  | ch :: chunks =>
      if (length ch <=? room)%nat then (ch, chunks)
      else (take room ch, drop room ch :: chunks)
  end.

(** The outer loop of [grep] with [m] bytes in [buf]: the lines written. *)
Fixpoint grep (fuel : nat) (pattern buf : list Z) (chunks : list (list Z)) : option (list (list Z)) :=
  match fuel with
  | O => None
  | Datatypes.S fuel =>
      let '(got, chunks) := read_chunk (1024 - length buf - 1) chunks in
      match got with
      | [] => Some []
      | _ =>
          let buf := buf ++ got in
          '(rest, out) ← grep_lines (Datatypes.S (length buf)) pattern buf;
          (* if(p == buf) m = 0; *)
          let buf := if (length rest =? length buf)%nat then [] else rest in
          out' ← grep fuel pattern buf chunks;
          Some (out ++ out')
      end
  end.

(** The complete lines of a text and what follows the last newline. *)
Fixpoint cut (cur s : list Z) : list (list Z) * list Z :=
  match s with
  | [] => ([], cur)
  | c :: s =>
      if c =? 10 then let '(l, t) := cut [] s in (cur :: l, t) else cut (cur ++ [c]) s
  end.

Lemma find_nl_cut s : forall cur, 0 ∉ s ->
  match find_nl s with
  | None => (10 ∉ s) /\ cut cur s = ([], cur ++ s)
  | Some q => (q < length s)%nat /\ (10 ∉ take q s) /\ take (q + 1) s = take q s ++ [10] /\
      cut cur s = let '(l, t) := cut [] (drop (q + 1) s) in ((cur ++ take q s) :: l, t)
  end.
Proof.
  induction s as [|c s IH]; intros cur H0; cbn [find_nl cut].
  { rewrite app_nil_r. split; [apply not_elem_of_nil|done]. }
  apply not_elem_of_cons in H0 as [Hc H0]. destruct (Z.eqb_spec c 10) as [->|Hc10].
  { cbn. rewrite app_nil_r. split_and!; [lia|apply not_elem_of_nil|by destruct s|done]. }
  rewrite (proj2 (Z.eqb_neq c 0)) by done. specialize (IH (cur ++ [c]) H0).
  destruct (find_nl s) as [q|]; cbn.
  - destruct IH as (Hq & Hn & Ht & Hcut). split_and!; [lia|by apply not_elem_of_cons|by rewrite Ht|].
    rewrite Hcut. destruct (cut [] _). by rewrite <- app_assoc.
  - destruct IH as [Hn Hcut]. split; [by apply not_elem_of_cons|]. by rewrite Hcut, <- app_assoc.
Qed.

Definition matching (pattern : list Z) (l : list (list Z)) : list (list Z) :=
  (fun x => x ++ [10]) <$> List.filter (match_ pattern) l.

Lemma grep_lines_cut pattern fuel : forall s, 0 ∉ s -> (length s < fuel)%nat ->
  grep_lines fuel pattern s = Some (snd (cut [] s), matching pattern (fst (cut [] s))).
Proof.
  induction fuel as [|fuel IH]; intros s H0 Hf; [lia|]. cbn [grep_lines].
  pose proof (find_nl_cut s [] H0) as Hc. destruct (find_nl s) as [q|].
  - destruct Hc as (Hq & _ & Ht & ->).
    assert (0 ∉ drop (q + 1) s) as H0'.
    { intros [j Hj]%list_elem_of_lookup. rewrite lookup_drop in Hj. apply H0. by eapply list_elem_of_lookup_2. }
    rewrite IH by (done || (rewrite length_drop; lia)). cbn.
    destruct (cut [] (drop (q + 1) s)) as [l t]. cbn. unfold matching. cbn [List.filter].
    destruct (match_ pattern (take q s)); cbn; [by rewrite Ht|done].
  - destruct Hc as [_ ->]. done.
Qed.

Lemma cut_app cur s1 s2 : cut cur (s1 ++ s2) =
  let '(l1, t1) := cut cur s1 in let '(l2, t2) := cut t1 s2 in (l1 ++ l2, t2).
Proof.
  revert cur. induction s1 as [|c s1 IH]; intros cur; cbn [app cut]; [by destruct (cut cur s2)|].
  destruct (c =? 10); rewrite IH; [|done]. destruct (cut [] s1) as [l1 t1]. by destruct (cut t1 s2).
Qed.

Lemma cut_plain t : forall cur s, 10 ∉ t -> cut cur (t ++ s) = cut (cur ++ t) s.
Proof.
  induction t as [|c t IH]; intros cur s Ht; cbn [app cut]; [by rewrite app_nil_r|].
  apply not_elem_of_cons in Ht as [Hc Ht]. rewrite (proj2 (Z.eqb_neq _ _)) by done.
  rewrite IH by done. by rewrite <- app_assoc.
Qed.

(** The rest after the last newline has no newline and is shorter than the text. *)
Lemma cut_rest s : forall cur, 10 ∉ cur ->
  (10 ∉ snd (cut cur s)) /\ (length (snd (cut cur s)) <= length cur + length s)%nat /\
  (10 ∈ s -> (length (snd (cut cur s)) < length s)%nat) /\
  (forall x, x ∈ snd (cut cur s) -> x ∈ cur \/ x ∈ s).
Proof.
  induction s as [|c s IH]; intros cur Hcur; cbn [cut].
  { cbn. split_and!; [done|lia|by intros ?%elem_of_nil|auto]. }
  destruct (Z.eqb_spec c 10) as [->|Hc].
  - destruct (IH [] (not_elem_of_nil _)) as (H1 & H2 & H3 & H4). destruct (cut [] s) as [l t]. cbn in *.
    split_and!; [done|lia|lia|]. intros x [Hx|Hx]%H4; [by apply elem_of_nil in Hx|right; by right].
  - destruct (IH (cur ++ [c])) as (H1 & H2 & H3 & H4).
    { rewrite elem_of_app, list_elem_of_singleton. intros [?|?]; congruence. }
    rewrite length_app in H2. cbn in *. split_and!; [done|lia| |].
    + intros [?|Hx]%elem_of_cons; [congruence|]. specialize (H3 Hx). lia.
    + intros x [Hx|Hx]%H4; [|right; by right].
      rewrite elem_of_app, list_elem_of_singleton in Hx. destruct Hx as [| ->]; [by left|right; by left].
Qed.

Lemma grep_cut pattern chunks : forall t,
  (forall ch, ch ∈ chunks -> (length ch <= 511)%nat /\ 10 ∈ ch /\ 0 ∉ ch) ->
  (10 ∉ t) -> (0 ∉ t) -> (length t <= 511)%nat ->
  grep (Datatypes.S (length chunks)) pattern t chunks =
    Some (matching pattern (fst (cut t (concat chunks)))).
Proof.
  induction chunks as [|ch chunks IH]; intros t Hch Ht H0 Hl; [done|].
  destruct (Hch ch (list_elem_of_here _ _)) as (Hlen & Hnl & H0c).
  change (grep (Datatypes.S (length (ch :: chunks))) pattern t (ch :: chunks)) with
    (let '(got, cs) := read_chunk (1024 - length t - 1) (ch :: chunks) in
     match got with
     | [] => Some []
     | _ => '(rest, out) ← grep_lines (Datatypes.S (length (t ++ got))) pattern (t ++ got);
            out' ← grep (Datatypes.S (length chunks)) pattern
                     (if (length rest =? length (t ++ got))%nat then [] else rest) cs;
            Some (out ++ out')
     end).
  unfold read_chunk. rewrite (proj2 (Nat.leb_le _ _)) by lia.
  assert (0 ∉ t ++ ch) as H0' by (rewrite elem_of_app; tauto).
  rewrite grep_lines_cut by (done || lia).
  destruct (cut_rest ch t Ht) as (Hr1 & Hr2 & Hr3 & Hr4). specialize (Hr3 Hnl).
  rewrite cut_plain by done. cbn [app]. cbn [concat]. rewrite cut_app.
  destruct ch as [|c ch']; [by apply elem_of_nil in Hnl|]. remember (c :: ch') as ch.
  destruct (cut t ch) as [l1 t1]. cbn [fst snd] in *. cbn [mbind option_bind].
  rewrite (proj2 (Nat.eqb_neq _ _)) by (rewrite length_app; lia).
  rewrite IH.
  - cbn [mbind option_bind]. destruct (cut t1 (concat chunks)) as [l2 t2]. cbn [fst].
    unfold matching. by rewrite List.filter_app, fmap_app.
  - intros ch2 Hch2. apply Hch. by right.
  - done.
  - intros [?|?]%Hr4; tauto.
  - lia.
Qed.

(** When every [read] brings at least one newline and at most 511 bytes, [grep]
    prints exactly the complete lines of the input that match the pattern, in order,
    across the boundaries of the reads. *)
Theorem grep_prints_matching_lines (pattern : list Z) (chunks : list (list Z)) :
  (forall ch, ch ∈ chunks -> (length ch <= 511)%nat /\ 10 ∈ ch /\ 0 ∉ ch) ->
  grep (Datatypes.S (length chunks)) pattern [] chunks =
    Some (matching pattern (fst (cut [] (concat chunks)))).
Proof.
  intros Hch. apply grep_cut; [done|apply not_elem_of_nil|apply not_elem_of_nil|cbn; lia].
Qed.

(** The input "ab\nc" and "d\n" in two reads, searched for a d. *)
Lemma grep_prints_matching_lines_witness :
  grep 3 [100] [] [[97; 98; 10; 99]; [100; 10]] = Some [[99; 100; 10]].
Proof.
  transitivity (Some (matching [100] (fst (cut [] (concat [[97; 98; 10; 99]; [100; 10]]))))); [|reflexivity].
  apply (grep_prints_matching_lines [100] [[97; 98; 10; 99]; [100; 10]]).
  intros ch [->|[->|H]%elem_of_cons]%elem_of_cons; [| |by apply elem_of_nil in H].
  all: split; [cbn; lia|]; split; [by rewrite !elem_of_cons; tauto|].
  all: repeat (apply not_elem_of_cons; split; [done|]); apply not_elem_of_nil.
Defined.

(** A [read] that brings no newline, as a pipe or a console does for a line that is
    written in parts, makes [grep] forget what it has read: the input "ab\n" arrives as
    "a" and "b\n", and a search for "ab" finds nothing, although the line matches. *)
Theorem grep_short_read_loses_text :
  match_ [97; 98] [97; 98] = true /\
  grep 3 [97; 98] [] [[97; 98; 10]] = Some [[97; 98; 10]] /\
  grep 4 [97; 98] [] [[97]; [98; 10]] = Some [].
Proof. vm_compute. done. Qed.
