(* ===== verification/Printf.v ===== *)
(** [printf.c]: the user-level formatted output. The result of a call is the list of
    bytes it writes; [*ap] is the next word after the format on the stack. *)

From S2P Require Import Prelude CString.

(** [static char digits[] = "0123456789ABCDEF"] *)
Definition digit (d : Z) : Z := if d <? 10 then 48 + d else 65 + (d - 10).

(** The [do]-loop of [printint]: the bytes of [buf], the last digit first. *)
Fixpoint digits_loop (fuel : nat) (x base : Z) : option (list Z) :=
  match fuel with
  | O => None
  | S fuel =>
      let d := digit (x mod base) in
      let x := x / base in
      if x =? 0 then Some [d] else r ← digits_loop fuel x base; Some (d :: r)
  end.

(** [None]: the digits do not fit [char buf[16]]. *)
Definition printint (xx base : Z) (sgn : bool) : option (list Z) :=
  let neg := sgn && (xx <? 0) in
  let x := if neg then u32 (- xx) else u32 xx in
  buf ← digits_loop 32 x base;
  let buf := if neg then buf ++ [45] else buf in
  if (16 <? length buf)%nat then None else Some (reverse buf).

(** The bytes before the terminating NUL. *)
Fixpoint cstr (s : list Z) : option (list Z) :=
  match s with
  | [] => None
  | c :: s => if c =? 0 then Some [] else r ← cstr s; Some (c :: r)
  end.

(** What [%] and the character [c] print; [str] is the object a pointer points to. *)
Definition printf_conv (str : Z -> list Z) (c : Z) (ap : list Z) : option (list Z * list Z) :=
  if c =? 100 then
    match ap with a :: ap => o ← printint (s32 a) 10 true; Some (o, ap) | [] => None end
  else if (c =? 120) || (c =? 112) then
    match ap with a :: ap => o ← printint (s32 a) 16 false; Some (o, ap) | [] => None end
  else if c =? 115 then
    match ap with
    | a :: ap => o ← cstr (if a =? 0 then [40; 110; 117; 108; 108; 41; 0] else str a); Some (o, ap)
    | [] => None
    end
  else if c =? 99 then
    match ap with a :: ap => Some ([u8 a], ap) | [] => None end
  else if c =? 37 then Some ([c], ap)
  else Some ([37; c], ap).

(** The loop of [printf]; [state] tells whether a [%] has been read. *)
Fixpoint printf_loop (str : Z -> list Z) (fmt : list Z) (state : bool) (ap : list Z) : option (list Z) :=
  match fmt with
  | [] => None
  | f :: fmt =>
      if f =? 0 then Some []
      else
        let c := Z.land f 255 in
        if state then
          '(o, ap) ← printf_conv str c ap;
          r ← printf_loop str fmt false ap; Some (o ++ r)
        else if c =? 37 then printf_loop str fmt true ap
        else r ← printf_loop str fmt false ap; Some (u8 c :: r)
  end.

Definition printf (str : Z -> list Z) (fmt ap : list Z) : option (list Z) :=
  printf_loop str fmt false ap.

(** * Numbers *)

Definition digit_value (c : Z) : Z := if c <? 58 then c - 48 else c - 55.

(** The number written with the digits [l], the first one first. *)
Definition number (base : Z) (l : list Z) : Z := foldl (fun n c => n * base + digit_value c) 0 l.

Lemma number_snoc base l c : number base (l ++ [c]) = number base l * base + digit_value c.
Proof. unfold number. by rewrite foldl_app. Qed.

Lemma digit_value_digit d : 0 <= d < 16 -> digit_value (digit d) = d.
Proof.
  intros Hd. unfold digit, digit_value. destruct (Z.ltb_spec d 10); [rewrite (proj2 (Z.ltb_lt _ _)) by lia; lia|].
  rewrite (proj2 (Z.ltb_ge _ _)) by lia. lia.
Qed.

Lemma digits_loop_spec fuel base : 2 <= base <= 16 -> forall x, 0 <= x < base ^ Z.of_nat fuel ->
  (0 < fuel)%nat ->
  exists l, digits_loop fuel x base = Some l /\ number base (reverse l) = x /\
    (forall c, c ∈ l -> exists d, 0 <= d < base /\ c = digit d) /\
    (forall k, (0 < k)%nat -> x < base ^ Z.of_nat k -> (length l <= k)%nat) /\ (1 <= length l)%nat.
Proof.
  intros Hb. induction fuel as [|fuel IH]; intros x Hx Hf; [lia|]. cbn [digits_loop].
  pose proof (Z.mod_pos_bound x base ltac:(lia)) as Hm. pose proof (Z.div_mod x base ltac:(lia)) as Hd.
  destruct (Z.eqb_spec (x / base) 0) as [Hz|Hz].
  - exists [digit (x mod base)]. cbn. split_and!; [done| | | |lia].
    + rewrite digit_value_digit by lia. lia.
    + intros c ->%list_elem_of_singleton. eauto.
    + intros k Hk _. lia.
  - assert (0 <= x / base) by (apply Z.div_pos; lia).
    rewrite Nat2Z.inj_succ, Z.pow_succ_r in Hx by lia.
    assert (x / base < base ^ Z.of_nat fuel) by (apply Z.div_lt_upper_bound; lia).
    assert (0 < fuel)%nat as Hf' by (destruct fuel; [cbn in *; lia|lia]).
    destruct (IH (x / base) ltac:(lia) Hf') as (l & -> & Hl & Hdig & Hlen & _).
    exists (digit (x mod base) :: l). cbn [mbind option_bind]. split_and!; [done| | | |cbn; lia].
    + rewrite reverse_cons, number_snoc, Hl, digit_value_digit by lia. lia.
    + intros c [->|Hc]%elem_of_cons; eauto.
    + intros [|[|k]] Hk Hxk; [lia| |].
      * exfalso. apply Hz. apply Z.div_small. cbn in Hxk. lia.
      * cbn [length]. apply le_n_S. apply Hlen; [lia|]. apply Z.div_lt_upper_bound; [lia|].
        rewrite (Nat2Z.inj_succ (S k)), Z.pow_succ_r in Hxk by lia. lia.
Qed.

Lemma printint_digits xx : - 2 ^ 31 <= xx < 2 ^ 31 ->
  exists ds, printint xx 10 true = Some ((if xx <? 0 then [45] else []) ++ ds) /\
    number 10 ds = Z.abs xx /\ (forall c, c ∈ ds -> 48 <= c <= 57) /\ (1 <= length ds <= 10)%nat.
Proof.
  intros Hxx. unfold printint. cbn [andb].
  assert ((if xx <? 0 then u32 (- xx) else u32 xx) = Z.abs xx) as ->.
  { destruct (Z.ltb_spec xx 0); rewrite u32_small; lia. }
  destruct (digits_loop_spec 32 10 ltac:(lia) (Z.abs xx)) as (l & -> & Hl & Hdig & Hlen & H1);
    [change (10 ^ Z.of_nat 32) with (10 ^ 32); lia|lia|].
  specialize (Hlen 10%nat ltac:(lia) ltac:(change (10 ^ Z.of_nat 10) with 10000000000; lia)).
  exists (reverse l). cbn [mbind option_bind]. rewrite length_reverse.
  split_and!; [|done| |lia|lia].
  - destruct (xx <? 0).
    + rewrite (proj2 (Nat.ltb_ge _ _)) by (rewrite length_app; cbn; lia). by rewrite reverse_app.
    + by rewrite (proj2 (Nat.ltb_ge _ _)) by lia.
  - intros c Hc. rewrite elem_of_reverse in Hc. destruct (Hdig c Hc) as (d & Hd & ->). unfold digit.
    rewrite (proj2 (Z.ltb_lt _ _)) by lia. lia.
Qed.

(** [printint] in base ten with a sign prints every [int] so that it can be read
    back, the most negative one included: a minus sign exactly for a negative number,
    then decimal digits whose value is its absolute value; they always fit the buffer. *)
Theorem printint_signed (xx : Z) :
  - 2 ^ 31 <= xx < 2 ^ 31 ->
  exists ds, printint xx 10 true = Some ((if xx <? 0 then [45] else []) ++ ds) /\
    number 10 ds = Z.abs xx /\ (forall c, c ∈ ds -> 48 <= c <= 57) /\ (1 <= length ds <= 10)%nat.
Proof. apply printint_digits. Qed.

Lemma printint_signed_witness :
  exists ds, printint (- 2 ^ 31) 10 true = Some ([45] ++ ds) /\ number 10 ds = 2 ^ 31.
Proof.
  destruct (printint_signed (- 2 ^ 31)) as (ds & H & Hn & _); [lia|].
  exists ds. split; [exact H|exact Hn].
Defined.

Lemma atoi_loop_number r ds : forall n, (forall c, c ∈ ds -> 48 <= c <= 57) -> 0 <= n ->
  foldl (fun n c => n * 10 + digit_value c) n ds < 2 ^ 31 ->
  User.atoi_loop (ds ++ 0 :: r) n = Some (foldl (fun n c => n * 10 + digit_value c) n ds).
Proof.
  induction ds as [|c ds IH]; intros n Hd Hn Hlt; cbn [app User.atoi_loop foldl] in *; [done|].
  pose proof (Hd c (list_elem_of_here _ _)) as Hc. unfold User.isdigit.
  rewrite !(proj2 (Z.leb_le _ _)) by lia. cbn [andb].
  assert (digit_value c = c - 48) as Hv by (unfold digit_value; rewrite (proj2 (Z.ltb_lt _ _)); lia).
  assert (forall l m, (forall c, c ∈ l -> 48 <= c <= 57) -> 0 <= m -> m <= foldl (fun n c => n * 10 + digit_value c) m l) as Hmono.
  { clear. induction l as [|c l IH]; intros m Hl Hm; cbn; [lia|].
    pose proof (Hl c (list_elem_of_here _ _)). assert (digit_value c = c - 48) as ->
      by (unfold digit_value; rewrite (proj2 (Z.ltb_lt _ _)); lia).
    etransitivity; [|apply IH]; [lia|intros; apply Hl; by right|lia]. }
  assert (forall c, c ∈ ds -> 48 <= c <= 57) as Hds by (intros x Hx; apply Hd; by right).
  pose proof (Hmono ds (n * 10 + digit_value c) Hds ltac:(lia)).
  replace (n * 10 + c - 48) with (n * 10 + digit_value c) by lia.
  rewrite s32_small by lia. apply IH; [done|lia|done].
Qed.

(** What [printf] prints for a number that is not negative, [atoi] of ulib.c reads
    back as the same number. *)
Theorem printint_atoi_roundtrip (x : Z) (r : list Z) :
  0 <= x < 2 ^ 31 ->
  exists s, printint x 10 true = Some s /\ User.atoi (s ++ 0 :: r) = Some x.
Proof.
  intros Hx. destruct (printint_digits x) as (ds & Hp & Hn & Hd & _); [lia|].
  rewrite (proj2 (Z.ltb_ge _ _)) in Hp by lia. cbn [app] in Hp. exists ds. split; [done|].
  unfold User.atoi. unfold number in Hn. rewrite atoi_loop_number; [by rewrite Hn, Z.abs_eq by lia|done|lia|].
  rewrite Hn. lia.
Qed.

Lemma printint_atoi_roundtrip_witness :
  exists s, printint 40961 10 true = Some s /\ User.atoi (s ++ 0 :: []) = Some 40961.
Proof. apply (printint_atoi_roundtrip 40961 []). lia. Defined.

(** * Text *)

(** A text with its percent signs doubled. *)
Fixpoint escape (s : list Z) : list Z :=
  match s with
  | [] => []
  | c :: s => if c =? 37 then 37 :: 37 :: escape s else c :: escape s
  end.

(** [printf] prints any text literally when its percent signs are doubled, whatever
    follows it on the stack. *)
Theorem printf_escape_roundtrip str (s ap : list Z) :
  (forall c, c ∈ s -> 0 < c < 256) -> printf str (escape s ++ [0]) ap = Some s.
Proof.
  unfold printf. induction s as [|c s IH]; intros Hs; [done|].
  pose proof (Hs c (list_elem_of_here _ _)) as Hc.
  specialize (IH (fun x Hx => Hs x (list_elem_of_further _ _ _ Hx))).
  assert (Z.land c 255 = c) as Hl.
  { change 255 with (Z.ones 8). rewrite Z.land_ones by lia. apply Z.mod_small. lia. }
  cbn [escape]. destruct (Z.eqb_spec c 37) as [->|Hne]; cbn [app printf_loop].
  - rewrite Hl. cbn. by rewrite IH.
  - rewrite (proj2 (Z.eqb_neq c 0)) by lia. rewrite Hl, (proj2 (Z.eqb_neq c 37)) by done.
    rewrite IH. cbn. by rewrite u8_small by (unfold byte_ok; lia).
Qed.

Lemma printf_escape_roundtrip_witness :
  printf (fun _ => []) (escape [53; 48; 37; 10] ++ [0]) [] = Some [53; 48; 37; 10].
Proof.
  apply (printf_escape_roundtrip (fun _ => []) [53; 48; 37; 10] []).
  intros c. rewrite !elem_of_cons, elem_of_nil. lia.
Defined.
