(* ===== verification/Sh.v ===== *)
(** [sh.c]: the shell's parser, its line editor and its notion of the current directory.

    A pointer into the command line is the suffix of the line that it points to; the
    end of the line, where the code finds a NUL, is the empty suffix. The parser is a
    function of the pointer [*ps]; a call of [panic] is the outcome [Panic]. *)

From S2P Require Import Prelude CString.

Definition MAXARGS : nat := 10.
Definition O_RDONLY : Z := 0.
Definition O_WRONLY : Z := 1.
Definition O_RDWR : Z := 2.
Definition O_CREATE : Z := 512.

(** A counted string: [q] and [eq]. *)
Record span := Span { sp_q : list Z; sp_eq : list Z }.

(** [struct cmd] and its five kinds. *)
Inductive cmd (A : Type) :=
| EXEC (argv : list A)
| REDIR (c : cmd A) (file : A) (mode fd : Z)
| PIPE (l r : cmd A)
| LIST (l r : cmd A)
| BACK (c : cmd A).
Arguments EXEC {A} argv.
Arguments REDIR {A} c file mode fd.
Arguments PIPE {A} l r.
Arguments LIST {A} l r.
Arguments BACK {A} c.

(** The constructors; memory is allocated by [malloc], which the shell does not check. *)
Definition execcmd : cmd span := EXEC [].
Definition redircmd (subcmd : cmd span) (file : span) (mode fd : Z) : cmd span :=
  REDIR subcmd file mode fd.
Definition pipecmd (left right : cmd span) : cmd span := PIPE left right.
Definition listcmd (left right : cmd span) : cmd span := LIST left right.
Definition backcmd (subcmd : cmd span) : cmd span := BACK subcmd.

(** [" \t\r\n\v"] and ["<|>&;()"] *)
Definition whitespace : list Z := [32; 9; 13; 10; 11].
Definition symbols : list Z := [60; 124; 62; 38; 59; 40; 41].

Definition strchr_in (s : list Z) (c : Z) : bool := bool_decide (c ∈ s).

(** [while(s < es && strchr(whitespace, *s)) s++;] *)
Fixpoint skip_ws (s : list Z) : list Z :=
  match s with
  | c :: r => if strchr_in whitespace c then skip_ws r else s
  | [] => []
  end.

(** [while(s < es && !strchr(whitespace, *s) && !strchr(symbols, *s)) s++;] *)
Fixpoint skip_word (s : list Z) : list Z :=
  match s with
  | c :: r => if negb (strchr_in whitespace c) && negb (strchr_in symbols c) then skip_word r else s
  | [] => []
  end.

Local Abbreviation P := (M (list Z)).

Definition gettoken : P (Z * span) := fun ps =>
  let s := skip_ws ps in
  let q := s in
  let '(ret, s) :=
    match s with
    | [] => (0, s)
    | c :: r =>
        if strchr_in [124; 40; 41; 59; 38; 60] c then (c, r)
        else if c =? 62 then
          match r with
          | 62 :: r' => (43, r')
          | _ => (c, r)
          end
        else (97, skip_word s)
    end in
  Ret ((ret, Span q s), skip_ws s).

Definition peek (toks : list Z) : P bool := fun ps =>
  let s := skip_ws ps in
  Ret (match s with [] => false | c :: _ => strchr_in toks c end, s).

Definition out_of_fuel {A} : P A := fun _ => NoFuel.

Fixpoint parseredirs (fuel : nat) (c : cmd span) : P (cmd span) :=
  let* more := peek [60; 62] in
  if (more : bool) then
    match fuel with
    | O => out_of_fuel
    | S fuel =>
        let* t := gettoken in
        let* f := gettoken in
        if negb (fst f =? 97) then panic "missing file for redirection"
        else if fst t =? 60 then parseredirs fuel (redircmd c (snd f) O_RDONLY 0)
        else if (fst t =? 62) || (fst t =? 43) then
          parseredirs fuel (redircmd c (snd f) (Z.lor O_WRONLY O_CREATE) 1)
        else parseredirs fuel c
    end
  else ret c.

(** The redirections around a command and the arguments inside it: [ret] and [cmd] of
    [parseexec] share the [struct execcmd], so arguments read after a redirection are
    stored inside it. *)
Fixpoint store_argv (c : cmd span) (argv : list span) : cmd span :=
  match c with
  | EXEC _ => EXEC argv
  | REDIR c f m d => REDIR (store_argv c argv) f m d
  | _ => c
  end.

(** The argument loop of [parseexec]. *)
Fixpoint parseargs (fuel : nat) (r : cmd span) (argv : list span) : P (cmd span) :=
  let* stop := peek [124; 41; 38; 59] in
  if (stop : bool) then ret (store_argv r argv)
  else
    match fuel with
    | O => out_of_fuel
    | S fuel =>
        let* t := gettoken in
        if fst t =? 0 then ret (store_argv r argv)
        else if negb (fst t =? 97) then panic "syntax"
        else
          let argv := argv ++ [snd t] in
          if (MAXARGS <=? length argv)%nat then panic "too many args"
          else
            let* s := gets (fun s => s) in
            let* r := parseredirs (length s) r in
            parseargs fuel r argv
    end.

(** [while(peek(ps, es, "&"))] of [parseline]. *)
Fixpoint parsebacks (fuel : nat) (c : cmd span) : P (cmd span) :=
  let* more := peek [38] in
  if (more : bool) then
    match fuel with
    | O => out_of_fuel
    | S fuel => gettoken ;;; parsebacks fuel (backcmd c)
    end
  else ret c.

(** [parseblock], with [parseline] as a parameter. *)
Definition parseblock (parseline : P (cmd span)) : P (cmd span) :=
  let* open := peek [40] in
  if negb open then panic "parseblock"
  else
    gettoken ;;;
    let* c := parseline in
    let* close := peek [41] in
    if negb close then panic "syntax - missing )"
    else
      gettoken ;;;
      let* s := gets (fun s => s) in
      parseredirs (length s) c.

Fixpoint parseline (fuel : nat) : P (cmd span) :=
  match fuel with
  | O => out_of_fuel
  | S fuel =>
      let* c := parsepipe fuel in
      let* s := gets (fun s => s) in
      let* c := parsebacks (length s) c in
      let* more := peek [59] in
      if (more : bool) then
        gettoken ;;;
        let* r := parseline fuel in
        ret (listcmd c r)
      else ret c
  end
with parsepipe (fuel : nat) : P (cmd span) :=
  match fuel with
  | O => out_of_fuel
  | S fuel =>
      let* c := parseexec fuel in
      let* more := peek [124] in
      if (more : bool) then
        gettoken ;;;
        let* r := parsepipe fuel in
        ret (pipecmd c r)
      else ret c
  end
with parseexec (fuel : nat) : P (cmd span) :=
  match fuel with
  | O => out_of_fuel
  | S fuel =>
      let* block := peek [40] in
      if (block : bool) then parseblock (parseline fuel)
      else
        let* s := gets (fun s => s) in
        let* r := parseredirs (length s) execcmd in
        let* s := gets (fun s => s) in
        parseargs (S (length s)) r []
  end.

(** [parsecmd] up to [nulterminate]. *)
Definition parsecmd (s : list Z) : outcome (cmd span) :=
  match parseline (4 * length s + 8) s with
  | Ret (c, s') =>
      match skip_ws s' with
      | [] => Ret c
      | _ => Panic "syntax"
      end
  | Panic e => Panic e | Block => Block | Fault => Fault | NoFuel => NoFuel
  end.

(** [*p = 0] for the pointer [p] into the line [buf], its NUL included. *)
Definition put_nul (buf : list Z) (p : list Z) : list Z :=
  <[(length buf - 1 - length p)%nat := 0]> buf.

Fixpoint nulterminate (buf : list Z) (c : cmd span) : list Z :=
  match c with
  | EXEC argv => foldl (fun buf a => put_nul buf (sp_eq a)) buf argv
  | REDIR c f _ _ => put_nul (nulterminate buf c) (sp_eq f)
  | PIPE l r => nulterminate (nulterminate buf l) r
  | LIST l r => nulterminate (nulterminate buf l) r
  | BACK c => nulterminate buf c
  end.

(** The string that [argv[i]] or [file] points to when the line is [buf]. *)
Definition string_at (buf : list Z) (a : span) : option (list Z) :=
  let p := drop (length buf - 1 - length (sp_q a)) buf in
  n ← Kernel.strlen p; Some (take (Z.to_nat n) p).
