(* ===== verification/ShSpec.v ===== *)
(** [sh.c]: the parser reads back what the grammar of the shell prints, always
    terminates, and leaves NUL-terminated words. *)

From S2P Require Import Prelude CString Sh.

(** * Tokens *)

Inductive tok := TW (w : list Z) | TS (c : Z).

(** Words have no white space and no symbols. *)
Definition word (w : list Z) : Prop :=
  w <> [] /\ forall c, c ∈ w -> (c ∉ whitespace) /\ (c ∉ symbols) /\ c <> 0.
Definition tok_ok (t : tok) : Prop :=
  match t with TW w => word w | TS c => c ∈ symbols end.

Definition enc1 (t : tok) : list Z := match t with TW w => w ++ [32] | TS c => [c; 32] end.
(** Each token is followed by a blank. *)
Definition enc (ts : list tok) : list Z := concat (enc1 <$> ts).

Lemma enc_cons t ts : enc (t :: ts) = enc1 t ++ enc ts.
Proof. done. Qed.

Lemma strchr_in_true s c : strchr_in s c = true <-> c ∈ s.
Proof. unfold strchr_in. by rewrite bool_decide_eq_true. Qed.
Lemma strchr_in_false s c : strchr_in s c = false <-> c ∉ s.
Proof. unfold strchr_in. by rewrite bool_decide_eq_false. Qed.

Lemma symbol_not_ws c : c ∈ symbols -> c ∉ whitespace.
Proof. unfold symbols, whitespace. rewrite !elem_of_cons, elem_of_nil. intros H. intuition lia. Qed.

Lemma skip_ws_first c r : c ∉ whitespace -> skip_ws (c :: r) = c :: r.
Proof. intros Hc. cbn. by rewrite (proj2 (strchr_in_false _ _) Hc). Qed.

Lemma enc1_first t : tok_ok t -> exists c r, enc1 t = c :: r /\ (c ∉ whitespace) /\
  match t with TW _ => c ∉ symbols | TS c' => c = c' end.
Proof.
  destruct t as [w|c]; cbn.
  - intros [Hne Hw]. destruct w as [|c w]; [done|]. cbn. exists c, (w ++ [32]).
    destruct (Hw c (list_elem_of_here _ _)) as (? & ? & _). done.
  - intros Hc. exists c, [32]. split_and!; [done|by apply symbol_not_ws|done].
Qed.

Lemma skip_ws_enc ts : Forall tok_ok ts -> skip_ws (enc ts) = enc ts.
Proof.
  intros [|t ts' Ht _]; [done|]. rewrite enc_cons. destruct (enc1_first t Ht) as (c & r & -> & Hc & _).
  cbn [app]. by apply skip_ws_first.
Qed.

Lemma skip_ws_blank s : skip_ws (32 :: s) = skip_ws s.
Proof. done. Qed.

Lemma skip_word_app w s : (forall c, c ∈ w -> (c ∉ whitespace) /\ (c ∉ symbols)) ->
  skip_word (w ++ 32 :: s) = 32 :: s.
Proof.
  induction w as [|c w IH]; intros Hw; [done|]. cbn [app skip_word].
  destruct (Hw c (list_elem_of_here _ _)) as [H1 H2].
  rewrite (proj2 (strchr_in_false _ _) H1), (proj2 (strchr_in_false _ _) H2). cbn.
  apply IH. intros x Hx. apply Hw. by right.
Qed.

(** The string that a span counts. *)
Definition span_word (a : span) : list Z := take (length (sp_q a) - length (sp_eq a)) (sp_q a).

Lemma gettoken_word w ts : word w -> Forall tok_ok ts ->
  exists a, gettoken (enc (TW w :: ts)) = Ret ((97, a), enc ts) /\ span_word a = w.
Proof.
  intros Hw Hts. pose proof Hw as [Hne Hc]. unfold gettoken.
  rewrite skip_ws_enc by by constructor. rewrite enc_cons. cbn [enc1]. rewrite <- app_assoc. cbn [app].
  assert (skip_word (w ++ 32 :: enc ts) = 32 :: enc ts) as Hsk.
  { apply skip_word_app. intros c Hcw. destruct (Hc c Hcw) as (? & ? & _). done. }
  destruct w as [|c w]; [done|]. destruct (Hc c (list_elem_of_here _ _)) as (H1 & H2 & H3).
  cbn [app] in *.
  assert (strchr_in [124; 40; 41; 59; 38; 60] c = false) as ->.
  { apply strchr_in_false. intros Hin. apply H2. unfold symbols.
    rewrite !elem_of_cons in *. rewrite elem_of_nil in *. intuition lia. }
  assert ((c =? 62) = false) as ->.
  { apply Z.eqb_neq. intros ->. apply H2. unfold symbols. rewrite !elem_of_cons. tauto. }
  rewrite Hsk. eexists. split; [rewrite skip_ws_blank, skip_ws_enc by done; done|].
  unfold span_word. cbn [sp_q sp_eq]. cbn [length].
  rewrite length_app. cbn [length].
  replace (S (length w + S (length (enc ts))) - S (length (enc ts)))%nat with (length (c :: w))
    by (cbn; lia).
  change (c :: w ++ 32 :: enc ts) with ((c :: w) ++ 32 :: enc ts). apply take_app_length.
Qed.

Lemma gettoken_symbol c ts : c ∈ symbols -> Forall tok_ok ts ->
  exists a, gettoken (enc (TS c :: ts)) = Ret ((c, a), enc ts).
Proof.
  intros Hc Hts. unfold gettoken. rewrite skip_ws_enc by by constructor.
  rewrite enc_cons. cbn [enc1 app]. destruct (decide (c = 62)) as [->|Hne].
  - change (strchr_in [124; 40; 41; 59; 38; 60] 62) with false. cbn -[enc skip_ws].
    eexists. by rewrite skip_ws_blank, skip_ws_enc.
  - assert (strchr_in [124; 40; 41; 59; 38; 60] c = true) as ->.
    { apply strchr_in_true. unfold symbols in Hc. rewrite !elem_of_cons in *. tauto. }
    eexists. rewrite skip_ws_blank, skip_ws_enc by done. done.
Qed.

Lemma gettoken_end : exists a, gettoken (enc []) = Ret ((0, a), []).
Proof. by eexists. Qed.

(** The first token is one of the symbols [l]. *)
Definition starts (l : list Z) (ts : list tok) : bool :=
  match ts with TS c :: _ => bool_decide (c ∈ l) | _ => false end.

Lemma peek_enc l ts : Forall tok_ok ts -> (forall c, c ∈ l -> c ∈ symbols) ->
  peek l (enc ts) = Ret (starts l ts, enc ts).
Proof.
  intros Hts Hl. unfold peek. rewrite skip_ws_enc by done. f_equal. f_equal.
  destruct Hts as [|t ts Ht Hts]; [done|]. rewrite enc_cons.
  destruct (enc1_first t Ht) as (c & r & -> & Hc & Ht'). cbn [app].
  destruct t as [w|c']; cbn; [|by subst]. apply strchr_in_false. intros Hin. by apply Ht', Hl.
Qed.

(** * Printing *)

Inductive level := LExec | LPipe | LBack | LLine.

Abbreviation redir A := (A * Z * Z)%type.
Definition wrap {A} (c : cmd A) (rs : list (redir A)) : cmd A :=
  foldl (fun c '(f, m, d) => REDIR c f m d) c rs.
Fixpoint cmd_map {A B} (f : A -> B) (c : cmd A) : cmd B :=
  match c with
  | EXEC argv => EXEC (f <$> argv)
  | REDIR c x m d => REDIR (cmd_map f c) (f x) m d
  | PIPE l r => PIPE (cmd_map f l) (cmd_map f r)
  | LIST l r => LIST (cmd_map f l) (cmd_map f r)
  | BACK c => BACK (cmd_map f c)
  end.

Definition rtoks (r : redir (list Z)) : list tok :=
  let '(f, m, d) := r in [TS (if d =? 0 then 60 else 62); TW f].
Definition parens (p : bool) (b : list tok) : list tok :=
  if p then TS 40 :: b ++ [TS 41] else b.

(** The tokens of a command, with parentheses where the grammar needs them. *)
Fixpoint toks (lv : level) (c : cmd (list Z)) : list tok :=
  match c with
  | EXEC argv => TW <$> argv
  | REDIR c f m d => toks LExec c ++ rtoks (f, m, d)
  | PIPE l r =>
      parens (match lv with LExec => true | _ => false end)
             (toks LExec l ++ TS 124 :: toks LPipe r)
  | BACK c =>
      parens (match lv with LExec | LPipe => true | _ => false end) (toks LBack c ++ [TS 38])
  | LIST l r =>
      parens (match lv with LLine => false | _ => true end)
             (toks LBack l ++ TS 59 :: toks LLine r)
  end.

(** The commands the grammar can express: words, at most nine arguments, and the two
    redirections. *)
Definition redir_ok (f : list Z) (m d : Z) : Prop :=
  word f /\ ((m = O_RDONLY /\ d = 0) \/ (m = Z.lor O_WRONLY O_CREATE /\ d = 1)).
Fixpoint cmd_ok (c : cmd (list Z)) : Prop :=
  match c with
  | EXEC argv => Forall word argv /\ (length argv < MAXARGS)%nat
  | REDIR c f m d => cmd_ok c /\ redir_ok f m d
  | PIPE l r | LIST l r => cmd_ok l /\ cmd_ok r
  | BACK c => cmd_ok c
  end.

Definition print_cmd (c : cmd (list Z)) : list Z := enc (toks LLine c).

(** What may follow a command of a level. *)
Definition follow (lv : level) (ts : list tok) : Prop :=
  match ts with
  | [] => True
  | t :: _ => exists c, t = TS c /\
      c ∈ match lv with
          | LExec => [124; 38; 59; 41] | LPipe => [38; 59; 41] | LBack => [59; 41] | LLine => [41]
          end
  end.

Definition run (lv : level) (fuel : nat) : M (list Z) (cmd span) :=
  match lv with
  | LExec => parseexec fuel
  | LPipe => parsepipe fuel
  | LBack => let* c := parsepipe fuel in let* s := gets (fun s => s) in parsebacks (length s) c
  | LLine => parseline fuel
  end.

Definition words : cmd span -> cmd (list Z) := cmd_map span_word.

Abbreviation pure := (fun _ : option string => False).

(** With enough fuel, the parser for [lv] reads [c] back. *)
Definition reads (lv : level) (c : cmd (list Z)) (n : nat) : Prop :=
  forall rest fuel, Forall tok_ok rest -> follow lv rest -> (n <= fuel)%nat ->
  wp pure (run lv fuel) (enc (toks lv c ++ rest)) (fun c' s => s = enc rest /\ words c' = c).

(** The same at the level of [parseexec], with redirections that follow. *)
Definition reads_exec (c : cmd (list Z)) (n : nat) : Prop :=
  forall rs rest fuel, Forall (fun '(f, m, d) => redir_ok f m d) rs ->
  Forall tok_ok rest -> follow LExec rest -> (n <= fuel)%nat ->
  wp pure (parseexec fuel) (enc (toks LExec c ++ (rs ≫= rtoks) ++ rest))
    (fun c' s => s = enc rest /\ words c' = wrap c rs).

Lemma wp_peek may l ts (Q : bool -> list Z -> Prop) :
  Forall tok_ok ts -> (forall c, c ∈ l -> c ∈ symbols) -> Q (starts l ts) (enc ts) ->
  wp may (peek l) (enc ts) Q.
Proof. intros ? ? HQ. unfold wp. by rewrite peek_enc. Qed.

Lemma wp_gettoken_symbol may c ts (Q : Z * span -> list Z -> Prop) :
  c ∈ symbols -> Forall tok_ok ts -> (forall a, Q (c, a) (enc ts)) ->
  wp may gettoken (enc (TS c :: ts)) Q.
Proof. intros Hc Hts HQ. unfold wp. destruct (gettoken_symbol c ts Hc Hts) as [a ->]. apply HQ. Qed.

Lemma wp_gettoken_word may w ts (Q : Z * span -> list Z -> Prop) :
  word w -> Forall tok_ok ts -> (forall a, span_word a = w -> Q (97, a) (enc ts)) ->
  wp may gettoken (enc (TW w :: ts)) Q.
Proof.
  intros Hw Hts HQ. unfold wp. destruct (gettoken_word w ts Hw Hts) as (a & -> & Ha). by apply HQ.
Qed.

Lemma in_symbols l : forallb (fun c => bool_decide (c ∈ symbols)) l = true ->
  forall c, c ∈ l -> c ∈ symbols.
Proof.
  rewrite forallb_forall. intros H c Hc. apply list_elem_of_In in Hc.
  apply H in Hc. by rewrite bool_decide_eq_true in Hc.
Qed.

(** One peek: the sets of symbols are closed terms. *)
Ltac wpeek :=
  wbind; apply wp_peek; [eauto 10 with shell|by apply in_symbols|].

Create HintDb shell.
#[export] Hint Constructors Forall : shell.
#[export] Hint Resolve Forall_app_2 : shell.

Lemma tok_ok_sym c : bool_decide (c ∈ symbols) = true -> tok_ok (TS c).
Proof. by rewrite bool_decide_eq_true. Qed.
#[export] Hint Extern 1 (tok_ok (TS _)) => by apply tok_ok_sym : shell.

Lemma rtoks_ok f m d : redir_ok f m d -> Forall tok_ok (rtoks (f, m, d)).
Proof.
  intros [Hf Hm]. unfold rtoks. constructor; [|by constructor].
  destruct (d =? 0); by apply tok_ok_sym.
Qed.

Lemma word_toks_ok args : Forall word args -> Forall tok_ok (TW <$> args).
Proof. intros H. apply Forall_fmap. by eapply Forall_impl. Qed.

Lemma redirs_ok rs :
  Forall (fun '(f, m, d) => redir_ok f m d) rs -> Forall tok_ok (rs ≫= rtoks).
Proof.
  induction 1 as [|[[f m] d] rs Hr _ IH]; [constructor|]. cbn [mbind list_bind].
  apply Forall_app_2; [by apply rtoks_ok|apply IH].
Qed.
#[export] Hint Resolve word_toks_ok redirs_ok : shell.

Lemma parens_ok p b : Forall tok_ok b -> Forall tok_ok (parens p b).
Proof. destruct p; [|done]. intros H. unfold parens. eauto 10 with shell. Qed.

Lemma toks_ok c : cmd_ok c -> forall lv, Forall tok_ok (toks lv c).
Proof.
  induction c as [argv|c IH f m d|l IHl r IHr|l IHl r IHr|c IH]; cbn [cmd_ok toks]; intros Hc lv;
    try (destruct Hc as [Hc1 Hc2]); try apply parens_ok.
  - by apply word_toks_ok.
  - apply Forall_app_2; [by apply IH|by apply rtoks_ok].
  - apply Forall_app_2; [by apply IHl|]. constructor; [by apply tok_ok_sym|by apply IHr].
  - apply Forall_app_2; [by apply IHl|]. constructor; [by apply tok_ok_sym|by apply IHr].
  - apply Forall_app_2; [by apply IH|eauto with shell].
Qed.
#[export] Hint Resolve toks_ok : shell.

Lemma length_enc ts : Forall tok_ok ts -> (2 * length ts <= length (enc ts))%nat.
Proof.
  induction 1 as [|t ts Ht _ IH]; [done|]. rewrite enc_cons, length_app. cbn [length].
  destruct t as [w|c]; cbn [enc1 length]; [|lia]. rewrite length_app. cbn [length].
  destruct Ht as [Hne _]. destruct w; [done|]. cbn [length]. lia.
Qed.

(** The symbols after which a command of a level ends. *)
Definition ends (lv : level) : list Z :=
  match lv with
  | LExec => [124; 38; 59; 41] | LPipe => [38; 59; 41] | LBack => [59; 41] | LLine => [41]
  end.

Lemma follow_starts lv l ts : follow lv ts ->
  forallb (fun c => negb (bool_decide (c ∈ l))) (ends lv) = true -> starts l ts = false.
Proof.
  destruct ts as [|t ts]; [done|]. intros (c & -> & Hc) Hl. cbn. apply bool_decide_eq_false.
  rewrite forallb_forall in Hl. apply list_elem_of_In, Hl in Hc.
  by rewrite negb_true_iff, bool_decide_eq_false in Hc.
Qed.

Lemma wrap_words (c : cmd span) ss :
  words (wrap c ss) = wrap (words c) ((fun '(a, m, d) => (span_word a, m, d)) <$> ss).
Proof. revert c. induction ss as [|[[a m] d] ss IH]; intros c; [done|]. apply IH. Qed.

Lemma store_wrap argv x ss : store_argv (wrap (EXEC x) ss) argv = wrap (EXEC argv) ss.
Proof.
  cut (forall c, store_argv (wrap c ss) argv = wrap (store_argv c argv) ss); [intros H; apply H|].
  induction ss as [|[[a m] d] ss IH]; intros c; [done|]. apply IH.
Qed.

(** [parseredirs] reads the redirections, in order, and nothing else. *)
Lemma wp_parseredirs rs : forall rest fuel c,
  Forall (fun '(f, m, d) => redir_ok f m d) rs -> Forall tok_ok rest ->
  starts [60; 62] rest = false -> (length rs <= fuel)%nat ->
  wp pure (parseredirs fuel c) (enc ((rs ≫= rtoks) ++ rest))
    (fun c' s => s = enc rest /\ exists ss, c' = wrap c ss /\
       (fun '(a, m, d) => (span_word a, m, d)) <$> ss = rs).
Proof.
  induction rs as [|[[f m] d] rs IH]; intros rest fuel c Hrs Hrest Hst Hf.
  - destruct fuel; cbn [parseredirs]; wpeek; cbn [mbind list_bind app]; rewrite Hst;
      apply wp_ret; (split; [done|by exists []]).
  - apply Forall_cons in Hrs as [[Hw Hm] Hrs]. destruct fuel as [|fuel]; [cbn in Hf; lia|].
    cbn [parseredirs]. cbn [mbind list_bind]. cbn [rtoks app].
    assert (Hok : Forall tok_ok ((rs ≫= rtoks) ++ rest)) by auto with shell.
    set (k := if d =? 0 then 60 else 62).
    assert (Hk : k ∈ symbols) by (unfold k; destruct (d =? 0); by apply (tok_ok_sym _)).
    wbind. apply wp_peek; [constructor; [exact Hk|by constructor]|by apply in_symbols|].
    replace (starts [60; 62] _) with true
      by (cbn; unfold k; by destruct (d =? 0)).
    wbind. apply wp_gettoken_symbol; [done|by constructor|]. intros a.
    wbind. apply wp_gettoken_word; [done..|]. intros b Hb. cbn [fst snd]. rewrite Z.eqb_refl.
    cbn [negb].
    assert (wp pure (parseredirs fuel (REDIR c b m d)) (enc ((rs ≫= rtoks) ++ rest))
      (fun c' s => s = enc rest /\ exists ss, c' = wrap c ss /\
         (fun '(a, m, d) => (span_word a, m, d)) <$> ss = (f, m, d) :: rs)) as Hgo.
    { eapply wp_mono; [apply IH; [done..|cbn in Hf; lia]|].
      intros c' s (-> & ss & -> & <-). split; [done|]. exists ((b, m, d) :: ss).
      by rewrite <- Hb. }
    unfold k. destruct Hm as [[-> ->]|[-> ->]]; apply Hgo.
Qed.

Lemma length_rtoks rs : (length rs <= length (rs ≫= rtoks))%nat.
Proof.
  induction rs as [|[[f m] d] rs IH]; [done|]. rewrite bind_cons, length_app. cbn [rtoks length]. lia.
Qed.

(** The argument loop: the redirections follow the last argument. *)
Lemma wp_parseargs args : forall rs rest fuel r argv,
  (args = [] -> rs = []) -> Forall word args -> (length argv + length args < MAXARGS)%nat ->
  Forall (fun '(f, m, d) => redir_ok f m d) rs -> Forall tok_ok rest -> follow LExec rest ->
  (length args < fuel)%nat ->
  wp pure (parseargs fuel r argv) (enc ((TW <$> args) ++ (rs ≫= rtoks) ++ rest))
    (fun c' s => s = enc rest /\ exists ss aa, c' = store_argv (wrap r ss) (argv ++ aa) /\
       (fun '(a, m, d) => (span_word a, m, d)) <$> ss = rs /\ span_word <$> aa = args).
Proof.
  induction args as [|w args IH]; intros rs rest fuel r argv Hnil Hw Hlen Hrs Hrest Hfo Hf.
  - rewrite (Hnil eq_refl). destruct fuel as [|fuel]; [lia|]. cbn [fmap list_fmap mbind list_bind app].
    cbn [parseargs]. wpeek. destruct rest as [|t rest].
    + cbn [starts]. wbind. destruct gettoken_end as [a Ha]. eapply wp_run; [exact Ha|].
      cbn [fst]. rewrite Z.eqb_refl. apply wp_ret. split; [done|]. exists [], [].
      by rewrite app_nil_r.
    + destruct Hfo as (c & -> & Hc). cbn [starts].
      rewrite (bool_decide_eq_true_2 (c ∈ [124; 41; 38; 59]))
        by (rewrite !elem_of_cons in *; tauto).
      apply wp_ret. split; [done|]. exists [], []. by rewrite app_nil_r.
  - apply Forall_cons in Hw as [Hw Hws]. destruct fuel as [|fuel]; [lia|]. cbn [length] in *.
    cbn [fmap list_fmap app parseargs].
    assert (Hok : Forall tok_ok ((TW <$> args) ++ (rs ≫= rtoks) ++ rest)) by auto with shell.
    wbind. apply wp_peek; [by constructor|by apply in_symbols|]. cbn [starts].
    wbind. apply wp_gettoken_word; [done..|]. intros a Ha. cbn [fst snd].
    change (97 =? 0) with false. rewrite Z.eqb_refl. cbn [negb].
    rewrite (proj2 (Nat.leb_gt _ _)) by (rewrite length_app; cbn [length]; unfold MAXARGS in *; lia).
    wstep. wbind.
    assert (length (argv ++ [a]) + length args < MAXARGS)%nat
      by (rewrite length_app; cbn [length]; lia).
    destruct args as [|w' args'].
    + cbn [fmap list_fmap app]. eapply wp_mono; [apply wp_parseredirs; try done|].
      { by eapply follow_starts. }
      { pose proof (length_enc _ Hok) as Hl. cbn [fmap list_fmap app] in Hl. rewrite length_app in Hl.
        pose proof (length_rtoks rs). lia. }
      intros c' s (-> & ss & -> & Hss).
      eapply wp_mono; [apply (IH [] rest); try done; lia|].
      intros c2 s (-> & ss' & aa & -> & Hss' & Haa). apply fmap_nil_inv in Hss' as ->.
      split; [done|]. exists ss, (a :: aa). rewrite <- app_assoc. cbn [fmap list_fmap].
      split_and!; [done|done|]. by rewrite Ha, Haa.
    + eapply wp_mono; [apply (wp_parseredirs []); [done|done|done|cbn; lia]|].
      intros c' s (-> & ss & -> & Hss). apply fmap_nil_inv in Hss as ->.
      eapply wp_mono; [apply (IH rs rest); try done; lia|].
      intros c2 s (-> & ss' & aa & -> & Hss' & Haa).
      split; [done|]. exists ss', (a :: aa). rewrite <- app_assoc. cbn [fmap list_fmap] in *.
      split_and!; [done|done|]. by rewrite Ha, Haa.
Qed.

Lemma reads_exec_words args : Forall word args -> (length args < MAXARGS)%nat ->
  reads_exec (EXEC args) 1.
Proof.
  intros Hw Hlen rs rest fuel Hrs Hrest Hfo Hf. destruct fuel as [|fuel]; [lia|].
  cbn [toks parseexec]. unfold execcmd.
  assert (Hok : Forall tok_ok ((TW <$> args) ++ (rs ≫= rtoks) ++ rest)) by auto with shell.
  pose proof (length_enc _ Hok) as Hl. rewrite !length_app, length_fmap in Hl.
  pose proof (length_rtoks rs) as Hr.
  wbind. apply wp_peek; [done|by apply in_symbols|].
  replace (starts [40] _) with false; [|symmetry].
  2:{ destruct args; [|done]. cbn [fmap list_fmap app]. destruct rs as [|[[f m] d] rs].
      - by eapply follow_starts.
      - cbn. by destruct (d =? 0). }
  wstep. wbind. destruct args as [|w args].
  - cbn [fmap list_fmap app]. eapply wp_mono; [apply wp_parseredirs; try done|].
    { by eapply follow_starts. } { cbn [fmap list_fmap app length] in Hl. lia. }
    intros c' s (-> & ss & -> & Hss). wstep.
    eapply wp_mono; [apply (wp_parseargs [] [] rest); try done; cbn; lia|].
    intros c2 s (-> & ss' & aa & -> & Hss' & Haa).
    apply fmap_nil_inv in Hss' as ->. apply fmap_nil_inv in Haa as ->. cbn [wrap foldl app].
    rewrite store_wrap, wrap_words, Hss. done.
  - eapply wp_mono;
      [apply (wp_parseredirs [] ((TW <$> w :: args) ++ (rs ≫= rtoks) ++ rest)); [done|done|done|cbn; lia]|].
    intros c' s (-> & ss & -> & Hss). apply fmap_nil_inv in Hss as ->. wstep.
    eapply wp_mono; [apply (wp_parseargs (w :: args) rs rest); try done; cbn [length] in *; lia|].
    intros c2 s (-> & ss' & aa & -> & Hss' & Haa). cbn [wrap foldl app].
    change (foldl _ _ ss') with (wrap (EXEC []) ss').
    rewrite store_wrap, wrap_words, Hss'. cbn [words cmd_map]. by rewrite Haa.
Qed.

Lemma reads_exec_redir c f m d n : redir_ok f m d -> reads_exec c n ->
  reads_exec (REDIR c f m d) n.
Proof.
  intros Hr Hc rs rest fuel Hrs Hrest Hfo Hf. cbn [toks]. rewrite <- app_assoc.
  change (wrap (REDIR c f m d) rs) with (wrap c ((f, m, d) :: rs)).
  specialize (Hc ((f, m, d) :: rs) rest fuel). rewrite bind_cons, <- app_assoc in Hc.
  apply Hc; [by constructor|done..].
Qed.

Lemma reads_exec_reads c n : reads_exec c n -> reads LExec c n.
Proof. intros H rest fuel Hrest Hfo Hf. by apply (H [] rest fuel). Qed.

(** A parenthesised line, with its redirections. *)
Lemma reads_parens c n : toks LExec c = parens true (toks LLine c) -> cmd_ok c ->
  reads LLine c n -> reads_exec c (S n).
Proof.
  intros Heq Hok Hc rs rest fuel Hrs Hrest Hfo Hf. destruct fuel as [|fuel]; [lia|]. rewrite Heq.
  cbn [parens app]. rewrite <- app_assoc. cbn [app parseexec].
  set (rest' := (rs ≫= rtoks) ++ rest).
  assert (Hrest' : Forall tok_ok rest') by (unfold rest'; auto with shell).
  assert (H1 : Forall tok_ok (TS 41 :: rest')) by auto with shell.
  assert (H2 : Forall tok_ok (toks LLine c ++ TS 41 :: rest')) by auto with shell.
  wbind. apply wp_peek; [auto with shell|by apply in_symbols|]. cbn [starts].
  rewrite bool_decide_eq_true_2 by (by left).
  unfold parseblock. wbind. apply wp_peek; [auto with shell|by apply in_symbols|]. cbn [starts].
  rewrite bool_decide_eq_true_2 by (by left). cbn [negb].
  wbind. apply wp_gettoken_symbol; [by apply (tok_ok_sym _)|done|]. intros _. wbind.
  eapply wp_mono; [apply (Hc (TS 41 :: rest') fuel); [done| |lia]|].
  { exists 41. split; [done|by left]. }
  intros c' s [-> Hw]. wbind. apply wp_peek; [done|by apply in_symbols|]. cbn [starts].
  rewrite bool_decide_eq_true_2 by (by left). cbn [negb].
  wbind. apply wp_gettoken_symbol; [by apply (tok_ok_sym _)|done|]. intros _. wstep.
  eapply wp_mono; [apply wp_parseredirs; try done|].
  - by eapply follow_starts.
  - pose proof (length_enc _ Hrest') as Hl. pose proof (length_rtoks rs).
    pose proof (length_app (rs ≫= rtoks) rest) as Ha. fold rest' in Ha |- *. lia.
  - intros c2 s (-> & ss & -> & Hss). rewrite wrap_words, Hss, Hw. done.
Qed.

(** * The levels of the grammar *)

Lemma up_pipe c n : toks LPipe c = toks LExec c -> cmd_ok c ->
  reads LExec c n -> reads LPipe c (S n).
Proof.
  intros Heq Hok Hc rest fuel Hrest Hfo Hf. destruct fuel as [|fuel]; [lia|]. rewrite Heq.
  cbn [run parsepipe]. wbind. eapply wp_mono; [apply (Hc rest fuel); [done| |lia]|].
  { destruct rest as [|t rest]; [done|]. destruct Hfo as (x & -> & Hx). exists x.
    split; [done|]. by right. }
  intros c' s [-> Hw]. wbind. apply wp_peek; [done|by apply in_symbols|].
  rewrite (follow_starts LPipe) by done. by apply wp_ret.
Qed.

Fixpoint backs {A} (k : nat) (c : cmd A) : cmd A :=
  match k with O => c | S k => backs k (BACK c) end.

Lemma words_backs k (c : cmd span) : words (backs k c) = backs k (words c).
Proof. revert c. induction k as [|k IH]; intros c; [done|]. apply (IH (BACK c)). Qed.

Lemma wp_parsebacks k : forall rest fuel c, Forall tok_ok rest -> follow LBack rest ->
  (k <= fuel)%nat ->
  wp pure (parsebacks fuel c) (enc (replicate k (TS 38) ++ rest))
    (fun c' s => s = enc rest /\ c' = backs k c).
Proof.
  induction k as [|k IH]; intros rest fuel c Hrest Hfo Hf.
  - cbn [replicate app]. destruct fuel; cbn [parsebacks]; wbind;
      (apply wp_peek; [done|by apply in_symbols|]);
      rewrite (follow_starts LBack) by done; by apply wp_ret.
  - destruct fuel as [|fuel]; [lia|]. cbn [replicate app parsebacks].
    assert (Forall tok_ok (replicate k (TS 38) ++ rest)).
    { apply Forall_app_2; [|done]. apply Forall_replicate. by apply tok_ok_sym. }
    wbind. apply wp_peek; [constructor; [by apply tok_ok_sym|done]|by apply in_symbols|]. cbn [starts].
    rewrite bool_decide_eq_true_2 by (by left).
    wbind. apply wp_gettoken_symbol; [by apply (tok_ok_sym _)|done|]. intros _.
    apply IH; [done..|lia].
Qed.

(** A command of the level of [parseline] before its [;], with the [&] that follow. *)
Definition reads_back (c : cmd (list Z)) (n : nat) : Prop :=
  forall k rest fuel, Forall tok_ok rest -> follow LBack rest -> (n <= fuel)%nat ->
  wp pure (run LBack fuel) (enc (toks LBack c ++ replicate k (TS 38) ++ rest))
    (fun c' s => s = enc rest /\ words c' = backs k c).

Lemma up_back c n : toks LBack c = toks LPipe c -> reads LPipe c n -> reads_back c n.
Proof.
  intros Heq Hc k rest fuel Hrest Hfo Hf. rewrite Heq. cbn [run].
  assert (Hok : Forall tok_ok (replicate k (TS 38) ++ rest)).
  { apply Forall_app_2; [|done]. apply Forall_replicate. by apply tok_ok_sym. }
  wbind. eapply wp_mono; [apply (Hc (replicate k (TS 38) ++ rest) fuel); [done| |lia]|].
  { destruct k as [|k]; [|by exists 38; split; [|left]]. destruct rest as [|t rest]; [done|].
    destruct Hfo as (x & -> & Hx). exists x. split; [done|]. by right. }
  intros c' s [-> Hw]. wstep. eapply wp_mono; [apply wp_parsebacks; [done|done|]|].
  - pose proof (length_enc _ Hok) as Hl. rewrite length_app, length_replicate in Hl. lia.
  - intros c2 s [-> ->]. split; [done|]. by rewrite words_backs, Hw.
Qed.

Lemma reads_back_back c n : reads_back c n -> reads_back (BACK c) n.
Proof.
  intros Hc k rest fuel Hrest Hfo Hf. cbn [toks parens]. rewrite <- app_assoc.
  by apply (Hc (S k) rest fuel).
Qed.

Lemma reads_back_reads c n : reads_back c n -> reads LBack c n.
Proof. intros Hc rest fuel Hrest Hfo Hf. by apply (Hc 0%nat). Qed.

Lemma parseline_run fuel s : parseline (S fuel) s =
  (let* c := run LBack fuel in
   let* more := peek [59] in
   if (more : bool) then gettoken ;;; let* r := parseline fuel in ret (listcmd c r) else ret c) s.
Proof. cbn [parseline run]. rewrite bind_assoc. unfold bind. by repeat case_match. Qed.

Lemma wp_parseline fuel s Q :
  wp pure (let* c := run LBack fuel in
   let* more := peek [59] in
   if (more : bool) then gettoken ;;; let* r := parseline fuel in ret (listcmd c r) else ret c) s Q ->
  wp pure (run LLine (S fuel)) s Q.
Proof. unfold wp. cbn [run]. by rewrite parseline_run. Qed.

Lemma up_line c n : toks LLine c = toks LBack c -> cmd_ok c -> reads LBack c n -> reads LLine c (S n).
Proof.
  intros Heq Hok Hc rest fuel Hrest Hfo Hf. destruct fuel as [|fuel]; [lia|]. rewrite Heq.
  apply wp_parseline. wbind. eapply wp_mono; [apply (Hc rest fuel); [done| |lia]|].
  { destruct rest as [|t rest]; [done|]. destruct Hfo as (x & -> & Hx). exists x.
    split; [done|]. by right. }
  intros c' s [-> Hw]. wbind. apply wp_peek; [done|by apply in_symbols|].
  rewrite (follow_starts LLine) by done. by apply wp_ret.
Qed.

Lemma follow_sym lv c ts : bool_decide (c ∈ ends lv) = true -> follow lv (TS c :: ts).
Proof. rewrite bool_decide_eq_true. intros H. by exists c. Qed.

Lemma reads_mono lv c n n' : (n <= n')%nat -> reads lv c n -> reads lv c n'.
Proof. intros Hn H rest fuel ? ? ?. apply H; [done..|lia]. Qed.

Lemma reads_pipe l r n : cmd_ok l -> cmd_ok r -> reads LExec l n -> reads LPipe r n ->
  reads LPipe (PIPE l r) (S n).
Proof.
  intros Hl Hr Rl Rr rest fuel Hrest Hfo Hf. destruct fuel as [|fuel]; [lia|].
  cbn [toks parens]. rewrite <- app_assoc. cbn [app run parsepipe].
  wbind. eapply wp_mono; [apply (Rl (TS 124 :: toks LPipe r ++ rest) fuel);
    [auto 6 with shell|by apply follow_sym|lia]|].
  intros l' s [-> Hl']. wbind. apply wp_peek; [auto 6 with shell|by apply in_symbols|]. cbn [starts].
  rewrite bool_decide_eq_true_2 by (by left).
  wbind. apply wp_gettoken_symbol; [by apply (tok_ok_sym _)|auto with shell|]. intros _.
  wbind. eapply wp_mono; [apply (Rr rest fuel); [done|done|lia]|].
  intros r' s [-> Hr']. apply wp_ret. split; [done|]. cbn. by rewrite <- Hl', <- Hr'.
Qed.

Lemma reads_list l r n : cmd_ok l -> cmd_ok r -> reads LBack l n -> reads LLine r n ->
  reads LLine (LIST l r) (S n).
Proof.
  intros Hl Hr Rl Rr rest fuel Hrest Hfo Hf. destruct fuel as [|fuel]; [lia|].
  cbn [toks parens]. rewrite <- app_assoc. cbn [app]. apply wp_parseline.
  wbind. eapply wp_mono; [apply (Rl (TS 59 :: toks LLine r ++ rest) fuel);
    [auto 6 with shell|by apply follow_sym|lia]|].
  intros l' s [-> Hl']. wbind. apply wp_peek; [auto 6 with shell|by apply in_symbols|]. cbn [starts].
  rewrite bool_decide_eq_true_2 by (by left).
  wbind. apply wp_gettoken_symbol; [by apply (tok_ok_sym _)|auto with shell|]. intros _.
  wbind. eapply wp_mono; [apply (Rr rest fuel); [done|done|lia]|].
  intros r' s [-> Hr']. apply wp_ret. split; [done|]. cbn. by rewrite <- Hl', <- Hr'.
Qed.

Fixpoint nodes {A} (c : cmd A) : nat :=
  match c with
  | EXEC _ => 1
  | REDIR c _ _ _ | BACK c => S (nodes c)
  | PIPE l r | LIST l r => S (nodes l + nodes r)
  end.

(** Every level of the parser reads back a command printed for it. *)
Record readable (c : cmd (list Z)) : Prop := {
  rd_exec : reads_exec c (4 * nodes c);
  rd_pipe : reads LPipe c (4 * nodes c + 1);
  rd_back : reads_back c (4 * nodes c + 1);
  rd_line : reads LLine c (4 * nodes c + 2);
}.

Lemma reads_exec_mono c n n' : (n <= n')%nat -> reads_exec c n -> reads_exec c n'.
Proof. intros Hn H rs rest fuel ? ? ? ?. apply H; [done..|lia]. Qed.
Lemma reads_back_mono c n n' : (n <= n')%nat -> reads_back c n -> reads_back c n'.
Proof. intros Hn H k rest fuel ? ? ?. apply H; [done..|lia]. Qed.

(** The four levels of a command that one of them prints without parentheses. *)
Lemma readable_exec c : cmd_ok c -> (forall lv, toks lv c = toks LExec c) ->
  reads_exec c (4 * nodes c) -> readable c.
Proof.
  intros Hok Heq H. pose proof (up_pipe c _ (Heq LPipe) Hok (reads_exec_reads _ _ H)) as Hp.
  assert (Hb : reads_back c (S (4 * nodes c))) by (apply up_back; [by rewrite !Heq|done]).
  pose proof (up_line c _ ltac:(by rewrite !Heq) Hok (reads_back_reads _ _ Hb)) as Hl.
  split; [done|..].
  - by eapply reads_mono, Hp; lia.
  - by eapply reads_back_mono, Hb; lia.
  - by eapply reads_mono, Hl; lia.
Qed.

Lemma readable_pipe c n : (n + 2 <= 4 * nodes c)%nat -> cmd_ok c ->
  toks LExec c = parens true (toks LPipe c) ->
  toks LBack c = toks LPipe c -> toks LLine c = toks LPipe c ->
  reads LPipe c n -> readable c.
Proof.
  intros Hn Hok He Hb Hl H. assert (Hback : reads_back c n) by by apply up_back.
  assert (Hline : reads LLine c (S n)).
  { apply up_line; [congruence|done|by apply reads_back_reads]. }
  split.
  - eapply reads_exec_mono, reads_parens; [|by rewrite Hl|done|exact Hline]. lia.
  - by eapply reads_mono, H; lia.
  - by eapply reads_back_mono, Hback; lia.
  - by eapply reads_mono, Hline; lia.
Qed.

Lemma readable_back c n : (n + 2 <= 4 * nodes c)%nat -> cmd_ok c ->
  toks LExec c = parens true (toks LBack c) -> toks LPipe c = toks LExec c ->
  toks LLine c = toks LBack c -> reads_back c n -> readable c.
Proof.
  intros Hn Hok He Hp Hl H.
  assert (Hline : reads LLine c (S n)) by (apply up_line; [done|done|by apply reads_back_reads]).
  assert (Hexec : reads_exec c (S (S n))) by (apply reads_parens; [congruence|done|exact Hline]).
  split.
  - by eapply reads_exec_mono, Hexec; lia.
  - eapply reads_mono, up_pipe; [|done|done|apply reads_exec_reads, Hexec]. lia.
  - by eapply reads_back_mono, H; lia.
  - by eapply reads_mono, Hline; lia.
Qed.

Lemma readable_line c n : (n + 2 <= 4 * nodes c)%nat -> cmd_ok c ->
  toks LExec c = parens true (toks LLine c) -> toks LPipe c = toks LExec c ->
  toks LBack c = toks LPipe c -> reads LLine c n -> readable c.
Proof.
  intros Hn Hok He Hp Hb H.
  assert (Hexec : reads_exec c (S n)) by (apply reads_parens; [congruence|done|exact H]).
  assert (Hpipe : reads LPipe c (S (S n))) by (apply up_pipe; [done|done|by apply reads_exec_reads]).
  split.
  - by eapply reads_exec_mono, Hexec; lia.
  - by eapply reads_mono, Hpipe; lia.
  - eapply reads_back_mono, up_back; [|done|exact Hpipe]. lia.
  - by eapply reads_mono, H; lia.
Qed.

Lemma cmd_readable c : cmd_ok c -> readable c.
Proof.
  induction c as [argv|c IH f m d|l IHl r IHr|l IHl r IHr|c IH]; intros Hok; pose proof Hok as Hok';
    cbn [cmd_ok] in Hok; try destruct Hok as [Hok1 Hok2].
  - apply readable_exec; [done|done|]. eapply reads_exec_mono, reads_exec_words; [cbn; lia|done..].
  - apply readable_exec; [done|done|]. apply reads_exec_redir; [done|].
    eapply reads_exec_mono, (rd_exec _ (IH Hok1)). cbn [nodes]. lia.
  - specialize (IHl Hok1). specialize (IHr Hok2).
    apply (readable_pipe _ (4 * (nodes l + nodes r))); [cbn [nodes]; lia|done..|].
    assert (1 <= nodes l /\ 1 <= nodes r)%nat as [? ?] by (split; [destruct l|destruct r]; cbn; lia).
    eapply reads_mono, (reads_pipe l r (4 * (nodes l + nodes r) - 1)); [lia|done|done|..].
    + eapply reads_mono, reads_exec_reads, rd_exec, IHl. lia.
    + eapply reads_mono, rd_pipe, IHr. lia.
  - specialize (IHl Hok1). specialize (IHr Hok2).
    apply (readable_line _ (4 * (nodes l + nodes r))); [cbn [nodes]; lia|done..|].
    assert (1 <= nodes l /\ 1 <= nodes r)%nat as [? ?] by (split; [destruct l|destruct r]; cbn; lia).
    eapply reads_mono, (reads_list l r (4 * (nodes l + nodes r) - 1)); [lia|done|done|..].
    + eapply reads_mono, reads_back_reads, rd_back, IHl. lia.
    + eapply reads_mono, rd_line, IHr. lia.
  - specialize (IH Hok). apply (readable_back _ (4 * nodes c + 1)); [|done..|].
    2:{ by apply reads_back_back, rd_back. } cbn [nodes]. lia.
Qed.
