(* ===== verification/ShThm.v ===== *)
(** [sh.c]: the parser terminates on every line, fails only with its own messages,
    [nulterminate] turns the words it counted into C strings, and a printed command is
    read back. *)

From S2P Require Import Prelude CString Sh ShSpec.

(** * Words of a line *)

Definition separator (c : Z) : Prop := c ∈ whitespace \/ c ∈ symbols.

(** A counted word of the line [s]: it is not empty, it holds no separator, and a
    separator or the end of the line follows. *)
Definition span_ok (s : list Z) (a : span) : Prop :=
  sp_q a `suffix_of` s /\
  exists w, sp_q a = w ++ sp_eq a /\ w <> [] /\ Forall (fun c => ~ separator c) w /\
    match sp_eq a with [] => True | c :: _ => separator c end.

Fixpoint cmd_all {A} (P : A -> Prop) (c : cmd A) : Prop :=
  match c with
  | EXEC argv => Forall P argv
  | REDIR c f _ _ => cmd_all P c /\ P f
  | PIPE l r | LIST l r => cmd_all P l /\ cmd_all P r
  | BACK c => cmd_all P c
  end.

Lemma store_argv_all P c argv : cmd_all P c -> Forall P argv -> cmd_all P (store_argv c argv).
Proof. induction c; cbn; naive_solver. Qed.

Lemma skip_ws_suffix s : skip_ws s `suffix_of` s.
Proof. induction s as [|c s IH]; cbn; [done|]. destruct (strchr_in _ c); [by apply suffix_cons_r|done]. Qed.

Lemma skip_ws_idem s : skip_ws (skip_ws s) = skip_ws s.
Proof.
  induction s as [|c s IH]; cbn; [done|]. destruct (strchr_in whitespace c) eqn:E; [done|].
  cbn. by rewrite E.
Qed.

Lemma skip_word_split s : exists w, s = w ++ skip_word s /\
  Forall (fun c => ~ separator c) w /\
  match skip_word s with [] => True | c :: _ => separator c end.
Proof.
  induction s as [|c s (w & Hs & Hw & He)]; [by exists []|]. cbn [skip_word].
  destruct (strchr_in whitespace c) eqn:E1; cbn [negb andb].
  { exists []. split_and!; [done|done|]. left. by apply strchr_in_true. }
  destruct (strchr_in symbols c) eqn:E2; cbn [negb andb].
  { exists []. split_and!; [done|done|]. right. by apply strchr_in_true. }
  exists (c :: w). split_and!; [cbn; by rewrite <- Hs| |done]. constructor; [|done].
  apply strchr_in_false in E1, E2. by intros [?|?].
Qed.

Lemma suffix_length (l k : list Z) : l `suffix_of` k -> (length l <= length k)%nat.
Proof. intros [x ->]. rewrite length_app. lia. Qed.

(** * What a token consumes *)

Lemma gettoken_spec ps : exists t a s',
  gettoken ps = Ret ((t, a), s') /\ s' `suffix_of` ps /\
  (t <> 0 -> (length s' < length ps)%nat) /\ (skip_ws ps <> [] -> (length s' < length ps)%nat) /\
  (t = 97 -> forall s, ps `suffix_of` s -> span_ok s a).
Proof.
  unfold gettoken. pose proof (skip_ws_suffix ps) as Hq. pose proof (suffix_length _ _ Hq) as Hl.
  pose proof (skip_ws_idem ps) as Hid.
  destruct (skip_ws ps) as [|c r] eqn:E.
  { eexists _, _, _. split_and!; done. }
  assert (Hr : forall x, x `suffix_of` r -> skip_ws x `suffix_of` ps /\ (length (skip_ws x) < length ps)%nat).
  { intros x Hx. pose proof (skip_ws_suffix x) as H1. pose proof (suffix_length _ _ H1).
    pose proof (suffix_length _ _ Hx). cbn [length] in Hl. split; [|lia].
    etrans; [exact H1|]. etrans; [exact Hx|]. etrans; [|exact Hq]. by apply suffix_cons_r. }
  destruct (strchr_in [124; 40; 41; 59; 38; 60] c) eqn:E1.
  { apply strchr_in_true in E1. destruct (Hr r ltac:(done)). eexists _, _, _. split_and!; try done.
    intros ->. rewrite !elem_of_cons, elem_of_nil in E1. intuition lia. }
  destruct (c =? 62) eqn:E2.
  { apply Z.eqb_eq in E2 as ->.
    assert (exists t x, (match r with 62 :: r' => (43, r') | _ => (62, r) end) = (t, x) /\
      x `suffix_of` r /\ (t = 62 \/ t = 43)) as (t & x & -> & Hx & Ht).
    { repeat case_match; subst; eexists _, _; (split_and!; [done| |auto]); try done.
      by apply suffix_cons_r. }
    destruct (Hr x Hx). eexists _, _, _. split_and!; try done. lia. }
  destruct (skip_word_split (c :: r)) as (w & Hw & Hall & Hend).
  destruct w as [|c' w].
  { exfalso. cbn [app] in Hw. rewrite <- Hw in Hend. apply strchr_in_false in E1. apply Z.eqb_neq in E2.
    destruct Hend as [Hws|Hs].
    - cbn in Hid. by rewrite (proj2 (strchr_in_true _ _) Hws) in Hid;
        apply (f_equal length) in Hid; pose proof (suffix_length _ _ (skip_ws_suffix r)); cbn in Hid; lia.
    - unfold symbols in Hs. rewrite !elem_of_cons in *. tauto. }
  assert (c' = c) as -> by (cbn [app] in Hw; congruence).
  assert (Hx : skip_word (c :: r) `suffix_of` r) by (exists w; cbn [app] in Hw; congruence).
  destruct (Hr _ Hx). eexists _, _, _. split_and!; try done.
  intros _ s Hs. split; cbn [sp_q sp_eq].
  - by etrans.
  - by exists (c :: w).
Qed.

Lemma wp_gettoken may ps (Q : Z * span -> list Z -> Prop) :
  (forall t a s', s' `suffix_of` ps -> (t <> 0 -> (length s' < length ps)%nat) ->
     (skip_ws ps <> [] -> (length s' < length ps)%nat) ->
     (t = 97 -> forall s, ps `suffix_of` s -> span_ok s a) -> Q (t, a) s') ->
  wp may gettoken ps Q.
Proof.
  intros HQ. destruct (gettoken_spec ps) as (t & a & s' & Hg & H1 & H2 & H3 & H4).
  unfold wp. rewrite Hg. by apply HQ.
Qed.

Lemma wp_peek_any may l ps (Q : bool -> list Z -> Prop) :
  (forall b s', s' `suffix_of` ps -> (b = true -> skip_ws s' <> []) ->
     peek l s' = Ret (b, s') -> Q b s') ->
  wp may (peek l) ps Q.
Proof.
  intros HQ. unfold wp, peek. pose proof (skip_ws_idem ps) as Hi.
  apply HQ; [apply skip_ws_suffix|by rewrite Hi; destruct (skip_ws ps)|].
  unfold peek. by rewrite Hi.
Qed.

(** * Every line is parsed or refused *)

(** The messages of the parser. *)
Definition messages : list string :=
  ["syntax"; "too many args"; "missing file for redirection"; "syntax - missing )"].
Definition refuses (o : option string) : Prop :=
  match o with Some e => e ∈ messages | None => False end.

Lemma wp_refuse {S A} (e : string) (s : S) (Q : A -> S -> Prop) :
  e ∈ messages -> wp refuses (panic e) s Q.
Proof. done. Qed.

Section total.
Context (s : list Z).

(** A parser that consumes part of the line and counts words of it. *)
Definition consumes (m : M (list Z) (cmd span)) (ps : list Z) : Prop :=
  wp refuses m ps (fun c ps' => ps' `suffix_of` ps /\ cmd_all (span_ok s) c).

Lemma consumes_suffix m ps ps' : ps' `suffix_of` ps -> consumes m ps' ->
  wp refuses m ps' (fun c ps'' => ps'' `suffix_of` ps /\ cmd_all (span_ok s) c).
Proof. intros H Hm. eapply wp_mono; [exact Hm|]. intros c x [? ?]. split; [by etrans|done]. Qed.

Lemma parseredirs_total fuel : forall c ps, ps `suffix_of` s -> (length ps <= fuel)%nat ->
  cmd_all (span_ok s) c -> consumes (parseredirs fuel c) ps.
Proof.
  induction fuel as [|fuel IH]; intros c ps Hps Hf Hc; unfold consumes; cbn [parseredirs]; wbind;
    apply wp_peek_any; intros more p1 H1 Hne _; (destruct more; [|by apply wp_ret]).
  - apply suffix_length in H1. destruct p1; [by destruct (Hne eq_refl)|cbn in H1; lia].
  - wbind. apply wp_gettoken. intros t a p2 H2 _ Hlt _. specialize (Hlt (Hne eq_refl)).
    wbind. apply wp_gettoken. intros t' b p3 H3 _ _ Hb. cbn [fst snd].
    destruct (t' =? 97) eqn:E; cbn [negb]; [|apply wp_refuse; set_solver].
    apply Z.eqb_eq in E. specialize (Hb E s).
    assert (H4 : p3 `suffix_of` ps) by (do 2 (etrans; [eassumption|]); done).
    assert (Hb' : span_ok s b) by (apply Hb; do 2 (etrans; [eassumption|]); done).
    pose proof (suffix_length _ _ H1). pose proof (suffix_length _ _ H3).
    destruct (t =? 60); [|destruct ((t =? 62) || (t =? 43))];
      (eapply consumes_suffix; [exact H4|]; apply IH; [by etrans|lia|]); done.
Qed.

Lemma parseargs_total fuel : forall r argv ps, ps `suffix_of` s -> (length ps < fuel)%nat ->
  cmd_all (span_ok s) r -> Forall (span_ok s) argv -> consumes (parseargs fuel r argv) ps.
Proof.
  induction fuel as [|fuel IH]; intros r argv ps Hps Hf Hr Hargv; [lia|]. unfold consumes.
  cbn [parseargs]. wbind. apply wp_peek_any. intros stop p1 H1 _ _.
  destruct stop; [apply wp_ret; split; [done|by apply store_argv_all]|].
  wbind. apply wp_gettoken. intros t a p2 H2 Ht0 Hlt Ha. cbn [fst snd].
  destruct (t =? 0) eqn:E0.
  { apply wp_ret. split; [by etrans|by apply store_argv_all]. }
  destruct (t =? 97) eqn:E; cbn [negb]; [|apply wp_refuse; set_solver].
  apply Z.eqb_eq in E as ->. specialize (Ha eq_refl s ltac:(by etrans)).
  destruct (MAXARGS <=? _)%nat; [apply wp_refuse; set_solver|].
  specialize (Ht0 ltac:(lia)). pose proof (suffix_length _ _ H1).
  assert (H3 : p2 `suffix_of` ps) by by etrans.
  wstep. wbind. eapply wp_mono; [apply (parseredirs_total (length p2) r p2); [by etrans|lia|done]|].
  intros r' p3 [H4 Hr']. pose proof (suffix_length _ _ H4).
  eapply consumes_suffix; [by etrans|]. apply IH; [|lia|done|].
  - do 2 (etrans; [eassumption|]). done.
  - apply Forall_app_2; [done|]. by constructor.
Qed.

Lemma parsebacks_total fuel : forall c ps, (length ps <= fuel)%nat ->
  cmd_all (span_ok s) c -> consumes (parsebacks fuel c) ps.
Proof.
  induction fuel as [|fuel IH]; intros c ps Hf Hc; unfold consumes; cbn [parsebacks]; wbind;
    apply wp_peek_any; intros more p1 H1 Hne _; (destruct more; [|by apply wp_ret]).
  - apply suffix_length in H1. destruct p1; [by destruct (Hne eq_refl)|cbn in H1; lia].
  - wbind. apply wp_gettoken. intros t a p2 H2 _ Hlt _. specialize (Hlt (Hne eq_refl)).
    pose proof (suffix_length _ _ H1). eapply consumes_suffix; [by etrans|]. apply IH; [lia|done].
Qed.

(** A block: an opening parenthesis has been seen. *)
Lemma parseblock_total line ps : ps `suffix_of` s -> skip_ws ps <> [] -> peek [40] ps = Ret (true, ps) ->
  (forall p, p `suffix_of` s -> (length p < length ps)%nat -> consumes line p) ->
  consumes (parseblock line) ps.
Proof.
  intros Hps Hne Hopen Hline. unfold consumes, parseblock. wbind. eapply wp_run; [exact Hopen|].
  cbn [negb]. wbind. apply wp_gettoken. intros t a p2 H2 _ Hlt _. specialize (Hlt Hne).
  wbind. eapply wp_mono; [apply (Hline p2); [by etrans|lia]|]. intros c p3 [H4 Hc].
  wbind. apply wp_peek_any. intros o p4 H5 _ _.
  destruct o; cbn [negb]; [|apply wp_refuse; set_solver].
  wbind. apply wp_gettoken. intros t' a' p5 H6 _ _ _. wstep.
  assert (H7 : p5 `suffix_of` ps) by (do 3 (etrans; [eassumption|]); done).
  eapply consumes_suffix; [exact H7|]. apply parseredirs_total; [by etrans|done|done].
Qed.

Lemma parse_total fuel :
  (forall ps, ps `suffix_of` s -> (3 * length ps + 3 <= fuel)%nat -> consumes (parseline fuel) ps) /\
  (forall ps, ps `suffix_of` s -> (3 * length ps + 2 <= fuel)%nat -> consumes (parsepipe fuel) ps) /\
  (forall ps, ps `suffix_of` s -> (3 * length ps + 1 <= fuel)%nat -> consumes (parseexec fuel) ps).
Proof.
  induction fuel as [|fuel (IHl & IHp & IHe)]; [split_and!; intros; lia|].
  split_and!; intros ps Hps Hf; unfold consumes; cbn [parseline parsepipe parseexec].
  - wbind. eapply wp_mono; [apply IHp; [done|lia]|]. intros c p1 [H1 Hc]. wstep.
    wbind. eapply wp_mono; [by apply parsebacks_total|]. intros c2 p2 [H2 Hc2].
    wbind. apply wp_peek_any. intros more p3 H3 Hne _.
    assert (H4 : p3 `suffix_of` ps) by (do 2 (etrans; [eassumption|]); done).
    destruct more; [|by apply wp_ret].
    wbind. apply wp_gettoken. intros t a p4 H5 _ Hlt _. specialize (Hlt (Hne eq_refl)).
    pose proof (suffix_length _ _ H4). assert (p4 `suffix_of` ps) by by etrans.
    wbind. eapply wp_mono; [apply IHl; [by etrans|lia]|]. intros r p5 [H6 Hr].
    apply wp_ret. split; [by etrans|done].
  - wbind. eapply wp_mono; [apply IHe; [done|lia]|]. intros c p1 [H1 Hc].
    wbind. apply wp_peek_any. intros more p3 H3 Hne _.
    assert (H4 : p3 `suffix_of` ps) by by etrans.
    destruct more; [|by apply wp_ret].
    wbind. apply wp_gettoken. intros t a p4 H5 _ Hlt _. specialize (Hlt (Hne eq_refl)).
    pose proof (suffix_length _ _ H4). assert (p4 `suffix_of` ps) by by etrans.
    wbind. eapply wp_mono; [apply IHp; [by etrans|lia]|]. intros r p5 [H6 Hr].
    apply wp_ret. split; [by etrans|done].
  - wbind. apply wp_peek_any. intros block p1 H1 Hne Hpk. pose proof (suffix_length _ _ H1).
    destruct block.
    { eapply consumes_suffix; [exact H1|]. apply parseblock_total; [by etrans|by apply Hne|done|].
      intros p Hp Hlt. apply IHl; [done|lia]. }
    wstep. wbind. eapply wp_mono; [apply parseredirs_total; [by etrans|done|by cbn]|].
    intros r p2 [H2 Hr]. wstep. eapply consumes_suffix; [by etrans|].
    apply parseargs_total; [|lia|done|done]. do 2 (etrans; [eassumption|]). done.
Qed.

(** [parsecmd] returns a command over words of the line, or fails with a message. *)
Lemma parsecmd_spec :
  match parsecmd s with
  | Ret c => cmd_all (span_ok s) c
  | Panic e => e ∈ messages
  | _ => False
  end.
Proof.
  unfold parsecmd. destruct (parse_total (4 * length s + 8)) as (H & _ & _).
  specialize (H s ltac:(done) ltac:(lia)). unfold consumes, wp in H.
  destruct (parseline _ s) as [[c s']| | | |]; [|done..]. destruct (skip_ws s'); [apply H|].
  unfold messages. set_solver.
Qed.
End total.

(** * [nulterminate] *)

Fixpoint cmd_spans {A} (c : cmd A) : list A :=
  match c with
  | EXEC argv => argv
  | REDIR c f _ _ => cmd_spans c ++ [f]
  | PIPE l r | LIST l r => cmd_spans l ++ cmd_spans r
  | BACK c => cmd_spans c
  end.

Lemma cmd_all_spans {A} (P : A -> Prop) c : cmd_all P c <-> Forall P (cmd_spans c).
Proof.
  induction c; cbn; rewrite ?Forall_app, ?Forall_singleton; tauto.
Qed.

Lemma cmd_map_ext {A B} (f g : A -> B) c : cmd_all (fun a => f a = g a) c -> cmd_map f c = cmd_map g c.
Proof.
  induction c as [argv|c IH f' m d|l IHl r IHr|l IHl r IHr|c IH]; cbn; intros H.
  { f_equal. apply list_fmap_ext. intros i a Ha. rewrite Forall_lookup in H. by eapply H. }
  all: try destruct H; f_equal; auto.
Qed.

Definition put_nuls (buf : list Z) (l : list span) : list Z :=
  foldl (fun buf a => put_nul buf (sp_eq a)) buf l.

Lemma nulterminate_spans c : forall buf, nulterminate buf c = put_nuls buf (cmd_spans c).
Proof.
  unfold put_nuls. induction c as [argv|c IH f m d|l IHl r IHr|l IHl r IHr|c IH]; intros buf;
    cbn [nulterminate cmd_spans]; rewrite ?foldl_app, ?IH, ?IHl, ?IHr; done.
Qed.

Lemma put_nuls_lookup l : forall buf, length (put_nuls buf l) = length buf /\
  forall i, put_nuls buf l !! i =
    if decide (Exists (fun a => i = (length buf - 1 - length (sp_eq a))%nat /\ (i < length buf)%nat) l)
    then Some 0 else buf !! i.
Proof.
  induction l as [|a l IH]; intros buf.
  - split; [done|]. intros i. rewrite decide_False; [done|]. intros H. by apply Exists_nil in H.
  - cbn [put_nuls foldl]. destruct (IH (put_nul buf (sp_eq a))) as [Hl Hi].
    assert (Hlen : length (put_nul buf (sp_eq a)) = length buf) by apply length_insert.
    split; [by rewrite <- Hlen|]. intros i. fold (put_nuls (put_nul buf (sp_eq a)) l).
    rewrite Hi, Hlen. case_decide as D1; case_decide as D2; rewrite Exists_cons in D2; try tauto.
    + destruct D2 as [[-> Hlt]|?]; [|done]. unfold put_nul. by apply list_lookup_insert_eq.
    + unfold put_nul. destruct (decide (i < length buf)%nat).
      * apply list_lookup_insert_ne. intros <-. tauto.
      * rewrite !lookup_ge_None_2; [done|lia|rewrite length_insert; lia].
Qed.

Lemma strlen_word w r : (0 ∉ w) -> Kernel.strlen (w ++ 0 :: r) = Some (Z.of_nat (length w)).
Proof.
  induction w as [|c w IH]; intros Hw; [done|]. cbn [app Kernel.strlen length].
  rewrite not_elem_of_cons in Hw. destruct Hw as [Hc Hw]. rewrite (proj2 (Z.eqb_neq _ _)) by done.
  rewrite IH by done. cbn. f_equal. lia.
Qed.

(** The words of [l] are C strings after [nulterminate]. *)
Lemma put_nuls_string s l a : (0 ∉ s) -> Forall (span_ok s) l -> a ∈ l ->
  string_at (put_nuls (s ++ [0]) l) a = Some (span_word a).
Proof.
  intros Hs Hall Ha. pose proof (proj1 (Forall_forall _ _) Hall a Ha) as ([pre Hpre] & w & Hq & Hne & Hw & He).
  destruct (put_nuls_lookup l (s ++ [0])) as [Hlen Hlook].
  assert (Hls : length (s ++ [0]) = S (length s)) by (rewrite length_app; cbn; lia).
  rewrite Hls in Hlen, Hlook. set (buf := put_nuls (s ++ [0]) l) in *.
  assert (Hsl : length s = (length pre + (length w + length (sp_eq a)))%nat)
    by (rewrite Hpre, Hq, !length_app; lia).
  (* the bytes of the word stay *)
  assert (Hkeep : take (length w) (drop (length pre) buf) = w).
  { apply list_eq. intros i. destruct (decide (i < length w)%nat) as [Hi|Hi].
    2:{ rewrite lookup_take_ge, lookup_ge_None_2 by lia. done. }
    rewrite lookup_take_lt, lookup_drop, Hlook by done.
    assert (Hc : (s ++ [0]) !! (length pre + i)%nat = w !! i).
    { rewrite Hpre, Hq, <- !app_assoc, lookup_app_r by lia.
      rewrite lookup_app_l by lia. f_equal. lia. }
    rewrite decide_False; [done|]. rewrite Exists_exists. intros (b & Hb & Heq & _).
    pose proof (proj1 (Forall_forall _ _) Hall b Hb) as ([pre' Hpre'] & w' & Hq' & _ & _ & He').
    assert (length s = (length pre' + (length w' + length (sp_eq b)))%nat)
      by (rewrite Hpre', Hq', !length_app; lia).
    destruct (lookup_lt_is_Some_2 w i Hi) as [x Hx].
    assert (Hsep : ~ separator x) by (rewrite Forall_lookup in Hw; by eapply Hw).
    rewrite Hx, Hpre', Hq', <- !app_assoc, lookup_app_r, lookup_app_r in Hc by lia.
    replace (length pre + i - length pre' - length w')%nat with 0%nat in Hc by lia.
    destruct (sp_eq b) as [|y yy] eqn:Eb; [cbn in *; lia|]. cbn in Hc. by simplify_eq. }
  assert (Hnul : buf !! (length pre + length w)%nat = Some 0).
  { rewrite Hlook, decide_True; [done|]. rewrite Exists_exists. exists a. split; [done|]. lia. }
  assert (Hp : drop (length pre) buf = w ++ 0 :: drop (S (length pre + length w)) buf).
  { rewrite <- (take_drop (length w) (drop (length pre) buf)), Hkeep, drop_drop. f_equal.
    by apply drop_S. }
  unfold string_at. rewrite Hlen.
  replace (S (length s) - 1 - length (sp_q a))%nat with (length pre) by (rewrite Hq, length_app; lia).
  rewrite Hp, strlen_word. 2:{ intros H0. apply Hs. rewrite Hpre, Hq. set_solver. }
  cbn. f_equal. rewrite Nat2Z.id, take_app_length. unfold span_word. rewrite Hq, length_app.
  by rewrite Nat.add_sub, take_app_length.
Qed.

Lemma nulterminate_strings s c : (0 ∉ s) -> cmd_all (span_ok s) c ->
  cmd_map (string_at (nulterminate (s ++ [0]) c)) c = cmd_map (fun a => Some (span_word a)) c.
Proof.
  intros Hs Hc. rewrite nulterminate_spans. apply cmd_map_ext, cmd_all_spans, Forall_forall.
  intros a Ha. apply put_nuls_string; [done|by apply cmd_all_spans|done].
Qed.

(** * The properties *)

(** For every line the parser terminates, with the fuel of the model: it returns a
    command, or stops with one of its four messages ([parseblock]'s own check cannot
    fail). The words of the command are not empty, hold no blank or symbol, and end at a
    blank, a symbol or the end of the line. *)
Theorem parsecmd_total (s : list Z) :
  match parsecmd s with
  | Ret c => cmd_all (span_ok s) c
  | Panic e =>
      e ∈ ["syntax"; "too many args"; "missing file for redirection"; "syntax - missing )"]
  | _ => False
  end.
Proof. apply parsecmd_spec. Qed.

(** [nulterminate] makes a C string of every word the parser counted: read from its
    start in the terminated line, up to the first NUL, it is the word, although all words
    share the one line buffer. *)
Theorem nulterminate_spec (s : list Z) (c : cmd span) :
  (0 ∉ s) -> parsecmd s = Ret c ->
  cmd_map (string_at (nulterminate (s ++ [0]) c)) c = cmd_map (fun a => Some (span_word a)) c.
Proof.
  intros Hs Hc. pose proof (parsecmd_spec s) as H. rewrite Hc in H. by apply nulterminate_strings.
Qed.

(** [ls>f;(wc&)] *)
Definition demo_line : list Z := [108; 115; 62; 102; 59; 40; 119; 99; 38; 41].

Lemma nulterminate_spec_witness :
  exists c, parsecmd demo_line = Ret c /\
  cmd_map (string_at (nulterminate (demo_line ++ [0]) c)) c = cmd_map (fun a => Some (span_word a)) c.
Proof.
  eexists. split; [vm_compute; reflexivity|].
  apply (nulterminate_spec demo_line).
  - unfold demo_line. rewrite !not_elem_of_cons. split_and!; try lia. apply not_elem_of_nil.
  - vm_compute. reflexivity.
Defined.

Lemma nodes_toks c : forall lv, (nodes c <= 2 * length (toks lv c) + 1)%nat.
Proof.
  assert (Hp : forall p b, (length b <= length (parens p b))%nat).
  { intros [|] b; [|done]. cbn. rewrite length_app. lia. }
  induction c as [argv|c IH f m d|l IHl r IHr|l IHl r IHr|c IH]; intros lv; cbn [nodes toks];
    rewrite ?length_app; cbn [rtoks length].
  - lia.
  - specialize (IH LExec). lia.
  - specialize (IHl LExec). specialize (IHr LPipe). etrans; [|apply Nat.add_le_mono_r, Nat.mul_le_mono_l, Hp].
    rewrite length_app. cbn [length]. lia.
  - specialize (IHl LBack). specialize (IHr LLine). etrans; [|apply Nat.add_le_mono_r, Nat.mul_le_mono_l, Hp].
    rewrite length_app. cbn [length]. lia.
  - specialize (IH LBack). etrans; [|apply Nat.add_le_mono_r, Nat.mul_le_mono_l, Hp].
    rewrite length_app. cbn [length]. lia.
Qed.

Lemma parsecmd_print c : cmd_ok c -> exists c', parsecmd (print_cmd c) = Ret c' /\ words c' = c.
Proof.
  intros Hok. pose proof (rd_line _ (cmd_readable c Hok)) as H.
  specialize (H [] (4 * length (print_cmd c) + 8)%nat ltac:(constructor) I). rewrite app_nil_r in H.
  fold (print_cmd c) in H. unfold parsecmd.
  assert (Hf : (4 * nodes c + 2 <= 4 * length (print_cmd c) + 8)%nat).
  { pose proof (nodes_toks c LLine). pose proof (length_enc _ (toks_ok c Hok LLine)).
    unfold print_cmd. lia. }
  specialize (H Hf). unfold wp, run in H.
  destruct (parseline _ _) as [[c' s']| | | |]; try done. destruct H as [-> Hw]. by exists c'.
Qed.

Lemma no_nul_print c : cmd_ok c -> 0 ∉ print_cmd c.
Proof.
  intros Hok. unfold print_cmd. pose proof (toks_ok c Hok LLine) as H.
  induction H as [|t ts Ht _ IH]; [apply not_elem_of_nil|]. rewrite enc_cons, not_elem_of_app.
  split; [|done]. destruct t as [w|x]; cbn [enc1].
  - destruct Ht as [_ Hw]. intros H0. apply elem_of_app in H0 as [H0|H0].
    + by destruct (Hw 0 H0) as (_ & _ & ?).
    + by apply list_elem_of_singleton in H0.
  - cbn in Ht. unfold symbols in Ht. rewrite !elem_of_cons, elem_of_nil in *. intuition lia.
Qed.

Lemma cmd_map_map {A B C} (f : A -> B) (g : B -> C) c : cmd_map g (cmd_map f c) = cmd_map (fun a => g (f a)) c.
Proof.
  induction c; cbn; f_equal; auto. by rewrite <- list_fmap_compose.
Qed.

(** C35. The grammar is read the way it is written: every command built from words,
    redirections, pipes, lists and [&], printed with parentheses where the precedence
    needs them, is read back by [parsecmd] as the same command, and after [nulterminate]
    the strings it points to are its words. *)
Theorem parse_print_roundtrip (c : cmd (list Z)) :
  cmd_ok c -> exists c', parsecmd (print_cmd c) = Ret c' /\
    cmd_map (string_at (nulterminate (print_cmd c ++ [0]) c')) c' = cmd_map Some c.
Proof.
  intros Hok. destruct (parsecmd_print c Hok) as (c' & Hp & Hw). exists c'. split; [done|].
  pose proof (parsecmd_spec (print_cmd c)) as Hs. rewrite Hp in Hs.
  rewrite nulterminate_strings by (done || by apply no_nul_print).
  rewrite <- Hw. unfold words. by rewrite cmd_map_map.
Qed.

(** [(ls -l | wc) < f ; echo > g &] *)
Definition demo_cmd : cmd (list Z) :=
  LIST (REDIR (PIPE (EXEC [[108; 115]; [45; 108]]) (EXEC [[119; 99]])) [102] O_RDONLY 0)
       (BACK (REDIR (EXEC [[101; 99; 104; 111]]) [103] (Z.lor O_WRONLY O_CREATE) 1)).

Definition word_b (w : list Z) : bool :=
  negb (bool_decide (w = [])) &&
  forallb (fun c => negb (strchr_in whitespace c) && negb (strchr_in symbols c) && negb (c =? 0)) w.

Lemma word_b_word w : word_b w = true -> word w.
Proof.
  unfold word_b. intros H. apply andb_true_iff in H as [H1 H2].
  split; [by apply negb_true_iff, bool_decide_eq_false in H1|].
  intros c Hc. rewrite forallb_forall in H2. apply list_elem_of_In, H2 in Hc.
  rewrite !andb_true_iff, !negb_true_iff, !strchr_in_false, Z.eqb_neq in Hc. tauto.
Qed.

Lemma parse_print_roundtrip_witness :
  exists c', parsecmd (print_cmd demo_cmd) = Ret c' /\
    cmd_map (string_at (nulterminate (print_cmd demo_cmd ++ [0]) c')) c' = cmd_map Some demo_cmd.
Proof.
  apply (parse_print_roundtrip demo_cmd). cbn.
  repeat match goal with
  | |- _ /\ _ => split
  | |- Forall word _ => constructor
  | |- word _ => by apply word_b_word
  | |- redir_ok _ _ _ => split
  | |- (_ < _)%nat => unfold MAXARGS; lia
  end; [left|right]; done.
Defined.
