(* ===== verification/ShRun.v ===== *)
(** [sh.c]: the line editor with its history, the built-in [cd], and [runcmd].

    [getcmd] reads from a list of bytes, one per [read(0, &c, 1)]; the end of the list
    is the end of the input. What the shell prints is not part of the state. [runcmd]
    returns the system calls each process makes, as a tree that branches at [fork]; the
    descriptor table is explicit, so that the tree shows which file every program finds
    behind each descriptor. *)

From S2P Require Import Prelude CString Sh.

(** * The line editor *)

Definition HISTORY_SIZE : nat := 10.
Definition CMD_BUF_SIZE : nat := 100.

(** [buf], [i] of [getcmd] and the globals [history], [history_count], [history_index]. *)
Record ed := Ed {
  buf : list Z;
  i : nat;
  history : list (list Z);
  history_count : nat;
  history_index : Z;
}.

Definition ed0 : ed :=
  Ed (replicate CMD_BUF_SIZE 0) 0 (replicate HISTORY_SIZE (replicate CMD_BUF_SIZE 0)) 0 (-1).

Definition set_buf (b : list Z) (n : nat) (s : ed) : ed :=
  Ed b n (history s) (history_count s) (history_index s).
Definition set_history (h : list (list Z)) (n : nat) (s : ed) : ed :=
  Ed (buf s) (i s) h n (history_index s).
Definition set_index (x : Z) (s : ed) : ed :=
  Ed (buf s) (i s) (history s) (history_count s) x.

(** A partial operation: outside the arrays it is a fault. *)
Definition try {S A} (o : option A) : M S A :=
  match o with Some a => ret a | None => fault end.

(** [buf[n] = c] *)
Definition put_buf (n : nat) (c : Z) : M ed unit :=
  let* b := gets buf in
  if (n <? length b)%nat then modify (fun s => set_buf (<[n := c]> b) (i s) s) else fault.

(** [strcpy(history[j], src)] *)
Definition put_history (j : nat) (src : list Z) : M ed unit :=
  let* h := gets history in
  let* row := try (h !! j) in
  let* row := try (User.strcpy row src) in
  modify (fun s => set_history (<[j := row]> h) (history_count s) s).

(** The branch of a newline. *)
Definition enter : M ed unit :=
  let* n := gets i in
  put_buf n 0 ;;;
  (if (0 <? n)%nat then
    let* count := gets history_count in
    let* b := gets buf in
    if (count <? HISTORY_SIZE)%nat then
      put_history count b ;;;
      modify (fun s => set_history (history s) (S count) s)
    else
      for_up (HISTORY_SIZE - 1) 1 (fun j =>
        let* h := gets history in
        let* row := try (h !! j) in
        put_history (j - 1) row) ;;;
      put_history (HISTORY_SIZE - 1) b
   else ret tt) ;;;
  modify (fun s => set_index (Z.of_nat (history_count s)) s).

(** [strcpy(buf, history[history_index]); i = strlen(buf);] *)
Definition recall : M ed unit :=
  let* h := gets history in
  let* x := gets history_index in
  if x <? 0 then fault else
  let* row := try (h !! Z.to_nat x) in
  let* b := gets buf in
  let* b := try (User.strcpy b row) in
  let* n := try (User.strlen b) in
  modify (set_buf b (Z.to_nat n)).

Definition arrow_up : M ed unit :=
  let* count := gets history_count in
  let* x := gets history_index in
  if (0 <? count)%nat && (0 <? x) then
    modify (set_index (x - 1)) ;;; recall
  else ret tt.

Definition arrow_down : M ed unit :=
  let* count := gets history_count in
  let* x := gets history_index in
  if x <? Z.of_nat count - 1 then
    modify (set_index (x + 1)) ;;; recall
  else if x =? Z.of_nat count - 1 then
    modify (set_index (x + 1)) ;;;
    put_buf 0 0 ;;;
    modify (fun s => set_buf (buf s) 0 s)
  else ret tt.

(** [if(i > 0) i--;] *)
Definition backspace : M ed unit := modify (fun s => set_buf (buf s) (i s - 1) s).

(** [if(i < nbuf - 1) buf[i++] = c;] *)
Definition type_char (c : Z) : M ed unit :=
  let* n := gets i in
  if (n <? CMD_BUF_SIZE - 1)%nat then
    put_buf n c ;;; modify (fun s => set_buf (buf s) (S n) s)
  else ret tt.

(** The loop of [getcmd]: whether a newline ended it, and the input left. *)
Fixpoint getcmd_loop (input : list Z) : M ed (bool * list Z) :=
  match input with
  | [] => ret (false, [])
  | c :: input =>
      if (c =? 10) || (c =? 13) then enter ;;; ret (true, input)
      else if (c =? 8) || (c =? 127) then backspace ;;; getcmd_loop input
      else if c =? 27 then
        match input with
        | s0 :: s1 :: input =>
            (if s0 =? 91 then
               if s1 =? 65 then arrow_up
               else if s1 =? 66 then arrow_down
               else ret tt
             else ret tt) ;;;
            getcmd_loop input
        | _ => ret (false, [])
        end
      else type_char c ;;; getcmd_loop input
  end.

(** The result of [getcmd] and the input left; the command is in [buf]. *)
Definition getcmd (input : list Z) : M ed (Z * (bool * list Z)) :=
  modify (set_buf (replicate CMD_BUF_SIZE 0) 0) ;;;
  let* r := getcmd_loop input in
  let* b := gets buf in
  let* n := gets i in
  let* b0 := try (b !! 0%nat) in
  ret (if (b0 =? 0) && (n =? 0)%nat then -1 else 0, r).

(** * The built-in [cd] *)

(** [strcat] *)
Fixpoint strcat (dst src : list Z) : option (list Z) :=
  match dst with
  | [] => None
  | c :: r => if c =? 0 then User.strcpy dst src else r' ← strcat r src; Some (c :: r')
  end.

Definition slash : list Z := [47; 0].
Definition dotdot : list Z := [46; 46; 0].

(** [current_dir] after the command [cd arg], where [ok] is whether [chdir] succeeds. *)
Definition cd (ok : bool) (arg : list Z) (current_dir : list Z) : option (list Z) :=
  if negb ok then Some current_dir
  else
    a ← User.strcmp arg slash;
    b ← (if a =? 0 then Some 0 else User.strcmp arg dotdot);
    if (a =? 0) || (b =? 0) then User.strcpy current_dir slash
    else
      r ← User.strcmp current_dir slash;
      d ← (if negb (r =? 0) then strcat current_dir slash else Some current_dir);
      strcat d arg.

(** The test for the built-in. *)
Definition is_cd (b : list Z) : bool :=
  match b with
  | 99 :: 100 :: 32 :: _ => true
  | _ => false
  end.

(** * [runcmd] *)

(** What a descriptor refers to. *)
Inductive fobj :=
| Inherited (n : nat)
| Opened (name : list Z) (mode : Z)
| PipeRead (id : list bool)
| PipeWrite (id : list bool).

(** A process: the calls it makes that other processes or programs can see, with the
    descriptors it holds when it runs a program or waits. [fork] succeeds. *)
Inductive proc :=
| Exit
| Failed (msg : string)
| Exec (path : list Z) (argv : list (list Z)) (fds : list (option fobj))
| Fork (child parent : proc)
| Wait (fds : list (option fobj)) (k : proc).

Definition lowest_free (fds : list (option fobj)) : option nat :=
  findi (fun o => match o with None => true | Some _ => false end) fds.
Definition fd_close (fds : list (option fobj)) (fd : nat) : list (option fobj) := <[fd := None]> fds.
Definition fd_alloc (fds : list (option fobj)) (f : fobj) : option (nat * list (option fobj)) :=
  fd ← lowest_free fds; Some (fd, <[fd := Some f]> fds).
Definition fd_dup (fds : list (option fobj)) (fd : nat) : list (option fobj) :=
  match fds !! fd with
  | Some (Some f) => match fd_alloc fds f with Some (_, fds) => fds | None => fds end
  | _ => fds
  end.
Definition fd_pipe (fds : list (option fobj)) (id : list bool) : option (nat * nat * list (option fobj)) :=
  '(p0, fds) ← fd_alloc fds (PipeRead id);
  '(p1, fds) ← fd_alloc fds (PipeWrite id);
  Some (p0, p1, fds).

(** [path] of the EXEC case: [char path[128]]. *)
Definition exec_path (arg0 : list Z) : option (list Z) :=
  match arg0 with
  | 47 :: _ => Some arg0
  | _ =>
      p ← User.strcpy (replicate 128 0) slash;
      p ← strcat p (arg0 ++ [0]);
      n ← User.strlen p; Some (take (Z.to_nat n) p)
  end.

Section runcmd.
(** Whether [open(file, mode)] succeeds. *)
Variable open_ok : list Z -> Z -> bool.

(** [id] is the place in the command: it names the pipes. *)
Fixpoint runcmd (c : cmd (list Z)) (fds : list (option fobj)) (id : list bool) : proc :=
  match c with
  | EXEC [] => Exit
  | EXEC (a :: argv) =>
      match exec_path a with
      | Some path => Exec path (a :: argv) fds
      | None => Failed "path overflow"
      end
  | REDIR c file mode fd =>
      let fds := fd_close fds (Z.to_nat fd) in
      if open_ok file mode then
        match fd_alloc fds (Opened file mode) with
        | Some (_, fds) => runcmd c fds id
        | None => Exit
        end
      else Exit
  | LIST l r => Fork (runcmd l fds (false :: id)) (Wait fds (runcmd r fds (true :: id)))
  | PIPE l r =>
      match fd_pipe fds id with
      | None => Failed "pipe"
      | Some (p0, p1, fds) =>
          Fork
            (runcmd l (fd_close (fd_close (fd_dup (fd_close fds 1) p1) p0) p1) (false :: id))
            (Fork
              (runcmd r (fd_close (fd_close (fd_dup (fd_close fds 0) p0) p0) p1) (true :: id))
              (let fds := fd_close (fd_close fds p0) p1 in Wait fds (Wait fds Exit)))
      end
  | BACK c => Fork (runcmd c fds id) Exit
  end.
End runcmd.

(** * Pipelines *)

Lemma lowest_free_Some fds fd : lowest_free fds = Some fd -> fds !! fd = Some None.
Proof. intros H. apply findi_Some in H as (o & Ho & Hn & _). by destruct o. Qed.

Lemma lowest_free_here fds n : fds !! n = Some None ->
  (forall m, (m < n)%nat -> exists f, fds !! m = Some (Some f)) -> lowest_free fds = Some n.
Proof.
  revert n. induction fds as [|o fds IH]; intros n Hn Hm; [done|]. unfold lowest_free. cbn [findi].
  destruct n as [|n].
  - cbn in Hn. by simplify_eq.
  - destruct (Hm 0%nat ltac:(lia)) as [f Hf]. cbn in Hf. simplify_eq.
    fold (lowest_free fds). rewrite (IH n); [done|done|]. intros m Hlt. by apply (Hm (S m)); lia.
Qed.

(** Standard input and output are open and two descriptors are free. *)
Definition fds_ok (fds : list (option fobj)) : Prop :=
  (exists f, fds !! 0%nat = Some (Some f)) /\ (exists f, fds !! 1%nat = Some (Some f)) /\
  exists q0 q1, q0 <> q1 /\ fds !! q0 = Some None /\ fds !! q1 = Some None.

Lemma lowest_free_ex fds q : fds !! q = Some None -> exists n, lowest_free fds = Some n.
Proof.
  intros Hq. destruct (lowest_free fds) as [n|] eqn:E; [eauto|].
  unfold lowest_free in E. rewrite findi_None in E.
  by specialize (E None (list_elem_of_lookup_2 _ _ _ Hq)).
Qed.

Lemma fd_pipe_Some fds id : fds_ok fds -> exists p0 p1,
  fd_pipe fds id = Some (p0, p1, <[p1 := Some (PipeWrite id)]> (<[p0 := Some (PipeRead id)]> fds)) /\
  p0 <> p1 /\ fds !! p0 = Some None /\ fds !! p1 = Some None.
Proof.
  intros (_ & _ & q0 & q1 & Hne & H0 & H1). unfold fd_pipe, fd_alloc.
  destruct (lowest_free_ex fds q0 H0) as [p0 Hp0]. rewrite Hp0. cbn.
  pose proof (lowest_free_Some _ _ Hp0) as Hn0.
  assert (exists q, <[p0 := Some (PipeRead id)]> fds !! q = Some None) as [q Hq].
  { destruct (decide (q0 = p0)) as [->|]; [exists q1|exists q0]; by rewrite list_lookup_insert_ne. }
  destruct (lowest_free_ex _ q Hq) as [p1 Hp1]. rewrite Hp1. cbn.
  pose proof (lowest_free_Some _ _ Hp1) as Hn1. exists p0, p1. split; [done|].
  destruct (decide (p0 = p1)) as [->|Hd].
  { rewrite list_lookup_insert_eq in Hn1 by (by eapply lookup_lt_Some). done. }
  rewrite list_lookup_insert_ne in Hn1 by done. done.
Qed.

(** [close(n); dup(p); close(p0); close(p1)] for [n] 0 or 1, after [pipe]. *)
Lemma fd_redirect fds n p0 p1 p a b f : (n < 2)%nat -> fds_ok fds -> p0 <> p1 ->
  fds !! p0 = Some None -> fds !! p1 = Some None -> (p = p0 \/ p = p1) ->
  <[p1 := Some b]> (<[p0 := Some a]> fds) !! p = Some (Some f) ->
  fd_close (fd_close (fd_dup (fd_close (<[p1 := Some b]> (<[p0 := Some a]> fds)) n) p) p0) p1
  = <[n := Some f]> fds.
Proof.
  intros Hn (( f0 & F0) & (f1 & F1) & _) Hne H0 H1 Hp Hf. unfold fd_close.
  assert (exists g, fds !! n = Some (Some g)) as [g Hg].
  { destruct n as [|[|n]]; [eauto..|lia]. }
  assert (n <> p0 /\ n <> p1) as [Hn0 Hn1] by (split; intros ->; congruence).
  assert (n <> p) as Hnp by (destruct Hp; congruence).
  set (t := <[p1 := Some b]> (<[p0 := Some a]> fds)) in *.
  assert (Ht : forall m, m <> p0 -> m <> p1 -> t !! m = fds !! m).
  { intros m ? ?. unfold t. by rewrite !list_lookup_insert_ne. }
  assert (Htn : t !! n = Some (Some g)) by by rewrite Ht.
  unfold fd_dup. rewrite list_lookup_insert_ne by done. rewrite Hf.
  assert (lowest_free (<[n := None]> t) = Some n) as Hl.
  { apply lowest_free_here; [apply list_lookup_insert_eq; by eapply lookup_lt_Some|].
    intros m Hm. rewrite list_lookup_insert_ne by lia. assert (m = 0%nat) as -> by lia.
    exists f0. rewrite Ht; [done|..]; intros <-; congruence. }
  unfold fd_alloc. rewrite Hl. cbn [mbind option_bind]. rewrite list_insert_insert_eq.
  apply list_eq. intros m.
  destruct (decide (m = p1)) as [->|]; [|destruct (decide (m = p0)) as [->|]].
  - rewrite list_lookup_insert_eq. 2:{ rewrite !length_insert. unfold t. rewrite !length_insert. by eapply lookup_lt_Some. }
    by rewrite list_lookup_insert_ne.
  - rewrite list_lookup_insert_ne by done. rewrite list_lookup_insert_eq.
    2:{ rewrite !length_insert. unfold t. rewrite !length_insert. by eapply lookup_lt_Some. }
    by rewrite list_lookup_insert_ne.
  - rewrite !(list_lookup_insert_ne _ _ m) by done. destruct (decide (m = n)) as [->|].
    + rewrite !list_lookup_insert_eq; [done|by eapply lookup_lt_Some..].
    + rewrite !list_lookup_insert_ne by done. by apply Ht.
Qed.

(** * C strings in arrays *)

(** The array [b] holds the C string [w]. *)
Definition cstring (b w : list Z) : Prop := (0 ∉ w) /\ exists r, b = w ++ 0 :: r.

Lemma strcpy_cstring w : forall dst src, cstring src w -> (length w < length dst)%nat ->
  User.strcpy dst src = Some (w ++ 0 :: drop (S (length w)) dst).
Proof.
  induction w as [|c w IH]; intros dst src [Hw [r ->]] Hl; (destruct dst as [|x dst]; [cbn in Hl; lia|]).
  - done.
  - rewrite not_elem_of_cons in Hw. destruct Hw as [Hc Hw]. cbn [app User.strcpy].
    rewrite (proj2 (Z.eqb_neq _ _)) by done. rewrite (IH dst (w ++ 0 :: r)); [done| |cbn in Hl; lia].
    split; [done|by exists r].
Qed.

Lemma strlen_cstring w : forall b, cstring b w -> User.strlen b = Some (Z.of_nat (length w)).
Proof.
  induction w as [|c w IH]; intros b [Hw [r ->]]; [done|].
  rewrite not_elem_of_cons in Hw. destruct Hw as [Hc Hw]. cbn [app User.strlen length].
  rewrite (proj2 (Z.eqb_neq _ _)) by done. rewrite (IH (w ++ 0 :: r)) by (split; eauto).
  cbn. f_equal. lia.
Qed.

Lemma strcat_cstring w : forall dst src v, cstring dst w -> cstring src v ->
  (length w + length v < length dst)%nat ->
  exists dst', strcat dst src = Some dst' /\ cstring dst' (w ++ v) /\ length dst' = length dst.
Proof.
  induction w as [|c w IH]; intros dst src v [Hw [r ->]] Hsrc Hl.
  - cbn [app strcat]. rewrite Z.eqb_refl, (strcpy_cstring v) by (done || (cbn in *; lia)).
    eexists. split; [done|]. split; [split; [apply Hsrc|eauto]|].
    rewrite length_app. cbn [length drop] in *. rewrite length_drop. cbn in Hl. lia.
  - rewrite not_elem_of_cons in Hw. destruct Hw as [Hc Hw]. cbn [app strcat].
    rewrite (proj2 (Z.eqb_neq _ _)) by done.
    destruct (IH (w ++ 0 :: r) src v) as (d & -> & [Hd [r' ->]] & Hlen);
      [split; eauto|done|cbn in Hl; lia|].
    cbn. eexists. split; [done|]. split; [|cbn; by rewrite Hlen].
    split; [|by eexists]. by apply not_elem_of_cons.
Qed.

(** The path that a command name is looked up under. *)
Definition command_path (a : list Z) : list Z :=
  match a with 47 :: _ => a | _ => 47 :: a end.

Lemma exec_path_short a : (0 ∉ a) -> (length a < 127)%nat -> exec_path a = Some (command_path a).
Proof.
  intros Ha Hl.
  assert (Hgo : (p ← User.strcpy (replicate 128 0) slash;
      p ← strcat p (a ++ [0]); n ← User.strlen p; Some (take (Z.to_nat n) p)) = Some (47 :: a)).
  { rewrite (strcpy_cstring [47]). 2:{ split; [|by exists []]. by apply not_elem_of_cons; split; [|apply not_elem_of_nil]. }
    2:{ rewrite length_replicate. cbn. lia. }
    cbn [mbind option_bind]. edestruct (strcat_cstring [47]) as (d & -> & Hd & _).
    { split; [|eexists; done]. by apply not_elem_of_cons; split; [|apply not_elem_of_nil]. }
    { split; [exact Ha|by exists []]. }
    { rewrite length_app. cbn [length]. rewrite length_drop, length_replicate. lia. }
    cbn [mbind option_bind]. rewrite (strlen_cstring _ _ Hd). cbn [mbind option_bind].
    destruct Hd as [_ [r ->]]. by rewrite Nat2Z.id, take_app_length. }
  unfold exec_path, command_path.
  repeat match goal with |- context [match ?x with _ => _ end] => is_var x; destruct x end;
    first [reflexivity | exact Hgo].
Qed.

(** * What a pipeline runs *)

(** The programs that the processes execute, the first process first, and the
    descriptors held by processes that wait. *)
Fixpoint programs (p : proc) : list (list Z * list (list Z) * list (option fobj)) :=
  match p with
  | Exit | Failed _ => []
  | Exec path argv fds => [(path, argv, fds)]
  | Fork c k => programs c ++ programs k
  | Wait _ k => programs k
  end.
Fixpoint waits (p : proc) : list (list (option fobj)) :=
  match p with
  | Exit | Failed _ | Exec _ _ _ => []
  | Fork c k => waits c ++ waits k
  | Wait fds k => fds :: waits k
  end.

Fixpoint pipeline (a : list (list Z)) (l : list (list (list Z))) : cmd (list Z) :=
  match l with
  | [] => EXEC a
  | b :: l => PIPE (EXEC a) (pipeline b l)
  end.

Lemma runcmd_pipe open_ok l r fds id : fds_ok fds ->
  runcmd open_ok (PIPE l r) fds id =
    Fork (runcmd open_ok l (<[1%nat := Some (PipeWrite id)]> fds) (false :: id))
      (Fork (runcmd open_ok r (<[0%nat := Some (PipeRead id)]> fds) (true :: id))
        (Wait fds (Wait fds Exit))).
Proof.
  intros Hok. cbn [runcmd]. destruct (fd_pipe_Some fds id Hok) as (p0 & p1 & -> & Hne & H0 & H1).
  assert (L0 : (p0 < length fds)%nat) by by eapply lookup_lt_Some.
  assert (L1 : (p1 < length fds)%nat) by by eapply lookup_lt_Some.
  rewrite (fd_redirect fds 1 p0 p1 p1 _ _ (PipeWrite id)); try (done || lia || by right).
  2:{ apply list_lookup_insert_eq. by rewrite length_insert. }
  rewrite (fd_redirect fds 0 p0 p1 p0 _ _ (PipeRead id)); try (done || lia || by left).
  2:{ rewrite list_lookup_insert_ne by done. by apply list_lookup_insert_eq. }
  assert (fd_close (fd_close (<[p1:=Some (PipeWrite id)]> (<[p0:=Some (PipeRead id)]> fds)) p0) p1 = fds)
    as ->; [|done].
  unfold fd_close. apply list_eq. intros m.
  destruct (decide (m = p1)) as [->|]; [|destruct (decide (m = p0)) as [->|]].
  - rewrite list_lookup_insert_eq; [done|]. by rewrite !length_insert.
  - rewrite list_lookup_insert_ne, list_lookup_insert_eq; [done| |done]. by rewrite !length_insert.
  - by rewrite !list_lookup_insert_ne.
Qed.

Lemma fds_ok_insert0 fds f : fds_ok fds -> fds_ok (<[0%nat := Some f]> fds).
Proof.
  intros ((f0 & F0) & (f1 & F1) & q0 & q1 & Hne & H0 & H1).
  split; [exists f; apply list_lookup_insert_eq; by eapply lookup_lt_Some|].
  split; [exists f1; by rewrite list_lookup_insert_ne|].
  exists q0, q1. split; [done|]. split; rewrite list_lookup_insert_ne; try done; intros <-; congruence.
Qed.

Definition stage_ok (a : list (list Z)) : Prop :=
  match a with [] => False | w :: _ => (0 ∉ w) /\ (length w < 127)%nat end.

Definition stage_path (a : list (list Z)) : list Z :=
  match a with [] => [] | w :: _ => command_path w end.

Lemma runcmd_stage open_ok a fds id : stage_ok a ->
  runcmd open_ok (EXEC a) fds id = Exec (stage_path a) a fds.
Proof. destruct a as [|w a]; [done|]. intros [H1 H2]. cbn [runcmd]. by rewrite exec_path_short. Qed.

Lemma replicate_snoc {A} n (x : A) l : replicate n x ++ x :: l = replicate (S n) x ++ l.
Proof. rewrite replicate_S_end, <- app_assoc. done. Qed.

(** The descriptors of stage [k] of [n + 1]. *)
Definition stage_fds (fds t : list (option fobj)) (id : list bool) (n k : nat) : Prop :=
  t !! 0%nat = (match k with O => fds !! 0%nat | S j => Some (Some (PipeRead (replicate j true ++ id))) end) /\
  t !! 1%nat = (if (k =? n)%nat then fds !! 1%nat else Some (Some (PipeWrite (replicate k true ++ id)))) /\
  (forall m, (2 <= m)%nat -> t !! m = fds !! m).

Lemma pipeline_stages open_ok l : forall a fds id, fds_ok fds -> stage_ok a -> Forall stage_ok l ->
  let p := runcmd open_ok (pipeline a l) fds id in
  length (programs p) = S (length l) /\
  (forall k b, (a :: l) !! k = Some b ->
     exists t, programs p !! k = Some (stage_path b, b, t) /\ stage_fds fds t id (length l) k) /\
  (forall t m, t ∈ waits p -> (1 <= m)%nat -> t !! m = fds !! m).
Proof.
  induction l as [|b l IH]; intros a fds id Hfds Ha Hl; cbn [pipeline].
  - rewrite runcmd_stage by done. cbn [programs waits]. split_and!; [done| |set_solver].
    intros [|k] b Hb; [|done]. cbn in Hb. simplify_eq. eexists. split; [done|]. done.
  - apply Forall_cons in Hl as [Hb Hl].
    rewrite runcmd_pipe, runcmd_stage by done.
    destruct (IH b (<[0%nat:=Some (PipeRead id)]> fds) (true :: id)) as (Hn & Hst & Hw);
      [by apply fds_ok_insert0|done|done|].
    assert (L0 : (0 < length fds)%nat /\ (1 < length fds)%nat).
    { destruct Hfds as ((f0 & F0) & (f1 & F1) & _). split; by eapply lookup_lt_Some. }
    cbn [programs waits app]. rewrite app_nil_r. split_and!.
    + cbn [length]. by rewrite Hn.
    + intros [|k] x Hx.
      * cbn in Hx. simplify_eq. eexists. split; [done|]. split_and!.
        -- by rewrite list_lookup_insert_ne.
        -- cbn. rewrite list_lookup_insert_eq by lia. done.
        -- intros m Hm. apply list_lookup_insert_ne. lia.
      * destruct (Hst k x Hx) as (t & Ht & H0 & H1 & H2). exists t. split; [done|]. split_and!.
        -- rewrite H0. destruct k as [|k]; [by rewrite list_lookup_insert_eq by lia|].
           by rewrite replicate_snoc.
        -- rewrite H1. cbn [length Nat.eqb]. rewrite list_lookup_insert_ne by done.
           by rewrite replicate_snoc.
        -- intros m Hm. rewrite H2 by done. by rewrite list_lookup_insert_ne by lia.
    + intros t m Ht Hm. apply elem_of_app in Ht as [Ht|Ht].
      * rewrite (Hw t m Ht Hm). by rewrite list_lookup_insert_ne by lia.
      * rewrite !elem_of_cons, elem_of_nil in Ht. by destruct Ht as [->|[->|[]]].
Qed.

(** [runcmd] wires a pipeline of any length: stage [k] runs its command with its
    standard input on the pipe of stage [k - 1] and its standard output on its own pipe
    (the first stage reads and the last one writes what the shell does); every other
    descriptor is as in the shell, so no stage keeps a pipe end it does not use; and no
    process that waits holds a write end, so readers see the end of the input. *)
Theorem pipeline_wiring (open_ok : list Z -> Z -> bool) (a : list (list Z)) (l : list (list (list Z)))
    (fds : list (option fobj)) (k : nat) (b : list (list Z)) :
  fds_ok fds -> stage_ok a -> Forall stage_ok l -> (a :: l) !! k = Some b ->
  let p := runcmd open_ok (pipeline a l) fds [] in
  length (programs p) = S (length l) /\
  (exists t, programs p !! k = Some (stage_path b, b, t) /\ stage_fds fds t [] (length l) k) /\
  (forall t m, t ∈ waits p -> (1 <= m)%nat -> t !! m = fds !! m).
Proof.
  intros Hfds Ha Hl Hk. destruct (pipeline_stages open_ok l a fds [] Hfds Ha Hl) as (H1 & H2 & H3).
  split_and!; [done|by apply H2|done].
Qed.

Definition demo_fds : list (option fobj) :=
  [Some (Inherited 0); Some (Inherited 1); Some (Inherited 2); None; None; None].

Lemma pipeline_wiring_witness :
  exists t, programs (runcmd (fun _ _ => true) (pipeline [[108; 115]] [[[119; 99]]; [[99; 97; 116]]]) demo_fds []) !! 1%nat
    = Some ([47; 119; 99], [[119; 99]], t) /\ stage_fds demo_fds t [] 2 1.
Proof.
  apply (pipeline_wiring (fun _ _ => true) [[108; 115]] [[[119; 99]]; [[99; 97; 116]]] demo_fds 1 [[119; 99]]).
  - split_and!; [by eexists..|]. exists 3%nat, 4%nat. done.
  - split; [|cbn; lia]. rewrite !not_elem_of_cons. split_and!; try lia. apply not_elem_of_nil.
  - repeat constructor; try (cbn; lia); rewrite !not_elem_of_cons; (split_and!; try lia; apply not_elem_of_nil).
  - reflexivity.
Defined.

(** * The built-in cd *)

Definition dot : list Z := [46; 0].
Definition root_dir : list Z := 47 :: replicate 99 0.
Fixpoint cds (n : nat) (d : list Z) : option (list Z) :=
  match n with O => Some d | S n => d ← cd true dot d; cds n d end.

(** The text of the current directory grows without a bound: the fiftieth successful
    [cd .] writes past the 100 bytes of [current_dir]; forty-nine fit. *)
Theorem cd_dot_overflows : cds 49 root_dir <> None /\ cds 50 root_dir = None.
Proof. vm_compute. done. Qed.
