(* ===== verification/ShEdit.v ===== *)
(** [getcmd] of [sh.c] refines a line editor over a text and a list of earlier lines,
    and never leaves its arrays. *)

From S2P Require Import Prelude CString Sh ShRun.

(** * The abstract editor *)

(** The C string at the start of a text: up to its first NUL. *)
Fixpoint cut (l : list Z) : list Z :=
  match l with [] => [] | c :: l => if c =? 0 then [] else c :: cut l end.

Record aed := Aed { text : list Z; lines : list (list Z); sel : Z }.

(** The last ten lines. *)
Definition remember (h : list (list Z)) (w : list Z) : list (list Z) :=
  let h := h ++ [w] in drop (length h - HISTORY_SIZE) h.

Definition a_enter (a : aed) : aed :=
  let h := match text a with [] => lines a | _ => remember (lines a) (cut (text a)) end in
  Aed (text a) h (Z.of_nat (length h)).
Definition a_up (a : aed) : aed :=
  if 0 <? sel a then
    match lines a !! Z.to_nat (sel a - 1) with
    | Some w => Aed w (lines a) (sel a - 1)
    | None => a
    end
  else a.
Definition a_down (a : aed) : aed :=
  match lines a !! Z.to_nat (sel a + 1) with
  | Some w => Aed w (lines a) (sel a + 1)
  | None => if sel a =? Z.of_nat (length (lines a)) - 1 then Aed [] (lines a) (sel a + 1) else a
  end.
Definition a_back (a : aed) : aed := Aed (take (length (text a) - 1) (text a)) (lines a) (sel a).
Definition a_type (c : Z) (a : aed) : aed :=
  if (length (text a) <? CMD_BUF_SIZE - 1)%nat then Aed (text a ++ [c]) (lines a) (sel a) else a.

Fixpoint edit (input : list Z) (a : aed) : bool * list Z * aed :=
  match input with
  | [] => (false, [], a)
  | c :: input =>
      if (c =? 10) || (c =? 13) then (true, input, a_enter a)
      else if (c =? 8) || (c =? 127) then edit input (a_back a)
      else if c =? 27 then
        match input with
        | s0 :: s1 :: input =>
            edit input
              (if s0 =? 91 then if s1 =? 65 then a_up a else if s1 =? 66 then a_down a else a else a)
        | _ => (false, [], a)
        end
      else edit input (a_type c a)
  end.

(** * The relation *)

Record rel (s : ed) (a : aed) : Prop := {
  r_buf : length (buf s) = CMD_BUF_SIZE;
  r_i : i s = length (text a);
  r_lt : (length (text a) < CMD_BUF_SIZE)%nat;
  r_text : take (length (text a)) (buf s) = text a;
  r_rows : Forall (fun row => length row = CMD_BUF_SIZE) (history s);
  r_hist : length (history s) = HISTORY_SIZE;
  r_count : history_count s = length (lines a);
  r_max : (length (lines a) <= HISTORY_SIZE)%nat;
  r_lines : forall k w, lines a !! k = Some w -> (length w < CMD_BUF_SIZE)%nat /\
              exists row, history s !! k = Some row /\ cstring row w;
  r_sel : history_index s = sel a;
  r_lo : -1 <= sel a;
  r_hi : sel a <= Z.of_nat (length (lines a));
}.

(** A C string of [n] bytes at most. *)
Lemma cut_cstring b n : (n < length b)%nat -> cstring (<[n := 0]> b) (cut (take n b)) /\
  (length (cut (take n b)) <= n)%nat.
Proof.
  revert n. induction b as [|c b IH]; intros n Hn; [cbn in Hn; lia|]. destruct n as [|n].
  - cbn. split; [|lia]. split; [apply not_elem_of_nil|]. by exists b.
  - cbn [length] in Hn. destruct (IH n ltac:(lia)) as [[Hw [r Hr]] Hl].
    cbn [take cut]. change (<[S n := 0]> (c :: b)) with (c :: <[n := 0]> b).
    destruct (Z.eqb_spec c 0) as [->|Hc].
    + cbn. split; [|lia]. split; [apply not_elem_of_nil|]. by eexists.
    + cbn [length]. split; [|lia]. split; [by apply not_elem_of_cons|]. exists r. by rewrite Hr.
Qed.

Lemma cstring_nonempty_length b w : cstring b w -> (length w < length b)%nat.
Proof. intros [_ [r ->]]. rewrite length_app. cbn. lia. Qed.

Section may.
Context (may : option string -> Prop).

Lemma wp_modify {S} (f : S -> S) s (Q : unit -> S -> Prop) : Q tt (f s) -> wp may (modify f) s Q.
Proof. done. Qed.

Lemma wp_put_buf n c s Q : (n < length (buf s))%nat ->
  Q tt (set_buf (<[n := c]> (buf s)) (i s) s) -> wp may (put_buf n c) s Q.
Proof.
  intros Hn HQ. unfold put_buf. wstep. rewrite (proj2 (Nat.ltb_lt _ _)) by done. by apply wp_modify.
Qed.

Lemma wp_try {S A} (o : option A) a (s : S) (Q : A -> S -> Prop) : o = Some a -> Q a s -> wp may (try o) s Q.
Proof. by intros ->. Qed.

Lemma wp_put_history j src w s Q : (j < length (history s))%nat ->
  Forall (fun row => length row = CMD_BUF_SIZE) (history s) ->
  cstring src w -> (length w < CMD_BUF_SIZE)%nat ->
  (forall row, cstring row w -> length row = CMD_BUF_SIZE ->
     Q tt (set_history (<[j := row]> (history s)) (history_count s) s)) ->
  wp may (put_history j src) s Q.
Proof.
  intros Hj Hrows Hsrc Hw HQ. destruct (lookup_lt_is_Some_2 _ _ Hj) as [row Hrow].
  pose proof (Forall_lookup_1 _ _ _ _ Hrows Hrow) as Hlen. cbn beta in Hlen.
  unfold put_history. wstep. wbind. eapply wp_try; [exact Hrow|].
  wbind. eapply wp_try; [apply (strcpy_cstring w); [done|lia]|].
  apply wp_modify, HQ.
  - split; [apply Hsrc|eauto].
  - rewrite length_app. cbn [length]. rewrite length_drop. lia.
Qed.
End may.

Abbreviation never := (fun _ : option string => False).

(** [history] holds the lines [h]. *)
Definition holds (hist : list (list Z)) (h : list (list Z)) : Prop :=
  forall k w, h !! k = Some w -> (length w < CMD_BUF_SIZE)%nat /\
    exists row, hist !! k = Some row /\ cstring row w.

(** The state after [history] became [hist], with nothing else changed. *)
Definition rows_ok (hist : list (list Z)) : Prop :=
  length hist = HISTORY_SIZE /\ Forall (fun row => length row = CMD_BUF_SIZE) hist.

Lemma rows_ok_insert hist j row : rows_ok hist -> length row = CMD_BUF_SIZE -> rows_ok (<[j := row]> hist).
Proof. intros [H1 H2] Hr. split; [by rewrite length_insert|]. by apply Forall_insert. Qed.

(** The loop that shifts the history: row [j] moves to [j - 1]. *)
Lemma shift_history s h : rows_ok (history s) -> length h = HISTORY_SIZE -> holds (history s) h ->
  wp never (for_up (HISTORY_SIZE - 1) 1 (fun j =>
      let* h := gets history in
      let* row := try (h !! j) in
      put_history (j - 1) row)) s
    (fun _ s' => exists hist, s' = set_history hist (history_count s) s /\ rows_ok hist /\
       forall k w, (k < HISTORY_SIZE - 1)%nat -> h !! S k = Some w ->
         exists row, hist !! k = Some row /\ cstring row w).
Proof.
  intros Hrows Hh Hholds.
  eapply wp_mono; [apply wp_for_up with (I := fun j s' =>
    exists hist, s' = set_history hist (history_count s) s /\ rows_ok hist /\
      (forall k w, (k < j - 1)%nat -> h !! S k = Some w -> exists row, hist !! k = Some row /\ cstring row w) /\
      (forall k, (j - 1 <= k)%nat -> hist !! k = history s !! k))|].
  - intros j s1 Hj (hist & -> & Hok & Hdone & Hrest). wstep.
    destruct (lookup_lt_is_Some_2 h j ltac:(rewrite Hh; unfold HISTORY_SIZE in *; lia)) as [w Hw].
    destruct (Hholds j w Hw) as [Hlw (row & Hrow & Hcs)].
    wbind. eapply wp_try; [cbn; rewrite Hrest by lia; exact Hrow|].
    eapply (wp_put_history _ _ _ w); cbn [set_history history]; try apply Hok; try done.
    { destruct Hok as [-> _]. unfold HISTORY_SIZE in *. lia. }
    intros row' Hcs' Hlen'. exists (<[(j - 1)%nat := row']> hist).
    assert (Hlt : (j - 1 < length hist)%nat) by (destruct Hok as [-> _]; unfold HISTORY_SIZE in *; lia).
    split_and!; [done|by apply rows_ok_insert| |].
    + intros k v Hk Hv. destruct (decide (k = (j - 1)%nat)) as [->|Hne].
      * rewrite list_lookup_insert_eq by done. replace (S (j - 1)) with j in Hv by lia.
        simplify_eq. eauto.
      * rewrite list_lookup_insert_ne by done. apply Hdone; [lia|done].
    + intros k Hk. rewrite list_lookup_insert_ne by lia. apply Hrest. lia.
  - exists (history s). split; [by destruct s|]. split_and!; [done|intros; lia|done].
  - intros _ s' (hist & -> & Hok & Hdone & _). exists hist. split_and!; [done|done|].
    intros k w Hk Hw. apply Hdone; [unfold HISTORY_SIZE in *; lia|done].
Qed.

Lemma remember_short h w : (length h < HISTORY_SIZE)%nat -> remember h w = h ++ [w].
Proof.
  intros Hl. unfold remember. rewrite length_app. cbn [length].
  by replace (length h + 1 - HISTORY_SIZE)%nat with 0%nat by lia.
Qed.

Lemma remember_full h w : length h = HISTORY_SIZE -> remember h w = drop 1 h ++ [w].
Proof.
  intros Hl. unfold remember. rewrite length_app. cbn [length].
  replace (length h + 1 - HISTORY_SIZE)%nat with 1%nat by lia.
  apply drop_app_le. rewrite Hl. unfold HISTORY_SIZE. lia.
Qed.

Lemma length_remember h w : (length h <= HISTORY_SIZE)%nat -> (length (remember h w) <= HISTORY_SIZE)%nat.
Proof. intros. unfold remember. rewrite length_drop, length_app. cbn. lia. Qed.

(** A new line is added to the history. *)
Lemma add_history s h w : rows_ok (history s) -> history_count s = length h ->
  (length h <= HISTORY_SIZE)%nat -> holds (history s) h -> cstring (buf s) w -> (length w < CMD_BUF_SIZE)%nat ->
  wp never (let* count := gets history_count in
    let* b := gets buf in
    if (count <? HISTORY_SIZE)%nat then
      put_history count b ;;; modify (fun s => set_history (history s) (S count) s)
    else
      for_up (HISTORY_SIZE - 1) 1 (fun j =>
        let* h := gets history in let* row := try (h !! j) in put_history (j - 1) row) ;;;
      put_history (HISTORY_SIZE - 1) b) s
    (fun _ s' => exists hist, s' = set_history hist (length (remember h w)) s /\ rows_ok hist /\
       holds hist (remember h w)).
Proof.
  intros Hrows Hcount Hmax Hholds Hsrc Hw. wstep. wstep. rewrite Hcount.
  destruct (Nat.ltb_spec (length h) HISTORY_SIZE) as [Hlt|Hge].
  - wbind. eapply (wp_put_history _ _ _ w); try apply Hrows; try done.
    { destruct Hrows as [-> _]. done. }
    intros row Hcs Hlen. apply wp_modify. rewrite remember_short by done.
    exists (<[length h := row]> (history s)). cbn. split_and!.
    + rewrite length_app. cbn. by rewrite Nat.add_1_r.
    + by apply rows_ok_insert.
    + intros k v Hv. apply lookup_app_Some in Hv as [Hv|[Hk Hv]].
      * rewrite list_lookup_insert_ne; [by apply Hholds|]. apply lookup_lt_Some in Hv. lia.
      * apply list_lookup_singleton_Some in Hv as [Hk' <-]. assert (k = length h) as -> by lia.
        rewrite list_lookup_insert_eq; [by eauto|]. destruct Hrows as [-> _]. done.
  - wbind. eapply wp_mono; [apply (shift_history s h); [done|lia|done]|].
    intros _ s' (hist & -> & Hok & Hsh).
    eapply (wp_put_history _ _ _ w); cbn [set_history history]; try apply Hok; try done.
    { destruct Hok as [-> _]. unfold HISTORY_SIZE. lia. }
    intros row Hcs Hlen. rewrite remember_full by lia.
    exists (<[(HISTORY_SIZE - 1)%nat := row]> hist).
    assert (Hl : length (drop 1 h) = (HISTORY_SIZE - 1)%nat) by (rewrite length_drop; lia).
    split_and!.
    + assert (Hc : length (drop 1 h ++ [w]) = history_count s).
      { rewrite length_app, Hl, Hcount. cbn [length]. unfold HISTORY_SIZE in *. lia. }
      by rewrite Hc.
    + by apply rows_ok_insert.
    + intros k v Hv. apply lookup_app_Some in Hv as [Hv|[Hk Hv]].
      * pose proof (lookup_lt_Some _ _ _ Hv) as Hk. rewrite lookup_drop in Hv.
        split; [by eapply Hholds|]. rewrite list_lookup_insert_ne by lia.
        apply Hsh; [lia|done].
      * apply list_lookup_singleton_Some in Hv as [Hk' <-].
        assert (k = (HISTORY_SIZE - 1)%nat) as -> by lia.
        rewrite list_lookup_insert_eq; [by eauto|]. destruct Hok as [-> _]. unfold HISTORY_SIZE. lia.
Qed.

(** * Each key *)

Lemma enter_rel s a : rel s a ->
  wp never enter s (fun _ s' => rel s' (a_enter a) /\ cstring (buf s') (cut (text a))).
Proof.
  intros R. destruct R. unfold enter. wstep. wbind. rewrite r_i0.
  apply wp_put_buf; [lia|]. destruct (cut_cstring (buf s) (length (text a)) ltac:(lia)) as [Hcs Hcl].
  rewrite r_text0 in Hcs, Hcl.
  assert (Hkeep : take (length (text a)) (<[length (text a) := 0]> (buf s)) = text a).
  { by rewrite take_insert_ge by lia. }
  destruct (text a) as [|c t] eqn:Et.
  - cbn [length Nat.ltb Nat.leb]. wbind. apply wp_ret. apply wp_modify.
    unfold a_enter. rewrite Et. split; [|done].
    split; cbn [set_index set_buf buf i history history_count history_index text lines sel]; try done; try lia.
    by rewrite length_insert.
  - rewrite (proj2 (Nat.ltb_lt _ _)) by (cbn; lia). rewrite <- Et in *.
    apply wp_bind. eapply wp_mono.
    { apply (add_history _ (lines a) (cut (text a))); try done. lia. }
    intros _ s' (hist & -> & [Hlen Hrows] & Hh). apply wp_modify.
    unfold a_enter. rewrite Et. rewrite <- Et. split; [|done].
    split; cbn [set_index set_history set_buf buf i history history_count history_index text lines sel]; try done; try lia.
    + by rewrite length_insert.
    + by apply length_remember.
Qed.

Lemma recall_rel s a w : rel s a -> 0 <= sel a -> lines a !! Z.to_nat (sel a) = Some w ->
  wp never recall s (fun _ s' => rel s' (Aed w (lines a) (sel a))).
Proof.
  intros R Hs Hw. destruct R. destruct (r_lines0 _ _ Hw) as [Hl (row & Hrow & Hcs)].
  unfold recall. wstep. wstep. rewrite r_sel0, (proj2 (Z.ltb_ge _ _)) by done.
  wbind. eapply wp_try; [exact Hrow|]. wstep.
  wbind. eapply wp_try; [apply (strcpy_cstring w); [done|lia]|].
  assert (Hcs' : cstring (w ++ 0 :: drop (S (length w)) (buf s)) w) by (split; [apply Hcs|eauto]).
  wbind. eapply wp_try; [by apply strlen_cstring|]. apply wp_modify.
  split; cbn [set_buf buf i history history_count history_index text lines sel]; try done.
  - rewrite length_app. cbn [length]. rewrite length_drop. lia.
  - by rewrite Nat2Z.id.
  - by rewrite take_app_length.
Qed.

Lemma rel_index s a x : rel s a -> -1 <= x <= Z.of_nat (length (lines a)) ->
  rel (set_index x s) (Aed (text a) (lines a) x).
Proof. intros R Hx. destruct R. split; cbn; try done; lia. Qed.

Lemma arrow_up_rel s a : rel s a -> wp never arrow_up s (fun _ s' => rel s' (a_up a)).
Proof.
  intros R. pose proof R as []. unfold arrow_up. wstep. wstep. rewrite r_sel0, r_count0. unfold a_up.
  destruct (Z.ltb_spec 0 (sel a)) as [Hp|Hp]; [|rewrite andb_false_r; by apply wp_ret].
  rewrite (proj2 (Nat.ltb_lt _ _)) by lia. cbn [andb]. wbind. apply wp_modify.
  destruct (lookup_lt_is_Some_2 (lines a) (Z.to_nat (sel a - 1)) ltac:(lia)) as [w Hw]. rewrite Hw.
  apply (recall_rel _ (Aed (text a) (lines a) (sel a - 1))); [|cbn; lia|done].
  apply rel_index; [done|lia].
Qed.

Lemma arrow_down_rel s a : rel s a -> wp never arrow_down s (fun _ s' => rel s' (a_down a)).
Proof.
  intros R. pose proof R as []. unfold arrow_down. wstep. wstep. rewrite r_sel0, r_count0. unfold a_down.
  destruct (Z.ltb_spec (sel a) (Z.of_nat (length (lines a)) - 1)) as [Hp|Hp].
  - wbind. apply wp_modify.
    destruct (lookup_lt_is_Some_2 (lines a) (Z.to_nat (sel a + 1)) ltac:(lia)) as [w Hw]. rewrite Hw.
    apply (recall_rel _ (Aed (text a) (lines a) (sel a + 1))); [|cbn; lia|done].
    apply rel_index; [done|lia].
  - rewrite (lookup_ge_None_2 (lines a)) by lia.
    destruct (Z.eqb_spec (sel a) (Z.of_nat (length (lines a)) - 1)) as [He|He]; [|by apply wp_ret].
    wbind. apply wp_modify. wbind. apply wp_put_buf; [cbn; rewrite r_buf0; unfold CMD_BUF_SIZE; lia|].
    apply wp_modify.
    split; cbn [set_buf set_index buf i history history_count history_index text lines sel]; try done; try lia.
    + by rewrite length_insert.
    + cbn. unfold CMD_BUF_SIZE. lia.
Qed.

Lemma backspace_rel s a : rel s a -> wp never backspace s (fun _ s' => rel s' (a_back a)).
Proof.
  intros R. destruct R. unfold backspace. apply wp_modify. unfold a_back.
  assert (Hl : length (take (length (text a) - 1) (text a)) = (length (text a) - 1)%nat)
    by (rewrite length_take; lia).
  split; cbn [set_buf buf i history history_count history_index text lines sel]; try done; try lia.
  rewrite Hl. transitivity (take (length (text a) - 1) (take (length (text a)) (buf s))).
  - rewrite take_take. f_equal. lia.
  - by rewrite r_text0.
Qed.

Lemma type_char_rel c s a : rel s a -> wp never (type_char c) s (fun _ s' => rel s' (a_type c a)).
Proof.
  intros R. pose proof R as []. unfold type_char. wstep. rewrite r_i0. unfold a_type.
  destruct (Nat.ltb_spec (length (text a)) (CMD_BUF_SIZE - 1)) as [Hl|Hl]; [|by apply wp_ret].
  wbind. apply wp_put_buf; [lia|]. apply wp_modify.
  split; cbn [set_buf buf i history history_count history_index text lines sel]; try done; try lia.
  - by rewrite length_insert.
  - rewrite length_app. cbn. lia.
  - rewrite length_app. cbn [length]. lia.
  - rewrite length_app. cbn [length]. rewrite Nat.add_1_r.
    erewrite take_S_r by (apply list_lookup_insert_eq; lia). rewrite take_insert_ge by lia.
    by rewrite r_text0.
Qed.

Lemma getcmd_loop_rel n : forall input s a, (length input <= n)%nat -> rel s a ->
  wp never (getcmd_loop input) s (fun r s' =>
    exists a', edit input a = (fst r, snd r, a') /\ rel s' a' /\
      (fst r = true -> cstring (buf s') (cut (text a')))).
Proof.
  induction n as [|n IH]; intros [|c input] s a Hn R; cbn [length] in Hn; try lia; cbn [getcmd_loop edit];
    try (apply wp_ret; exists a; done).
  destruct ((c =? 10) || (c =? 13)).
  { wbind. eapply wp_mono; [by apply enter_rel|]. intros _ s' [R' Hcs]. apply wp_ret. by eexists. }
  destruct ((c =? 8) || (c =? 127)).
  { wbind. eapply wp_mono; [by apply backspace_rel|]. intros u s' R'. apply (IH input s' (a_back a)); [lia|exact R']. }
  destruct (c =? 27).
  { destruct input as [|s0 [|s1 input]]; try (apply wp_ret; exists a; done). cbn [length] in Hn.
    apply wp_bind. eapply wp_mono with (Q := fun _ s' => rel s'
      (if s0 =? 91 then if s1 =? 65 then a_up a else if s1 =? 66 then a_down a else a else a)).
    2:{ intros _ s' R'. apply IH; [lia|exact R']. }
    destruct (s0 =? 91); [|by apply wp_ret].
    destruct (s1 =? 65); [by apply arrow_up_rel|].
    destruct (s1 =? 66); [by apply arrow_down_rel|by apply wp_ret]. }
  wbind. eapply wp_mono; [by apply type_char_rel|]. intros u s' R'. apply (IH input s' (a_type c a)); [lia|exact R'].
Qed.

Lemma rel_start s a : rel s a ->
  rel (set_buf (replicate CMD_BUF_SIZE 0) 0 s) (Aed [] (lines a) (sel a)).
Proof.
  intros R. destruct R. split; cbn [set_buf buf i history history_count history_index text lines sel]; try done.
  cbn. unfold CMD_BUF_SIZE. lia.
Qed.

Lemma rel_ed0 : rel ed0 (Aed [] [] (-1)).
Proof.
  split; cbn [ed0 buf i history history_count history_index text lines sel length]; try done; try lia.
  - unfold CMD_BUF_SIZE. lia.
  - by apply Forall_replicate.
Qed.

(** C36. [getcmd] refines the abstract editor: from any state reached by earlier calls and
    for every input it returns, without an access outside [buf] or [history], having
    consumed the same bytes as the editor and with the same text, history and selection.
    When a newline ended the line, [buf] is the C string of the text, and the result is
    [-1] exactly when that text is empty. *)
Theorem getcmd_refines_editor (input : list Z) (s : ed) (a : aed) :
  rel s a ->
  wp never (getcmd input) s (fun r s' =>
    exists a', edit input (Aed [] (lines a) (sel a)) = (fst (snd r), snd (snd r), a') /\ rel s' a' /\
      (fst (snd r) = true -> cstring (buf s') (cut (text a')) /\ (fst r = -1 <-> text a' = []))).
Proof.
  intros R. unfold getcmd. wbind. apply wp_modify.
  wbind. eapply wp_mono; [apply (getcmd_loop_rel (length input)); [done|by apply rel_start]|].
  intros r s' (a' & He & R' & Hcs). pose proof R' as []. wstep. wstep.
  destruct (lookup_lt_is_Some_2 (buf s') 0 ltac:(rewrite r_buf0; unfold CMD_BUF_SIZE; lia)) as [b0 Hb0].
  wbind. eapply wp_try; [exact Hb0|]. apply wp_ret. cbn [fst snd]. exists a'. split_and!; [done|done|].
  intros Hend. specialize (Hcs Hend). split; [done|]. rewrite r_i0.
  destruct (text a') as [|c t] eqn:Et; cbn [length Nat.eqb]; [|by rewrite andb_false_r].
  destruct Hcs as [_ [x Hx]]. rewrite Hx in Hb0. cbn in Hb0. simplify_eq. done.
Qed.

(** The first command [a]; the byte after it is left for the next call. *)
Lemma getcmd_refines_editor_witness :
  wp never (getcmd [97; 10; 98]) ed0 (fun r s' =>
    exists a', edit [97; 10; 98] (Aed [] [] (-1)) = (fst (snd r), snd (snd r), a') /\ rel s' a' /\
      (fst (snd r) = true -> cstring (buf s') (cut (text a')) /\ (fst r = -1 <-> text a' = []))).
Proof. apply (getcmd_refines_editor [97; 10; 98] ed0 (Aed [] [] (-1))), rel_ed0. Defined.
