(* ===== verification/File.v ===== *)
(** [file.c], [pipealloc] of [pipe.c] and [syscall.c]: open files, the descriptors of the
    processes, and the fetching of system call arguments.

    The state has the file system of Fs.v below it, the table of open files, the pipes
    that are in use, and for every process its descriptors, its current directory and
    its memory. A file pointer is an index into [ftable.file], a pipe pointer the number
    of the pipe. A call that would sleep is the outcome [Block]. *)

From stdpp Require Import gmap.
From S2P Require Import Prelude CString Mmu Pipe Cache Log Fs.

Definition NOFILE : nat := 16.
Definition NFILE : nat := 100.

Inductive ftype := FD_NONE | FD_PIPE | FD_INODE.

#[export] Instance ftype_eq_dec : EqDecision ftype.
Proof. solve_decision. Defined.

(** [struct file] *)
Record file := File {
  f_type : ftype;
  f_ref : Z;
  f_readable : bool;
  f_writable : bool;
  f_pipe : nat;
  f_ip : nat;
  f_off : Z
}.

Definition set_f_ref (v : Z) (f : file) : file :=
  File (f_type f) v (f_readable f) (f_writable f) (f_pipe f) (f_ip f) (f_off f).
Definition set_f_off (v : Z) (f : file) : file :=
  File (f_type f) (f_ref f) (f_readable f) (f_writable f) (f_pipe f) (f_ip f) v.

(** The parts of [struct proc] that the system calls on files use: [ofile], [cwd], [sz],
    the user memory, [tf->esp], [killed] and [pid]. *)
Record uproc := Uproc {
  u_ofile : list (option nat);
  u_cwd : nat;
  u_sz : Z;
  u_mem : mem;
  u_esp : Z;
  u_killed : bool;
  u_pid : Z
}.

Definition set_u_ofile (v : list (option nat)) (p : uproc) : uproc :=
  Uproc v (u_cwd p) (u_sz p) (u_mem p) (u_esp p) (u_killed p) (u_pid p).
Definition set_u_cwd (v : nat) (p : uproc) : uproc :=
  Uproc (u_ofile p) v (u_sz p) (u_mem p) (u_esp p) (u_killed p) (u_pid p).
Definition set_u_mem (v : mem) (p : uproc) : uproc :=
  Uproc (u_ofile p) (u_cwd p) (u_sz p) v (u_esp p) (u_killed p) (u_pid p).

Record sys (S : Type) := Sys {
  y_fs : fs S;
  y_ftable : list file;
  y_pipes : gmap nat pipe;
  y_procs : list uproc
}.
Arguments Sys {S} y_fs y_ftable y_pipes y_procs.
Arguments y_fs {S} s.
Arguments y_ftable {S} s.
Arguments y_pipes {S} s.
Arguments y_procs {S} s.

Section file.
Context {S : Type} `{!Cache S}.
Local Abbreviation Y := (M (sys S)).

(** A part of the kernel below. *)
Definition on_fs {A} (m : M (fs S) A) : Y A := fun s =>
  match m (y_fs s) with
  | Ret (a, f) => Ret (a, Sys f (y_ftable s) (y_pipes s) (y_procs s))
  | Panic e => Panic e | Block => Block | Fault => Fault | NoFuel => NoFuel
  end.

Definition get_f (f : nat) : Y file := fun s =>
  match y_ftable s !! f with Some x => Ret (x, s) | None => Fault end.
Definition put_f (f : nat) (x : file) : Y unit :=
  modify (fun s => Sys (y_fs s) (<[f := x]> (y_ftable s)) (y_pipes s) (y_procs s)).
Definition get_pipe (k : nat) : Y pipe := fun s =>
  match y_pipes s !! k with Some p => Ret (p, s) | None => Fault end.
Definition set_pipes (g : gmap nat pipe -> gmap nat pipe) : Y unit :=
  modify (fun s => Sys (y_fs s) (y_ftable s) (g (y_pipes s)) (y_procs s)).

(** The process that makes the call. *)
Context (cur : nat).

Definition myproc : Y uproc := fun s =>
  match y_procs s !! cur with Some p => Ret (p, s) | None => Fault end.
Definition upd_proc (g : uproc -> uproc) : Y unit := fun s =>
  match y_procs s !! cur with
  | Some p => Ret (tt, Sys (y_fs s) (y_ftable s) (y_pipes s) (<[cur := g p]> (y_procs s)))
  | None => Fault
  end.

(** * file.c *)

(** The file, or [None] for null. *)
Definition filealloc : Y (option nat) :=
  let* t := gets y_ftable in
  match findi (fun f => f_ref f =? 0) t with
  | Some i =>
      let* x := get_f i in
      put_f i (set_f_ref 1 x) ;;;
      ret (Some i)
  | None => ret None
  end.

Definition filedup (f : nat) : Y nat :=
  let* x := get_f f in
  if f_ref x <? 1 then panic "filedup"
  else put_f f (set_f_ref (f_ref x + 1) x) ;;; ret f.

(** [pipeclose] of Pipe.v on pipe [k]; its page is freed when both ends are closed. *)
Definition close_pipe (k : nat) (writable : bool) : Y unit :=
  let* p := get_pipe k in
  let '(p, _, freed) := pipeclose writable p in
  set_pipes (fun m => if freed : bool then delete k m else <[k := p]> m).

Definition fileclose (f : nat) : Y unit :=
  let* x := get_f f in
  if f_ref x <? 1 then panic "fileclose"
  else
    put_f f (set_f_ref (f_ref x - 1) x) ;;;
    if 0 <? f_ref x - 1 then ret tt
    else
      put_f f (File FD_NONE 0 (f_readable x) (f_writable x) (f_pipe x) (f_ip x) (f_off x)) ;;;
      match f_type x with
      | FD_PIPE => close_pipe (f_pipe x) (f_writable x)
      | FD_INODE =>
          on_fs (on_low begin_op) ;;;
          let* p := myproc in
          on_fs (iput (u_pid p) (f_ip x)) ;;;
          on_fs (on_low end_op)
      | FD_NONE => ret tt
      end.

Definition filestat (f : nat) : Y (option stat) :=
  let* x := get_f f in
  let* p := myproc in
  match f_type x with
  | FD_INODE =>
      on_fs (ilock (u_pid p) (f_ip x)) ;;;
      let* st := on_fs (stati (f_ip x)) in
      on_fs (iunlock (u_pid p) (f_ip x)) ;;;
      ret (Some st)
  | _ => ret None
  end.

Context (dev_read : Z -> option (nat -> Z -> M (fs S) (Z * list Z))).
Context (dev_write : Z -> option (nat -> list Z -> Z -> M (fs S) Z)).

(** The result and the bytes stored at [addr]. *)
Definition fileread (f : nat) (n : Z) : Y (Z * list Z) :=
  let* x := get_f f in
  let* p := myproc in
  if negb (f_readable x) then ret (-1, [])
  else
    match f_type x with
    | FD_PIPE =>
        let* q := get_pipe (f_pipe x) in
        match piperead (u_killed p) n q with
        | (RRet r l, _, q) => set_pipes <[f_pipe x := q]> ;;; ret (r, l)
        | (RSleep, _, _) => block
        end
    | FD_INODE =>
        on_fs (ilock (u_pid p) (f_ip x)) ;;;
        let* r := on_fs (readi dev_read (f_ip x) (f_off x) n) in
        (if 0 <? fst r then
           let* x := get_f f in put_f f (set_f_off (u32 (f_off x + fst r)) x)
         else ret tt) ;;;
        on_fs (iunlock (u_pid p) (f_ip x)) ;;;
        ret r
    | FD_NONE => panic "fileread"
    end.

(** [((MAXOPBLOCKS-1-1-2) / 2) * 512] *)
Definition write_max : Z := ((10 - 1 - 1 - 2) / 2) * 512.

(** The loop of [filewrite], at byte [i]: the final [i]. *)
Fixpoint filewrite_loop (fuel : nat) (f : nat) (src : list Z) (i n : Z) : Y Z :=
  if i <? n then
    match fuel with
    | O => fun _ => NoFuel
    | Datatypes.S fuel =>
        let n1 := if write_max <? n - i then write_max else n - i in
        let* p := myproc in
        on_fs (on_low begin_op) ;;;
        let* x := get_f f in
        on_fs (ilock (u_pid p) (f_ip x)) ;;;
        let* r := on_fs (writei dev_write (f_ip x) (drop (Z.to_nat i) src) (f_off x) n1) in
        (if 0 <? r then put_f f (set_f_off (u32 (f_off x + r)) x) else ret tt) ;;;
        on_fs (iunlock (u_pid p) (f_ip x)) ;;;
        on_fs (on_low end_op) ;;;
        if r <? 0 then ret i
        else if negb (r =? n1) then panic "short filewrite"
        else filewrite_loop fuel f src (i + r) n
    end
  else ret i.

(** [src] are the bytes from [addr] on. *)
Definition filewrite (f : nat) (src : list Z) (n : Z) : Y Z :=
  let* x := get_f f in
  let* p := myproc in
  if negb (f_writable x) then ret (-1)
  else
    match f_type x with
    | FD_PIPE =>
        let* q := get_pipe (f_pipe x) in
        match pipewrite (u_killed p) (take (Z.to_nat n) src) q with
        | (WRet r, _, q) => set_pipes <[f_pipe x := q]> ;;; ret r
        | (WSleep _ _, _, _) => block
        end
    | FD_INODE =>
        let* i := filewrite_loop (Z.to_nat n) f src 0 n in
        ret (if i =? n then n else -1)
    | FD_NONE => panic "filewrite"
    end.

(** * pipealloc *)

(** [page] is the content of the page [kalloc] returns, [None] when it is out of memory. *)
Definition pipealloc (page : option (list Z)) : Y (option (nat * nat)) :=
  let bad (f0 f1 : option nat) : Y (option (nat * nat)) :=
    (match f0 with Some f => fileclose f | None => ret tt end) ;;;
    (match f1 with Some f => fileclose f | None => ret tt end) ;;;
    ret None in
  let* f0 := filealloc in
  match f0 with
  | None => bad None None
  | Some a =>
      let* f1 := filealloc in
      match f1, page with
      | Some b, Some page =>
          let* m := gets y_pipes in
          let k := fresh (dom m) in
          set_pipes <[k := pipe_init page]> ;;;
          let* x := get_f a in
          put_f a (File FD_PIPE (f_ref x) true false k (f_ip x) (f_off x)) ;;;
          let* x := get_f b in
          put_f b (File FD_PIPE (f_ref x) false true k (f_ip x) (f_off x)) ;;;
          ret (Some (a, b))
      | _, _ => bad f0 f1
      end
  end.

(** * syscall.c: arguments *)

(** [None] is the result -1. *)
Definition fetchint (addr : Z) : Y (option Z) :=
  let* p := myproc in
  if (u_sz p <=? addr) || (u_sz p <? u32 (addr + 4)) then ret None
  else ret (Some (s32 (load32 (u_mem p) addr))).

(** [n] bytes from [a] on. *)
Definition bytes_at (m : mem) (a : Z) (n : nat) : list Z := (fun j => m (a + Z.of_nat j)) <$> seq 0 n.

(** The scan of [fetchstr], with [n] bytes up to [ep]: the length of the string. *)
Fixpoint scan_nul (m : mem) (a : Z) (n : nat) : option nat :=
  match n with
  | O => None
  | Datatypes.S n => if m a =? 0 then Some O else Datatypes.S <$> scan_nul m (a + 1) n
  end.

(** The length, and the string with its NUL that [*pp] points to. *)
Definition fetchstr (addr : Z) : Y (option (Z * list Z)) :=
  let* p := myproc in
  if u_sz p <=? addr then ret None
  else
    match scan_nul (u_mem p) addr (Z.to_nat (u_sz p - addr)) with
    | Some n => ret (Some (Z.of_nat n, bytes_at (u_mem p) addr (Datatypes.S n)))
    | None => ret None
    end.

Definition argint (n : Z) : Y (option Z) :=
  let* p := myproc in
  fetchint (u32 (u_esp p + 4 + 4 * n)).

Definition argptr (n size : Z) : Y (option Z) :=
  let* i := argint n in
  match i with
  | None => ret None
  | Some i =>
      let* p := myproc in
      if (size <? 0) || (u_sz p <=? u32 i) || (u_sz p <? u32 (u32 i + size)) then ret None
      else ret (Some (u32 i))
  end.

Definition argstr (n : Z) : Y (option (list Z)) :=
  let* a := argint n in
  match a with
  | None => ret None
  | Some addr =>
      let* r := fetchstr (u32 addr) in
      ret (snd <$> r)
  end.

End file.
