(* ===== verification/Sysfile.v ===== *)
(** [sysfile.c]: the system calls on files and directories, and the dispatch of
    [syscall.c] for them.

    A system call returns the value that goes to [tf->eax]. *)

From stdpp Require Import gmap.
From S2P Require Import Prelude CString Mmu Pipe Sh Cache Log Fs File.

Section sysfile.
Context {S : Type} `{!Cache S}.
Local Abbreviation Y := (M (sys S)).
Context (cur : nat).
Context (dev_read : Z -> option (nat -> Z -> M (fs S) (Z * list Z))).
Context (dev_write : Z -> option (nat -> list Z -> Z -> M (fs S) Z)).
(** The page that [kalloc] would return to [pipealloc]. *)
Context (page : option (list Z)).

(** The descriptor and its file. *)
Definition argfd (n : Z) : Y (option (nat * nat)) :=
  let* i := argint cur n in
  match i with
  | None => ret None
  | Some fd =>
      let* p := myproc cur in
      if (fd <? 0) || (Z.of_nat NOFILE <=? fd) then ret None
      else
        match u_ofile p !! Z.to_nat fd with
        | Some (Some f) => ret (Some (Z.to_nat fd, f))
        | Some None => ret None
        | None => fault
        end
  end.

Definition set_fd (fd : nat) (v : option nat) : Y unit :=
  upd_proc cur (fun p => set_u_ofile (<[fd := v]> (u_ofile p)) p).

Definition fdalloc (f : nat) : Y (option nat) :=
  let* p := myproc cur in
  match findi (fun o => match o with None => true | Some _ => false end) (u_ofile p) with
  | Some fd => set_fd fd (Some f) ;;; ret (Some fd)
  | None => ret None
  end.

Definition sys_dup : Y Z :=
  let* a := argfd 0 in
  match a with
  | None => ret (-1)
  | Some (_, f) =>
      let* fd := fdalloc f in
      match fd with
      | None => ret (-1)
      | Some fd => filedup f ;;; ret (Z.of_nat fd)
      end
  end.

(** Bytes stored in the memory of the process. *)
Fixpoint store_bytes (m : mem) (a : Z) (l : list Z) : mem :=
  match l with [] => m | b :: l => store_bytes (mupd m a b) (a + 1) l end.
Definition write_user (a : Z) (l : list Z) : Y unit :=
  upd_proc cur (fun p => set_u_mem (store_bytes (u_mem p) a l) p).

(** The arguments of [read] and [write]. *)
Definition rw_args : Y (option (nat * Z * Z)) :=
  let* a := argfd 0 in
  match a with
  | None => ret None
  | Some (_, f) =>
      let* n := argint cur 2 in
      match n with
      | None => ret None
      | Some n =>
          let* p := argptr cur 1 n in
          match p with
          | None => ret None
          | Some p => ret (Some (f, n, p))
          end
      end
  end.

Definition sys_read : Y Z :=
  let* a := rw_args in
  match a with
  | None => ret (-1)
  | Some (f, n, p) =>
      let* r := fileread cur dev_read f n in
      write_user p (snd r) ;;;
      ret (fst r)
  end.

Definition sys_write : Y Z :=
  let* a := rw_args in
  match a with
  | None => ret (-1)
  | Some (f, n, p) =>
      let* q := myproc cur in
      filewrite cur dev_write f (bytes_at (u_mem q) p (Z.to_nat n)) n
  end.

Definition sys_close : Y Z :=
  let* a := argfd 0 in
  match a with
  | None => ret (-1)
  | Some (fd, f) => set_fd fd None ;;; fileclose cur f ;;; ret 0
  end.

(** [struct stat]: type, dev, ino, nlink, size at offsets 0, 4, 8, 12, 16. *)
Definition stat_bytes (st : stat) (old : list Z) : list Z :=
  splice (splice (splice (splice (splice old 0 (le_bytes 2 (st_type st))) 4 (le_bytes 4 (st_dev st)))
    8 (le_bytes 4 (st_ino st))) 12 (le_bytes 2 (st_nlink st))) 16 (le_bytes 4 (st_size st)).
Definition STAT : Z := 20.

Definition sys_fstat : Y Z :=
  let* a := argfd 0 in
  match a with
  | None => ret (-1)
  | Some (_, f) =>
      let* st := argptr cur 1 STAT in
      match st with
      | None => ret (-1)
      | Some st =>
          let* r := filestat cur f in
          match r with
          | None => ret (-1)
          | Some v =>
              let* p := myproc cur in
              write_user st (stat_bytes v (bytes_at (u_mem p) st (Z.to_nat STAT))) ;;;
              ret 0
          end
      end
  end.

Definition begin_op' : Y unit := on_fs (on_low begin_op).
Definition end_op' : Y unit := on_fs (on_low end_op).

Definition sys_link : Y Z :=
  let* old := argstr cur 0 in
  match old with
  | None => ret (-1)
  | Some old =>
  let* new := argstr cur 1 in
  match new with
  | None => ret (-1)
  | Some new =>
  let* p := myproc cur in
  begin_op' ;;;
  let* ip := on_fs (namei (u_pid p) dev_read (u_cwd p) old) in
  match ip with
  | None => end_op' ;;; ret (-1)
  | Some ip =>
      on_fs (ilock (u_pid p) ip) ;;;
      let* i := on_fs (get_i ip) in
      if i_type i =? T_DIR then on_fs (iunlockput (u_pid p) ip) ;;; end_op' ;;; ret (-1)
      else
        on_fs (upd_i ip (fun i => set_i_nlink (s16 (i_nlink i + 1)) i)) ;;;
        on_fs (iupdate ip) ;;;
        on_fs (iunlock (u_pid p) ip) ;;;
        let bad : Y Z :=
          on_fs (ilock (u_pid p) ip) ;;;
          on_fs (upd_i ip (fun i => set_i_nlink (s16 (i_nlink i - 1)) i)) ;;;
          on_fs (iupdate ip) ;;;
          on_fs (iunlockput (u_pid p) ip) ;;;
          end_op' ;;; ret (-1) in
        let* d := on_fs (nameiparent (u_pid p) dev_read (u_cwd p) new (replicate (Z.to_nat DIRSIZ) 0)) in
        match d with
        | None => bad
        | Some (dp, name) =>
            on_fs (ilock (u_pid p) dp) ;;;
            let* j := on_fs (get_i dp) in
            let* i := on_fs (get_i ip) in
            let* r := (if negb (i_dev j =? i_dev i) then ret (-1)
                       else on_fs (dirlink (u_pid p) dev_read dev_write dp name (i_inum i))) in
            if r <? 0 then on_fs (iunlockput (u_pid p) dp) ;;; bad
            else
              on_fs (iunlockput (u_pid p) dp) ;;;
              on_fs (iput (u_pid p) ip) ;;;
              end_op' ;;; ret 0
        end
  end end end.

Fixpoint isdirempty_loop (fuel : nat) (dp : nat) (off : Z) : Y bool :=
  let* i := on_fs (get_i dp) in
  if off <? i_size i then
    match fuel with
    | O => fun _ => NoFuel
    | Datatypes.S fuel =>
        let* r := on_fs (readi dev_read dp off DIRENT) in
        if negb (fst r =? DIRENT) then panic "isdirempty: readi"
        else if negb (de_inum (snd r) =? 0) then ret false
        else isdirempty_loop fuel dp (off + DIRENT)
    end
  else ret true.

Definition isdirempty (dp : nat) : Y bool :=
  let* i := on_fs (get_i dp) in
  isdirempty_loop (Z.to_nat (i_size i)) dp (2 * DIRENT).

Definition name_is (name s : list Z) : Y bool :=
  match namecmp name s with Some c => ret (c =? 0) | None => fault end.
Definition dot_name : list Z := [46; 0].
Definition dotdot_name : list Z := [46; 46; 0].

Definition sys_unlink : Y Z :=
  let* path := argstr cur 0 in
  match path with
  | None => ret (-1)
  | Some path =>
  let* p := myproc cur in
  begin_op' ;;;
  let* d := on_fs (nameiparent (u_pid p) dev_read (u_cwd p) path (replicate (Z.to_nat DIRSIZ) 0)) in
  match d with
  | None => end_op' ;;; ret (-1)
  | Some (dp, name) =>
      on_fs (ilock (u_pid p) dp) ;;;
      let bad : Y Z := on_fs (iunlockput (u_pid p) dp) ;;; end_op' ;;; ret (-1) in
      let* c1 := name_is name dot_name in
      let* c2 := (if (c1 : bool) then ret true else name_is name dotdot_name) in
      if (c2 : bool) then bad
      else
        let* r := on_fs (dirlookup dev_read dp name) in
        match r with
        | None => bad
        | Some (ip, off) =>
            on_fs (ilock (u_pid p) ip) ;;;
            let* i := on_fs (get_i ip) in
            if i_nlink i <? 1 then panic "unlink: nlink < 1"
            else
              let* empty := (if i_type i =? T_DIR then isdirempty ip else ret true) in
              if negb empty then on_fs (iunlockput (u_pid p) ip) ;;; bad
              else
                let* n := on_fs (writei dev_write dp (replicate (Z.to_nat DIRENT) 0) off DIRENT) in
                if negb (n =? DIRENT) then panic "unlink: writei"
                else
                  (if i_type i =? T_DIR then
                     on_fs (upd_i dp (fun j => set_i_nlink (s16 (i_nlink j - 1)) j)) ;;;
                     on_fs (iupdate dp)
                   else ret tt) ;;;
                  on_fs (iunlockput (u_pid p) dp) ;;;
                  on_fs (upd_i ip (fun i => set_i_nlink (s16 (i_nlink i - 1)) i)) ;;;
                  on_fs (iupdate ip) ;;;
                  on_fs (iunlockput (u_pid p) ip) ;;;
                  end_op' ;;; ret 0
        end
  end end.

(** The inode, locked, or [None] for null. *)
Definition create (path : list Z) (type major minor : Z) : Y (option nat) :=
  let* p := myproc cur in
  let* d := on_fs (nameiparent (u_pid p) dev_read (u_cwd p) path (replicate (Z.to_nat DIRSIZ) 0)) in
  match d with
  | None => ret None
  | Some (dp, name) =>
      on_fs (ilock (u_pid p) dp) ;;;
      let* r := on_fs (dirlookup dev_read dp name) in
      match r with
      | Some (ip, _) =>
          on_fs (iunlockput (u_pid p) dp) ;;;
          on_fs (ilock (u_pid p) ip) ;;;
          let* i := on_fs (get_i ip) in
          if (type =? T_FILE) && (i_type i =? T_FILE) then ret (Some ip)
          else on_fs (iunlockput (u_pid p) ip) ;;; ret None
      | None =>
          let* j := on_fs (get_i dp) in
          let* ip := on_fs (ialloc (i_dev j) type) in
          on_fs (ilock (u_pid p) ip) ;;;
          on_fs (upd_i ip (set_i_dev (s16 major) (s16 minor) 1)) ;;;
          on_fs (iupdate ip) ;;;
          let* i := on_fs (get_i ip) in
          (if type =? T_DIR then
             on_fs (upd_i dp (fun j => set_i_nlink (s16 (i_nlink j + 1)) j)) ;;;
             on_fs (iupdate dp) ;;;
             let* a := on_fs (dirlink (u_pid p) dev_read dev_write ip dot_name (i_inum i)) in
             let* b := (if a <? 0 then ret a
                        else on_fs (dirlink (u_pid p) dev_read dev_write ip dotdot_name (i_inum j))) in
             if b <? 0 then panic "create dots" else ret tt
           else ret tt) ;;;
          let* r := on_fs (dirlink (u_pid p) dev_read dev_write dp name (i_inum i)) in
          if r <? 0 then panic "create: dirlink"
          else on_fs (iunlockput (u_pid p) dp) ;;; ret (Some ip)
      end
  end.

Definition sys_open : Y Z :=
  let* path := argstr cur 0 in
  match path with
  | None => ret (-1)
  | Some path =>
  let* omode := argint cur 1 in
  match omode with
  | None => ret (-1)
  | Some omode =>
  let* p := myproc cur in
  begin_op' ;;;
  let* ip :=
    (if negb (Z.land omode O_CREATE =? 0) then create path T_FILE 0 0
     else
       let* ip := on_fs (namei (u_pid p) dev_read (u_cwd p) path) in
       match ip with
       | None => ret None
       | Some ip =>
           on_fs (ilock (u_pid p) ip) ;;;
           let* i := on_fs (get_i ip) in
           if (i_type i =? T_DIR) && negb (omode =? O_RDONLY) then
             on_fs (iunlockput (u_pid p) ip) ;;; ret None
           else ret (Some ip)
       end) in
  match ip with
  | None => end_op' ;;; ret (-1)
  | Some ip =>
      let* f := filealloc in
      let* fd := (match f with Some f => fdalloc f | None => ret None end) in
      match f, fd with
      | Some f, Some fd =>
          on_fs (iunlock (u_pid p) ip) ;;;
          end_op' ;;;
          let* x := get_f f in
          put_f f (File FD_INODE (f_ref x) (Z.land omode O_WRONLY =? 0)
                     (negb (Z.land omode O_WRONLY =? 0) || negb (Z.land omode O_RDWR =? 0))
                     (f_pipe x) ip 0) ;;;
          ret (Z.of_nat fd)
      | _, _ =>
          (match f with Some f => fileclose cur f | None => ret tt end) ;;;
          on_fs (iunlockput (u_pid p) ip) ;;;
          end_op' ;;; ret (-1)
      end
  end end end.

Definition sys_mkdir : Y Z :=
  begin_op' ;;;
  let* path := argstr cur 0 in
  let* ip := (match path with Some path => create path T_DIR 0 0 | None => ret None end) in
  match ip with
  | None => end_op' ;;; ret (-1)
  | Some ip => let* p := myproc cur in on_fs (iunlockput (u_pid p) ip) ;;; end_op' ;;; ret 0
  end.

Definition sys_mknod : Y Z :=
  begin_op' ;;;
  let* path := argstr cur 0 in
  let* ip :=
    (match path with
     | None => ret None
     | Some path =>
         let* major := argint cur 1 in
         match major with
         | None => ret None
         | Some major =>
             let* minor := argint cur 2 in
             match minor with
             | None => ret None
             | Some minor => create path T_DEV major minor
             end
         end
     end) in
  match ip with
  | None => end_op' ;;; ret (-1)
  | Some ip => let* p := myproc cur in on_fs (iunlockput (u_pid p) ip) ;;; end_op' ;;; ret 0
  end.

Definition sys_chdir : Y Z :=
  begin_op' ;;;
  let* path := argstr cur 0 in
  let* p := myproc cur in
  let* ip := (match path with
              | Some path => on_fs (namei (u_pid p) dev_read (u_cwd p) path)
              | None => ret None
              end) in
  match ip with
  | None => end_op' ;;; ret (-1)
  | Some ip =>
      on_fs (ilock (u_pid p) ip) ;;;
      let* i := on_fs (get_i ip) in
      if negb (i_type i =? T_DIR) then on_fs (iunlockput (u_pid p) ip) ;;; end_op' ;;; ret (-1)
      else
        on_fs (iunlock (u_pid p) ip) ;;;
        on_fs (iput (u_pid p) (u_cwd p)) ;;;
        end_op' ;;;
        upd_proc cur (set_u_cwd ip) ;;;
        ret 0
  end.

Definition sys_pipe : Y Z :=
  let* a := argptr cur 0 8 in
  match a with
  | None => ret (-1)
  | Some a =>
      let* r := pipealloc cur page in
      match r with
      | None => ret (-1)
      | Some (rf, wf) =>
          let* fd0 := fdalloc rf in
          let* fd1 := (match fd0 with Some _ => fdalloc wf | None => ret None end) in
          match fd0, fd1 with
          | Some fd0, Some fd1 =>
              write_user a (le_bytes 4 (Z.of_nat fd0)) ;;;
              write_user (a + 4) (le_bytes 4 (Z.of_nat fd1)) ;;;
              ret 0
          | _, _ =>
              (match fd0 with Some fd0 => set_fd fd0 None | None => ret tt end) ;;;
              fileclose cur rf ;;;
              fileclose cur wf ;;;
              ret (-1)
          end
      end
  end.

Definition MAXARG : Z := 32.

(** The loop of [sys_exec] that collects [argv]: the strings from argument [i] on. *)
Fixpoint exec_argv (fuel : nat) (uargv i : Z) : Y (option (list (list Z))) :=
  if MAXARG <=? i then ret None
  else
    match fuel with
    | O => fun _ => NoFuel
    | Datatypes.S fuel =>
        let* uarg := fetchint cur (u32 (uargv + 4 * i)) in
        match uarg with
        | None => ret None
        | Some uarg =>
            if u32 uarg =? 0 then ret (Some [])
            else
              let* s := fetchstr cur (u32 uarg) in
              match s with
              | None => ret None
              | Some (_, s) =>
                  let* rest := exec_argv fuel uargv (i + 1) in
                  ret (cons s <$> rest)
              end
        end
    end.

(** [exec] replaces the program of the process; it is a parameter here. *)
Definition sys_exec (exec : list Z -> list (list Z) -> Y Z) : Y Z :=
  let* path := argstr cur 0 in
  match path with
  | None => ret (-1)
  | Some path =>
      let* uargv := argint cur 1 in
      match uargv with
      | None => ret (-1)
      | Some uargv =>
          let* argv := exec_argv (Z.to_nat MAXARG) (u32 uargv) 0 in
          match argv with
          | None => ret (-1)
          | Some argv => exec path argv
          end
      end
  end.

(** * syscall.c: the dispatch *)

(** The calls that do not concern files are those of [other], by number. *)
Definition syscalls (exec : list Z -> list (list Z) -> Y Z) (other : Z -> Y Z) (num : Z) : option (Y Z) :=
  match num with
  | 4 => Some sys_pipe
  | 5 => Some sys_read
  | 7 => Some (sys_exec exec)
  | 8 => Some sys_fstat
  | 9 => Some sys_chdir
  | 10 => Some sys_dup
  | 15 => Some sys_open
  | 16 => Some sys_write
  | 17 => Some sys_mknod
  | 18 => Some sys_unlink
  | 19 => Some sys_link
  | 20 => Some sys_mkdir
  | 21 => Some sys_close
  | 1 | 2 | 3 | 6 | 11 | 12 | 13 | 14 | 22 | 23 => Some (other num)
  | _ => None
  end.
Definition NELEM_syscalls : Z := 24.

(** The call with number [num], [tf->eax] before; the result is [tf->eax] after. *)
Definition syscall (exec : list Z -> list (list Z) -> Y Z) (other : Z -> Y Z) (num : Z) : Y Z :=
  if (0 <? num) && (num <? NELEM_syscalls) then
    match syscalls exec other num with Some f => f | None => ret (-1) end
  else ret (-1).

(** * The descriptors in [fork] and [exit] of proc.c *)

(** [np->ofile[i] = filedup(curproc->ofile[i])] for the process [np]. *)
Definition fork_file (np i : nat) : Y unit :=
  let* p := myproc cur in
  match u_ofile p !! i with
  | Some (Some f) =>
      let* f := filedup f in
      upd_proc np (fun q => set_u_ofile (<[i := Some f]> (u_ofile q)) q)
  | Some None => ret tt
  | None => fault
  end.
Definition fork_files (np : nat) : Y unit :=
  for_up NOFILE 0 (fork_file np) ;;;
  let* p := myproc cur in
  let* ip := on_fs (idup (u_cwd p)) in
  upd_proc np (set_u_cwd ip).

(** [fileclose(curproc->ofile[fd]); curproc->ofile[fd] = 0;] *)
Definition exit_file (fd : nat) : Y unit :=
  let* p := myproc cur in
  match u_ofile p !! fd with
  | Some (Some f) => fileclose cur f ;;; set_fd fd None
  | Some None => ret tt
  | None => fault
  end.
Definition exit_files : Y unit :=
  for_up NOFILE 0 exit_file ;;;
  begin_op' ;;;
  let* p := myproc cur in
  on_fs (iput (u_pid p) (u_cwd p)) ;;;
  end_op'.

End sysfile.
