(* ===== verification/FileArgs.v ===== *)
(** The arguments of system calls: what the kernel reads for a process, or is told to
    read or write, lies inside the memory of that process. *)

From stdpp Require Import gmap.
From S2P Require Import Prelude CString Mmu Pipe Cache Bio Log Fs File Sysfile.

Section args.
Context {S : Type} `{!Cache S}.
Implicit Types (s : sys S).
Context (cur : nat).

Section proc.
Context (s : sys S) (p : uproc) (Hp : y_procs s !! cur = Some p) (Hsz : 0 <= u_sz p <= KERNBASE).

Lemma myproc_eq : myproc cur s = Ret (p, s).
Proof using Hp. unfold myproc. by rewrite Hp. Qed.

Lemma fetchint_run addr : fetchint cur addr s =
  Ret (if (u_sz p <=? addr) || (u_sz p <? u32 (addr + 4)) then None else Some (s32 (load32 (u_mem p) addr)), s).
Proof using Hp. unfold fetchint, bind. rewrite myproc_eq. by destruct (_ || _). Qed.

Lemma argint_run n : exists r, argint cur n s = Ret (r, s).
Proof using Hp. unfold argint, bind. rewrite myproc_eq, fetchint_run. by eexists. Qed.

(** The check of [fetchint] has no overflow. *)
Lemma fetchint_inside addr v s' : 0 <= addr -> fetchint cur addr s = Ret (Some v, s') ->
  s' = s /\ addr + 4 <= u_sz p /\ v = s32 (load32 (u_mem p) addr).
Proof using Hp Hsz.
  intros Ha. rewrite fetchint_run. destruct (_ || _) eqn:E; [done|]. intros H. injection H as <- <-.
  apply orb_false_iff in E as [E1 E2]. apply Z.leb_gt in E1. apply Z.ltb_ge in E2.
  rewrite u32_small in E2 by (unfold KERNBASE in Hsz; lia). done.
Qed.

(** Nor has the check of [argptr]. *)
Lemma argptr_inside n size a s' : size < 2 ^ 31 -> argptr cur n size s = Ret (Some a, s') ->
  s' = s /\ 0 <= size /\ 0 <= a /\ a + size <= u_sz p.
Proof using Hp Hsz.
  intros Hs. unfold argptr, bind. destruct (argint_run n) as [[i|] ->]; [|done]. rewrite myproc_eq.
  destruct (_ || _) eqn:E; [done|]. intros H. injection H as <- <-.
  apply orb_false_iff in E as [[E1 E2]%orb_false_iff E3].
  apply Z.ltb_ge in E1, E3. apply Z.leb_gt in E2. pose proof (u32_range i) as Hi.
  rewrite u32_small in E3 by (unfold KERNBASE in Hsz; lia). split; [done|lia].
Qed.

Lemma argptr_run n size : exists r, argptr cur n size s = Ret (r, s).
Proof using Hp.
  unfold argptr, bind. destruct (argint_run n) as [[i|] ->]; [|by eexists]. rewrite myproc_eq.
  destruct (_ || _); by eexists.
Qed.

Lemma scan_nul_spec m n : forall a k, scan_nul m a n = Some k ->
  (k < n)%nat /\ m (a + Z.of_nat k) = 0 /\ forall j, (j < k)%nat -> m (a + Z.of_nat j) <> 0.
Proof using.
  induction n as [|n IH]; intros a k H; cbn [scan_nul] in H; [done|].
  destruct (m a =? 0) eqn:E.
  - injection H as <-. rewrite Z.add_0_r. apply Z.eqb_eq in E. split_and!; [lia|done|lia].
  - apply fmap_Some in H as (k' & Hk & ->). destruct (IH _ _ Hk) as (H1 & H2 & H3).
    apply Z.eqb_neq in E. split_and!; [lia|by replace (a + Z.of_nat (Datatypes.S k')) with (a + 1 + Z.of_nat k') by lia|].
    intros [|j] Hj; [by rewrite Z.add_0_r|].
    replace (a + Z.of_nat (Datatypes.S j)) with (a + 1 + Z.of_nat j) by lia. apply H3. lia.
Qed.

(** A string with its NUL in the memory of the process. *)
Definition user_string (addr len : Z) (l : list Z) : Prop :=
  0 <= len /\ addr + len < u_sz p /\ l = bytes_at (u_mem p) addr (Z.to_nat len + 1) /\
  u_mem p (addr + len) = 0 /\ forall j, 0 <= j < len -> u_mem p (addr + j) <> 0.

Lemma fetchstr_run addr : exists r, fetchstr cur addr s = Ret (r, s).
Proof using Hp.
  unfold fetchstr, bind. rewrite myproc_eq. destruct (_ <=? _); [by eexists|].
  destruct (scan_nul _ _ _); by eexists.
Qed.

Lemma fetchstr_inside addr len l s' : fetchstr cur addr s = Ret (Some (len, l), s') ->
  s' = s /\ user_string addr len l.
Proof using Hp.
  unfold fetchstr, bind. rewrite myproc_eq. destruct (_ <=? _) eqn:E; [done|]. apply Z.leb_gt in E.
  destruct (scan_nul _ _ _) as [k|] eqn:Es; [|done]. intros H. injection H as <- <- <-.
  apply scan_nul_spec in Es as (H1 & H2 & H3). split; [done|].
  split_and!; [lia|lia| |done|].
  - rewrite Nat2Z.id. by replace (k + 1)%nat with (Datatypes.S k) by lia.
  - intros j Hj. rewrite <- (Z2Nat.id j) by lia. apply H3. lia.
Qed.

Lemma argstr_inside n l s' : argstr cur n s = Ret (Some l, s') ->
  s' = s /\ exists addr len, 0 <= addr /\ user_string addr len l.
Proof using Hp.
  unfold argstr, bind. destruct (argint_run n) as [[a|] ->]; [|done].
  destruct (fetchstr_run (u32 a)) as [[[len l']|] E]; rewrite E; [|done]. cbn.
  intros H. injection H as <- <-. split; [done|]. exists (u32 a), len. split; [apply u32_range|].
  by apply fetchstr_inside in E as [_ E].
Qed.

(** The collection of [argv] ends after at most [MAXARG] strings. *)
Lemma exec_argv_run uargv fuel : forall i, 0 <= i <= MAXARG -> MAXARG - i <= Z.of_nat fuel ->
  exists r, exec_argv cur fuel uargv i s = Ret (r, s) /\
    forall l, r = Some l -> i + Z.of_nat (length l) < MAXARG /\
      Forall (fun w => exists addr len, 0 <= addr /\ user_string addr len w) l.
Proof using Hp.
  induction fuel as [|fuel IH]; intros i Hi Hf; cbn [exec_argv].
  { rewrite (proj2 (Z.leb_le _ _)) by lia. by eexists. }
  destruct (MAXARG <=? i) eqn:E; [by eexists|]. apply Z.leb_gt in E. unfold bind at 1. rewrite fetchint_run.
  destruct (_ || _); [by eexists|].
  set (u := s32 _). destruct (u32 u =? 0).
  { eexists. split; [done|]. intros l Hl. injection Hl as <-. cbn. split; [lia|done]. }
  unfold bind at 1. destruct (fetchstr_run (u32 u)) as [[[len w]|] Ew]; rewrite Ew; [|by eexists].
  unfold bind. destruct (IH (i + 1)) as (r & -> & Hr); [lia..|].
  eexists. split; [done|]. intros l Hl. destruct r as [l'|]; [|done]. injection Hl as <-.
  destruct (Hr l' eq_refl) as [H1 H2]. split; [cbn [length]; lia|]. constructor; [|done].
  exists (u32 u), len. split; [apply u32_range|]. by apply fetchstr_inside in Ew as [_ Ew].
Qed.

End proc.

(** C28. For a process whose memory ends at or below [KERNBASE]: when [argptr] accepts a
    buffer of [size] bytes then it lies inside the memory of the process, negative sizes
    and sizes that wrap around being refused; an integer and a string that is fetched lie
    inside it too, the string with its terminating NUL and none before it; and [sys_exec]
    collects fewer than [MAXARG] strings, each of them such a string. None of these
    changes the state, and each of them returns. *)
Theorem arguments_in_user_memory s p : y_procs s !! cur = Some p -> 0 <= u_sz p <= KERNBASE ->
  (forall n size, - 2 ^ 31 <= size < 2 ^ 31 -> exists r, argptr cur n size s = Ret (r, s) /\
    forall a, r = Some a -> 0 <= size /\ 0 <= a /\ a + size <= u_sz p) /\
  (forall addr, 0 <= addr < 2 ^ 32 -> exists r, fetchint cur addr s = Ret (r, s) /\
    forall v, r = Some v -> addr + 4 <= u_sz p /\ v = s32 (load32 (u_mem p) addr)) /\
  (forall addr, 0 <= addr < 2 ^ 32 -> exists r, fetchstr cur addr s = Ret (r, s) /\
    forall len l, r = Some (len, l) -> user_string p addr len l) /\
  (forall uargv, exists r, exec_argv cur (Z.to_nat MAXARG) uargv 0 s = Ret (r, s) /\
    forall l, r = Some l -> Z.of_nat (length l) < MAXARG /\
      Forall (fun w => exists addr len, 0 <= addr /\ user_string p addr len w) l).
Proof.
  intros Hp Hsz. split_and!.
  - intros n size Hs. destruct (argptr_run s p Hp n size) as [r E]. exists r. split; [done|].
    intros a ->. eapply (argptr_inside s p Hp Hsz); [lia|exact E].
  - intros addr Ha. eexists. split; [by apply (fetchint_run s p Hp)|]. intros v Hv.
    eapply (fetchint_inside s p Hp Hsz); [lia|]. by rewrite (fetchint_run s p Hp), Hv.
  - intros addr Ha. destruct (fetchstr_run s p Hp addr) as [r E]. exists r. split; [done|].
    intros len l ->. by apply (fetchstr_inside s p Hp) in E as [_ E].
  - intros uargv. destruct (exec_argv_run s p Hp uargv (Z.to_nat MAXARG) 0) as (r & E & Hr); [done..|].
    exists r. split; [done|]. intros l Hl. destruct (Hr l Hl). split; [lia|done].
Qed.

End args.
