(* ===== verification/FileInv.v ===== *)
(** The table of open files agrees with the descriptors of all processes, and pipes
    with the files that refer to them. *)

From stdpp Require Import gmap.
From S2P Require Import Prelude CString Mmu Pipe Cache Log Fs File Sysfile.

(** * Counting descriptors *)

Definition cnt (f : nat) (l : list nat) : nat := length (filter (fun x => x = f) l).

Lemma cnt_cons f x l : cnt f (x :: l) = ((if decide (x = f) then 1 else 0) + cnt f l)%nat.
Proof. unfold cnt. rewrite filter_cons. by case_decide. Qed.
Lemma cnt_app f l k : cnt f (l ++ k) = (cnt f l + cnt f k)%nat.
Proof. unfold cnt. by rewrite filter_app, length_app. Qed.
#[export] Instance cnt_perm f : Proper ((≡ₚ) ==> eq) (cnt f).
Proof. intros l k H. unfold cnt. by rewrite H. Qed.
Lemma cnt_elem f l : (0 < cnt f l)%nat <-> f ∈ l.
Proof.
  induction l as [|x l IH]; [cbn; rewrite elem_of_nil; lia|].
  rewrite cnt_cons, elem_of_cons. case_decide; naive_solver lia.
Qed.

(** The files behind the descriptors of a process, and of all processes. *)
Definition fds_of (p : uproc) : list nat := omap id (u_ofile p).
Definition desc {S} (s : sys S) : list nat := y_procs s ≫= fds_of.

Lemma fds_insert (l : list (option nat)) i o v : l !! i = Some o ->
  option_list v ++ omap id l ≡ₚ option_list o ++ omap id (<[i := v]> l).
Proof.
  revert i. induction l as [|x l IH]; intros i Hi; [done|]. destruct i as [|i]; cbn in Hi.
  - simplify_eq. cbn. destruct o as [f|], v as [g|]; cbn; try done. apply Permutation_swap.
  - cbn. specialize (IH i Hi). destruct x as [f|]; cbn; [|done].
    rewrite <- Permutation_middle, IH, Permutation_middle. done.
Qed.

Lemma bind_insert {A B} (g : A -> list B) (l : list A) i x y : l !! i = Some x ->
  g y ++ (l ≫= g) ≡ₚ g x ++ (<[i := y]> l ≫= g).
Proof.
  revert i. induction l as [|z l IH]; intros i Hi; [done|]. destruct i as [|i]; cbn in Hi.
  - simplify_eq. cbn. rewrite !(assoc_L (++)). f_equiv. apply Permutation_app_comm.
  - cbn. specialize (IH i Hi). rewrite !(assoc_L (++)).
    rewrite (Permutation_app_comm (g y) (g z)), (Permutation_app_comm (g x) (g z)).
    rewrite <- !(assoc_L (++)). f_equiv. exact IH.
Qed.

(** A descriptor of process [cur] changes from [o] to [v]. *)
Lemma desc_set {S} (s s' : sys S) cur p i o v : y_procs s !! cur = Some p -> u_ofile p !! i = Some o ->
  y_procs s' = <[cur := set_u_ofile (<[i := v]> (u_ofile p)) p]> (y_procs s) ->
  option_list v ++ desc s ≡ₚ option_list o ++ desc s'.
Proof.
  intros Hp Hi Hs. unfold desc. rewrite Hs.
  pose proof (bind_insert fds_of (y_procs s) cur p (set_u_ofile (<[i := v]> (u_ofile p)) p) Hp) as H1.
  pose proof (fds_insert (u_ofile p) i o v Hi) as H2.
  change (omap id (<[i := v]> (u_ofile p))) with (fds_of (set_u_ofile (<[i := v]> (u_ofile p)) p)) in H2.
  change (omap id (u_ofile p)) with (fds_of p) in H2.
  set (a := fds_of p) in *. set (b := fds_of _) in *.
  apply (Permutation_app_inv_l a). rewrite (assoc_L (++)), (Permutation_app_comm a (option_list v)).
  rewrite H2, <- (assoc_L (++)), H1, !(assoc_L (++)). f_equiv. apply Permutation_app_comm.
Qed.

(** * The invariant of the tables *)

(** [R] are the references to the files: each counts once. *)
Record tab_inv (R : list nat) (t : list file) (m : gmap nat pipe) : Prop := {
  ti_ref : forall f x, t !! f = Some x -> f_ref x = Z.of_nat (cnt f R);
  ti_range : forall f, f ∈ R -> (f < length t)%nat;
  ti_none : forall f x, t !! f = Some x -> f_ref x = 0 -> f_type x = FD_NONE;
  ti_pipe : forall f x, t !! f = Some x -> f_type x = FD_PIPE ->
    f_readable x = negb (f_writable x) /\
    exists p, m !! f_pipe x = Some p /\ (if f_writable x then p_writeopen p else p_readopen p) = true;
  ti_ends : forall f f' x x', t !! f = Some x -> t !! f' = Some x' -> f_type x = FD_PIPE ->
    f_type x' = FD_PIPE -> f_pipe x = f_pipe x' -> f_writable x = f_writable x' -> f = f';
  ti_live : forall k p w, m !! k = Some p -> (if (w : bool) then p_writeopen p else p_readopen p) = true ->
    exists f x, t !! f = Some x /\ f_type x = FD_PIPE /\ f_pipe x = k /\ f_writable x = w;
  ti_some : forall k p, m !! k = Some p -> p_readopen p || p_writeopen p = true;
}.

Lemma tab_inv_perm R R' t m : R ≡ₚ R' -> tab_inv R t m -> tab_inv R' t m.
Proof.
  intros HR I. destruct I. split; try done.
  - intros f x Hx. rewrite <- HR. by apply ti_ref0.
  - intros f Hf. apply ti_range0. by rewrite HR.
Qed.

(** A file changes its references and its offset only. *)
Lemma tab_inv_same R R' t m f x y : tab_inv R t m -> t !! f = Some x ->
  f_type y = f_type x -> f_readable y = f_readable x -> f_writable y = f_writable x -> f_pipe y = f_pipe x ->
  f_ref y = Z.of_nat (cnt f R') -> (f_ref y = 0 -> f_type x = FD_NONE) ->
  (forall g, g <> f -> cnt g R' = cnt g R) ->
  tab_inv R' (<[f := y]> t) m.
Proof.
  intros I Hx E1 E2 E3 E4 Href Hnone Hcnt. destruct I. pose proof (lookup_lt_Some _ _ _ Hx) as Hlt.
  assert (Hback : forall g z, <[f := y]> t !! g = Some z -> exists z', t !! g = Some z' /\
    f_type z = f_type z' /\ f_readable z = f_readable z' /\ f_writable z = f_writable z' /\ f_pipe z = f_pipe z').
  { intros g z Hz. destruct (decide (g = f)) as [->|Hne].
    - rewrite list_lookup_insert_eq in Hz by done. simplify_eq. by exists x.
    - rewrite list_lookup_insert_ne in Hz by done. by exists z. }
  split.
  - intros g z Hz. destruct (decide (g = f)) as [->|Hne].
    + rewrite list_lookup_insert_eq in Hz by done. by simplify_eq.
    + rewrite list_lookup_insert_ne in Hz by done. rewrite Hcnt by done. by apply ti_ref0.
  - intros g Hg. rewrite length_insert. destruct (decide (g = f)) as [->|Hne]; [done|].
    apply ti_range0. apply cnt_elem. rewrite <- Hcnt by done. by apply cnt_elem.
  - intros g z Hz Hz0. destruct (decide (g = f)) as [->|Hne].
    + rewrite list_lookup_insert_eq in Hz by done. simplify_eq. rewrite E1. by apply Hnone.
    + rewrite list_lookup_insert_ne in Hz by done. by eapply ti_none0.
  - intros g z Hz Ht. destruct (Hback g z Hz) as (z' & Hz' & F1 & F2 & F3 & F4). rewrite F2, F3, F4.
    apply (ti_pipe0 g z'); congruence.
  - intros g g' z z' Hz Hz' Ht Ht' Hp Hw.
    destruct (Hback g z Hz) as (a & Ha & F1 & F2 & F3 & F4).
    destruct (Hback g' z' Hz') as (b & Hb & G1 & G2 & G3 & G4).
    apply (ti_ends0 g g' a b); congruence.
  - intros k p w Hk Hw. destruct (ti_live0 k p w Hk Hw) as (g & z & Hz & Ht & Hp & Hwr).
    destruct (decide (g = f)) as [->|Hne].
    + simplify_eq. exists f, y. rewrite list_lookup_insert_eq by done. split_and!; congruence.
    + exists g, z. by rewrite list_lookup_insert_ne.
  - done.
Qed.

(** A file that is not a pipe, before and after. *)
Lemma tab_inv_nonpipe R R' t m f x y : tab_inv R t m -> t !! f = Some x ->
  f_type x <> FD_PIPE -> f_type y <> FD_PIPE ->
  f_ref y = Z.of_nat (cnt f R') -> (f_ref y = 0 -> f_type y = FD_NONE) ->
  (forall g, g <> f -> cnt g R' = cnt g R) ->
  tab_inv R' (<[f := y]> t) m.
Proof.
  intros I Hx Hnx Hny Href Hnone Hcnt. destruct I. pose proof (lookup_lt_Some _ _ _ Hx) as Hlt.
  assert (Hback : forall g z, <[f := y]> t !! g = Some z -> f_type z = FD_PIPE -> g <> f /\ t !! g = Some z).
  { intros g z Hz Ht. destruct (decide (g = f)) as [->|Hne].
    - rewrite list_lookup_insert_eq in Hz by done. by simplify_eq.
    - by rewrite list_lookup_insert_ne in Hz. }
  split.
  - intros g z Hz. destruct (decide (g = f)) as [->|Hne].
    + rewrite list_lookup_insert_eq in Hz by done. by simplify_eq.
    + rewrite list_lookup_insert_ne in Hz by done. rewrite Hcnt by done. by apply ti_ref0.
  - intros g Hg. rewrite length_insert. destruct (decide (g = f)) as [->|Hne]; [done|].
    apply ti_range0. apply cnt_elem. rewrite <- Hcnt by done. by apply cnt_elem.
  - intros g z Hz Hz0. destruct (decide (g = f)) as [->|Hne].
    + rewrite list_lookup_insert_eq in Hz by done. simplify_eq. by apply Hnone.
    + rewrite list_lookup_insert_ne in Hz by done. by eapply ti_none0.
  - intros g z Hz Ht. destruct (Hback g z Hz Ht) as [_ Hz']. by eapply ti_pipe0.
  - intros g g' z z' Hz Hz' Ht Ht'. destruct (Hback g z Hz Ht) as [_ ?].
    destruct (Hback g' z' Hz' Ht') as [_ ?]. by eapply ti_ends0.
  - intros k p w Hk Hw. destruct (ti_live0 k p w Hk Hw) as (g & z & Hz & Ht & Hp & Hwr).
    exists g, z. rewrite list_lookup_insert_ne; [done|]. intros ->. congruence.
  - done.
Qed.

Lemma pipeclose_flags w p p' c fr : pipeclose w p = (p', c, fr) ->
  p_readopen p' = (if w then p_readopen p else false) /\
  p_writeopen p' = (if w then false else p_writeopen p) /\
  fr = negb (p_readopen p') && negb (p_writeopen p').
Proof. unfold pipeclose. destruct w; cbn; intros H; injection H as <- <- <-; done. Qed.

(** The last reference to an end of a pipe goes away. *)
Lemma tab_inv_close R t m f x p p' c fr k (y : file) : tab_inv (f :: R) t m -> t !! f = Some x ->
  f_type x = FD_PIPE -> f_pipe x = k -> cnt f R = 0%nat -> m !! k = Some p ->
  pipeclose (f_writable x) p = (p', c, fr) -> f_type y = FD_NONE -> f_ref y = 0 ->
  tab_inv R (<[f := y]> t) (if fr then delete k m else <[k := p']> m).
Proof.
  intros I Hx Ht <- Hc Hm Hcl Hy Hr. pose proof (lookup_lt_Some _ _ _ Hx) as Hlt.
  apply pipeclose_flags in Hcl as (Hro & Hwo & Hfr). destruct I.
  assert (Hback : forall g z, <[f := y]> t !! g = Some z -> f_type z = FD_PIPE -> g <> f /\ t !! g = Some z).
  { intros g z Hz Hzt. destruct (decide (g = f)) as [->|Hne].
    - rewrite list_lookup_insert_eq in Hz by done. injection Hz as <-. congruence.
    - by rewrite list_lookup_insert_ne in Hz. }
  (* the files of the other end *)
  assert (Hother : forall g z, g <> f -> t !! g = Some z -> f_type z = FD_PIPE -> f_pipe z = f_pipe x ->
    f_writable z = negb (f_writable x)).
  { intros g z Hne Hz Hzt Hzp. destruct (f_writable z) eqn:E1, (f_writable x) eqn:E2; try done;
      exfalso; apply Hne; apply (ti_ends0 g f z x); congruence. }
  split.
  - intros g z Hz. destruct (decide (g = f)) as [->|Hne].
    + rewrite list_lookup_insert_eq in Hz by done. simplify_eq. by rewrite Hc.
    + rewrite list_lookup_insert_ne in Hz by done. rewrite (ti_ref0 g z Hz), cnt_cons.
      by rewrite decide_False.
  - intros g Hg. rewrite length_insert. apply ti_range0. by right.
  - intros g z Hz Hz0. destruct (decide (g = f)) as [->|Hne].
    + rewrite list_lookup_insert_eq in Hz by done. by simplify_eq.
    + rewrite list_lookup_insert_ne in Hz by done. by eapply ti_none0.
  - intros g z Hz Hzt. destruct (Hback g z Hz Hzt) as [Hne Hz'].
    destruct (ti_pipe0 g z Hz' Hzt) as [Hrw (q & Hq & Hopen)]. split; [done|].
    destruct (decide (f_pipe z = f_pipe x)) as [Hk|Hk].
    + specialize (Hother g z Hne Hz' Hzt Hk). rewrite Hk in Hq. simplify_eq.
      assert (Hflag : (if f_writable z then p_writeopen p' else p_readopen p') = true).
      { rewrite Hother in *. by destruct (f_writable x); rewrite ?Hro, ?Hwo. }
      exists p'. split; [|done]. destruct (negb (p_readopen p') && negb (p_writeopen p')) eqn:Ef.
      * apply andb_true_iff in Ef as [E1 E2]. apply negb_true_iff in E1, E2.
        by destruct (f_writable z); congruence.
      * rewrite Hk. apply lookup_insert_eq.
    + exists q. split; [|done]. destruct fr; [rewrite lookup_delete_ne|rewrite lookup_insert_ne]; done.
  - intros g g' z z' Hz Hz' Hzt Hzt'. destruct (Hback g z Hz Hzt) as [_ ?].
    destruct (Hback g' z' Hz' Hzt') as [_ ?]. by eapply ti_ends0.
  - intros k q w Hk Hw. assert (k = f_pipe x /\ q = p' /\ w = negb (f_writable x) /\
      (if w then p_writeopen p else p_readopen p) = true \/ k <> f_pipe x /\ m !! k = Some q)
      as [(-> & -> & -> & Hpw)|[Hne Hk']].
    { destruct fr.
      - apply lookup_delete_Some in Hk as [? ?]. right. done.
      - apply lookup_insert_Some in Hk as [[<- <-]|[? ?]]; [left|by right].
        do 2 (split; [done|]). rewrite Hro, Hwo in Hw. by destruct w, (f_writable x). }
    + destruct (ti_live0 _ p _ Hm Hpw) as (g & z & Hz & Hzt & Hzp & Hzw). exists g, z.
      rewrite list_lookup_insert_ne; [done|]. intros ->.
      assert (z = x) as -> by congruence. by destruct (f_writable x).
    + destruct (ti_live0 k q w Hk' Hw) as (g & z & Hz & Hzt & Hzp & Hzw). exists g, z.
      rewrite list_lookup_insert_ne; [done|]. intros ->. congruence.
  - intros k q Hk. destruct fr eqn:Ef.
    + apply lookup_delete_Some in Hk as [_ Hk]. by eapply ti_some0.
    + apply lookup_insert_Some in Hk as [[_ <-]|[_ Hk]]; [|by eapply ti_some0].
      by destruct (p_readopen p'), (p_writeopen p').
Qed.

(** A new pipe between two fresh files. *)
Lemma tab_inv_newpipe R t m a b x y k pg : tab_inv R t m -> a <> b ->
  t !! a = Some x -> t !! b = Some y -> f_type x = FD_NONE -> f_type y = FD_NONE ->
  f_ref x <> 0 -> f_ref y <> 0 -> m !! k = None ->
  tab_inv R (<[b := File FD_PIPE (f_ref y) false true k (f_ip y) (f_off y)]>
              (<[a := File FD_PIPE (f_ref x) true false k (f_ip x) (f_off x)]> t))
    (<[k := pipe_init pg]> m).
Proof.
  intros I Hab Hx Hy Htx Hty Hrx Hry Hk. pose proof (lookup_lt_Some _ _ _ Hx) as La.
  pose proof (lookup_lt_Some _ _ _ Hy) as Lb. destruct I.
  set (xa := File FD_PIPE (f_ref x) true false k (f_ip x) (f_off x)).
  set (yb := File FD_PIPE (f_ref y) false true k (f_ip y) (f_off y)).
  assert (Hback : forall g z, <[b := yb]> (<[a := xa]> t) !! g = Some z ->
    (g = a /\ z = xa) \/ (g = b /\ z = yb) \/ (g <> a /\ g <> b /\ t !! g = Some z)).
  { intros g z Hz. destruct (decide (g = b)) as [->|Hnb].
    - rewrite list_lookup_insert_eq in Hz by (by rewrite length_insert). simplify_eq. tauto.
    - rewrite list_lookup_insert_ne in Hz by done. destruct (decide (g = a)) as [->|Hna].
      + rewrite list_lookup_insert_eq in Hz by done. simplify_eq. tauto.
      + rewrite list_lookup_insert_ne in Hz by done. tauto. }
  assert (Hold : forall g z, t !! g = Some z -> f_type z = FD_PIPE -> f_pipe z <> k).
  { intros g z Hz Hzt Hzk. destruct (ti_pipe0 g z Hz Hzt) as [_ (p & Hp & _)]. congruence. }
  assert (Ha : <[b := yb]> (<[a := xa]> t) !! a = Some xa).
  { rewrite list_lookup_insert_ne by done. by apply list_lookup_insert_eq. }
  assert (Hb : <[b := yb]> (<[a := xa]> t) !! b = Some yb).
  { apply list_lookup_insert_eq. by rewrite length_insert. }
  split.
  - intros g z Hz. destruct (Hback g z Hz) as [[-> ->]|[[-> ->]|(_ & _ & Hz')]]; cbn; by apply ti_ref0.
  - intros g Hg. rewrite !length_insert. by apply ti_range0.
  - intros g z Hz Hz0. destruct (Hback g z Hz) as [[-> ->]|[[-> ->]|(_ & _ & Hz')]]; try done. by eapply ti_none0.
  - intros g z Hz Hzt. destruct (Hback g z Hz) as [[-> ->]|[[-> ->]|(_ & _ & Hz')]].
    + split; [done|]. eexists. split; [apply lookup_insert_eq|done].
    + split; [done|]. eexists. split; [apply lookup_insert_eq|done].
    + destruct (ti_pipe0 g z Hz' Hzt) as [? (p & Hp & ?)]. split; [done|]. exists p. split; [|done].
      rewrite lookup_insert_ne; [done|]. intros E. by apply (Hold g z).
  - intros g g' z z' Hz Hz' Hzt Hzt' Hzp Hzw.
    destruct (Hback g z Hz) as [[-> ->]|[[-> ->]|(_ & _ & H1)]];
      destruct (Hback g' z' Hz') as [[-> ->]|[[-> ->]|(_ & _ & H2)]]; try done; cbn in *;
      try (by destruct (Hold _ _ H2 Hzt')); try (by destruct (Hold _ _ H1 Hzt)).
    by eapply ti_ends0.
  - intros j p w Hj Hw. apply lookup_insert_Some in Hj as [[<- <-]|[Hne Hj]].
    + destruct w; [exists b, yb|exists a, xa]; done.
    + destruct (ti_live0 j p w Hj Hw) as (g & z & Hz & Hzt & Hzp & Hzw). exists g, z.
      rewrite !list_lookup_insert_ne; [done|..]; intros ->; congruence.
  - intros j p Hj. apply lookup_insert_Some in Hj as [[_ <-]|[_ Hj]]; [done|by eapply ti_some0].
Qed.

(** The content of a pipe changes. *)
Lemma tab_inv_pipe R t m k p p' : tab_inv R t m -> m !! k = Some p ->
  p_readopen p' = p_readopen p -> p_writeopen p' = p_writeopen p -> tab_inv R t (<[k := p']> m).
Proof.
  intros I Hk Hr Hw. destruct I. split; try done.
  - intros f x Hx Ht. destruct (ti_pipe0 f x Hx Ht) as [? (q & Hq & Ho)]. split; [done|].
    destruct (decide (f_pipe x = k)) as [E|Hne].
    + rewrite E in *. assert (q = p) as -> by congruence. exists p'. rewrite lookup_insert_eq. split; [done|]. by rewrite Hr, Hw.
    + exists q. by rewrite lookup_insert_ne.
  - intros j q w Hj Hq. apply lookup_insert_Some in Hj as [[<- <-]|[_ Hj]]; [|by eapply ti_live0].
    apply (ti_live0 k p w Hk). by rewrite <- Hr, <- Hw.
  - intros j q Hj. apply lookup_insert_Some in Hj as [[_ <-]|[_ Hj]]; [|by eapply ti_some0].
    rewrite Hr, Hw. by eapply ti_some0.
Qed.

(** * Operations that leave the tables alone *)

Section ops.
Context {S : Type} `{!Cache S}.
Local Abbreviation Y := (M (sys S)).
Implicit Types (s : sys S).

(** The open files, the pipes and the descriptors are the same. *)
Definition same_tabs s s' : Prop :=
  y_ftable s' = y_ftable s /\ y_pipes s' = y_pipes s /\ u_ofile <$> y_procs s' = u_ofile <$> y_procs s.

#[export] Instance same_tabs_preorder : PreOrder same_tabs.
Proof.
  split; [done|]. intros a b c (H1 & H2 & H3) (J1 & J2 & J3). split_and!; by etrans.
Qed.

Definition keeps {A} (m : Y A) : Prop := forall s r s', m s = Ret (r, s') -> same_tabs s s'.

Lemma kept_bind {A B} (m : Y A) (k : A -> Y B) : keeps m -> (forall a, keeps (k a)) -> keeps (bind m k).
Proof. intros Hm Hk s r s' H. minv. etrans; [by eapply Hm|by eapply Hk]. Qed.
Lemma kept_ret {A} (a : A) : keeps (ret a).
Proof. intros s r s' H. minv. reflexivity. Qed.
Lemma kept_gets {A} (f : sys S -> A) : keeps (gets f).
Proof. intros s r s' H. minv. reflexivity. Qed.
Lemma kept_panic {A} e : keeps (panic e : Y A).
Proof. done. Qed.
Lemma kept_fault {A} : keeps (fault : Y A).
Proof. done. Qed.
Lemma kept_block {A} : keeps (block : Y A).
Proof. done. Qed.
Lemma kept_nofuel {A} : keeps ((fun _ => NoFuel) : Y A).
Proof. done. Qed.
Lemma kept_on_fs {A} (m : M (fs S) A) : keeps (on_fs m).
Proof.
  intros s r s' H. unfold on_fs in H. destruct (m (y_fs s)) as [[a f]| | | |]; by simplify_eq.
Qed.
Lemma kept_get_f f : keeps (get_f f).
Proof. intros s r s' H. unfold get_f in H. case_match; by simplify_eq. Qed.
Lemma kept_get_pipe k : keeps (get_pipe k).
Proof. intros s r s' H. unfold get_pipe in H. case_match; by simplify_eq. Qed.
Lemma kept_myproc cur : keeps (myproc cur).
Proof. intros s r s' H. unfold myproc in H. case_match; by simplify_eq. Qed.
Lemma kept_upd_proc cur g : (forall p, u_ofile (g p) = u_ofile p) -> keeps (upd_proc cur g).
Proof.
  intros Hg s r s' H. unfold upd_proc in H. destruct (y_procs s !! cur) as [p|] eqn:E; simplify_eq.
  split_and!; cbn; [done|done|]. rewrite list_fmap_insert, Hg. apply list_insert_id.
  by rewrite list_lookup_fmap, E.
Qed.

End ops.

Create HintDb keeps.
#[export] Hint Resolve kept_ret kept_gets kept_panic kept_fault kept_block kept_nofuel
  kept_on_fs kept_get_f kept_get_pipe kept_myproc : keeps.

(** Along the structure of a program. *)
Ltac keeps :=
  repeat first
    [ progress (eauto with keeps)
    | apply kept_bind; [|intros ?]
    | match goal with |- keeps (match ?x with _ => _ end) => destruct x end ].

Section calls.
Context {S : Type} `{!Cache S}.
Local Abbreviation Y := (M (sys S)).
Implicit Types (s : sys S).
Context (cur : nat).
Context (dev_read : Z -> option (nat -> Z -> M (fs S) (Z * list Z))).
Context (dev_write : Z -> option (nat -> list Z -> Z -> M (fs S) Z)).

Lemma kept_filestat f : keeps (filestat (S := S) cur f).
Proof. unfold filestat. keeps. Qed.
Lemma kept_fetchint a : keeps (fetchint (S := S) cur a).
Proof. unfold fetchint. keeps. Qed.
Lemma kept_fetchstr a : keeps (fetchstr (S := S) cur a).
Proof. unfold fetchstr. keeps. Qed.
#[local] Hint Resolve kept_fetchint kept_fetchstr : keeps.
Lemma kept_argint n : keeps (argint (S := S) cur n).
Proof. unfold argint. keeps. Qed.
#[local] Hint Resolve kept_argint : keeps.
Lemma kept_argptr n size : keeps (argptr (S := S) cur n size).
Proof. unfold argptr. keeps. Qed.
Lemma kept_argstr n : keeps (argstr (S := S) cur n).
Proof. unfold argstr. keeps. Qed.
Lemma kept_argfd n : keeps (argfd (S := S) cur n).
Proof. unfold argfd. keeps. Qed.
#[local] Hint Resolve kept_argptr kept_argstr kept_argfd kept_filestat : keeps.
Lemma kept_rw_args : keeps (rw_args (S := S) cur).
Proof. unfold rw_args. keeps. Qed.
Lemma kept_write_user a l : keeps (write_user (S := S) cur a l).
Proof. by apply kept_upd_proc. Qed.
Lemma kept_set_cwd ip : keeps (upd_proc (S := S) cur (set_u_cwd ip)).
Proof. by apply kept_upd_proc. Qed.
#[local] Hint Resolve kept_rw_args kept_write_user kept_set_cwd : keeps.
Lemma kept_begin_op : keeps (begin_op' (S := S)).
Proof. unfold begin_op'. keeps. Qed.
Lemma kept_end_op : keeps (end_op' (S := S)).
Proof. unfold end_op'. keeps. Qed.
#[local] Hint Resolve kept_begin_op kept_end_op : keeps.
Lemma kept_sys_fstat : keeps (sys_fstat (S := S) cur).
Proof. unfold sys_fstat. keeps. Qed.
Lemma kept_sys_link : keeps (sys_link cur dev_read dev_write).
Proof. unfold sys_link. keeps. Qed.
Lemma kept_isdirempty dp : keeps (isdirempty dev_read dp).
Proof.
  unfold isdirempty. apply kept_bind; [keeps|]. intros i. generalize (2 * DIRENT), (Z.to_nat (i_size i)).
  intros off n. revert off. induction n as [|n IH]; intros off; cbn; keeps.
Qed.
Lemma kept_name_is a b : keeps (name_is (S := S) a b).
Proof. unfold name_is. keeps. Qed.
#[local] Hint Resolve kept_isdirempty kept_name_is : keeps.
Lemma kept_sys_unlink : keeps (sys_unlink cur dev_read dev_write).
Proof. unfold sys_unlink. keeps. Qed.
Lemma kept_create path type major minor : keeps (create cur dev_read dev_write path type major minor).
Proof. unfold create. keeps. Qed.
#[local] Hint Resolve kept_create : keeps.
Lemma kept_sys_mkdir : keeps (sys_mkdir cur dev_read dev_write).
Proof. unfold sys_mkdir. keeps. Qed.
Lemma kept_sys_mknod : keeps (sys_mknod cur dev_read dev_write).
Proof. unfold sys_mknod. keeps. Qed.
Lemma kept_sys_chdir : keeps (sys_chdir cur dev_read).
Proof. unfold sys_chdir. keeps. Qed.
End calls.
#[export] Hint Resolve kept_fetchint kept_fetchstr kept_argint kept_argptr kept_argstr kept_argfd
  kept_filestat kept_rw_args kept_write_user kept_set_cwd kept_begin_op kept_end_op kept_create
  kept_sys_fstat kept_sys_link kept_sys_unlink kept_sys_mkdir kept_sys_mknod kept_sys_chdir : keeps.
