(* ===== verification/FileOps.v ===== *)
(** What the operations on open files, and the system calls built from them, do to the
    references counted in the file table. *)

From stdpp Require Import gmap.
From S2P Require Import Prelude CString Mmu Pipe Cache Log Fs File Sysfile FileInv.

Section tabs.
Context {S : Type} `{!Cache S}.
Implicit Types (s : sys S).

(** [R] are the references to the files, [Z] the files that are allocated and not yet
    given a type. *)
Record tabs (Z R : list nat) s : Prop := {
  tb_inv : tab_inv R (y_ftable s) (y_pipes s);
  tb_raw : forall f x, y_ftable s !! f = Some x -> f ∈ Z -> f_type x = FD_NONE;
  tb_typed : forall f x, y_ftable s !! f = Some x -> 0 < f_ref x -> f_type x = FD_NONE -> f ∈ Z
}.

(** The descriptors are the same. *)
Definition same_fds s s' : Prop := u_ofile <$> y_procs s' = u_ofile <$> y_procs s.

#[export] Instance same_fds_preorder : PreOrder same_fds.
Proof. split; [done|]. intros a b c H J. unfold same_fds in *. by etrans. Qed.

Lemma desc_fmap s : desc s = (u_ofile <$> y_procs s) ≫= omap id.
Proof. unfold desc. induction (y_procs s) as [|p l IH]; cbn; [done|by rewrite IH]. Qed.
Lemma same_fds_desc s s' : same_fds s s' -> desc s' = desc s.
Proof. intros H. by rewrite !desc_fmap, H. Qed.
Lemma same_tabs_fds s s' : same_tabs s s' -> same_fds s s'.
Proof. by intros (_ & _ & H). Qed.
Lemma same_fds_lookup s s' cur p : same_fds s s' -> y_procs s !! cur = Some p ->
  exists p', y_procs s' !! cur = Some p' /\ u_ofile p' = u_ofile p.
Proof.
  intros H Hp. apply (f_equal (.!! cur)) in H. rewrite !list_lookup_fmap, Hp in H.
  destruct (y_procs s' !! cur) as [p'|]; cbn in H; [|done]. exists p'. by injection H.
Qed.

Lemma tabs_keep Z R s s' : same_tabs s s' -> tabs Z R s -> tabs Z R s'.
Proof. intros (H1 & H2 & _) [I J K]. split; by rewrite ?H1, ?H2. Qed.
Lemma tabs_perm Z R R' s : R ≡ₚ R' -> tabs Z R s -> tabs Z R' s.
Proof. intros HR [I J K]. split; [|done|done]. by eapply tab_inv_perm. Qed.
Lemma tabs_eq Z R s s' : y_ftable s' = y_ftable s -> y_pipes s' = y_pipes s -> tabs Z R s -> tabs Z R s'.
Proof. intros H1 H2 [I J K]. split; by rewrite ?H1, ?H2. Qed.

(** A file that no longer has references needs no type. *)
Lemma tabs_drop Z R f s : tabs (f :: Z) R s -> f ∉ R -> tabs Z R s.
Proof.
  intros [I J K] Hf. split; [done|..].
  - intros g x Hx Hg. apply (J g x Hx). by right.
  - intros g x Hx Hr Ht. specialize (K g x Hx Hr Ht). apply elem_of_cons in K as [->|]; [|done].
    exfalso. rewrite (ti_ref _ _ _ I _ _ Hx) in Hr. apply Hf. apply cnt_elem. lia.
Qed.

(** One entry of the table changes. *)
Lemma tabs_insert Z Z' R s t m f x y p : tabs Z R s -> y_ftable s !! f = Some x ->
  (forall g, g <> f -> (g ∈ Z' <-> g ∈ Z)) -> (f ∈ Z' -> f_type y = FD_NONE) ->
  (0 < f_ref y -> f_type y = FD_NONE -> f ∈ Z') ->
  forall R', tab_inv R' (<[f := y]> (y_ftable s)) m -> t = <[f := y]> (y_ftable s) ->
  tabs Z' R' (Sys (y_fs s) t m p).
Proof.
  intros [I J K] Hx HZ H1 H2 R' HI ->. pose proof (lookup_lt_Some _ _ _ Hx) as Hlt.
  split; cbn; [done|..]; intros g z Hz; (destruct (decide (g = f)) as [->|Hne];
    [rewrite list_lookup_insert_eq in Hz by done; injection Hz as <-; auto
    |rewrite list_lookup_insert_ne in Hz by done]).
  - intros Hg. apply (J g z Hz). by apply HZ.
  - intros Hr Ht. apply HZ; [done|]. by apply (K g z).
Qed.

End tabs.

Lemma cnt_other (f : nat) R g : g <> f -> cnt g (f :: R) = cnt g R.
Proof. intros Hne. rewrite cnt_cons. by rewrite decide_False. Qed.
Lemma cnt_same (f : nat) R : cnt f (f :: R) = Datatypes.S (cnt f R).
Proof. rewrite cnt_cons. by rewrite decide_True. Qed.

Section fileops.
Context {S : Type} `{!Cache S}.
Implicit Types (s : sys S).
Context (cur : nat).

Lemma get_f_inv f s x s' : get_f f s = Ret (x, s') -> s' = s /\ y_ftable s !! f = Some x.
Proof. unfold get_f. destruct (y_ftable s !! f); intros; by simplify_eq. Qed.
Lemma get_pipe_inv k s x s' : get_pipe k s = Ret (x, s') -> s' = s /\ y_pipes s !! k = Some x.
Proof. unfold get_pipe. destruct (y_pipes s !! k); intros; by simplify_eq. Qed.
Lemma myproc_inv s p s' : myproc cur s = Ret (p, s') -> s' = s /\ y_procs s !! cur = Some p.
Proof. unfold myproc. destruct (y_procs s !! cur); intros; by simplify_eq. Qed.

Lemma filealloc_ok Z R s r s' : tabs Z R s -> filealloc s = Ret (r, s') ->
  same_fds s s' /\
  match r with Some f => (f ∉ R) /\ tabs (f :: Z) (f :: R) s' | None => s' = s end.
Proof.
  intros T H. unfold filealloc, put_f in H. minv. destruct (findi _ _) as [f|] eqn:E; minv; [|done].
  apply get_f_inv in Hrun as [-> Hx]. apply findi_Some in E as (x & Hx' & Hr & _).
  assert (x = v) as -> by congruence. apply Z.eqb_eq in Hr.
  pose proof (ti_ref _ _ _ (tb_inv _ _ _ T) _ _ Hx) as Hc. assert (cnt f R = 0%nat) as Hc0 by lia.
  assert (HfR : f ∉ R) by (rewrite <- cnt_elem; lia).
  pose proof (ti_none _ _ _ (tb_inv _ _ _ T) _ _ Hx Hr) as Hnone.
  split; [exact eq_refl|]. split; [done|].
  eapply (tabs_insert _ _ _ _ _ _ f); [exact T|exact Hx|..|reflexivity].
  - intros g Hg. set_solver.
  - done.
  - intros _ _. by left.
  - eapply (tab_inv_same R); [apply T|exact Hx|done..| |done|].
    + cbn [f_ref set_f_ref]. rewrite cnt_same. lia.
    + intros g. apply cnt_other.
Qed.

Lemma filedup_ok Z R s f r s' : tabs Z R s -> filedup f s = Ret (r, s') ->
  same_fds s s' /\ r = f /\ tabs Z (f :: R) s'.
Proof.
  intros T H. unfold filedup, put_f in H. minv. apply get_f_inv in Hrun as [-> Hx].
  destruct (f_ref v <? 1) eqn:E; [done|]. minv. bsplit.
  pose proof (ti_ref _ _ _ (tb_inv _ _ _ T) _ _ Hx) as Hc. split; [exact eq_refl|]. split; [done|].
  eapply (tabs_insert _ _ _ _ _ _ r); [exact T|exact Hx|..|reflexivity].
  - done.
  - apply (tb_raw _ _ _ T _ _ Hx).
  - intros _. apply (tb_typed _ _ _ T _ _ Hx). lia.
  - eapply (tab_inv_same R); [apply T|exact Hx|done..| | |].
    + cbn [f_ref set_f_ref]. rewrite cnt_same. lia.
    + cbn [f_ref set_f_ref]. lia.
    + intros g. apply cnt_other.
Qed.

Lemma filedup_fds f s r s' : filedup f s = Ret (r, s') -> same_fds s s' /\ r = f.
Proof.
  intros H. unfold filedup, put_f in H. minv. apply get_f_inv in Hrun as [-> Hx].
  destruct (f_ref v <? 1); [done|]. by minv.
Qed.

(** The entry of a file without references. *)
Definition closed_file (x : file) : file :=
  File FD_NONE 0 (f_readable x) (f_writable x) (f_pipe x) (f_ip x) (f_off x).

Lemma fileclose_ok Z R s f r s' : tabs Z (f :: R) s -> fileclose cur f s = Ret (r, s') ->
  same_fds s s' /\ tabs Z R s'.
Proof.
  intros T H. unfold fileclose, put_f in H. minv. apply get_f_inv in Hrun as [-> Hx].
  destruct (f_ref v <? 1) eqn:E; [done|]. minv. bsplit. rename v into x.
  pose proof (ti_ref _ _ _ (tb_inv _ _ _ T) _ _ Hx) as Hc. rewrite cnt_same in Hc.
  destruct (0 <? f_ref x - 1) eqn:E2; minv; bsplit.
  { split; [exact eq_refl|]. eapply (tabs_insert _ _ _ _ _ _ f); [exact T|exact Hx|..|reflexivity].
    - done.
    - apply (tb_raw _ _ _ T _ _ Hx).
    - intros _. apply (tb_typed _ _ _ T _ _ Hx). lia.
    - eapply (tab_inv_same (f :: R)); [apply T|exact Hx|done..| | |]; cbn [f_ref set_f_ref]; [lia|lia|].
      intros g Hg. by rewrite cnt_other. }
  cbn [y_fs y_ftable y_pipes y_procs] in *. rewrite list_insert_insert_eq in H. fold (closed_file x) in H.
  assert (Hc0 : cnt f R = 0%nat) by lia.
  assert (Hgo : forall m, tab_inv R (<[f := closed_file x]> (y_ftable s)) m ->
    tabs Z R (Sys (y_fs s) (<[f := closed_file x]> (y_ftable s)) m (y_procs s))).
  { intros m Hm. eapply (tabs_insert _ _ _ _ _ _ f x (closed_file x)); [exact T|exact Hx|done|done| |exact Hm|done]. cbn. lia. }
  assert (Hnp : f_type x <> FD_PIPE -> tab_inv R (<[f := closed_file x]> (y_ftable s)) (y_pipes s)).
  { intros Hn. eapply (tab_inv_nonpipe (f :: R)); [apply T|exact Hx|congruence|done|cbn [f_ref closed_file]; lia|done|].
    intros g Hg. by rewrite cnt_other. }
  destruct (f_type x) eqn:Ety.
  - minv. split; [exact eq_refl|]. by apply Hgo, Hnp.
  - unfold close_pipe in H. minv. apply get_pipe_inv in Hrun as [-> Hp]. cbn in Hp.
    destruct (pipeclose (f_writable x) v) as [[p c] fr] eqn:Ecl. unfold set_pipes in H. minv.
    split; [exact eq_refl|]. apply Hgo. cbn.
    eapply (tab_inv_close R (y_ftable s) (y_pipes s)); [apply T|exact Hx|done..].
  - match type of H with ?m _ = _ => assert (Hk : keeps m) by keeps end.
    apply Hk in H. split; [by etrans; [|by apply same_tabs_fds]|].
    eapply tabs_keep; [exact H|]. by apply Hgo, Hnp.
Qed.

End fileops.

Lemma fileclose_fds {S} `{!Cache S} cur f (s : sys S) r s' : fileclose cur f s = Ret (r, s') -> same_fds s s'.
Proof.
  intros H. unfold fileclose, put_f in H. minv. apply get_f_inv in Hrun as [-> Hx].
  destruct (f_ref v <? 1); [done|]. minv. destruct (0 <? f_ref v - 1); minv; [done|].
  destruct (f_type v); [by minv| |].
  - unfold close_pipe in H. minv. apply get_pipe_inv in Hrun as [-> _].
    destruct (pipeclose _ _) as [[p c] fr]. unfold set_pipes in H. by minv.
  - match type of H with ?m _ = _ => assert (Hk : keeps m) by keeps end.
    apply Hk in H. by apply same_tabs_fds in H.
Qed.

(** * Reading and writing *)

Section rw.
Context {S : Type} `{!Cache S}.
Local Abbreviation Y := (M (sys S)).
Implicit Types (s : sys S).
Context (cur : nat).
Context (dev_read : Z -> option (nat -> Z -> M (fs S) (Z * list Z))).
Context (dev_write : Z -> option (nat -> list Z -> Z -> M (fs S) Z)).

(** The references and the descriptors stay as they are. *)
Definition steady {A} (m : Y A) : Prop := forall Z R s r s',
  tabs Z R s -> m s = Ret (r, s') -> same_fds s s' /\ tabs Z R s'.

Lemma steady_keeps {A} (m : Y A) : keeps m -> steady m.
Proof. intros Hm Z R s r s' T H. apply Hm in H. split; [by apply same_tabs_fds|by eapply tabs_keep]. Qed.
Lemma steady_bind {A B} (m : Y A) (k : A -> Y B) : steady m -> (forall a, steady (k a)) -> steady (bind m k).
Proof.
  intros Hm Hk Z R s r s' T H. minv. destruct (Hm _ _ _ _ _ T Hrun) as [F T'].
  destruct (Hk _ _ _ _ _ _ T' H) as [F' T'']. split; [by etrans|done].
Qed.

Lemma tabs_off Z R s f x v : tabs Z R s -> y_ftable s !! f = Some x ->
  tabs Z R (Sys (y_fs s) (<[f := set_f_off v x]> (y_ftable s)) (y_pipes s) (y_procs s)).
Proof.
  intros T Hx. eapply (tabs_insert _ _ _ _ _ _ f x); [exact T|exact Hx|done|..|reflexivity].
  - apply (tb_raw _ _ _ T _ _ Hx).
  - apply (tb_typed _ _ _ T _ _ Hx).
  - eapply (tab_inv_same R); [apply T|exact Hx|done..| | |done].
    + apply (ti_ref _ _ _ (tb_inv _ _ _ T) _ _ Hx).
    + apply (ti_none _ _ _ (tb_inv _ _ _ T) _ _ Hx).
Qed.

Lemma tabs_pipe Z R s k p p' : tabs Z R s -> y_pipes s !! k = Some p ->
  p_readopen p' = p_readopen p -> p_writeopen p' = p_writeopen p ->
  tabs Z R (Sys (y_fs s) (y_ftable s) (<[k := p']> (y_pipes s)) (y_procs s)).
Proof.
  intros [I J K] Hk Hr Hw. split; cbn; [|done|done]. by eapply tab_inv_pipe.
Qed.

Lemma piperead_loop_flags n p : forall l p', piperead_loop n p = (l, p') ->
  p_readopen p' = p_readopen p /\ p_writeopen p' = p_writeopen p.
Proof.
  revert p. induction n as [|n IH]; cbn; intros p l p' H; [by simplify_eq|].
  destruct (pipe_empty p); [by simplify_eq|].
  destruct (piperead_loop n _) as [l' q] eqn:E. simplify_eq. by apply IH in E.
Qed.
Lemma piperead_flags killed n p r c p' : piperead killed n p = (r, c, p') ->
  p_readopen p' = p_readopen p /\ p_writeopen p' = p_writeopen p.
Proof.
  unfold piperead. destruct (_ && _); [destruct killed; intros; by simplify_eq|].
  destruct (piperead_loop _ _) as [l q] eqn:E. intros. simplify_eq. by eapply piperead_loop_flags.
Qed.
Lemma pipewrite_flags killed src p r c p' : pipewrite killed src p = (r, c, p') ->
  p_readopen p' = p_readopen p /\ p_writeopen p' = p_writeopen p.
Proof.
  unfold pipewrite. generalize 0%Z. intros i. revert p i. induction src as [|b src IH]; cbn; intros p i H;
    [by simplify_eq|].
  destruct (pipe_full p); [destruct (negb _ || _); by simplify_eq|]. by apply IH in H.
Qed.

Lemma steady_fileread f n : steady (fileread cur dev_read f n).
Proof.
  unfold fileread. intros Z R s r s' T H. minv.
  apply get_f_inv in Hrun as [-> Hx]. apply myproc_inv in Hrun0 as [-> _].
  destruct (negb _); [by minv|]. destruct (f_type v) eqn:Ety; [done|..].
  - minv. apply get_pipe_inv in Hrun as [-> Hp].
    destruct (piperead _ n v1) as [[[z l|] c] q] eqn:E; [|done]. apply piperead_flags in E as [? ?].
    unfold set_pipes in H. minv. split; [exact eq_refl|]. by eapply tabs_pipe.
  - revert T H. generalize R, Z. intros R' Z'. revert s Hx. clear.
    intros s Hx T H. match type of H with ?m _ = _ => assert (Hst : steady m) end.
    { apply steady_bind; [apply steady_keeps; keeps|]. intros ?.
      apply steady_bind; [apply steady_keeps; keeps|]. intros q.
      apply steady_bind; [|intros ?; apply steady_keeps; keeps].
      destruct (0 <? fst q); [|apply steady_keeps; keeps].
      clear. intros Z R s r s' T H. minv. apply get_f_inv in Hrun as [-> Hx]. unfold put_f in H. minv.
      split; [exact eq_refl|]. by apply tabs_off. }
    by eapply Hst.
Qed.

Lemma steady_filewrite_loop fuel f src i n : steady (filewrite_loop cur dev_write fuel f src i n).
Proof.
  revert i. induction fuel as [|fuel IH]; intros i; cbn [filewrite_loop];
    (destruct (i <? n); [|apply steady_keeps; keeps]); [apply steady_keeps; keeps|].
  apply steady_bind; [apply steady_keeps; keeps|]. intros p.
  apply steady_bind; [apply steady_keeps; keeps|]. intros _.
  intros Z R s r s' T H. minv. apply get_f_inv in Hrun as [-> Hx]. rename v into x.
  apply kept_on_fs in Hrun0, Hrun1. set (r1 := v1) in *.
  assert (Hst : same_tabs s st1) by (by etrans). destruct Hst as (E1 & E2 & E3).
  assert (T1 : tabs Z R st1) by (eapply tabs_keep; [|exact T]; done).
  assert (same_fds st1 st2 /\ tabs Z R st2) as [F2 T2].
  { destruct (0 <? r1); unfold put_f in Hrun2; minv; [|done].
    split; [exact eq_refl|]. apply tabs_off; [done|]. by rewrite E1. }
  assert (F1 : same_fds s st1) by done.
  match type of H with ?m _ = _ => assert (Hst : steady m) end.
  { apply kept_on_fs in Hrun3, Hrun4.
    destruct (r1 <? 0); [apply steady_keeps; keeps|]. destruct (negb _); [apply steady_keeps; keeps|]. apply IH. }
  apply kept_on_fs in Hrun3, Hrun4.
  assert (T4 : tabs Z R st4) by (eapply tabs_keep; [exact Hrun4|]; by eapply tabs_keep).
  destruct (Hst _ _ _ _ _ T4 H) as [F5 T5]. split; [|done].
  etrans; [|exact F5]. etrans; [|apply same_tabs_fds; exact Hrun4].
  etrans; [|apply same_tabs_fds; exact Hrun3]. by etrans.
Qed.

Lemma steady_filewrite f src n : steady (filewrite cur dev_write f src n).
Proof.
  unfold filewrite. intros Z R s r s' T H. minv.
  apply get_f_inv in Hrun as [-> Hx]. apply myproc_inv in Hrun0 as [-> _].
  destruct (negb _); [by minv|]. destruct (f_type v) eqn:Ety; [done|..].
  - minv. apply get_pipe_inv in Hrun as [-> Hp].
    destruct (pipewrite _ _ v1) as [[[z|] c] q] eqn:E; [|done]. apply pipewrite_flags in E as [? ?].
    unfold set_pipes in H. minv. split; [exact eq_refl|]. by eapply tabs_pipe.
  - minv. by eapply steady_filewrite_loop.
Qed.

Lemma steady_sys_read : steady (sys_read cur dev_read).
Proof.
  unfold sys_read. apply steady_bind; [apply steady_keeps; keeps|]. intros [[[f n] p]|]; [|apply steady_keeps; keeps].
  apply steady_bind; [apply steady_fileread|]. intros r. apply steady_keeps. keeps.
Qed.

Lemma steady_sys_write : steady (sys_write cur dev_write).
Proof.
  unfold sys_write. apply steady_bind; [apply steady_keeps; keeps|]. intros [[[f n] p]|]; [|apply steady_keeps; keeps].
  apply steady_bind; [apply steady_keeps; keeps|]. intros q. apply steady_filewrite.
Qed.

End rw.
