(* ===== verification/FileThm.v ===== *)
(** Every system call on files preserves the invariant of the file table: the count in
    an open file is the number of descriptors that refer to it, and a pipe exists as long
    as one of its ends is open. *)

From stdpp Require Import gmap.
From S2P Require Import Prelude CString Mmu Pipe Cache Log Fs File Sysfile FileInv FileOps.

Section fds.
Context {S : Type} `{!Cache S}.
Implicit Types (s : sys S).
Context (cur : nat).

Lemma pipealloc_ok page R s r s' : tabs [] R s -> pipealloc cur page s = Ret (r, s') ->
  same_fds s s' /\ match r with Some (a, b) => tabs [] (a :: b :: R) s' | None => tabs [] R s' end.
Proof.
  intros T H. unfold pipealloc in H. minv.
  apply (filealloc_ok [] R) in Hrun as [F1 HA]; [|done]. destruct v as [a|]; [|by minv; subst].
  destruct HA as [Ha T1]. minv. apply (filealloc_ok _ _ _ _ _ T1) in Hrun as [F2 HB].
  assert (Hbad : v = None \/ page = None ->
    same_fds s s' /\ match r with Some (a, b) => tabs [] (a :: b :: R) s' | None => tabs [] R s' end).
  { intros Hn. assert (H' : ((fileclose cur a ;;; (match v with Some f => fileclose cur f | None => ret tt end)
        ;;; ret None) st0 = Ret (r, s'))).
    { destruct v, page; try exact H. by destruct Hn. }
    clear H. minv. destruct v as [b|]; [destruct HB as [Hb T2]|subst st0; rename T1 into T2].
    - assert (T2' : tabs [b; a] (a :: b :: R) st0) by (eapply tabs_perm; [|exact T2]; apply Permutation_swap).
      destruct (fileclose_ok cur _ _ _ _ _ _ T2' Hrun) as [F3 T3].
      destruct (fileclose_ok cur _ _ _ _ _ _ T3 Hrun0) as [F4 T4].
      split; [etrans; [exact F1|]; etrans; [exact F2|]; by etrans|].
      eapply tabs_drop; [|exact Ha]. eapply tabs_drop; [exact T4|]. set_solver.
    - minv. destruct (fileclose_ok cur _ _ _ _ _ _ T2 Hrun) as [F3 T3].
      split; [by etrans|]. by eapply tabs_drop. }
  destruct v as [b|]; [|by apply Hbad; left]. destruct page as [page|]; [|by apply Hbad; right].
  clear Hbad. destruct HB as [Hb T2]. unfold put_f, set_pipes in H. minv.
  apply get_f_inv in Hrun1 as [-> Hx]. apply get_f_inv in Hrun3 as [-> Hy].
  cbn [y_ftable y_fs y_pipes y_procs] in *. assert (Hab : a <> b) by set_solver.
  rewrite list_lookup_insert_ne in Hy by done. split; [by etrans|].
  destruct T2 as [I J K].
  assert (Hpos : forall g z, y_ftable st1 !! g = Some z -> g ∈ b :: a :: R -> f_ref z <> 0).
  { intros g z Hz Hg. rewrite (ti_ref _ _ _ I _ _ Hz). apply cnt_elem in Hg. lia. }
  split; cbn [y_ftable y_pipes].
  - eapply tab_inv_perm; [apply Permutation_swap|].
    apply tab_inv_newpipe; [done..| | | | |].
    + apply (J a _ Hx). set_solver.
    + apply (J b _ Hy). set_solver.
    + apply (Hpos a _ Hx). set_solver.
    + apply (Hpos b _ Hy). set_solver.
    + apply not_elem_of_dom, is_fresh.
  - intros g z Hz Hg. set_solver.
  - intros g z Hz Hr Ht. exfalso. pose proof (lookup_lt_Some _ _ _ Hx). pose proof (lookup_lt_Some _ _ _ Hy).
    destruct (decide (g = b)) as [->|Hgb].
    { rewrite list_lookup_insert_eq in Hz by (by rewrite length_insert). by injection Hz as <-. }
    rewrite list_lookup_insert_ne in Hz by done. destruct (decide (g = a)) as [->|Hga].
    { rewrite list_lookup_insert_eq in Hz by done. by injection Hz as <-. }
    rewrite list_lookup_insert_ne in Hz by done. specialize (K g z Hz Hr Ht). set_solver.
Qed.

Lemma upd_proc_inv g s r s' : upd_proc cur g s = Ret (r, s') -> exists p, y_procs s !! cur = Some p /\
  s' = Sys (y_fs s) (y_ftable s) (y_pipes s) (<[cur := g p]> (y_procs s)).
Proof. unfold upd_proc. destruct (y_procs s !! cur) as [p|]; intros; simplify_eq. by exists p. Qed.

(** The descriptor [fd] of the process is file [f]. *)
Definition fd_is s (fd f : nat) : Prop := exists p, y_procs s !! cur = Some p /\ u_ofile p !! fd = Some (Some f).

Lemma fd_is_desc s fd f : fd_is s fd f -> f ∈ desc s.
Proof.
  intros (p & Hp & Hf). apply list_elem_of_bind. exists p. split; [|by eapply list_elem_of_lookup_2].
  apply list_elem_of_omap. exists (Some f). split; [by eapply list_elem_of_lookup_2|done].
Qed.
Lemma fd_is_same s s' fd f : same_fds s s' -> fd_is s fd f -> fd_is s' fd f.
Proof.
  intros F (p & Hp & Hf). destruct (same_fds_lookup _ _ _ _ F Hp) as (p' & Hp' & E). exists p'. by rewrite E.
Qed.

Lemma argfd_ok n s r s' : argfd cur n s = Ret (r, s') -> same_tabs s s' /\
  match r with Some (fd, f) => fd_is s' fd f | None => True end.
Proof.
  intros H. split; [by eapply kept_argfd|]. unfold argfd in H. minv. destruct v as [fd|]; [|by minv].
  minv. apply myproc_inv in Hrun0 as [-> Hp]. destruct (_ || _); [by minv|].
  destruct (u_ofile v !! Z.to_nat fd) as [[f|]|] eqn:E; minv; [|done]. by exists v.
Qed.

Lemma fdalloc_ok f s r s' : fdalloc cur f s = Ret (r, s') ->
  match r with
  | Some fd => y_ftable s' = y_ftable s /\ y_pipes s' = y_pipes s /\ desc s' ≡ₚ f :: desc s /\ fd_is s' fd f
  | None => s' = s
  end.
Proof.
  intros H. unfold fdalloc, set_fd in H. minv. apply myproc_inv in Hrun as [-> Hp].
  destruct (findi _ _) as [fd|] eqn:E; minv; [|done].
  apply findi_Some in E as (o & Ho & Hn & _). destruct o; [done|].
  apply upd_proc_inv in Hrun as (p & Hp' & ->). assert (p = v) as -> by congruence.
  do 2 (split; [done|]). split.
  - symmetry. pose proof (desc_set s (Sys (y_fs s) (y_ftable s) (y_pipes s)
      (<[cur:=set_u_ofile (<[fd:=Some f]> (u_ofile v)) v]> (y_procs s))) cur v fd None (Some f) Hp Ho eq_refl) as D.
    exact D.
  - exists (set_u_ofile (<[fd:=Some f]> (u_ofile v)) v). cbn. split.
    + apply list_lookup_insert_eq. by eapply lookup_lt_Some.
    + apply list_lookup_insert_eq. by eapply lookup_lt_Some.
Qed.

Lemma set_fd_ok fd f s r s' : fd_is s fd f -> set_fd cur fd None s = Ret (r, s') ->
  y_ftable s' = y_ftable s /\ y_pipes s' = y_pipes s /\ f :: desc s' ≡ₚ desc s.
Proof.
  intros (p & Hp & Hf) H. unfold set_fd in H. apply upd_proc_inv in H as (p' & Hp' & ->).
  assert (p' = p) as -> by congruence. do 2 (split; [done|]). symmetry.
  exact (desc_set s (Sys (y_fs s) (y_ftable s) (y_pipes s) (<[cur:=set_u_ofile (<[fd:=None]> (u_ofile p)) p]> (y_procs s)))
    cur p fd (Some f) None Hp Hf eq_refl).
Qed.

End fds.

(** * The system calls *)

Section calls.
Context {S : Type} `{!Cache S}.
Implicit Types (s : sys S).
Context (dev_read : Z -> option (nat -> Z -> M (fs S) (Z * list Z))).
Context (dev_write : Z -> option (nat -> list Z -> Z -> M (fs S) Z)).

(** Between system calls: the references are the descriptors, and every open file has a type. *)
Definition good s : Prop := tabs [] (desc s) s.

Definition good_after {A} (m : M (sys S) A) : Prop := forall s r s', good s -> m s = Ret (r, s') -> good s'.

Lemma good_keep s s' : same_tabs s s' -> good s -> good s'.
Proof.
  intros H G. unfold good. rewrite (same_fds_desc s s') by (by apply same_tabs_fds). by eapply tabs_keep.
Qed.
Lemma good_steady {A} (m : M (sys S) A) : steady m -> good_after m.
Proof.
  intros Hm s r s' G H. destruct (Hm _ _ _ _ _ G H) as [F T]. unfold good. by rewrite (same_fds_desc s s').
Qed.
Lemma good_keeps {A} (m : M (sys S) A) : keeps m -> good_after m.
Proof. intros Hm. by apply good_steady, steady_keeps. Qed.

(** The run [H] leaves the tables alone. *)
Ltac good_run H :=
  match type of H with ?m _ = _ =>
    let K := fresh in assert (K : keeps m) by keeps; eapply (good_keeps _ K); [|exact H]; clear K
  end.

Lemma sys_dup_good cur : good_after (sys_dup cur).
Proof.
  intros s r s' G H. unfold sys_dup in H. minv. apply argfd_ok in Hrun as [K Hfd].
  apply (good_keep _ _ K) in G. destruct v as [[fd f]|]; [|by minv]. minv.
  apply fdalloc_ok in Hrun. destruct v as [fd'|]; [|by minv; subst]. minv.
  destruct Hrun as (E1 & E2 & D & _). assert (T : tabs [] (desc st) st0) by (by eapply tabs_eq).
  destruct (filedup_ok _ _ _ _ _ _ T Hrun0) as (F & -> & T'). unfold good.
  rewrite (same_fds_desc _ _ F). eapply tabs_perm; [|exact T']. by rewrite D.
Qed.

Lemma sys_close_good cur : good_after (sys_close cur).
Proof.
  intros s r s' G H. unfold sys_close in H. minv. apply argfd_ok in Hrun as [K Hfd].
  apply (good_keep _ _ K) in G. destruct v as [[fd f]|]; [|by minv]. minv.
  destruct (set_fd_ok _ _ _ _ _ _ Hfd Hrun) as (E1 & E2 & D).
  assert (T : tabs [] (f :: desc st0) st0) by (eapply tabs_eq; [done..|]; by eapply tabs_perm).
  destruct (fileclose_ok _ _ _ _ _ _ _ T Hrun0) as [F T']. unfold good. by rewrite (same_fds_desc _ _ F).
Qed.

Lemma sys_pipe_good cur page : good_after (sys_pipe cur page).
Proof.
  intros s r s' G H. unfold sys_pipe in H. minv. apply kept_argptr in Hrun as K.
  apply (good_keep _ _ K) in G. destruct v as [a|]; [|by minv]. minv.
  destruct (pipealloc_ok _ _ _ _ _ _ G Hrun0) as [F T]. rewrite <- (same_fds_desc _ _ F) in T.
  destruct v as [[rf wf]|]; [|by minv]. minv. apply fdalloc_ok in Hrun1.
  destruct v as [fd0|].
  - destruct Hrun1 as (E1 & E2 & D & Hfd). apply fdalloc_ok in Hrun2.
    assert (T1 : tabs [] (wf :: desc st1) st1).
    { eapply tabs_eq; [done..|]. eapply tabs_perm; [|exact T]. rewrite D. apply Permutation_swap. }
    destruct v0 as [fd1|].
    + destruct Hrun2 as (E3 & E4 & D2 & _).
      good_run H. eapply tabs_eq; [done..|]. eapply tabs_perm; [|exact T1]. by rewrite D2.
    + subst st2. minv. destruct (set_fd_ok _ _ _ _ _ _ Hfd Hrun1) as (E3 & E4 & D2).
      assert (T2 : tabs [] (rf :: wf :: desc st2) st2).
      { eapply tabs_eq; [done..|]. eapply tabs_perm; [|exact T1]. rewrite <- D2. apply Permutation_swap. }
      destruct (fileclose_ok _ _ _ _ _ _ _ T2 Hrun2) as [F3 T3].
      destruct (fileclose_ok _ _ _ _ _ _ _ T3 Hrun3) as [F4 T4].
      unfold good. by rewrite (same_fds_desc _ _ F4), (same_fds_desc _ _ F3).
  - subst st1. minv. destruct (fileclose_ok _ _ _ _ _ _ _ T Hrun3) as [F3 T3].
    destruct (fileclose_ok _ _ _ _ _ _ _ T3 Hrun4) as [F4 T4].
    unfold good. by rewrite (same_fds_desc _ _ F4), (same_fds_desc _ _ F3).
Qed.

Lemma sys_open_good cur : good_after (sys_open cur dev_read dev_write).
Proof.
  intros s r s' G H. unfold sys_open in H. minv. apply kept_argstr in Hrun as K.
  apply (good_keep _ _ K) in G. destruct v as [path|]; [|by minv]. minv. apply kept_argint in Hrun0 as K0.
  apply (good_keep _ _ K0) in G. destruct v as [omode|]; [|by minv]. minv.
  apply (good_keeps _ (kept_myproc _) _ _ _ G) in Hrun1 as G1.
  apply (good_keeps _ kept_begin_op _ _ _ G1) in Hrun2 as G2.
  match type of Hrun3 with ?m _ = _ => assert (Hk : keeps m) by keeps end.
  apply (good_keeps _ Hk _ _ _ G2) in Hrun3 as G3. clear - H G3. rename st3 into s, G3 into G.
  destruct v1 as [ip|]; [|by good_run H].
  minv. destruct (filealloc_ok _ _ _ _ _ G Hrun) as [F HA]. destruct v0 as [f|].
  2:{ subst st. injection Hrun0 as <- <-. by good_run H. }
  destruct HA as [Hf T]. rewrite <- (same_fds_desc _ _ F) in Hf, T. apply fdalloc_ok in Hrun0. destruct v1 as [fd|].
  - destruct Hrun0 as (E1 & E2 & D & _).
    assert (T0 : tabs [f] (desc st0) st0).
    { eapply tabs_eq; [done..|]. eapply tabs_perm; [|exact T]. by rewrite D. }
    minv. apply kept_on_fs in Hrun0. apply kept_end_op in Hrun1.
    assert (K : same_tabs st0 st2) by (by etrans).
    apply (tabs_keep _ _ _ _ K) in T0. rewrite <- (same_fds_desc st0 st2) in T0 by (by apply same_tabs_fds).
    apply get_f_inv in Hrun2 as [-> Hx]. unfold put_f in Hrun3. minv. unfold good, desc. cbn [y_procs].
    change (y_procs st2 ≫= fds_of) with (desc st2).
    eapply (tabs_insert [f] [] _ _ _ _ f); [exact T0|exact Hx|..|reflexivity].
    + set_solver.
    + set_solver.
    + done.
    + pose proof (tb_raw _ _ _ T0 _ _ Hx (list_elem_of_here _ _)) as Hn.
      eapply (tab_inv_nonpipe (desc st2)); [apply T0|exact Hx|by rewrite Hn|done|..|done].
      * apply (ti_ref _ _ _ (tb_inv _ _ _ T0) _ _ Hx).
      * cbn. intros Hr. exfalso. rewrite (ti_ref _ _ _ (tb_inv _ _ _ T0) _ _ Hx) in Hr.
        assert (f ∈ desc st2) as Hin.
        { rewrite (same_fds_desc st0 st2) by (by apply same_tabs_fds). rewrite D. by left. }
        apply cnt_elem in Hin. lia.
  - subst st0. minv. destruct (fileclose_ok _ _ _ _ _ _ _ T Hrun0) as [F1 T1].
    apply tabs_drop in T1; [|done]. rewrite <- (same_fds_desc _ _ F1) in T1.
    apply kept_on_fs in Hrun1. apply kept_end_op in Hrun2.
    eapply good_keep; [exact Hrun2|]. by eapply good_keep.
Qed.

(** * The descriptors across [fork] and [exit] *)

(** The descriptors from [j] on of process [np] are closed. *)
Definition closed_from s (np j : nat) : Prop := exists q, y_procs s !! np = Some q /\
  length (u_ofile q) = NOFILE /\ forall k o, (j <= k)%nat -> u_ofile q !! k = Some o -> o = None.

Lemma fork_files_good cur np s r s' : good s -> closed_from s np 0 ->
  fork_files cur np s = Ret (r, s') -> good s'.
Proof.
  intros G C H. unfold fork_files in H. minv.
  assert (J : good st /\ closed_from st np (0 + NOFILE)).
  { revert Hrun. apply (for_up_inv (fun j s => good s /\ closed_from s np j)); [|done]. clear.
    intros j s s' Hj [G C] H. unfold fork_file in H. minv. apply myproc_inv in Hrun as [-> Hp].
    destruct C as (q & Hq & Hl & Hn).
    destruct (u_ofile v !! j) as [[f|]|] eqn:E; [|minv; split; [done|exists q; split_and!; [done..|intros; eapply Hn; [|done]; lia]]|done].
    minv. destruct (filedup_ok _ _ _ _ _ _ G Hrun) as (F & -> & T).
    apply upd_proc_inv in H as (q' & Hq' & ->). destruct (same_fds_lookup _ _ _ _ F Hq) as (q0 & Hq0 & Eo).
    assert (q0 = q') as -> by congruence.
    assert (Hjn : u_ofile q' !! j = Some None).
    { destruct (lookup_lt_is_Some_2 (u_ofile q') j) as [o Ho]; [rewrite Eo; lia|].
      rewrite Ho. f_equal. apply (Hn j); [lia|]. by rewrite <- Eo. }
    split.
    - set (s' := Sys _ _ _ _). pose proof (desc_set st s' np q' j None (Some f) Hq' Hjn eq_refl) as D.
      cbn [option_list app] in D. rewrite (same_fds_desc _ _ F) in D. apply (tabs_eq _ _ st); [done..|].
      by eapply tabs_perm; [exact D|].
    - exists (set_u_ofile (<[j := Some f]> (u_ofile q')) q'). cbn [y_procs].
      split; [apply list_lookup_insert_eq; by eapply lookup_lt_Some|]. cbn [u_ofile set_u_ofile].
      split; [by rewrite length_insert, Eo|]. intros k o Hk Ho. rewrite list_lookup_insert_ne in Ho by lia.
      apply (Hn k); [lia|]. by rewrite <- Eo. }
  destruct J as [G1 _]. apply (good_keeps _ (kept_myproc _) _ _ _ G1) in Hrun0 as G2.
  apply (good_keeps _ (kept_on_fs _) _ _ _ G2) in Hrun1 as G3.
  by eapply (good_keeps _ (kept_set_cwd _ _)); [|exact H].
Qed.

(** [exit] leaves no descriptor open. *)
Lemma exit_files_good cur s r s' : good s -> exit_files cur s = Ret (r, s') -> good s'.
Proof.
  intros G H. unfold exit_files in H. apply bind_inv in H as (u & st & Hrun & H). assert (G1 : good st).
  { revert Hrun. apply (for_up_inv (fun _ => good)); [|done]. clear.
    intros j s s' _ G H. unfold exit_file in H. minv. apply myproc_inv in Hrun as [-> Hp].
    destruct (u_ofile v !! j) as [[f|]|] eqn:E; [|by minv|done]. minv.
    assert (Hfd : fd_is cur s j f) by (by exists v).
    pose proof (fd_is_desc _ _ _ _ Hfd) as Hin. apply elem_of_Permutation in Hin as [R HR].
    assert (T : tabs [] (f :: R) s) by (by eapply tabs_perm).
    destruct (fileclose_ok _ _ _ _ _ _ _ T Hrun) as [F T1].
    destruct (set_fd_ok _ _ _ _ _ _ (fd_is_same _ _ _ _ _ F Hfd) H) as (E1 & E2 & D).
    rewrite (same_fds_desc _ _ F), HR in D. apply Permutation_cons_inv in D.
    eapply tabs_eq; [done..|]. eapply tabs_perm; [|exact T1]. by rewrite D. }
  by good_run H.
Qed.

End calls.
