(* ===== verification/FileClaims.v ===== *)
(** The file table over all runs of the system calls on files, the descriptors across
    [fork] and [exit], and the arguments that system calls accept.

    A step of the system is one whole system call of one process; calls that would sleep
    on a pipe are steps once they can finish. *)

From stdpp Require Import gmap.
From S2P Require Import Prelude CString Mmu Pipe Cache Bio Log Fs File Sysfile FileInv FileOps FileThm.

Section claims.
Context {S : Type} `{!Cache S}.
Implicit Types (s : sys S).
Context (dev_read : Z -> option (nat -> Z -> M (fs S) (Z * list Z))).
Context (dev_write : Z -> option (nat -> list Z -> Z -> M (fs S) Z)).
Context (exec : nat -> list Z -> list (list Z) -> M (sys S) Z).
Context (other : nat -> Z -> M (sys S) Z).

(** The numbers of the system calls of sysfile.c, [exec] apart. *)
Definition file_calls : list Z := [4; 5; 8; 9; 10; 15; 16; 17; 18; 19; 20; 21].

Definition do_syscall (cur : nat) (page : option (list Z)) (num : Z) : M (sys S) Z :=
  syscall cur dev_read dev_write page (exec cur) (other cur) num.

(** At boot no file is open: [ftable] is zero, and so is every [ofile]. *)
Definition boot_files s : Prop :=
  y_ftable s = replicate NFILE (File FD_NONE 0 false false 0 0 0) /\ y_pipes s = ∅ /\
  forall p, p ∈ y_procs s -> u_ofile p = replicate NOFILE None.

(** One step: a system call that returns; [fork] into a slot without descriptors; [exit];
    or anything that leaves the open files and the descriptors alone, such as user code,
    the file system below, and [exec]. *)
Inductive fstep : sys S -> sys S -> Prop :=
| step_call cur page num r s s' : num ∈ file_calls ->
    do_syscall cur page num s = Ret (r, s') -> fstep s s'
| step_fork cur np r s s' : closed_from s np 0 ->
    fork_files cur np s = Ret (r, s') -> fstep s s'
| step_exit cur r s s' : exit_files cur s = Ret (r, s') -> fstep s s'
| step_rest s s' : same_tabs s s' -> fstep s s'.

Lemma boot_good s : boot_files s -> good s.
Proof.
  intros (Ht & Hm & Hp). assert (Hd : desc s = []).
  { unfold desc. induction (y_procs s) as [|p l IH]; [done|]. cbn.
    rewrite IH by (intros; apply Hp; by right). unfold fds_of. rewrite (Hp p) by (by left). done. }
  assert (Hz : forall f x, y_ftable s !! f = Some x -> x = File FD_NONE 0 false false 0 0 0).
  { intros f x Hx. rewrite Ht in Hx. by apply lookup_replicate in Hx as [-> _]. }
  unfold good. rewrite Hd. split; [rewrite Hm; split|..].
  - intros f x Hx. by rewrite (Hz f x Hx).
  - set_solver.
  - intros f x Hx. by rewrite (Hz f x Hx).
  - intros f x Hx Hp'. by rewrite (Hz f x Hx) in Hp'.
  - intros f f' x x' Hx Hx' Hp'. by rewrite (Hz f x Hx) in Hp'.
  - intros k p w Hk. by rewrite lookup_empty in Hk.
  - intros k p Hk. by rewrite lookup_empty in Hk.
  - set_solver.
  - intros f x Hx Hr. rewrite (Hz f x Hx) in Hr. cbn in Hr. lia.
Qed.

Lemma fstep_good s s' : fstep s s' -> good s -> good s'.
Proof.
  intros H G. destruct H as [cur page num r s s' Hn H|cur np r s s' C H|cur r s s' H|s s' K].
  - assert (Hg : good_after (do_syscall cur page num)); [|by eapply Hg].
    unfold file_calls in Hn. rewrite !elem_of_cons, elem_of_nil in Hn. unfold do_syscall, syscall.
    destruct Hn as [->|[->|[->|[->|[->|[->|[->|[->|[->|[->|[->|[->|[]]]]]]]]]]]]]; cbn [syscalls Z.ltb Z.compare andb Pos.compare Pos.compare_cont].
    + apply sys_pipe_good.
    + apply good_steady, steady_sys_read.
    + apply good_keeps, kept_sys_fstat.
    + apply good_keeps, kept_sys_chdir.
    + apply sys_dup_good.
    + apply sys_open_good.
    + apply good_steady, steady_sys_write.
    + apply good_keeps, kept_sys_mknod.
    + apply good_keeps, kept_sys_unlink.
    + apply good_keeps, kept_sys_link.
    + apply good_keeps, kept_sys_mkdir.
    + apply sys_close_good.
  - by eapply fork_files_good.
  - by eapply exit_files_good.
  - by eapply good_keep.
Qed.

Lemma reachable_good s : reachable boot_files fstep s -> good s.
Proof. apply reachable_invariant; [apply boot_good|]. intros a b G H. by eapply fstep_good. Qed.

(** C4. In every reachable state of the system calls on files, [fork] and [exit]: the
    [ref] of every entry of the file table is the number of descriptors, over all
    processes, that refer to it; an entry without references is free and one with
    references has a type; a file of a pipe refers to a pipe that exists and whose end on
    that side is open, there is one file per end, and every pipe that is allocated has an
    open end with a file for it, so that no pipe is leaked or used after it is freed. *)
Theorem file_table_invariant s : reachable boot_files fstep s ->
  tab_inv (desc s) (y_ftable s) (y_pipes s) /\
  forall f x, y_ftable s !! f = Some x -> 0 < f_ref x -> f_type x <> FD_NONE.
Proof.
  intros [I _ K]%reachable_good. split; [done|]. intros f x Hx Hr Ht.
  specialize (K f x Hx Hr Ht). set_solver.
Qed.

(** A descriptor refers to an open file. *)
Lemma fd_is_open cur s fd f : good s -> fd_is cur s fd f ->
  exists x, y_ftable s !! f = Some x /\ 1 <= f_ref x /\ f_type x <> FD_NONE.
Proof.
  intros [I _ K] Hfd. pose proof (fd_is_desc _ _ _ _ Hfd) as Hin.
  destruct (lookup_lt_is_Some_2 (y_ftable s) f) as [x Hx]; [by apply (ti_range _ _ _ I)|].
  exists x. pose proof (ti_ref _ _ _ I _ _ Hx) as Hr. apply cnt_elem in Hin.
  split; [done|]. split; [lia|]. intros Ht. specialize (K f x Hx ltac:(lia) Ht). set_solver.
Qed.

(** The run from [s] ends, or goes to sleep. *)
Definition returns_or_sleeps {A} (m : M (sys S) A) s : Prop :=
  match m s with Ret _ | Block => True | _ => False end.

(** The calls on a file of a pipe. *)
Lemma pipe_file_calls cur s fd f x p : good s -> fd_is cur s fd f -> y_procs s !! cur = Some p ->
  y_ftable s !! f = Some x -> 1 <= f_ref x -> f_type x = FD_PIPE ->
  (exists s', fileclose cur f s = Ret (tt, s')) /\
  (forall n, returns_or_sleeps (fileread cur dev_read f n) s) /\
  (forall src n, returns_or_sleeps (filewrite cur dev_write f src n) s).
Proof.
  intros [I _ _] Hfd Hp Hx Hr Ht. destruct (ti_pipe _ _ _ I _ _ Hx Ht) as [_ (q & Hq & _)].
  assert (Hg : get_f f s = Ret (x, s)) by (unfold get_f; by rewrite Hx).
  assert (Hm : myproc cur s = Ret (p, s)) by (unfold myproc; by rewrite Hp).
  split_and!.
  - unfold fileclose, bind at 1. rewrite Hg, (proj2 (Z.ltb_ge _ _)) by lia.
    unfold bind, put_f, modify, ret. destruct (0 <? f_ref x - 1); [by eexists|]. rewrite Ht.
    unfold close_pipe, bind, get_pipe. cbn [y_pipes]. rewrite Hq.
    destruct (pipeclose _ _) as [[p' c] fr]. by eexists.
  - intros n. unfold returns_or_sleeps, fileread, bind at 1. rewrite Hg. unfold bind at 1. rewrite Hm.
    destruct (negb _); [done|]. rewrite Ht. unfold bind at 1, get_pipe. rewrite Hq.
    by destruct (piperead _ _ _) as [[[r l|] c] p'].
  - intros src n. unfold returns_or_sleeps, filewrite, bind at 1. rewrite Hg. unfold bind at 1. rewrite Hm.
    destruct (negb _); [done|]. rewrite Ht. unfold bind at 1, get_pipe. rewrite Hq.
    by destruct (pipewrite _ _ _) as [[[r|] c] p'].
Qed.

(** C26. In every reachable state a descriptor of a process refers to an open file:
    [filedup] does not panic on it, and when it is an end of a pipe then [fileclose],
    [fileread] and [filewrite] return or go to sleep, and never panic or touch a pipe
    that has been freed. *)
Theorem open_descriptor_usable cur s fd f : reachable boot_files fstep s -> fd_is cur s fd f ->
  exists x, y_ftable s !! f = Some x /\ 1 <= f_ref x /\ f_type x <> FD_NONE /\
    (exists s', filedup f s = Ret (f, s')) /\
    (f_type x = FD_PIPE ->
      (exists s', fileclose cur f s = Ret (tt, s')) /\
      (forall n, returns_or_sleeps (fileread cur dev_read f n) s) /\
      (forall src n, returns_or_sleeps (filewrite cur dev_write f src n) s)).
Proof.
  intros G%reachable_good Hfd. destruct (fd_is_open _ _ _ _ G Hfd) as (x & Hx & Hr & Ht).
  exists x. do 3 (split; [done|]). split.
  - unfold filedup, bind, get_f. rewrite Hx. rewrite (proj2 (Z.ltb_ge _ _)) by lia. by eexists.
  - intros Hp. pose proof Hfd as (p & Hpr & _). by eapply pipe_file_calls.
Qed.

End claims.

(** * [fork] and [exit] *)

Section forkexit.
Context {S : Type} `{!Cache S}.
Implicit Types (s : sys S).
Context (cur : nat).

Lemma procs_ofile s p : y_procs s !! cur = Some p -> (u_ofile <$> y_procs s) !! cur = Some (u_ofile p).
Proof. intros Hp. by rewrite list_lookup_fmap, Hp. Qed.
Lemma ofile_procs s o : (u_ofile <$> y_procs s) !! cur = Some o -> exists p, y_procs s !! cur = Some p /\ u_ofile p = o.
Proof. intros H. rewrite list_lookup_fmap in H. by apply fmap_Some in H as (p & Hp & ->); exists p. Qed.

(** The descriptors of all processes after [n] turns of the loop of [fork]. *)
Lemma fork_loop_ofile np s st r n p q : cur <> np -> (n <= NOFILE)%nat ->
  y_procs s !! cur = Some p -> length (u_ofile p) = NOFILE ->
  y_procs s !! np = Some q -> u_ofile q = replicate NOFILE None ->
  for_up n 0 (fork_file cur np) s = Ret (r, st) ->
  u_ofile <$> y_procs st =
    <[np := take n (u_ofile p) ++ replicate (NOFILE - n) None]> (u_ofile <$> y_procs s).
Proof.
  intros Hne Hn Hp Hl Hq Hqo.
  apply (for_up_inv (fun j st => u_ofile <$> y_procs st =
    <[np := take j (u_ofile p) ++ replicate (NOFILE - j) None]> (u_ofile <$> y_procs s)) _ n 0).
  2:{ rewrite Nat.sub_0_r. cbn [take app]. symmetry. apply list_insert_id. by rewrite list_lookup_fmap, Hq, <- Hqo. }
  intros j s1 s2 Hj E H. unfold fork_file in H. minv. apply myproc_inv in Hrun as [-> Hp1].
  apply procs_ofile in Hp1 as Hp2. rewrite E, list_lookup_insert_ne, (procs_ofile _ _ Hp) in Hp2 by done.
  injection Hp2 as Ev. rewrite <- Ev in H.
  destruct (lookup_lt_is_Some_2 (u_ofile p) j) as [o Ho]; [lia|]. rewrite Ho in H.
  assert (Hnext : <[j := o]> (take j (u_ofile p) ++ replicate (NOFILE - j) None) =
    take (Datatypes.S j) (u_ofile p) ++ replicate (NOFILE - Datatypes.S j) None).
  { rewrite (take_S_r _ _ _ Ho), <- (assoc_L (++)). rewrite insert_app_r_alt by (rewrite length_take; lia).
    rewrite length_take, Nat.min_l, Nat.sub_diag by lia. f_equal.
    by replace (NOFILE - j)%nat with (Datatypes.S (NOFILE - Datatypes.S j)) by lia. }
  destruct o as [f|].
  - minv. apply filedup_fds in Hrun as [F ->]. apply upd_proc_inv in H as (q' & Hq' & ->). cbn [y_procs].
    rewrite list_fmap_insert, F, E, list_insert_insert_eq. cbn [u_ofile set_u_ofile].
    apply (f_equal (.!! np)) in F. rewrite E, !list_lookup_fmap, Hq', list_lookup_insert_eq in F.
    2:{ rewrite length_fmap. by eapply lookup_lt_Some. }
    injection F as ->. by rewrite Hnext.
  - minv. rewrite <- Hnext, E. f_equal. symmetry. apply list_insert_id.
    rewrite lookup_app_r, length_take by (rewrite length_take; lia). apply lookup_replicate_2. lia.
Qed.
Lemma fork_files_ofile np s s' r p q : cur <> np ->
  y_procs s !! cur = Some p -> length (u_ofile p) = NOFILE ->
  y_procs s !! np = Some q -> u_ofile q = replicate NOFILE None ->
  fork_files cur np s = Ret (r, s') ->
  u_ofile <$> y_procs s' = <[np := u_ofile p]> (u_ofile <$> y_procs s).
Proof.
  intros Hne Hp Hl Hq Hqo H. unfold fork_files in H. apply bind_inv in H as (u & st & Hrun & H).
  apply (fork_loop_ofile _ _ _ _ _ p q) in Hrun as E; [|done..].
  rewrite Nat.sub_diag, app_nil_r, take_ge in E by lia. rewrite <- E.
  match type of H with ?m _ = _ => assert (Hk : keeps m) by keeps end. by apply Hk in H as (_ & _ & H).
Qed.

(** The descriptors after [n] turns of the loop of [exit]. *)
Lemma exit_loop_ofile s st r n p : (n <= NOFILE)%nat ->
  y_procs s !! cur = Some p -> length (u_ofile p) = NOFILE ->
  for_up n 0 (exit_file cur) s = Ret (r, st) ->
  u_ofile <$> y_procs st = <[cur := replicate n None ++ drop n (u_ofile p)]> (u_ofile <$> y_procs s).
Proof.
  intros Hn Hp Hl.
  apply (for_up_inv (fun j st => u_ofile <$> y_procs st =
    <[cur := replicate j None ++ drop j (u_ofile p)]> (u_ofile <$> y_procs s)) _ n 0).
  2:{ cbn [replicate app]. rewrite drop_0. symmetry. apply list_insert_id. by rewrite list_lookup_fmap, Hp. }
  intros j s1 s2 Hj E H. unfold exit_file in H. minv. apply myproc_inv in Hrun as [-> Hp1].
  apply procs_ofile in Hp1 as Hp2. rewrite E, list_lookup_insert_eq in Hp2
    by (rewrite length_fmap; by eapply lookup_lt_Some).
  injection Hp2 as Ev. rewrite <- Ev in H.
  destruct (lookup_lt_is_Some_2 (u_ofile p) j) as [o Ho]; [lia|].
  rewrite lookup_app_r in H by (rewrite length_replicate; lia).
  rewrite length_replicate, Nat.sub_diag, lookup_drop, Nat.add_0_r, Ho in H.
  assert (Hnext : <[j := None]> (replicate j None ++ drop j (u_ofile p)) =
    replicate (Datatypes.S j) None ++ drop (Datatypes.S j) (u_ofile p)).
  { rewrite insert_app_r_alt by (rewrite length_replicate; lia). rewrite length_replicate, Nat.sub_diag.
    rewrite (drop_S _ _ _ Ho). cbn [list_insert]. rewrite replicate_S_end, <- (assoc_L (++)). done. }
  destruct o as [f|].
  - minv. apply fileclose_fds in Hrun as F. unfold set_fd in H. apply upd_proc_inv in H as (q' & Hq' & ->).
    cbn [y_procs]. rewrite list_fmap_insert, F, E, list_insert_insert_eq. cbn [u_ofile set_u_ofile].
    apply (f_equal (.!! cur)) in F. rewrite E, !list_lookup_fmap, Hq', list_lookup_insert_eq in F.
    2:{ rewrite length_fmap. by eapply lookup_lt_Some. }
    injection F as ->. by rewrite Hnext.
  - minv. rewrite <- Hnext, E. f_equal. symmetry. apply list_insert_id.
    rewrite lookup_app_r by (rewrite length_replicate; lia).
    by rewrite length_replicate, Nat.sub_diag, lookup_drop, Nat.add_0_r.
Qed.

Lemma exit_files_ofile s s' r p :
  y_procs s !! cur = Some p -> length (u_ofile p) = NOFILE ->
  exit_files cur s = Ret (r, s') ->
  u_ofile <$> y_procs s' = <[cur := replicate NOFILE None]> (u_ofile <$> y_procs s).
Proof.
  intros Hp Hl H. unfold exit_files in H. apply bind_inv in H as (u & st & Hrun & H).
  apply (exit_loop_ofile _ _ _ _ p) in Hrun as E; [|done..].
  rewrite drop_ge, app_nil_r in E by lia. rewrite <- E.
  match type of H with ?m _ = _ => assert (Hk : keeps m) by keeps end. by apply Hk in H as (_ & _ & H).
Qed.

End forkexit.

Section roundtrip.
Context {S : Type} `{!Cache S}.
Implicit Types (s : sys S).
Context (dev_read : Z -> option (nat -> Z -> M (fs S) (Z * list Z))).
Context (dev_write : Z -> option (nat -> list Z -> Z -> M (fs S) Z)).
Context (exec : nat -> list Z -> list (list Z) -> M (sys S) Z).
Context (other : nat -> Z -> M (sys S) Z).

(** [fork] gives the child the descriptors of its parent, and adds to the [ref] of
    every open file the number of times the parent has it open. When the child exits,
    the descriptors of all processes and the references of all files are what they were
    before the [fork]. *)
Theorem fork_exit_descriptors cur np s s1 s2 p q r r' :
  reachable boot_files (fstep dev_read dev_write exec other) s -> cur <> np ->
  y_procs s !! cur = Some p -> length (u_ofile p) = NOFILE ->
  y_procs s !! np = Some q -> u_ofile q = replicate NOFILE None ->
  fork_files cur np s = Ret (r, s1) -> exit_files np s1 = Ret (r', s2) ->
  u_ofile <$> y_procs s1 = <[np := u_ofile p]> (u_ofile <$> y_procs s) /\
  (forall f x x1, y_ftable s !! f = Some x -> y_ftable s1 !! f = Some x1 ->
    f_ref x1 = f_ref x + Z.of_nat (cnt f (fds_of p))) /\
  u_ofile <$> y_procs s2 = u_ofile <$> y_procs s /\
  (forall f x x2, y_ftable s !! f = Some x -> y_ftable s2 !! f = Some x2 -> f_ref x2 = f_ref x).
Proof.
  intros G%reachable_good Hne Hp Hl Hq Hqo Hf He.
  assert (G1 : good s1).
  { eapply fork_files_good; [exact G| |exact Hf]. exists q. rewrite Hqo, length_replicate.
    do 2 (split; [done|]). intros k o _ Ho. by apply lookup_replicate in Ho as [-> _]. }
  pose proof (exit_files_good _ _ _ _ G1 He) as G2.
  apply (fork_files_ofile _ _ _ _ _ p q) in Hf as E1; [|done..].
  pose proof (procs_ofile _ _ _ Hq) as Hnp.
  assert (exists q1, y_procs s1 !! np = Some q1 /\ u_ofile q1 = u_ofile p) as (q1 & Hq1 & Eq1).
  { apply ofile_procs. rewrite E1. apply list_lookup_insert_eq. by eapply lookup_lt_Some. }
  apply (exit_files_ofile _ _ _ _ q1) in He as E2; [|done|by rewrite Eq1].
  assert (E3 : u_ofile <$> y_procs s2 = u_ofile <$> y_procs s).
  { rewrite E2, E1, list_insert_insert_eq. apply list_insert_id. by rewrite Hnp, Hqo. }
  split; [done|]. split; [|split; [done|]].
  - intros f x x1 Hx Hx1. rewrite (ti_ref _ _ _ (tb_inv _ _ _ G) _ _ Hx), (ti_ref _ _ _ (tb_inv _ _ _ G1) _ _ Hx1).
    rewrite !desc_fmap, E1. pose proof (bind_insert (omap id) _ _ _ (u_ofile p) Hnp) as D.
    rewrite Hqo in D. change (omap id (replicate NOFILE None)) with (@nil nat) in D. cbn [app] in D.
    rewrite <- D, cnt_app. unfold fds_of. lia.
  - intros f x x2 Hx Hx2. rewrite (ti_ref _ _ _ (tb_inv _ _ _ G) _ _ Hx), (ti_ref _ _ _ (tb_inv _ _ _ G2) _ _ Hx2).
    by rewrite !desc_fmap, E3.
Qed.

End roundtrip.
