(* ===== verification/FileDemo.v ===== *)
(** A system with three processes, where the theorems about open files apply: the first
    process makes a pipe, duplicates its read end, forks, and the child exits. *)

From stdpp Require Import gmap.
From S2P Require Import Prelude CString Sleeplock Mmu Pipe Cache Bio BioSpec Log LogSpec LogRes Fs.
From S2P Require Import File Sysfile FileArgs FileInv FileOps FileThm FileClaims.

Definition demo_uproc (pid : Z) : uproc :=
  Uproc (replicate NOFILE None) 0 4096 (fun _ => 0) 16 false pid.
Definition demo_root : inode :=
  Inode 1 1 3 initsleeplock true T_DIR 0 0 1 0 (replicate 13 0).
Definition demo_sys : sys bio :=
  Sys (Fs (Lst demo_bio (boot_log 2 31)) (Sb 64 28 8 31 2 33 35) [demo_root])
    (replicate NFILE (File FD_NONE 0 false false 0 0 0)) ∅ [demo_uproc 1; demo_uproc 2; demo_uproc 3].

#[local] Existing Instance bio_cache.
Local Abbreviation B := (M (sys bio)).
Definition no_dev_read : Z -> option (nat -> Z -> M (fs bio) (Z * list Z)) := fun _ => None.
Definition no_dev_write : Z -> option (nat -> list Z -> Z -> M (fs bio) Z) := fun _ => None.
Definition no_exec (cur : nat) (path : list Z) (argv : list (list Z)) : B Z := ret (-1).
Definition no_other (cur : nat) (num : Z) : B Z := ret 0.

Definition after {A} (m : B A) (s : sys bio) : sys bio :=
  match m s with Ret (_, s') => s' | _ => s end.
Lemma after_run {A} (m : B A) s r : (match m s with Ret (a, _) => a = r | _ => False end) ->
  m s = Ret (r, after m s).
Proof. unfold after. destruct (m s) as [[a s']| | | |]; [by intros ->|done..]. Qed.

Definition demo_call (num : Z) : B Z :=
  do_syscall (Cache0 := bio_cache 1) no_dev_read no_dev_write no_exec no_other 0 (Some (replicate 512 0)) num.
(** [pipe], [dup], [fork] and the [exit] of the child. *)
Definition demo_piped : sys bio := after (demo_call 4) demo_sys.
Definition demo_dupped : sys bio := after (demo_call 10) demo_piped.
Definition demo_forked : sys bio := after (fork_files 0 1) demo_dupped.
Definition demo_exited : sys bio := after (exit_files (Cache0 := bio_cache 1) 1) demo_forked.

Abbreviation demo_step := (fstep (Cache0 := bio_cache 1) no_dev_read no_dev_write no_exec no_other).

Lemma demo_boot_files : boot_files demo_sys.
Proof.
  split; [done|]. split; [done|]. intros p Hp. unfold demo_sys in Hp. cbn [y_procs] in Hp.
  rewrite !elem_of_cons, elem_of_nil in Hp. by destruct Hp as [->|[->|[->|[]]]].
Qed.

Lemma demo_dupped_reachable : reachable boot_files demo_step demo_dupped.
Proof.
  apply (reach_step _ _ demo_piped).
  - apply (reach_step _ _ demo_sys); [apply reach_init, demo_boot_files|].
    apply (step_call _ _ _ _ 0 (Some (replicate 512 0)) 4 0); [vm_compute; left|].
    refine (after_run (demo_call 4) demo_sys 0 _). vm_compute. reflexivity.
  - apply (step_call _ _ _ _ 0 (Some (replicate 512 0)) 10 2); [unfold file_calls; set_solver|].
    refine (after_run (demo_call 10) demo_piped 2 _). vm_compute. reflexivity.
Qed.

Lemma demo_fork_run : fork_files 0 1 demo_dupped = Ret (tt, demo_forked).
Proof. refine (after_run (fork_files 0 1) demo_dupped tt _). vm_compute. reflexivity. Qed.
Lemma demo_exit_run : exit_files (Cache0 := bio_cache 1) 1 demo_forked = Ret (tt, demo_exited).
Proof. refine (after_run (exit_files (Cache0 := bio_cache 1) 1) demo_forked tt _). vm_compute. reflexivity. Qed.
Lemma demo_forked_reachable : reachable boot_files demo_step demo_forked.
Proof.
  eapply reach_step; [apply demo_dupped_reachable|]. eapply (step_fork _ _ _ _ 0 1); [|apply demo_fork_run].
  exists (demo_uproc 2). split; [vm_compute; reflexivity|]. split; [done|].
  intros k o _ Ho. by apply lookup_replicate in Ho as [-> _].
Qed.

(** The read end of the pipe is open four times after the [fork], the write end twice. *)
Lemma file_table_invariant_witness :
  (f_ref <$> y_ftable demo_forked !! 0%nat) = Some 4 /\ (f_ref <$> y_ftable demo_forked !! 1%nat) = Some 2 /\
  cnt 0 (desc demo_forked) = 4%nat /\ cnt 1 (desc demo_forked) = 2%nat /\
  tab_inv (desc demo_forked) (y_ftable demo_forked) (y_pipes demo_forked).
Proof.
  split; [vm_compute; reflexivity|]. split; [vm_compute; reflexivity|].
  split; [vm_compute; reflexivity|]. split; [vm_compute; reflexivity|].
  apply (file_table_invariant (Cache0 := bio_cache 1) no_dev_read no_dev_write no_exec no_other demo_forked demo_forked_reachable).
Defined.

(** Descriptor 1 of the child is the write end of the pipe. *)
Lemma open_descriptor_usable_witness : exists x, y_ftable demo_forked !! 1%nat = Some x /\ 1 <= f_ref x.
Proof.
  assert (Hfd : fd_is 1 demo_forked 1 1) by (eexists; split; vm_compute; reflexivity).
  destruct (open_descriptor_usable (Cache0 := bio_cache 1) no_dev_read no_dev_write no_exec no_other
    1 demo_forked 1 1 demo_forked_reachable Hfd) as (x & Hx & Hr & _).
  exact (ex_intro _ x (conj Hx Hr)).
Defined.

Lemma fork_exit_descriptors_witness : u_ofile <$> y_procs demo_exited = u_ofile <$> y_procs demo_dupped.
Proof.
  eapply (fork_exit_descriptors (Cache0 := bio_cache 1) no_dev_read no_dev_write no_exec no_other 0 1
    demo_dupped demo_forked demo_exited).
  - exact demo_dupped_reachable.
  - discriminate.
  - vm_compute. reflexivity.
  - vm_compute. reflexivity.
  - vm_compute. reflexivity.
  - vm_compute. reflexivity.
  - exact demo_fork_run.
  - exact demo_exit_run.
Defined.

(** The buffer of 8 bytes that the demo passes to [pipe] is accepted; it is at address 0. *)
Lemma arguments_in_user_memory_witness :
  argptr 0 0 8 demo_sys = Ret (Some 0, demo_sys) /\ 0 + 8 <= 4096.
Proof.
  destruct (arguments_in_user_memory 0 demo_sys (demo_uproc 1)) as [H _].
  - reflexivity.
  - cbn. unfold KERNBASE. split; discriminate.
  - destruct (H 0 8) as (r & Hr & Hb); [split; [discriminate|reflexivity]|].
    assert (r = Some 0) as -> by (vm_compute in Hr; congruence).
    exact (conj Hr (proj2 (proj2 (Hb 0 eq_refl)))).
Defined.
