(* ===== verification/Console.v ===== *)
(** [console.c]: the screen, the formatted output of the kernel and the line
    discipline of the console.

    The screen is the text memory at [0xb8000] with the cursor in two registers of the
    controller; the bytes handed to the serial port are a trace. A character of the input
    is an unsigned byte. A loop that never ends is the outcome [Block]. *)

From S2P Require Import Prelude CString Printf Cache Log Fs.

Definition INPUT_BUF : Z := 128.
Definition BACKSPACE : Z := 0x100.

(** [input] *)
Record input := Input { in_buf : list Z; in_r : Z; in_w : Z; in_e : Z }.

(** [panicked], the screen, the cursor registers, the serial line, [input], and the
    number of calls [wakeup(&input.r)]. *)
Record cons := Cons {
  c_panicked : bool;
  c_crt : list Z;
  c_hi : Z;
  c_lo : Z;
  c_uart : list Z;
  c_input : input;
  c_wakeups : nat
}.

Definition set_crt (v : list Z) (s : cons) : cons :=
  Cons (c_panicked s) v (c_hi s) (c_lo s) (c_uart s) (c_input s) (c_wakeups s).
Definition set_cursor (hi lo : Z) (s : cons) : cons :=
  Cons (c_panicked s) (c_crt s) hi lo (c_uart s) (c_input s) (c_wakeups s).
Definition set_uart (v : list Z) (s : cons) : cons :=
  Cons (c_panicked s) (c_crt s) (c_hi s) (c_lo s) v (c_input s) (c_wakeups s).
Definition set_input (v : input) (s : cons) : cons :=
  Cons (c_panicked s) (c_crt s) (c_hi s) (c_lo s) (c_uart s) v (c_wakeups s).

(** * The screen *)

(** [crt[i] = v] *)
Definition put_crt (i v : Z) : M cons unit := fun s =>
  if (0 <=? i) && (i <? Z.of_nat (length (c_crt s))) then
    Ret (tt, set_crt (<[Z.to_nat i := v]> (c_crt s)) s)
  else Fault.

(** [memmove(crt, crt+80, sizeof(crt[0])*23*80)] *)
Definition scroll (crt : list Z) : list Z := splice crt 0 (take (23 * 80) (drop 80 crt)).
(** [memset(crt+pos, 0, sizeof(crt[0])*(24*80 - pos))] *)
Definition blank (pos : Z) (crt : list Z) : list Z :=
  splice crt (Z.to_nat pos) (replicate (Z.to_nat (24 * 80 - pos)) 0).

(** The rest of [cgaputc], at the new position of the cursor. *)
Definition cga_place (pos : Z) : M cons unit :=
  if (pos <? 0) || (25 * 80 <? pos) then panic "pos under/overflow"
  else
    let* pos :=
      (if 24 <=? pos / 80 then
         modify (fun s => set_crt (scroll (c_crt s)) s) ;;;
         modify (fun s => set_crt (blank (pos - 80) (c_crt s)) s) ;;;
         ret (pos - 80)
       else ret pos) in
    modify (set_cursor (u8 (Z.shiftr pos 8)) (u8 pos)) ;;;
    put_crt pos (Z.lor 32 0x0700).

Definition cgaputc (c : Z) : M cons unit :=
  let* s := gets id in
  let pos := Z.lor (Z.shiftl (c_hi s) 8) (c_lo s) in
  if c =? 10 then cga_place (pos + (80 - pos mod 80))
  else if c =? BACKSPACE then cga_place (if 0 <? pos then pos - 1 else pos)
  else put_crt pos (Z.lor (Z.land c 0xff) 0x0700) ;;; cga_place (pos + 1).

(** What [uartputc] is called with. *)
Definition uartputc (c : Z) : M cons unit := modify (fun s => set_uart (c_uart s ++ [u8 c]) s).

Definition consputc (c : Z) : M cons unit :=
  let* s := gets id in
  if c_panicked s then block
  else
    (if c =? BACKSPACE then uartputc 8 ;;; uartputc 32 ;;; uartputc 8 else uartputc c) ;;;
    cgaputc c.

Fixpoint consputs (l : list Z) : M cons unit :=
  match l with [] => ret tt | c :: l => consputc c ;;; consputs l end.

(** * Formatted output *)

(** [static char digits[] = "0123456789abcdef"] *)
Definition kdigit (d : Z) : Z := if d <? 10 then 48 + d else 97 + (d - 10).

Fixpoint kdigits_loop (fuel : nat) (x base : Z) : option (list Z) :=
  match fuel with
  | O => None
  | S fuel =>
      let d := kdigit (x mod base) in
      let x := x / base in
      if x =? 0 then Some [d] else r ← kdigits_loop fuel x base; Some (d :: r)
  end.

(** The characters that the kernel's [printint] prints. *)
Definition kprintint (xx base : Z) (sgn : bool) : option (list Z) :=
  let neg := sgn && (xx <? 0) in
  let x := if neg then u32 (- xx) else u32 xx in
  buf ← kdigits_loop 32 x base;
  let buf := if neg then buf ++ [45] else buf in
  if (16 <? length buf)%nat then None else Some (reverse buf).

(** What [%c] prints, [c] being the character after the percent sign. *)
Definition cprintf_conv (str : Z -> list Z) (c : Z) (argp : list Z) : option (list Z * list Z) :=
  if c =? 100 then
    match argp with a :: argp => o ← kprintint (s32 a) 10 true; Some (o, argp) | [] => None end
  else if (c =? 120) || (c =? 112) then
    match argp with a :: argp => o ← kprintint (s32 a) 16 false; Some (o, argp) | [] => None end
  else if c =? 115 then
    match argp with
    | a :: argp => o ← cstr (if a =? 0 then [40; 110; 117; 108; 108; 41; 0] else str a); Some (o, argp)
    | [] => None
    end
  else if c =? 37 then Some ([37], argp)
  else Some ([37; c], argp).

(** The loop of [cprintf]; [pct] tells whether the last character was a percent sign. *)
Fixpoint cprintf_loop (str : Z -> list Z) (fmt : list Z) (pct : bool) (argp : list Z) : option (list Z) :=
  match fmt with
  | [] => None
  | f :: fmt =>
      let c := Z.land f 0xff in
      if c =? 0 then Some []
      else if pct then
        '(o, argp) ← cprintf_conv str c argp;
        r ← cprintf_loop str fmt false argp; Some (o ++ r)
      else if negb (c =? 37) then r ← cprintf_loop str fmt false argp; Some (c :: r)
      else cprintf_loop str fmt true argp
  end.

Definition cprintf (str : Z -> list Z) (fmt argp : list Z) : M cons unit :=
  match cprintf_loop str fmt false argp with Some l => consputs l | None => fault end.

(** ["lapicid %d: panic: "], [" %p"] and the newline *)
Definition fmt_lapicid : list Z :=
  [108; 97; 112; 105; 99; 105; 100; 32; 37; 100; 58; 32; 112; 97; 110; 105; 99; 58; 32; 0].
Definition fmt_pc : list Z := [32; 37; 112; 0].
Fixpoint print_pcs (str : Z -> list Z) (pcs : list Z) : M cons unit :=
  match pcs with [] => ret tt | pc :: pcs => cprintf str fmt_pc [pc] ;;; print_pcs str pcs end.

(** [panic(s)]; [pcs] is what [getcallerpcs] finds. It does not return. *)
Definition kpanic (str : Z -> list Z) (lapicid : Z) (s pcs : list Z) : M cons unit :=
  cprintf str fmt_lapicid [lapicid] ;;;
  cprintf str s [] ;;;
  cprintf str [10; 0] [] ;;;
  print_pcs str pcs ;;;
  modify (fun s => Cons true (c_crt s) (c_hi s) (c_lo s) (c_uart s) (c_input s) (c_wakeups s)) ;;;
  block.

(** * Input *)

(** [C(x)] *)
Definition Ctl (x : Z) : Z := x - 64.

Definition buf_at (i : input) (k : Z) : Z := default 0 (in_buf i !! Z.to_nat (k mod INPUT_BUF)).

(** [while(input.e != input.w && input.buf[(input.e-1) % INPUT_BUF] != '\n')] *)
Fixpoint kill_line (fuel : nat) : M cons unit :=
  let* s := gets id in
  let i := c_input s in
  if negb (in_e i =? in_w i) && negb (buf_at i (u32 (in_e i - 1)) =? 10) then
    match fuel with
    | O => fun _ => NoFuel
    | S fuel =>
        modify (set_input (Input (in_buf i) (in_r i) (in_w i) (u32 (in_e i - 1)))) ;;;
        consputc BACKSPACE ;;;
        kill_line fuel
    end
  else ret tt.

(** One character; the result tells whether it asks for the list of processes. *)
Definition console_char (c : Z) : M cons bool :=
  let* s := gets id in
  let i := c_input s in
  if c =? Ctl 80 then ret true
  else if c =? Ctl 85 then kill_line (Z.to_nat INPUT_BUF) ;;; ret false
  else if (c =? Ctl 72) || (c =? 0x7f) then
    (if negb (in_e i =? in_w i) then
       modify (set_input (Input (in_buf i) (in_r i) (in_w i) (u32 (in_e i - 1)))) ;;;
       consputc BACKSPACE
     else ret tt) ;;;
    ret false
  else if negb (c =? 0) && (u32 (in_e i - in_r i) <? INPUT_BUF) then
    let c := if c =? 13 then 10 else c in
    let e := u32 (in_e i + 1) in
    modify (set_input (Input (<[Z.to_nat (in_e i mod INPUT_BUF) := u8 c]> (in_buf i)) (in_r i) (in_w i) e)) ;;;
    consputc c ;;;
    (if (c =? 10) || (c =? Ctl 68) || (e =? u32 (in_r i + INPUT_BUF)) then
       modify (fun s =>
         let i := c_input s in
         Cons (c_panicked s) (c_crt s) (c_hi s) (c_lo s) (c_uart s)
           (Input (in_buf i) (in_r i) (in_e i) (in_e i)) (S (c_wakeups s)))
     else ret tt) ;;;
    ret false
  else ret false.

(** [consoleintr(getc)], where [getc] returns the elements of the list and then -1; the
    result is [doprocdump]. *)
Fixpoint consoleintr (cs : list Z) : M cons bool :=
  match cs with
  | [] => ret false
  | c :: cs =>
      if c <? 0 then ret false
      else
        let* d := console_char c in
        let* r := consoleintr cs in
        ret (d || r)
  end.

(** How a call of [consoleread] ends for now: it returned [r] with the bytes it stored,
    or it sleeps on [&input.r] with [n] bytes to go. *)
Inductive cres :=
| CRet (r : Z) (bytes : list Z)
| CSleep (n : nat) (got : list Z).

(** The loop of [consoleread]. *)
Fixpoint consoleread_loop (killed : bool) (target : Z) (n : nat) (got : list Z) (i : input) : cres * input :=
  match n with
  | O => (CRet (target - 0) got, i)
  | S n' =>
      if in_r i =? in_w i then
        if killed then (CRet (-1) got, i) else (CSleep n got, i)
      else
        let c := buf_at i (in_r i) in
        let i' := Input (in_buf i) (u32 (in_r i + 1)) (in_w i) (in_e i) in
        if c =? Ctl 68 then
          (CRet (target - Z.of_nat n) got,
           if Z.of_nat n <? target then Input (in_buf i) (u32 (in_r i' - 1)) (in_w i) (in_e i) else i')
        else if c =? 10 then (CRet (target - Z.of_nat n') (got ++ [c]), i')
        else consoleread_loop killed target n' (got ++ [c]) i'
  end.

Section devices.
Context {S : Type} `{!Cache S}.
Context (pid : Z).
Local Abbreviation C := (M (fs S * cons)).

Definition on_inodes {A} (m : M (fs S) A) : C A := fun s =>
  match m s.1 with
  | Ret (a, f) => Ret (a, (f, s.2))
  | Panic e => Panic e | Block => Block | Fault => Fault | NoFuel => NoFuel
  end.
Definition on_cons {A} (m : M cons A) : C A := fun s =>
  match m s.2 with
  | Ret (a, c) => Ret (a, (s.1, c))
  | Panic e => Panic e | Block => Block | Fault => Fault | NoFuel => NoFuel
  end.

(** From the loop on, first or after a [sleep] with [n] bytes to go. *)
Definition consoleread_run (killed : bool) (ip : nat) (target : Z) (n : nat) (got : list Z) : C cres :=
  let* s := gets snd in
  let '(r, i) := consoleread_loop killed target n got (c_input s) in
  on_cons (modify (set_input i)) ;;;
  match r with
  | CRet r l => on_inodes (ilock pid ip) ;;; ret (CRet r l)
  | CSleep n got => ret (CSleep n got)
  end.

(** For a negative [n] the loop is not entered and the result is 0. *)
Definition consoleread (killed : bool) (ip : nat) (n : Z) : C cres :=
  on_inodes (iunlock pid ip) ;;;
  consoleread_run killed ip (Z.max 0 n) (Z.to_nat n) [].

Definition consolewrite (ip : nat) (buf : list Z) (n : Z) : C Z :=
  on_inodes (iunlock pid ip) ;;;
  on_cons (consputs ((fun c => Z.land c 0xff) <$> take (Z.to_nat n) buf)) ;;;
  on_inodes (ilock pid ip) ;;;
  ret n.
End devices.
