(* ===== verification/ConsoleThm.v ===== *)
(** The console: the screen stays in its bounds and shows what is printed, and the ring
    of [input] implements a queue of finished lines and a line that is edited. *)

From S2P Require Import Prelude CString Printf Cache Log Fs Console.

(** * The screen *)

Definition cursor (s : cons) : Z := c_hi s * 256 + c_lo s.

(** The cursor is in one of the first 24 rows. *)
Record screen_ok (s : cons) : Prop := {
  so_run : c_panicked s = false;
  so_crt : length (c_crt s) = (25 * 80)%nat;
  so_hi : 0 <= c_hi s < 256;
  so_lo : 0 <= c_lo s < 256;
  so_pos : cursor s < 24 * 80
}.

(** The cell of a printed character. *)
Definition cell (c : Z) : Z := Z.lor (Z.land c 0xff) 0x0700.

Lemma cursor_set pos : 0 <= pos < 2 ^ 16 -> u8 (Z.shiftr pos 8) * 256 + u8 pos = pos.
Proof.
  intros Hp. unfold u8. rewrite Z.shiftr_div_pow2 by lia. change (2 ^ 8) with 256.
  rewrite (Z.mod_small (pos / 256)); [|split; [apply Z.div_pos; lia|apply Z.div_lt_upper_bound; lia]].
  pose proof (Z.div_mod pos 256). lia.
Qed.

Lemma length_scroll crt : length crt = (25 * 80)%nat -> length (scroll crt) = (25 * 80)%nat.
Proof.
  intros H. unfold scroll. rewrite length_splice; [done|]. rewrite length_take, length_drop. lia.
Qed.
Lemma length_blank pos crt : length crt = (25 * 80)%nat -> 0 <= pos <= 24 * 80 -> length (blank pos crt) = (25 * 80)%nat.
Proof.
  intros H Hp. unfold blank. rewrite length_splice; [done|]. rewrite length_replicate. lia.
Qed.

(** Cells up to [pos] move up by one row. *)
Lemma scrolled_lookup crt i : length crt = (25 * 80)%nat -> (i < 23 * 80)%nat ->
  blank (23 * 80) (scroll crt) !! i = crt !! (80 + i)%nat.
Proof.
  intros H Hi. unfold blank. rewrite splice_lookup_out; [| |left; lia].
  - unfold scroll. rewrite splice_lookup_in.
    + rewrite lookup_take_lt, lookup_drop by lia. f_equal. lia.
    + rewrite length_take, length_drop. lia.
    + rewrite length_take, length_drop. lia.
  - rewrite length_replicate, length_scroll by done. lia.
Qed.

Lemma put_crt_run i v s : 0 <= i < Z.of_nat (length (c_crt s)) ->
  put_crt i v s = Ret (tt, set_crt (<[Z.to_nat i := v]> (c_crt s)) s).
Proof.
  intros Hi. unfold put_crt. by rewrite (proj2 (Z.leb_le _ _)), (proj2 (Z.ltb_lt _ _)) by lia.
Qed.

(** The other parts of the console. *)
Definition same_rest (s s' : cons) : Prop :=
  c_uart s' = c_uart s /\ c_input s' = c_input s /\ c_wakeups s' = c_wakeups s.

(** The cells [l] before position [pos]. *)
Definition before (crt : list Z) (pos : Z) (l : list Z) : Prop :=
  Z.of_nat (length l) <= pos /\
  forall j c, l !! j = Some c -> crt !! (Z.to_nat pos - length l + j)%nat = Some c.

Lemma cga_place_ok pos s : c_panicked s = false -> length (c_crt s) = (25 * 80)%nat -> 0 <= pos <= 24 * 80 ->
  exists s', cga_place pos s = Ret (tt, s') /\ screen_ok s' /\ same_rest s s' /\
    forall l, before (c_crt s) pos l -> (length l <= 23 * 80)%nat -> before (c_crt s') (cursor s') l.
Proof.
  intros Hr Hl Hp. unfold cga_place. rewrite (proj2 (Z.ltb_ge _ _)), (proj2 (Z.ltb_ge _ _)) by lia. cbn [orb].
  destruct (Z.leb_spec 24 (pos / 80)) as [Hs|Hs].
  - assert (pos = 24 * 80) as -> by (pose proof (Z.div_mod pos 80); pose proof (Z.mod_pos_bound pos 80); lia).
    change (24 * 80 - 80) with (23 * 80). unfold bind, modify, ret. cbn [c_crt set_crt].
    set (crt := blank (23 * 80) (scroll (c_crt s))).
    assert (Hlc : length crt = (25 * 80)%nat) by (unfold crt; rewrite length_blank; [done|by apply length_scroll|lia]).
    rewrite put_crt_run by (cbn [c_crt set_cursor set_crt]; rewrite Hlc; lia).
    eexists. split; [done|]. split; [split; cbn; try done; rewrite ?length_insert; done|]. split; [done|].
    intros l [Hll Hb] Hlen. unfold cursor. cbn [c_hi c_lo c_crt set_cursor set_crt].
    rewrite cursor_set by lia. split; [lia|]. intros j c Hj. pose proof (lookup_lt_Some _ _ _ Hj).
    rewrite list_lookup_insert_ne by lia. unfold crt. rewrite scrolled_lookup by (done || lia).
    rewrite <- (Hb j c Hj). f_equal. lia.
  - assert (pos < 24 * 80) by (pose proof (Z.div_mod pos 80); pose proof (Z.mod_pos_bound pos 80); lia).
    unfold bind, modify, ret. rewrite put_crt_run by (cbn [c_crt set_cursor]; rewrite Hl; lia).
    eexists. split; [done|]. split.
    { split; cbn; try done; [by rewrite length_insert|apply u8_range..|]. unfold cursor. cbn. rewrite cursor_set; lia. }
    split; [done|]. intros l [Hll Hb] Hlen. unfold cursor. cbn [c_hi c_lo c_crt set_cursor set_crt].
    rewrite cursor_set by lia. split; [lia|]. intros j c Hj. pose proof (lookup_lt_Some _ _ _ Hj).
    rewrite list_lookup_insert_ne by lia. by apply Hb.
Qed.

(** [cgaputc] keeps the screen in bounds, and puts a character before the cursor. *)
Lemma cgaputc_ok c s : screen_ok s -> exists s', cgaputc c s = Ret (tt, s') /\ screen_ok s' /\ same_rest s s' /\
  (c <> 10 -> c <> BACKSPACE -> forall l, before (c_crt s) (cursor s) l -> (length l < 23 * 80)%nat ->
     before (c_crt s') (cursor s') (l ++ [cell c])).
Proof.
  intros [Hr Hl Hh Hlo Hp]. unfold cgaputc, bind at 1, gets. cbn [id].
  rewrite lor_byte by lia. fold (cursor s). assert (Hc0 : 0 <= cursor s) by (unfold cursor; lia).
  destruct (Z.eqb_spec c 10) as [->|Hn].
  { pose proof (Z.mod_pos_bound (cursor s) 80). pose proof (Z.div_mod (cursor s) 80).
    assert (cursor s / 80 < 24) by (apply Z.div_lt_upper_bound; lia).
    destruct (cga_place_ok (cursor s + (80 - cursor s mod 80)) s) as (s' & -> & Hok & Hsame & _); [done|done|lia|].
    exists s'. done. }
  destruct (Z.eqb_spec c BACKSPACE) as [->|Hb].
  { destruct (cga_place_ok (if 0 <? cursor s then cursor s - 1 else cursor s) s) as (s' & -> & Hok & Hsame & _);
      [done|done|destruct (Z.ltb_spec 0 (cursor s)); lia|]. exists s'. done. }
  unfold bind. rewrite put_crt_run by (rewrite Hl; lia). fold (cell c).
  set (s1 := set_crt _ s).
  destruct (cga_place_ok (cursor s + 1) s1) as (s' & -> & Hok & Hsame & Hpl); [done|cbn; by rewrite length_insert|lia|].
  exists s'. do 3 (split; [done|]). intros _ _ l [Hll Hbf] Hlen. apply Hpl; [|rewrite length_app; cbn; lia].
  split; [rewrite length_app; cbn [length]; lia|]. intros j d Hj. rewrite length_app. cbn [length s1 set_crt c_crt].
  replace (Z.to_nat (cursor s + 1) - (length l + 1))%nat with (Z.to_nat (cursor s) - length l)%nat by lia.
  apply lookup_app_Some in Hj as [Hj|[Hj1 Hj2]].
  - pose proof (lookup_lt_Some _ _ _ Hj). rewrite list_lookup_insert_ne by lia. by apply Hbf.
  - apply list_lookup_singleton_Some in Hj2 as [Hj0 <-].
    replace (Z.to_nat (cursor s) - length l + j)%nat with (Z.to_nat (cursor s)) by lia.
    apply list_lookup_insert_eq. lia.
Qed.

Lemma consputc_ok c s : screen_ok s -> exists s', consputc c s = Ret (tt, s') /\ screen_ok s' /\
  c_input s' = c_input s /\ c_wakeups s' = c_wakeups s /\
  (c <> BACKSPACE -> c_uart s' = c_uart s ++ [u8 c]) /\
  (c <> 10 -> c <> BACKSPACE -> forall l, before (c_crt s) (cursor s) l -> (length l < 23 * 80)%nat ->
     before (c_crt s') (cursor s') (l ++ [cell c])).
Proof.
  intros Hs. unfold consputc, bind at 1, gets. cbn [id]. rewrite (so_run s Hs).
  assert (Hu : forall l, screen_ok (set_uart l s)) by (intros l; destruct Hs; by split).
  destruct (Z.eqb_spec c BACKSPACE) as [->|Hn]; unfold bind, uartputc, modify; cbn [c_uart set_uart].
  - match goal with |- context [cgaputc _ ?s1] => destruct (cgaputc_ok BACKSPACE s1) as (s' & -> & Hok & (_ & H2 & H3) & _); [apply Hu|] end.
    exists s'. split_and!; done.
  - match goal with |- context [cgaputc _ ?s1] => destruct (cgaputc_ok c s1) as (s' & -> & Hok & (H1 & H2 & H3) & H4); [apply Hu|] end.
    exists s'. split_and!; done.
Qed.

(** Whatever is printed, the kernel's console never writes outside the text memory
    and never panics, the cursor staying within the first 24 rows; every character goes
    to the serial line; and a text without newlines of up to 23 rows is on the screen
    right before the cursor, also when the screen has been scrolled. *)
Theorem console_shows_text l s : screen_ok s -> c_uart s = [] -> Forall (fun c => c <> BACKSPACE) l ->
  exists s', consputs l s = Ret (tt, s') /\ screen_ok s' /\ c_uart s' = u8 <$> l /\
    (Forall (fun c => c <> 10) l -> (length l <= 23 * 80)%nat ->
     before (c_crt s') (cursor s') (cell <$> l)).
Proof.
  intros Hs Hu Hl. cut (forall k, exists s', consputs l s = Ret (tt, s') /\ screen_ok s' /\
    c_uart s' = c_uart s ++ (u8 <$> l) /\
    (before (c_crt s) (cursor s) k -> Forall (fun c => c <> 10) l -> (length k + length l <= 23 * 80)%nat ->
     before (c_crt s') (cursor s') (k ++ (cell <$> l)))).
  { intros H. destruct (H []) as (s' & E & Hok & Hu' & Hb). exists s'. rewrite Hu in Hu'. split_and!; [done..|].
    intros Hn Hlen. apply Hb; [|done|done]. split; [unfold cursor; destruct Hs; cbn; lia|done]. }
  clear Hu. revert s Hs. induction l as [|c l IH]; intros s Hs k; cbn [consputs].
  - exists s. rewrite !app_nil_r. done.
  - inversion Hl as [|? ? Hc Hl']; subst. unfold bind.
    destruct (consputc_ok c s Hs) as (s1 & -> & Hs1 & _ & _ & Hu1 & Hb1).
    destruct (IH Hl' s1 Hs1 (k ++ [cell c])) as (s' & E & Hok & Hu' & Hb). exists s'.
    split_and!; [done|done| |].
    + rewrite Hu', Hu1 by done. by rewrite <- (assoc_L (++)).
    + intros Hk Hn Hlen. inversion Hn; subst. rewrite fmap_cons.
      change (k ++ cell c :: (cell <$> l)) with (k ++ [cell c] ++ (cell <$> l)). rewrite (assoc_L (++)).
      apply Hb; [|done|rewrite length_app; cbn in *; lia]. apply Hb1; [done..|cbn in *; lia].
Qed.
