(* ===== verification/ConsoleTty.v ===== *)
(** The input of the console implements a terminal with finished lines and one line that
    is edited. *)

From S2P Require Import Prelude CString Printf Cache Log Fs Console ConsoleThm.

(** * The ring *)

Lemma u32_cancel a x y : 0 <= x < 2 ^ 32 -> 0 <= y < 2 ^ 32 -> u32 (a + x) = u32 (a + y) -> x = y.
Proof.
  unfold u32. intros Hx Hy H.
  assert (Hd : (a + x - (a + y)) mod 2 ^ 32 = 0) by (rewrite Zminus_mod, H, Z.sub_diag; done).
  replace (a + x - (a + y)) with (x - y) in Hd by lia. apply Z.mod_divide in Hd as [k Hk]; lia.
Qed.
Lemma u32_mod_ring x : u32 x mod INPUT_BUF = x mod INPUT_BUF.
Proof. unfold u32, INPUT_BUF. apply Z.mod_mod_divide. exists (2 ^ 25). reflexivity. Qed.

(** The ring holds the bytes [q], finished, and then [ed], still to be edited. *)
Record ring (i : input) (q ed : list Z) : Prop := {
  rg_buf : length (in_buf i) = Z.to_nat INPUT_BUF;
  rg_r : 0 <= in_r i < 2 ^ 32;
  rg_w : in_w i = u32 (in_r i + Z.of_nat (length q));
  rg_e : in_e i = u32 (in_r i + Z.of_nat (length q + length ed));
  rg_len : (length q + length ed <= Z.to_nat INPUT_BUF)%nat;
  rg_at : forall j c, (q ++ ed) !! j = Some c ->
    in_buf i !! Z.to_nat ((in_r i + Z.of_nat j) mod INPUT_BUF) = Some c
}.

Section ring.
Context (i : input) (q ed : list Z) (R : ring i q ed).

Lemma ring_len : Z.of_nat (length q + length ed) <= 128.
Proof using R. pose proof (rg_len _ _ _ R) as H. unfold INPUT_BUF in H. lia. Qed.

Lemma ring_no_edit : (in_e i =? in_w i) = (length ed =? 0)%nat.
Proof using R.
  pose proof ring_len. rewrite (rg_e _ _ _ R), (rg_w _ _ _ R). destruct (Nat.eqb_spec (length ed) 0) as [->|Hne].
  - rewrite Nat.add_0_r. apply Z.eqb_refl.
  - apply Z.eqb_neq. intros E. apply u32_cancel in E; lia.
Qed.
Lemma ring_no_input : (in_r i =? in_w i) = (length q =? 0)%nat.
Proof using R.
  pose proof ring_len. pose proof (rg_r _ _ _ R). rewrite (rg_w _ _ _ R). destruct (Nat.eqb_spec (length q) 0) as [->|Hne].
  - rewrite Z.add_0_r, u32_small by done. apply Z.eqb_refl.
  - apply Z.eqb_neq. intros E. rewrite <- (u32_small (in_r i)) in E at 1 by done.
    rewrite <- (Z.add_0_r (in_r i)) in E at 1. apply u32_cancel in E; lia.
Qed.
Lemma ring_used : u32 (in_e i - in_r i) = Z.of_nat (length q + length ed).
Proof using R.
  pose proof ring_len. rewrite (rg_e _ _ _ R), u32_sub_l.
  replace (in_r i + Z.of_nat (length q + length ed) - in_r i) with (Z.of_nat (length q + length ed)) by lia.
  apply u32_small. lia.
Qed.

(** A character is added. *)
Lemma input_ring_put c : (length q + length ed < Z.to_nat INPUT_BUF)%nat ->
  ring (Input (<[Z.to_nat (in_e i mod INPUT_BUF) := c]> (in_buf i)) (in_r i) (in_w i) (u32 (in_e i + 1))) q (ed ++ [c]).
Proof using R.
  intros Hl. pose proof (rg_buf _ _ _ R) as Hb. unfold INPUT_BUF in Hl, Hb.
  split; cbn [in_buf in_r in_w in_e].
  - by rewrite length_insert.
  - apply R.
  - apply R.
  - rewrite (rg_e _ _ _ R), u32_add_l, length_app. cbn [length]. f_equal. lia.
  - rewrite length_app. cbn [length]. unfold INPUT_BUF. lia.
  - intros j d Hj. rewrite (rg_e _ _ _ R), u32_mod_ring. rewrite (assoc_L (++)) in Hj.
    pose proof (Z.mod_pos_bound (in_r i + Z.of_nat (length q + length ed)) 128) as Hm. unfold INPUT_BUF in *.
    apply lookup_app_Some in Hj as [Hj|[Hj1 Hj2]].
    + pose proof (lookup_lt_Some _ _ _ Hj) as Hlt. rewrite length_app in Hlt.
      rewrite list_lookup_insert_ne; [by apply (rg_at _ _ _ R)|]. intros E.
      pose proof (Z.mod_pos_bound (in_r i + Z.of_nat j) 128). apply Z2Nat.inj in E; [|lia..].
      pose proof (Z.div_mod (in_r i + Z.of_nat (length q + length ed)) 128).
      pose proof (Z.div_mod (in_r i + Z.of_nat j) 128). lia.
    + rewrite length_app in Hj1, Hj2. apply list_lookup_singleton_Some in Hj2 as [Hj0 <-].
      assert (j = length q + length ed)%nat as -> by lia. apply list_lookup_insert_eq. lia.
Qed.

(** The edited line is finished. *)
Lemma ring_commit : ring (Input (in_buf i) (in_r i) (in_e i) (in_e i)) (q ++ ed) [].
Proof using R.
  destruct R. split; cbn [in_buf in_r in_w in_e]; try done.
  - by rewrite length_app.
  - by rewrite length_app, Nat.add_0_r.
  - rewrite length_app. cbn. lia.
  - by rewrite app_nil_r.
Qed.
End ring.

(** The last edited character is taken back. *)
Lemma ring_unput i q ed' c : ring i q (ed' ++ [c]) ->
  buf_at i (u32 (in_e i - 1)) = c /\ ring (Input (in_buf i) (in_r i) (in_w i) (u32 (in_e i - 1))) q ed'.
Proof.
  intros R. pose proof (ring_len _ _ _ R) as Hlen. rewrite length_app in Hlen. cbn [length] in Hlen.
  pose proof (rg_e _ _ _ R) as He. rewrite length_app in He. cbn [length] in He.
  assert (He' : u32 (in_e i - 1) = u32 (in_r i + Z.of_nat (length q + length ed'))).
  { rewrite He, u32_sub_l. f_equal. lia. }
  split.
  - unfold buf_at. rewrite He', u32_mod_ring. rewrite (rg_at _ _ _ R _ c); [done|].
    rewrite (assoc_L (++)). rewrite lookup_app_r by (rewrite length_app; lia). by rewrite length_app, Nat.sub_diag.
  - split; cbn; [apply R..|done| |].
    + unfold INPUT_BUF. lia.
    + intros j d Hj. apply (rg_at _ _ _ R). rewrite (assoc_L (++)). by apply lookup_app_l_Some.
Qed.

(** The first finished byte is read. *)
Lemma ring_get i c q ed : ring i (c :: q) ed ->
  buf_at i (in_r i) = c /\ ring (Input (in_buf i) (u32 (in_r i + 1)) (in_w i) (in_e i)) q ed.
Proof.
  intros R. pose proof (rg_at _ _ _ R 0 c eq_refl) as H0. rewrite Z.add_0_r in H0. split.
  - unfold buf_at. by rewrite H0.
  - destruct R. cbn [length] in *. split; cbn [in_buf in_r in_w in_e]; try done.
    + apply u32_range.
    + rewrite u32_add_l. rewrite rg_w0. f_equal. lia.
    + rewrite u32_add_l. rewrite rg_e0. f_equal. lia.
    + lia.
    + intros j d Hj. rewrite <- (rg_at0 (S j) d Hj). f_equal. f_equal.
      rewrite <- (u32_mod_ring (u32 _ + _)), u32_add_l, u32_mod_ring. f_equal. lia.
Qed.

(** * The terminal *)

(** Finished input that nobody has read, and the line that is edited. *)
Record tty := Tty { t_lines : list Z; t_edit : list Z }.

(** What a character does, and whether it finishes the line. *)
Definition tty_char (c : Z) (t : tty) : tty * bool :=
  if c =? Ctl 80 then (t, false)
  else if c =? Ctl 85 then (Tty (t_lines t) [], false)
  else if (c =? Ctl 72) || (c =? 0x7f) then (Tty (t_lines t) (removelast (t_edit t)), false)
  else if negb (c =? 0) && (length (t_lines t) + length (t_edit t) <? Z.to_nat INPUT_BUF)%nat then
    let c := if c =? 13 then 10 else c in
    let ed := t_edit t ++ [c] in
    if (c =? 10) || (c =? Ctl 68) || (length (t_lines t) + length ed =? Z.to_nat INPUT_BUF)%nat
    then (Tty (t_lines t ++ ed) [], true)
    else (Tty (t_lines t) ed, false)
  else (t, false).

(** A read of the finished input: up to a newline, which is returned, or an end-of-file
    character, which is dropped when it is the first. *)
Fixpoint tty_read (killed : bool) (target : Z) (n : nat) (got q : list Z) : cres * list Z :=
  match n, q with
  | O, _ => (CRet target got, q)
  | S _, [] => (if killed then CRet (-1) got else CSleep n got, q)
  | S n', c :: q' =>
      if c =? Ctl 68 then (CRet (target - Z.of_nat n) got, if Z.of_nat n <? target then q else q')
      else if c =? 10 then (CRet (target - Z.of_nat n') (got ++ [c]), q')
      else tty_read killed target n' (got ++ [c]) q'
  end.

(** The console [s] is the terminal [t]. *)
Record console_is (s : cons) (t : tty) : Prop := {
  ci_screen : screen_ok s;
  ci_ring : ring (c_input s) (t_lines t) (t_edit t);
  ci_edit : Forall (fun c => c <> 10) (t_edit t)
}.

Lemma screen_ok_input i s : screen_ok s -> screen_ok (set_input i s).
Proof. intros []. by split. Qed.

(** A backspace on the screen after the last character is taken back. *)
Lemma console_erase s q ed c : console_is s (Tty q (ed ++ [c])) ->
  exists s', (modify (set_input (Input (in_buf (c_input s)) (in_r (c_input s)) (in_w (c_input s)) (u32 (in_e (c_input s) - 1)))) ;;;
      consputc BACKSPACE) s = Ret (tt, s') /\
    console_is s' (Tty q ed) /\ c_wakeups s' = c_wakeups s.
Proof.
  intros [Hs R He]. cbn in R, He. destruct (ring_unput _ _ _ _ R) as [_ R'].
  unfold bind, modify. set (s1 := set_input _ s).
  destruct (consputc_ok BACKSPACE s1) as (s' & -> & Hok & Hi & Hw & _); [by apply screen_ok_input|].
  exists s'. split; [done|]. split; [|done]. split; [done|by rewrite Hi|]. cbn. by apply Forall_app in He as [He _].
Qed.

(** [Ctl U] erases the line. *)
Lemma kill_line_ok fuel : forall s q ed, console_is s (Tty q ed) -> (length ed <= fuel)%nat ->
  exists s', kill_line fuel s = Ret (tt, s') /\ console_is s' (Tty q []) /\ c_wakeups s' = c_wakeups s.
Proof.
  induction fuel as [|fuel IH]; intros s q ed H Hf; cbn [kill_line]; unfold bind at 1, gets; cbn [id];
    rewrite (ring_no_edit _ _ _ (ci_ring _ _ H)); cbn [t_edit].
  - destruct ed; [|cbn in Hf; lia]. by exists s.
  - destruct ed as [|c ed] using rev_ind; [by exists s|]. clear IHed. rewrite length_app. cbn [length].
    rewrite (proj2 (Nat.eqb_neq _ _)) by lia. cbn [negb andb].
    destruct (ring_unput _ _ _ _ (ci_ring _ _ H)) as [-> _].
    pose proof (ci_edit _ _ H) as He. cbn in He. apply Forall_app in He as [_ He]. inversion He; subst.
    rewrite (proj2 (Z.eqb_neq _ _)) by done. cbn [negb].
    destruct (console_erase s q ed c H) as (s1 & E & H1 & Hw). unfold bind, modify in E |- *. rewrite E.
    destruct (IH s1 q ed H1) as (s' & E' & H' & Hw'); [rewrite length_app in Hf; cbn in Hf; lia|].
    exists s'. split; [done|]. split; [done|congruence].
Qed.

(** One character. *)
Lemma console_char_ok c s t : 0 <= c < 256 -> console_is s t ->
  exists s', console_char c s = Ret (c =? Ctl 80, s') /\ console_is s' (tty_char c t).1 /\
    c_wakeups s' = (c_wakeups s + if (tty_char c t).2 then 1 else 0)%nat.
Proof.
  intros Hc H. unfold console_char, tty_char. unfold bind at 1, gets. cbn [id].
  destruct (Z.eqb_spec c (Ctl 80)) as [->|HP]; [exists s; split_and!; [done|done|cbn; lia]|].
  destruct t as [q ed].
  destruct (Z.eqb_spec c (Ctl 85)) as [->|HU].
  { destruct (kill_line_ok (Z.to_nat INPUT_BUF) s q ed H) as (s' & E & H' & Hw).
    - pose proof (rg_len _ _ _ (ci_ring _ _ H)). cbn in *. lia.
    - unfold bind. rewrite E. exists s'. split_and!; [done|done|cbn; lia]. }
  destruct ((c =? Ctl 72) || (c =? 127)).
  { rewrite (ring_no_edit _ _ _ (ci_ring _ _ H)). cbn [t_edit t_lines fst snd].
    destruct ed as [|d ed] using rev_ind; [exists s; split_and!; [done|done|cbn; lia]|]. clear IHed.
    rewrite length_app. cbn [length]. rewrite (proj2 (Nat.eqb_neq _ _)) by lia. cbn [negb].
    destruct (console_erase s q ed d H) as (s1 & E & H1 & Hw). unfold bind, modify in E |- *. rewrite E.
    exists s1. rewrite removelast_last. split_and!; [done|done|lia]. }
  rewrite (ring_used _ _ _ (ci_ring _ _ H)). cbn [t_edit t_lines].
  destruct (negb (c =? 0)); cbn [andb]; [|exists s; split_and!; [done|done|cbn; lia]].
  destruct (Nat.ltb_spec (length q + length ed) (Z.to_nat INPUT_BUF)) as [Hl|Hl].
  2:{ rewrite (proj2 (Z.ltb_ge _ _)) by (unfold INPUT_BUF in *; lia). exists s. split_and!; [done|done|cbn; lia]. }
  rewrite (proj2 (Z.ltb_lt _ _)) by (unfold INPUT_BUF in *; lia).
  set (c' := if c =? 13 then 10 else c). assert (Hc' : 0 <= c' < 256) by (unfold c'; destruct (c =? 13); lia).
  unfold bind at 1, modify at 1. set (s1 := set_input _ s). unfold bind at 1.
  destruct (consputc_ok c' s1) as (s2 & -> & Hok & Hi & Hw & _);
    [apply screen_ok_input, H|].
  pose proof (input_ring_put _ _ _ (ci_ring _ _ H) (u8 c') Hl) as R1. assert (Hu8 : u8 c' = c') by (apply Z.mod_small; lia). rewrite Hu8 in R1.
  assert (Hfull : (u32 (in_e (c_input s) + 1) =? u32 (in_r (c_input s) + INPUT_BUF)) =
    (length q + length (ed ++ [c']) =? Z.to_nat INPUT_BUF)%nat).
  { rewrite (rg_e _ _ _ (ci_ring _ _ H)), u32_add_l, length_app. cbn [length t_lines t_edit].
    unfold INPUT_BUF in *. destruct (Nat.eqb_spec (length q + (length ed + 1)) (Z.to_nat 128)) as [Eq|Hne].
    - replace (in_r (c_input s) + Z.of_nat (length q + length ed) + 1) with (in_r (c_input s) + 128) by lia. apply Z.eqb_refl.
    - apply Z.eqb_neq. rewrite <- Z.add_assoc. intros E. apply u32_cancel in E; lia. }
  rewrite Hfull. clear Hfull.
  assert (R2 : ring (c_input s2) q (ed ++ [c'])).
  { rewrite Hi. unfold s1, set_input. cbn [c_input]. by rewrite Hu8. }
  destruct ((c' =? 10) || (c' =? Ctl 68) || (length q + length (ed ++ [c']) =? Z.to_nat INPUT_BUF)%nat) eqn:Efin;
    unfold bind, modify, ret; cbn [fst snd].
  - eexists. split; [reflexivity|]. split.
    + split; cbn; [destruct Hok; by split|by apply ring_commit|constructor].
    + cbn. rewrite Hw. unfold s1, set_input. cbn. lia.
  - exists s2. split; [reflexivity|]. split.
    + split; [done|done|]. cbn [t_edit]. apply Forall_app. split; [apply H|]. constructor; [|constructor].
      apply orb_false_iff in Efin as [[E1 _]%orb_false_iff _]. by apply Z.eqb_neq in E1.
    + rewrite Hw. unfold s1, set_input. cbn. lia.
Qed.

(** A read takes from the finished input. *)
Lemma consoleread_loop_ok killed target ed n : forall got i q, ring i q ed ->
  (consoleread_loop killed target n got i).1 = (tty_read killed target n got q).1 /\
  ring (consoleread_loop killed target n got i).2 (tty_read killed target n got q).2 ed.
Proof.
  induction n as [|n IH]; intros got i q R; cbn [consoleread_loop tty_read].
  { destruct q; cbn; by rewrite Z.sub_0_r. }
  rewrite (ring_no_input _ _ _ R). destruct q as [|c q]; cbn [length Nat.eqb].
  { by destruct killed. }
  destruct (ring_get i c q ed R) as [-> R'].
  destruct (c =? Ctl 68).
  - cbn [fst snd]. split; [done|]. destruct (Z.of_nat (S n) <? target); [|done].
    cbn [in_r]. rewrite u32_sub_l. replace (in_r i + 1 - 1) with (in_r i) by lia.
    rewrite u32_small by apply R. by destruct i.
  - destruct (c =? 10); [done|]. by apply IH.
Qed.

Definition tty_chars (cs : list Z) (t : tty) : tty := foldl (fun t c => (tty_char c t).1) t cs.

Lemma tty_char_lines c t : (tty_char c t).2 = false -> t_lines (tty_char c t).1 = t_lines t.
Proof. unfold tty_char. by repeat case_match. Qed.

Lemma consoleintr_ok cs : Forall (fun c => 0 <= c < 256) cs -> forall s t, console_is s t ->
  exists s', consoleintr cs s = Ret (existsb (Z.eqb (Ctl 80)) cs, s') /\ console_is s' (tty_chars cs t) /\
    (c_wakeups s <= c_wakeups s')%nat /\
    (t_lines (tty_chars cs t) <> t_lines t -> (c_wakeups s < c_wakeups s')%nat).
Proof.
  induction 1 as [|c cs Hc Hcs IH]; intros s t H; cbn [consoleintr tty_chars foldl existsb].
  - exists s. split_and!; done || lia.
  - rewrite (proj2 (Z.ltb_ge _ _)) by lia. unfold bind at 1.
    destruct (console_char_ok c s t Hc H) as (s1 & -> & H1 & Hw1). unfold bind.
    destruct (IH s1 _ H1) as (s' & -> & H' & Hw & Hne). exists s'.
    split; [by rewrite (Z.eqb_sym c)|]. split; [done|]. fold (tty_chars cs (tty_char c t).1) in *.
    destruct (tty_char c t).2 eqn:E2; [split; [lia|intros _; lia]|].
    apply tty_char_lines in E2. rewrite E2 in Hne. split; [lia|]. intros Hd. specialize (Hne Hd). lia.
Qed.

(** C31. The input of the console refines a terminal that keeps finished input and one
    line that is edited. Every interrupt of the keyboard or the serial port returns and
    changes the terminal as its characters say: [Ctl H] and delete take back the last
    character of the edited line and [Ctl U] the whole line, but never finished input; a
    newline, [Ctl D] and a full buffer of 128 bytes finish the line; further characters
    are dropped. Sleeping readers are woken whenever finished input is added. A read takes
    finished input up to a newline, or up to [Ctl D], and sleeps only when there is none. *)
Theorem console_refines_tty s t : console_is s t ->
  (forall cs, Forall (fun c => 0 <= c < 256) cs ->
    exists s', consoleintr cs s = Ret (existsb (Z.eqb (Ctl 80)) cs, s') /\ console_is s' (tty_chars cs t) /\
      (t_lines (tty_chars cs t) <> t_lines t -> (c_wakeups s < c_wakeups s')%nat)) /\
  (forall killed target n got, exists r i q,
    consoleread_loop killed target n got (c_input s) = (r, i) /\
    tty_read killed target n got (t_lines t) = (r, q) /\
    console_is (set_input i s) (Tty q (t_edit t))).
Proof.
  intros H. split.
  - intros cs Hcs. destruct (consoleintr_ok cs Hcs s t H) as (s' & E & H' & _ & Hw). eauto.
  - intros killed target n got.
    destruct (consoleread_loop_ok killed target (t_edit t) n got _ _ (ci_ring _ _ H)) as [E R].
    destruct (consoleread_loop _ _ _ _ _) as [r i], (tty_read _ _ _ _ _) as [r' q]. cbn in E, R. subst r'.
    exists r, i, q. split_and!; [done..|]. split; cbn; [apply screen_ok_input, H|done|apply H].
Qed.

(** * At boot *)

Definition cons_boot : cons :=
  Cons false (replicate 2000 0) 0 0 [] (Input (replicate 128 0) 0 0 0) 0.

Lemma cons_boot_is : console_is cons_boot (Tty [] []).
Proof.
  split.
  - split; try done; cbn; unfold cursor; cbn; lia.
  - split; try done; cbn; unfold INPUT_BUF; lia.
  - constructor.
Qed.

Lemma console_shows_text_witness : exists s', consputs [104; 105] cons_boot = Ret (tt, s') /\ c_uart s' = [104; 105].
Proof.
  destruct (console_shows_text [104; 105] cons_boot) as (s' & E & _ & U & _).
  - exact (ci_screen _ _ cons_boot_is).
  - reflexivity.
  - repeat constructor; discriminate.
  - exact (ex_intro _ s' (conj E U)).
Defined.

(** "lx", a backspace, "s" and return give the line "ls". *)
Lemma console_refines_tty_witness : exists s', consoleintr [108; 120; 8; 115; 13] cons_boot = Ret (false, s') /\
  console_is s' (Tty [108; 115; 10] []).
Proof.
  destruct (console_refines_tty cons_boot (Tty [] []) cons_boot_is) as [H _].
  destruct (H [108; 120; 8; 115; 13]) as (s' & E & H' & _).
  - repeat constructor; lia.
  - exact (ex_intro _ s' (conj E H')).
Defined.
