(* ===== verification/Kbd.v ===== *)
(** [kbd.c]: the decoding of scan codes, and what is typed on the keyboard as input of
    the console. *)

From S2P Require Import Prelude CString Printf Cache Log Fs Console ConsoleThm ConsoleTty.

Definition KBS_DIB : Z := 0x01.
Definition SHIFT : Z := 1.
Definition CTL : Z := 2.
Definition CAPSLOCK : Z := 8.
Definition E0ESC : Z := 64.

(** An array of 256 [uchar] with the first elements and some others given. *)
Definition table (l : list Z) (others : list (Z * Z)) : list Z :=
  foldl (fun t p => <[Z.to_nat p.1 := u8 p.2]> t) ((u8 <$> l) ++ replicate (256 - length l) 0) others.

Definition shiftcode : list Z := table []
  [(0x1d, 2); (0x2a, 1); (0x36, 1); (0x38, 4); (0x9d, 2);
   (0xb8, 4)].

Definition togglecode : list Z := table []
  [(0x3a, 8); (0x45, 16); (0x46, 32)].

Definition normalmap : list Z := table [
   0; 27; 49; 50; 51; 52; 53; 54; 55; 56; 57; 48; 45; 61; 8; 9;
   113; 119; 101; 114; 116; 121; 117; 105; 111; 112; 91; 93; 10; 0; 97; 115;
   100; 102; 103; 104; 106; 107; 108; 59; 39; 96; 0; 92; 122; 120; 99; 118;
   98; 110; 109; 44; 46; 47; 0; 42; 0; 32; 0; 0; 0; 0; 0; 0;
   0; 0; 0; 0; 0; 0; 0; 55; 56; 57; 45; 52; 53; 54; 43; 49;
   50; 51; 48; 46; 0; 0; 0; 0]
  [(0x9c, 10); (0xb5, 47); (0xc8, 226); (0xd0, 227); (0xc9, 230);
   (0xd1, 231); (0xcb, 228); (0xcd, 229); (0x97, 224); (0xcf, 225);
   (0xd2, 232); (0xd3, 233)].

Definition shiftmap : list Z := table [
   0; 27; 33; 64; 35; 36; 37; 94; 38; 42; 40; 41; 95; 43; 8; 9;
   81; 87; 69; 82; 84; 89; 85; 73; 79; 80; 123; 125; 10; 0; 65; 83;
   68; 70; 71; 72; 74; 75; 76; 58; 34; 126; 0; 124; 90; 88; 67; 86;
   66; 78; 77; 60; 62; 63; 0; 42; 0; 32; 0; 0; 0; 0; 0; 0;
   0; 0; 0; 0; 0; 0; 0; 55; 56; 57; 45; 52; 53; 54; 43; 49;
   50; 51; 48; 46; 0; 0; 0; 0]
  [(0x9c, 10); (0xb5, 47); (0xc8, 226); (0xd0, 227); (0xc9, 230);
   (0xd1, 231); (0xcb, 228); (0xcd, 229); (0x97, 224); (0xcf, 225);
   (0xd2, 232); (0xd3, 233)].

Definition ctlmap : list Z := table [
   0; 0; 0; 0; 0; 0; 0; 0; 0; 0; 0; 0; 0; 0; 0; 0;
   17; 23; 5; 18; 20; 25; 21; 9; 15; 16; 0; 0; 13; 0; 1; 19;
   4; 6; 7; 8; 10; 11; 12; 0; 0; 0; 0; 28; 26; 24; 3; 22;
   2; 14; 13; 0; 0; -17; 0; 0]
  [(0x9c, 13); (0xb5, -17); (0xc8, 226); (0xd0, 227); (0xc9, 230); (0xd1, 231); (0xcb, 228);
   (0xcd, 229); (0x97, 224); (0xcf, 225); (0xd2, 232); (0xd3, 233)].

Definition at256 (t : list Z) (i : Z) : Z := nth (Z.to_nat i) t 0.

(** [charcode[k]] *)
Definition charcode (k : Z) : list Z := if k =? 0 then normalmap else if k =? 1 then shiftmap else ctlmap.

(** [kbdgetc()] with [st] and [data] in the ports; the result and the new [shift]. *)
Definition kbdgetc (st data shift : Z) : Z * Z :=
  if Z.land st KBS_DIB =? 0 then (-1, shift)
  else if data =? 0xE0 then (0, Z.lor shift E0ESC)
  else if negb (Z.land data 0x80 =? 0) then
    let data := if negb (Z.land shift E0ESC =? 0) then data else Z.land data 0x7F in
    (0, Z.land shift (Z.lnot (Z.lor (at256 shiftcode data) E0ESC)))
  else
    let '(data, shift) :=
      if negb (Z.land shift E0ESC =? 0) then (Z.lor data 0x80, Z.land shift (Z.lnot E0ESC))
      else (data, shift) in
    let shift := Z.lor shift (at256 shiftcode data) in
    let shift := Z.lxor shift (at256 togglecode data) in
    let c := at256 (charcode (Z.land shift (Z.lor CTL SHIFT))) data in
    let c :=
      if negb (Z.land shift CAPSLOCK =? 0) then
        if (97 <=? c) && (c <=? 122) then c + (65 - 97)
        else if (65 <=? c) && (c <=? 90) then c + (97 - 65)
        else c
      else c in
    (c, shift).

(** The loop of [consoleintr] with [kbdgetc]: [data] are the bytes of the controller. *)
Fixpoint kbd_chars (data : list Z) (shift : Z) : list Z * Z :=
  match data with
  | [] => ([], shift)
  | d :: data =>
      let '(c, shift) := kbdgetc KBS_DIB d shift in
      let '(cs, shift) := kbd_chars data shift in (c :: cs, shift)
  end.

(** [kbdintr()]; the result is [doprocdump] and the new [shift]. *)
Definition kbdintr (data : list Z) (shift : Z) : M cons (bool * Z) :=
  let '(cs, shift) := kbd_chars data shift in
  let* d := consoleintr cs in
  ret (d, shift).

(** * The keys *)

(** Which modifiers are down and which locks are on, and whether an escape byte came. *)
Record keys := Keys {
  k_shift : bool; k_ctl : bool; k_alt : bool;
  k_caps : bool; k_num : bool; k_scroll : bool;
  k_ext : bool
}.

Definition bit (b : bool) (v : Z) : Z := if b then v else 0.
Definition shift_of (k : keys) : Z :=
  bit (k_shift k) 1 + bit (k_ctl k) 2 + bit (k_alt k) 4 + bit (k_caps k) 8 + bit (k_num k) 16 +
  bit (k_scroll k) 32 + bit (k_ext k) 64.

(** Key number [code] of the keyboard, or of its extension, goes down or up. *)
Definition key_event (ext : bool) (code : Z) (down : bool) (k : keys) : keys :=
  let is_shift := negb ext && ((code =? 0x2A) || (code =? 0x36)) in
  let is_ctl := code =? 0x1D in
  let is_alt := code =? 0x38 in
  Keys (if is_shift then down else k_shift k) (if is_ctl then down else k_ctl k) (if is_alt then down else k_alt k)
    (xorb (k_caps k) (down && negb ext && (code =? 0x3A)))
    (xorb (k_num k) (down && negb ext && (code =? 0x45)))
    (xorb (k_scroll k) (down && negb ext && (code =? 0x46))) false.

(** What a byte of the controller means: the escape byte, a key that goes up, or a key
    that goes down. *)
Definition keys_byte (d : Z) (k : keys) : keys :=
  if d =? 0xE0 then Keys (k_shift k) (k_ctl k) (k_alt k) (k_caps k) (k_num k) (k_scroll k) true
  else if 128 <=? d then key_event (k_ext k) (d - 128) false k
  else key_event (k_ext k) d true k.

Definition swap_case (c : Z) : Z :=
  if (97 <=? c) && (c <=? 122) then c - 32 else if (65 <=? c) && (c <=? 90) then c + 32 else c.

(** The character of a key that goes down, after the event. *)
Definition key_char (ext : bool) (code : Z) (k : keys) : Z :=
  let map := if k_ctl k then ctlmap else if k_shift k then shiftmap else normalmap in
  let c := at256 map (if ext then code + 128 else code) in
  if k_caps k then swap_case c else c.

Definition byte_char (d : Z) (k : keys) : Z :=
  if 128 <=? d then 0 else key_char (k_ext k) d (keys_byte d k).

(** All states of the keyboard. *)
Definition bools : list bool := [false; true].
Definition all_keys : list keys :=
  s ← bools; c ← bools; a ← bools; p ← bools; n ← bools; r ← bools; e ← bools; [Keys s c a p n r e].

Lemma elem_of_bools b : b ∈ bools.
Proof. destruct b; unfold bools; set_solver. Qed.
Lemma elem_of_all_keys k : k ∈ all_keys.
Proof.
  destruct k. unfold all_keys.
  repeat (apply list_elem_of_bind; eexists; split; [|apply elem_of_bools]). by left.
Qed.

Definition decode_ok (k : keys) (d : nat) : bool :=
  let '(c, shift) := kbdgetc KBS_DIB (Z.of_nat d) (shift_of k) in
  (c =? byte_char (Z.of_nat d) k) && (shift =? shift_of (keys_byte (Z.of_nat d) k)) && (0 <=? c) && (c <? 256).

Lemma decode_all : forallb (fun k => forallb (decode_ok k) (seq 0 256)) all_keys = true.
Proof. vm_compute. reflexivity. Qed.

Lemma kbdgetc_keys k d : 0 <= d < 256 ->
  kbdgetc KBS_DIB d (shift_of k) = (byte_char d k, shift_of (keys_byte d k)) /\ 0 <= byte_char d k < 256.
Proof.
  intros Hd. pose proof decode_all as H. rewrite forallb_forall in H.
  specialize (H k). rewrite <- list_elem_of_In in H. specialize (H (elem_of_all_keys k)).
  rewrite forallb_forall in H. specialize (H (Z.to_nat d)). rewrite in_seq in H. specialize (H ltac:(lia)).
  unfold decode_ok in H. rewrite Z2Nat.id in H by lia.
  destruct (kbdgetc KBS_DIB d (shift_of k)) as [c shift]. bsplit. subst. split; [done|lia].
Qed.

Fixpoint keys_chars (data : list Z) (k : keys) : list Z * keys :=
  match data with
  | [] => ([], k)
  | d :: data => let '(cs, k') := keys_chars data (keys_byte d k) in (byte_char d k :: cs, k')
  end.

Lemma kbd_chars_keys data : Forall (fun d => 0 <= d < 256) data -> forall k,
  kbd_chars data (shift_of k) = ((keys_chars data k).1, shift_of (keys_chars data k).2) /\
  Forall (fun c => 0 <= c < 256) (keys_chars data k).1.
Proof.
  induction 1 as [|d data Hd _ IH]; intros k; cbn [kbd_chars keys_chars]; [done|].
  destruct (kbdgetc_keys k d Hd) as [-> Hc]. destruct (IH (keys_byte d k)) as [-> Hcs].
  destruct (keys_chars data (keys_byte d k)) as [cs k']. cbn [fst snd] in *. split; [done|by constructor].
Qed.

(** From the keys to the terminal: [kbdgetc] tracks which shift, control and alt keys
    are down and which locks are on through any bytes of the keyboard controller, with and
    without escape bytes; an interrupt of the keyboard returns, and gives the console
    exactly the characters that the keys, with those modifiers, stand for. *)
Theorem keyboard_types_on_tty data k s t : Forall (fun d => 0 <= d < 256) data -> console_is s t ->
  exists dump s', kbdintr data (shift_of k) s = Ret (dump, shift_of (keys_chars data k).2, s') /\
    console_is s' (tty_chars (keys_chars data k).1 t).
Proof.
  intros Hd H. unfold kbdintr. destruct (kbd_chars_keys data Hd k) as [-> Hcs]. unfold bind.
  destruct (consoleintr_ok _ Hcs s t H) as (s' & -> & H' & _). eauto.
Qed.

(** Shift and "l", "s" without shift, return. *)
Lemma keyboard_types_on_tty_witness : exists dump s',
  kbdintr [0x2A; 0x26; 0xA6; 0xAA; 0x1F; 0x1C] 0 cons_boot = Ret (dump, 0, s') /\
  console_is s' (Tty [76; 115; 10] []).
Proof.
  exact (keyboard_types_on_tty [0x2A; 0x26; 0xA6; 0xAA; 0x1F; 0x1C] (Keys false false false false false false false)
    cons_boot (Tty [] []) ltac:(repeat constructor; lia) cons_boot_is).
Defined.
