(* ===== verification/Umalloc.v ===== *)
(** [umalloc.c]: the allocator of user programs.

    The free blocks form a circular list in the order of their addresses, through headers
    in the memory that is managed: the pointer to the next block, and the size of the block
    in headers. [base] is the address of the static header. [sbrk] is the system call of
    sysproc.c; whether the kernel can grow the process to a size is a parameter. *)

From S2P Require Import Prelude CString Mmu.

(** [sizeof(Header)] *)
Definition HDR : Z := 8.

(** The memory of the process, [freep] and the size of the process. *)
Record uheap := Uheap { h_mem : mem; h_freep : Z; h_brk : Z }.

Section umalloc.
Context (base : Z) (avail : Z -> bool).
Local Abbreviation U := (M uheap).

(** [p->s.ptr] and [p->s.size]; an access outside the process is a fault. *)
Definition in_proc (p : Z) (s : uheap) : bool := (0 <=? p) && (p + HDR <=? h_brk s).
Definition get_ptr (p : Z) : U Z := fun s => if in_proc p s then Ret (load32 (h_mem s) p, s) else Fault.
Definition get_size (p : Z) : U Z := fun s => if in_proc p s then Ret (load32 (h_mem s) (p + 4), s) else Fault.
Definition put_ptr (p v : Z) : U unit := fun s =>
  if in_proc p s then Ret (tt, Uheap (store32 (h_mem s) p v) (h_freep s) (h_brk s)) else Fault.
Definition put_size (p v : Z) : U unit := fun s =>
  if in_proc p s then Ret (tt, Uheap (store32 (h_mem s) (p + 4) v) (h_freep s) (h_brk s)) else Fault.
Definition set_freep (v : Z) : U unit := modify (fun s => Uheap (h_mem s) v (h_brk s)).

(** [for(p = freep; !(bp > p && bp < p->s.ptr); p = p->s.ptr) if(...) break;] *)
Fixpoint free_scan (fuel : nat) (bp p : Z) : U Z :=
  let* q := get_ptr p in
  if (p <? bp) && (bp <? q) then ret p
  else if (q <=? p) && ((p <? bp) || (bp <? q)) then ret p
  else
    match fuel with
    | O => fun _ => NoFuel
    | S fuel => free_scan fuel bp q
    end.

(** [bp + bp->s.size] as an address *)
Definition hdr_end (p n : Z) : Z := u32 (p + HDR * n).

Definition free (ap : Z) : U unit :=
  let bp := u32 (ap - HDR) in
  let* s := gets id in
  let* p := free_scan (Z.to_nat (h_brk s)) bp (h_freep s) in
  let* bsz := get_size bp in
  let* next := get_ptr p in
  (if hdr_end bp bsz =? next then
     let* nsz := get_size next in
     let* nptr := get_ptr next in
     put_size bp (u32 (bsz + nsz)) ;;;
     put_ptr bp nptr
   else put_ptr bp next) ;;;
  let* psz := get_size p in
  (if hdr_end p psz =? bp then
     let* bsz := get_size bp in
     let* bptr := get_ptr bp in
     put_size p (u32 (psz + bsz)) ;;;
     put_ptr p bptr
   else put_ptr p bp) ;;;
  set_freep p.

(** The system call: the old size, or -1. *)
Definition sbrk (n : Z) : U Z :=
  let* s := gets id in
  let b := h_brk s in
  if 0 <? n then
    if avail (b + n) then modify (fun s => Uheap (h_mem s) (h_freep s) (b + n)) ;;; ret b
    else ret (-1)
  else if n <? 0 then
    if b + n =? 0 then ret (-1)
    else modify (fun s => Uheap (h_mem s) (h_freep s) (if b + n <? 0 then b else b + n)) ;;; ret b
  else ret b.

Definition morecore (nu : Z) : U Z :=
  let nu := if nu <? 4096 then 4096 else nu in
  let* p := sbrk (s32 (nu * HDR)) in
  if p =? -1 then ret 0
  else
    put_size p nu ;;;
    free (u32 (p + HDR)) ;;;
    gets h_freep.

(** The loop of [malloc]. *)
Fixpoint malloc_loop (fuel : nat) (nunits prevp p : Z) : U Z :=
  let* sz := get_size p in
  if nunits <=? sz then
    let* r :=
      (if sz =? nunits then
         let* next := get_ptr p in put_ptr prevp next ;;; ret p
       else
         put_size p (sz - nunits) ;;;
         let p := hdr_end p (sz - nunits) in
         put_size p nunits ;;;
         ret p) in
    set_freep prevp ;;;
    ret (u32 (r + HDR))
  else
    match fuel with
    | O => fun _ => NoFuel
    | S fuel =>
        let* fp := gets h_freep in
        if p =? fp then
          let* q := morecore nunits in
          if q =? 0 then ret 0
          else let* next := get_ptr q in malloc_loop fuel nunits q next
        else let* next := get_ptr p in malloc_loop fuel nunits p next
    end.

Definition malloc (nbytes : Z) : U Z :=
  let nunits := u32 (nbytes + HDR - 1) / HDR + 1 in
  let* fp := gets h_freep in
  (if fp =? 0 then put_ptr base base ;;; set_freep base ;;; put_size base 0 else ret tt) ;;;
  let* s := gets id in
  let prevp := h_freep s in
  let* p := get_ptr prevp in
  malloc_loop (2 * Z.to_nat (h_brk s) + 2) nunits prevp p.

End umalloc.
