(* ===== verification/UmallocSpec.v ===== *)
(** The allocator of user programs: the memory between the first [sbrk] and the end of
    the process is tiled by blocks, free or in use; free blocks are never adjacent, and the
    circular list visits them in the order of their addresses. *)

From S2P Require Import Prelude CString Mmu Umalloc.

(** * Tilings *)

(** A tiling is a list of blocks: the size in headers, and whether the block is free. *)
Definition units (L : list (Z * bool)) : Z := foldr (fun b n => b.1 + n) 0 L.
Definition tend (a : Z) (L : list (Z * bool)) : Z := a + HDR * units L.

(** Address, size and tag of the blocks from [a] on. *)
Fixpoint blocks (a : Z) (L : list (Z * bool)) : list (Z * Z * bool) :=
  match L with
  | [] => []
  | (n, f) :: L => (a, n, f) :: blocks (a + HDR * n) L
  end.

(** The addresses of the free blocks. *)
Definition nodes (a : Z) (L : list (Z * bool)) : list Z :=
  omap (fun b : Z * Z * bool => if snd b then Some (fst (fst b)) else None) (blocks a L).

(** The blocks in use. *)
Definition in_use (a : Z) (L : list (Z * bool)) (x n : Z) : Prop := (x, n, false) ∈ blocks a L.

Definition pos_sizes (L : list (Z * bool)) : Prop := Forall (fun b => 1 <= fst b) L.

(** No two free blocks are adjacent. *)
Fixpoint coalesced (L : list (Z * bool)) : Prop :=
  match L with
  | (_, f) :: (((_, g) :: _) as L') => (f && g = false) /\ coalesced L'
  | _ => True
  end.

Lemma units_app L K : units (L ++ K) = units L + units K.
Proof. unfold units. induction L as [|b L IH]; cbn; [done|]. rewrite IH. lia. Qed.
Lemma tend_app a L K : tend a (L ++ K) = tend (tend a L) K.
Proof. unfold tend. rewrite units_app. lia. Qed.
Lemma tend_cons a n f L : tend a ((n, f) :: L) = tend (a + HDR * n) L.
Proof. unfold tend, units. cbn. lia. Qed.
Lemma tend_nil a : tend a [] = a.
Proof. unfold tend, units. cbn. lia. Qed.
Lemma units_pos L : pos_sizes L -> 0 <= units L.
Proof. unfold units. induction 1; cbn; lia. Qed.
Lemma tend_le a L : pos_sizes L -> a <= tend a L.
Proof. intros H. apply units_pos in H. unfold tend, HDR. lia. Qed.
Lemma blocks_app L K : forall a, blocks a (L ++ K) = blocks a L ++ blocks (tend a L) K.
Proof.
  induction L as [|[n f] L IH]; intros a; cbn [blocks app]; [by rewrite tend_nil|].
  by rewrite IH, tend_cons.
Qed.
Lemma nodes_app a L K : nodes a (L ++ K) = nodes a L ++ nodes (tend a L) K.
Proof. unfold nodes. by rewrite blocks_app, omap_app. Qed.
Lemma nodes_cons a n f L : nodes a ((n, f) :: L) = (if f then [a] else []) ++ nodes (a + HDR * n) L.
Proof. unfold nodes. cbn. by destruct f. Qed.

Lemma blocks_range L : pos_sizes L -> forall a x n f, (x, n, f) ∈ blocks a L ->
  a <= x /\ x + HDR * n <= tend a L /\ 1 <= n.
Proof.
  induction 1 as [|[m g] L Hm HL IH]; intros a x n f Hx; cbn [blocks] in Hx; [by apply elem_of_nil in Hx|].
  cbn in Hm. rewrite tend_cons. pose proof (tend_le (a + HDR * m) L HL). unfold HDR in *.
  apply elem_of_cons in Hx as [Hx|Hx]; [simplify_eq; lia|].
  destruct (IH _ _ _ _ Hx). lia.
Qed.
Lemma nodes_block a L x : x ∈ nodes a L <-> exists n, (x, n, true) ∈ blocks a L.
Proof.
  unfold nodes. rewrite list_elem_of_omap. split.
  - intros ([[y n] f] & Hy & E). destruct f; cbn in E; simplify_eq. eauto.
  - intros [n Hn]. by exists (x, n, true).
Qed.
Lemma nodes_range L a x : pos_sizes L -> x ∈ nodes a L -> a <= x /\ x + HDR <= tend a L.
Proof.
  intros HL [n Hn]%nodes_block. destruct (blocks_range L HL _ _ _ _ Hn). unfold HDR in *. lia.
Qed.

Lemma nodes_sorted L : pos_sizes L -> forall a l x y k, nodes a L = l ++ x :: y :: k -> x + HDR <= y.
Proof.
  induction 1 as [|[m g] L Hm HL IH]; intros a l x y k E; [by destruct l|].
  rewrite nodes_cons in E. destruct g; cbn [app] in E; [|by eapply IH].
  destruct l as [|b l]; cbn [app] in E; injection E as -> E; [|by eapply IH].
  assert (Hy : y ∈ nodes (x + HDR * m) L) by (rewrite E; by left).
  apply nodes_range in Hy; [|done]. cbn in Hm. unfold HDR in *. lia.
Qed.
Lemma length_nodes L a : pos_sizes L -> Z.of_nat (length (nodes a L)) <= units L.
Proof.
  intros H. revert a. induction H as [|[m g] L Hm HL IH]; intros a; [done|].
  rewrite nodes_cons, length_app. specialize (IH (a + HDR * m)). unfold units in *. cbn in *. destruct g; cbn; lia.
Qed.

(** Blocks do not overlap. *)
Lemma blocks_disjoint L : pos_sizes L -> forall a x n f y k g, (x, n, f) ∈ blocks a L -> (y, k, g) ∈ blocks a L ->
  (x = y /\ n = k /\ f = g) \/ x + HDR * n <= y \/ y + HDR * k <= x.
Proof.
  induction 1 as [|[m b] L Hm HL IH]; intros a x n f y k g Hx Hy; cbn [blocks] in *; [by apply elem_of_nil in Hx|].
  apply elem_of_cons in Hx as [Hx|Hx], Hy as [Hy|Hy].
  - simplify_eq. by left.
  - simplify_eq. right; left. by apply (blocks_range L HL) in Hy as [Hy _].
  - simplify_eq. right; right. by apply (blocks_range L HL) in Hx as [Hx _].
  - by eapply IH.
Qed.

(** A block by its address. *)
Lemma blocks_split L : forall a x n f, (x, n, f) ∈ blocks a L ->
  exists L1 L2, L = L1 ++ (n, f) :: L2 /\ x = tend a L1.
Proof.
  induction L as [|[m g] L IH]; intros a x n f Hx; cbn [blocks] in Hx; [by apply elem_of_nil in Hx|].
  apply elem_of_cons in Hx as [Hx|Hx].
  - simplify_eq. exists [], L. by rewrite tend_nil.
  - destruct (IH _ _ _ _ Hx) as (L1 & L2 & -> & ->). exists ((m, g) :: L1), L2. by rewrite tend_cons.
Qed.

Lemma coalesced_app L K : coalesced (L ++ K) <-> coalesced L /\ coalesced K /\
  (forall n m L' K', L = L' ++ [(n, true)] -> K = (m, true) :: K' -> False).
Proof.
  induction L as [|[n f] L IH]; cbn [app].
  - split; [|tauto]. intros HK. split_and!; [done|done|]. intros ? ? [|] ? E; discriminate E.
  - destruct L as [|[n' f'] L]; cbn [app] in *.
    + destruct K as [|[m g] K]; cbn [coalesced].
      * split; [|tauto]. intros _. split_and!; [done..|]. intros; discriminate.
      * split.
        -- intros [Hfg HK]. split_and!; [done|done|]. intros n0 m0 L' K' E1 E2. destruct L' as [|? [|]]; simplify_eq/=.
        -- intros (_ & HK & HA). split; [|done]. destruct f, g; try done. exfalso. by apply (HA n m [] K).
    + cbn [coalesced]. rewrite IH. split.
      * intros (H1 & H2 & H3 & H4). split_and!; [done..|]. intros n0 m0 L0 K' E1 E2.
        destruct L0 as [|b L0]; [simplify_eq/=|]. injection E1 as _ E1. by eapply H4.
      * intros ((H1 & H2) & H3 & H4). split_and!; [done..|]. intros n0 m0 L0 K' E1 E2.
        apply (H4 n0 m0 ((n, f) :: L0) K'); [cbn; by rewrite E1|done].
Qed.

(** * Chains of pointers *)

Fixpoint chain (P : Z -> Z) (l : list Z) : Prop :=
  match l with
  | a :: ((b :: _) as l') => P a = b /\ chain P l'
  | _ => True
  end.

Lemma chain_app P l x k : chain P (l ++ x :: k) <-> chain P (l ++ [x]) /\ chain P (x :: k).
Proof.
  induction l as [|a l IH]; cbn [app].
  - cbn [chain]. tauto.
  - destruct l as [|b l]; cbn [app chain] in *; [tauto|]. rewrite IH. tauto.
Qed.
Lemma chain_ext P Q l x : (forall a, a ∈ l -> P a = Q a) -> chain P (l ++ [x]) -> chain Q (l ++ [x]).
Proof.
  induction l as [|a l IH]; intros HPQ H; [done|]. cbn [app] in *.
  destruct l as [|b l]; cbn [app chain] in *.
  - split; [|done]. rewrite <- HPQ by (by left). apply H.
  - destruct H as [H1 H2]. split; [by rewrite <- HPQ by (by left)|]. apply IH; [|done]. intros c Hc. apply HPQ. by right.
Qed.
Lemma chain_next P l x y k : chain P (l ++ x :: y :: k) -> P x = y.
Proof. rewrite chain_app. intros [_ [H _]]. done. Qed.

Lemma chain_cons P x b l : P x = hd b l -> chain P (l ++ [b]) -> chain P (x :: l ++ [b]).
Proof. destruct l; cbn; [done|]. tauto. Qed.

Lemma app_mid {A} (l l1 : list A) x l2 k : (l ++ (l1 ++ x :: l2)) ++ k = (l ++ l1) ++ x :: (l2 ++ k).
Proof. by rewrite <- !(assoc_L (++)). Qed.

(** * The invariant *)

Section spec.
Context (base : Z).
Context (lo : Z).

Record heap_ok (s : uheap) (L : list (Z * bool)) : Prop := {
  hk_pos : pos_sizes L;
  hk_end : tend lo L = h_brk s;
  hk_lo : 0 < base /\ base + HDR <= lo /\ h_brk s <= KERNBASE;
  hk_coal : coalesced L;
  hk_chain : chain (load32 (h_mem s)) ((base :: nodes lo L) ++ [base]);
  hk_sizes : forall a n f, (a, n, f) ∈ blocks lo L -> load32 (h_mem s) (a + 4) = n;
  hk_base : load32 (h_mem s) (base + 4) = 0;
  hk_freep : h_freep s ∈ base :: nodes lo L
}.

Lemma hk_in_proc s L a : heap_ok s L -> a = base \/ (exists n f, (a, n, f) ∈ blocks lo L) -> in_proc a s = true.
Proof.
  intros H Ha. destruct (hk_lo _ _ H) as (H1 & H2 & _). pose proof (tend_le lo L (hk_pos _ _ H)) as Hle.
  pose proof (hk_end _ _ H) as He. unfold in_proc.
  assert (0 <= a /\ a + HDR <= h_brk s) as [? ?].
  { destruct Ha as [->|(n & f & Hn)]; [lia|].
    destruct (blocks_range L (hk_pos _ _ H) _ _ _ _ Hn). unfold HDR in *. lia. }
  by rewrite (proj2 (Z.leb_le _ _)), (proj2 (Z.leb_le _ _)) by lia.
Qed.

Lemma hk_node_in s L a : heap_ok s L -> a ∈ base :: nodes lo L -> in_proc a s = true.
Proof.
  intros H [->|Ha]%elem_of_cons; [by eapply hk_in_proc; [|left]|].
  apply nodes_block in Ha as [n Hn]. eapply hk_in_proc; [done|]. right. eauto.
Qed.

Lemma get_ptr_run a s : in_proc a s = true -> get_ptr a s = Ret (load32 (h_mem s) a, s).
Proof. unfold get_ptr. by intros ->. Qed.
Lemma get_size_run a s : in_proc a s = true -> get_size a s = Ret (load32 (h_mem s) (a + 4), s).
Proof. unfold get_size. by intros ->. Qed.

(** The nodes of the circular list in order. *)
Lemma ring_sorted s L l x y k : heap_ok s L -> base :: nodes lo L = l ++ x :: y :: k -> x + HDR <= y.
Proof.
  intros H E. destruct l as [|b l]; cbn [app] in E; injection E as -> E; [|by eapply nodes_sorted, E; apply H].
  assert (Hy : y ∈ nodes lo L) by (rewrite E; by left).
  apply nodes_range in Hy; [|apply H]. pose proof (hk_lo _ _ H). lia.
Qed.

(** The search of [free] finds the last node below the block. *)
Section scan.
Context (s : uheap) (L : list (Z * bool)) (H : heap_ok s L).
Context (bp p : Z) (A B : list Z).
Context (HN : base :: nodes lo L = (A ++ [p]) ++ B).
Context (HA : forall x, x ∈ A ++ [p] -> x < bp) (HB : forall x, x ∈ B -> bp < x).

Lemma ring_in x : x ∈ (A ++ [p]) ++ B -> get_ptr x s = Ret (load32 (h_mem s) x, s).
Proof using H HN. intros Hx. apply get_ptr_run. eapply hk_node_in; [exact H|]. by rewrite HN. Qed.

Lemma free_scan_below A2 : forall A1 x fuel, A ++ [p] = A1 ++ x :: A2 -> (length A2 <= fuel)%nat ->
  free_scan fuel bp x s = Ret (p, s).
Proof using H HN HA HB.
  pose proof (hk_chain _ _ H) as Hc. rewrite HN in Hc.
  induction A2 as [|y A2 IH]; intros A1 x fuel E Hf.
  - apply app_inj_tail in E as [E1 E2]. subst x A1. assert (Hx : p < bp) by (apply HA; set_solver).
    assert (Hbp : base <= p).
    { assert (Hp : p ∈ base :: nodes lo L) by (rewrite HN; set_solver). apply elem_of_cons in Hp as [->|Hp]; [lia|].
      apply nodes_range in Hp; [|apply H]. pose proof (hk_lo _ _ H). unfold HDR in *. lia. }
    assert (Hr : get_ptr p s = Ret (load32 (h_mem s) p, s)) by (apply ring_in; set_solver).
    assert (Hq : (exists y, load32 (h_mem s) p = y /\ bp < y) \/ load32 (h_mem s) p = base).
    { clear - Hc HB. destruct B as [|y B'].
      - right. rewrite app_nil_r, <- (assoc_L (++)) in Hc. by apply chain_next in Hc.
      - left. exists y. split; [|apply HB; by left].
        rewrite <- !(assoc_L (++)) in Hc. cbn [app] in Hc. by apply chain_next in Hc. }
    destruct fuel; cbn [free_scan]; unfold bind; rewrite Hr; rewrite (proj2 (Z.ltb_lt p bp)) by done; cbn [andb orb];
      (destruct Hq as [(y & -> & Hy)| ->];
       [by rewrite (proj2 (Z.ltb_lt _ _)) by done
       |destruct (bp <? base); [done|]; by rewrite (proj2 (Z.leb_le _ _)) by done]).
  - assert (Hy : y < bp) by (apply HA; rewrite E; set_solver).
    assert (Hxy : load32 (h_mem s) x = y).
    { rewrite E in Hc. rewrite <- !(assoc_L (++)) in Hc. cbn [app] in Hc. by apply chain_next in Hc. }
    assert (Hlt : x + HDR <= y).
    { eapply (ring_sorted s L A1 x y (A2 ++ B) H). by rewrite HN, E, <- (assoc_L (++)). }
    destruct fuel as [|fuel]; [cbn in Hf; lia|]. cbn [free_scan]. unfold bind. rewrite ring_in by (rewrite E; set_solver).
    rewrite Hxy. rewrite (proj2 (Z.ltb_ge bp y)) by lia. rewrite andb_false_r.
    rewrite (proj2 (Z.leb_gt y x)) by (unfold HDR in *; lia). cbn [andb].
    apply (IH (A1 ++ [x])); [by rewrite <- (assoc_L (++))|cbn in Hf; lia].
Qed.

Lemma free_scan_above B2 : forall B1 x fuel, B = B1 ++ x :: B2 -> (length B2 + length A + 1 <= fuel)%nat ->
  free_scan fuel bp x s = Ret (p, s).
Proof using H HN HA HB.
  pose proof (hk_chain _ _ H) as Hc. rewrite HN in Hc.
  induction B2 as [|y B2 IH]; intros B1 x fuel E Hf.
  - assert (Hx : bp < x) by (apply HB; rewrite E; set_solver).
    assert (Hnx : load32 (h_mem s) x = base).
    { rewrite E, app_mid in Hc. cbn [app] in Hc. by apply chain_next in Hc. }
    destruct fuel as [|fuel]; [lia|]. cbn [free_scan]. unfold bind. rewrite ring_in by (rewrite E; set_solver).
    rewrite Hnx. rewrite (proj2 (Z.ltb_ge x bp)) by lia. cbn [andb orb].
    assert (exists A', A ++ [p] = base :: A' /\ length A' = length A) as (A' & EA & Hl).
    { clear - HN. destruct A as [|b A']; cbn [app] in HN |- *; injection HN as -> _; eexists; split; [done|done|done|].
      rewrite length_app. cbn. lia. }
    assert (Hb : base < bp) by (apply HA; rewrite EA; by left).
    rewrite (proj2 (Z.ltb_ge bp base)) by lia. rewrite andb_false_r.
    eapply (free_scan_below A' []); [exact EA|lia].
  - assert (Hx : bp < x) by (apply HB; rewrite E; set_solver).
    assert (Hxy : load32 (h_mem s) x = y).
    { rewrite E, app_mid in Hc. cbn [app] in Hc. by apply chain_next in Hc. }
    assert (Hlt : x + HDR <= y).
    { eapply (ring_sorted s L ((A ++ [p]) ++ B1) x y B2 H). by rewrite HN, E, (assoc_L (++)). }
    destruct fuel as [|fuel]; [lia|]. cbn [free_scan]. unfold bind. rewrite ring_in by (rewrite E; set_solver).
    rewrite Hxy. rewrite (proj2 (Z.ltb_ge x bp)) by lia. cbn [andb].
    rewrite (proj2 (Z.leb_gt y x)) by (unfold HDR in *; lia). cbn [andb].
    apply (IH (B1 ++ [x])); [by rewrite <- (assoc_L (++))|cbn in Hf; lia].
Qed.

Lemma free_scan_ok fuel x : x ∈ base :: nodes lo L -> (length (nodes lo L) + 1 <= fuel)%nat ->
  free_scan fuel bp x s = Ret (p, s).
Proof using H HN HA HB.
  intros Hx Hf. apply (f_equal length) in HN as Hl. rewrite !length_app in Hl. cbn [length] in Hl.
  rewrite HN in Hx. apply elem_of_app in Hx as [Hx|Hx]; apply list_elem_of_split in Hx as (l1 & l2 & E).
  - eapply free_scan_below; [exact E|]. apply (f_equal length) in E. rewrite !length_app in E. cbn in E. lia.
  - eapply free_scan_above; [exact E|]. apply (f_equal length) in E. rewrite length_app in E. cbn in E. lia.
Qed.
End scan.

End spec.
