(* ===== verification/UmallocFree.v ===== *)
(** [free] gives a block back and merges it with its free neighbours. *)

From S2P Require Import Prelude CString Mmu Umalloc UmallocSpec.

(** The free block that replaces a block of size [n] between [La] and [Lb]. *)
Definition merge_up (n : Z) (Lb : list (Z * bool)) : Z * list (Z * bool) :=
  match Lb with (m, true) :: K => (n + m, K) | _ => (n, Lb) end.
Definition merge_down (La : list (Z * bool)) : list (Z * bool) * Z :=
  match last La with Some (k, true) => (removelast La, k) | _ => (La, 0) end.
Definition release (La : list (Z * bool)) (n : Z) (Lb : list (Z * bool)) : list (Z * bool) :=
  (merge_down La).1 ++ ((merge_down La).2 + (merge_up n Lb).1, true) :: (merge_up n Lb).2.

(** Memory is the same outside the header at [a]. *)
Definition header_only (a : Z) (m m' : mem) : Prop := forall x, x < a \/ a + HDR <= x -> m' x = m x.

Lemma header_only_load a m m' b : header_only a m m' -> b + HDR <= a \/ a + HDR <= b ->
  load32 m' b = load32 m b /\ load32 m' (b + 4) = load32 m (b + 4).
Proof.
  intros Hm Hb. split; apply load32_ext; intros x Hx; apply Hm; unfold HDR in *; lia.
Qed.
Lemma header_store a m v w : header_only a m (store32 (store32 m (a + 4) w) a v).
Proof. intros x Hx. unfold HDR in *. by rewrite !store32_ne by lia. Qed.
Lemma header_store_ptr a m v : header_only a m (store32 m a v).
Proof. intros x Hx. unfold HDR in *. by rewrite store32_ne by lia. Qed.
Lemma header_store_size a m v : header_only a m (store32 m (a + 4) v).
Proof. intros x Hx. unfold HDR in *. by rewrite store32_ne by lia. Qed.

Lemma put_ptr_run a v s : in_proc a s = true ->
  put_ptr a v s = Ret (tt, Uheap (store32 (h_mem s) a v) (h_freep s) (h_brk s)).
Proof. unfold put_ptr. by intros ->. Qed.
Lemma put_size_run a v s : in_proc a s = true ->
  put_size a v s = Ret (tt, Uheap (store32 (h_mem s) (a + 4) v) (h_freep s) (h_brk s)).
Proof. unfold put_size. by intros ->. Qed.

Section free.
Context (base : Z) (lo : Z).
Context (s : uheap) (La : list (Z * bool)) (n : Z) (Lb : list (Z * bool)).
Context (H : heap_ok base lo s (La ++ (n, false) :: Lb)).
Let m := h_mem s.
Let bp := tend lo La.
Let Lb' := (merge_up n Lb).2.
Let n' := (merge_up n Lb).1.
Let B := nodes (bp + HDR * n) Lb.
Let B' := nodes (bp + HDR * n') Lb'.

Lemma free_parts : pos_sizes La /\ 1 <= n /\ pos_sizes Lb.
Proof using H.
  pose proof (hk_pos _ _ _ _ H) as Hp. unfold pos_sizes in *.
  apply Forall_app in Hp as [Ha Hb]. inversion Hb; subst. done.
Qed.
Lemma free_bounds : 0 < base /\ base + HDR <= lo /\ lo <= bp /\ bp + HDR * n <= h_brk s /\ h_brk s <= KERNBASE.
Proof using H.
  destruct free_parts as (Ha & Hn & Hb). destruct (hk_lo _ _ _ _ H) as (H1 & H2 & H3).
  pose proof (hk_end _ _ _ _ H) as He. rewrite tend_app, tend_cons in He.
  pose proof (tend_le lo La Ha). pose proof (tend_le (tend lo La + HDR * n) Lb Hb). unfold bp. lia.
Qed.
Lemma free_nodes : base :: nodes lo (La ++ (n, false) :: Lb) = (base :: nodes lo La) ++ B.
Proof using. unfold B, bp. rewrite nodes_app, nodes_cons. done. Qed.

Lemma free_size : load32 m (bp + 4) = n.
Proof using H.
  apply (hk_sizes _ _ _ _ H _ _ false). rewrite blocks_app. apply elem_of_app. right. by left.
Qed.

(** The next free block above is adjacent when it is the next block. *)
Lemma free_up_cases :
  (exists k K, Lb = (k, true) :: K /\ n' = n + k /\ Lb' = K /\ B = (bp + HDR * n) :: B' /\
     load32 m (bp + HDR * n + 4) = k /\ load32 m (bp + HDR * n) = hd base B') \/
  (n' = n /\ Lb' = Lb /\ B' = B /\ hd base B <> bp + HDR * n).
Proof using H.
  destruct free_parts as (Ha & Hn & Hb). destruct free_bounds as (H1 & H2 & H3 & H4 & H5).
  pose proof (hk_chain _ _ _ _ H) as Hc. rewrite free_nodes in Hc.
  destruct Lb as [|[k [|]] K] eqn:E.
  - right. unfold B', n', Lb'. cbn. split_and!; try done. unfold HDR in *. lia.
  - left. exists k, K. unfold B', n', Lb'. cbn [merge_up fst snd].
    assert (EB : B = (bp + HDR * n) :: nodes (bp + HDR * (n + k)) K).
    { unfold B. rewrite nodes_cons. cbn [app]. f_equal. f_equal. lia. }
    split_and!; try done.
    + apply (hk_sizes _ _ _ _ H _ _ true). rewrite blocks_app. apply elem_of_app. right. cbn [blocks]. right. by left.
    + rewrite EB in Hc. rewrite <- (assoc_L (++)) in Hc. cbn [app] in Hc.
      apply (chain_app _ (base :: nodes lo La)) in Hc as [_ Hc]. destruct (nodes _ K); cbn in Hc |- *; apply Hc.
  - right. unfold B', n', Lb'. cbn [merge_up fst snd]. split_and!; try done.
    unfold B. rewrite nodes_cons. cbn [app].
    destruct (nodes (bp + HDR * n + HDR * k) K) as [|y l] eqn:Ey; [cbn; unfold HDR in *; lia|]. cbn.
    assert (Hy : y ∈ nodes (bp + HDR * n + HDR * k) K) by (rewrite Ey; by left).
    unfold pos_sizes in Hb. inversion Hb; subst. apply nodes_range in Hy; [|done]. cbn in *. unfold HDR in *. lia.
Qed.

(** The free block below is adjacent when it is the previous block. *)
Lemma free_down_cases :
  (exists L1 k, La = L1 ++ [(k, true)] /\ merge_down La = (L1, k) /\
     base :: nodes lo La = (base :: nodes lo L1) ++ [tend lo L1] /\ bp = tend lo L1 + HDR * k /\ 1 <= k /\ pos_sizes L1) \/
  (merge_down La = (La, 0) /\
   forall A p, base :: nodes lo La = A ++ [p] -> p + HDR * load32 m (p + 4) <> bp).
Proof using H.
  destruct free_parts as (Ha & Hn & Hb). destruct free_bounds as (H1 & H2 & H3 & H4 & H5).
  assert (Hdown : forall A p, base :: nodes lo La = A ++ [p] ->
    (p = base \/ exists k, (p, k, true) ∈ blocks lo La)).
  { intros A p E. assert (Hp : p ∈ base :: nodes lo La) by (rewrite E; set_solver).
    apply elem_of_cons in Hp as [->|Hp]; [by left|right; by apply nodes_block]. }
  assert (Hbase : base + HDR * load32 m (base + 4) <> bp).
  { unfold m. rewrite (hk_base _ _ _ _ H). unfold HDR in *. lia. }
  destruct La as [|[k f] L1 _] eqn:E using rev_ind.
  - right. split; [done|]. intros A p EA. destruct (Hdown A p EA) as [->|[k Hk]]; [done|by apply elem_of_nil in Hk].
  - unfold merge_down. rewrite last_snoc. unfold pos_sizes in Ha. apply Forall_app in Ha as [HL1 Hk]. inversion Hk; subst.
    destruct f.
    + left. exists L1, k. rewrite removelast_last. split_and!; try done.
      * rewrite nodes_app, nodes_cons. done.
      * unfold bp. rewrite tend_app, tend_cons, tend_nil. done.
    + right. split; [done|]. intros A p EA. destruct (Hdown A p EA) as [->|[j Hj]]; [done|].
      assert (Hs : load32 m (p + 4) = j).
      { apply (hk_sizes _ _ _ _ H _ _ true). rewrite blocks_app. apply elem_of_app. by left. }
      rewrite Hs. rewrite blocks_app in Hj. apply elem_of_app in Hj as [Hj|Hj].
      * apply blocks_range in Hj; [|done]. unfold bp. rewrite tend_app, tend_cons, tend_nil. cbn in *. unfold HDR in *. lia.
      * cbn [blocks] in Hj. apply list_elem_of_singleton in Hj. discriminate Hj.
Qed.

Lemma free_last : exists A p, base :: nodes lo La = A ++ [p] /\ base <= p /\ p + HDR <= bp /\
  (forall x, x ∈ A -> x + HDR <= p /\ base <= x).
Proof using H.
  destruct free_parts as (Ha & Hn & Hb). destruct free_bounds as (H1 & H2 & H3 & H4 & H5).
  destruct (exists_last (l := base :: nodes lo La)) as (A & p & E); [done|]. exists A, p. split; [done|].
  assert (Hin : forall x, x ∈ base :: nodes lo La -> base <= x /\ x + HDR <= bp).
  { intros x [->|Hx]%elem_of_cons; [unfold HDR in *; lia|]. apply nodes_range in Hx; [|done]. unfold bp, HDR in *. lia. }
  split; [apply Hin; rewrite E; set_solver|]. split; [apply Hin; rewrite E; set_solver|].
  intros x Hx. split; [|apply Hin; rewrite E; set_solver].
  assert (Hs : forall K2 K1 z, base :: nodes lo La = (K1 ++ z :: K2) ++ [p] -> z + HDR <= p).
  { intros K2. induction K2 as [|y K2 IH]; intros K1 z EK.
    - rewrite <- (assoc_L (++)) in EK. cbn [app] in EK.
      eapply (ring_sorted base lo s _ K1 z p B H). rewrite free_nodes, EK, <- (assoc_L (++)). done.
    - assert (y + HDR <= p) by (eapply (IH (K1 ++ [z])); rewrite EK; by rewrite <- !(assoc_L (++))).
      rewrite <- (assoc_L (++)) in EK. cbn [app] in EK.
      assert (z + HDR <= y).
      { eapply (ring_sorted base lo s _ K1 z y ((K2 ++ [p]) ++ B) H). rewrite free_nodes, EK, <- (assoc_L (++)). done. }
      unfold HDR in *. lia. }
  apply list_elem_of_split in Hx as (A1 & A2 & ->).
  by eapply Hs.
Qed.

Lemma free_next_range : 0 <= hd base B' < 2 ^ 32 /\ 0 <= hd base B < 2 ^ 32.
Proof using H.
  destruct free_parts as (Ha & Hn & Hb). destruct free_bounds as (H1 & H2 & H3 & H4 & H5).
  assert (HB : forall x, x ∈ B -> 0 <= x < 2 ^ 32).
  { intros x Hx. apply nodes_range in Hx; [|done]. pose proof (hk_end _ _ _ _ H) as He.
    rewrite tend_app, tend_cons in He. fold bp in He. unfold KERNBASE, HDR in *. lia. }
  assert (Hb0 : 0 <= base < 2 ^ 32) by (unfold KERNBASE, HDR in *; lia).
  split.
  - destruct free_up_cases as [(k & K & _ & _ & _ & EB & _)|(_ & _ & EB & _)].
    + destruct B' as [|y l] eqn:E; cbn; [done|]. apply HB. rewrite EB. right. by left.
    + rewrite EB. destruct B; cbn; [done|]. apply HB. by left.
  - destruct B; cbn; [done|]. apply HB. by left.
Qed.

Lemma free_n'_range : 1 <= n' /\ bp + HDR * n' <= h_brk s.
Proof using H.
  destruct free_parts as (Ha & Hn & Hb). destruct free_bounds as (H1 & H2 & H3 & H4 & H5).
  destruct free_up_cases as [(k & K & E & En & _)|(En & _)]; rewrite En; [|lia].
  rewrite E in Hb. apply Forall_cons in Hb as [Hk HK]. cbn [fst] in Hk.
  pose proof (hk_end _ _ _ _ H) as He. rewrite E, tend_app, !tend_cons in He. fold bp in He.
  pose proof (tend_le (bp + HDR * n + HDR * k) K HK). unfold HDR in *. lia.
Qed.

Lemma free_chain_next A p : base :: nodes lo La = A ++ [p] -> load32 m p = hd base B.
Proof using H.
  intros E. pose proof (hk_chain _ _ _ _ H) as Hc. rewrite free_nodes, E in Hc.
  rewrite <- !(assoc_L (++)) in Hc. destruct B as [|y l]; cbn [app hd] in Hc |- *; by apply chain_next in Hc.
Qed.

(** The run of [free], as changes of two headers. *)
Lemma free_run : exists A p m1 m2, base :: nodes lo La = A ++ [p] /\
  free (bp + HDR) s = Ret (tt, Uheap m2 p (h_brk s)) /\
  header_only bp m m1 /\ load32 m1 bp = hd base B' /\ load32 m1 (bp + 4) = n' /\
  header_only p m1 m2 /\
  (if p + HDR * load32 m (p + 4) =? bp
   then load32 m2 p = hd base B' /\ load32 m2 (p + 4) = load32 m (p + 4) + n'
   else load32 m2 p = bp /\ load32 m2 (p + 4) = load32 m (p + 4)).
Proof using H.
  destruct free_parts as (Ha & Hn & Hb). destruct free_bounds as (H1 & H2 & H3 & H4 & H5).
  destruct free_last as (A & p & EA & Hp1 & Hp2 & HA). exists A, p.
  destruct free_next_range as [Hr1 Hr2]. destruct free_n'_range as [Hn1 Hn2].
  assert (Hscan : free_scan (Z.to_nat (h_brk s)) bp (h_freep s) s = Ret (p, s)).
  { eapply (free_scan_ok base lo s _ H bp p A B); [by rewrite free_nodes, EA| | |apply H|].
    - intros x Hx. rewrite <- EA in Hx. apply elem_of_cons in Hx as [->|Hx]; [unfold HDR in *; lia|].
      apply nodes_range in Hx; [|done]. unfold bp, HDR in *. lia.
    - intros x Hx. apply nodes_range in Hx; [|done]. unfold HDR in *. lia.
    - pose proof (length_nodes _ lo (hk_pos _ _ _ _ H)). pose proof (hk_end _ _ _ _ H) as He. unfold tend, HDR in *. lia. }
  assert (Ibp : in_proc bp s = true).
  { eapply hk_in_proc; [exact H|]. right. exists n, false. rewrite blocks_app. apply elem_of_app. right. by left. }
  assert (Ip : in_proc p s = true).
  { eapply hk_node_in; [exact H|]. rewrite free_nodes, EA. set_solver. }
  assert (Ubp : u32 (bp + HDR - HDR) = bp) by (replace (bp + HDR - HDR) with bp by lia; apply u32_small; unfold KERNBASE, HDR in *; lia).
  assert (Hend : hdr_end bp n = bp + HDR * n) by (apply u32_small; unfold KERNBASE, HDR in *; lia).
  (* the upper half *)
  assert (Hup : exists m1, (forall fp, (if hdr_end bp n =? hd base B then
        let* nsz := get_size (hd base B) in let* nptr := get_ptr (hd base B) in
        put_size bp (u32 (n + nsz)) ;;; put_ptr bp nptr else put_ptr bp (hd base B)) (Uheap m fp (h_brk s)) =
        Ret (tt, Uheap m1 fp (h_brk s))) /\
      header_only bp m m1 /\ load32 m1 bp = hd base B' /\ load32 m1 (bp + 4) = n').
  { rewrite Hend. destruct free_up_cases as [(k & K & EL & En & _ & EB & Hk & Hnx)|(En & _ & EB & Hne)].
    - assert (Hhd : hd base B = bp + HDR * n) by (by rewrite EB). rewrite Hhd, Z.eqb_refl.
      assert (In : in_proc (bp + HDR * n) s = true).
      { eapply hk_in_proc; [exact H|]. right. exists k, true. rewrite EL, blocks_app. apply elem_of_app. right.
        cbn [blocks]. right. by left. }
      exists (store32 (store32 m (bp + 4) (u32 (n + k))) bp (hd base B')). split_and!.
      + intros fp. unfold bind. rewrite (get_size_run _ (Uheap m fp (h_brk s)) In). cbn [h_mem].
        rewrite (get_ptr_run _ (Uheap m fp (h_brk s)) In). cbn [h_mem].
        rewrite (put_size_run bp _ (Uheap m fp (h_brk s)) Ibp). cbn [h_mem h_freep h_brk].
        rewrite put_ptr_run by exact Ibp. by rewrite Hk, Hnx.
      + apply header_store.
      + rewrite load32_store32_eq. by apply u32_small.
      + rewrite load32_store32_ne by lia. rewrite load32_store32_eq, u32_u32, En. apply u32_small.
        unfold KERNBASE, HDR in *. lia.
    - rewrite (proj2 (Z.eqb_neq _ _)) by done. exists (store32 m bp (hd base B)). split_and!.
      + intros fp. by rewrite put_ptr_run by exact Ibp.
      + apply header_store_ptr.
      + rewrite load32_store32_eq, EB. by apply u32_small.
      + rewrite load32_store32_ne by lia. rewrite En. apply free_size. }
  destruct Hup as (m1 & Hup & Hm1 & Hb1 & Hb2). exists m1.
  destruct (header_only_load bp m m1 p Hm1 ltac:(lia)) as [Hp3 Hp4].
  set (psz := load32 m (p + 4)) in *.
  assert (Hpsz : 0 <= p + HDR * psz < 2 ^ 32).
  { assert (Hpin : p ∈ base :: nodes lo La) by (rewrite EA; set_solver). apply elem_of_cons in Hpin as [E|Hpin].
    - unfold psz, m. rewrite E, (hk_base _ _ _ _ H). unfold KERNBASE, HDR in *. lia.
    - apply nodes_block in Hpin as [k Hk]. assert (psz = k) as ->.
      { apply (hk_sizes _ _ _ _ H _ _ true). rewrite blocks_app. apply elem_of_app. by left. }
      apply blocks_range in Hk; [|done]. unfold bp, KERNBASE, HDR in *. lia. }
  assert (Hpe : hdr_end p psz = p + HDR * psz) by (by apply u32_small).
  exists (if p + HDR * psz =? bp then store32 (store32 m1 (p + 4) (u32 (psz + n'))) p (hd base B') else store32 m1 p bp).
  split; [done|]. split; [|split; [done|split; [done|split; [done|split]]]].
  - unfold free. rewrite Ubp. unfold bind at 1, gets. cbn [id]. unfold bind at 1. rewrite Hscan.
    unfold bind at 1. rewrite get_size_run by done. fold m. rewrite free_size.
    unfold bind at 1. rewrite get_ptr_run by done. fold m. rewrite (free_chain_next A p EA).
    unfold bind at 1. specialize (Hup (h_freep s)).
    replace (Uheap m (h_freep s) (h_brk s)) with s in Hup by (by destruct s). rewrite Hup.
    unfold bind at 1. rewrite get_size_run by exact Ip. cbn [h_mem]. rewrite Hp4, Hpe.
    destruct (p + HDR * psz =? bp); unfold bind.
    + rewrite get_size_run by exact Ibp. cbn [h_mem]. rewrite get_ptr_run by exact Ibp. cbn [h_mem].
      rewrite put_size_run by exact Ip. cbn [h_mem h_freep h_brk]. rewrite put_ptr_run by exact Ip. by rewrite Hb1, Hb2.
    + by rewrite put_ptr_run by exact Ip.
  - destruct (p + HDR * psz =? bp); [apply header_store|apply header_store_ptr].
  - destruct (Z.eqb_spec (p + HDR * psz) bp) as [Eq|Hne].
    + rewrite load32_store32_eq, (load32_store32_ne _ _ (p + 4)), load32_store32_eq, u32_u32 by lia.
      split; [by apply u32_small|]. apply u32_small. unfold KERNBASE, HDR in *. lia.
    + rewrite load32_store32_eq, (load32_store32_ne _ _ (p + 4)) by lia. split; [|done].
      apply u32_small. unfold KERNBASE, HDR in *. lia.
Qed.

Lemma up_blocks b : b ∈ blocks (bp + HDR * n') Lb' -> b ∈ blocks (bp + HDR * n) Lb.
Proof using H.
  destruct free_up_cases as [(k & K & E & En & EL & _)|(En & EL & _)]; rewrite En, EL; [|done].
  rewrite E. cbn [blocks]. intros Hb. right. by replace (bp + HDR * n + HDR * k) with (bp + HDR * (n + k)) by lia.
Qed.
Lemma up_pos : pos_sizes Lb' /\ n' + units Lb' = n + units Lb.
Proof using H.
  destruct free_parts as (_ & _ & Hb).
  destruct free_up_cases as [(k & K & E & En & EL & _)|(En & EL & _)]; rewrite En, EL; [|done].
  rewrite E in Hb |- *. apply Forall_cons in Hb as [_ HK]. split; [done|]. unfold units. cbn. lia.
Qed.
Lemma up_coalesced : coalesced Lb' /\ forall j K, Lb' = (j, true) :: K -> False.
Proof using H.
  pose proof (hk_coal _ _ _ _ H) as Hc. apply coalesced_app in Hc as (_ & Hc & _).
  destruct Lb as [|[k [|]] K] eqn:E; unfold Lb'; cbn [merge_up snd] in *.
  - split; [done|]. intros; discriminate.
  - destruct K as [|[j g] K']; cbn in Hc |- *; [split; [done|]; intros; discriminate|].
    destruct g; [|split; [tauto|]; intros; discriminate]. destruct Hc as (_ & Hc & _). discriminate.
  - cbn in Hc |- *. split; [tauto|]. intros; discriminate.
Qed.

(** The free list around the block. *)
Lemma free_chains A p m2 : base :: nodes lo La = A ++ [p] -> (forall x, x ∈ A -> x + HDR <= p /\ base <= x) -> p + HDR <= bp ->
  (forall b, b + HDR <= p \/ p + HDR <= b -> b + HDR <= bp \/ bp + HDR <= b -> load32 m2 b = load32 m b) ->
  chain (load32 m2) (A ++ [p]) /\ chain (load32 m2) (B' ++ [base]).
Proof using H.
  intros EA HA Hp Hm. destruct free_n'_range as [Hn1 _]. destruct up_pos as [Hup _].
  pose proof (hk_chain _ _ _ _ H) as Hc. rewrite free_nodes, EA in Hc. rewrite <- !(assoc_L (++)) in Hc. cbn [app] in Hc.
  apply chain_app in Hc as [Hc1 Hc2]. split.
  - eapply chain_ext; [|exact Hc1]. intros a Ha. destruct (HA a Ha). symmetry. apply Hm; unfold HDR in *; lia.
  - assert (Hc3 : chain (load32 m) (B' ++ [base])).
    { apply (chain_app _ [] p) in Hc2 as [_ Hc2].
      destruct free_up_cases as [(k & K & _ & _ & _ & EB & _)|(_ & _ & EB & _)].
      - rewrite EB in Hc2. cbn [app] in Hc2. apply (chain_app _ [p]) in Hc2 as [_ Hc2].
        destruct (B' ++ [base]) as [|z l] eqn:E; [by destruct B'|]. by apply (chain_app _ [bp + HDR * n]) in Hc2 as [_ Hc2].
      - rewrite EB. destruct (B ++ [base]) as [|z l] eqn:E; [by destruct B|]. by apply (chain_app _ [p]) in Hc2 as [_ Hc2]. }
    eapply chain_ext; [|exact Hc3]. intros a Ha. apply nodes_range in Ha; [|done]. symmetry. apply Hm; unfold HDR in *; lia.
Qed.

(** The part of the heap below the block, and the merged block at [tend lo L1]. *)
Lemma free_down A p m1 m2 : base :: nodes lo La = A ++ [p] ->
  (forall x, x ∈ A -> x + HDR <= p /\ base <= x) -> p + HDR <= bp ->
  header_only bp m m1 -> load32 m1 bp = hd base B' -> load32 m1 (bp + 4) = n' -> header_only p m1 m2 ->
  (if p + HDR * load32 m (p + 4) =? bp
   then load32 m2 p = hd base B' /\ load32 m2 (p + 4) = load32 m (p + 4) + n'
   else load32 m2 p = bp /\ load32 m2 (p + 4) = load32 m (p + 4)) ->
  chain (load32 m2) (A ++ [p]) ->
  exists L1 k, merge_down La = (L1, k) /\ 0 <= k /\ bp = tend lo L1 + HDR * k /\ pos_sizes L1 /\
    (forall a j f, (a, j, f) ∈ blocks lo L1 -> (a, j, f) ∈ blocks lo La /\ load32 m2 (a + 4) = j) /\
    (forall a j, (a, j, false) ∈ blocks lo La -> (a, j, false) ∈ blocks lo L1) /\
    coalesced L1 /\ (forall j K, L1 = K ++ [(j, true)] -> False) /\
    load32 m2 (base + 4) = 0 /\
    load32 m2 (tend lo L1) = hd base B' /\ load32 m2 (tend lo L1 + 4) = k + n' /\
    p ∈ base :: nodes lo L1 ++ [tend lo L1] /\
    chain (load32 m2) ((base :: nodes lo L1) ++ [tend lo L1]).
Proof using H.
  intros EA HA Hpb Hm1 Hb1 Hb2 Hm2 Hpm Hch.
  destruct free_parts as (Ha & Hn & Hb). destruct free_bounds as (H1 & H2 & H3 & H4 & H5).
  assert (Hload : forall b, b + HDR <= p \/ p + HDR <= b -> b + HDR <= bp \/ bp + HDR <= b ->
    load32 m2 (b + 4) = load32 m (b + 4)).
  { intros b Hbp' Hbb. destruct (header_only_load p m1 m2 b Hm2 Hbp') as [_ ->].
    by destruct (header_only_load bp m m1 b Hm1 Hbb) as [_ ->]. }
  assert (Hsz : forall a j f, (a, j, f) ∈ blocks lo La -> load32 m (a + 4) = j).
  { intros a j f Hin. apply (hk_sizes _ _ _ _ H a j f). rewrite blocks_app. apply elem_of_app. by left. }
  pose proof (hk_coal _ _ _ _ H) as Hco. apply coalesced_app in Hco as (Hco & _ & _).
  destruct free_down_cases as [(L1 & k & EL & Emd & EN & Ebp & Hk & HL1)|(Emd & Hne)].
  - assert (A = base :: nodes lo L1 /\ p = tend lo L1) as [-> ->].
    { rewrite EA in EN. by apply app_inj_tail in EN. }
    assert (Hpk : load32 m (tend lo L1 + 4) = k).
    { apply (Hsz _ _ true). rewrite EL, blocks_app. apply elem_of_app. right. by left. }
    rewrite Hpk in Hpm. rewrite (proj2 (Z.eqb_eq _ _)) in Hpm by lia. destruct Hpm as [Hp1 Hp2].
    exists L1, k. pose proof (tend_le lo L1 HL1).
    rewrite EL in Hco. apply coalesced_app in Hco as (Hco & _ & Hlast).
    split_and!; try done; try lia.
    + intros a j f Hin. pose proof (blocks_range L1 HL1 _ _ _ _ Hin).
      assert (Hin' : (a, j, f) ∈ blocks lo La) by (rewrite EL, blocks_app; apply elem_of_app; by left).
      split; [done|]. rewrite Hload by (unfold HDR in *; lia). by apply (Hsz _ _ f).
    + intros a j Hin. rewrite EL, blocks_app in Hin. apply elem_of_app in Hin as [Hin|Hin]; [done|].
      cbn in Hin. apply list_elem_of_singleton in Hin. discriminate Hin.
    + intros j K E. by apply (Hlast j k K []).
    + rewrite Hload; [apply H|unfold HDR in *; lia|unfold HDR in *; lia].
    + set_solver.
  - specialize (Hne A p EA). rewrite (proj2 (Z.eqb_neq _ _)) in Hpm by done. destruct Hpm as [Hp1 Hp2].
    exists La, 0. destruct (header_only_load p m1 m2 bp Hm2 ltac:(lia)) as [Hbp1 Hbp2].
    assert (Hpin : p = base \/ exists k, (p, k, true) ∈ blocks lo La).
    { assert (Hp : p ∈ base :: nodes lo La) by (rewrite EA; set_solver).
      apply elem_of_cons in Hp as [->|Hp]; [by left|right; by apply nodes_block]. }
    fold bp. split_and!; try done; try lia.
    + intros a j f Hin. split; [done|]. pose proof (blocks_range La Ha _ _ _ _ Hin) as Hrg. fold bp in Hrg.
      destruct (decide (a = p)) as [->|Hap]; [rewrite Hp2; by apply (Hsz _ _ f)|].
      rewrite Hload; [by apply (Hsz _ _ f)| |unfold HDR in *; lia].
      destruct Hpin as [->|[k Hk]]; [unfold HDR in *; lia|].
      pose proof (blocks_range La Ha _ _ _ _ Hk) as Hrk. destruct (blocks_disjoint La Ha _ _ _ _ _ _ _ Hin Hk) as [(-> & _)|[|]]; [done|unfold HDR in *; lia..].
    + intros j K E. unfold merge_down in Emd. rewrite E, last_snoc in Emd. injection Emd as E1 E2.
      rewrite removelast_last in E1. apply (f_equal length) in E1. rewrite length_app in E1. cbn in E1. lia.
    + destruct (decide (p = base)) as [->|Hpb']; [rewrite Hp2; apply H|].
      rewrite Hload; [apply H| |unfold HDR in *; lia]. destruct Hpin as [->|[k Hk]]; [done|].
      pose proof (blocks_range La Ha _ _ _ _ Hk). unfold HDR in *; lia.
    + change (base :: nodes lo La ++ [bp]) with ((base :: nodes lo La) ++ [bp]). rewrite EA. set_solver.
    + rewrite EA, <- (assoc_L (++)). apply (chain_app _ A p [bp]). split; [done|]. by split.
Qed.

(** [free] of a block in use. *)
Lemma free_ok : exists s', free (bp + HDR) s = Ret (tt, s') /\ heap_ok base lo s' (release La n Lb) /\ h_brk s' = h_brk s /\
  (forall a j, in_use lo (release La n Lb) a j <-> in_use lo (La ++ (n, false) :: Lb) a j /\ a <> bp) /\
  (forall a j, in_use lo (release La n Lb) a j -> forall x, a + HDR <= x < a + HDR * j -> h_mem s' x = h_mem s x).
Proof using H.
  destruct free_run as (A & p & m1 & m2 & EA & Hrun & Hm1 & Hb1 & Hb2 & Hm2 & Hpm).
  destruct free_last as (A' & p' & EA' & Hp1 & Hp2 & HA). rewrite EA in EA'.
  apply app_inj_tail in EA' as [<- <-].
  destruct free_parts as (Ha & Hn & Hb). destruct free_bounds as (H1 & H2 & H3 & H4 & H5).
  destruct free_n'_range as [Hn1 Hn2]. destruct up_pos as [Hup1 Hup2]. destruct up_coalesced as [Hco1 Hco2].
  assert (Hload : forall b, b + HDR <= p \/ p + HDR <= b -> b + HDR <= bp \/ bp + HDR <= b ->
    load32 m2 b = load32 m b /\ load32 m2 (b + 4) = load32 m (b + 4)).
  { intros b Hbp' Hbb. destruct (header_only_load p m1 m2 b Hm2 Hbp') as [-> ->].
    by destruct (header_only_load bp m m1 b Hm1 Hbb) as [-> ->]. }
  destruct (free_chains A p m2 EA HA Hp2) as [Hc1 Hc2]; [intros b X Y; by destruct (Hload b X Y)|].
  destruct (free_down A p m1 m2) as (L1 & k & Emd & Hk & Ebp & HL1 & Hbl & Hus & Hco3 & Hco4 & Hbase & Hq1 & Hq2 & Hpin & Hch); try done.
  exists (Uheap m2 p (h_brk s)). split; [done|].
  unfold release. rewrite Emd. cbn [fst snd]. fold n' Lb'. set (q := tend lo L1) in *.
  assert (Eq : q + HDR * (k + n') = bp + HDR * n') by lia.
  assert (Hall : forall a j f, (a, j, f) ∈ blocks lo (L1 ++ (k + n', true) :: Lb') ->
    (a, j, f) = (q, k + n', true) \/ (a, j, f) ∈ blocks lo L1 \/ (a, j, f) ∈ blocks (bp + HDR * n') Lb').
  { intros a j f Hin. rewrite blocks_app in Hin. apply elem_of_app in Hin as [Hin|Hin]; [tauto|].
    cbn [blocks] in Hin. fold q in Hin. rewrite Eq in Hin. apply elem_of_cons in Hin as [Hin|Hin]; tauto. }
  assert (Hlb : forall a j f, (a, j, f) ∈ blocks (bp + HDR * n') Lb' -> bp + HDR <= a /\ load32 m2 (a + 4) = j).
  { intros a j f Hin. pose proof (blocks_range Lb' Hup1 _ _ _ _ Hin) as Hrg. split; [unfold HDR in *; lia|].
    destruct (Hload a) as [_ ->]; [unfold HDR in *; lia..|]. apply (hk_sizes _ _ _ _ H a j f).
    rewrite blocks_app. apply elem_of_app. right. cbn [blocks]. fold bp. right. by apply up_blocks. }
  assert (Hlow : forall a j, (a, j, false) ∈ blocks lo La -> forall x, a + HDR <= x < a + HDR * j -> m2 x = m x).
  { intros a j Hin x Hx. pose proof (blocks_range La Ha _ _ _ _ Hin) as Hrg. fold bp in Hrg.
    rewrite Hm2; [rewrite Hm1; [done|lia]|].
    assert (Hp : p ∈ base :: nodes lo La) by (rewrite EA; set_solver).
    apply elem_of_cons in Hp as [->|Hp]; [unfold HDR in *; lia|]. apply nodes_block in Hp as [j' Hp].
    pose proof (blocks_range La Ha _ _ _ _ Hp). 
    destruct (blocks_disjoint La Ha _ _ _ _ _ _ _ Hin Hp) as [(_ & _ & E)|[|]]; [discriminate E|unfold HDR in *; lia..]. }
  split; [|split; [done|split]].
  - split; cbn [h_mem h_brk h_freep].
    + apply Forall_app. split; [done|]. constructor; [cbn; lia|done].
    + rewrite <- (hk_end _ _ _ _ H). rewrite !tend_app, !tend_cons. fold bp q. rewrite Eq. unfold tend. lia.
    + done.
    + apply coalesced_app. split; [done|]. split.
      * destruct Lb' as [|[j [|]] K] eqn:E; cbn; try done. by destruct (Hco2 j K).
      * intros j j' K K' E _. by apply (Hco4 j K).
    + rewrite nodes_app, nodes_cons. fold q. rewrite Eq. cbn [app]. fold B'.
      change (base :: nodes lo L1 ++ q :: B') with ((base :: nodes lo L1) ++ q :: B'). rewrite <- (assoc_L (++)). cbn [app].
      apply (chain_app _ (base :: nodes lo L1) q (B' ++ [base])). split; [done|]. by apply chain_cons.
    + intros a j f Hin. apply Hall in Hin as [Hin|[Hin|Hin]]; [simplify_eq; done|by apply Hbl in Hin as [_ Hin]|by apply Hlb in Hin as [_ Hin]].
    + done.
    + rewrite nodes_app, nodes_cons. fold q. cbn [app]. set_solver.
  - intros a j. unfold in_use. split.
    + intros Hin. apply Hall in Hin as [Hin|[Hin|Hin]]; [discriminate Hin|..].
      * apply Hbl in Hin as [Hin _]. pose proof (blocks_range La Ha _ _ _ _ Hin) as Hrg. fold bp in Hrg.
        split; [|unfold HDR in *; lia]. rewrite blocks_app. apply elem_of_app. by left.
      * pose proof (Hlb _ _ _ Hin). split; [|unfold HDR in *; lia].
        rewrite blocks_app. apply elem_of_app. right. cbn [blocks]. right. by apply up_blocks.
    + intros [Hin Hne]. rewrite blocks_app in Hin |- *. apply elem_of_app. apply elem_of_app in Hin as [Hin|Hin]; [left; by apply Hus|].
      right. cbn [blocks] in Hin |- *. fold bp in Hin. fold q. rewrite Eq. right.
      apply elem_of_cons in Hin as [Hin|Hin]; [by simplify_eq|].
      destruct free_up_cases as [(k' & K & E & En & EL & _)|(En & EL & _)]; rewrite En, EL; [|done].
      rewrite E in Hin. cbn [blocks] in Hin. apply elem_of_cons in Hin as [Hin|Hin]; [discriminate Hin|].
      by replace (bp + HDR * (n + k')) with (bp + HDR * n + HDR * k') by lia.
  - intros a j Hin x Hx. apply Hall in Hin as [Hin|[Hin|Hin]]; [discriminate Hin|..]; cbn [h_mem].
    + apply Hbl in Hin as [Hin _]. by apply (Hlow a j).
    + apply Hlb in Hin as [Hin _]. rewrite Hm2 by (unfold HDR in *; lia). apply Hm1. unfold HDR in *; lia.
Qed.

End free.
