(* ===== verification/UmallocThm.v ===== *)
(** [malloc] and [free] over the tiling of the heap: blocks that are handed out lie
    inside the process, do not overlap, and keep their contents. *)

From S2P Require Import Prelude CString Mmu Umalloc UmallocSpec UmallocFree.

Section malloc.
Context (base : Z) (lo : Z).

(** * Taking a free block *)

Lemma split_unique {A} (x : A) : forall l1 k1 l2 k2, l1 ++ x :: l2 = k1 ++ x :: k2 -> x ∉ l1 -> x ∉ k1 ->
  l1 = k1 /\ l2 = k2.
Proof.
  induction l1 as [|a l1 IH]; intros [|b k1] l2 k2 E Hl Hk; cbn in E.
  - by simplify_eq.
  - simplify_eq. set_solver.
  - simplify_eq. set_solver.
  - injection E as -> E. destruct (IH k1 l2 k2 E) as [-> ->]; set_solver.
Qed.

Lemma ring_pred s L prev p : heap_ok base lo s L -> prev ∈ base :: nodes lo L -> load32 (h_mem s) prev = p ->
  p <> base -> exists A B, base :: nodes lo L = A ++ prev :: p :: B.
Proof.
  intros H Hin Hp Hne. apply list_elem_of_split in Hin as (A & B & E). pose proof (hk_chain _ _ _ _ H) as Hc.
  rewrite E in Hc. rewrite <- (assoc_L (++)) in Hc. cbn [app] in Hc. destruct B as [|y B]; cbn [app] in Hc.
  - apply chain_next in Hc. congruence.
  - apply chain_next in Hc. exists A, B. rewrite E. congruence.
Qed.

(** A node of the free list and another block. *)
Lemma node_apart s L q a j f : heap_ok base lo s L -> q ∈ base :: nodes lo L -> (a, j, f) ∈ blocks lo L ->
  (a = q /\ f = true) \/ a + HDR * j <= q \/ q + HDR <= a.
Proof.
  intros H Hq Ha. pose proof (blocks_range L (hk_pos _ _ _ _ H) _ _ _ _ Ha). pose proof (hk_lo _ _ _ _ H).
  apply elem_of_cons in Hq as [->|Hq]; [lia|]. apply nodes_block in Hq as [k Hk].
  pose proof (blocks_range L (hk_pos _ _ _ _ H) _ _ _ _ Hk).
  destruct (blocks_disjoint L (hk_pos _ _ _ _ H) _ _ _ _ _ _ _ Ha Hk) as [(-> & _ & ->)|[|]]; [by left|lia|unfold HDR in *; lia].
Qed.

Lemma ring_after s L : heap_ok base lo s L -> forall K2 K1 z y, base :: nodes lo L = K1 ++ z :: K2 -> y ∈ K2 -> z + HDR <= y.
Proof.
  intros H K2. induction K2 as [|w K2 IH]; intros K1 z y EK Hy; [by apply elem_of_nil in Hy|].
  pose proof (ring_sorted base lo s _ K1 z w K2 H EK) as Hzw. apply elem_of_cons in Hy as [->|Hy]; [done|].
  assert (w + HDR <= y) by (apply (IH (K1 ++ [z]) w y); [by rewrite EK, <- (assoc_L (++))|done]). unfold HDR in *. lia.
Qed.

Lemma heap_ring_NoDup s L : heap_ok base lo s L -> NoDup (base :: nodes lo L).
Proof.
  intros H. cut (forall K2 K1, base :: nodes lo L = K1 ++ K2 -> NoDup K2); [intros Hc; by apply (Hc _ [])|].
  induction K2 as [|z K2 IH]; intros K1 E; constructor.
  - intros Hz. pose proof (ring_after s L H K2 K1 z z E Hz). unfold HDR in *. lia.
  - apply (IH (K1 ++ [z])). by rewrite E, <- (assoc_L (++)).
Qed.

Lemma ring_range s L q : heap_ok base lo s L -> q ∈ base :: nodes lo L -> base <= q < 2 ^ 32.
Proof.
  intros H Hq. pose proof (hk_lo _ _ _ _ H). pose proof (hk_end _ _ _ _ H) as He. unfold KERNBASE, HDR in *.
  pose proof (tend_le lo L (hk_pos _ _ _ _ H)).
  apply elem_of_cons in Hq as [->|Hq]; [lia|]. apply nodes_range in Hq; [|apply H]. unfold HDR in *. lia.
Qed.

Section take.
Context (s : uheap) (La Lb : list (Z * bool)) (n : Z).
Context (H : heap_ok base lo s (La ++ (n, true) :: Lb)).
Let p := tend lo La.
Let m := h_mem s.

Lemma take_bounds : pos_sizes La /\ 1 <= n /\ pos_sizes Lb /\ 0 < base /\ base + HDR <= lo /\ lo <= p /\
  p + HDR * n <= h_brk s /\ h_brk s <= KERNBASE.
Proof using H.
  pose proof (hk_pos _ _ _ _ H) as Hp. apply Forall_app in Hp as [Ha Hb]. apply Forall_cons in Hb as [Hn Hb].
  destruct (hk_lo _ _ _ _ H) as (H1 & H2 & H3). pose proof (hk_end _ _ _ _ H) as He. rewrite tend_app, tend_cons in He.
  pose proof (tend_le lo La Ha). pose proof (tend_le (tend lo La + HDR * n) Lb Hb). unfold p. cbn [fst] in Hn.
  unfold pos_sizes. split_and!; (done || lia).
Qed.
Lemma take_size : load32 m (p + 4) = n /\ in_proc p s = true.
Proof using H.
  assert (Hin : (p, n, true) ∈ blocks lo (La ++ (n, true) :: Lb)) by (rewrite blocks_app; apply elem_of_app; right; by left).
  split; [by apply (hk_sizes _ _ _ _ H _ _ true)|]. eapply hk_in_proc; [exact H|]. right. eauto.
Qed.

(** The blocks around the one that is taken. *)
Lemma take_other a j f : (a, j, f) ∈ blocks lo La \/ (a, j, f) ∈ blocks (p + HDR * n) Lb ->
  (a, j, f) ∈ blocks lo (La ++ (n, true) :: Lb) /\ 1 <= j /\
  (base + HDR <= a /\ a + HDR * j <= p \/ p + HDR * n <= a).
Proof using H.
  destruct take_bounds as (Ha & Hn & Hb & H1 & H2 & H3 & H4 & H5). rewrite blocks_app. cbn [blocks]. fold p.
  intros [Hin|Hin].
  - pose proof (blocks_range La Ha _ _ _ _ Hin) as Hr. fold p in Hr. split; [apply elem_of_app; by left|]. lia.
  - pose proof (blocks_range Lb Hb _ _ _ _ Hin). split; [apply elem_of_app; right; by right|]. lia.
Qed.

Lemma take_nodes : base :: nodes lo (La ++ (n, true) :: Lb) = (base :: nodes lo La) ++ p :: nodes (p + HDR * n) Lb.
Proof using. rewrite nodes_app, nodes_cons. done. Qed.

(** The predecessor in the list. *)
Lemma take_pred prev : prev ∈ base :: nodes lo (La ++ (n, true) :: Lb) -> load32 m prev = p ->
  exists A, base :: nodes lo La = A ++ [prev].
Proof using H.
  intros Hin Hpp. destruct take_bounds as (Ha & Hn & Hb & H1 & H2 & H3 & H4 & H5).
  assert (Hpb : p <> base) by (unfold HDR in *; lia).
  destruct (ring_pred s _ prev p H Hin Hpp Hpb) as (A & B & E). exists A.
  pose proof (heap_ring_NoDup s _ H) as Hnd.
  assert (E' : (A ++ [prev]) ++ p :: B = (base :: nodes lo La) ++ p :: nodes (p + HDR * n) Lb).
  { rewrite <- take_nodes, E, <- (assoc_L (++)). done. }
  apply split_unique in E' as [<- _]; [done| |].
  - intros Hp. rewrite E in Hnd. change (A ++ prev :: p :: B) with (A ++ [prev] ++ p :: B) in Hnd.
    rewrite (assoc_L (++)) in Hnd. apply NoDup_app in Hnd as (_ & Hd & _). apply (Hd p Hp). by left.
  - intros Hp. rewrite take_nodes in Hnd. apply NoDup_app in Hnd as (_ & Hd & _). apply (Hd p Hp). by left.
Qed.

(** The whole block. *)
Lemma take_exact prev : prev ∈ base :: nodes lo (La ++ (n, true) :: Lb) -> load32 m prev = p ->
  let s' := Uheap (store32 m prev (load32 m p)) prev (h_brk s) in
  heap_ok base lo s' (La ++ (n, false) :: Lb) /\
  (forall x a j, in_use lo (La ++ (n, true) :: Lb) a j -> a + HDR <= x < a + HDR * j -> h_mem s' x = m x).
Proof using H.
  intros Hin Hpp. cbn zeta. destruct take_bounds as (Ha & Hn & Hb & H1 & H2 & H3 & H4 & H5).
  destruct (take_pred prev Hin Hpp) as [A EA]. set (B := nodes (p + HDR * n) Lb).
  assert (E : base :: nodes lo (La ++ (n, true) :: Lb) = (A ++ [prev]) ++ p :: B) by (by rewrite take_nodes, EA).
  pose proof (hk_chain _ _ _ _ H) as Hc. rewrite E in Hc.
  replace (((A ++ [prev]) ++ p :: B) ++ [base]) with (A ++ prev :: p :: B ++ [base]) in Hc by (by rewrite <- !(assoc_L (++))).
  apply chain_app in Hc as [Hc1 Hc2]. apply (chain_app _ [prev]) in Hc2 as [_ Hc2].
  assert (Hnx : load32 m p = hd base B) by (destruct B; cbn in Hc2 |- *; apply Hc2).
  assert (Hc3 : chain (load32 m) (B ++ [base])).
  { destruct (B ++ [base]) as [|z l] eqn:El; [by destruct B|]. by apply (chain_app _ [p]) in Hc2 as [_ Hc2]. }
  assert (Hnr : 0 <= hd base B < 2 ^ 32).
  { assert (hd base B ∈ base :: nodes lo (La ++ (n, true) :: Lb)) as Hh.
    { rewrite E. destruct B; cbn; [|set_solver]. rewrite <- EA. set_solver. }
    apply (ring_range s _ _ H) in Hh. lia. }
  rewrite Hnx. set (m' := store32 m prev (hd base B)).
  assert (Hload : forall b, b + HDR <= prev \/ prev + HDR <= b -> load32 m' b = load32 m b).
  { intros b Hb'. unfold m', HDR in *. by rewrite load32_store32_ne by lia. }
  assert (Hsz : forall b, b = prev \/ b + HDR <= prev \/ prev + HDR <= b -> load32 m' (b + 4) = load32 m (b + 4)).
  { intros b Hb'. unfold m', HDR in *. by rewrite load32_store32_ne by lia. }
  assert (EN' : base :: nodes lo (La ++ (n, false) :: Lb) = (A ++ [prev]) ++ B) by (rewrite nodes_app, nodes_cons, <- EA; done).
  split; [split; cbn [h_mem h_brk h_freep]|].
  - pose proof (hk_pos _ _ _ _ H) as Hp. apply Forall_app in Hp as [Hp1 Hp2]. apply Forall_app. split; [done|].
    apply Forall_cons in Hp2 as [? ?]. by constructor.
  - rewrite <- (hk_end _ _ _ _ H). by rewrite !tend_app, !tend_cons.
  - done.
  - pose proof (hk_coal _ _ _ _ H) as Hco. apply coalesced_app in Hco as (Hc4 & Hc5 & _). apply coalesced_app.
    split; [done|]. split; [|intros; discriminate]. destruct Lb as [|[j g] K]; [done|]. cbn in Hc5 |- *. tauto.
  - rewrite EN', <- !(assoc_L (++)). cbn [app]. apply chain_app. split.
    + eapply chain_ext; [|exact Hc1]. intros a Haa. symmetry. apply Hload. left.
      apply list_elem_of_split in Haa as (X & Y & ->).
      eapply (ring_after s _ H (Y ++ prev :: p :: B) X a prev); [|set_solver]. by rewrite E, <- !(assoc_L (++)).
    + apply chain_cons; [unfold m'; rewrite load32_store32_eq; by apply u32_small|].
      eapply chain_ext; [|exact Hc3]. intros a Haa. symmetry. apply Hload. right.
      eapply (ring_after s _ H (p :: B) A prev a); [by rewrite E, <- (assoc_L (++))|by right].
  - intros a j f Hbl. assert (Hbl' : exists g, (a, j, g) ∈ blocks lo (La ++ (n, true) :: Lb)).
    { rewrite blocks_app in Hbl |- *. cbn [blocks] in Hbl |- *. rewrite elem_of_app, elem_of_cons in Hbl.
      setoid_rewrite elem_of_app. setoid_rewrite elem_of_cons.
      destruct Hbl as [?|[Hbl|?]]; [exists f; tauto|simplify_eq; exists true; tauto|exists f; tauto]. }
    destruct Hbl' as [g Hbl']. pose proof (blocks_range _ (hk_pos _ _ _ _ H) _ _ _ _ Hbl').
    rewrite Hsz; [by apply (hk_sizes _ _ _ _ H _ _ g)|].
    destruct (node_apart s _ prev a j g H Hin Hbl') as [[-> _]|[|]]; [by left|unfold HDR in *; lia|unfold HDR in *; lia].
  - rewrite Hsz; [apply H|]. assert (Hpi : prev ∈ base :: nodes lo La) by (rewrite EA; set_solver).
    apply elem_of_cons in Hpi as [->|Hpi]; [by left|]. apply nodes_range in Hpi; [|done]. unfold HDR in *. lia.
  - rewrite EN'. set_solver.
  - intros x a j Hu Hx. cbn [h_mem]. unfold m'. unfold HDR in *.
    destruct (node_apart s _ prev a j false H Hin Hu) as [[_ Hf]|[|]]; [discriminate Hf|unfold HDR in *; by rewrite store32_ne by lia..].
Qed.

(** The end of the block. *)
Lemma take_tail k prev : 1 <= k < n -> prev ∈ base :: nodes lo (La ++ (n, true) :: Lb) ->
  let r := p + HDR * (n - k) in
  let s' := Uheap (store32 (store32 m (p + 4) (n - k)) (r + 4) k) prev (h_brk s) in
  heap_ok base lo s' (La ++ (n - k, true) :: (k, false) :: Lb) /\
  (forall x a j, in_use lo (La ++ (n, true) :: Lb) a j -> a + HDR <= x < a + HDR * j -> h_mem s' x = m x).
Proof using H.
  intros Hk Hin. cbn zeta. destruct take_bounds as (Ha & Hn & Hb & H1 & H2 & H3 & H4 & H5).
  set (r := p + HDR * (n - k)). assert (Hr : p + HDR <= r /\ r + HDR * k = p + HDR * n) by (unfold r, HDR; lia).
  set (m' := store32 (store32 m (p + 4) (n - k)) (r + 4) k).
  assert (Hpk : 0 <= n < 2 ^ 32) by (unfold KERNBASE, HDR in *; lia).
  assert (Hload : forall b, b <> p + 4 -> b <> r + 4 -> b + 4 <= p \/ b = p \/ p + HDR * n <= b ->
    load32 m' b = load32 m b).
  { intros b Hb1 Hb2 Hb3. unfold m', HDR in *. by rewrite !load32_store32_ne by lia. }
  assert (EN : base :: nodes lo (La ++ (n - k, true) :: (k, false) :: Lb) = base :: nodes lo (La ++ (n, true) :: Lb)).
  { rewrite !nodes_app, !nodes_cons. fold p. cbn [app]. fold r. by replace (r + HDR * k) with (p + HDR * n) by lia. }
  split; [split; cbn [h_mem h_brk h_freep]|].
  - apply Forall_app. split; [done|]. constructor; [cbn; lia|]. constructor; [cbn; lia|done].
  - rewrite <- (hk_end _ _ _ _ H). rewrite !tend_app, !tend_cons. f_equal. lia.
  - done.
  - pose proof (hk_coal _ _ _ _ H) as Hco. apply coalesced_app in Hco as (Hc4 & Hc5 & Hc6). apply coalesced_app.
    split; [done|]. split; [|intros j j' K K' E1 E2; by apply (Hc6 j n K Lb)].
    destruct Lb as [|[j g] K]; cbn in Hc5 |- *; tauto.
  - rewrite EN. eapply chain_ext; [|apply H]. intros a Haa. symmetry. apply Hload.
    + intros ->. apply (node_apart s _ (p + 4) p n true H) in Haa as [[E _]|[|]];
        [lia|unfold HDR in *; lia|unfold HDR in *; lia|]. rewrite blocks_app. apply elem_of_app. right. by left.
    + intros ->. apply (node_apart s _ (r + 4) p n true H) in Haa as [[E _]|[|]];
        [unfold HDR in *; lia|unfold HDR in *; lia|unfold HDR in *; lia|]. rewrite blocks_app. apply elem_of_app. right. by left.
    + apply (node_apart s _ a p n true H) in Haa as [[E _]|[|]];
        [lia|unfold HDR in *; lia|unfold HDR in *; lia|]. rewrite blocks_app. apply elem_of_app. right. by left.
  - intros a j f Hbl. rewrite blocks_app in Hbl. cbn [blocks] in Hbl. fold p in Hbl. fold r in Hbl.
    replace (r + HDR * k) with (p + HDR * n) in Hbl by lia. rewrite elem_of_app, !elem_of_cons in Hbl.
    assert (Hoth : (a, j, f) ∈ blocks lo La \/ (a, j, f) ∈ blocks (p + HDR * n) Lb -> load32 m' (a + 4) = j).
    { intros Ho. destruct (take_other a j f Ho) as (Hbl' & Hj & Hpos).
      rewrite <- (hk_sizes _ _ _ _ H a j f Hbl'). apply Hload; unfold HDR in *; lia. }
    destruct Hbl as [?|[E|[E|?]]]; [tauto| | |tauto]; simplify_eq.
    + unfold m'. rewrite load32_store32_ne by (unfold HDR in *; lia). rewrite load32_store32_eq. apply u32_small. lia.
    + unfold m'. rewrite load32_store32_eq. apply u32_small. lia.
  - rewrite Hload; [apply H|unfold HDR in *; lia..].
  - by rewrite EN.
  - intros x a j Hu Hx. cbn [h_mem]. unfold m'. assert (Hbl : (p, n, true) ∈ blocks lo (La ++ (n, true) :: Lb)).
    { rewrite blocks_app. apply elem_of_app. right. by left. }
    destruct (blocks_disjoint _ (hk_pos _ _ _ _ H) _ _ _ _ _ _ _ Hu Hbl) as [(_ & _ & E)|[|]]; [discriminate E|unfold HDR in *; by rewrite !store32_ne by lia..].
Qed.
End take.

(** * The loop of [malloc] *)

(** The block [r] of [k] headers has been handed out. *)
Definition took (s : uheap) (L : list (Z * bool)) (k r : Z) (s' : uheap) (L' : list (Z * bool)) : Prop :=
  heap_ok base lo s' L' /\ lo <= r /\ (forall j, ~ in_use lo L r j) /\
  (forall a j, in_use lo L' a j <-> in_use lo L a j \/ a = r /\ j = k) /\
  (forall x a j, in_use lo L a j -> a + HDR <= x < a + HDR * j -> h_mem s' x = h_mem s x).

Lemma in_use_swap La n k Lb a j : 0 <= n - k ->
  in_use lo (La ++ (if n - k =? 0 then [] else [(n - k, true)]) ++ (k, false) :: Lb) a j <->
  in_use lo (La ++ (n, true) :: Lb) a j \/ a = tend lo La + HDR * (n - k) /\ j = k.
Proof.
  intros Hk. unfold in_use. rewrite !blocks_app, !elem_of_app. destruct (Z.eqb_spec (n - k) 0) as [E|E]; cbn [app blocks].
  - rewrite tend_nil. assert (n = k) as -> by lia. replace (k - k) with 0 by lia. rewrite Z.mul_0_r, Z.add_0_r, !elem_of_cons, elem_of_nil.
    split; [intros [?|[[]|[?|?]]]|intros [[?|[?|?]]|[-> ->]]]; simplify_eq; tauto.
  - rewrite tend_cons, tend_nil. replace (tend lo La + HDR * (n - k) + HDR * k) with (tend lo La + HDR * n) by lia.
    rewrite !elem_of_cons, elem_of_nil.
    split; [intros [?|[[?|[]]|[?|?]]]|intros [[?|[?|?]]|[-> ->]]]; simplify_eq; tauto.
Qed.

Lemma malloc_take avail s L fuel k prev p : heap_ok base lo s L -> prev ∈ base :: nodes lo L -> load32 (h_mem s) prev = p ->
  p ∈ base :: nodes lo L -> 1 <= k <= load32 (h_mem s) (p + 4) ->
  exists r s' L', malloc_loop avail fuel k prev p s = Ret (r + HDR, s') /\ took s L k r s' L' /\ r + HDR * k <= h_brk s'.
Proof.
  intros H Hprev Hpp Hp Hk. apply elem_of_cons in Hp as [->|Hp].
  { rewrite (hk_base _ _ _ _ H) in Hk. lia. }
  apply nodes_block in Hp as [n Hn]. pose proof (hk_sizes _ _ _ _ H _ _ _ Hn) as En. rewrite En in Hk.
  clear En. destruct (blocks_split _ _ _ _ _ Hn) as (La & Lb & -> & ->).
  destruct (take_bounds s La Lb n H) as (Ha & Hn1 & Hb & H1 & H2 & H3 & H4 & H5).
  destruct (take_size s La Lb n H) as [Hsz Hip]. pose proof (hk_node_in base lo _ _ _ H Hprev) as Hiv.
  set (r := tend lo La + HDR * (n - k)).
  assert (Hfresh : forall j, ~ in_use lo (La ++ (n, true) :: Lb) r j).
  { intros j Hj. pose proof (blocks_range _ (hk_pos _ _ _ _ H) _ _ _ _ Hj).
    destruct (blocks_disjoint _ (hk_pos _ _ _ _ H) _ _ _ _ _ _ _ Hj Hn) as [(_ & _ & E)|[|]]; [discriminate E|unfold r, HDR in *; lia..]. }
  assert (Hu : u32 (r + HDR) = r + HDR) by (apply u32_small; unfold r, KERNBASE, HDR in *; lia).
  assert (Hr : lo <= r /\ r + HDR * k <= h_brk s) by (unfold r, HDR in *; lia).
  assert (Hrun : malloc_loop avail fuel k prev (tend lo La) s = Ret (r + HDR,
    if n =? k then Uheap (store32 (h_mem s) prev (load32 (h_mem s) (tend lo La))) prev (h_brk s)
    else Uheap (store32 (store32 (h_mem s) (tend lo La + 4) (n - k)) (r + 4) k) prev (h_brk s))).
  { destruct fuel; cbn [malloc_loop]; unfold bind; rewrite get_size_run, Hsz by done;
      rewrite (proj2 (Z.leb_le _ _)) by lia; (destruct (Z.eqb_spec n k) as [->|Hne];
       [rewrite get_ptr_run by done; rewrite put_ptr_run by done; unfold set_freep, modify, ret; cbn [h_mem h_freep h_brk];
        rewrite <- Hu; do 3 f_equal; unfold r; lia
       |rewrite put_size_run by done; assert (hdr_end (tend lo La) (n - k) = r) as -> by (apply u32_small; unfold r, KERNBASE, HDR in *; lia);
        rewrite put_size_run by (unfold in_proc in *; cbn [h_brk]; rewrite (proj2 (Z.leb_le _ _)), (proj2 (Z.leb_le _ _)) by (unfold r, HDR in *; lia); done);
        unfold set_freep, modify, ret; cbn [h_mem h_freep h_brk]; by rewrite Hu]). }
  exists r. rewrite Hrun. destruct (Z.eqb_spec n k) as [->|Hne].
  - destruct (take_exact s La Lb k H prev Hprev Hpp) as [Hok Hpay]. eexists _, _. split; [done|]. split; [|apply Hr].
    split; [exact Hok|]. split; [lia|]. split; [done|]. split; [|exact Hpay].
    intros a j. pose proof (in_use_swap La k k Lb a j ltac:(lia)) as Hsw. by rewrite (proj2 (Z.eqb_eq (k - k) 0)) in Hsw by lia.
  - destruct (take_tail s La Lb n H k prev ltac:(lia) Hprev) as [Hok Hpay]. eexists _, _. split; [done|]. split; [|apply Hr].
    split; [exact Hok|]. split; [lia|]. split; [done|]. split; [|exact Hpay].
    intros a j. pose proof (in_use_swap La n k Lb a j ltac:(lia)) as Hsw. by rewrite (proj2 (Z.eqb_neq _ _)) in Hsw by lia.
Qed.

(** From [freep] once around the list. *)
Lemma ring_rotate s L : heap_ok base lo s L -> exists W, (forall x, x ∈ W -> x ∈ base :: nodes lo L) /\
  (h_freep s ∉ W) /\ length W = length (nodes lo L) /\
  (forall x, x ∈ base :: nodes lo L -> x = h_freep s \/ x ∈ W) /\
  chain (load32 (h_mem s)) (h_freep s :: W ++ [h_freep s]).
Proof.
  intros H. pose proof (hk_freep _ _ _ _ H) as Hf. apply list_elem_of_split in Hf as (l1 & l2 & E).
  pose proof (heap_ring_NoDup s L H) as Hnd. pose proof (hk_chain _ _ _ _ H) as Hc. rewrite E in Hnd, Hc.
  set (f := h_freep s) in *. exists (l2 ++ l1). rewrite E. split_and!.
  - set_solver.
  - apply NoDup_app in Hnd as (_ & Hd & Hnd). apply NoDup_cons in Hnd as [Hf2 _].
    rewrite elem_of_app. intros [Hx|Hx]; [done|]. apply (Hd f Hx). by left.
  - apply (f_equal length) in E. rewrite length_app in *. cbn in E. lia.
  - set_solver.
  - rewrite <- (assoc_L (++)) in Hc. cbn [app] in Hc. apply chain_app in Hc as [Hc1 Hc2].
    destruct l1 as [|b l1]; cbn [app] in E, Hc1; injection E as Eb _.
    + rewrite app_nil_r. rewrite Eb in Hc2. exact Hc2.
    + subst b. change (f :: (l2 ++ base :: l1) ++ [f]) with ((f :: l2 ++ base :: l1) ++ [f]).
      replace ((f :: l2 ++ base :: l1) ++ [f]) with ((f :: l2) ++ base :: (l1 ++ [f])) by (cbn; by rewrite <- (assoc_L (++))).
      apply chain_app. split; [exact Hc2|exact Hc1].
Qed.

(** Blocks that are too small are passed over. *)
Lemma malloc_skip avail s L k : heap_ok base lo s L -> forall v q p rest fuel,
  chain (load32 (h_mem s)) (q :: v ++ p :: rest) ->
  (forall x, x ∈ v -> x ∈ base :: nodes lo L /\ load32 (h_mem s) (x + 4) < k /\ x <> h_freep s) ->
  exists q', malloc_loop avail (length v + fuel) k q (hd p v) s = malloc_loop avail fuel k q' p s /\
    (q' = q \/ q' ∈ v) /\ load32 (h_mem s) q' = p.
Proof.
  intros H v. induction v as [|x v IH]; intros q p rest fuel Hc Hv.
  - exists q. cbn in Hc |- *. split_and!; [done|by left|apply Hc].
  - destruct (Hv x ltac:(by left)) as (Hx & Hsz & Hne). pose proof (hk_node_in base lo _ _ _ H Hx) as Hip.
    assert (Hc' : chain (load32 (h_mem s)) (x :: v ++ p :: rest)) by (cbn in Hc |- *; apply Hc).
    assert (Hnx : load32 (h_mem s) x = hd p v) by (destruct v; cbn in Hc' |- *; apply Hc').
    destruct (IH x p rest fuel Hc') as (q' & Hrun & Hq & Hl); [intros y Hy; apply Hv; by right|].
    exists q'. split_and!; [|set_solver|done]. cbn [length Nat.add malloc_loop hd].
    unfold bind at 1. rewrite get_size_run by done. rewrite (proj2 (Z.leb_gt _ _)) by lia.
    unfold bind at 1, gets. rewrite (proj2 (Z.eqb_neq _ _)) by done.
    unfold bind. rewrite get_ptr_run by done. rewrite Hnx. exact Hrun.
Qed.

(** The first block of a list that fits, or none does. *)
Lemma first_fit (size : Z -> Z) k (W : list Z) :
  (exists v p rest, W = v ++ p :: rest /\ (forall x, x ∈ v -> size x < k) /\ k <= size p) \/
  (forall x, x ∈ W -> size x < k).
Proof.
  induction W as [|w W IH]; [right; intros x Hx; by apply elem_of_nil in Hx|].
  destruct (Z.leb_spec k (size w)) as [Hw|Hw].
  - left. exists [], w, W. split_and!; [done| |done]. intros x Hx. by apply elem_of_nil in Hx.
  - destruct IH as [(v & p & rest & -> & Hv & Hp)|Hall].
    + left. exists (w :: v), p, rest. split_and!; [done| |done]. intros x [->|Hx]%elem_of_cons; auto.
    + right. intros x [->|Hx]%elem_of_cons; auto.
Qed.

(** One round: a block that fits is handed out, or the round ends at [freep]. *)
Lemma malloc_round avail s L k fuel : heap_ok base lo s L -> 1 <= k ->
  let f := h_freep s in
  (exists r s' L', malloc_loop avail (length (nodes lo L) + fuel) k f (load32 (h_mem s) f) s = Ret (r + HDR, s') /\
     took s L k r s' L' /\ r + HDR * k <= h_brk s') \/
  (forall x, x ∈ base :: nodes lo L -> load32 (h_mem s) (x + 4) < k) /\
  (exists q, malloc_loop avail (length (nodes lo L) + fuel) k f (load32 (h_mem s) f) s = malloc_loop avail fuel k q f s).
Proof.
  intros H Hk. cbn zeta. destruct (ring_rotate s L H) as (W & HW & HfW & Hlen & Hall & Hc).
  set (f := h_freep s) in *. pose proof (hk_freep _ _ _ _ H) as Hf.
  destruct (first_fit (fun x => load32 (h_mem s) (x + 4)) k (W ++ [f])) as [(v & p & rest & E & Hv & Hp)|Hsmall].
  - left. assert (Hvx : forall x, x ∈ v -> x ∈ base :: nodes lo L /\ load32 (h_mem s) (x + 4) < k /\ x <> f).
    { intros x Hx. assert (x ∈ W) as HxW.
      { destruct (exists_last (l := p :: rest)) as (R & y & ER); [done|]. rewrite ER, (assoc_L (++)) in E.
        apply app_inj_tail in E as [-> _]. apply elem_of_app. by left. }
      split_and!; [by apply HW|by apply Hv|]. intros ->. done. }
    assert (Hlv : (length v <= length W)%nat).
    { apply (f_equal length) in E. rewrite !length_app in E. cbn in E. lia. }
    rewrite E in Hc.
    destruct (malloc_skip avail s L k H v f p rest (length W - length v + fuel) Hc Hvx) as (q & Hrun & Hq & Hl).
    assert (Hhd : load32 (h_mem s) f = hd p v) by (destruct v; cbn in Hc |- *; apply Hc).
    rewrite Hhd, <- Hlen. replace (length W + fuel)%nat with (length v + (length W - length v + fuel))%nat by lia.
    rewrite Hrun. eapply malloc_take; [done| |done| |done].
    + destruct Hq as [->|Hq]; [done|by apply Hvx].
    + assert (Hpin : p ∈ W ++ [f]) by (rewrite E; set_solver). apply elem_of_app in Hpin as [?|Hpin]; [by apply HW|].
      apply list_elem_of_singleton in Hpin as ->. done.
  - right. split.
    + intros x Hx. apply Hsmall. destruct (Hall x Hx) as [->|?]; set_solver.
    + destruct (malloc_skip avail s L k H W f f [] fuel Hc) as (q & Hrun & _ & _).
      { intros x Hx. split_and!; [by apply HW|apply Hsmall; set_solver|]. intros ->. done. }
      assert (Hhd : load32 (h_mem s) f = hd f W) by (destruct W; cbn in Hc |- *; apply Hc).
      exists q. rewrite Hhd, <- Hlen. exact Hrun.
Qed.

(** * More memory *)

Context (avail : Z -> bool) (Havail : forall x, avail x = true -> x <= KERNBASE).

Lemma grown_ok s L nu : heap_ok base lo s L -> 1 <= nu -> h_brk s + HDR * nu <= KERNBASE ->
  heap_ok base lo (Uheap (store32 (h_mem s) (h_brk s + 4) nu) (h_freep s) (h_brk s + HDR * nu)) (L ++ [(nu, false)]).
Proof.
  intros H Hnu Hmax. pose proof (hk_end _ _ _ _ H) as He. destruct (hk_lo _ _ _ _ H) as (H1 & H2 & H3).
  pose proof (tend_le lo L (hk_pos _ _ _ _ H)) as Hle.
  assert (EN : nodes lo (L ++ [(nu, false)]) = nodes lo L) by (rewrite nodes_app, nodes_cons; cbn; apply app_nil_r).
  assert (Hlow : forall a, a + HDR <= h_brk s -> load32 (store32 (h_mem s) (h_brk s + 4) nu) a = load32 (h_mem s) a /\
    load32 (store32 (h_mem s) (h_brk s + 4) nu) (a + 4) = load32 (h_mem s) (a + 4)).
  { intros a Ha. unfold HDR in *. by rewrite !load32_store32_ne by lia. }
  split; cbn [h_mem h_freep h_brk].
  - apply Forall_app. split; [apply H|]. by constructor; [cbn|constructor].
  - rewrite tend_app, tend_cons, tend_nil. lia.
  - lia.
  - apply coalesced_app. split; [apply H|]. split; [done|]. intros; discriminate.
  - rewrite EN. eapply chain_ext; [|apply H]. intros a [->|Ha]%elem_of_cons; symmetry; apply Hlow; [lia|].
    apply nodes_range in Ha; [|apply H]. lia.
  - intros a j f Hin. rewrite blocks_app in Hin. apply elem_of_app in Hin as [Hin|Hin].
    + pose proof (blocks_range _ (hk_pos _ _ _ _ H) _ _ _ _ Hin). destruct (Hlow a) as [_ ->]; [unfold HDR in *; lia|].
      by apply (hk_sizes _ _ _ _ H _ _ f).
    + cbn in Hin. apply list_elem_of_singleton in Hin. simplify_eq. rewrite He, load32_store32_eq. apply u32_small.
      unfold KERNBASE, HDR in *. lia.
  - destruct (Hlow base) as [_ ->]; [lia|apply H].
  - rewrite EN. apply H.
Qed.

Lemma morecore_ok s L k : heap_ok base lo s L -> 1 <= k < 2 ^ 27 ->
  let nu := Z.max k 4096 in
  exists q s', morecore avail k s = Ret (q, s') /\
    ((q = 0 /\ s' = s /\ avail (h_brk s + HDR * nu) = false) \/
     (q = h_freep s' /\ q <> 0 /\ exists L', heap_ok base lo s' L' /\
        (forall a j, in_use lo L' a j <-> in_use lo L a j) /\
        (forall x a j, in_use lo L a j -> a + HDR <= x < a + HDR * j -> h_mem s' x = h_mem s x) /\
        (exists p, p ∈ nodes lo L' /\ k <= load32 (h_mem s') (p + 4)) /\
        (length (nodes lo L') <= length (nodes lo L) + 1)%nat)).
Proof.
  intros H Hk. cbn zeta. set (nu := Z.max k 4096). pose proof (hk_lo _ _ _ _ H) as (H1 & H2 & H3).
  pose proof (hk_end _ _ _ _ H) as He. pose proof (tend_le lo L (hk_pos _ _ _ _ H)) as Hle.
  unfold morecore. replace (if k <? 4096 then 4096 else k) with nu by (unfold nu; destruct (Z.ltb_spec k 4096); lia).
  assert (Hs : s32 (nu * HDR) = nu * HDR) by (apply s32_small; unfold nu, HDR; lia). rewrite Hs.
  unfold bind at 1, sbrk. unfold bind at 1, gets. cbn [id].
  rewrite (proj2 (Z.ltb_lt 0 (nu * HDR))) by (unfold nu, HDR; lia). replace (nu * HDR) with (HDR * nu) by lia.
  destruct (avail (h_brk s + HDR * nu)) eqn:Ea; [|exists 0, s; split; [done|by left]].
  unfold bind at 1, modify, ret at 1. rewrite (proj2 (Z.eqb_neq (h_brk s) (-1))) by (unfold HDR in *; lia).
  apply Havail in Ea. pose proof (grown_ok s L nu H ltac:(unfold nu; lia) Ea) as H'.
  unfold bind at 1. rewrite put_size_run by (unfold in_proc; cbn [h_brk]; rewrite !(proj2 (Z.leb_le _ _)) by (unfold nu, HDR in *; lia); done).
  cbn [h_mem h_freep h_brk]. set (s1 := Uheap _ _ _) in *.
  destruct (free_ok base lo s1 L nu [] H') as (s' & Hrun & Hok & Hbrk & Hu & Hpay).
  rewrite He in Hrun. rewrite u32_small by (unfold nu, KERNBASE, HDR in *; lia).
  unfold bind. rewrite Hrun. exists (h_freep s'), s'. split; [done|]. right. split; [done|].
  pose proof (hk_freep _ _ _ _ Hok) as Hfp. apply (ring_range s' _ _ Hok) in Hfp. split; [lia|].
  exists (release L nu []). split; [done|].
  assert (Huse : forall a j, in_use lo (release L nu []) a j <-> in_use lo L a j).
  { intros a j. rewrite Hu. unfold in_use. rewrite blocks_app, elem_of_app. cbn [blocks]. rewrite He, list_elem_of_singleton.
    split; [intros [[?|?] ?]; [done|simplify_eq]|].
    intros Hin. split; [by left|]. pose proof (blocks_range _ (hk_pos _ _ _ _ H) _ _ _ _ Hin). unfold HDR in *. lia. }
  split; [done|]. split; [|split].
  - intros x a j Hin Hx. rewrite (Hpay a j) by (done || by apply Huse). unfold s1. cbn [h_mem].
    pose proof (blocks_range _ (hk_pos _ _ _ _ H) _ _ _ _ Hin). by rewrite store32_ne by (unfold HDR in *; lia).
  - unfold release in Hok |- *. cbn [merge_up fst snd] in *. exists (tend lo (merge_down L).1). split.
    + rewrite nodes_app, nodes_cons. cbn [app]. set_solver.
    + rewrite (hk_sizes _ _ _ _ Hok _ ((merge_down L).2 + nu) true).
      * assert (0 <= (merge_down L).2); [|unfold nu; lia]. unfold merge_down.
        destruct (last L) as [[j [|]]|] eqn:El; cbn; try lia. apply last_Some in El as [L0 ->].
        pose proof (hk_pos _ _ _ _ H) as Hp. apply Forall_app in Hp as [_ Hp]. apply Forall_cons in Hp as [Hp _]. cbn in Hp. lia.
      * rewrite blocks_app. apply elem_of_app. right. by left.
  - unfold release. cbn [merge_up fst snd]. rewrite nodes_app, nodes_cons, length_app. cbn [app length nodes blocks omap].
    assert (length (nodes lo (merge_down L).1) <= length (nodes lo L))%nat; [|cbn; lia].
    unfold merge_down. destruct (last L) as [[j [|]]|] eqn:El; cbn [fst]; try lia. apply last_Some in El as [L0 ->].
    rewrite removelast_last, nodes_app, length_app. lia.
Qed.


Lemma took_more s L s1 L1 k r s' L' : heap_ok base lo s L ->
  (forall a j, in_use lo L1 a j <-> in_use lo L a j) ->
  (forall x a j, in_use lo L a j -> a + HDR <= x < a + HDR * j -> h_mem s1 x = h_mem s x) ->
  took s1 L1 k r s' L' -> took s L k r s' L'.
Proof.
  intros H Hu Hpay (T1 & T2 & T3 & T4 & T5). split_and!; [done|done| | |].
  - intros j Hj. apply (T3 j). by apply Hu.
  - intros a j. by rewrite T4, Hu.
  - intros x a j Hj Hx. rewrite (T5 x a j); [by apply (Hpay x a j)|by apply Hu|done].
Qed.

Lemma malloc_loop_ok s L k fuel : heap_ok base lo s L -> 1 <= k < 2 ^ 27 -> (2 * length (nodes lo L) + 2 <= fuel)%nat ->
  exists p s', malloc_loop avail fuel k (h_freep s) (load32 (h_mem s) (h_freep s)) s = Ret (p, s') /\
    ((p = 0 /\ s' = s /\ (forall x, x ∈ base :: nodes lo L -> load32 (h_mem s) (x + 4) < k) /\
      avail (h_brk s + HDR * Z.max k 4096) = false) \/
     (exists r L', p = r + HDR /\ took s L k r s' L' /\ r + HDR * k <= h_brk s')).
Proof.
  intros H Hk Hf. replace fuel with (length (nodes lo L) + Datatypes.S (fuel - length (nodes lo L) - 1))%nat by lia.
  set (rest := (fuel - length (nodes lo L) - 1)%nat).
  destruct (malloc_round avail s L k (Datatypes.S rest) H ltac:(lia)) as [(r & s' & L' & Hrun & T & Hb)|[Hsmall [q Hrun]]].
  { exists (r + HDR), s'. split; [done|]. right. by exists r, L'. }
  rewrite Hrun. pose proof (hk_freep _ _ _ _ H) as Hfp. cbn [malloc_loop].
  unfold bind at 1. rewrite get_size_run by (by eapply hk_node_in).
  rewrite (proj2 (Z.leb_gt _ _)) by (by apply Hsmall). unfold bind at 1, gets. rewrite Z.eqb_refl. unfold bind at 1.
  destruct (morecore_ok s L k H Hk) as (q' & s1 & Hm & [(-> & -> & Ha)|(Hq & Hq0 & L1 & H1 & Hu & Hpay & (x & Hx & Hxk) & Hlen)]).
  - rewrite Hm. exists 0, s. split; [done|]. by left.
  - rewrite Hm, (proj2 (Z.eqb_neq _ _)) by done. unfold bind.
    rewrite get_ptr_run by (rewrite Hq; eapply hk_node_in, H1; exact H1).
    replace rest with (length (nodes lo L1) + (rest - length (nodes lo L1)))%nat by (unfold rest; lia). rewrite Hq.
    destruct (malloc_round avail s1 L1 k (rest - length (nodes lo L1)) H1 ltac:(lia)) as [(r & s' & L' & Hrun' & T & Hb)|[Hsmall' _]].
    + exists (r + HDR), s'. split; [done|]. right. exists r, L'. split_and!; [done| |done]. by eapply took_more.
    + exfalso. specialize (Hsmall' x ltac:(by right)). lia.
Qed.

(** * The properties *)

(** The heap, before or after the first call of [malloc]. *)
Definition heap (s : uheap) (L : list (Z * bool)) : Prop :=
  heap_ok base lo s L \/
  (L = [] /\ h_freep s = 0 /\ h_brk s = lo /\ 0 < base /\ base + HDR <= lo /\ lo <= KERNBASE).

Lemma heap_start s : h_brk s = lo -> 0 < base -> base + HDR <= lo -> lo <= KERNBASE ->
  heap_ok base lo (Uheap (store32 (store32 (h_mem s) base base) (base + 4) 0) base (h_brk s)) [].
Proof.
  intros Hb H1 H2 H3. split; cbn [h_mem h_freep h_brk]; try done.
  - constructor.
  - by rewrite tend_nil.
  - by rewrite Hb.
  - change (load32 (store32 (store32 (h_mem s) base base) (base + 4) 0) base = base /\ True).
    split; [|done]. rewrite load32_store32_ne by lia. rewrite load32_store32_eq. apply u32_small.
    unfold KERNBASE, HDR in *. lia.
  - intros a n f Hin. by apply elem_of_nil in Hin.
  - by rewrite load32_store32_eq.
  - by left.
Qed.

Lemma malloc_run s L nbytes : heap s L -> 0 <= nbytes < 2 ^ 29 ->
  let k := (nbytes + 7) / 8 + 1 in
  exists s1 p s', heap_ok base lo s1 L /\ h_brk s1 = h_brk s /\
    (forall x a j, in_use lo L a j -> a + HDR <= x < a + HDR * j -> h_mem s1 x = h_mem s x) /\
    malloc base avail nbytes s = Ret (p, s') /\
    ((p = 0 /\ s' = s1 /\ (forall x, x ∈ base :: nodes lo L -> load32 (h_mem s1) (x + 4) < k) /\
      avail (h_brk s + HDR * Z.max k 4096) = false) \/
     (exists r L', p = r + HDR /\ took s1 L k r s' L' /\ r + HDR * k <= h_brk s')).
Proof.
  intros Hh Hn. cbn zeta. set (k := (nbytes + 7) / 8 + 1).
  assert (Hk : 1 <= k < 2 ^ 27).
  { unfold k. pose proof (Z.div_le_mono (nbytes + 7) (2 ^ 29 + 7) 8 ltac:(lia) ltac:(lia)) as Hd.
    change ((2 ^ 29 + 7) / 8) with 67108864 in Hd. pose proof (Z.div_pos (nbytes + 7) 8 ltac:(lia) ltac:(lia)). lia. }
  assert (Hku : u32 (nbytes + HDR - 1) / HDR + 1 = k).
  { unfold k, HDR. rewrite u32_small by lia. do 2 f_equal. lia. }
  unfold malloc. rewrite Hku. unfold bind at 1, gets.
  assert (Hfuel : forall s1, heap_ok base lo s1 L -> (2 * length (nodes lo L) + 2 <= 2 * Z.to_nat (h_brk s1) + 2)%nat).
  { intros s1 H1. pose proof (length_nodes L lo (hk_pos _ _ _ _ H1)). pose proof (hk_end _ _ _ _ H1) as He.
    pose proof (hk_lo _ _ _ _ H1). unfold tend, HDR in *. lia. }
  destruct Hh as [H|(-> & Hf & Hb & H1 & H2 & H3)].
  - pose proof (hk_freep _ _ _ _ H) as Hfp. pose proof (ring_range s L _ H Hfp). pose proof (hk_lo _ _ _ _ H).
    rewrite (proj2 (Z.eqb_neq _ _)) by lia. unfold bind at 1, ret at 1. unfold bind at 1. cbn [id]. unfold bind.
    rewrite get_ptr_run by (by eapply hk_node_in).
    destruct (malloc_loop_ok s L k _ H Hk (Hfuel s H)) as (p & s' & Hrun & Hres).
    exists s, p, s'. split_and!; done.
  - rewrite Hf. cbn [Z.eqb]. assert (Hip : in_proc base s = true).
    { unfold in_proc. rewrite Hb. by rewrite (proj2 (Z.leb_le _ _)), (proj2 (Z.leb_le _ _)) by lia. }
    unfold bind at 1. unfold bind at 1. rewrite put_ptr_run by done. unfold bind at 1, set_freep, modify. cbn [h_mem h_freep h_brk].
    rewrite put_size_run by exact Hip. cbn [h_mem h_freep h_brk]. unfold bind at 1. cbn [id].
    pose proof (heap_start s Hb H1 H2 H3) as H. set (s1 := Uheap _ base (h_brk s)) in *.
    unfold bind. rewrite get_ptr_run by (eapply hk_node_in, H; exact H).
    destruct (malloc_loop_ok s1 [] k _ H Hk (Hfuel s1 H)) as (p & s' & Hrun & Hres).
    exists s1, p, s'. split_and!; try done. intros x a j Hin. by apply elem_of_nil in Hin.
Qed.

End malloc.


Lemma all_free L : coalesced L -> (forall n, (n, false) ∉ L) -> L = [] \/ exists n, L = [(n, true)].
Proof.
  destruct L as [|[n f] [|[m g] L]]; intros Hc Hu; [by left| |].
  - destruct f; [right; by exists n|]. exfalso. apply (Hu n). by left.
  - exfalso. destruct f, g; [cbn in Hc; by destruct Hc|apply (Hu m); set_solver|apply (Hu n); set_solver..].
Qed.

Lemma unused_free lo L : (forall a j, ~ in_use lo L a j) -> forall n, (n, false) ∉ L.
Proof.
  unfold in_use. revert lo. induction L as [|[m g] L IH]; intros lo Hu n Hn; [by apply elem_of_nil in Hn|].
  apply elem_of_cons in Hn as [Hn|Hn].
  - simplify_eq. apply (Hu lo m). by left.
  - apply (IH (lo + HDR * m)) in Hn; [done|]. intros a j Hin. apply (Hu a j). by right.
Qed.

(** C30. [free] of a block that is in use returns, takes it out of the blocks in use and
    merges it with its free neighbours, so that the free list stays sorted and free blocks
    are never adjacent; no other block in use changes. Once the last block is freed the
    whole heap is one free block again. *)
Theorem free_exact base lo s L a n : heap_ok base lo s L -> in_use lo L a n ->
  exists s' L', free (a + HDR) s = Ret (tt, s') /\ heap_ok base lo s' L' /\
    (forall b j, in_use lo L' b j <-> in_use lo L b j /\ b <> a) /\
    (forall x b j, in_use lo L' b j -> b + HDR <= x < b + HDR * j -> h_mem s' x = h_mem s x) /\
    ((forall b j, in_use lo L b j -> b = a) -> L' = [((h_brk s - lo) / HDR, true)]).
Proof.
  intros H Hu. destruct (blocks_split _ _ _ _ _ Hu) as (La & Lb & -> & ->).
  destruct (free_ok base lo s La n Lb H) as (s' & Hrun & Hok & Hbrk & Huse & Hpay).
  exists s', (release La n Lb). split_and!; [done|done|done|intros x b j Hb Hx; by apply (Hpay b j)|].
  intros Hall. destruct (all_free (release La n Lb)) as [E|[k E]].
  - apply Hok.
  - apply (unused_free lo). intros b j Hb. apply Huse in Hb as [Hb Hne]. by apply Hne, (Hall b j).
  - exfalso. unfold release in E. by destruct (merge_down La).1.
  - pose proof (hk_end _ _ _ _ Hok) as He. rewrite E in *. rewrite Hbrk in He. f_equal. f_equal. unfold tend, units, HDR in *. cbn in He.
    replace (h_brk s - lo) with (k * 8) by lia. by rewrite Z.div_mul.
Qed.

(** Sizes within 7 bytes of [2^32] wrap around to the smallest block. *)
Lemma malloc_huge_wraps base avail s nbytes : 2 ^ 32 - 7 <= nbytes < 2 ^ 32 ->
  malloc base avail nbytes s = malloc base avail 0 s.
Proof.
  intros Hn. unfold malloc, HDR. replace (u32 (nbytes + 8 - 1) / 8) with 0; [done|].
  unfold u32. replace (nbytes + 8 - 1) with (nbytes - (2 ^ 32 - 7) + 1 * 2 ^ 32) by lia.
  rewrite Z.mod_add, Z.mod_small, Z.div_small by lia. done.
Qed.

(** * Two calls *)

Definition demo_heap : uheap := Uheap (fun _ => 0) 0 4096.
Definition demo_avail (x : Z) : bool := x <=? 65536.
Lemma demo_avail_ok x : demo_avail x = true -> x <= KERNBASE.
Proof. unfold demo_avail, KERNBASE. intros ?%Z.leb_le. lia. Qed.


(** A heap of a block in use, two headers long, and a free block of one. *)
Definition demo_used : uheap :=
  let m := store32 (store32 (fun _ => 0) 2048 4112) 2052 0 in
  let m := store32 m 4100 2 in
  Uheap (store32 (store32 m 4112 2048) 4116 1) 2048 4120.

Lemma demo_used_ok : heap_ok 2048 4096 demo_used [(2, false); (1, true)].
Proof.
  split.
  - repeat constructor; cbn; lia.
  - reflexivity.
  - unfold HDR, KERNBASE. cbn [demo_used h_brk]. lia.
  - cbn. by split.
  - vm_compute. by split_and!.
  - intros a n f Hin. cbn [blocks] in Hin. rewrite !elem_of_cons, elem_of_nil in Hin.
    destruct Hin as [[= -> -> ->]|[[= -> -> ->]|[]]]; by vm_compute.
  - by vm_compute.
  - by left.
Qed.

Lemma free_exact_witness : exists s', free 4104 demo_used = Ret (tt, s') /\ heap_ok 2048 4096 s' [(3, true)].
Proof.
  assert (Hu : in_use 4096 [(2, false); (1, true)] 4096 2) by (cbn; by left).
  destruct (free_exact 2048 4096 demo_used _ 4096 2 demo_used_ok Hu) as (s' & L' & E & H & _ & _ & Hall).
  exists s'. split; [exact E|]. rewrite Hall in H; [exact H|].
  intros b j Hb. unfold in_use in Hb. cbn [blocks] in Hb. rewrite !elem_of_cons, elem_of_nil in Hb.
  by destruct Hb as [[= -> _]|[[=]|[]]].
Defined.
