(* ===== verification/Mkfs.v ===== *)
(** [mkfs.c]: the program of the host that builds the first disk image.

    The image is the list of the blocks written so far. A [struct dinode] is an [inode]
    of Fs.v whose fields outside the disk copy have fixed values; [xint] and [xshort]
    lay out little-endian words, as the codecs of the kernel do. The output of the
    program is not modelled; [exit(1)] and a failing [assert] are the outcome [Panic]. *)

From S2P Require Import Prelude CString Sleeplock Cache Log Fs.

Definition FSSIZE : Z := 1000.
Definition NINODES : Z := 200.

Definition nbitmap : Z := FSSIZE / (BSIZE * 8) + 1.
Definition ninodeblocks : Z := NINODES / IPB + 1.
Definition nlog : Z := LOGSIZE.
Definition nmeta : Z := 2 + nlog + ninodeblocks + nbitmap.
Definition nblocks : Z := FSSIZE - nmeta.

Definition mksb : superblock :=
  Sb FSSIZE nblocks NINODES nlog 2 (2 + nlog) (2 + nlog + ninodeblocks).

(** The bytes of [sb]. *)
Definition sb_encode (sb : superblock) : list Z :=
  concat (le_bytes 4 <$> [sb_size sb; sb_nblocks sb; sb_ninodes sb; sb_nlog sb; sb_logstart sb;
                          sb_inodestart sb; sb_bmapstart sb]).

Definition zero_block : list Z := replicate (Z.to_nat BSIZE) 0.

(** The file [fsfd] and the counters. *)
Record mk := Mk { mk_img : list (list Z); freeinode : Z; freeblock : Z }.

Local Abbreviation K := (M mk).

(** The block at byte [sec * BSIZE] of the file. *)
Definition sect (sec : Z) : nat := Z.to_nat (u32 (sec * BSIZE) / BSIZE).

(** A write past the end of the file extends it with zeroes. *)
Definition wsect (sec : Z) (buf : list Z) : K unit := modify (fun s =>
  let l := mk_img s in
  let l := l ++ replicate (S (sect sec) - length l) zero_block in
  Mk (<[sect sec := buf]> l) (freeinode s) (freeblock s)).

Definition rsect (sec : Z) : K (list Z) := fun s =>
  match mk_img s !! sect sec with Some buf => Ret (buf, s) | None => Panic "read" end.

Definition winode (inum : Z) (ip : inode) : K unit :=
  let bn := IBLOCK inum mksb in
  let* buf := rsect bn in
  wsect bn (put_dinode buf (dinode_off inum) ip).

(** [bzero(&din, sizeof(din))] *)
Definition zero_inode (inum : Z) : inode :=
  Inode ROOTDEV inum 1 initsleeplock true 0 0 0 0 0 (replicate 13 0).

Definition rinode (inum : Z) : K inode :=
  let bn := IBLOCK inum mksb in
  let* buf := rsect bn in
  ret (get_dinode buf (dinode_off inum) (zero_inode inum)).

Definition mk_ialloc (type : Z) : K Z :=
  let* inum := gets freeinode in
  modify (fun s => Mk (mk_img s) (u32 (inum + 1)) (freeblock s)) ;;;
  winode inum (set_i_size 0 (set_i_nlink 1 (set_i_type type (zero_inode inum)))) ;;;
  ret inum.

(** [freeblock++] *)
Definition next_block : K Z :=
  let* b := gets freeblock in
  modify (fun s => Mk (mk_img s) (freeinode s) (u32 (b + 1))) ;;;
  ret b.

(** Block [fbn] of the file, allocated where there is none. *)
Definition iappend_block (din : inode) (fbn : Z) : K (Z * inode) :=
  if fbn <? NDIRECT then
    let k := Z.to_nat fbn in
    let* din := (if nth k (i_addrs din) 0 =? 0 then
                   let* b := next_block in ret (set_i_addr k b din)
                 else ret din) in
    ret (nth k (i_addrs din) 0, din)
  else
    let* din := (if nth 12 (i_addrs din) 0 =? 0 then
                   let* b := next_block in ret (set_i_addr 12 b din)
                 else ret din) in
    let* indirect := rsect (nth 12 (i_addrs din) 0) in
    let o := (4 * Z.to_nat (fbn - NDIRECT))%nat in
    let* indirect :=
      (if getn 4 indirect o =? 0 then
         let* b := next_block in
         let indirect := putn 4 indirect o b in
         wsect (nth 12 (i_addrs din) 0) indirect ;;;
         ret indirect
       else ret indirect) in
    ret (getn 4 indirect o, din).

(** The loop of [iappend] over the bytes at [p]. *)
Fixpoint iappend_loop (fuel : nat) (din : inode) (off : Z) (p : list Z) : K (inode * Z) :=
  if 0 <? Z.of_nat (length p) then
    match fuel with
    | O => fun _ => NoFuel
    | S fuel =>
        let fbn := off / BSIZE in
        if negb (fbn <? MAXFILE) then panic "assert"
        else
          let* r := iappend_block din fbn in
          let '(x, din) := r in
          let n1 := Z.min (Z.of_nat (length p)) (u32 ((fbn + 1) * BSIZE - off)) in
          let* buf := rsect x in
          wsect x (splice buf (Z.to_nat (off - fbn * BSIZE)) (take (Z.to_nat n1) p)) ;;;
          iappend_loop fuel din (u32 (off + n1)) (drop (Z.to_nat n1) p)
    end
  else ret (din, off).

Definition iappend (inum : Z) (p : list Z) : K unit :=
  let* din := rinode inum in
  let* r := iappend_loop (length p) din (i_size din) p in
  let '(din, off) := r in
  winode inum (set_i_size off din).

(** [for(i = 0; i < used; i++) buf[i/8] = buf[i/8] | (0x1 << (i%8));] *)
Fixpoint mark_bits (n : nat) (i : nat) (buf : list Z) : list Z :=
  match n with
  | O => buf
  | S n => mark_bits n (S i)
             (<[(i / 8)%nat := u8 (Z.lor (nth (i / 8) buf 0) (Z.shiftl 1 (Z.of_nat (i mod 8))))]> buf)
  end.

Definition mk_balloc (used : Z) : K unit :=
  if negb (used <? BSIZE * 8) then panic "assert"
  else wsect (sb_bmapstart mksb) (mark_bits (Z.to_nat used) 0 zero_block).

(** [struct dirent] with the name copied by [strncpy(de.name, name, DIRSIZ)]. *)
Definition mk_dirent (inum : Z) (name : list Z) : list Z :=
  le_bytes 2 inum ++ take (Z.to_nat DIRSIZ) (name ++ replicate (Z.to_nat DIRSIZ) 0).

(** A file of the command line: its name, and what [open] and the calls of [read] bring. *)
Record hfile := Hfile { hf_name : list Z; hf_data : option (list (list Z)) }.

(** [if(argv[i][0] == '_') ++argv[i];] *)
Definition skip_underscore (name : list Z) : list Z :=
  match name with c :: rest => if c =? 95 then rest else name | [] => name end.

Fixpoint append_all (inum : Z) (chunks : list (list Z)) : K unit :=
  match chunks with
  | [] => ret tt
  | buf :: chunks => iappend inum buf ;;; append_all inum chunks
  end.

(** The body of the loop over the files. *)
Definition add_file (rootino : Z) (f : hfile) : K unit :=
  if existsb (Z.eqb 47) (hf_name f) then panic "assert"
  else
    match hf_data f with
    | None => panic "open"
    | Some chunks =>
        let name := skip_underscore (hf_name f) in
        let* inum := mk_ialloc T_FILE in
        iappend rootino (mk_dirent inum name) ;;;
        append_all inum chunks
    end.

Fixpoint add_files (rootino : Z) (files : list hfile) : K unit :=
  match files with
  | [] => ret tt
  | f :: files => add_file rootino f ;;; add_files rootino files
  end.

(** [main]; the arguments after the name of the image are [files]. *)
Definition mkfs (files : list hfile) : K unit :=
  modify (fun s => Mk [] 1 nmeta) ;;;
  for_up (Z.to_nat FSSIZE) 0 (fun i => wsect (Z.of_nat i) zero_block) ;;;
  wsect 1 (splice zero_block 0 (sb_encode mksb)) ;;;
  let* rootino := mk_ialloc T_DIR in
  if negb (rootino =? ROOTINO) then panic "assert"
  else
    iappend rootino (mk_dirent rootino [46]) ;;;
    iappend rootino (mk_dirent rootino [46; 46]) ;;;
    add_files rootino files ;;;
    let* din := rinode rootino in
    let off := u32 ((i_size din / BSIZE + 1) * BSIZE) in
    winode rootino (set_i_size off din) ;;;
    let* used := gets freeblock in
    mk_balloc used.
