(* ===== verification/MkfsSpec.v ===== *)
(** [mkfs.c]: what the image holds while it is built: blocks, the block maps of the
    inodes, and appending to a file. *)

From S2P Require Import Prelude CString Sleeplock Cache Log LogSpec LogRes Fs FsSpec FsFile FsRw FsThm Mkfs.

(** * Blocks *)

(** The image has its full size and shows [V]. *)
Record shows (s : mk) (V : Z -> list Z) : Prop := {
  sh_len : length (mk_img s) = 1000%nat;
  sh_at b : 0 <= b < 1000 -> mk_img s !! Z.to_nat b = Some (V b);
  sh_size b : 0 <= b < 1000 -> length (V b) = 512%nat
}.

Lemma sect_small b : 0 <= b < 2 ^ 23 -> sect b = Z.to_nat b.
Proof. intros Hb. unfold sect, BSIZE. rewrite u32_small by lia. by rewrite Z.div_mul. Qed.

Lemma rsect_run s V b : shows s V -> 0 <= b < 1000 -> rsect b s = Ret (V b, s).
Proof. intros [_ Hat _] Hb. unfold rsect. rewrite sect_small by lia. by rewrite Hat. Qed.

Lemma rsect_end s V b : shows s V -> 1000 <= b < 2 ^ 23 -> rsect b s = Panic "read".
Proof.
  intros [Hl _ _] Hb. unfold rsect. rewrite sect_small by lia. by rewrite lookup_ge_None_2 by lia.
Qed.

(** The state after [wsect(b, d)] inside the image. *)
Definition wrote (b : Z) (d : list Z) (s : mk) : mk :=
  Mk (<[Z.to_nat b := d]> (mk_img s)) (freeinode s) (freeblock s).

Lemma wsect_run s V b d : shows s V -> 0 <= b < 1000 -> wsect b d s = Ret (tt, wrote b d s).
Proof.
  intros [Hl _ _] Hb. unfold wsect, modify, wrote. rewrite sect_small by lia.
  replace (S (Z.to_nat b) - length (mk_img s))%nat with 0%nat by lia. by rewrite app_nil_r.
Qed.

Lemma shows_wrote s V b d : shows s V -> 0 <= b < 1000 -> length d = 512%nat ->
  shows (wrote b d s) (bupd V b d).
Proof.
  intros [Hl Hat Hs] Hb Hd. split; cbn [wrote mk_img].
  - by rewrite length_insert.
  - intros y Hy. unfold bupd. case_decide as E.
    + subst y. apply list_lookup_insert_eq. lia.
    + rewrite list_lookup_insert_ne by lia. by apply Hat.
  - intros y Hy. unfold bupd. case_decide; [done|by apply Hs].
Qed.

(** * Block maps *)

(** The slots in use are different blocks between the first data block and [fb]. *)
Record mmap (V : Z -> list Z) (fb : Z) (a : list Z) : Prop := {
  mm_len : length a = 13%nat;
  mm_range k : (k < 141)%nat -> slot V a k <> 0 -> 59 <= slot V a k < fb;
  mm_inj k k' : (k < 141)%nat -> (k' < 141)%nat -> slot V a k <> 0 -> slot V a k = slot V a k' -> k = k'
}.

(** A file with block map [a] and content [C]; the rest of its last block is empty. *)
Record mfile (V : Z -> list Z) (fb : Z) (a C : list Z) : Prop := {
  mf_map : mmap V fb a;
  mf_full : full V a (length C);
  mf_ind : nth 12 a 0 <> 0 <-> (512 * 12 < length C)%nat;
  mf_content : content V a (length C) = C;
  mf_tail p : (length C <= p < 512 * ((length C + 511) / 512))%nat -> fbyte V a p = 0;
  mf_max : (length C <= 512 * 140)%nat
}.

(** The number of blocks that a file of [L] bytes takes. *)
Definition need (L : nat) : Z :=
  Z.of_nat ((L + 511) / 512) + (if (512 * 12 <? L)%nat then 1 else 0).

Lemma slot_ext V V' a k : (nth 12 a 0 <> 0 -> V' (nth 12 a 0) = V (nth 12 a 0)) -> slot V' a k = slot V a k.
Proof.
  intros H. unfold slot. destruct (k <? 13)%nat; [done|]. destruct (Z.eqb_spec (nth 12 a 0) 0); [done|].
  by rewrite H.
Qed.

Lemma content_ext V V' a L : (forall bn, (512 * bn < L)%nat ->
    slot V' a (sidx bn) = slot V a (sidx bn) /\ V' (slot V a (sidx bn)) = V (slot V a (sidx bn))) ->
  content V' a L = content V a L.
Proof.
  intros H. unfold content. apply list_fmap_ext. intros p q Hp. apply lookup_seq in Hp as [-> Hp].
  unfold fbyte. cbn [Nat.add].
  pose proof (Nat.div_mod p 512 ltac:(lia)). destruct (H (p / 512)%nat) as [-> ->]; [lia|done].
Qed.

(** A file none of whose blocks changes. *)
Lemma mfile_frame V V' fb fb' a C : mfile V fb a C -> fb <= fb' ->
  (forall k, (k < 141)%nat -> slot V a k <> 0 -> V' (slot V a k) = V (slot V a k)) ->
  mfile V' fb' a C /\ forall k, slot V' a k = slot V a k.
Proof.
  intros [[Hl Hr Hi] Hf Hn Hc Ht Hm] Hfb H.
  assert (Hs : forall k, slot V' a k = slot V a k).
  { intros k. apply slot_ext. intros Hnz. specialize (H 12%nat ltac:(lia)). by apply H. }
  assert (HV : forall bn, (512 * bn < length C)%nat -> V' (slot V a (sidx bn)) = V (slot V a (sidx bn))).
  { intros bn Hbn. assert (bn < 140)%nat by lia. apply H; [by apply sidx_lt|]. by apply Hf. }
  split; [|done]. split; [| |done| | |done].
  - split; [done| |].
    + intros k Hk. rewrite Hs. intros Hnz. specialize (Hr k Hk Hnz). lia.
    + intros k k' Hk Hk'. rewrite !Hs. by apply Hi.
  - intros bn Hbn. rewrite Hs. by apply Hf.
  - etransitivity; [|exact Hc]. apply content_ext. intros bn Hbn. rewrite Hs. auto.
  - intros p Hp. rewrite <- (Ht p Hp). unfold fbyte. rewrite Hs, HV; [done|].
    pose proof (Nat.div_mod p 512 ltac:(lia)). pose proof (Nat.div_mod (length C + 511) 512 ltac:(lia)). lia.
Qed.

(** * Getting block [bn] of a file *)

(** The counter after the block is there. *)
Definition fb_after (V : Z -> list Z) (a : list Z) (fb : Z) (bn : nat) : Z :=
  fb + (if slot V a (sidx bn) =? 0 then 1 else 0) + (if (12 <=? bn)%nat && (nth 12 a 0 =? 0) then 1 else 0).

(** From [V], [a], [fb] to [V1], [a1], [fb1], where block [bn] of the file is [x]. *)
Record got (V : Z -> list Z) (a : list Z) (fb : Z) (bn : nat) (V1 : Z -> list Z) (a1 : list Z) (fb1 x : Z) : Prop := {
  g_x : slot V1 a1 (sidx bn) = x;
  g_nz : 59 <= x < fb1;
  g_map : mmap V1 fb1 a1;
  g_slot k : (k < 141)%nat -> k <> sidx bn -> k <> 12%nat -> slot V1 a1 k = slot V a k;
  g_12 : nth 12 a 0 <> 0 -> nth 12 a1 0 = nth 12 a 0;
  g_ind : nth 12 a1 0 <> 0 <-> (12 <= bn)%nat \/ nth 12 a 0 <> 0;
  g_new k : (k < 141)%nat -> slot V1 a1 k <> slot V a k -> slot V a k = 0 /\ fb <= slot V1 a1 k;
  g_same y : y <> nth 12 a1 0 \/ nth 12 a1 0 = 0 -> V1 y = V y;
  g_size y : 0 <= y < 1000 -> length (V1 y) = 512%nat;
  g_fb : fb1 = fb_after V a fb bn
}.

(** The state with the counter at [fb1]. *)
Definition with_fb (fb : Z) (s : mk) : mk := Mk (mk_img s) (freeinode s) fb.

Lemma next_block_run s : 0 <= freeblock s < 2 ^ 31 ->
  next_block s = Ret (freeblock s, with_fb (freeblock s + 1) s).
Proof. intros H. unfold next_block, bind, gets, modify, ret, with_fb. by rewrite u32_small by lia. Qed.

Lemma shows_with_fb s V fb : shows s V -> shows (with_fb fb s) V.
Proof. intros []. by split. Qed.

(** The blocks from [fb] on are empty. *)
Definition fresh (V : Z -> list Z) (fb : Z) : Prop := forall y, fb <= y < 1000 -> V y = zero_block.

Section got.
Context (V : Z -> list Z) (fb : Z) (a C : list Z).
Context (Hf : mfile V fb a C) (Hfb : 59 <= fb <= 1000).
Context (Hsize : forall y, 0 <= y < 1000 -> length (V y) = 512%nat).
Context (Hfresh : fresh V fb).
Let bn := (length C / 512)%nat.
Context (Hbn : (bn < 140)%nat).

(** The block is there, or it is the first after the end. *)
Lemma block_cases : (length C mod 512 <> 0)%nat /\ slot V a (sidx bn) <> 0 \/
  (length C mod 512 = 0)%nat /\ slot V a (sidx bn) = 0.
Proof.
  pose proof (Nat.div_mod (length C) 512 ltac:(lia)) as Hd. fold bn in Hd.
  destruct (decide (length C mod 512 = 0)%nat) as [E|E].
  - right. split; [done|]. destruct (decide (slot V a (sidx bn) = 0)) as [|Hn]; [done|].
    apply (mf_full _ _ _ _ Hf) in Hn; [lia|done].
  - left. split; [done|]. apply (mf_full _ _ _ _ Hf); [done|lia].
Qed.

Lemma got_old : slot V a (sidx bn) <> 0 -> got V a fb bn V a fb (slot V a (sidx bn)).
Proof.
  intros Hnz. pose proof (mf_map _ _ _ _ Hf) as Hm. pose proof (mm_range _ _ _ Hm _ (sidx_lt _ Hbn) Hnz).
  assert (Hi : (12 <= bn)%nat -> nth 12 a 0 <> 0).
  { intros H12 E. apply Hnz. unfold sidx. rewrite (proj2 (Nat.ltb_ge _ _)) by done. apply slot_none; [lia|done]. }
  split; try done.
  - split; [by right|]. intros [|]; auto.
  - unfold fb_after. rewrite (proj2 (Z.eqb_neq _ _)) by done. destruct (Nat.leb_spec 12 bn); [|cbn; lia].
    rewrite (proj2 (Z.eqb_neq _ _)) by auto. cbn. lia.
Qed.

(** A direct block. *)
Lemma got_direct : (bn < 12)%nat -> slot V a (sidx bn) = 0 ->
  got V a fb bn V (<[bn := fb]> a) (fb + 1) fb.
Proof.
  intros H12 Hz. destruct (mf_map _ _ _ _ Hf) as [Hl Hr Hi].
  assert (Hsx : sidx bn = bn) by (unfold sidx; by rewrite (proj2 (Nat.ltb_lt _ _))).
  assert (Hs : forall k, (k < 141)%nat -> slot V (<[bn := fb]> a) k = if decide (k = bn) then fb else slot V a k).
  { intros k Hk. unfold slot. rewrite (nth_insert_ne a bn 12) by lia. case_decide as E.
    - subst k. rewrite (proj2 (Nat.ltb_lt _ _)) by lia. apply nth_insert_eq. lia.
    - destruct (k <? 13)%nat; [|done]. by apply nth_insert_ne. }
  split.
  - rewrite Hs by by apply sidx_lt. by rewrite decide_True.
  - lia.
  - split; [by rewrite length_insert| |].
    + intros k Hk. rewrite Hs by done. case_decide; [lia|]. intros Hnz. specialize (Hr k Hk Hnz). lia.
    + intros k k' Hk Hk'. rewrite !Hs by done. repeat case_decide; subst; try done.
      * intros _ E. destruct (decide (slot V a k' = 0)) as [E0|E0]; [lia|]. specialize (Hr k' Hk' E0). lia.
      * intros E0 E. specialize (Hr k Hk E0). lia.
      * by apply Hi.
  - intros k Hk Hne _. rewrite Hs by done. rewrite decide_False by congruence. done.
  - intros _. by rewrite nth_insert_ne by lia.
  - rewrite nth_insert_ne by lia. split; [by right|]. intros [|]; [lia|done].
  - intros k Hk. rewrite Hs by done. case_decide as E; [|done]. subst k. rewrite Hsx in Hz. split; [done|lia].
  - done.
  - done.
  - unfold fb_after. rewrite Hz, (proj2 (Nat.leb_gt _ _)) by done. cbn. lia.
Qed.

(** An entry of the indirect block. *)
Lemma got_indirect : (12 <= bn)%nat -> slot V a (sidx bn) = 0 -> nth 12 a 0 <> 0 ->
  got V a fb bn (bupd V (nth 12 a 0) (putn 4 (V (nth 12 a 0)) (4 * (bn - 12)) fb)) a (fb + 1) fb.
Proof.
  intros H12 Hz Hnz. destruct (mf_map _ _ _ _ Hf) as [Hl Hr Hi].
  assert (Hsx : sidx bn = S bn) by (unfold sidx; by rewrite (proj2 (Nat.ltb_ge _ _))).
  assert (Hir : 59 <= nth 12 a 0 < fb) by (apply (Hr 12%nat); [lia|done]).
  pose proof (Hsize (nth 12 a 0) ltac:(lia)) as Hil. set (V1 := bupd V (nth 12 a 0) _).
  assert (Hs : forall k, (k < 141)%nat -> slot V1 a k = if decide (k = S bn) then fb else slot V a k).
  { intros k Hk. unfold slot. destruct (Nat.ltb_spec k 13); [by rewrite decide_False by lia|].
    rewrite (proj2 (Z.eqb_neq _ _)) by done. unfold V1. rewrite bupd_eq. case_decide as E.
    - subst k. replace (S bn - 13)%nat with (bn - 12)%nat by lia. rewrite getn_putn_eq by lia. apply Z.mod_small. lia.
    - apply getn_putn_ne; lia. }
  split.
  - rewrite Hs, Hsx by by apply sidx_lt. by rewrite decide_True.
  - lia.
  - split; [done| |].
    + intros k Hk. rewrite Hs by done. case_decide; [lia|]. intros E0. specialize (Hr k Hk E0). lia.
    + intros k k' Hk Hk'. rewrite !Hs by done. repeat case_decide; subst; try done.
      * intros _ E. destruct (decide (slot V a k' = 0)) as [E0|E0]; [lia|]. specialize (Hr k' Hk' E0). lia.
      * intros E0 E. specialize (Hr k Hk E0). lia.
      * by apply Hi.
  - intros k Hk Hne _. rewrite Hs by done. by rewrite decide_False by congruence.
  - done.
  - split; [by right|done].
  - intros k Hk. rewrite Hs by done. case_decide as E; [|done]. subst k. rewrite Hsx in Hz. split; [done|lia].
  - intros y [Hy|Hy]; [|done]. by apply bupd_ne.
  - intros y Hy. unfold V1, bupd. case_decide; [|by apply Hsize]. rewrite length_putn by lia. done.
  - unfold fb_after. rewrite Hz, (proj2 (Z.eqb_neq (nth 12 a 0) 0)) by done. rewrite andb_false_r. cbn. lia.
Qed.

(** The indirect block with its first entry. *)
Lemma got_both : (12 <= bn)%nat -> slot V a (sidx bn) = 0 -> nth 12 a 0 = 0 -> fb < 1000 ->
  got V a fb bn (bupd V fb (putn 4 (V fb) (4 * (bn - 12)) (fb + 1))) (<[12%nat := fb]> a) (fb + 2) (fb + 1).
Proof.
  intros H12 Hz Hnz Hlt. destruct (mf_map _ _ _ _ Hf) as [Hl Hr Hi].
  assert (Hsx : sidx bn = S bn) by (unfold sidx; by rewrite (proj2 (Nat.ltb_ge _ _))).
  pose proof (Hsize fb ltac:(lia)) as Hil. set (V1 := bupd V fb _).
  assert (H12' : nth 12 (<[12%nat := fb]> a) 0 = fb) by (apply nth_insert_eq; lia).
  assert (Hs : forall k, (k < 141)%nat -> slot V1 (<[12%nat := fb]> a) k =
    if decide (k = 12%nat) then fb else if decide (k = S bn) then fb + 1 else slot V a k).
  { intros k Hk. unfold slot. rewrite H12', Hnz. destruct (Nat.ltb_spec k 13).
    - case_decide as E; [by subst|]. rewrite decide_False by lia. by apply nth_insert_ne.
    - rewrite decide_False by lia. rewrite (proj2 (Z.eqb_neq _ _)) by lia. cbn [Z.eqb]. unfold V1. rewrite bupd_eq. case_decide as E.
      + subst k. replace (S bn - 13)%nat with (bn - 12)%nat by lia. rewrite getn_putn_eq by lia. apply Z.mod_small. lia.
      + rewrite getn_putn_ne by lia. rewrite Hfresh by lia. apply getn_zeroes. }
  assert (Hlow : forall k, (k < 141)%nat -> slot V a k < fb).
  { intros k Hk. destruct (decide (slot V a k = 0)) as [|E0]; [lia|]. specialize (Hr k Hk E0). lia. }
  split.
  - rewrite Hs, Hsx by by apply sidx_lt. rewrite decide_False by lia. by rewrite decide_True.
  - lia.
  - split; [by rewrite length_insert| |].
    + intros k Hk. rewrite Hs by done. repeat case_decide; [lia|lia|]. intros E0. specialize (Hr k Hk E0). lia.
    + intros k k' Hk Hk'. rewrite !Hs by done. pose proof (Hlow k Hk). pose proof (Hlow k' Hk').
      repeat case_decide; subst; try done; try (intros; lia). by apply Hi.
  - intros k Hk Hne Hne'. rewrite Hs by done. rewrite !decide_False by congruence. done.
  - done.
  - rewrite H12'. split; [by left|lia].
  - intros k Hk. rewrite Hs by done. repeat case_decide; subst; try done; intros _.
    rewrite Hsx in Hz. split; [done|lia].
  - intros y Hy. rewrite H12' in Hy. apply bupd_ne. lia.
  - intros y Hy. unfold V1, bupd. case_decide; [|by apply Hsize]. rewrite length_putn by lia. done.
  - unfold fb_after. rewrite Hz, Hnz, (proj2 (Nat.leb_le _ _)) by done. cbn. lia.
Qed.

Local Abbreviation fb1 := (fb_after V a fb bn).

Lemma bn_small : (Z.of_nat bn <? NDIRECT) = (bn <? 12)%nat.
Proof. unfold NDIRECT. destruct (Nat.ltb_spec bn 12), (Z.ltb_spec (Z.of_nat bn) 12); lia || done. Qed.

Lemma addrs_self din : i_addrs din = a -> with_addrs a din = din.
Proof. intros <-. by destruct din. Qed.

Lemma addr_set din k b : i_addrs din = a -> set_i_addr k b din = with_addrs (<[k := b]> a) din.
Proof. by intros <-. Qed.

Lemma slot_bn_direct : (bn < 12)%nat -> slot V a (sidx bn) = nth bn a 0.
Proof. intros H. unfold sidx. rewrite (proj2 (Nat.ltb_lt _ _)) by done. by rewrite slot_direct by lia. Qed.

Lemma slot_bn_indirect : (12 <= bn)%nat -> nth 12 a 0 <> 0 ->
  slot V a (sidx bn) = getn 4 (V (nth 12 a 0)) (4 * (bn - 12)).
Proof.
  intros H Hn. unfold sidx. rewrite (proj2 (Nat.ltb_ge _ _)) by done.
  rewrite slot_indirect by (done || lia). f_equal; lia.
Qed.

Lemma slot_bn_none : (12 <= bn)%nat -> nth 12 a 0 = 0 -> slot V a (sidx bn) = 0.
Proof. intros H Hn. unfold sidx. rewrite (proj2 (Nat.ltb_ge _ _)) by done. apply slot_none; [lia|done]. Qed.

Lemma ind_range : nth 12 a 0 <> 0 -> 59 <= nth 12 a 0 < fb.
Proof. intros H. apply (mm_range _ _ _ (mf_map _ _ _ _ Hf) 12%nat); [lia|done]. Qed.

(** What a run that gets the block leaves. *)
Definition block_got (s : mk) (din : inode) : Prop :=
  exists x V1 a1 s1, iappend_block din (Z.of_nat bn) s = Ret (x, with_addrs a1 din, s1) /\
    got V a fb bn V1 a1 fb1 x /\ shows s1 V1 /\ freeblock s1 = fb1 /\ freeinode s1 = freeinode s.

Lemma iappend_direct_run s din : shows s V -> freeblock s = fb -> i_addrs din = a -> fb1 <= 1000 ->
  (bn < 12)%nat -> block_got s din.
Proof.
  intros Hsh Hfs Ha Hle H12. unfold block_got, iappend_block. rewrite bn_small, Ha, (proj2 (Nat.ltb_lt _ _) H12). unfold fb_after in *.
  pose proof (mm_len _ _ _ (mf_map _ _ _ _ Hf)) as Hl.
  rewrite Nat2Z.id, <- (slot_bn_direct H12). destruct (Z.eqb_spec (slot V a (sidx bn)) 0) as [Hz|Hz].
  - pose proof (got_direct H12 Hz) as G. pose proof (g_fb _ _ _ _ _ _ _ _ G) as E. unfold fb_after in E. rewrite Hz in E. cbn [Z.eqb] in E.
    unfold bind. rewrite next_block_run by lia. unfold ret. rewrite (addr_set _ _ _ Ha). cbn [with_addrs i_addrs].
    rewrite nth_insert_eq by lia. eexists _, V, _, _. split; [done|]. rewrite Hfs, <- E.
    split_and!; [done|by apply shows_with_fb|done|done].
  - pose proof (got_old Hz) as G. pose proof (g_fb _ _ _ _ _ _ _ _ G) as E. unfold fb_after in E. rewrite (proj2 (Z.eqb_neq _ _) Hz) in E.
    unfold bind, ret. rewrite Ha, <- (slot_bn_direct H12). eexists _, V, a, s. rewrite (addrs_self _ Ha), <- E. done.
Qed.

Lemma iappend_indirect_run s din : shows s V -> freeblock s = fb -> i_addrs din = a -> fb1 <= 1000 ->
  (12 <= bn)%nat -> nth 12 a 0 <> 0 -> block_got s din.
Proof.
  intros Hsh Hfs Ha Hle H12 Hi. unfold block_got, iappend_block. rewrite bn_small, Ha, (proj2 (Nat.ltb_ge _ _) H12). unfold fb_after in *.
  replace (Z.to_nat (Z.of_nat bn - NDIRECT)) with (bn - 12)%nat by (unfold NDIRECT; lia).
  pose proof (ind_range Hi) as Hir. pose proof (Hsize (nth 12 a 0) ltac:(lia)) as Hil.
  rewrite (proj2 (Z.eqb_neq (nth 12 a 0) 0) Hi), andb_false_r in *.
  unfold bind at 1, ret at 1. rewrite Ha. unfold bind at 1. rewrite (rsect_run _ V) by (done || lia).
  rewrite <- (slot_bn_indirect H12 Hi). destruct (Z.eqb_spec (slot V a (sidx bn)) 0) as [Hz|Hz].
  - pose proof (got_indirect H12 Hz Hi) as G. unfold bind at 1. unfold bind at 1. rewrite next_block_run by lia.
    rewrite Hfs. unfold bind at 1. rewrite (wsect_run _ V) by (lia || by apply shows_with_fb). unfold bind, ret.
    rewrite getn_putn_eq by lia. rewrite Z.mod_small by lia. eexists _, _, a, _. rewrite (addrs_self _ Ha). split; [done|].
    replace (fb + 1 + 0) with (fb + 1) by lia. split_and!; [exact G| |done|done].
    apply shows_wrote; [by apply shows_with_fb|lia|rewrite length_putn; lia].
  - pose proof (got_old Hz) as G. unfold bind, ret. rewrite <- (slot_bn_indirect H12 Hi). eexists _, V, a, s.
    rewrite (addrs_self _ Ha). split; [done|]. replace (fb + 0 + 0) with fb by lia. done.
Qed.

Lemma iappend_both_run s din : shows s V -> freeblock s = fb -> i_addrs din = a -> fb1 <= 1000 ->
  (12 <= bn)%nat -> nth 12 a 0 = 0 -> block_got s din.
Proof.
  intros Hsh Hfs Ha Hle H12 Hi. unfold block_got, iappend_block. rewrite bn_small, Ha, (proj2 (Nat.ltb_ge _ _) H12). unfold fb_after in *.
  replace (Z.to_nat (Z.of_nat bn - NDIRECT)) with (bn - 12)%nat by (unfold NDIRECT; lia).
  pose proof (mm_len _ _ _ (mf_map _ _ _ _ Hf)) as Hl. pose proof (slot_bn_none H12 Hi) as Hz.
  rewrite Hz, Hi, (proj2 (Nat.leb_le _ _) H12) in *. cbn [Z.eqb andb] in *.
  pose proof (got_both H12 Hz Hi ltac:(lia)) as G. pose proof (g_fb _ _ _ _ _ _ _ _ G) as E.
  unfold bind at 1. unfold bind at 1. rewrite next_block_run by lia. unfold ret at 1. rewrite (addr_set _ _ _ Ha), Hfs.
  cbn [with_addrs i_addrs]. rewrite nth_insert_eq by lia.
  pose proof (shows_with_fb s V (fb + 1) Hsh) as Hsh1.
  unfold bind at 1. rewrite (rsect_run _ V) by (done || lia). assert (Hz0 : V fb = zeroes) by (apply Hfresh; lia).
  rewrite Hz0, getn_zeroes. cbn [Z.eqb]. unfold bind at 1. unfold bind at 1.
  rewrite next_block_run by (cbn; lia). cbn [freeblock with_fb].
  pose proof (shows_with_fb _ V (fb + 1 + 1) Hsh1) as Hsh2. unfold bind at 1.
  rewrite (wsect_run _ V) by (done || lia). unfold bind, ret.
  rewrite getn_putn_eq by (change (length zeroes) with 512%nat; lia).
  rewrite Z.mod_small by lia. eexists _, _, _, _. split; [done|]. replace (fb + 1 + 1) with (fb + 2) by lia.
  rewrite <- Hz0. split_and!; [exact G| |done|done].
  apply shows_wrote; [exact (shows_with_fb _ _ _ Hsh)|lia|rewrite length_putn; rewrite Hsize; lia].
Qed.

Lemma iappend_block_run s din : shows s V -> freeblock s = fb -> i_addrs din = a -> fb1 <= 1000 -> block_got s din.
Proof.
  intros. destruct (Nat.lt_ge_cases bn 12) as [H12|H12]; [by apply iappend_direct_run|].
  destruct (decide (nth 12 a 0 = 0)); [by apply iappend_both_run|by apply iappend_indirect_run].
Qed.

(** Without a free block the next read fails. *)
Lemma iappend_block_full s din : shows s V -> freeblock s = fb -> i_addrs din = a -> 1000 < fb1 ->
  bind (iappend_block din (Z.of_nat bn)) (fun r => rsect r.1) s = Panic "read".
Proof.
  intros Hsh Hfs Ha Hgt. unfold bind at 1, iappend_block. rewrite bn_small, Ha. unfold fb_after in Hgt.
  replace (Z.to_nat (Z.of_nat bn - NDIRECT)) with (bn - 12)%nat by (unfold NDIRECT; lia).
  pose proof (mm_len _ _ _ (mf_map _ _ _ _ Hf)) as Hl.
  destruct (Nat.ltb_spec bn 12) as [H12|H12].
  - rewrite (proj2 (Nat.leb_gt _ _) H12) in Hgt. cbn [andb] in Hgt. rewrite Nat2Z.id, <- (slot_bn_direct H12).
    destruct (Z.eqb_spec (slot V a (sidx bn)) 0) as [Hz|Hz]; [|lia].
    unfold bind. rewrite next_block_run by lia. unfold ret. rewrite (addr_set _ _ _ Ha). cbn [with_addrs i_addrs].
    rewrite nth_insert_eq by lia. cbn [fst]. eapply rsect_end; [by apply shows_with_fb|lia].
  - rewrite (proj2 (Nat.leb_le _ _) H12) in Hgt. cbn [andb] in Hgt. destruct (Z.eqb_spec (nth 12 a 0) 0) as [Hi|Hi].
    + rewrite (slot_bn_none H12 Hi) in Hgt. cbn in Hgt. unfold bind at 1. unfold bind at 1. rewrite next_block_run by lia. unfold ret at 1.
      rewrite (addr_set _ _ _ Ha), Hfs. cbn [with_addrs i_addrs]. rewrite nth_insert_eq by lia.
      pose proof (shows_with_fb s V (fb + 1) Hsh) as Hsh1. destruct (decide (fb = 1000)) as [E|E].
      { unfold bind. by rewrite (rsect_end _ V) by (done || lia). }
      unfold bind at 1. rewrite (rsect_run _ V) by (done || lia). assert (Hz0 : V fb = zeroes) by (apply Hfresh; lia).
      rewrite Hz0, getn_zeroes. cbn [Z.eqb]. unfold bind at 1. unfold bind at 1. rewrite next_block_run by (cbn; lia). cbn [freeblock with_fb].
      unfold bind at 1. rewrite (wsect_run _ V) by (lia || by apply shows_with_fb). unfold bind, ret.
      rewrite getn_putn_eq by (change (length zeroes) with 512%nat; lia). rewrite Z.mod_small by lia.
      cbn [fst]. eapply rsect_end; [|lia]. apply shows_wrote; [exact (shows_with_fb _ _ _ Hsh)|lia|by rewrite length_putn by (change (length zeroes) with 512%nat; lia)].
    + pose proof (ind_range Hi) as Hir. pose proof (Hsize (nth 12 a 0) ltac:(lia)) as Hil.
      unfold bind at 1, ret at 1. rewrite Ha. unfold bind at 1. rewrite (rsect_run _ V) by (done || lia).
      rewrite <- (slot_bn_indirect H12 Hi). destruct (Z.eqb_spec (slot V a (sidx bn)) 0) as [Hz|Hz]; [|lia].
      unfold bind at 1. unfold bind at 1. rewrite next_block_run by lia. rewrite Hfs. unfold bind at 1.
      rewrite (wsect_run _ V) by (lia || by apply shows_with_fb). unfold bind, ret.
      rewrite getn_putn_eq by lia. rewrite Z.mod_small by lia. cbn [fst].
      eapply rsect_end; [|lia]. apply shows_wrote; [by apply shows_with_fb|lia|rewrite length_putn; lia].
Qed.
End got.
