(* ===== verification/MkfsFile.v ===== *)
(** [mkfs.c]: [iappend] adds bytes to the end of one file and leaves the other files
    alone, or fails when the image has no free block. *)

From S2P Require Import Prelude CString Sleeplock Cache Log LogSpec LogRes Fs FsSpec FsFile FsRw FsThm Mkfs MkfsSpec.

(** The counter in terms of the sizes. *)
Lemma need_step V fb a C m : mfile V fb a C -> (length C / 512 < 140)%nat ->
  (0 < m)%nat -> (length C mod 512 + m <= 512)%nat ->
  fb_after V a fb (length C / 512) = fb + need (length C + m) - need (length C).
Proof.
  intros Hf Hbn Hm Hom. pose proof (Nat.div_mod (length C) 512 ltac:(lia)) as HL.
  pose proof (Nat.mod_upper_bound (length C) 512 ltac:(lia)) as Ho.
  pose proof (block_cases V fb a C Hf Hbn) as Hcase. pose proof (mf_ind _ _ _ _ Hf) as Hi. unfold fb_after, need.
  set (bn := (length C / 512)%nat) in *. set (o := (length C mod 512)%nat) in *.
  assert (E1 : ((length C + m + 511) / 512 = bn + 1)%nat).
  { symmetry. apply (Nat.div_unique _ _ _ (length C + m + 511 - 512 * (bn + 1))); lia. }
  assert (E2 : (if (12 <=? bn)%nat && (nth 12 a 0 =? 0) then 1 else 0) =
    (if (512 * 12 <? length C + m)%nat then 1 else 0) - (if (512 * 12 <? length C)%nat then 1 else 0)).
  { destruct (Nat.leb_spec 12 bn), (Z.eqb_spec (nth 12 a 0) 0), (Nat.ltb_spec (512 * 12) (length C + m)),
      (Nat.ltb_spec (512 * 12) (length C)); cbn [andb]; try lia; tauto || (exfalso; tauto || lia). }
  rewrite E1, E2. destruct Hcase as [[Hz0 Hz]|[Hz0 Hz]].
  - rewrite (proj2 (Z.eqb_neq _ _)) by done.
    assert ((length C + 511) / 512 = bn + 1)%nat as -> by (symmetry; apply (Nat.div_unique _ _ _ (o - 1)); lia). lia.
  - rewrite Hz. cbn [Z.eqb].
    assert ((length C + 511) / 512 = bn)%nat as -> by (symmetry; apply (Nat.div_unique _ _ _ 511); lia). lia.
Qed.

(** * Writing into the block *)

Section write.
Context (V : Z -> list Z) (fb : Z) (a C : list Z) (Hf : mfile V fb a C).
Let bn := (length C / 512)%nat.
Let o := (length C mod 512)%nat.
Context (Hbn : (bn < 140)%nat).
Context (V1 : Z -> list Z) (a1 : list Z) (fb1 x : Z) (G : got V a fb bn V1 a1 fb1 x) (Hfb1 : fb1 <= 1000).
Context (Hfr : fresh V fb).
Context (c : list Z) (Hc : (0 < length c)%nat) (Hoc : (o + length c <= 512)%nat).
Let V2 := bupd V1 x (splice (V1 x) o c).

Lemma bn_o : length C = (512 * bn + o)%nat /\ (o < 512)%nat.
Proof. split; [apply Nat.div_mod; lia|apply Nat.mod_upper_bound; lia]. Qed.

(** The block is not the indirect block. *)
Lemma x_not_ind : nth 12 a1 0 <> x.
Proof.
  intros E. pose proof (g_map _ _ _ _ _ _ _ _ G) as Hm. pose proof (g_nz _ _ _ _ _ _ _ _ G).
  pose proof (g_x _ _ _ _ _ _ _ _ G) as Hx.
  apply (sidx_ne12 bn). apply (mm_inj _ _ _ Hm); [by apply sidx_lt|lia|rewrite Hx; lia|].
  rewrite Hx, slot_direct by lia. done.
Qed.

Lemma slot_V2 k : slot V2 a1 k = slot V1 a1 k.
Proof. apply slot_ext. intros _. apply bupd_ne, x_not_ind. Qed.

(** The blocks of the file before the last. *)
Lemma slot_before b : (b < bn)%nat -> slot V1 a1 (sidx b) = slot V a (sidx b) /\
  V2 (slot V a (sidx b)) = V (slot V a (sidx b)).
Proof.
  intros Hb. destruct bn_o. pose proof (g_map _ _ _ _ _ _ _ _ G) as Hm.
  assert (Hs : slot V1 a1 (sidx b) = slot V a (sidx b)).
  { apply (g_slot _ _ _ _ _ _ _ _ G); [apply sidx_lt; lia| |apply sidx_ne12]. intros E%sidx_inj. lia. }
  split; [done|]. assert (Hnz : slot V a (sidx b) <> 0) by (apply (mf_full _ _ _ _ Hf); lia).
  unfold V2. rewrite bupd_ne.
  - apply (g_same _ _ _ _ _ _ _ _ G). left. rewrite <- Hs in *. intros E. apply (sidx_ne12 b).
    apply (mm_inj _ _ _ Hm); [apply sidx_lt; lia|lia|done|]. by rewrite (slot_direct _ _ 12) by lia.
  - rewrite <- Hs in *. rewrite <- (g_x _ _ _ _ _ _ _ _ G). intros E.
    apply (mm_inj _ _ _ Hm) in E; [apply sidx_inj in E; lia|apply sidx_lt; lia|by apply sidx_lt|done].
Qed.

Lemma x_size : length (V1 x) = 512%nat.
Proof. pose proof (g_nz _ _ _ _ _ _ _ _ G). apply (g_size _ _ _ _ _ _ _ _ G). lia. Qed.

Lemma content_V2 : content V2 a1 (length C + length c) = C ++ c.
Proof.
  destruct bn_o as [HL Ho]. pose proof x_size as Hx. apply list_eq. intros p.
  destruct (decide (p < length C + length c)%nat) as [Hp|Hp].
  2: { rewrite !lookup_ge_None_2; [done|rewrite length_app; lia|rewrite length_content; lia]. }
  rewrite content_lookup by done. unfold fbyte. rewrite slot_V2.
  pose proof (Nat.div_mod p 512 ltac:(lia)) as Hpd. pose proof (Nat.mod_upper_bound p 512 ltac:(lia)) as Hpm.
  assert (HC : (p < length C)%nat -> C !! p = Some (fbyte V a p)).
  { intros HpC. pose proof (mf_content _ _ _ _ Hf) as E. rewrite <- E at 1. by apply content_lookup. }
  destruct (decide (p / 512 < bn)%nat) as [Hlt|Hge].
  - destruct (slot_before _ Hlt) as [-> ->]. rewrite lookup_app_l by lia. by rewrite HC by lia.
  - assert (Hq : (p / 512 = bn)%nat) by lia. rewrite Hq, (g_x _ _ _ _ _ _ _ _ G). unfold V2. rewrite bupd_eq.
    destruct (decide (p < length C)%nat) as [HpC|HpC].
    + rewrite lookup_app_l, HC by done. f_equal. unfold fbyte. rewrite Hq.
      rewrite !nth_lookup. rewrite splice_lookup_out by lia. f_equal. f_equal.
      assert (Hnz : slot V a (sidx bn) <> 0) by (apply (mf_full _ _ _ _ Hf); lia).
      assert (Hsx : slot V1 a1 (sidx bn) = slot V a (sidx bn)).
      { destruct (decide (slot V1 a1 (sidx bn) = slot V a (sidx bn))) as [|E]; [done|].
        by apply (g_new _ _ _ _ _ _ _ _ G) in E as [E _]; [|apply sidx_lt]. }
      rewrite <- Hsx, (g_x _ _ _ _ _ _ _ _ G). apply (g_same _ _ _ _ _ _ _ _ G). left. intros E. by apply x_not_ind.
    + rewrite lookup_app_r by lia. rewrite nth_lookup, splice_lookup_in by lia.
      replace (p - length C)%nat with (p mod 512 - o)%nat by lia.
      destruct (lookup_lt_is_Some_2 c (p mod 512 - o)) as [v ->]; [lia|done].
Qed.

(** The rest of the block is empty. *)
Lemma x_tail q : (o <= q < 512)%nat -> nth q (V1 x) 0 = 0.
Proof.
  intros Hq. destruct bn_o as [HL Ho]. pose proof (g_nz _ _ _ _ _ _ _ _ G) as Hxr.
  assert (HV : V1 x = V x) by (apply (g_same _ _ _ _ _ _ _ _ G); left; intros E; by apply x_not_ind).
  rewrite HV. destruct (decide (slot V1 a1 (sidx bn) = slot V a (sidx bn))) as [E|E].
  - rewrite (g_x _ _ _ _ _ _ _ _ G) in E. assert (Hnz : slot V a (sidx bn) <> 0) by lia.
    assert (Ho0 : (0 < o)%nat) by (apply (mf_full _ _ _ _ Hf) in Hnz; lia).
    assert (Hd : ((512 * bn + q) / 512 = bn)%nat) by (symmetry; apply (Nat.div_unique _ _ _ q); lia).
    assert (Hm : ((512 * bn + q) mod 512 = q)%nat) by (symmetry; apply (Nat.mod_unique _ _ bn); lia).
    pose proof (mf_tail _ _ _ _ Hf (512 * bn + q)%nat) as Ht. unfold fbyte in Ht. rewrite Hd, Hm, <- E in Ht. apply Ht.
    replace ((length C + 511) / 512)%nat with (bn + 1)%nat by (apply (Nat.div_unique _ _ _ (o - 1)); lia). lia.
  - apply (g_new _ _ _ _ _ _ _ _ G) in E as [_ E]; [|by apply sidx_lt]. rewrite (g_x _ _ _ _ _ _ _ _ G) in E.
    rewrite Hfr by lia. rewrite nth_lookup. unfold zero_block, BSIZE. by rewrite lookup_replicate_2 by lia.
Qed.

Lemma tail_V2 p : (length C + length c <= p < 512 * ((length C + length c + 511) / 512))%nat -> fbyte V2 a1 p = 0.
Proof.
  intros Hp. destruct bn_o as [HL Ho]. pose proof x_size as Hx.
  replace ((length C + length c + 511) / 512)%nat with (bn + 1)%nat in Hp
    by (apply (Nat.div_unique _ _ _ (length C + length c + 511 - 512 * (bn + 1))); lia).
  assert (Hd : (p / 512 = bn)%nat) by (symmetry; apply (Nat.div_unique _ _ _ (p - 512 * bn)); lia).
  assert (Hm : (p mod 512 = p - 512 * bn)%nat) by (symmetry; apply (Nat.mod_unique _ _ bn); lia).
  unfold fbyte. rewrite slot_V2, Hd, Hm, (g_x _ _ _ _ _ _ _ _ G). unfold V2. rewrite bupd_eq, nth_lookup.
  rewrite splice_lookup_out by lia. rewrite <- nth_lookup. apply x_tail. lia.
Qed.

Lemma mfile_write : mfile V2 fb1 a1 (C ++ c).
Proof.
  destruct bn_o as [HL Ho]. destruct (g_map _ _ _ _ _ _ _ _ G) as [Hl Hr Hi]. pose proof (mf_full _ _ _ _ Hf) as Hfull.
  split; rewrite ?length_app.
  - split; [done| |]; intros k; rewrite slot_V2; [apply Hr|]. intros k'. rewrite slot_V2. apply Hi.
  - intros b Hb. rewrite slot_V2. destruct (decide (b = bn)) as [->|Hne].
    + pose proof (g_nz _ _ _ _ _ _ _ _ G). rewrite (g_x _ _ _ _ _ _ _ _ G). lia.
    + rewrite (g_slot _ _ _ _ _ _ _ _ G); [|by apply sidx_lt|intros E%sidx_inj; done|apply sidx_ne12].
      pose proof (Hfull b Hb). lia.
  - rewrite (g_ind _ _ _ _ _ _ _ _ G), (mf_ind _ _ _ _ Hf). lia.
  - exact content_V2.
  - exact tail_V2.
  - lia.
Qed.

(** What the file does not reach. *)
Lemma write_other y : 59 <= y -> y < fb -> (forall k, (k < 141)%nat -> slot V a k <> y) -> V2 y = V y.
Proof.
  intros Hy Hlt Hno.
  assert (Hn : forall k, (k < 141)%nat -> slot V1 a1 k <> y).
  { intros k Hk E. destruct (decide (slot V1 a1 k = slot V a k)) as [E'|E'].
    - apply (Hno k Hk). congruence.
    - apply (g_new _ _ _ _ _ _ _ _ G) in E' as [_ E']; [lia|done]. }
  unfold V2. rewrite bupd_ne.
  - apply (g_same _ _ _ _ _ _ _ _ G). left. intros E. apply (Hn 12%nat); [lia|]. by rewrite slot_direct by lia.
  - rewrite <- (g_x _ _ _ _ _ _ _ _ G). intros E. apply (Hn (sidx bn)); [by apply sidx_lt|done].
Qed.

Lemma write_meta y : y < 59 -> V2 y = V y.
Proof.
  intros Hy. pose proof (g_nz _ _ _ _ _ _ _ _ G). unfold V2. rewrite bupd_ne by lia. apply (g_same _ _ _ _ _ _ _ _ G).
  destruct (decide (nth 12 a1 0 = 0)) as [|Hn]; [by right|left].
  pose proof (mm_range _ _ _ (g_map _ _ _ _ _ _ _ _ G) 12%nat ltac:(lia) Hn) as Hr. change (slot V1 a1 12) with (nth 12 a1 0) in Hr. lia.
Qed.

Lemma write_fresh : fresh V2 fb1.
Proof.
  intros y Hy. pose proof (g_nz _ _ _ _ _ _ _ _ G). pose proof (g_fb _ _ _ _ _ _ _ _ G) as Hb.
  assert (fb <= fb1) by (rewrite Hb; unfold fb_after; repeat case_match; lia).
  unfold V2. rewrite bupd_ne by lia. rewrite (g_same _ _ _ _ _ _ _ _ G); [apply Hfr; lia|].
  destruct (decide (nth 12 a1 0 = 0)) as [|Hn]; [by right|left].
  pose proof (mm_range _ _ _ (g_map _ _ _ _ _ _ _ _ G) 12%nat ltac:(lia) Hn) as Hr. change (slot V1 a1 12) with (nth 12 a1 0) in Hr. lia.
Qed.
End write.

(** * The files of the image *)

(** [ds] lists the block map and the content of every file. *)
Record data (s : mk) (V : Z -> list Z) (ds : list (list Z * list Z)) : Prop := {
  da_shows : shows s V;
  da_fb : 59 <= freeblock s <= 1000;
  da_fresh : fresh V (freeblock s);
  da_file k a C : ds !! k = Some (a, C) -> mfile V (freeblock s) a C;
  da_sep k k' a C a' C' : ds !! k = Some (a, C) -> ds !! k' = Some (a', C') -> k <> k' -> disjoint_files V a a'
}.

Lemma disjoint_sym V a b : disjoint_files V a b -> disjoint_files V b a.
Proof. intros H k k' Hk Hk' Hnz E. apply (H k' k); [done|done|congruence|done]. Qed.

Lemma need_mono L L' : (L <= L')%nat -> need L <= need L'.
Proof.
  intros H. unfold need. pose proof (Nat.Div0.div_le_mono (L + 511) (L' + 511) 512 ltac:(lia)).
  destruct (Nat.ltb_spec (512 * 12) L), (Nat.ltb_spec (512 * 12) L'); lia.
Qed.

Lemma data_write s V ds k a C V1 a1 x s1 c :
  data s V ds -> ds !! k = Some (a, C) -> (length C / 512 < 140)%nat ->
  got V a (freeblock s) (length C / 512) V1 a1 (freeblock s1) x -> shows s1 V1 -> freeblock s1 <= 1000 ->
  (0 < length c)%nat -> (length C mod 512 + length c <= 512)%nat ->
  let d := splice (V1 x) (length C mod 512) c in
  data (wrote x d s1) (bupd V1 x d) (<[k := (a1, C ++ c)]> ds).
Proof.
  intros [Hsh Hfb Hfr Hfi Hse] Hk Hbn G Hs1 Hle Hc Hoc d. pose proof (Hfi k a C Hk) as Hf.
  pose proof (g_nz _ _ _ _ _ _ _ _ G) as Hx. pose proof (lookup_lt_Some _ _ _ Hk) as Hkl.
  assert (Hmono : freeblock s <= freeblock s1).
  { rewrite (g_fb _ _ _ _ _ _ _ _ G). unfold fb_after. repeat case_match; lia. }
  assert (Hfix : forall k' b D, ds !! k' = Some (b, D) -> k' <> k ->
    mfile (bupd V1 x d) (freeblock s1) b D /\ forall j, slot (bupd V1 x d) b j = slot V b j).
  { intros k' b D Hk' Hne. apply (mfile_frame V _ (freeblock s)); [by eapply Hfi|done|]. intros j Hj Hnz.
    pose proof (mm_range _ _ _ (mf_map _ _ _ _ (Hfi k' b D Hk')) j Hj Hnz) as Hr.
    apply (write_other V (freeblock s) a C Hbn V1 a1 _ x G c Hc Hoc); [lia|lia|]. intros i Hi.
    apply (Hse k k' a C b D); auto. }
  assert (Hnew : forall k' b D, ds !! k' = Some (b, D) -> k' <> k -> disjoint_files (bupd V1 x d) a1 b).
  { intros k' b D Hk' Hne i j Hi Hj. destruct (Hfix k' b D Hk' Hne) as [_ Hsl]. rewrite Hsl. intros Hnz.
    unfold d. rewrite (slot_V2 V (freeblock s) a C Hbn V1 a1 _ x G c Hc Hoc). intros E.
    destruct (decide (slot V1 a1 j = slot V a j)) as [E'|E'].
    - apply (Hse k k' a C b D Hk Hk' ltac:(done) i j Hi Hj Hnz). congruence.
    - apply (g_new _ _ _ _ _ _ _ _ G) in E' as [_ E']; [|done].
      pose proof (mm_range _ _ _ (mf_map _ _ _ _ (Hfi k' b D Hk')) i Hi Hnz). lia. }
  split; cbn [wrote freeblock].
  - apply shows_wrote; [done|lia|]. unfold d. rewrite length_splice; rewrite (sh_size _ _ Hs1); lia.
  - lia.
  - exact (write_fresh V (freeblock s) a C Hbn V1 a1 _ x G Hfr c Hc Hoc).
  - intros k' b D Hk'. destruct (decide (k' = k)) as [->|Hne].
    + rewrite list_lookup_insert_eq in Hk' by done. simplify_eq. by apply (mfile_write V (freeblock s) a C Hf).
    + rewrite list_lookup_insert_ne in Hk' by done. by apply (Hfix k').
  - intros k1 k2 b1 D1 b2 D2 H1 H2 Hne.
    destruct (decide (k1 = k)) as [->|H1k]; [|destruct (decide (k2 = k)) as [->|H2k]].
    + rewrite list_lookup_insert_eq in H1 by done. rewrite list_lookup_insert_ne in H2 by done. simplify_eq. by eapply (Hnew k2).
    + rewrite list_lookup_insert_eq in H2 by done. rewrite list_lookup_insert_ne in H1 by done. simplify_eq.
      apply disjoint_sym. by eapply (Hnew k1).
    + rewrite list_lookup_insert_ne in H1, H2 by done. intros i j Hi Hj.
      destruct (Hfix k1 b1 D1 H1 H1k) as [_ ->], (Hfix k2 b2 D2 H2 H2k) as [_ ->]. by apply (Hse k1 k2 b1 D1 b2 D2).
Qed.

(** Bytes [p] fit behind content [C] when the counter is at [fb]. *)
Definition fits (fb : Z) (C p : list Z) : Prop :=
  (length C + length p <= 512 * 140)%nat /\ fb + need (length C + length p) - need (length C) <= 1000.

Lemma iappend_loop_nil fuel din off s : iappend_loop fuel din off [] s = Ret (din, off, s).
Proof. by destruct fuel. Qed.

(** What [p] appended to file [k] with content [C] leaves. *)
Record grown (s : mk) (V : Z -> list Z) (ds : list (list Z * list Z)) (k : nat) (C p : list Z)
    (s' : mk) (V' : Z -> list Z) (a' : list Z) : Prop := {
  gn_data : data s' V' (<[k := (a', C ++ p)]> ds);
  gn_fb : freeblock s' = freeblock s + need (length C + length p) - need (length C);
  gn_fi : freeinode s' = freeinode s;
  gn_meta y : y < 59 -> V' y = V y
}.

Lemma iappend_loop_run fuel : forall p din s V ds k C, data s V ds -> ds !! k = Some (i_addrs din, C) ->
  (length p <= fuel)%nat ->
  match iappend_loop fuel din (Z.of_nat (length C)) p s with
  | Ret (din', off, s') => fits (freeblock s) C p /\ exists V' a', din' = with_addrs a' din /\
      off = Z.of_nat (length C + length p) /\ grown s V ds k C p s' V' a'
  | Panic _ => ~ fits (freeblock s) C p
  | _ => False
  end.
Proof.
  induction fuel as [|fuel IH]; intros p din s V ds k C Hd Hk Hp.
  all: pose proof (da_file _ _ _ Hd k _ _ Hk) as Hf; pose proof (mf_max _ _ _ _ Hf) as Hmax.
  all: destruct (decide (p = [])) as [->|Hne].
  1,3: rewrite iappend_loop_nil; split; [split; cbn [length]; rewrite ?Nat.add_0_r; pose proof (da_fb _ _ _ Hd); lia|];
    exists V, (i_addrs din); cbn [length]; rewrite Nat.add_0_r; split_and!; [by destruct din|done|];
    split; [by rewrite app_nil_r, list_insert_id|cbn [length]; rewrite Nat.add_0_r; lia|done|done].
  { destruct p; [done|cbn [length] in Hp; lia]. }
  assert (Hpl : (0 < length p)%nat) by (destruct p; [done|cbn [length]; lia]).
  cbn [iappend_loop]. rewrite (proj2 (Z.ltb_lt _ _)) by lia.
  set (bn := (length C / 512)%nat). set (o := (length C mod 512)%nat).
  assert (HL : length C = (512 * bn + o)%nat) by (apply Nat.div_mod; lia).
  assert (Ho : (o < 512)%nat) by (apply Nat.mod_upper_bound; lia).
  replace (Z.of_nat (length C) / BSIZE) with (Z.of_nat bn) by (unfold bn, BSIZE; by rewrite Nat2Z.inj_div).
  change MAXFILE with 140. destruct (Z.ltb_spec (Z.of_nat bn) 140) as [Hbn|Hbn]; cbn [negb].
  2: { unfold panic, fits. lia. }
  pose proof (da_fresh _ _ _ Hd) as Hfr. pose proof (da_fb _ _ _ Hd) as Hfb. pose proof (da_shows _ _ _ Hd) as Hsh.
  set (m := Nat.min (length p) (512 - o)).
  assert (Hstep : fb_after V (i_addrs din) (freeblock s) bn = freeblock s + need (length C + m) - need (length C)).
  { apply need_step; [done|lia|lia|fold o; lia]. }
  destruct (decide (fb_after V (i_addrs din) (freeblock s) bn <= 1000)) as [Hle|Hgt].
  - destruct (iappend_block_run V (freeblock s) (i_addrs din) C Hf ltac:(lia) (sh_size _ _ Hsh) Hfr ltac:(lia) s din Hsh eq_refl eq_refl Hle)
      as (x & V1 & a1 & s1 & Hrun & G & Hs1 & Hfb1 & Hfi1). fold bn in Hrun, G, Hfb1.
    pose proof (g_nz _ _ _ _ _ _ _ _ G) as Hx. rewrite <- Hfb1 in G, Hx, Hle, Hstep.
    pose proof (data_write s V ds k _ C V1 a1 x s1 (take m p) Hd Hk ltac:(lia) G Hs1 ltac:(lia)) as Hd2.
    cbn zeta in Hd2. rewrite length_take in Hd2. specialize (Hd2 ltac:(lia)). fold o in Hd2. specialize (Hd2 ltac:(lia)).
    unfold bind at 1. rewrite Hrun. unfold bind at 1. rewrite (rsect_run _ V1) by (done || lia).
    replace (Z.min (Z.of_nat (length p)) (u32 ((Z.of_nat bn + 1) * BSIZE - Z.of_nat (length C)))) with (Z.of_nat m)
      by (unfold BSIZE; rewrite u32_small; lia).
    replace (Z.to_nat (Z.of_nat (length C) - Z.of_nat bn * BSIZE)) with o by (unfold BSIZE; lia). rewrite Nat2Z.id.
    unfold bind at 1. rewrite (wsect_run _ V1) by (done || lia).
    assert (Hlm : length (C ++ take m p) = (length C + m)%nat) by (rewrite length_app, length_take; lia).
    replace (u32 (Z.of_nat (length C) + Z.of_nat m)) with (Z.of_nat (length (C ++ take m p))) by (rewrite Hlm, u32_small; lia).
    pose proof (IH (drop m p) (with_addrs a1 din) _ _ _ k (C ++ take m p) Hd2) as HI.
    rewrite list_lookup_insert_eq in HI by (by eapply lookup_lt_Some). specialize (HI eq_refl).
    rewrite length_drop in HI. specialize (HI ltac:(lia)). cbn [wrote freeblock freeinode] in HI.
    assert (Hfit : fits (freeblock s1) (C ++ take m p) (drop m p) <-> fits (freeblock s) C p).
    { unfold fits. rewrite Hlm, length_drop. replace (length C + m + (length p - m))%nat with (length C + length p)%nat by lia. lia. }
    destruct (iappend_loop _ _ _ _ _) as [[[din' off] s']|e| | |]; [|by rewrite <- Hfit|done..].
    destruct HI as (HF & V' & a' & -> & -> & [D F I M]). rewrite Hlm in F |- *. rewrite length_drop in F.
    replace (length C + m + (length p - m))%nat with (length C + length p)%nat in * by lia. cbn [wrote freeblock freeinode] in F, I.
    split; [by apply Hfit|]. exists V', a'. split_and!; [done|done|]. split; [|lia|congruence|].
    + by rewrite <- app_assoc, take_drop, list_insert_insert_eq in D.
    + intros y Hy. rewrite M by done. apply (write_meta V (freeblock s) (i_addrs din) C ltac:(lia) V1 a1 _ x G (take m p));
        [rewrite length_take; lia|rewrite length_take; fold o; lia|done].
  - assert (Hfull := iappend_block_full V (freeblock s) (i_addrs din) C Hf ltac:(lia) (sh_size _ _ Hsh) Hfr ltac:(lia) s din Hsh eq_refl eq_refl ltac:(fold bn; lia)).
    fold bn in Hfull. assert (Hno : ~ fits (freeblock s) C p).
    { intros [H1 H2]. pose proof (need_mono (length C + m) (length C + length p) ltac:(lia)). lia. }
    unfold bind at 1 in Hfull. unfold bind at 1. destruct (iappend_block din (Z.of_nat bn) s) as [[[x din'] s1]|e| | |]; try done.
    cbn [fst] in Hfull. unfold bind. by rewrite Hfull.
Qed.
