(* ===== verification/MkfsThm.v ===== *)
(** [mkfs.c]: the image that [mkfs] builds holds a file system on which the theorems
    about the kernel apply. *)

From S2P Require Import Prelude CString Sleeplock Cache Bio BioSpec Log LogSpec LogRes.
From S2P Require Import Fs FsSpec FsFile FsRw FsThm FsDir FsDemo Mkfs MkfsSpec MkfsFile.

(** * Inodes *)

(** The block of inode [n], and the inode as it is read from the disk. *)
Definition iblock (n : Z) : Z := n / 8 + 32.
Definition on_disk (V : Z -> list Z) (n : Z) : inode := get_dinode (V (iblock n)) (dinode_off n) (zero_inode n).

(** A file system under construction: every inode with the content of its file. *)
Record built (s : mk) (V : Z -> list Z) (nodes : list (inode * list Z)) : Prop := {
  bu_data : data s V ((fun p => (i_addrs p.1, p.2)) <$> nodes);
  bu_fi : freeinode s = 1 + Z.of_nat (length nodes);
  bu_max : (length nodes <= 199)%nat;
  bu_disk k i C : nodes !! k = Some (i, C) -> on_disk V (Z.of_nat k + 1) = i /\ inode_typed i /\ i_size i = Z.of_nat (length C);
  bu_sb : V 1 = splice zero_block 0 (sb_encode mksb);
  bu_log : V 2 = zero_block
}.

Lemma iblock_range n : 0 <= n < 200 -> 32 <= iblock n < 58 /\ IBLOCK n mksb = iblock n /\ (dinode_off n + 64 <= 512)%nat.
Proof.
  intros Hn. unfold iblock, IBLOCK. change IPB with 8. change (sb_inodestart mksb) with 32.
  assert (0 <= n / 8 < 26) by (split; [apply Z.div_pos; lia|apply Z.div_lt_upper_bound; lia]).
  split; [lia|]. split; [apply u32_small; lia|]. unfold dinode_off. change IPB with 8. unfold DINODE.
  pose proof (Z.mod_pos_bound n 8). lia.
Qed.

(** The view after inode [n] is written. *)
Definition put_inode (V : Z -> list Z) (n : Z) (i : inode) : Z -> list Z :=
  bupd V (iblock n) (put_dinode (V (iblock n)) (dinode_off n) i).

Lemma winode_run s V n i : shows s V -> 0 <= n < 200 -> length (i_addrs i) = 13%nat ->
  exists s', winode n i s = Ret (tt, s') /\ shows s' (put_inode V n i) /\
    freeblock s' = freeblock s /\ freeinode s' = freeinode s.
Proof.
  intros Hs Hn Ha. destruct (iblock_range n Hn) as (Hr & Hb & Ho). unfold winode. rewrite Hb.
  unfold bind. rewrite (rsect_run _ V), (wsect_run _ V) by (done || lia). eexists. split; [done|].
  split_and!; [|done|done]. apply shows_wrote; [done|lia|].
  pose proof (sh_size _ _ Hs (iblock n) ltac:(lia)). rewrite length_put_dinode by (done || lia). done.
Qed.

Lemma rinode_run s V n : shows s V -> 0 <= n < 200 -> rinode n s = Ret (on_disk V n, s).
Proof.
  intros Hs Hn. destruct (iblock_range n Hn) as (Hr & Hb & Ho). unfold rinode, bind. rewrite Hb.
  by rewrite (rsect_run _ V) by (done || lia).
Qed.

(** Inodes that agree on everything outside the disk copy. *)
Definition mem_like (n : Z) (i : inode) : Prop := forall d off, get_dinode d off (zero_inode n) = get_dinode d off i.

Lemma on_disk_put V n i : 0 <= n < 200 -> length (V (iblock n)) = 512%nat -> inode_typed i -> mem_like n i ->
  on_disk (put_inode V n i) n = i.
Proof.
  intros Hn Hl Ht Hm. destruct (iblock_range n Hn) as (_ & _ & Ho). unfold on_disk, put_inode. rewrite bupd_eq, Hm.
  apply get_put_dinode; [done|lia].
Qed.

Lemma on_disk_other V n i n' : 0 <= n < 200 -> 0 <= n' < 200 -> n' <> n -> length (V (iblock n)) = 512%nat ->
  length (i_addrs i) = 13%nat -> on_disk (put_inode V n i) n' = on_disk V n'.
Proof.
  intros Hn Hn' Hne Hl Ha. destruct (iblock_range n Hn) as (_ & _ & Ho), (iblock_range n' Hn') as (_ & _ & Ho').
  unfold on_disk, put_inode, bupd. case_decide as Hb; [|done]. rewrite Hb.
  apply get_dinode_slice. intros o m Ho1 Ho2. apply put_dinode_other; [done|lia|].
  unfold dinode_off, iblock in *. change IPB with 8 in *. unfold DINODE in *.
  pose proof (Z.div_mod n 8). pose proof (Z.div_mod n' 8). pose proof (Z.mod_pos_bound n 8). pose proof (Z.mod_pos_bound n' 8). lia.
Qed.

(** Writes below the data blocks leave the files alone. *)
Lemma data_meta s V ds b d s' : data s V ds -> 0 <= b < 59 -> length d = 512%nat -> shows s' (bupd V b d) ->
  freeblock s' = freeblock s -> data s' (bupd V b d) ds.
Proof.
  intros [Hs Hfb Hfr Hf Hse] Hb Hd Hs' Hfb'.
  assert (Hfix : forall k a C, ds !! k = Some (a, C) ->
    mfile (bupd V b d) (freeblock s) a C /\ forall j, slot (bupd V b d) a j = slot V a j).
  { intros k a C Hk. apply (mfile_frame V _ (freeblock s)); [by eapply Hf|done|]. intros j Hj Hnz.
    pose proof (mm_range _ _ _ (mf_map _ _ _ _ (Hf k a C Hk)) j Hj Hnz). apply bupd_ne. lia. }
  split; rewrite ?Hfb'; try done.
  - intros y Hy. rewrite bupd_ne by lia. by apply Hfr.
  - intros k a C Hk. by apply (Hfix k).
  - intros k k' a C a' C' Hk Hk' Hne i j Hi Hj.
    destruct (Hfix k a C Hk) as [_ ->], (Hfix k' a' C' Hk') as [_ ->]. by apply (Hse k k' a C a' C').
Qed.

Local Abbreviation maps := (fmap (fun p : inode * list Z => (i_addrs p.1, p.2))).

(** The inodes other than [k] are on the disk. *)
Definition others (V : Z -> list Z) (nodes : list (inode * list Z)) (k : nat) : Prop :=
  forall k' i C, k' <> k -> nodes !! k' = Some (i, C) ->
    on_disk V (Z.of_nat k' + 1) = i /\ inode_typed i /\ i_size i = Z.of_nat (length C).

Lemma data_lookup s V nodes k i C : data s V (maps nodes) -> nodes !! k = Some (i, C) ->
  mfile V (freeblock s) (i_addrs i) C.
Proof. intros Hd Hk. apply (da_file _ _ _ Hd k). rewrite list_lookup_fmap, Hk. done. Qed.

Lemma winode_built s V nodes k i C : data s V (maps nodes) -> freeinode s = 1 + Z.of_nat (length nodes) ->
  (length nodes <= 199)%nat -> nodes !! k = Some (i, C) -> others V nodes k ->
  inode_typed i -> mem_like (Z.of_nat k + 1) i -> i_size i = Z.of_nat (length C) ->
  V 1 = splice zero_block 0 (sb_encode mksb) -> V 2 = zero_block ->
  exists s' V', winode (Z.of_nat k + 1) i s = Ret (tt, s') /\ built s' V' nodes /\ freeblock s' = freeblock s.
Proof.
  intros Hd Hfi Hmax Hk Ho Ht Hm Hsz H1 H2. pose proof (lookup_lt_Some _ _ _ Hk) as Hlt.
  pose proof (mm_len _ _ _ (mf_map _ _ _ _ (data_lookup _ _ _ _ _ _ Hd Hk))) as Ha.
  pose proof (da_shows _ _ _ Hd) as Hs. destruct (iblock_range (Z.of_nat k + 1) ltac:(lia)) as (Hr & _ & Hoff).
  pose proof (sh_size _ _ Hs (iblock (Z.of_nat k + 1)) ltac:(lia)) as Hl.
  destruct (winode_run s V (Z.of_nat k + 1) i Hs ltac:(lia) Ha) as (s' & E & Hs' & Hfb & Hfi').
  exists s', (put_inode V (Z.of_nat k + 1) i). split_and!; [done| |done]. split.
  - apply (data_meta s); [done|lia|rewrite length_put_dinode by (done || lia); done|done|done].
  - lia.
  - done.
  - intros k' i' C' Hk'. pose proof (lookup_lt_Some _ _ _ Hk'). destruct (decide (k' = k)) as [->|Hne].
    + rewrite Hk in Hk'. simplify_eq. split_and!; [|done|done]. by apply on_disk_put; [lia| | |].
    + rewrite on_disk_other by (done || lia). by apply Ho.
  - unfold put_inode. rewrite bupd_ne by lia. done.
  - unfold put_inode. rewrite bupd_ne by lia. done.
Qed.

Lemma mem_like_zero n : mem_like n (zero_inode n).
Proof. done. Qed.

Lemma mem_like_disk V n : mem_like n (on_disk V n).
Proof. by intros d off. Qed.

(** [ialloc] adds an inode with an empty file. *)
Definition new_inode (n type : Z) : inode := set_i_size 0 (set_i_nlink 1 (set_i_type type (zero_inode n))).

Lemma mfile_empty V fb : mfile V fb (replicate 13 0) [].
Proof.
  split.
  - split; [done|intros k _; by rewrite empty_slot|]. intros k k' _ _. by rewrite empty_slot.
  - intros b _. rewrite empty_slot. cbn [length]. split; [done|lia].
  - cbn [length]. split; [done|lia].
  - done.
  - cbn [length]. intros p Hp. change ((0 + 511) / 512)%nat with 0%nat in Hp. lia.
  - cbn [length]. lia.
Qed.

Lemma ialloc_run s V nodes type : built s V nodes -> (length nodes <= 198)%nat -> s16_ok type ->
  exists s' V', mk_ialloc type s = Ret (Z.of_nat (length nodes) + 1, s') /\
    built s' V' (nodes ++ [(new_inode (Z.of_nat (length nodes) + 1) type, [])]) /\ freeblock s' = freeblock s.
Proof.
  intros [Hd Hfi Hmax Hdisk H1 H2] Hlt Hty. unfold mk_ialloc, bind, gets, modify. rewrite Hfi.
  replace (1 + Z.of_nat (length nodes)) with (Z.of_nat (length nodes) + 1) by lia.
  set (n := Z.of_nat (length nodes) + 1). fold (new_inode n type).
  rewrite u32_small by lia. set (s0 := Mk (mk_img s) (n + 1) (freeblock s)).
  destruct (winode_built s0 V (nodes ++ [(new_inode n type, [])]) (length nodes) (new_inode n type) [])
    as (s' & V' & E & B & F).
  - destruct Hd as [Hs Hfb Hfr Hf Hse]. destruct Hs. rewrite fmap_app. split; [by split|done|done| |].
    + intros k a C Hk. apply lookup_app_Some in Hk as [Hk|[_ Hk]]; [by apply (Hf k)|].
      apply list_lookup_singleton_Some in Hk as [_ Hk]. injection Hk as <- <-. apply mfile_empty.
    + intros k k' a C a' C' Hk Hk' Hne i j Hi Hj Hnz.
      apply lookup_app_Some in Hk as [Hk|[HK Hk]]; apply lookup_app_Some in Hk' as [Hk'|[HK' Hk']].
      * by apply (Hse k k' a C a' C').
      * apply list_lookup_singleton_Some in Hk' as [_ Hk']. injection Hk' as <- <-. by rewrite empty_slot in Hnz.
      * apply list_lookup_singleton_Some in Hk as [_ Hk]. injection Hk as <- <-. by rewrite empty_slot.
      * apply list_lookup_singleton_Some in Hk as [Hk _], Hk' as [Hk' _]. lia.
  - rewrite length_app. cbn. lia.
  - rewrite length_app. cbn. lia.
  - by apply list_lookup_middle.
  - intros k i C Hne Hk. apply lookup_app_Some in Hk as [Hk|[HK Hk]]; [by apply Hdisk|].
    apply list_lookup_singleton_Some in Hk as [Hk _]. lia.
  - split; cbn; try done; unfold s16_ok, u32_ok; try lia. intros a [-> _]%(elem_of_replicate 13 0). lia.
  - done.
  - done.
  - done.
  - done.
  - fold n in E. rewrite E. by exists s', V'.
Qed.

(** [iappend] of [p] to file [k]. *)
Lemma iappend_run s V nodes k i C p : built s V nodes -> nodes !! k = Some (i, C) ->
  match iappend (Z.of_nat k + 1) p s with
  | Ret (_, s') => fits (freeblock s) C p /\ exists V' a',
      built s' V' (<[k := (set_i_size (Z.of_nat (length (C ++ p))) (with_addrs a' i), C ++ p)]> nodes) /\
      freeblock s' = freeblock s + need (length (C ++ p)) - need (length C)
  | Panic _ => ~ fits (freeblock s) C p
  | _ => False
  end.
Proof.
  intros [Hd Hfi Hmax Hdisk H1 H2] Hk. pose proof (lookup_lt_Some _ _ _ Hk) as Hlt.
  destruct (Hdisk k i C Hk) as (Hi & Ht & Hsz). pose proof (da_shows _ _ _ Hd) as Hs.
  unfold iappend, bind. rewrite (rinode_run _ V), Hi, Hsz by (done || lia).
  pose proof (iappend_loop_run (length p) p i s V (maps nodes) k C Hd ltac:(by rewrite list_lookup_fmap, Hk) ltac:(done)) as HL.
  destruct (iappend_loop _ _ _ _ _) as [[[din' off] s1]|e| | |]; try done.
  destruct HL as (HF & V1 & a' & -> & -> & [D Fb Fi M]). rewrite <- length_app in *.
  set (i' := set_i_size (Z.of_nat (length (C ++ p))) (with_addrs a' i)).
  destruct (winode_built s1 V1 (<[k := (i', C ++ p)]> nodes) k i' (C ++ p)) as (s' & V' & E & B & F).
  - by rewrite list_fmap_insert.
  - rewrite length_insert. lia.
  - by rewrite length_insert.
  - by apply list_lookup_insert_eq.
  - intros k' j D' Hne Hk'. rewrite list_lookup_insert_ne in Hk' by done. destruct (Hdisk k' j D' Hk') as (Hj & Htj & Hsj).
    split_and!; [|done|done]. pose proof (lookup_lt_Some _ _ _ Hk'). rewrite <- Hj. unfold on_disk.
    destruct (iblock_range (Z.of_nat k' + 1) ltac:(lia)) as (Hr & _). by rewrite M by lia.
  - pose proof (mf_map _ _ _ _ (da_file _ _ _ D k a' (C ++ p) ltac:(apply list_lookup_insert_eq; by rewrite length_fmap))) as [Ha Hr _].
    pose proof (da_fb _ _ _ D) as Hb. destruct HF as [HF _]. rewrite <- length_app in HF.
    destruct Ht. split; cbn [i' set_i_size with_addrs i_type i_major i_minor i_nlink i_size i_addrs]; try done; [unfold u32_ok; lia|].
    intros x [j Hj]%list_elem_of_lookup. pose proof (lookup_lt_Some _ _ _ Hj). specialize (Hr j ltac:(lia)).
    rewrite slot_direct in Hr by lia. rewrite (nth_lookup_Some _ _ _ _ Hj) in Hr. unfold u32_ok. lia.
  - intros d o. unfold i'. by rewrite <- Hi.
  - done.
  - rewrite M by lia. done.
  - rewrite M by lia. done.
  - rewrite E. split; [done|]. exists V', a'. split; [done|]. lia.
Qed.

(** * The files of the command line *)

(** The type, the link count and the content of a file. *)
Definition summary (nodes : list (inode * list Z)) : list (Z * Z * list Z) :=
  (fun p => (i_type p.1, i_nlink p.1, p.2)) <$> nodes.

Definition hbytes (f : hfile) : list Z := concat (default [] (hf_data f)).

(** A file that can be added: its name has no slash, it can be opened, and it is not too large. *)
Definition hf_ok (f : hfile) : Prop :=
  (47 ∉ hf_name f) /\ is_Some (hf_data f) /\ (length (hbytes f) <= 512 * 140)%nat.

Lemma summary_lookup nodes k t n C : summary nodes !! k = Some (t, n, C) ->
  exists i, nodes !! k = Some (i, C) /\ i_type i = t /\ i_nlink i = n.
Proof.
  unfold summary. rewrite list_lookup_fmap. destruct (nodes !! k) as [[i D]|]; [|done].
  cbn. intros [= <- <- <-]. by exists i.
Qed.

Lemma need_nil : need 0 = 0.
Proof. reflexivity. Qed.

Lemma fits_nil s V nodes k i C : built s V nodes -> nodes !! k = Some (i, C) -> fits (freeblock s) C [].
Proof.
  intros B Hk. pose proof (mf_max _ _ _ _ (data_lookup _ _ _ _ _ _ (bu_data _ _ _ B) Hk)).
  pose proof (da_fb _ _ _ (bu_data _ _ _ B)). split; cbn [length]; rewrite Nat.add_0_r; lia.
Qed.

(** Appending two pieces one after the other. *)
Lemma fits_app fb C p q : fits fb C (p ++ q) <->
  fits fb C p /\ fits (fb + need (length (C ++ p)) - need (length C)) (C ++ p) q.
Proof.
  unfold fits. rewrite !length_app. pose proof (need_mono (length C + length p) (length C + (length p + length q)) ltac:(lia)).
  rewrite Nat.add_assoc in *. lia.
Qed.

Lemma iappend_summary s V nodes k t n C p : built s V nodes -> summary nodes !! k = Some (t, n, C) ->
  match iappend (Z.of_nat k + 1) p s with
  | Ret (_, s') => fits (freeblock s) C p /\ exists V' nodes', built s' V' nodes' /\
      summary nodes' = <[k := (t, n, C ++ p)]> (summary nodes) /\
      freeblock s' = freeblock s + need (length (C ++ p)) - need (length C)
  | Panic _ => ~ fits (freeblock s) C p
  | _ => False
  end.
Proof.
  intros B (i & Hk & <- & <-)%summary_lookup. pose proof (iappend_run s V nodes k i C p B Hk) as H.
  destruct (iappend _ _ _) as [[? s']|e| | |]; try done. destruct H as (HF & V' & a' & B' & E). split; [done|].
  eexists V', _. split; [exact B'|]. split; [|done]. unfold summary. by rewrite list_fmap_insert.
Qed.

Lemma append_all_run chunks : forall s V nodes k t n C, built s V nodes -> summary nodes !! k = Some (t, n, C) ->
  match append_all (Z.of_nat k + 1) chunks s with
  | Ret (_, s') => fits (freeblock s) C (concat chunks) /\ exists V' nodes', built s' V' nodes' /\
      summary nodes' = <[k := (t, n, C ++ concat chunks)]> (summary nodes) /\
      freeblock s' = freeblock s + need (length (C ++ concat chunks)) - need (length C)
  | Panic _ => ~ fits (freeblock s) C (concat chunks)
  | _ => False
  end.
Proof.
  induction chunks as [|p chunks IH]; intros s V nodes k t n C B Hk; cbn [append_all concat].
  - destruct (summary_lookup _ _ _ _ _ Hk) as (i & Hi & _). split; [by eapply fits_nil|].
    exists V, nodes. rewrite app_nil_r, list_insert_id by done. split_and!; [done|done|lia].
  - unfold bind. pose proof (iappend_summary s V nodes k t n C p B Hk) as H. pose proof (fits_app (freeblock s) C p (concat chunks)) as HA.
    destruct (iappend _ _ _) as [[[] s1]|e| | |]; try tauto. destruct H as (HF & V1 & nodes1 & B1 & S1 & F1).
    pose proof (lookup_lt_Some _ _ _ Hk) as Hlt.
    specialize (IH s1 V1 nodes1 k t n (C ++ p) B1 ltac:(rewrite S1; by apply list_lookup_insert_eq)).
    rewrite F1 in IH. destruct (append_all _ _ _) as [[[] s2]|e| | |]; try tauto.
    destruct IH as (HF2 & V2 & nodes2 & B2 & S2 & F2). split; [tauto|]. exists V2, nodes2. split; [done|].
    rewrite S2, S1, list_insert_insert_eq, <- app_assoc in *. split; [done|]. lia.
Qed.

Lemma length_mk_dirent n name : length (mk_dirent n name) = 16%nat.
Proof.
  unfold mk_dirent. rewrite length_app, length_le_bytes, length_take, length_app, length_replicate.
  change (Z.to_nat DIRSIZ) with 14%nat. lia.
Qed.

(** What [add_file] needs when the directory has [L] bytes, and what it takes. *)
Definition file_need (L : nat) (f : hfile) : Z := need (L + 16) - need L + need (length (hbytes f)).

Lemma add_file_run s V nodes f R t n rest : built s V nodes -> (length nodes <= 198)%nat ->
  summary nodes = (t, n, R) :: rest -> (length R + 16 <= 512 * 140)%nat ->
  match add_file 1 f s with
  | Ret (_, s') => (hf_ok f /\ freeblock s + file_need (length R) f <= 1000) /\
      exists V' nodes', built s' V' nodes' /\ freeblock s' = freeblock s + file_need (length R) f /\
        summary nodes' = (t, n, R ++ mk_dirent (Z.of_nat (length nodes) + 1) (skip_underscore (hf_name f))) ::
                         rest ++ [(T_FILE, 1, hbytes f)]
  | Panic _ => ~ (hf_ok f /\ freeblock s + file_need (length R) f <= 1000)
  | _ => False
  end.
Proof.
  intros B Hlen HS HR. unfold add_file, hf_ok, file_need, hbytes.
  destruct (existsb (Z.eqb 47) (hf_name f)) eqn:Hsl.
  { apply existsb_exists in Hsl as (c & Hc & E%Z.eqb_eq). subst c. intros [[H _] _]. apply H. by apply list_elem_of_In. }
  assert (Hno : 47 ∉ hf_name f).
  { intros Hin. apply list_elem_of_In in Hin. apply not_true_iff_false in Hsl. apply Hsl, existsb_exists.
    exists 47. by rewrite Z.eqb_refl. }
  destruct (hf_data f) as [chunks|]; [|intros [(_ & [? ?] & _) _]; done]. change (default [] (Some chunks)) with chunks. unfold bind at 1.
  destruct (ialloc_run s V nodes T_FILE B Hlen ltac:(unfold s16_ok, T_FILE; lia)) as (s1 & V1 & -> & B1 & F1).
  set (inum := Z.of_nat (length nodes) + 1) in *. set (de := mk_dirent inum (skip_underscore (hf_name f))).
  assert (S1 : summary (nodes ++ [(new_inode inum T_FILE, [])]) = (t, n, R) :: rest ++ [(T_FILE, 1, [])]).
  { unfold summary in *. rewrite fmap_app, HS. done. }
  pose proof (iappend_summary s1 V1 _ 0 t n R de B1 ltac:(by rewrite S1)) as H1. change (Z.of_nat 0 + 1) with 1 in H1.
  assert (Hde : length (R ++ de) = (length R + 16)%nat) by (unfold de; by rewrite length_app, length_mk_dirent).
  pose proof (need_mono 0 (length (concat chunks)) ltac:(lia)) as Hpos. rewrite need_nil in Hpos. unfold bind at 1.
  destruct (iappend 1 de s1) as [[[] s2]|e| | |]; try done.
  2: { intros [_ H]. apply H1. split; unfold de; rewrite length_mk_dirent; lia. }
  destruct H1 as (HF1 & V2 & nodes2 & B2 & S2 & F2). rewrite S1 in S2. cbn [insert list_insert] in S2. rewrite Hde in F2.
  assert (Hrl : length rest = (length nodes - 1)%nat).
  { pose proof (f_equal length HS) as E. unfold summary in E. rewrite length_fmap in E. cbn in E. lia. }
  assert (Hl0 : (0 < length nodes)%nat).
  { pose proof (f_equal length HS) as E. unfold summary in E. rewrite length_fmap in E. cbn in E. lia. }
  pose proof (append_all_run chunks s2 V2 nodes2 (length nodes) T_FILE 1 [] B2) as H3. fold inum in H3. rewrite S2 in H3.
  rewrite app_comm_cons in H3. rewrite (list_lookup_middle ((t, n, R ++ de) :: rest)) in H3 by (cbn [length]; lia).
  specialize (H3 eq_refl). cbn [app length] in H3. rewrite need_nil in H3.
  unfold fits in H3. cbn [length Nat.add] in H3. rewrite need_nil in H3.
  destruct (append_all inum chunks s2) as [[[] s3]|e| | |]; try done.
  - destruct H3 as (HF3 & V3 & nodes3 & B3 & S3 & F3). split; [split_and!; [done|by eexists|lia|lia]|].
    exists V3, nodes3. split; [done|]. split; [lia|]. rewrite S3, app_comm_cons.
    rewrite insert_app_r_alt by (cbn [length]; lia). by replace (length nodes - length ((t, n, R ++ de) :: rest))%nat with 0%nat by (cbn [length]; lia).
  - intros [(_ & _ & H) H']. apply H3. lia.
Qed.

(** The directory entries of the files, from inode [n] on. *)
Fixpoint dirents (n : Z) (files : list hfile) : list Z :=
  match files with
  | [] => []
  | f :: files => mk_dirent n (skip_underscore (hf_name f)) ++ dirents (n + 1) files
  end.

(** The blocks that the files take behind a directory of [L] bytes. *)
Definition files_need (L : nat) (files : list hfile) : Z :=
  need (L + 16 * length files) - need L + foldr (fun f n => need (length (hbytes f)) + n) 0 files.

Lemma need_pos L : 0 <= need L.
Proof. rewrite <- need_nil. apply need_mono. lia. Qed.

Lemma files_need_cons L f files : files_need L (f :: files) = file_need L f + files_need (L + 16) files /\
  0 <= files_need (L + 16) files.
Proof.
  unfold files_need, file_need. cbn [length foldr]. replace (L + 16 * S (length files))%nat with (L + 16 + 16 * length files)%nat by lia.
  pose proof (need_mono (L + 16) (L + 16 + 16 * length files) ltac:(lia)).
  assert (0 <= foldr (fun f n => need (length (hbytes f)) + n) 0 files).
  { induction files as [|g files IH]; cbn [foldr]; [lia|]. pose proof (need_pos (length (hbytes g))).
    assert (0 <= foldr (fun f n => need (length (hbytes f)) + n) 0 files); [|lia].
    apply IH; apply need_mono; lia. }
  lia.
Qed.

Lemma length_dirents files : forall n, length (dirents n files) = (16 * length files)%nat.
Proof.
  induction files as [|f files IH]; intros n; [done|]. cbn [dirents length]. rewrite length_app, length_mk_dirent, IH. lia.
Qed.

Lemma add_files_run files : forall s V nodes R t n rest, built s V nodes -> (length nodes + length files <= 199)%nat ->
  summary nodes = (t, n, R) :: rest -> (length R + 16 * length files <= 512 * 140)%nat ->
  match add_files 1 files s with
  | Ret (_, s') => (Forall hf_ok files /\ freeblock s + files_need (length R) files <= 1000) /\
      exists V' nodes', built s' V' nodes' /\ freeblock s' = freeblock s + files_need (length R) files /\
        summary nodes' = (t, n, R ++ dirents (Z.of_nat (length nodes) + 1) files) ::
                         rest ++ ((fun f => (T_FILE, 1, hbytes f)) <$> files)
  | Panic _ => ~ (Forall hf_ok files /\ freeblock s + files_need (length R) files <= 1000)
  | _ => False
  end.
Proof.
  induction files as [|f files IH]; intros s V nodes R t n rest B Hlen HS HR; cbn [add_files dirents].
  - assert (E : files_need (length R) [] = 0) by (unfold files_need; cbn [length foldr]; rewrite Nat.mul_0_r, Nat.add_0_r; lia).
    pose proof (da_fb _ _ _ (bu_data _ _ _ B)). rewrite E. split; [split; [constructor|lia]|].
    exists V, nodes. rewrite app_nil_r. cbn [fmap list_fmap]. rewrite app_nil_r. split_and!; [done|lia|done].
  - cbn [length] in *. destruct (files_need_cons (length R) f files) as [E Hp]. rewrite E.
    unfold bind. pose proof (add_file_run s V nodes f R t n rest B ltac:(lia) HS ltac:(lia)) as H.
    destruct (add_file 1 f s) as [[[] s1]|e| | |]; try done.
    2: { intros [HF%Forall_cons Hle]. apply H. split; [tauto|lia]. }
    destruct H as ((Hok & Hle) & V1 & nodes1 & B1 & F1 & S1).
    assert (Hl1 : length nodes1 = S (length nodes)).
    { pose proof (f_equal length S1) as L1. pose proof (f_equal length HS) as L0. unfold summary in L1, L0.
      rewrite length_fmap in L0, L1. cbn [length] in L0, L1. rewrite length_app in L1. cbn [length] in L1. lia. }
    set (de := mk_dirent _ _) in *.
    specialize (IH s1 V1 nodes1 (R ++ de) t n (rest ++ [(T_FILE, 1, hbytes f)]) B1 ltac:(lia) S1).
    assert (Hde : length (R ++ de) = (length R + 16)%nat) by (unfold de; by rewrite length_app, length_mk_dirent).
    rewrite Hde in IH. specialize (IH ltac:(lia)). rewrite F1 in IH.
    destruct (add_files 1 files s1) as [[[] s2]|e| | |]; try done.
    + destruct IH as ((Hok2 & Hle2) & V2 & nodes2 & B2 & F2 & S2). split; [split; [by constructor|lia]|].
      exists V2, nodes2. split; [done|]. split; [lia|]. rewrite S2, Hl1, <- !app_assoc.
      replace (Z.of_nat (S (length nodes)) + 1) with (Z.of_nat (length nodes) + 1 + 1) by lia. done.
    + intros [HF%Forall_cons Hle']. apply IH. split; [tauto|lia].
Qed.
