(* ===== verification/MkfsClaims.v ===== *)
(** [mkfs.c]: the properties of the finished image. *)

From S2P Require Import Prelude CString Sleeplock Cache Bio BioSpec Log LogSpec LogRes.
From S2P Require Import Fs FsSpec FsFile FsRw FsThm FsDir FsDemo Mkfs MkfsSpec MkfsFile MkfsThm.

(** * The empty image *)

Lemma zero_image n : forall j fi fb, Z.of_nat (j + n) < 2 ^ 23 ->
  for_up n j (fun i => wsect (Z.of_nat i) zero_block) (Mk (replicate j zero_block) fi fb) =
  Ret (tt, Mk (replicate (j + n) zero_block) fi fb).
Proof.
  induction n as [|n IH]; intros j fi fb Hj; cbn [for_up]; [by rewrite Nat.add_0_r|].
  unfold bind. unfold wsect at 1, modify at 1. rewrite sect_small, Nat2Z.id by lia. cbn [mk_img freeinode freeblock].
  rewrite length_replicate. replace (S j - j)%nat with 1%nat by lia.
  rewrite insert_app_r_alt, length_replicate, Nat.sub_diag by (rewrite length_replicate; lia).
  replace (replicate j zero_block ++ <[0%nat := zero_block]> (replicate 1 zero_block)) with (replicate (S j) zero_block)
    by (change (S j) with (1 + j)%nat; rewrite Nat.add_comm, replicate_add; done).
  rewrite IH by lia. by replace (S j + n)%nat with (j + S n)%nat by lia.
Qed.

(** * The free map *)

Lemma mark_bits_spec n : forall i buf b, length buf = 512%nat -> (i + n <= 512 * 8)%nat -> (b < 512 * 8)%nat ->
  length (mark_bits n i buf) = 512%nat /\
  Z.testbit (nth (b / 8) (mark_bits n i buf) 0) (Z.of_nat (b mod 8)) =
    (i <=? b)%nat && (b <? i + n)%nat || Z.testbit (nth (b / 8) buf 0) (Z.of_nat (b mod 8)).
Proof.
  induction n as [|n IH]; intros i buf b Hl Hi Hb; cbn [mark_bits].
  - split; [done|]. destruct (Nat.leb_spec i b), (Nat.ltb_spec b (i + 0)); cbn; lia || done.
  - pose proof (Nat.div_mod i 8 ltac:(lia)) as Hdi. pose proof (Nat.div_mod b 8 ltac:(lia)) as Hdb.
    pose proof (Nat.mod_upper_bound i 8 ltac:(lia)). pose proof (Nat.mod_upper_bound b 8 ltac:(lia)).
    destruct (IH (S i) (<[(i / 8)%nat := u8 (Z.lor (nth (i / 8) buf 0) (Z.shiftl 1 (Z.of_nat (i mod 8))))]> buf) b)
      as [HL HT]; [by rewrite length_insert|lia|done|]. split; [done|]. rewrite HT.
    assert (Hbit : Z.testbit (nth (b / 8) (<[(i / 8)%nat := u8 (Z.lor (nth (i / 8) buf 0) (Z.shiftl 1 (Z.of_nat (i mod 8))))]> buf) 0)
      (Z.of_nat (b mod 8)) = (i =? b)%nat || Z.testbit (nth (b / 8) buf 0) (Z.of_nat (b mod 8))).
    { destruct (decide (i / 8 = b / 8)%nat) as [E|E].
      - rewrite <- E, nth_insert_eq by lia. rewrite set_bit_testbit by lia. f_equal.
        destruct (Nat.eqb_spec i b); case_bool_decide; lia || done.
      - rewrite nth_insert_ne by done. destruct (Nat.eqb_spec i b); [by subst|done]. }
    rewrite Hbit. destruct (Nat.leb_spec (S i) b), (Nat.leb_spec i b), (Nat.eqb_spec i b), (Nat.ltb_spec b (S i + n)), (Nat.ltb_spec b (i + S n));
      cbn [andb orb]; lia || done.
Qed.

Lemma used_marked V fb b : 59 <= fb <= 1000 -> 0 <= b < 1000 ->
  used mksb (bupd V 58 (mark_bits (Z.to_nat fb) 0 zero_block)) b = (b <? fb).
Proof.
  intros Hfb Hb. unfold used, bitmap_block, bitmap_byte. change BPB with 4096. change (sb_bmapstart mksb) with 58.
  rewrite (Z.div_small b) by lia. rewrite Z.mod_small by lia. cbn [Z.add]. rewrite bupd_eq.
  destruct (mark_bits_spec (Z.to_nat fb) 0 zero_block (Z.to_nat b)) as [_ H]; [done|lia|lia|].
  replace (Z.to_nat (b / 8)) with (Z.to_nat b / 8)%nat by (rewrite Z2Nat.inj_div by lia; done).
  replace (b mod 8) with (Z.of_nat (Z.to_nat b mod 8)) by (rewrite Nat2Z.inj_mod, Z2Nat.id by lia; done).
  rewrite H. replace (nth (Z.to_nat b / 8) zero_block 0) with 0.
  - rewrite Z.bits_0, orb_false_r. cbn [Nat.leb andb]. destruct (Nat.ltb_spec (Z.to_nat b) (0 + Z.to_nat fb)), (Z.ltb_spec b fb); lia || done.
  - rewrite nth_lookup. unfold zero_block. destruct (replicate _ 0 !! _) eqn:E; [|done]. by apply lookup_replicate in E as [-> _].
Qed.

(** * The finished image *)

(** The disk of a machine that boots with the image. *)
Definition disk_of (img : list (list Z)) : Z -> list Z := bio_disk (boot_bio img).

Lemma shows_disk s V b : shows s V -> 0 <= b < 1000 -> disk_of (mk_img s) b = V b.
Proof. intros Hs Hb. apply disk_lookup; [lia|]. by apply (sh_at _ _ Hs). Qed.

Lemma shows_self s V : shows s V -> shows s (disk_of (mk_img s)).
Proof.
  intros Hs. split.
  - apply Hs.
  - intros b Hb. rewrite (shows_disk s V) by done. by apply (sh_at _ _ Hs).
  - intros b Hb. rewrite (shows_disk s V) by done. by apply (sh_size _ _ Hs).
Qed.

Lemma data_self s V ds : data s V ds -> data s (disk_of (mk_img s)) ds.
Proof.
  intros [Hs Hfb Hfr Hf Hse]. pose proof (shows_disk s V) as HD.
  assert (Hfix : forall k a C, ds !! k = Some (a, C) ->
    mfile (disk_of (mk_img s)) (freeblock s) a C /\ forall j, slot (disk_of (mk_img s)) a j = slot V a j).
  { intros k a C Hk. apply (mfile_frame V _ (freeblock s)); [by eapply Hf|done|]. intros j Hj Hnz.
    pose proof (mm_range _ _ _ (mf_map _ _ _ _ (Hf k a C Hk)) j Hj Hnz). apply HD; [done|lia]. }
  split; [by eapply shows_self|done| | |].
  - intros y Hy. rewrite HD by (done || lia). by apply Hfr.
  - intros k a C Hk. by apply (Hfix k).
  - intros k k' a C a' C' Hk Hk' Hne i j Hi Hj.
    destruct (Hfix k a C Hk) as [_ ->], (Hfix k' a' C' Hk') as [_ ->]. by apply (Hse k k' a C a' C').
Qed.

(** A file on the finished image; its inode may count the rest of the last block. *)
Lemma node_ok V fb i C n L : 59 <= fb <= 1000 -> (forall b, 0 <= b < 1000 -> used mksb V b = (b <? fb)) ->
  mfile V fb (i_addrs i) C -> on_disk V n = i -> inode_typed i -> 0 < n < 200 -> i_type i <> T_DEV ->
  i_size i = Z.of_nat L -> (length C <= L <= 512 * ((length C + 511) / 512))%nat ->
  inode_ok 1000 mksb V i /\ i_inum i = n /\ file_bytes V i = C ++ replicate (L - length C) 0.
Proof.
  intros Hfb Hu [[Hl Hr Hi] Hf _ Hc Ht Hm] Hd Hty Hn Hdev Hsz HL.
  assert (Hinum : i_inum i = n) by (by rewrite <- Hd). assert (Hdv : i_dev i = ROOTDEV) by (by rewrite <- Hd).
  pose proof (Nat.div_mod (length C + 511) 512 ltac:(lia)) as Hdm. pose proof (Nat.mod_upper_bound (length C + 511) 512 ltac:(lia)).
  assert (Hq : (length C + 511 < 512 * 141)%nat) by lia.
  assert ((length C + 511) / 512 <= 140)%nat by (apply Nat.lt_succ_r, Nat.Div0.div_lt_upper_bound; lia).
  split; [|split; [done|]].
  - split; [|by unfold synced, inode_block; rewrite Hinum; change IPB with 8; change (sb_inodestart mksb) with 32; rewrite <- Hd at 2;
      unfold on_disk; fold (iblock n); rewrite <- Hd|done|rewrite Hinum; change (sb_ninodes mksb) with 200; lia].
    split; [done|done| |rewrite Hsz; change (MAXFILE * BSIZE) with 71680; lia|].
    + split; [done| |done]. intros k Hk Hnz. specialize (Hr k Hk Hnz). change (dstart mksb) with 59. split; [lia|].
      rewrite Hu by lia. apply Z.ltb_lt. lia.
    + rewrite Hsz, Nat2Z.id. intros bn Hbn. pose proof (Hf bn Hbn). lia.
  - unfold file_bytes. rewrite Hsz, Nat2Z.id. apply list_eq. intros p. destruct (decide (p < L)%nat) as [Hp|Hp].
    2: { rewrite !lookup_ge_None_2; [done|rewrite length_app, length_replicate; lia|rewrite length_content; lia]. }
    rewrite content_lookup by done. destruct (decide (p < length C)%nat) as [HpC|HpC].
    + rewrite lookup_app_l by done. rewrite <- Hc at 1. by rewrite content_lookup.
    + rewrite lookup_app_r, lookup_replicate_2 by lia. f_equal. apply Ht. lia.
Qed.

(** The entries of the root directory. *)
Definition root_bytes (files : list hfile) : list Z :=
  mk_dirent 1 [46] ++ mk_dirent 1 [46; 46] ++ dirents 2 files.

Lemma length_root_bytes files : length (root_bytes files) = (16 * (length files + 2))%nat.
Proof. unfold root_bytes. rewrite !length_app, !length_mk_dirent, length_dirents. lia. Qed.

(** The files can be added and there are blocks for all of them. *)
Definition mkfs_fits (files : list hfile) : Prop :=
  Forall hf_ok files /\
  nmeta + need (16 * (length files + 2)) + foldr (fun f n => need (length (hbytes f)) + n) 0 files <= FSSIZE.

(** Block maps and inodes on the finished image: [nodes] starts with the root directory,
    whose size on the disk is rounded up behind its content. *)
Record finished (img : list (list Z)) (fb : Z) (nodes : list (inode * list Z)) : Prop := {
  fi_len : length img = 1000%nat;
  fi_sizes d : d ∈ img -> length d = Z.to_nat BSIZE;
  fi_fb : 59 <= fb <= 1000;
  fi_sb : sb_decode (disk_of img 1) = mksb;
  fi_log : disk_of img 2 = zero_block;
  fi_used b : 0 <= b < 1000 -> used mksb (disk_of img) b = (b <? fb);
  fi_file k i C : nodes !! k = Some (i, C) -> mfile (disk_of img) fb (i_addrs i) C;
  fi_sep k k' i C i' C' : nodes !! k = Some (i, C) -> nodes !! k' = Some (i', C') -> k <> k' ->
    disjoint_files (disk_of img) (i_addrs i) (i_addrs i');
  fi_disk k i C : nodes !! k = Some (i, C) -> on_disk (disk_of img) (Z.of_nat k + 1) = i /\ inode_typed i /\
    i_size i = if decide (k = 0%nat) then Z.of_nat (512 * (length C / 512 + 1)) else Z.of_nat (length C)
}.

(** The last steps of [main]. *)
Definition mkfs_end : M mk unit :=
  let* din := rinode 1 in
  let off := u32 ((i_size din / BSIZE + 1) * BSIZE) in
  winode 1 (set_i_size off din) ;;;
  let* used := gets freeblock in
  mk_balloc used.

(** The root inode with its final size. *)
Definition round_up (root : inode) (R : list Z) : inode := set_i_size (Z.of_nat (512 * (length R / 512 + 1))) root.

(** The view after the last steps. *)
Definition end_view (V : Z -> list Z) (root : inode) (R : list Z) (fb : Z) : Z -> list Z :=
  bupd (put_inode V 1 (round_up root R)) 58 (mark_bits (Z.to_nat fb) 0 zero_block).

Lemma mkfs_end_run s V root R rest : built s V ((root, R) :: rest) -> (length R <= 512 * 139)%nat ->
  exists s', mkfs_end s = Ret (tt, s') /\ freeblock s' = freeblock s /\ shows s' (end_view V root R (freeblock s)) /\
    data s' (end_view V root R (freeblock s)) (fmap (fun p => (i_addrs p.1, p.2)) ((round_up root R, R) :: rest)).
Proof.
  intros [Hd Hfi Hmax Hdisk H1 H2] HR. pose proof (da_fb _ _ _ Hd) as Hfb.
  destruct (Hdisk 0%nat root R eq_refl) as (Hon & Hty & Hsz). change (Z.of_nat 0 + 1) with 1 in Hon.
  pose proof (da_shows _ _ _ Hd) as Hs. unfold mkfs_end, bind. rewrite (rinode_run _ V), Hon, Hsz by (done || lia).
  assert (Hq : (length R / 512 <= 139)%nat) by (apply Nat.lt_succ_r, Nat.Div0.div_lt_upper_bound; lia).
  replace (u32 ((Z.of_nat (length R) / BSIZE + 1) * BSIZE)) with (Z.of_nat (512 * (length R / 512 + 1)))
    by (unfold BSIZE; change 512 with (Z.of_nat 512); rewrite <- Nat2Z.inj_div, u32_small; lia).
  fold (round_up root R). pose proof (mm_len _ _ _ (mf_map _ _ _ _ (data_lookup _ _ _ 0%nat root R Hd eq_refl))) as Ha.
  destruct (winode_run s V 1 (round_up root R) Hs ltac:(lia) Ha) as (s1 & -> & Hs1 & Fb1 & Fi1). unfold gets. rewrite Fb1.
  unfold mk_balloc. change (BSIZE * 8) with 4096. rewrite (proj2 (Z.ltb_lt _ _)) by lia. cbn [negb]. change (sb_bmapstart mksb) with 58.
  rewrite (wsect_run _ (put_inode V 1 (round_up root R))) by (done || lia).
  assert (Hdl : length (mark_bits (Z.to_nat (freeblock s)) 0 zero_block) = 512%nat) by (by apply (mark_bits_spec _ 0 zero_block 0); [done|lia|lia]).
  pose proof (shows_wrote s1 _ 58 _ Hs1 ltac:(lia) Hdl) as Hs2.
  assert (Hb1 : iblock 1 = 32) by reflexivity. pose proof (sh_size _ _ Hs (iblock 1) ltac:(lia)) as Hib.
  eexists. split; [done|]. split; [done|]. split; [done|]. unfold end_view. apply (data_meta s1); [|lia|done|done|done].
  apply (data_meta s); [done|lia|rewrite length_put_dinode; [done|done|rewrite Hib; change (dinode_off 1) with 64%nat; lia]|done|done].
Qed.

Lemma round_up_typed root R : inode_typed root -> (length R <= 512 * 139)%nat -> inode_typed (round_up root R).
Proof.
  intros [] HR. assert (Hq : (length R / 512 <= 139)%nat) by (apply Nat.lt_succ_r, Nat.Div0.div_lt_upper_bound; lia).
  split; try done. cbn [round_up set_i_size i_size]. unfold u32_ok. lia.
Qed.

Lemma end_view_disk s V root R rest fb k i C : built s V ((root, R) :: rest) -> (length R <= 512 * 139)%nat ->
  ((round_up root R, R) :: rest) !! k = Some (i, C) ->
  on_disk (end_view V root R fb) (Z.of_nat k + 1) = i /\ inode_typed i /\
  i_size i = if decide (k = 0%nat) then Z.of_nat (512 * (length C / 512 + 1)) else Z.of_nat (length C).
Proof.
  intros [Hd _ Hmax Hdisk _ _] HR Hk. pose proof (lookup_lt_Some _ _ _ Hk) as Hlt. cbn [length] in Hlt, Hmax.
  destruct (Hdisk 0%nat root R eq_refl) as (Hon & Hty & _). change (Z.of_nat 0 + 1) with 1 in Hon.
  assert (Hb1 : iblock 1 = 32) by reflexivity. pose proof (sh_size _ _ (da_shows _ _ _ Hd) (iblock 1) ltac:(lia)) as Hib.
  pose proof (mm_len _ _ _ (mf_map _ _ _ _ (data_lookup _ _ _ 0%nat root R Hd eq_refl))) as Ha.
  assert (Hdk : forall n, 0 <= n < 200 -> on_disk (end_view V root R fb) n = on_disk (put_inode V 1 (round_up root R)) n).
  { intros n Hn. destruct (iblock_range n Hn) as (Hr & _). unfold on_disk, end_view. by rewrite bupd_ne by lia. }
  rewrite Hdk by lia. case_decide as Ek.
  - subst k. cbn in Hk. injection Hk as <- <-. change (Z.of_nat 0 + 1) with 1. pose proof (round_up_typed root R Hty HR).
    split_and!; [|done|done]. apply on_disk_put; [lia|done|done|]. intros x o. unfold round_up. by rewrite <- Hon.
  - destruct k as [|k]; [done|]. destruct (Hdisk (Datatypes.S k) i C Hk) as (Hi & Ht & Hz). split_and!; [|done|done].
    by rewrite on_disk_other by (done || lia).
Qed.

Lemma finished_ok s s' V root R rest : built s V ((root, R) :: rest) -> (length R <= 512 * 139)%nat ->
  freeblock s' = freeblock s -> shows s' (end_view V root R (freeblock s)) ->
  data s' (end_view V root R (freeblock s)) (fmap (fun p => (i_addrs p.1, p.2)) ((round_up root R, R) :: rest)) ->
  finished (mk_img s') (freeblock s) ((round_up root R, R) :: rest).
Proof.
  intros B HR Hfb' Hs' D. pose proof (da_fb _ _ _ (bu_data _ _ _ B)) as Hfb. pose proof (data_self _ _ _ D) as D'.
  pose proof (fun b => shows_disk s' _ b Hs') as HD. assert (Hb1 : iblock 1 = 32) by reflexivity.
  assert (HV : forall b, b = 1 \/ b = 2 -> disk_of (mk_img s') b = V b).
  { intros b Hb. rewrite HD by lia. unfold end_view, put_inode. rewrite !bupd_ne by lia. done. }
  split.
  - apply Hs'.
  - intros x [j Hj]%list_elem_of_lookup. pose proof (lookup_lt_Some _ _ _ Hj) as Hlt. rewrite (sh_len _ _ Hs') in Hlt.
    pose proof (sh_at _ _ Hs' (Z.of_nat j) ltac:(lia)) as Hat. rewrite Nat2Z.id in Hat. rewrite Hat in Hj. injection Hj as <-.
    rewrite (sh_size _ _ Hs') by lia. done.
  - done.
  - rewrite HV, (bu_sb _ _ _ B) by lia. by vm_compute.
  - rewrite HV by lia. apply (bu_log _ _ _ B).
  - intros b Hb. rewrite <- (used_marked (put_inode V 1 (round_up root R)) (freeblock s) b) by done.
    unfold used, bitmap_block. change (sb_bmapstart mksb) with 58. change BPB with 4096. rewrite (Z.div_small b) by lia. by rewrite HD by lia.
  - intros k i C Hk. rewrite <- Hfb'. by eapply data_lookup.
  - intros k k' i C i' C' Hk Hk'. apply (da_sep _ _ _ D' k k' _ C _ C'); by rewrite list_lookup_fmap, ?Hk, ?Hk'.
  - intros k i C Hk. destruct (end_view_disk s V root R rest (freeblock s) k i C B HR Hk) as (Ho & Ht & Hz).
    split_and!; [|done|done]. rewrite <- Ho. pose proof (lookup_lt_Some _ _ _ Hk) as Hlt. pose proof (bu_max _ _ _ B). cbn [length] in *.
    unfold on_disk. destruct (iblock_range (Z.of_nat k + 1) ltac:(lia)) as (Hr & _). by rewrite HD by lia.
Qed.

(** The first steps: an empty image with the superblock, and the root directory. *)
Definition sb_image : mk := wrote 1 (splice zero_block 0 (sb_encode mksb)) (Mk (replicate 1000 zero_block) 1 59).

Lemma sb_image_built : built sb_image (bupd (fun _ => zero_block) 1 (splice zero_block 0 (sb_encode mksb))) [].
Proof.
  assert (Hs : shows sb_image (bupd (fun _ => zero_block) 1 (splice zero_block 0 (sb_encode mksb)))).
  { apply shows_wrote; [|lia|by vm_compute]. split; cbn [mk_img].
    - apply length_replicate.
    - intros b Hb. by rewrite lookup_replicate_2 by lia.
    - done. }
  split; cbn [fmap list_fmap length]; try done; try lia.
  split; [done|change (freeblock sb_image) with 59; lia| |done|done].
  intros y Hy. change (freeblock sb_image) with 59 in Hy. by rewrite bupd_ne by lia.
Qed.

Lemma mkfs_steps files s0 : mkfs files s0 =
  (let* rootino := mk_ialloc T_DIR in
   if negb (rootino =? ROOTINO) then panic "assert"
   else iappend rootino (mk_dirent rootino [46]) ;;; iappend rootino (mk_dirent rootino [46; 46]) ;;;
     add_files rootino files ;;;
     let* din := rinode rootino in
     let off := u32 ((i_size din / BSIZE + 1) * BSIZE) in
     winode rootino (set_i_size off din) ;;;
     let* used := gets freeblock in mk_balloc used) sb_image.
Proof.
  unfold mkfs. unfold bind at 1, modify at 1. unfold bind at 1. change (Mk [] 1 nmeta) with (Mk (replicate 0 zero_block) 1 59).
  rewrite zero_image by (change (Z.to_nat FSSIZE) with 1000%nat; lia). unfold bind at 1. rewrite (wsect_run _ (fun _ => zero_block)); [done| |lia].
  split; cbn [mk_img]; [apply length_replicate|intros b Hb; by rewrite lookup_replicate_2 by (change (Z.to_nat FSSIZE) with 1000%nat; lia)|done].
Qed.

(** A small piece always fits into the first block. *)
Lemma fits_first fb C p : 59 <= fb <= 999 -> (length C + length p <= 512)%nat -> fits fb C p.
Proof.
  intros Hfb Hl. split; [lia|]. pose proof (need_pos (length C)). pose proof (need_mono _ 512 Hl) as Hm.
  change (need 512) with 1 in Hm. lia.
Qed.

Lemma summary_cons i C nodes t n D r : summary ((i, C) :: nodes) = (t, n, D) :: r ->
  i_type i = t /\ i_nlink i = n /\ C = D /\ summary nodes = r.
Proof. unfold summary. rewrite fmap_cons. cbn [fst snd]. generalize (fmap (M := list) (fun p : inode * list Z => (i_type p.1, i_nlink p.1, p.2)) nodes). intros l [= -> -> -> ->]. done. Qed.

(** The root directory with its first two entries. *)
Lemma root_run (k : Z -> M mk unit) : exists s V nodes,
  (let* rootino := mk_ialloc T_DIR in
   if negb (rootino =? ROOTINO) then panic "assert"
   else iappend rootino (mk_dirent rootino [46]) ;;; iappend rootino (mk_dirent rootino [46; 46]) ;;; k rootino) sb_image = k 1 s /\
  built s V nodes /\ freeblock s = 60 /\ summary nodes = [(T_DIR, 1, mk_dirent 1 [46] ++ mk_dirent 1 [46; 46])].
Proof.
  unfold bind at 1.
  destruct (ialloc_run _ _ [] T_DIR sb_image_built ltac:(cbn; lia) ltac:(unfold s16_ok, T_DIR; lia)) as (s1 & V1 & -> & B1 & F1).
  cbn [app length] in B1 |- *. change (Z.of_nat 0 + 1) with 1 in B1 |- *. change (1 =? ROOTINO) with true. cbn [negb].
  assert (F1' : freeblock s1 = 59) by (by rewrite F1).
  pose proof (iappend_summary s1 V1 _ 0 T_DIR 1 [] (mk_dirent 1 [46]) B1 eq_refl) as H2. change (Z.of_nat 0 + 1) with 1 in H2.
  assert (Ff2 : fits (freeblock s1) [] (mk_dirent 1 [46])) by (apply fits_first; [lia|rewrite length_mk_dirent; cbn; lia]).
  unfold bind at 1. destruct (iappend 1 _ s1) as [[[] s2]|e| | |]; try done. destruct H2 as (_ & V2 & nodes2 & B2 & S2 & F2).
  assert (F2' : freeblock s2 = 60) by (rewrite F2, F1'; cbn [app]; rewrite length_mk_dirent; done).
  change (summary nodes2 = [(T_DIR, 1, mk_dirent 1 [46])]) in S2.
  pose proof (iappend_summary s2 V2 _ 0 T_DIR 1 (mk_dirent 1 [46]) (mk_dirent 1 [46; 46]) B2 ltac:(by rewrite S2)) as H3. change (Z.of_nat 0 + 1) with 1 in H3.
  assert (Ff3 : fits (freeblock s2) (mk_dirent 1 [46]) (mk_dirent 1 [46; 46])) by (apply fits_first; [lia|rewrite !length_mk_dirent; lia]).
  unfold bind at 1. destruct (iappend 1 _ s2) as [[[] s3]|e| | |]; try done. destruct H3 as (_ & V3 & nodes3 & B3 & S3 & F3). rewrite S2 in S3.
  exists s3, V3, nodes3. split_and!; [done|done| |exact S3]. rewrite F3, F2', length_app, !length_mk_dirent. done.
Qed.

Lemma mkfs_run files s0 : (length files <= 198)%nat ->
  match mkfs files s0 with
  | Ret (_, s) => mkfs_fits files /\ exists fb nodes, finished (mk_img s) fb nodes /\
      fb = nmeta + need (16 * (length files + 2)) + foldr (fun f n => need (length (hbytes f)) + n) 0 files /\
      summary nodes = (T_DIR, 1, root_bytes files) :: ((fun f => (T_FILE, 1, hbytes f)) <$> files)
  | Panic _ => ~ mkfs_fits files
  | _ => False
  end.
Proof.
  intros Hn. rewrite mkfs_steps. edestruct (root_run (fun rootino => add_files rootino files ;;;
     let* din := rinode rootino in
     let off := u32 ((i_size din / BSIZE + 1) * BSIZE) in
     winode rootino (set_i_size off din) ;;;
     let* used := gets freeblock in mk_balloc used)) as (s3 & V3 & nodes3 & -> & B3 & F3 & S3). fold mkfs_end.
  assert (Hl3 : length nodes3 = 1%nat) by (pose proof (f_equal length S3) as E; unfold summary in E; by rewrite length_fmap in E).
  assert (HR : length (mk_dirent 1 [46] ++ mk_dirent 1 [46; 46]) = 32%nat) by (by rewrite length_app, !length_mk_dirent).
  pose proof (add_files_run files s3 V3 nodes3 _ T_DIR 1 [] B3 ltac:(lia) S3 ltac:(lia)) as H4. rewrite HR, Hl3, F3 in H4.
  assert (HN : 60 + files_need 32 files = nmeta + need (16 * (length files + 2)) + foldr (fun f n => need (length (hbytes f)) + n) 0 files).
  { unfold files_need. change (need 32) with 1. change nmeta with 59. replace (32 + 16 * length files)%nat with (16 * (length files + 2))%nat by lia. lia. }
  unfold mkfs_fits. change FSSIZE with 1000. rewrite <- HN. unfold bind at 1.
  destruct (add_files 1 files s3) as [[[] s4]|e| | |]; try done.
  destruct H4 as ((Hok & Hle) & V4 & nodes4 & B4 & F4 & S4). rewrite <- app_assoc in S4. change (Z.of_nat 1 + 1) with 2 in S4.
  fold (root_bytes files) in S4. destruct nodes4 as [|[root R4] rest]; [done|].
  apply summary_cons in S4 as (Ht & Hnl & HR4 & Hrest).
  destruct (mkfs_end_run s4 V4 root R4 rest B4) as (s5 & E5 & F5 & Hs5 & D5); [rewrite HR4, length_root_bytes; lia|].
  rewrite E5. split; [done|]. exists (freeblock s4), ((round_up root R4, R4) :: rest). split_and!.
  - apply (finished_ok s4 s5 V4); try done. rewrite HR4, length_root_bytes. lia.
  - done.
  - change ((i_type root, i_nlink root, R4) :: summary rest = (T_DIR, 1, root_bytes files) :: ((fun f => (T_FILE, 1, hbytes f)) <$> files)).
    by rewrite Ht, Hnl, HR4, Hrest.
Qed.
