(* ===== verification/MkfsNames.v ===== *)
(** [mkfs.c]: the names in the root directory, and the image as a whole. *)

From S2P Require Import Prelude CString Sleeplock Cache Bio BioSpec Log LogSpec LogRes.
From S2P Require Import Fs FsSpec FsFile FsRw FsThm FsDir FsDemo Mkfs MkfsSpec MkfsFile MkfsThm MkfsClaims.

(** * Names *)

(** The name of a file on the image. *)
Definition fname (f : hfile) : list Z := skip_underscore (hf_name f).

Lemma cname_app_zero n : forall nm r, 0 ∉ nm -> cname n (nm ++ 0 :: r) = take n nm.
Proof.
  induction n as [|n IH]; intros [|c nm] r H0; try done. cbn [app cname take].
  apply not_elem_of_cons in H0 as [Hc H0]. rewrite (proj2 (Z.eqb_neq c 0)) by done. by rewrite IH.
Qed.

Lemma cname_take n : forall m l, (n <= m)%nat -> cname n (take m l) = cname n l.
Proof.
  induction n as [|n IH]; intros [|m] [|c l] H; try done; [lia|]. cbn [take cname]. by rewrite IH by lia.
Qed.

Lemma dirent_inum n nm : 0 <= n < 2 ^ 16 -> de_inum (mk_dirent n nm) = n.
Proof. apply de_inum_bytes. Qed.

Lemma dirent_name n nm : 0 ∉ nm -> cname 14 (de_name (mk_dirent n nm)) = take 14 nm.
Proof.
  intros H0. unfold mk_dirent. rewrite de_name_bytes. change (Z.to_nat DIRSIZ) with 14%nat. rewrite cname_take by lia.
  change (replicate 14 0) with (0 :: replicate 13 0). by apply cname_app_zero.
Qed.

Lemma entry_app_here de l : length de = 16%nat -> entry (de ++ l) 0 = de.
Proof. intros H. unfold entry. rewrite drop_0. by apply take_app_length'. Qed.
Lemma entry_app_next de l k : length de = 16%nat -> entry (de ++ l) (S k) = entry l k.
Proof. intros H. unfold entry. rewrite drop_app_ge by lia. do 2 f_equal. lia. Qed.

Lemma entry_dirents files : forall n k f z, files !! k = Some f ->
  entry (dirents n files ++ z) k = mk_dirent (n + Z.of_nat k) (fname f).
Proof.
  induction files as [|g files IH]; intros n [|k] f z Hk; cbn in Hk; simplify_eq; cbn [dirents].
  - rewrite <- app_assoc, entry_app_here by apply length_mk_dirent. f_equal. lia.
  - rewrite <- app_assoc, entry_app_next by apply length_mk_dirent. rewrite (IH _ _ _ _ Hk). f_equal. lia.
Qed.

(** The names that the entries of the root directory carry. *)
Definition root_names (files : list hfile) : list (list Z) := [46] :: [46; 46] :: (fname <$> files).
Definition root_inum (k : nat) : Z := if decide (k < 2)%nat then 1 else Z.of_nat k.

Lemma root_entry files k nm z : root_names files !! k = Some nm ->
  entries (root_bytes files ++ z) !! k = Some (mk_dirent (root_inum k) nm).
Proof.
  intros Hk. pose proof (lookup_lt_Some _ _ _ Hk) as Hlt. unfold root_names in Hlt. cbn [length] in Hlt. rewrite length_fmap in Hlt.
  rewrite entries_lookup by (rewrite length_app, length_root_bytes; lia). f_equal. unfold root_bytes, root_inum. rewrite <- !app_assoc.
  destruct k as [|[|k]].
  - injection Hk as <-. apply entry_app_here, length_mk_dirent.
  - injection Hk as <-. rewrite entry_app_next by apply length_mk_dirent. apply entry_app_here, length_mk_dirent.
  - rewrite !entry_app_next by apply length_mk_dirent. change (root_names files !! S (S k)) with ((fname <$> files) !! k) in Hk. rewrite list_lookup_fmap in Hk.
    destruct (files !! k) as [f|] eqn:E; [|done]. injection Hk as <-. rewrite (entry_dirents _ _ _ _ _ E).
    rewrite decide_False by lia. f_equal. lia.
Qed.

(** Every name leads to its own entry. *)
Lemma root_find files k nm z : (length files <= 198)%nat -> Forall (fun nm => 0 ∉ nm) (root_names files) ->
  NoDup (take 14 <$> root_names files) -> root_names files !! k = Some nm ->
  findi (names (nm ++ [0])) (entries (root_bytes files ++ z)) = Some k.
Proof.
  intros Hn H0 Hnd Hk. pose proof (root_entry files k nm z Hk) as He.
  assert (Hin : forall j u, root_names files !! j = Some u -> 0 < root_inum j < 2 ^ 16).
  { intros j u Hj%lookup_lt_Some. unfold root_names in Hj. cbn [length] in Hj. rewrite length_fmap in Hj.
    unfold root_inum. case_decide; lia. }
  assert (Hnm : forall j u, root_names files !! j = Some u ->
    names (nm ++ [0]) (mk_dirent (root_inum j) u) = bool_decide (take 14 nm = take 14 u)).
  { intros j u Hj. pose proof (Hin j u Hj). rewrite Forall_lookup in H0. unfold names.
    rewrite dirent_inum, dirent_name by (lia || by eapply H0). rewrite (proj2 (Z.eqb_neq _ _)) by lia. cbn [negb andb].
    by rewrite cname_app_zero by by eapply H0. }
  apply (findi_first _ _ _ _ He).
  - rewrite (Hnm k nm Hk). by apply bool_decide_true.
  - intros j y Hj Hy. destruct (lookup_lt_is_Some_2 (root_names files) j) as [u Hu].
    { pose proof (lookup_lt_Some _ _ _ Hk). lia. }
    rewrite (root_entry _ _ _ _ Hu) in Hy. injection Hy as <-. rewrite (Hnm j u Hu). apply bool_decide_false. intros E.
    assert (k = j); [|lia]. eapply NoDup_lookup; [exact Hnd| |]; rewrite list_lookup_fmap; [rewrite Hk|rewrite Hu]; cbn; by rewrite ?E.
Qed.

(** * The image *)

(** What the theorems about fs.c ask for, on a machine that boots with the image and is
    inside its first file system call. *)
Record ready_fs (img : list (list Z)) (root : inode) (inodes : list inode) : Prop := {
  rf_low : low (Cache0 := bio_cache 7) (CacheSpec0 := bio_spec 7) 1000 2 30
    (base := Txn (disk_of img) [] 1 false) (Lst (after_binit img) (set_outstanding 1 (boot_log 2 30))) (disk_of img) no_held;
  rf_sb : sb_decode (disk_of img 1) = mksb;
  rf_layout : layout 1000 2 30 mksb;
  rf_meta : meta_used mksb (disk_of img);
  rf_inode i : i ∈ root :: inodes -> inode_ok 1000 mksb (disk_of img) i;
  rf_dir : dir_ok 1000 mksb (disk_of img) root;
  rf_apart i j : i ∈ root :: inodes -> j ∈ root :: inodes -> i <> j -> apart 1000 mksb (disk_of img) i j
}.

Lemma mksb_layout : layout 1000 2 30 mksb.
Proof. split; vm_compute; (done || (split; discriminate)). Qed.

Lemma finished_low img fb nodes : finished img fb nodes ->
  low (Cache0 := bio_cache 7) (CacheSpec0 := bio_spec 7) 1000 2 30
    (base := Txn (disk_of img) [] 1 false) (Lst (after_binit img) (set_outstanding 1 (boot_log 2 30))) (disk_of img) no_held.
Proof.
  intros F. apply boot_low; [apply F|by rewrite (fi_len _ _ _ F)| |done|done|done|done].
  fold (disk_of img). rewrite (fi_log _ _ _ F). by vm_compute.
Qed.

Lemma dirent_bytes n nm : Forall byte_ok nm -> Forall byte_ok (mk_dirent n nm).
Proof.
  intros H. unfold mk_dirent. apply Forall_app. split; [apply le_bytes_byte|]. apply Forall_take, Forall_app.
  split; [done|]. apply Forall_replicate. unfold byte_ok. lia.
Qed.

Lemma root_bytes_ok files : Forall (fun f => Forall byte_ok (hf_name f)) files -> Forall byte_ok (root_bytes files).
Proof.
  intros H. unfold root_bytes. rewrite !Forall_app. split_and!.
  - apply dirent_bytes. repeat constructor; lia.
  - apply dirent_bytes. repeat constructor; lia.
  - generalize 2. induction H as [|f files Hf _ IH]; intros n; [constructor|]. cbn [dirents]. apply Forall_app. split; [|apply IH].
    apply dirent_bytes. unfold skip_underscore. destruct (hf_name f) as [|c nm]; [done|]. destruct (c =? 95); [|done].
    by inversion_clear Hf.
Qed.

(** The inode of every node, with the content as the kernel reads it. *)
Lemma finished_node img fb nodes files k i C : finished img fb nodes ->
  summary nodes = (T_DIR, 1, root_bytes files) :: ((fun f => (T_FILE, 1, hbytes f)) <$> files) -> (length files <= 198)%nat ->
  ((length files + 2) mod 32 <> 0)%nat -> nodes !! k = Some (i, C) ->
  inode_ok 1000 mksb (disk_of img) i /\ i_inum i = Z.of_nat k + 1 /\
  file_bytes (disk_of img) i = C ++ replicate (if decide (k = 0%nat) then 512 * (length C / 512 + 1) - length C else 0) 0.
Proof.
  intros F S Hn Hmod Hk. destruct (fi_disk _ _ _ F k i C Hk) as (Ho & Ht & Hz). pose proof (lookup_lt_Some _ _ _ Hk) as Hlt.
  assert (Hlen : length nodes = (length files + 1)%nat).
  { pose proof (f_equal length S) as E. unfold summary in E. rewrite length_fmap in E. cbn [length] in E. rewrite length_fmap in E. lia. }
  assert (Hty : i_type i <> T_DEV /\ (k = 0%nat -> C = root_bytes files)).
  { pose proof (f_equal (fun l => l !! k) S) as E. unfold summary in E. rewrite list_lookup_fmap, Hk in E. destruct k as [|k].
    - injection E as E1 E2 E3. rewrite E1. done.
    - change (Some (i_type i, i_nlink i, C) = ((fun f => (T_FILE, 1, hbytes f)) <$> files) !! k) in E.
      rewrite list_lookup_fmap in E. destruct (files !! k); [|done]. injection E as E1 E2 E3. rewrite E1. done. }
  destruct Hty as [Hty HC]. set (L := if decide (k = 0%nat) then (512 * (length C / 512 + 1))%nat else length C).
  destruct (node_ok (disk_of img) fb i C (Z.of_nat k + 1) L) as (H1 & H2 & H3); try done.
  - apply F.
  - apply F.
  - by apply (fi_file _ _ _ F k).
  - lia.
  - rewrite Hz. unfold L. by case_decide.
  - unfold L. pose proof (Nat.div_mod (length C) 512 ltac:(lia)) as Hd. pose proof (Nat.mod_upper_bound (length C) 512 ltac:(lia)) as Hb.
    case_decide as Ek.
    + rewrite (HC Ek), length_root_bytes in Hd, Hb |- *. set (m := (length files + 2)%nat) in *.
      pose proof (Nat.div_mod m 32 ltac:(lia)). pose proof (Nat.mod_upper_bound m 32 ltac:(lia)).
      assert (E : (16 * m / 512 = m / 32)%nat) by (replace 512%nat with (16 * 32)%nat by done; by apply Nat.Div0.div_mul_cancel_l).
      rewrite E in *. split; [lia|]. apply Nat.mul_le_mono_l.
      replace (m / 32 + 1)%nat with ((512 * (m / 32 + 1)) / 512)%nat by (rewrite (Nat.mul_comm 512); by apply Nat.div_mul).
      apply Nat.Div0.div_le_mono. lia.
    + split; [done|]. pose proof (Nat.div_mod (length C + 511) 512 ltac:(lia)). pose proof (Nat.mod_upper_bound (length C + 511) 512 ltac:(lia)). lia.
  - split_and!; [done|done|]. rewrite H3. unfold L. case_decide; [done|]. by rewrite Nat.sub_diag.
Qed.

Lemma finished_ready img fb nodes files : finished img fb nodes ->
  summary nodes = (T_DIR, 1, root_bytes files) :: ((fun f => (T_FILE, 1, hbytes f)) <$> files) -> (length files <= 198)%nat ->
  ((length files + 2) mod 32 <> 0)%nat -> Forall (fun f => Forall byte_ok (hf_name f)) files ->
  exists root inodes, (fst <$> nodes) = root :: inodes /\ ready_fs img root inodes.
Proof.
  intros F S Hn Hmod Hb. pose proof (fun k i C => finished_node img fb nodes files k i C F S Hn Hmod) as HN.
  destruct nodes as [|[root R] rest]; [done|]. exists root, (fst <$> rest). split; [done|].
  apply summary_cons in S as (Ht & _ & HR & _).
  assert (Hin : forall i, i ∈ root :: (fst <$> rest) -> exists k C, ((root, R) :: rest) !! k = Some (i, C)).
  { intros i Hi. change (root :: (fst <$> rest)) with (fst <$> ((root, R) :: rest)) in Hi.
    apply list_elem_of_fmap in Hi as ([i' C] & -> & [k Hk]%list_elem_of_lookup). by exists k, C. }
  split.
  - by eapply finished_low.
  - apply F.
  - exact mksb_layout.
  - intros b Hbr. change (dstart mksb) with 59 in Hbr. pose proof (fi_fb _ _ _ F). rewrite (fi_used _ _ _ F) by lia. apply Z.ltb_lt. lia.
  - intros i (k & C & Hk)%Hin. by apply (HN k i C).
  - destruct (HN 0%nat root R eq_refl) as (Hok & _ & Hbytes). split; [apply Hok|done| |].
    + destruct (fi_disk _ _ _ F 0%nat root R eq_refl) as (_ & _ & ->). cbn [decide]. rewrite decide_True by done. unfold DIRENT.
      apply Z.mod_divide; [lia|]. exists (Z.of_nat (32 * (length R / 512 + 1))). lia.
    + rewrite Hbytes, HR. apply Forall_app. split; [by apply root_bytes_ok|]. apply Forall_replicate. unfold byte_ok. lia.
  - intros i j (k & C & Hk)%Hin (k' & C' & Hk')%Hin Hne. assert (k <> k') by (intros ->; congruence).
    destruct (HN k' j C' Hk') as ([H1 H2 H3 H4] & Hi' & _), (HN k i C Hk) as (_ & Hi & _). split; try done.
    + rewrite Hi, Hi'. lia.
    + by apply (fi_sep _ _ _ F k k' i C j C').
Qed.


(** When the number of entries of the root directory, with "." and "..", is a multiple
    of 32, [mkfs] rounds the size of the directory up to a block that it does not
    allocate: the directory ends in a hole. *)
Theorem mkfs_root_hole files s0 s : (length files <= 198)%nat -> ((length files + 2) mod 32 = 0)%nat ->
  mkfs files s0 = Ret (tt, s) ->
  let root := on_disk (disk_of (mk_img s)) ROOTINO in
  i_size root = Z.of_nat (16 * (length files + 2)) + BSIZE /\
  slot (disk_of (mk_img s)) (i_addrs root) (sidx ((length files + 2) / 32)) = 0.
Proof.
  intros Hn Hmod Hrun. pose proof (mkfs_run files s0 Hn) as H. rewrite Hrun in H. destruct H as (_ & fb & nodes & F & _ & S).
  destruct nodes as [|[root R] rest]; [done|]. apply summary_cons in S as (Ht & _ & HR & _).
  destruct (fi_disk _ _ _ F 0%nat root R eq_refl) as (Ho & _ & Hz). change (on_disk (disk_of (mk_img s)) ROOTINO = root) in Ho.
  cbn zeta. rewrite Ho, Hz. rewrite decide_True by done. rewrite HR, length_root_bytes. set (m := (length files + 2)%nat) in *.
  pose proof (Nat.div_mod m 32 ltac:(lia)) as Hd.
  assert (E : (16 * m / 512 = m / 32)%nat) by (replace 512%nat with (16 * 32)%nat by done; by apply Nat.Div0.div_mul_cancel_l).
  split; [rewrite E; unfold BSIZE; lia|]. pose proof (mf_full _ _ _ _ (fi_file _ _ _ F 0%nat root R eq_refl)) as Hf.
  rewrite HR, length_root_bytes in Hf. fold m in Hf.
  destruct (decide (slot (disk_of (mk_img s)) (i_addrs root) (sidx (m / 32)) = 0)) as [|Hnz]; [done|]. apply Hf in Hnz; lia.
Qed.

(** * Two images *)

(** "README" and the program "_a". *)
Definition demo_files : list hfile :=
  [Hfile [82; 69; 65; 68; 77; 69] (Some [[104; 105]; [10]]); Hfile [95; 97] (Some [[127; 69; 76; 70]])].

Lemma demo_fits : mkfs_fits demo_files.
Proof.
  split; [|by vm_compute].
  assert (Hok : forall nm c, forallb (fun x => negb (x =? 47)) nm = true -> (length (concat c) <= 512)%nat -> hf_ok (Hfile nm (Some c))).
  { intros nm c Hnm Hc. split; [|split; [by eexists|unfold hbytes; cbn [hf_data]; change (default [] (Some c)) with c; lia]].
    intros Hin%list_elem_of_In. rewrite forallb_forall in Hnm. by apply Hnm in Hin. }
  apply Forall_cons. split; [|apply Forall_cons; split; [|constructor]]; apply Hok; try done; cbn; lia.
Qed.


(** Thirty empty files. *)
Definition files30 : list hfile := replicate 30 (Hfile [97] (Some [])).

Lemma files30_fits : mkfs_fits files30.
Proof.
  split; [|by vm_compute]. apply Forall_replicate. split; [|split; [by eexists|unfold hbytes; cbn [hf_data]; change (default [] (Some [])) with (@nil (list Z)); cbn [concat length]; lia]].
  intros H. apply elem_of_cons in H as [H|H]; [discriminate H|]. by apply elem_of_nil in H.
Qed.

Lemma mkfs_root_hole_witness : exists s, mkfs files30 (Mk [] 0 0) = Ret (tt, s) /\
  i_size (on_disk (disk_of (mk_img s)) 1) = 1024 /\ slot (disk_of (mk_img s)) (i_addrs (on_disk (disk_of (mk_img s)) 1)) 1 = 0.
Proof.
  pose proof (mkfs_run files30 (Mk [] 0 0) ltac:(cbn; lia)) as H.
  destruct (mkfs files30 (Mk [] 0 0)) as [[[] s]|e| | |] eqn:E.
  - exact (ex_intro _ s (conj eq_refl (mkfs_root_hole files30 (Mk [] 0 0) s ltac:(cbn; lia) eq_refl E))).
  - destruct (H files30_fits).
  - destruct H.
  - destruct H.
  - destruct H.
Defined.
