(* ===== verification/Ide.v ===== *)
(** [ide.c]: the queue of the disk driver, over a controller with two drives.

    The controller is hardware: what it does with the registers is the model [ctl], after
    the ATA specification. [inb(0x1f7)] reads its status, and a poll of a controller that
    is not ready is the outcome [Block]. The lock [idelock] makes every call one step, up
    to a sleep; a sleeping process is recorded with the buffer it sleeps on. *)

From S2P Require Import Prelude Sleeplock Cache Bio Mkfs.

Definition SECTOR_SIZE : Z := 512.
Definition IDE_BSY : Z := 0x80.
Definition IDE_DRDY : Z := 0x40.
Definition IDE_DF : Z := 0x20.
Definition IDE_ERR : Z := 0x01.
Definition IDE_CMD_READ : Z := 0x20.
Definition IDE_CMD_WRITE : Z := 0x30.
Definition IDE_CMD_RDMUL : Z := 0xc4.
Definition IDE_CMD_WRMUL : Z := 0xc5.

(** * The controller *)

(** A command in progress: the drive, the sector and, for a write, the data sent. *)
Inductive command :=
| Reading (drive lba : Z)
| Writing (drive lba : Z) (sent : option (list Z)).

(** The registers 0x1f2 to 0x1f6, the status, the command and the drives. *)
Record ctl := Ctl {
  r_count : Z; r_lba0 : Z; r_lba1 : Z; r_lba2 : Z; r_drive : Z;
  c_status : Z;
  c_command : option command;
  c_drives : list (list (list Z))
}.

(** The sector and drive that the registers name. *)
Definition ctl_lba (c : ctl) : Z :=
  r_lba0 c + Z.shiftl (r_lba1 c) 8 + Z.shiftl (r_lba2 c) 16 + Z.shiftl (Z.land (r_drive c) 0x0f) 24.
Definition ctl_drive (c : ctl) : Z := Z.land (Z.shiftr (r_drive c) 4) 1.

Definition set_command (o : option command) (c : ctl) : ctl :=
  Ctl (r_count c) (r_lba0 c) (r_lba1 c) (r_lba2 c) (r_drive c) (c_status c) o (c_drives c).

(** A byte written to a port. *)
Definition ctl_out (port v : Z) (c : ctl) : ctl :=
  if port =? 0x1f2 then Ctl v (r_lba0 c) (r_lba1 c) (r_lba2 c) (r_drive c) (c_status c) (c_command c) (c_drives c)
  else if port =? 0x1f3 then Ctl (r_count c) v (r_lba1 c) (r_lba2 c) (r_drive c) (c_status c) (c_command c) (c_drives c)
  else if port =? 0x1f4 then Ctl (r_count c) (r_lba0 c) v (r_lba2 c) (r_drive c) (c_status c) (c_command c) (c_drives c)
  else if port =? 0x1f5 then Ctl (r_count c) (r_lba0 c) (r_lba1 c) v (r_drive c) (c_status c) (c_command c) (c_drives c)
  else if port =? 0x1f6 then Ctl (r_count c) (r_lba0 c) (r_lba1 c) (r_lba2 c) v (c_status c) (c_command c) (c_drives c)
  else if port =? 0x1f7 then
    if v =? IDE_CMD_READ then set_command (Some (Reading (ctl_drive c) (ctl_lba c))) c
    else if v =? IDE_CMD_WRITE then set_command (Some (Writing (ctl_drive c) (ctl_lba c) None)) c
    else c
  else c.

(** Words written to the data register. *)
Definition ctl_outsl (d : list Z) (c : ctl) : ctl :=
  match c_command c with
  | Some (Writing drive lba None) => set_command (Some (Writing drive lba (Some d))) c
  | _ => c
  end.

(** The sector that a finished read offers in the data register. *)
Definition ctl_sector (drive lba : Z) (c : ctl) : option (list Z) :=
  l ← c_drives c !! Z.to_nat drive; l !! Z.to_nat lba.

(** The controller finishes its command, with the given status, and interrupts. *)
Definition ctl_finish (status : Z) (c : ctl) : ctl :=
  let c := Ctl (r_count c) (r_lba0 c) (r_lba1 c) (r_lba2 c) (r_drive c) status (c_command c) (c_drives c) in
  match c_command c with
  | Some (Writing drive lba (Some d)) =>
      let l := default [] (c_drives c !! Z.to_nat drive) in
      Ctl (r_count c) (r_lba0 c) (r_lba1 c) (r_lba2 c) (r_drive c) status None
        (<[Z.to_nat drive := <[Z.to_nat lba := d]> l]> (c_drives c))
  | _ => c
  end.

(** * The driver *)

(** The buffers, their [qnext] pointers, [idequeue], [havedisk1], the controller, and the
    sleeping processes with the buffers they sleep on. *)
Record ide := Ide {
  id_buf : list buf;
  id_qnext : list (option nat);
  id_queue : option nat;
  id_disk1 : bool;
  id_ctl : ctl;
  id_sleep : list (Z * nat)
}.

Local Abbreviation I := (M ide).

Definition set_ctl (c : ctl) (s : ide) : ide :=
  Ide (id_buf s) (id_qnext s) (id_queue s) (id_disk1 s) c (id_sleep s).
Definition outb (port v : Z) : I unit := modify (fun s => set_ctl (ctl_out port v (id_ctl s)) s).
Definition outsl (d : list Z) : I unit := modify (fun s => set_ctl (ctl_outsl d (id_ctl s)) s).
(** Reading the data register takes the sector of the read that has finished. *)
Definition insl : I (list Z) := fun s =>
  match c_command (id_ctl s) with
  | Some (Reading drive lba) =>
      match ctl_sector drive lba (id_ctl s) with
      | Some d => Ret (d, set_ctl (set_command None (id_ctl s)) s)
      | None => Fault
      end
  | _ => Fault
  end.

Definition get_buf (i : nat) : I buf := fun s =>
  match id_buf s !! i with Some b => Ret (b, s) | None => Fault end.
Definition upd_buf (i : nat) (f : buf -> buf) : I unit := fun s =>
  match id_buf s !! i with
  | Some b => Ret (tt, Ide (<[i := f b]> (id_buf s)) (id_qnext s) (id_queue s) (id_disk1 s) (id_ctl s) (id_sleep s))
  | None => Fault
  end.
Definition get_qnext (i : nat) : I (option nat) := fun s =>
  match id_qnext s !! i with Some q => Ret (q, s) | None => Fault end.
Definition set_qnext (i : nat) (q : option nat) : I unit := fun s =>
  match id_qnext s !! i with
  | Some _ => Ret (tt, Ide (id_buf s) (<[i := q]> (id_qnext s)) (id_queue s) (id_disk1 s) (id_ctl s) (id_sleep s))
  | None => Fault
  end.
Definition set_queue (q : option nat) : I unit := modify (fun s =>
  Ide (id_buf s) (id_qnext s) q (id_disk1 s) (id_ctl s) (id_sleep s)).

Definition idewait (checkerr : bool) : I Z :=
  let* r := gets (fun s => c_status (id_ctl s)) in
  if negb (Z.land r (Z.lor IDE_BSY IDE_DRDY) =? IDE_DRDY) then block
  else if checkerr && negb (Z.land r (Z.lor IDE_DF IDE_ERR) =? 0) then ret (-1)
  else ret 0.

(** [ideinit()]; [reads] are the values that the polls of the status of drive 1 bring. *)
Definition ideinit (reads : list Z) : I unit :=
  idewait false ;;;
  outb 0x1f6 (Z.lor 0xe0 (Z.shiftl 1 4)) ;;;
  (if existsb (fun r => negb (r =? 0)) (take 1000 reads) then
     modify (fun s => Ide (id_buf s) (id_qnext s) (id_queue s) true (id_ctl s) (id_sleep s))
   else ret tt) ;;;
  outb 0x1f6 (Z.lor 0xe0 (Z.shiftl 0 4)).

Definition idestart (b : option nat) : I unit :=
  match b with
  | None => panic "idestart"
  | Some i =>
      let* b := get_buf i in
      if FSSIZE <=? b_blockno b then panic "incorrect blockno"
      else
        let sector_per_block := BSIZE / SECTOR_SIZE in
        let sector := s32 (b_blockno b * sector_per_block) in
        let read_cmd := if sector_per_block =? 1 then IDE_CMD_READ else IDE_CMD_RDMUL in
        let write_cmd := if sector_per_block =? 1 then IDE_CMD_WRITE else IDE_CMD_WRMUL in
        if 7 <? sector_per_block then panic "idestart"
        else
          idewait false ;;;
          outb 0x3f6 0 ;;;
          outb 0x1f2 (u8 sector_per_block) ;;;
          outb 0x1f3 (Z.land sector 0xff) ;;;
          outb 0x1f4 (Z.land (Z.shiftr sector 8) 0xff) ;;;
          outb 0x1f5 (Z.land (Z.shiftr sector 16) 0xff) ;;;
          outb 0x1f6 (Z.lor (Z.lor 0xe0 (Z.shiftl (Z.land (b_dev b) 1) 4)) (Z.land (Z.shiftr sector 24) 0x0f)) ;;;
          if negb (Z.land (b_flags b) B_DIRTY =? 0) then
            outb 0x1f7 write_cmd ;;;
            outsl (b_data b)
          else outb 0x1f7 read_cmd
  end.

(** [wakeup(b)] *)
Definition wake (i : nat) : I unit := modify (fun s =>
  Ide (id_buf s) (id_qnext s) (id_queue s) (id_disk1 s) (id_ctl s)
    (filter (fun p => p.2 <> i) (id_sleep s))).

(** The request of buffer [i] at the head of the queue is done. *)
Definition ide_serve (i : nat) : I unit :=
  let* b := get_buf i in
  (if Z.land (b_flags b) B_DIRTY =? 0 then
     let* r := idewait true in
     if 0 <=? r then let* d := insl in upd_buf i (set_data d) else ret tt
   else ret tt) ;;;
  upd_buf i (fun b => set_flags (Z.lor (b_flags b) B_VALID) b) ;;;
  upd_buf i (fun b => set_flags (Z.land (b_flags b) (Z.lnot B_DIRTY)) b) ;;;
  wake i.

Definition ideintr : I unit :=
  let* q := gets id_queue in
  match q with
  | None => ret tt
  | Some i =>
      let* next := get_qnext i in
      set_queue next ;;;
      ide_serve i ;;;
      let* q := gets id_queue in
      match q with Some _ => idestart q | None => ret tt end
  end.

(** [for(pp=&idequeue; *pp; pp=&( *pp)->qnext) ;]: the buffer whose [qnext] is [*pp], or
    [None] for [idequeue] itself. *)
Fixpoint queue_end (fuel : nat) (pp : option nat) : I (option nat) :=
  let* q := match pp with None => gets id_queue | Some j => get_qnext j end in
  match q with
  | None => ret pp
  | Some j =>
      match fuel with
      | O => fun _ => NoFuel
      | S fuel => queue_end fuel (Some j)
      end
  end.

(** Append buffer [i] to the queue. *)
Definition enqueue (i : nat) : I unit :=
  set_qnext i None ;;;
  let* n := gets (fun s => length (id_buf s)) in
  let* pp := queue_end n None in
  match pp with None => set_queue (Some i) | Some j => set_qnext j (Some i) end.

(** [while((b->flags & (B_VALID|B_DIRTY)) != B_VALID) sleep(b, &idelock);]: whether the
    call returns, or the process [pid] is now asleep. *)
Definition iderw_wait (pid : Z) (i : nat) : I bool :=
  let* b := get_buf i in
  if negb (Z.land (b_flags b) (Z.lor B_VALID B_DIRTY) =? B_VALID) then
    modify (fun s => Ide (id_buf s) (id_qnext s) (id_queue s) (id_disk1 s) (id_ctl s) (id_sleep s ++ [(pid, i)])) ;;;
    ret false
  else ret true.

Definition ide_rw (pid : Z) (i : nat) : I bool :=
  let* b := get_buf i in
  if negb (holdingsleep pid (b_lock b)) then panic "iderw: buf not locked"
  else if Z.land (b_flags b) (Z.lor B_VALID B_DIRTY) =? B_VALID then panic "iderw: nothing to do"
  else
    let* disk1 := gets id_disk1 in
    if negb (b_dev b =? 0) && negb disk1 then panic "iderw: ide disk 1 not present"
    else
      enqueue i ;;;
      let* q := gets id_queue in
      (if bool_decide (q = Some i) then idestart (Some i) else ret tt) ;;;
      iderw_wait pid i.
