(* ===== verification/IdeThm.v ===== *)
(** [ide.c]: the driver serves its queue in order, and each request as memide.c does. *)

From S2P Require Import Prelude Sleeplock Cache Bio Mkfs Ide.

(** * The queue *)

(** The pointers from [p] on link the buffers of [q]. *)
Fixpoint linked (nx : list (option nat)) (p : option nat) (q : list nat) : Prop :=
  match q with
  | [] => p = None
  | i :: q => p = Some i /\ exists n, nx !! i = Some n /\ linked nx n q
  end.

Lemma linked_insert nx p q j v : linked nx p q -> j ∉ q -> linked (<[j := v]> nx) p q.
Proof.
  revert p. induction q as [|i q IH]; intros p H Hj; [done|]. destruct H as (-> & n & Hn & H).
  apply not_elem_of_cons in Hj as [Hne Hj]. split; [done|]. exists n. rewrite list_lookup_insert_ne by done. eauto.
Qed.

(** A link from the last buffer to a new one. *)
Lemma linked_snoc nx p q j i : linked nx p (q ++ [j]) -> nx !! i = Some None -> i ∉ q ++ [j] -> NoDup (q ++ [j]) ->
  linked (<[j := Some i]> nx) p (q ++ [j; i]).
Proof.
  revert p. induction q as [|k q IH]; intros p H Hi Hni Hnd; cbn in H |- *.
  - destruct H as (-> & n & Hn & ->). split; [done|]. exists (Some i).
    rewrite list_lookup_insert_eq by (by eapply lookup_lt_Some). split; [done|]. split; [done|]. exists None.
    apply not_elem_of_cons in Hni as [Hne _]. by rewrite list_lookup_insert_ne.
  - destruct H as (-> & n & Hn & H). apply not_elem_of_cons in Hni as [_ Hni]. apply NoDup_cons in Hnd as [Hk Hnd].
    split; [done|]. exists n. rewrite list_lookup_insert_ne by set_solver. split; [done|]. by apply IH.
Qed.

Lemma queue_end_run s : forall q2 fuel pp p, (match pp with None => id_queue s = p | Some j => id_qnext s !! j = Some p end) ->
  linked (id_qnext s) p q2 -> (length q2 <= fuel)%nat ->
  queue_end fuel pp s = Ret (match last q2 with Some j => Some j | None => pp end, s).
Proof.
  induction q2 as [|i q2 IH]; intros fuel pp p Hp Hl Hf.
  - cbn in Hl. subst p. destruct fuel; cbn [queue_end]; unfold bind; destruct pp; cbn in Hp |- *;
      unfold gets, get_qnext; rewrite Hp; done.
  - destruct Hl as (-> & n & Hn & Hl). destruct fuel as [|fuel]; [cbn in Hf; lia|]. cbn [queue_end]. unfold bind.
    assert (Hq : match pp with None => gets id_queue | Some j => get_qnext j end s = Ret (Some i, s)).
    { destruct pp; unfold gets, get_qnext; cbn in Hp |- *; by rewrite Hp. }
    rewrite Hq, (IH fuel (Some i) n Hn Hl) by (cbn in Hf; lia). rewrite last_cons. by destruct (last q2).
Qed.

(** * The command of a request *)

(** A buffer that a read or a write is wanted for, on drive 1. *)
Record wanted (b : buf) : Prop := {
  wt_flags : Z.land (b_flags b) (Z.lor B_VALID B_DIRTY) <> B_VALID;
  wt_dev : b_dev b = 1;
  wt_blockno : 0 <= b_blockno b < 1000
}.

Definition command_of (b : buf) : command :=
  if Z.land (b_flags b) B_DIRTY =? 0 then Reading 1 (b_blockno b) else Writing 1 (b_blockno b) (Some (b_data b)).

Definition ready_status (r : Z) : Prop := Z.land r (Z.lor IDE_BSY IDE_DRDY) = IDE_DRDY.
Definition good_status (r : Z) : Prop := ready_status r /\ Z.land r (Z.lor IDE_DF IDE_ERR) = 0.

Lemma low_bytes x : 0 <= x < 2 ^ 28 ->
  Z.land x 0xff + Z.shiftl (Z.land (Z.shiftr x 8) 0xff) 8 + Z.shiftl (Z.land (Z.shiftr x 16) 0xff) 16 +
  Z.shiftl (Z.land (Z.shiftr x 24) 0x0f) 24 = x.
Proof.
  intros Hx. change 0xff with (Z.ones 8). change 0x0f with (Z.ones 4).
  rewrite !Z.land_ones, !Z.shiftr_div_pow2, !Z.shiftl_mul_pow2 by lia.
  change (2 ^ 8) with 256. change (2 ^ 16) with 65536. change (2 ^ 24) with 16777216. change (2 ^ 4) with 16. change (2 ^ 28) with 268435456 in Hx.
  pose proof (Z.div_mod x 256). pose proof (Z.mod_pos_bound x 256). pose proof (Z.div_mod (x / 256) 256). pose proof (Z.mod_pos_bound (x / 256) 256).
  pose proof (Z.div_mod (x / 65536) 256). pose proof (Z.mod_pos_bound (x / 65536) 256).
  rewrite (Z.mod_small (x / 16777216) 16) by (split; [apply Z.div_pos; lia|apply Z.div_lt_upper_bound; lia]).
  assert (x / 65536 = x / 256 / 256) by (rewrite Z.div_div by lia; done).
  assert (x / 16777216 = x / 65536 / 256) by (rewrite Z.div_div by lia; done). lia.
Qed.

Lemma drive_byte x : 0 <= x < 16 -> let v := Z.lor (Z.lor 0xe0 (Z.shiftl (Z.land 1 1) 4)) x in
  Z.land (Z.shiftr v 4) 1 = 1 /\ Z.land v 0x0f = x.
Proof.
  intros Hx. assert (Hall : forallb (fun x => (Z.land (Z.shiftr (Z.lor (Z.lor 0xe0 (Z.shiftl (Z.land 1 1) 4)) x) 4) 1 =? 1) &&
    (Z.land (Z.lor (Z.lor 0xe0 (Z.shiftl (Z.land 1 1) 4)) x) 0x0f =? x)) (seqZ 0 16) = true) by (vm_compute; reflexivity).
  rewrite forallb_forall in Hall. specialize (Hall x). rewrite andb_true_iff, !Z.eqb_eq in Hall. apply Hall.
  apply list_elem_of_In, elem_of_seqZ. lia.
Qed.

(** [idestart] gives the controller the command of the request. *)
Lemma idestart_run s i b : id_buf s !! i = Some b -> wanted b -> ready_status (c_status (id_ctl s)) ->
  exists c, idestart (Some i) s = Ret (tt, set_ctl c s) /\ c_command c = Some (command_of b) /\
    c_status c = c_status (id_ctl s) /\ c_drives c = c_drives (id_ctl s).
Proof.
  intros Hb [Hfl Hdev Hbn] Hr. unfold idestart, bind at 1, get_buf. rewrite Hb.
  rewrite (proj2 (Z.leb_gt _ _)) by (unfold FSSIZE; lia). change (BSIZE / SECTOR_SIZE) with 1. rewrite Z.mul_1_r, s32_small by lia.
  cbn [Z.eqb Pos.eqb]. change (7 <? 1) with false. cbn iota. unfold bind at 1, idewait at 1, bind at 1, gets at 1. rewrite Hr, Z.eqb_refl. cbn [negb andb].
  pose proof (low_bytes (b_blockno b) ltac:(lia)) as Hlb.
  assert (H24 : 0 <= Z.land (Z.shiftr (b_blockno b) 24) 0x0f < 16).
  { change 0x0f with (Z.ones 4). rewrite Z.land_ones by lia. apply Z.mod_pos_bound. lia. }
  destruct (drive_byte _ H24) as [Hd1 Hd2]. rewrite Hdev. unfold command_of.
  unfold bind, outb, outsl, modify, ret. destruct (Z.eqb_spec (Z.land (b_flags b) B_DIRTY) 0) as [Hz|Hz]; cbn [negb];
    eexists; (split; [reflexivity|]); cbn -[Z.lor Z.land Z.shiftl Z.shiftr]; unfold ctl_lba, ctl_drive; cbn -[Z.lor Z.land Z.shiftl Z.shiftr];
    rewrite Hd1, Hd2, Hlb; done.
Qed.

(** * The invariant *)

(** The requests in the order in which they wait. *)
Definition waiting (s : ide) : list nat := snd <$> id_sleep s.
Definition drive1 (s : ide) : list (list Z) := default [] (c_drives (id_ctl s) !! 1%nat).

Record ide_ok (s : ide) : Prop := {
  io_len : length (id_qnext s) = length (id_buf s);
  io_queue : linked (id_qnext s) (id_queue s) (waiting s);
  io_nodup : NoDup (waiting s);
  io_want p i : (p, i) ∈ id_sleep s -> exists b, id_buf s !! i = Some b /\ wanted b /\ holdingsleep p (b_lock b) = true;
  io_status : ready_status (c_status (id_ctl s));
  io_drives : length (c_drives (id_ctl s)) = 2%nat;
  io_disk : length (drive1 s) = 1000%nat;
  io_cmd i : waiting s !! 0%nat = Some i -> exists b, id_buf s !! i = Some b /\ c_command (id_ctl s) = Some (command_of b);
  io_idle drive lba d : waiting s = [] -> c_command (id_ctl s) <> Some (Writing drive lba d);
  io_disk1 : id_disk1 s = true
}.

Lemma holding_same p p' lk : holdingsleep p lk = true -> holdingsleep p' lk = true -> p = p'.
Proof. unfold holdingsleep. rewrite !andb_true_iff, !Z.eqb_eq. intros [_ <-] [_ <-]. done. Qed.

Lemma waiting_elem s i : i ∈ waiting s -> exists p, (p, i) ∈ id_sleep s.
Proof. intros Hi. apply list_elem_of_fmap in Hi as ([p j] & -> & Hp). by exists p. Qed.

(** The pids of the processes that sleep, and a process that may call the driver. *)
Definition may_call (pid : Z) (i : nat) (s : ide) : Prop :=
  (pid ∉ (fst <$> id_sleep s)) /\ exists b, id_buf s !! i = Some b /\ wanted b /\ holdingsleep pid (b_lock b) = true.

Lemma may_call_new pid i s : ide_ok s -> may_call pid i s -> i ∉ waiting s.
Proof.
  intros H (Hp & b & Hb & _ & Hh) Hi. apply waiting_elem in Hi as [p Hpi].
  destruct (io_want _ H p i Hpi) as (b' & Hb' & _ & Hh'). rewrite Hb in Hb'. simplify_eq.
  apply Hp. rewrite (holding_same pid p (b_lock b') Hh Hh'). change p with (fst (p, i)). by apply list_elem_of_fmap_2.
Qed.

Lemma waiting_bound s : ide_ok s -> (length (waiting s) <= length (id_buf s))%nat.
Proof.
  intros H. transitivity (length (seq 0 (length (id_buf s)))); [|by rewrite length_seq].
  apply submseteq_length, NoDup_submseteq; [apply H|]. intros i Hi. apply waiting_elem in Hi as [p Hpi].
  destruct (io_want _ H p i Hpi) as (b & Hb & _). apply elem_of_seq. apply lookup_lt_Some in Hb. lia.
Qed.

(** The pointers after a request is put at the end. *)
Lemma enqueue_run s pid i : ide_ok s -> may_call pid i s ->
  exists nx q, enqueue i s = Ret (tt, Ide (id_buf s) nx q (id_disk1 s) (id_ctl s) (id_sleep s)) /\
  length nx = length (id_buf s) /\ linked nx q (waiting s ++ [i]) /\
  (q = Some i <-> waiting s = []).
Proof.
  intros H Hc. pose proof (may_call_new pid i s H Hc) as Hni. destruct Hc as (_ & b & Hb & _). pose proof (lookup_lt_Some _ _ _ Hb) as Hlt.
  pose proof (io_len _ H) as Hl. destruct (lookup_lt_is_Some_2 (id_qnext s) i ltac:(lia)) as [o Ho].
  unfold enqueue, bind at 1, set_qnext at 1. rewrite Ho. unfold bind at 1, gets at 1. cbn [id_buf].
  set (s1 := Ide (id_buf s) (<[i := None]> (id_qnext s)) (id_queue s) (id_disk1 s) (id_ctl s) (id_sleep s)).
  assert (Hlk : linked (id_qnext s1) (id_queue s1) (waiting s)) by (apply linked_insert; [apply H|done]).
  unfold bind at 1. rewrite (queue_end_run s1 (waiting s) _ None (id_queue s1) eq_refl Hlk) by (by apply waiting_bound).
  assert (Hn1 : id_qnext s1 !! i = Some None) by (apply list_lookup_insert_eq; lia).
  destruct (waiting s) as [|k q0 _] eqn:Ew using rev_ind.
  - cbn [last]. eexists _, (Some i). split; [reflexivity|]. split; [cbn; rewrite length_insert; lia|]. split; [|done].
    split; [done|]. exists None. done.
  - rewrite last_snoc. pose proof (io_nodup _ H) as Hnd. rewrite Ew in Hnd.
    assert (Hk : (k < length (id_qnext s1))%nat).
    { destruct (waiting_elem s k ltac:(rewrite Ew; set_solver)) as [p Hp]. destruct (io_want _ H p k Hp) as (bk & Hbk & _).
      apply lookup_lt_Some in Hbk. cbn. rewrite length_insert. lia. }
    destruct (lookup_lt_is_Some_2 (id_qnext s1) k Hk) as [ok Hok]. unfold set_qnext. rewrite Hok.
    eexists _, (id_queue s). split; [reflexivity|]. split; [cbn; rewrite !length_insert; lia|].
    split; [rewrite <- app_assoc; by apply linked_snoc|]. split; [|by destruct q0]. intros Hq. exfalso. apply Hni.
    destruct q0 as [|k0 q0]; cbn in Hlk; destruct Hlk as (E & _); rewrite Hq in E; injection E as ->; set_solver.
Qed.

(** A request is put at the end, its process sleeps, and nothing else happens yet. *)
Lemma ide_rw_run s pid i : ide_ok s -> may_call pid i s ->
  exists s', ide_rw pid i s = Ret (false, s') /\ ide_ok s' /\ id_buf s' = id_buf s /\
    c_drives (id_ctl s') = c_drives (id_ctl s) /\ id_sleep s' = id_sleep s ++ [(pid, i)].
Proof.
  intros H Hc. pose proof (may_call_new pid i s H Hc) as Hni. destruct (enqueue_run s pid i H Hc) as (nx & q & Henq & Hlen & Hlk & Hq).
  destruct Hc as (Hp & b & Hb & Hw & Hh). unfold ide_rw, bind at 1, get_buf. rewrite Hb, Hh. cbn [negb].
  rewrite (proj2 (Z.eqb_neq _ _) (wt_flags _ Hw)). unfold bind at 1, gets at 1. rewrite (io_disk1 _ H), andb_false_r. unfold bind at 1. rewrite Henq.
  set (s1 := Ide _ nx q _ _ _). unfold bind at 1, gets at 1. cbn [id_queue s1].
  assert (Hst : exists c, (if bool_decide (q = Some i) then idestart (Some i) else ret tt) s1 = Ret (tt, set_ctl c s1) /\
    c_status c = c_status (id_ctl s) /\ c_drives c = c_drives (id_ctl s) /\
    (waiting s = [] -> c_command c = Some (command_of b)) /\ (waiting s <> [] -> c_command c = c_command (id_ctl s))).
  { case_bool_decide as Eq.
    - destruct (idestart_run s1 i b Hb Hw (io_status _ H)) as (c & E & Ec & Es & Ed). exists c. split_and!; try done.
      intros Hne. by apply Hq in Eq.
    - exists (id_ctl s). split; [by destruct s|]. split_and!; try done. intros Hne. by apply Hq in Hne. }
  destruct Hst as (c & Est & Hcs & Hcd & Hc0 & Hc1). unfold bind at 1. rewrite Est. unfold iderw_wait, bind at 1, get_buf.
  cbn [set_ctl id_buf s1]. rewrite Hb, (proj2 (Z.eqb_neq _ _) (wt_flags _ Hw)). cbn [negb]. unfold bind, modify, ret.
  eexists. split; [reflexivity|]. split; [|done]. cbn [set_ctl id_buf id_qnext id_queue id_disk1 id_ctl id_sleep s1].
  assert (Ew : waiting (Ide (id_buf s) nx q (id_disk1 s) c (id_sleep s ++ [(pid, i)])) = waiting s ++ [i]).
  { unfold waiting. cbn [id_sleep]. by rewrite fmap_app. }
  split; rewrite ?Ew; cbn [id_buf id_qnext id_queue id_disk1 id_ctl id_sleep].
  - done.
  - done.
  - apply NoDup_app. split_and!; [apply H| |apply NoDup_singleton]. intros j Hj Hji. apply list_elem_of_singleton in Hji. by subst.
  - intros p j Hpj. apply elem_of_app in Hpj as [Hpj|Hpj]; [by apply (io_want _ H)|].
    apply list_elem_of_singleton in Hpj. simplify_eq. by exists b.
  - rewrite Hcs. apply H.
  - rewrite Hcd. apply H.
  - unfold drive1. cbn. rewrite Hcd. apply (io_disk _ H).
  - intros j Hj. destruct (waiting s) as [|k q0] eqn:E.
    + injection Hj as <-. exists b. auto.
    + cbn in Hj. destruct (io_cmd _ H j) as (bj & Hbj & Hcj); [by rewrite E|]. exists bj. split; [done|]. by rewrite Hc1.
  - intros ? ? ? E. by destruct (waiting s).
  - apply H.
Qed.

(** * An interrupt *)

Lemma mask_clean f : Z.land f B_DIRTY = 0 -> Z.land f (Z.lnot B_DIRTY) = f.
Proof.
  intros H. apply Z.bits_inj'. intros n Hn. pose proof (f_equal (fun x => Z.testbit x n) H) as E. cbn beta in E.
  rewrite Z.land_spec, Z.bits_0 in E. rewrite Z.land_spec, Z.lnot_spec by done. destruct (Z.testbit f n), (Z.testbit B_DIRTY n); done.
Qed.

Lemma flags_done f : Z.land (Z.lor f B_VALID) (Z.lnot B_DIRTY) = Z.lor (Z.land f (Z.lnot B_DIRTY)) B_VALID.
Proof. by rewrite Z.land_lor_distr_l. Qed.

Lemma flags_valid f : Z.land (Z.lor (Z.land f (Z.lnot B_DIRTY)) B_VALID) (Z.lor B_VALID B_DIRTY) = B_VALID.
Proof.
  rewrite Z.land_lor_distr_l, <- Z.land_assoc.
  change (Z.land (Z.lnot B_DIRTY) (Z.lor B_VALID B_DIRTY)) with B_VALID. change (Z.land B_VALID (Z.lor B_VALID B_DIRTY)) with B_VALID.
  apply Z.bits_inj'. intros n Hn. rewrite Z.lor_spec, Z.land_spec. by destruct (Z.testbit f n), (Z.testbit B_VALID n).
Qed.

(** The buffer and the drive after the request of [b] is done; [ok] tells whether a read brought its data. *)
Definition done_buf (ok : bool) (d : list (list Z)) (b : buf) : buf :=
  set_flags (Z.lor (Z.land (b_flags b) (Z.lnot B_DIRTY)) B_VALID)
    (if (Z.land (b_flags b) B_DIRTY =? 0) && ok then set_data (default [] (d !! Z.to_nat (b_blockno b))) b else b).
Definition done_drive (d : list (list Z)) (b : buf) : list (list Z) :=
  if Z.land (b_flags b) B_DIRTY =? 0 then d else <[Z.to_nat (b_blockno b) := b_data b]> d.

(** The controller after it finished the command of [b]. *)
Lemma finish_run r c b : c_command c = Some (command_of b) -> length (c_drives c) = 2%nat ->
  let c' := ctl_finish r c in
  c_status c' = r /\ length (c_drives c') = 2%nat /\
  default [] (c_drives c' !! 1%nat) = done_drive (default [] (c_drives c !! 1%nat)) b /\
  c_command c' = if Z.land (b_flags b) B_DIRTY =? 0 then Some (Reading 1 (b_blockno b)) else None.
Proof.
  intros Hc Hl. unfold ctl_finish, done_drive, command_of in *. cbn [c_command]. rewrite Hc.
  destruct (Z.land (b_flags b) B_DIRTY =? 0); cbn [c_status c_drives c_command]; [done|].
  rewrite length_insert. split_and!; try done. change (Z.to_nat 1) with 1%nat. by rewrite list_lookup_insert_eq by lia.
Qed.

(** The first part of [ideintr], up to the next request. *)
Lemma serve_run s i b ok : id_buf s !! i = Some b -> ready_status (c_status (id_ctl s)) ->
  (Z.land (c_status (id_ctl s)) (Z.lor IDE_DF IDE_ERR) =? 0) = ok ->
  (Z.land (b_flags b) B_DIRTY = 0 -> c_command (id_ctl s) = Some (Reading 1 (b_blockno b))) ->
  is_Some (drive1 s !! Z.to_nat (b_blockno b)) ->
  exists c, ide_serve i s = Ret (tt, Ide (<[i := done_buf ok (drive1 s) b]> (id_buf s)) (id_qnext s) (id_queue s) (id_disk1 s) c
                         (filter (fun p => p.2 <> i) (id_sleep s))) /\
    c_status c = c_status (id_ctl s) /\ c_drives c = c_drives (id_ctl s) /\
    (c_command c = c_command (id_ctl s) \/ c_command c = None).
Proof.
  intros Hb Hr Hok Hcmd [d Hd]. pose proof (lookup_lt_Some _ _ _ Hb) as Hlt. unfold ide_serve.
  unfold bind at 1, get_buf at 1. rewrite Hb. unfold done_buf.
  set (b1 := if (Z.land (b_flags b) B_DIRTY =? 0) && ok then set_data (default [] (drive1 s !! Z.to_nat (b_blockno b))) b else b).
  assert (Hfl : b_flags b1 = b_flags b) by (unfold b1; by destruct (_ && _)).
  assert (Hrd : exists c, (if Z.land (b_flags b) B_DIRTY =? 0 then
         let* r := idewait true in
         if 0 <=? r then let* d := insl in upd_buf i (set_data d) else ret tt
       else ret tt) s =
    Ret (tt, Ide (<[i := b1]> (id_buf s)) (id_qnext s) (id_queue s) (id_disk1 s) c (id_sleep s)) /\
    c_status c = c_status (id_ctl s) /\ c_drives c = c_drives (id_ctl s) /\ (c_command c = c_command (id_ctl s) \/ c_command c = None)).
  { unfold b1. destruct (Z.eqb_spec (Z.land (b_flags b) B_DIRTY) 0) as [Hz|Hz]; cbn [andb].
    2: { exists (id_ctl s). rewrite list_insert_id by done. split_and!; auto. by destruct s. }
    unfold bind at 1, idewait, bind at 1, gets. cbn [id_ctl]. rewrite Hr, Z.eqb_refl, Hok. cbn [negb andb].
    destruct ok; cbn [negb]; unfold ret.
    - change (0 <=? 0) with true. cbn iota. unfold bind, insl. cbn [id_ctl]. rewrite (Hcmd Hz). unfold ctl_sector. change (Z.to_nat 1) with 1%nat.
      unfold drive1 in *. destruct (c_drives (id_ctl s) !! 1%nat) as [l|]; [|done]. cbn in Hd |- *. rewrite Hd.
      unfold upd_buf. cbn [set_ctl id_buf]. rewrite Hb. eexists. split; [done|]. cbn. auto.
    - change (0 <=? -1) with false. cbn iota. exists (id_ctl s). rewrite list_insert_id by done. split_and!; auto. by destruct s. }
  destruct Hrd as (c & Hrun & Hs & Hdr & Hc). exists c. split; [|done]. unfold bind at 1. rewrite Hrun. unfold bind, upd_buf at 1. cbn [id_buf].
  rewrite list_lookup_insert_eq by done. cbn [id_buf]. unfold upd_buf. cbn [id_buf]. rewrite list_lookup_insert_eq by (by rewrite length_insert).
  unfold wake, modify. cbn [id_buf id_qnext id_queue id_disk1 id_ctl id_sleep]. rewrite !list_insert_insert_eq.
  assert (E : set_flags (Z.land (b_flags (set_flags (Z.lor (b_flags b1) B_VALID) b1)) (Z.lnot B_DIRTY))
      (set_flags (Z.lor (b_flags b1) B_VALID) b1) = set_flags (Z.lor (Z.land (b_flags b) (Z.lnot B_DIRTY)) B_VALID) b1).
  { unfold set_flags. cbn [b_flags b_dev b_blockno b_lock b_refcnt b_prev b_next b_data]. by rewrite Hfl, flags_done. }
  by rewrite E.
Qed.

Lemma filter_head (p : Z) (i : nat) (l : list (Z * nat)) : i ∉ (snd <$> l) -> filter (fun x => x.2 <> i) ((p, i) :: l) = l.
Proof.
  intros Hi. rewrite filter_cons_False by (intros H; by apply H). induction l as [|[p' j] l IH]; [done|].
  apply not_elem_of_cons in Hi as [Hne Hi]. rewrite filter_cons_True by (cbn in Hne |- *; congruence). by rewrite IH.
Qed.

(** An interrupt for the first request, with any status in which the controller is ready. *)
Lemma intr_run s r p i rest b : ide_ok s -> ready_status r -> id_sleep s = (p, i) :: rest -> id_buf s !! i = Some b ->
  exists s', ideintr (set_ctl (ctl_finish r (id_ctl s)) s) = Ret (tt, s') /\ ide_ok s' /\ id_sleep s' = rest /\
    id_buf s' = <[i := done_buf (Z.land r (Z.lor IDE_DF IDE_ERR) =? 0) (drive1 s) b]> (id_buf s) /\
    drive1 s' = done_drive (drive1 s) b.
Proof.
  intros H Hr Hs Hb. assert (Ew : waiting s = i :: (snd <$> rest)) by (unfold waiting; by rewrite Hs).
  pose proof (io_queue _ H) as Hq. pose proof (io_nodup _ H) as Hnd. rewrite Ew in Hq, Hnd. destruct Hq as (Hq & n & Hn & Hlk).
  apply NoDup_cons in Hnd as [Hni Hnd]. destruct (io_want _ H p i ltac:(rewrite Hs; by left)) as (b' & Hb' & Hw & Hh).
  rewrite Hb in Hb'. simplify_eq. destruct (io_cmd _ H i ltac:(by rewrite Ew)) as (b'' & Hb'' & Hcmd). rewrite Hb in Hb''. simplify_eq.
  rename b'' into b. destruct (finish_run r (id_ctl s) b Hcmd (io_drives _ H)) as (F1 & F2 & F3 & F4). set (c0 := ctl_finish r (id_ctl s)) in *.
  unfold ideintr. unfold bind at 1, gets at 1. cbn [set_ctl id_queue]. rewrite Hq. unfold bind at 1, get_qnext. cbn [set_ctl id_qnext]. rewrite Hn.
  unfold bind at 1, set_queue, modify. cbn [set_ctl id_buf id_qnext id_disk1 id_ctl id_sleep]. set (s1 := Ide (id_buf s) _ n _ c0 _).
  pose proof (wt_blockno _ Hw) as Hbn. assert (Hdl : length (drive1 s1) = 1000%nat).
  { unfold drive1. cbn [id_ctl s1]. rewrite F3. unfold done_drive. destruct (_ =? 0); rewrite ?length_insert; apply (io_disk _ H). }
  destruct (serve_run s1 i b (Z.land r (Z.lor IDE_DF IDE_ERR) =? 0)) as (c & Hsv & C1 & C2 & C3).
  { done. } { cbn. by rewrite F1. } { cbn. by rewrite F1. } { intros Hz. cbn. rewrite F4, Hz. done. } { apply lookup_lt_is_Some_2. lia. }
  unfold bind at 1. rewrite Hsv. unfold bind at 1, gets at 1. cbn [id_queue id_buf id_qnext id_disk1 id_sleep s1].
  rewrite Hs, filter_head by done. cbn [id_ctl s1] in C1, C2, C3.
  assert (Hdone : done_buf (Z.land r (Z.lor IDE_DF IDE_ERR) =? 0) (drive1 s1) b = done_buf (Z.land r (Z.lor IDE_DF IDE_ERR) =? 0) (drive1 s) b).
  { unfold done_buf. destruct (Z.land (b_flags b) B_DIRTY =? 0) eqn:Ez; [|done]. cbn [andb]. unfold drive1. cbn [id_ctl s1]. rewrite F3.
    unfold done_drive. by rewrite Ez. }
  rewrite Hdone. set (bufs := <[i := _]> (id_buf s)). set (s2 := Ide bufs (id_qnext s) n (id_disk1 s) c rest).
  assert (Hother : forall p j, (p, j) ∈ rest -> exists b, bufs !! j = Some b /\ wanted b /\ holdingsleep p (b_lock b) = true).
  { intros p' j Hj. unfold bufs. rewrite list_lookup_insert_ne; [apply (io_want _ H); rewrite Hs; by right|].
    intros ->. apply Hni. change j with (snd (p', j)). by apply list_elem_of_fmap_2. }
  assert (Hst : exists c', match n with Some _ => idestart n | None => ret tt end s2 = Ret (tt, set_ctl c' s2) /\
    c_status c' = r /\ c_drives c' = c_drives c0 /\
    (forall j, (snd <$> rest) !! 0%nat = Some j -> exists bj, bufs !! j = Some bj /\ c_command c' = Some (command_of bj)) /\
    (rest = [] -> c_command c' = c_command c0 \/ c_command c' = None)).
  { destruct rest as [|[p' j] rest'].
    - cbn in Hlk. subst n. exists c. split_and!; [done|by rewrite C1|done|done|done].
    - destruct Hlk as (-> & _). destruct (Hother p' j ltac:(by left)) as (bj & Hbj & Hwj & _).
      destruct (idestart_run s2 j bj Hbj Hwj) as (c' & E & Ec & Es & Ed); [cbn; by rewrite C1, F1|].
      exists c'. split; [done|]. split; [by rewrite Es; cbn; rewrite C1|]. split; [by rewrite Ed; cbn|]. split; [|done].
      intros j' [= <-]. by exists bj. }
  destruct Hst as (c' & Est & S1 & S2 & S3 & S4). eexists. split; [exact Est|]. cbn [set_ctl id_sleep id_buf s2]. split; [|split_and!; [done|done|]].
  - split; unfold waiting; cbn [set_ctl id_sleep id_buf id_qnext id_queue id_ctl id_disk1 s2]; try done.
    + unfold bufs. rewrite length_insert. apply H.
    + by rewrite S1.
    + by rewrite S2.
    + unfold drive1 in *. cbn [set_ctl id_ctl s1] in Hdl |- *. by rewrite S2.
    + intros drive lba d E%fmap_nil_inv. rewrite F4 in S4. specialize (S4 E). destruct (_ =? 0), S4 as [->| ->]; done.
    + apply H.
  - unfold drive1. cbn [set_ctl id_ctl]. by rewrite S2, F3.
Qed.
