(* ===== verification/IdeClaims.v ===== *)
(** [ide.c]: any interleaving of requests and interrupts. *)

From S2P Require Import Prelude Sleeplock Cache Bio Mkfs Ide IdeThm.

(** * Steps *)

(** The device interrupts with status [r]. *)
Definition device_intr (r : Z) : M ide unit := fun s => ideintr (set_ctl (ctl_finish r (id_ctl s)) s).

Definition with_buf (i : nat) (b : buf) (s : ide) : ide :=
  Ide (<[i := b]> (id_buf s)) (id_qnext s) (id_queue s) (id_disk1 s) (id_ctl s) (id_sleep s).

(** A process asks for a buffer that it has locked, the device interrupts, or the rest of
    the kernel changes a buffer for which no request waits. *)
Inductive ide_step : ide -> ide -> Prop :=
| step_rw pid i r s s' : may_call pid i s -> ide_rw pid i s = Ret (r, s') -> ide_step s s'
| step_intr r s s' : ready_status r -> device_intr r s = Ret (tt, s') -> ide_step s s'
| step_buf i b s : i ∉ waiting s -> ide_step s (with_buf i b s).

(** After [ideinit], with drive 1 of [FSSIZE] blocks present. *)
Definition ide_boot (s : ide) : Prop :=
  exists bufs nx c d0 d1, s = Ide bufs nx None true c [] /\ length nx = length bufs /\ ready_status (c_status c) /\
    c_command c = None /\ c_drives c = [d0; d1] /\ length d1 = Z.to_nat FSSIZE.

Lemma ide_boot_ok s : ide_boot s -> ide_ok s.
Proof.
  intros (bufs & nx & c & d0 & d1 & -> & Hl & Hr & Hc & Hd & Hd1).
  split; unfold drive1; cbn [id_ctl id_sleep id_buf id_qnext id_queue id_disk1]; rewrite ?Hd; try done.
  - constructor.
  - by intros p i Hp%elem_of_nil.
  - intros. congruence.
Qed.

(** An interrupt that no request waits for. *)
Lemma intr_idle s r : ide_ok s -> id_sleep s = [] ->
  device_intr r s = Ret (tt, set_ctl (ctl_finish r (id_ctl s)) s) /\ drive1 (set_ctl (ctl_finish r (id_ctl s)) s) = drive1 s /\
  (ready_status r -> ide_ok (set_ctl (ctl_finish r (id_ctl s)) s)).
Proof.
  intros H Hs. assert (Ew : waiting s = []) by (unfold waiting; by rewrite Hs). pose proof (io_queue _ H) as Hq. rewrite Ew in Hq.
  assert (Hf : c_drives (ctl_finish r (id_ctl s)) = c_drives (id_ctl s) /\ c_status (ctl_finish r (id_ctl s)) = r /\
    c_command (ctl_finish r (id_ctl s)) = c_command (id_ctl s)).
  { unfold ctl_finish. cbn [c_command]. destruct (c_command (id_ctl s)) as [[|drive lba o]|] eqn:E; [done| |done].
    by destruct (io_idle _ H drive lba o Ew). }
  destruct Hf as (F1 & F2 & F3). split; [|split].
  - unfold device_intr, ideintr, bind, gets. cbn [set_ctl id_queue]. by rewrite Hq.
  - unfold drive1. cbn. by rewrite F1.
  - intros Hr. destruct H. split; unfold waiting, drive1 in *; cbn [set_ctl id_ctl id_sleep id_buf id_qnext id_queue id_disk1]; try done; rewrite ?F1, ?F2, ?F3; try done.
Qed.

Lemma ide_step_ok s s' : ide_ok s -> ide_step s s' -> ide_ok s'.
Proof.
  intros H Hst. destruct Hst as [pid i r s s' Hc Hrun|r s s' Hr Hrun|i b s Hi].
  - destruct (ide_rw_run s pid i H Hc) as (s1 & E & Hok & _). rewrite E in Hrun. by simplify_eq.
  - destruct (id_sleep s) as [|[p i] rest] eqn:Hs.
    + destruct (intr_idle s r H Hs) as (E & _ & Hok). rewrite E in Hrun. simplify_eq. by apply Hok.
    + destruct (io_want _ H p i ltac:(rewrite Hs; by left)) as (b & Hb & _).
      destruct (intr_run s r p i rest b H Hr Hs Hb) as (s1 & E & Hok & _). unfold device_intr in Hrun. rewrite E in Hrun. by simplify_eq.
  - destruct H as [H1 H2 H3 H4 H5 H6 H7 H8 H9 H10].
    assert (Hb : forall j, j ∈ waiting s -> (<[i := b]> (id_buf s)) !! j = id_buf s !! j).
    { intros j Hj. apply list_lookup_insert_ne. intros ->. done. }
    split; cbn [with_buf id_buf id_qnext id_queue id_ctl id_sleep id_disk1]; try done.
    + by rewrite length_insert.
    + intros p j Hp. rewrite Hb; [by apply H4|]. change j with (snd (p, j)). by apply list_elem_of_fmap_2.
    + intros j Hj. destruct (H8 j Hj) as (bj & Hbj & Hc). exists bj. split; [|done]. rewrite Hb; [done|]. by eapply list_elem_of_lookup_2.
Qed.

Lemma ide_reachable_ok s : reachable ide_boot ide_step s -> ide_ok s.
Proof. apply reachable_invariant; [exact ide_boot_ok|]. intros s1 s2 H Hst. by eapply ide_step_ok. Qed.

(** * The properties *)

(** What memide.c does with a request that the driver has finished. *)
Lemma memide_done p i b bufs d h : bufs !! i = Some b -> wanted b -> holdingsleep p (b_lock b) = true -> length d = 1000%nat ->
  exists h', iderw p i (Bio bufs d h) = Ret (tt, Bio (<[i := done_buf true d b]> bufs) (done_drive d b) h').
Proof.
  intros Hb [Hfl Hdev Hbn] Hh Hd. pose proof (lookup_lt_Some _ _ _ Hb) as Hlt.
  unfold iderw, bind at 1, getb. cbn [bc_buf]. rewrite Hb, Hh, Hdev. cbn [negb].
  rewrite (proj2 (Z.eqb_neq _ _)) by done. cbn [Z.eqb Pos.eqb negb]. unfold bind at 1, gets. cbn [d_blocks]. rewrite Hd.
  rewrite (proj2 (Z.leb_gt _ _)) by lia. unfold done_buf, done_drive.
  destruct (Z.eqb_spec (Z.land (b_flags b) B_DIRTY) 0) as [Hz|Hz]; cbn [negb andb].
  - destruct (lookup_lt_is_Some_2 d (Z.to_nat (b_blockno b)) ltac:(lia)) as [v Hv]. rewrite Hv. cbn [default].
    exists h. unfold bind, updb. cbn [bc_buf]. rewrite Hb. cbn [bc_buf]. rewrite list_lookup_insert_eq by done.
    rewrite list_insert_insert_eq. rewrite (mask_clean _ Hz). done.
  - eexists. unfold bind, updb, modify. cbn [bc_buf d_blocks d_hist]. rewrite Hb. cbn [bc_buf d_blocks d_hist]. rewrite list_lookup_insert_eq by done.
    rewrite list_insert_insert_eq. done.
Qed.


Fixpoint device_intrs (rs : list Z) : M ide unit :=
  match rs with [] => ret tt | r :: rs => device_intr r ;;; device_intrs rs end.

Lemma intrs_serve rs : forall s pre p i post, ide_ok s -> Forall ready_status rs -> id_sleep s = pre ++ (p, i) :: post ->
  length rs = S (length pre) ->
  exists s' b, device_intrs rs s = Ret (tt, s') /\ ide_ok s' /\ id_sleep s' = post /\ id_buf s' !! i = Some b /\
    Z.land (b_flags b) (Z.lor B_VALID B_DIRTY) = B_VALID.
Proof.
  induction rs as [|r rs IH]; intros s pre p i post H Hr Hs Hl; [done|]. apply Forall_cons in Hr as [Hr0 Hr].
  cbn [device_intrs]. unfold bind, device_intr. destruct pre as [|[p0 i0] pre].
  - destruct rs; [|done]. cbn [app] in Hs. destruct (io_want _ H p i ltac:(rewrite Hs; by left)) as (b & Hb & _).
    destruct (intr_run s r p i post b H Hr0 Hs Hb) as (s' & -> & Hok & Hs' & Hb' & _). cbn [device_intrs].
    exists s'. eexists. split; [done|]. split; [done|]. split; [done|]. rewrite Hb'.
    rewrite list_lookup_insert_eq by (by eapply lookup_lt_Some). split; [done|]. apply flags_valid.
  - cbn [app] in Hs. destruct (io_want _ H p0 i0 ltac:(rewrite Hs; by left)) as (b & Hb & _).
    destruct (intr_run s r p0 i0 (pre ++ (p, i) :: post) b H Hr0 Hs Hb) as (s' & -> & Hok & Hs' & _).
    apply (IH s' pre p); try done. cbn in Hl. lia.
Qed.

(** C14. Requests are served in the order in which they were made: a process with [k]
    requests before it is still asleep after [k] interrupts, and after one more it is
    awake and its call of [iderw] returns; requests made in the meantime do not delay it.
    No wakeup is lost. *)
Theorem ide_serves_in_order s pre pid i post rs : reachable ide_boot ide_step s ->
  id_sleep s = pre ++ (pid, i) :: post -> Forall ready_status rs -> length rs = S (length pre) ->
  exists s', device_intrs rs s = Ret (tt, s') /\ id_sleep s' = post /\ ((pid, i) ∉ id_sleep s') /\
    iderw_wait pid i s' = Ret (true, s').
Proof.
  intros Hreach Hs Hr Hl. pose proof (ide_reachable_ok s Hreach) as H.
  destruct (intrs_serve rs s pre pid i post H Hr Hs Hl) as (s' & b & E & Hok & Hs' & Hb & Hv). exists s'. split_and!; [done|done| |].
  - rewrite Hs'. intros Hin. pose proof (io_nodup _ H) as Hnd. unfold waiting in Hnd. rewrite Hs, fmap_app in Hnd.
    apply NoDup_app in Hnd as (_ & _ & Hnd). apply NoDup_cons in Hnd as [Hni _]. apply Hni.
    change i with (snd (pid, i)) at 1. by apply list_elem_of_fmap_2.
  - unfold iderw_wait, bind, get_buf. by rewrite Hb, Hv.
Qed.

(** A read that the controller reports as failed marks the buffer valid without its data. *)
Lemma ide_read_error_marks_valid s r p i rest b : ide_ok s -> ready_status r -> Z.land r (Z.lor IDE_DF IDE_ERR) <> 0 ->
  id_sleep s = (p, i) :: rest -> id_buf s !! i = Some b -> Z.land (b_flags b) B_DIRTY = 0 ->
  exists s' b', device_intr r s = Ret (tt, s') /\ id_buf s' !! i = Some b' /\ b_data b' = b_data b /\
    Z.land (b_flags b') (Z.lor B_VALID B_DIRTY) = B_VALID.
Proof.
  intros H Hr He Hs Hb Hz. destruct (intr_run s r p i rest b H Hr Hs Hb) as (s' & E & _ & _ & Hb' & _).
  exists s'. eexists. split; [exact E|]. rewrite Hb', list_lookup_insert_eq by (by eapply lookup_lt_Some). split; [done|].
  unfold done_buf. rewrite (proj2 (Z.eqb_neq _ _) He), andb_false_r. split; [done|]. apply flags_valid.
Qed.

(** * A small machine *)

(** One buffer, locked by process 7, that is to be read from block 3. *)
Definition demo_buf : buf := Buf 0 1 3 (Sleeplock true 7) 1 0 0 [].
Definition demo_ide : ide :=
  Ide [demo_buf] [None] None true (Ctl 0 0 0 0 0 IDE_DRDY None [[]; replicate 1000 [0]]) [].

Lemma demo_ide_boot : ide_boot demo_ide.
Proof.
  exists [demo_buf], [None], (Ctl 0 0 0 0 0 IDE_DRDY None [[]; replicate 1000 [0]]), [], (replicate 1000 [0]).
  split_and!; done.
Qed.

Lemma demo_may_call : may_call 7 0 demo_ide.
Proof. split; [by intros ?%elem_of_nil|]. exists demo_buf. split; [done|]. split; [|done]. split; cbn; [discriminate|done|lia]. Qed.


Lemma ide_serves_in_order_witness : exists s s', reachable ide_boot ide_step s /\ id_sleep s = [(7, 0%nat)] /\
  device_intr IDE_DRDY s = Ret (tt, s') /\ iderw_wait 7 0 s' = Ret (true, s').
Proof.
  destruct (ide_rw_run demo_ide 7 0 (ide_boot_ok _ demo_ide_boot) demo_may_call) as (s & E & _ & _ & _ & Hs).
  assert (R : reachable ide_boot ide_step s) by exact (reach_step _ _ _ _ (reach_init _ _ _ demo_ide_boot) (step_rw 7 0 false _ _ demo_may_call E)).
  destruct (ide_serves_in_order s [] 7 0 [] [IDE_DRDY] R Hs ltac:(repeat constructor) eq_refl) as (s' & Ei & _ & _ & Hw).
  exists s, s'. split; [exact R|]. split; [exact Hs|]. split; [|exact Hw].
  cbn [device_intrs] in Ei. unfold bind in Ei. destruct (device_intr IDE_DRDY s) as [[[] s1]|e| | |]; try discriminate Ei. exact Ei.
Defined.
