(* ===== verification/Exec.v ===== *)
(** [exec.c]: replacing the program of a process.

    The state has the memory with its free pages, the fields of the process that [exec]
    sets, the page directory in CR3 and the calls made to the file system. [namei] and
    [readi] are parameters: for a path, the inode is given by what [readi] returns for an
    offset and a length ([None] for -1). [goto bad] is the function [bad]; a stage that
    jumps there returns [None]. *)

From S2P Require Import Prelude CString Mmu Kalloc Vm.

Definition ELF_MAGIC : Z := 0x464C457F.
Definition ELF_PROG_LOAD : Z := 1.
Definition MAXARG : nat := 32.

(** [struct elfhdr] and [struct proghdr] of elf.h, with the fields that are used. *)
Record elfhdr := Elfhdr { e_magic : Z; e_entry : Z; e_phoff : Z; e_phnum : Z }.
Definition elfhdr_size : Z := 52.
Definition elfhdr_of (d : list Z) : elfhdr := Elfhdr (getn 4 d 0) (getn 4 d 24) (getn 4 d 28) (getn 2 d 44).

Record proghdr := Proghdr { ph_type : Z; ph_off : Z; ph_vaddr : Z; ph_filesz : Z; ph_memsz : Z }.
Definition proghdr_size : Z := 32.
Definition proghdr_of (d : list Z) : proghdr :=
  Proghdr (getn 4 d 0) (getn 4 d 4) (getn 4 d 8) (getn 4 d 16) (getn 4 d 20).

Inductive fsop := Begin_op | End_op | Ilock | Iunlockput.

(** The process as [exec] sees it. *)
Record image := Image { x_pgdir : Z; x_sz : Z; x_eip : Z; x_esp : Z; x_name : list Z }.

Record xstate := X { x_km : kmem; x_proc : image; x_kstack : Z; x_cr3 : Z; x_fs : list fsop }.

Local Abbreviation XM := (M xstate).

Definition on_km {A} (m : M kmem A) : XM A := fun s =>
  match m (x_km s) with
  | Ret (a, km) => Ret (a, X km (x_proc s) (x_kstack s) (x_cr3 s) (x_fs s))
  | Panic e => Panic e
  | Block => Block
  | Fault => Fault
  | NoFuel => NoFuel
  end.

Definition fs (op : fsop) : XM unit :=
  modify (fun s => X (x_km s) (x_proc s) (x_kstack s) (x_cr3 s) (x_fs s ++ [op])).

(** The text after the last slash. *)
Fixpoint last_elem (last s : list Z) : list Z :=
  match s with
  | [] => last
  | c :: s => last_elem (if c =? 47 then s else last) s
  end.

Section exec.
Context (kend data : Z).
Context (namei : list Z -> option (Z -> Z -> option (list Z))).

Definition bad (pgdir : Z) (ip : bool) : XM Z :=
  (if pgdir =? 0 then ret tt else on_km (freevm kend pgdir)) ;;;
  (if ip then fs Iunlockput ;;; fs End_op else ret tt) ;;;
  ret (-1).

(** A whole structure read from the file. *)
Definition read_struct (readi : Z -> Z -> option (list Z)) (off size : Z) : option (list Z) :=
  d ← readi (u32 off) size; if Z.of_nat (length d) =? size then Some d else None.

(** One program header: the new size. *)
Definition load_seg (readi : Z -> Z -> option (list Z)) (ph : proghdr) (pgdir sz : Z) : XM (option Z) :=
  if negb (ph_type ph =? ELF_PROG_LOAD) then ret (Some sz)
  else if ph_memsz ph <? ph_filesz ph then ret None
  else if u32 (ph_vaddr ph + ph_memsz ph) <? ph_vaddr ph then ret None
  else
    let* sz := on_km (allocuvm kend pgdir sz (u32 (ph_vaddr ph + ph_memsz ph))) in
    if sz =? 0 then ret None
    else if negb (ph_vaddr ph mod PGSIZE =? 0) then ret None
    else
      let* r := on_km (loaduvm readi pgdir (ph_vaddr ph) (ph_off ph) (ph_filesz ph)) in
      if r <? 0 then ret None else ret (Some sz).

(** The loop over the program headers, [n] of them from [off] on. *)
Fixpoint load_segs (readi : Z -> Z -> option (list Z)) (n : nat) (off pgdir sz : Z) : XM (option Z) :=
  match n with
  | O => ret (Some sz)
  | S n =>
      match read_struct readi off proghdr_size with
      | None => ret None
      | Some d =>
          let* r := load_seg readi (proghdr_of d) pgdir sz in
          match r with
          | None => ret None
          | Some sz => load_segs readi n (s32 (off + proghdr_size)) pgdir sz
          end
      end
  end.

(** The loop over [argv]: the stack pointer and the addresses of the strings. *)
Fixpoint push_args (argv : list (list Z)) (argc : nat) (pgdir sp : Z) : XM (option (Z * list Z)) :=
  match argv with
  | [] => ret (Some (sp, []))
  | a :: argv =>
      if (MAXARG <=? argc)%nat then ret None
      else
        let sp := Z.land (u32 (sp - (Z.of_nat (length a) + 1))) (u32 (Z.lnot 3)) in
        let* r := on_km (copyout pgdir sp (a ++ [0])) in
        if r <? 0 then ret None
        else
          let* rest := push_args argv (S argc) pgdir sp in
          match rest with
          | None => ret None
          | Some (sp', ptrs) => ret (Some (sp', sp :: ptrs))
          end
  end.

(** The words below the strings: a return address, [argc], [argv] and its elements. *)
Definition ustack (sp : Z) (ptrs : list Z) : list Z :=
  let argc := Z.of_nat (length ptrs) in
  [0xffffffff; argc; u32 (sp - (argc + 1) * 4)] ++ ptrs ++ [0].

(** The stack below [sz]: the stack pointer. *)
Definition build_stack (argv : list (list Z)) (pgdir sz : Z) : XM (option Z) :=
  on_km (clearpteu pgdir (u32 (sz - 2 * PGSIZE))) ;;;
  let* r := push_args argv 0 pgdir sz in
  match r with
  | None => ret None
  | Some (sp, ptrs) =>
      let words := ustack sp ptrs in
      let sp := u32 (sp - (3 + Z.of_nat (length ptrs) + 1) * 4) in
      let* r := on_km (copyout pgdir sp (words ≫= le_bytes 4)) in
      if r <? 0 then ret None else ret (Some sp)
  end.

(** [switchuvm]: its checks and the page directory it loads. *)
Definition switchuvm : XM unit := fun s =>
  if x_kstack s =? 0 then Panic "switchuvm: no kstack"
  else if x_pgdir (x_proc s) =? 0 then Panic "switchuvm: no pgdir"
  else Ret (tt, X (x_km s) (x_proc s) (x_kstack s) (x_pgdir (x_proc s)) (x_fs s)).

(** The name and the new image. *)
Definition commit (path : list Z) (pgdir sz entry sp : Z) : XM Z :=
  let* old := gets x_proc in
  match Kernel.safestrcpy (x_name old) (last_elem path path ++ [0]) 16 with
  | None => fault
  | Some name =>
      modify (fun s => X (x_km s) (Image pgdir sz entry sp name) (x_kstack s) (x_cr3 s) (x_fs s)) ;;;
      switchuvm ;;;
      on_km (freevm kend (x_pgdir old)) ;;;
      ret 0
  end.

Definition exec (path : list Z) (argv : list (list Z)) : XM Z :=
  fs Begin_op ;;;
  match namei path with
  | None => fs End_op ;;; ret (-1)
  | Some readi =>
      fs Ilock ;;;
      match read_struct readi 0 elfhdr_size with
      | None => bad 0 true
      | Some d =>
          let elf := elfhdr_of d in
          if negb (e_magic elf =? ELF_MAGIC) then bad 0 true
          else
            let* pgdir := on_km (setupkvm kend data) in
            if pgdir =? 0 then bad 0 true
            else
              let* r := load_segs readi (Z.to_nat (e_phnum elf)) (s32 (e_phoff elf)) pgdir 0 in
              match r with
              | None => bad pgdir true
              | Some sz =>
                  fs Iunlockput ;;;
                  fs End_op ;;;
                  let sz := PGROUNDUP sz in
                  let* sz := on_km (allocuvm kend pgdir sz (u32 (sz + 2 * PGSIZE))) in
                  if sz =? 0 then bad pgdir false
                  else
                    let* r := build_stack argv pgdir sz in
                    match r with
                    | None => bad pgdir false
                    | Some sp => commit path pgdir sz (e_entry elf) sp
                    end
              end
      end
  end.

End exec.
