(* ===== verification/ExecThm.v ===== *)
(** The stages of [exec]: the image that an executable and its arguments describe, and that
    loading and pushing build it. *)

From stdpp Require Import gmap.
From S2P Require Import Prelude CString Mmu Kalloc Vm VmSpec VmThm VmCopy VmSpace VmSetup VmLoad Exec.

(** * The image of an executable *)

(** A structure of the file. *)
Definition struct_at (file : list Z) (off size : Z) : option (list Z) :=
  if Z.of_nat (length file) <? off + size then None else Some (slice file off size).

(** One program header over the memory so far: a size and its bytes. *)
Definition seg_image (file : list Z) (ph : proghdr) (sz : Z) (img : Z -> Z) : option (Z * (Z -> Z)) :=
  let top := ph_vaddr ph + ph_memsz ph in
  if negb (ph_type ph =? ELF_PROG_LOAD) then Some (sz, img)
  else if ph_memsz ph <? ph_filesz ph then None
  else if KERNBASE <=? top then None
  else if Z.max sz top =? 0 then None
  else if negb (ph_vaddr ph mod PGSIZE =? 0) then None
  else if (0 <? ph_filesz ph) && (Z.of_nat (length file) <? ph_off ph + ph_filesz ph) then None
  else Some (Z.max sz top,
             put_img (ph_vaddr ph) (slice file (ph_off ph) (ph_filesz ph))
               (if top <? sz then img else zero_above sz img)).

(** [n] program headers from [off] on. *)
Fixpoint segs_image (file : list Z) (n : nat) (off sz : Z) (img : Z -> Z) : option (Z * (Z -> Z)) :=
  match n with
  | O => Some (sz, img)
  | S n =>
      d ← struct_at file off proghdr_size;
      '(sz, img) ← seg_image file (proghdr_of d) sz img;
      segs_image file n (u32 (off + proghdr_size)) sz img
  end.

Lemma seg_image_mono file ph sz img sz' img' : seg_image file ph sz img = Some (sz', img') -> sz <= sz'.
Proof. unfold seg_image. intros H. repeat case_match; simplify_eq; lia. Qed.

Lemma segs_image_mono file n : forall off sz img sz' img',
  segs_image file n off sz img = Some (sz', img') -> sz <= sz'.
Proof.
  induction n as [|n IH]; intros off sz img sz' img' H; cbn [segs_image] in H; [by simplify_eq|].
  destruct (struct_at file off proghdr_size) as [d|]; [|done]. cbn in H.
  destruct (seg_image file (proghdr_of d) sz img) as [[sz1 img1]|] eqn:E; [|done]. cbn in H.
  apply seg_image_mono in E. apply IH in H. lia.
Qed.

(** The fields are unsigned words. *)
Lemma proghdr_range d : let ph := proghdr_of d in
  0 <= ph_off ph < 2 ^ 32 /\ 0 <= ph_vaddr ph < 2 ^ 32 /\ 0 <= ph_filesz ph < 2 ^ 32 /\ 0 <= ph_memsz ph < 2 ^ 32.
Proof. cbn. change (2 ^ 32) with (256 ^ Z.of_nat 4). split_and!; apply getn_range. Qed.

(** * Loading *)

Lemma wp_on_km {A} may (m : M kmem A) s Q :
  wp may m (x_km s) (fun a km => Q a (X km (x_proc s) (x_kstack s) (x_cr3 s) (x_fs s))) -> wp may (on_km m) s Q.
Proof. unfold wp, on_km. by destruct (m (x_km s)) as [[a km]| | | |]. Qed.

Definition with_km (s : xstate) (km : kmem) : xstate := X km (x_proc s) (x_kstack s) (x_cr3 s) (x_fs s).

Section exec.
Context (kend : Z) (Hkend : 0 < kend < 2 ^ 32) (Hkern : KERNBASE < kend).
Local Abbreviation space_in := (space_in kend).
Context (K : Z -> Z) (HK : forall n, 0 <= n < UPAGES -> K n = 0).
Context (readi : Z -> Z -> option (list Z)) (file : list Z).
Context (Hreads : reads readi file) (Hfile : Z.of_nat (length file) < 2 ^ 31).

Lemma read_struct_at off size : 0 < size < 2 ^ 31 -> read_struct readi off size = struct_at file (u32 off) size.
Proof.
  intros Hs. unfold read_struct, struct_at. pose proof (u32_range off).
  rewrite (reads_at readi file) by (done || lia).
  destruct (Z.ltb_spec (Z.of_nat (length file)) (u32 off)) as [|Hge]; cbn.
  - by rewrite (proj2 (Z.ltb_lt _ _)) by lia.
  - pose proof (slice_length file (u32 off) size ltac:(lia) ltac:(lia)) as Hl.
    destruct (Z.eqb_spec (Z.of_nat (length (slice file (u32 off) size))) size),
      (Z.ltb_spec (Z.of_nat (length file)) (u32 off + size)); done || lia.
Qed.

(** A stage that fails leaves the space to be freed. *)
Definition stage_bad (P : list Z) (km0 : kmem) (s : xstate) (pgdir : Z) (s' : xstate) : Prop :=
  exists km' l' T' A', s' = with_km s km' /\ space_in P km0 km' l' pgdir T' A'.

Lemma wp_load_seg P km0 s l pgdir T A sz img d : space_in P km0 (x_km s) l pgdir T A ->
  sees K (x_km s) A sz img -> 0 <= sz < KERNBASE ->
  let ph := proghdr_of d in
  wp never (load_seg kend readi ph pgdir sz) s (fun r s' =>
    match r with
    | None => stage_bad P km0 s pgdir s' /\
        forall sz' img', seg_image file ph sz img = Some (sz', img') ->
          Z.of_nat (length l) < 2 * (pages sz' - pages sz) + 2
    | Some sz' => exists km' l' T' A' img', s' = with_km s km' /\ space_in P km0 km' l' pgdir T' A' /\
        sees K km' A' sz' img' /\ 0 <= sz' < KERNBASE /\ seg_image file ph sz img = Some (sz', img') /\
        Z.of_nat (length l) <= Z.of_nat (length l') + 2 * (pages sz' - pages sz) + 2
    end).
Proof.
  intros Sp Hsee Hsz ph. destruct (proghdr_range d) as (Ro & Rv & Rf & Rm). fold ph in Ro, Rv, Rf, Rm.
  assert (Hbad : stage_bad P km0 s pgdir s) by (exists (x_km s), l, T, A; split; [by destruct s|done]).
  unfold load_seg, seg_image. set (top := ph_vaddr ph + ph_memsz ph).
  destruct (Z.eqb_spec (ph_type ph) ELF_PROG_LOAD) as [_|_]; cbn [negb].
  2:{ apply wp_ret. exists (x_km s), l, T, A, img. split_and!; try done; [by destruct s|lia..]. }
  destruct (Z.ltb_spec (ph_memsz ph) (ph_filesz ph)); [by apply wp_ret|].
  destruct (Z.ltb_spec (u32 top) (ph_vaddr ph)) as [Hov|Hov].
  { apply wp_ret. split; [done|]. destruct (Z.leb_spec KERNBASE top) as [|Hlt]; [done|].
    unfold KERNBASE in Hlt. rewrite u32_small in Hov; unfold top in *; lia. }
  assert (Htop : u32 top = top).
  { apply u32_small. split; [unfold top; lia|]. destruct (Z.lt_ge_cases top (2 ^ 32)); [done|].
    exfalso. assert (u32 top = top - 2 ^ 32); [|unfold top in *; lia].
    unfold u32. rewrite <- (Z.mod_add top (-1)) by lia. apply Z.mod_small. unfold top in *. lia. }
  rewrite Htop. apply wp_bind, wp_on_km. eapply wp_mono;
    [apply (wp_grow_in kend Hkend Hkern K HK P km0 (x_km s) l pgdir T A sz top img Sp Hsee); unfold top; lia|].
  intros r km1 [(-> & (l1 & T1 & Sp1) & Hshort)|(-> & Hk & l1 & T1 & A1 & Sp1 & Hsee1 & Hroom)].
  - cbn [Z.eqb]. apply wp_ret. split; [by exists km1, l1, T1, A|]. intros sz' img' E.
    destruct (Z.leb_spec KERNBASE top); [done|]. destruct (Z.eqb_spec (Z.max sz top) 0) as [|Hm]; [done|].
    assert (sz' = Z.max sz top) as -> by (repeat case_match; by simplify_eq).
    pose proof (pages_mono top (Z.max sz top) ltac:(lia)). lia.
  - rewrite (proj2 (Z.leb_gt _ _)) by done. set (sz1 := Z.max sz top) in *.
    assert (Hbad1 : stage_bad P km0 s pgdir (with_km s km1)) by (by exists km1, l1, T1, A1).
    change (X km1 (x_proc s) (x_kstack s) (x_cr3 s) (x_fs s)) with (with_km s km1).
    destruct (Z.eqb_spec sz1 0) as [E0|E0]; [by apply wp_ret|].
    destruct (Z.eqb_spec (ph_vaddr ph mod PGSIZE) 0) as [Hal|Hal]; cbn [negb]; [|by apply wp_ret].
    assert (Hsz1 : 0 <= sz1 < KERNBASE) by (unfold sz1; lia).
    pose proof (pages_bounds sz1) as Hpb.
    apply wp_bind, wp_on_km. eapply wp_mono;
      [apply (wp_load_in kend Hkend K readi file P km0 km1 l1 pgdir T1 A1 sz1 (if top <? sz then img else zero_above sz img));
       try done; try lia; first [apply pages_kern; lia|unfold top, sz1 in *; lia]|].
    intros r km2 (Sp2 & Hr). rewrite !Z.add_0_r, Z.sub_0_r in Hr.
    change (X km2 (x_proc (with_km s km1)) (x_kstack (with_km s km1)) (x_cr3 (with_km s km1)) (x_fs (with_km s km1)))
      with (with_km s km2).
    destruct Hr as [(-> & Hfit & Hsee2)|(-> & Hf & Hshort & _)].
    + change (0 <? 0) with false. cbv iota. apply wp_ret.
      eexists km2, l1, T1, A1, _. split_and!; try done; try lia.
      destruct (Z.ltb_spec 0 (ph_filesz ph)), (Z.ltb_spec (Z.of_nat (length file)) (ph_off ph + ph_filesz ph)); simpl; done || lia.
    + change (-1 <? 0) with true. cbv iota. apply wp_ret. split; [by exists km2, l1, T1, A1|].
      rewrite (proj2 (Z.ltb_lt 0 _)), (proj2 (Z.ltb_lt (Z.of_nat _) _)) by lia. done.
Qed.

Lemma next_off off : u32 (s32 (off + proghdr_size)) = u32 (u32 off + proghdr_size).
Proof.
  rewrite u32_add_l. unfold s32. destruct (u32 (off + proghdr_size) <? 2 ^ 31); [by rewrite u32_u32|].
  rewrite u32_sub_l. unfold u32. rewrite <- (Z.mod_add (off + proghdr_size - 2 ^ 32) 1) by lia. f_equal. lia.
Qed.

Lemma stage_bad_with P km0 s km pgdir s' : stage_bad P km0 (with_km s km) pgdir s' -> stage_bad P km0 s pgdir s'.
Proof. done. Qed.

Lemma wp_load_segs P km0 pgdir n : forall off s l T A sz img, space_in P km0 (x_km s) l pgdir T A ->
  sees K (x_km s) A sz img -> 0 <= sz < KERNBASE ->
  wp never (load_segs kend readi n off pgdir sz) s (fun r s' =>
    match r with
    | None => stage_bad P km0 s pgdir s' /\
        forall sz' img', segs_image file n (u32 off) sz img = Some (sz', img') ->
          Z.of_nat (length l) < 2 * (pages sz' - pages sz) + 2 * Z.of_nat n
    | Some sz' => exists km' l' T' A' img', s' = with_km s km' /\ space_in P km0 km' l' pgdir T' A' /\
        sees K km' A' sz' img' /\ 0 <= sz' < KERNBASE /\ segs_image file n (u32 off) sz img = Some (sz', img') /\
        Z.of_nat (length l) <= Z.of_nat (length l') + 2 * (pages sz' - pages sz) + 2 * Z.of_nat n
    end).
Proof.
  induction n as [|n IH]; intros off s l T A sz img Sp Hsee Hsz; cbn [load_segs segs_image].
  { apply wp_ret. exists (x_km s), l, T, A, img. split_and!; try done; [by destruct s|lia..]. }
  rewrite read_struct_at by done.
  destruct (struct_at file (u32 off) proghdr_size) as [d|]; cbn [mbind option_bind].
  2:{ apply wp_ret. split; [|done]. exists (x_km s), l, T, A. split; [by destruct s|done]. }
  apply wp_bind. eapply wp_mono; [by apply (wp_load_seg P km0 s l pgdir T A sz img d)|].
  intros [sz1|] s1.
  - intros (km1 & l1 & T1 & A1 & img1 & -> & Sp1 & Hsee1 & Hsz1 & E & Hroom). rewrite E. cbn [mbind option_bind].
    eapply wp_mono; [by apply (IH (s32 (off + proghdr_size)) (with_km s km1) l1 T1 A1 sz1 img1)|].
    rewrite next_off. intros [sz2|] s2.
    + intros (km2 & l2 & T2 & A2 & img2 & -> & Sp2 & Hsee2 & Hsz2 & E2 & Hroom2).
      exists km2, l2, T2, A2, img2. split_and!; try done; lia.
    + intros [Hb Hshort]. split; [done|]. intros sz' img' E2. specialize (Hshort _ _ E2). lia.
  - intros [Hb Hshort]. apply wp_ret. split; [done|]. intros sz' img' E2.
    destruct (seg_image file (proghdr_of d) sz img) as [[sz1 img1]|] eqn:E; [|done]. cbn [mbind option_bind] in E2.
    apply segs_image_mono in E2. pose proof (pages_mono sz1 sz' E2). specialize (Hshort _ _ eq_refl). lia.
Qed.
End exec.

(** * The stack *)

(** A multiple of four. *)
Definition align4 (x : Z) : Z := x - x mod 4.

Lemma land_align4 x : 0 <= x < 2 ^ 32 -> Z.land x (u32 (Z.lnot 3)) = align4 x.
Proof.
  intros Hx. rewrite (land_high 2 x ltac:(lia) Hx : Z.land x (u32 (Z.lnot 3)) = _).
  unfold align4. pose proof (Z.div_mod x 4). change (2 ^ 2) with 4. lia.
Qed.

Lemma align4_bounds x : x - 3 <= align4 x <= x /\ align4 x mod 4 = 0.
Proof.
  unfold align4. pose proof (Z.mod_pos_bound x 4). split; [lia|].
  rewrite Zminus_mod, Z.mod_mod, Z.sub_diag by lia. done.
Qed.

Lemma align4_ge b x : b mod 4 = 0 -> b <= x -> b <= align4 x.
Proof.
  intros Hb Hx. destruct (align4_bounds x) as [H1 H2].
  pose proof (Z.div_mod b 4). pose proof (Z.div_mod (align4 x) 4). lia.
Qed.

(** The strings pushed below [sp]: the stack pointer, their addresses and the memory. *)
Fixpoint push_image (argv : list (list Z)) (sp : Z) (img : Z -> Z) : Z * list Z * (Z -> Z) :=
  match argv with
  | [] => (sp, [], img)
  | a :: argv =>
      let sp := align4 (sp - (Z.of_nat (length a) + 1)) in
      let '(sp', ptrs, img') := push_image argv sp (put_img sp (a ++ [0]) img) in
      (sp', sp :: ptrs, img')
  end.

(** The stack of a program of size [sz], when it fits the last page. *)
Definition stack_image (argv : list (list Z)) (sz : Z) (img : Z -> Z) : option (Z * (Z -> Z)) :=
  let '(sp, ptrs, img) := push_image argv sz img in
  let bottom := sp - (4 + Z.of_nat (length argv)) * 4 in
  if (MAXARG <? length argv)%nat || (bottom <? sz - PGSIZE) then None
  else Some (bottom, put_img bottom (ustack sp ptrs ≫= le_bytes 4) img).

Lemma push_image_facts argv : forall sp img sp' ptrs img',
  push_image argv sp img = (sp', ptrs, img') -> sp' <= sp /\ length ptrs = length argv.
Proof.
  induction argv as [|a argv IH]; intros sp img sp' ptrs img' H; cbn [push_image] in H; [simplify_eq; cbn; lia|].
  set (sp1 := align4 _) in *. destruct (push_image argv sp1 _) as [[sp2 ps] img2] eqn:E. simplify_eq.
  destruct (IH _ _ _ _ _ E) as [H1 H2]. cbn [length]. destruct (align4_bounds (sp - (Z.of_nat (length a) + 1))). lia.
Qed.

Section stack.
Context (kend : Z) (Hkend : 0 < kend < 2 ^ 32) (Hkern : KERNBASE < kend).
Local Abbreviation space_in := (space_in kend).
Local Abbreviation stage_bad := (stage_bad kend).

Context (K : Z -> Z).

(** The last two pages of a program of [N] pages. *)
Context (N : Z) (HN : 2 <= N <= UPAGES).
Local Abbreviation sz := (PGSIZE * N).

Lemma pages_top : pages sz = N.
Proof.
  unfold pages. replace (sz + PGSIZE - 1) with (PGSIZE - 1 + N * PGSIZE) by lia.
  rewrite Z.div_add by done. done.
Qed.

(** A write below [sz] that starts at most a page below the stack page: it fails exactly
    when it touches the guard page. *)
Lemma wp_stack_write P km0 s l pgdir T A img va b : space_in P km0 (x_km s) l pgdir T A ->
  sees_guard K (x_km s) A sz (N - 2) img -> sz - 2 * PGSIZE <= va -> va + Z.of_nat (length b) <= sz ->
  (0 < length b)%nat ->
  wp never (on_km (copyout pgdir va b)) s (fun r s' =>
    if va <? sz - PGSIZE then r = -1 /\ stage_bad P km0 s pgdir s'
    else r = 0 /\ exists km', s' = with_km s km' /\ space_in P km0 km' l pgdir T A /\
      sees_guard K km' A sz (N - 2) (put_img va b img)).
Proof.
  intros Sp Hsee Hlo Hhi Hb. apply wp_on_km. pose proof pages_top as HP.
  eapply wp_mono; [apply (wp_copyout_in kend Hkend K P km0 (x_km s) l pgdir T A sz (N - 2) img va b Sp Hsee);
    rewrite ?HP; unfold PGSIZE in *; lia|].
  intros r km' (Sp' & Hr). change (X km' _ _ _ _) with (with_km s km').
  assert (Hpg : forall x, sz - 2 * PGSIZE <= x < sz - PGSIZE -> x / PGSIZE = N - 2).
  { intros x Hx. symmetry. apply Z.div_unique with (x - PGSIZE * (N - 2)); unfold PGSIZE in *; lia. }
  destruct (Z.ltb_spec va (sz - PGSIZE)) as [Hv|Hv].
  - destruct Hr as [(-> & Hng & _)|(-> & _)].
    + exfalso. apply (Hng va); [lia|]. apply Hpg. lia.
    + split; [done|]. by exists km', l, T, A.
  - destruct Hr as [(-> & _ & Hs)|(-> & x & Hx & Hg)].
    + split; [done|]. by exists km'.
    + exfalso. pose proof (Z.div_mod x PGSIZE ltac:(done)). pose proof (Z.mod_pos_bound x PGSIZE ltac:(done)).
      rewrite Hg in *. unfold PGSIZE in *. lia.
Qed.

Lemma wp_push_args P km0 pgdir l T A argv : forall argc sp s img, space_in P km0 (x_km s) l pgdir T A ->
  sees_guard K (x_km s) A sz (N - 2) img -> Forall (fun a => Z.of_nat (length a) < PGSIZE) argv ->
  (argc <= MAXARG)%nat -> sz - PGSIZE <= sp <= sz -> sp mod 4 = 0 ->
  wp never (push_args argv argc pgdir sp) s (fun r s' =>
    let '(sp', ptrs', img') := push_image argv sp img in
    match r with
    | None => stage_bad P km0 s pgdir s' /\ ((MAXARG < argc + length argv)%nat \/ sp' < sz - PGSIZE)
    | Some (sp1, ptrs) => sp1 = sp' /\ ptrs = ptrs' /\ (argc + length argv <= MAXARG)%nat /\ sz - PGSIZE <= sp' <= sz /\
        exists km', s' = with_km s km' /\ space_in P km0 km' l pgdir T A /\ sees_guard K km' A sz (N - 2) img'
    end).
Proof.
  induction argv as [|a argv IH]; intros argc sp s img Sp Hsee Hlen Hargc Hsp Hsp4; cbn [push_args push_image].
  { apply wp_ret. split_and!; try done; try (cbn [length]; lia). exists (x_km s). split; [by destruct s|done]. }
  apply Forall_cons in Hlen as [Ha Hlen]. cbn [length].
  set (sp1 := align4 (sp - (Z.of_nat (length a) + 1))).
  destruct (align4_bounds (sp - (Z.of_nat (length a) + 1))) as [B1 B2]. fold sp1 in B1, B2.
  assert (Hb : (sz - 2 * PGSIZE) mod 4 = 0).
  { replace (sz - 2 * PGSIZE) with ((N - 2) * 1024 * 4) by (unfold PGSIZE; lia). by apply Z.mod_mul. }
  pose proof (align4_ge (sz - 2 * PGSIZE) (sp - (Z.of_nat (length a) + 1)) Hb ltac:(unfold PGSIZE in *; lia)) as B3.
  fold sp1 in B3.
  destruct (push_image argv sp1 (put_img sp1 (a ++ [0]) img)) as [[sp2 ps] img2] eqn:E.
  destruct (push_image_facts _ _ _ _ _ _ E) as [Hle Hps].
  destruct (Nat.leb_spec MAXARG argc) as [Hmax|Hmax].
  { apply wp_ret. split; [|left; lia]. exists (x_km s), l, T, A. split; [by destruct s|done]. }
  rewrite u32_small by (change UPAGES with 524288 in HN; unfold PGSIZE in *; lia).
  rewrite land_align4 by (change UPAGES with 524288 in HN; unfold PGSIZE in *; lia). fold sp1. apply wp_bind.
  eapply wp_mono; [apply (wp_stack_write P km0 s l pgdir T A img sp1 (a ++ [0]) Sp Hsee); try done;
    rewrite length_app; cbn [length]; lia|].
  intros r s1. destruct (Z.ltb_spec sp1 (sz - PGSIZE)) as [Hlow|Hlow].
  - intros [-> Hbad]. change (-1 <? 0) with true. cbv iota. apply wp_ret. split; [done|]. right. lia.
  - intros (-> & km1 & -> & Sp1 & Hsee1). change (0 <? 0) with false. cbv iota. apply wp_bind.
    eapply wp_mono; [apply (IH (S argc) sp1 (with_km s km1) (put_img sp1 (a ++ [0]) img)); try done; lia|].
    rewrite E. intros [[sp3 ps3]|] s2.
    + intros (-> & -> & ? & ? & km2 & -> & Sp2 & Hsee2). apply wp_ret. split_and!; try done; try lia. by exists km2.
    + intros [Hbad Hr]. apply wp_ret. split; [done|]. destruct Hr; [left|right]; lia.
Qed.

Lemma ustack_bytes sp ptrs : length (ustack sp ptrs ≫= le_bytes 4) = (4 * (4 + length ptrs))%nat.
Proof.
  assert (H : forall l : list Z, length (l ≫= le_bytes 4) = (4 * length l)%nat).
  { induction l as [|w l IH]; [done|]. rewrite bind_cons, length_app, length_le_bytes, IH. cbn [length]. lia. }
  rewrite H. unfold ustack. rewrite !length_app. cbn [length]. lia.
Qed.

Lemma wp_build_stack P km0 pgdir l T A argv s img : space_in P km0 (x_km s) l pgdir T A ->
  sees K (x_km s) A sz img -> Forall (fun a => Z.of_nat (length a) < PGSIZE) argv ->
  wp never (build_stack argv pgdir sz) s (fun r s' =>
    match r with
    | None => stage_bad P km0 s pgdir s' /\ stack_image argv sz img = None
    | Some sp => exists km' A' img', s' = with_km s km' /\ space_in P km0 km' l pgdir T A' /\
        sees_guard K km' A' sz (N - 2) img' /\ stack_image argv sz img = Some (sp, img')
    end).
Proof.
  intros Sp Hsee Hlen. unfold build_stack. change UPAGES with 524288 in HN.
  rewrite u32_small by (unfold PGSIZE in *; lia). apply wp_bind, wp_on_km.
  eapply wp_mono; [apply (wp_guard_in kend Hkend K P km0 (x_km s) l pgdir T A sz img (sz - 2 * PGSIZE) Sp Hsee);
    rewrite ?pages_top; change UPAGES with 524288; unfold PGSIZE; lia|].
  intros _ km1 (A1 & Sp1 & Hsee1). change (X km1 _ _ _ _) with (with_km s km1).
  assert ((sz - 2 * PGSIZE) / PGSIZE = N - 2) as Hg.
  { replace (sz - 2 * PGSIZE) with (PGSIZE * (N - 2)) by lia. apply page_div. }
  rewrite Hg in Hsee1. apply wp_bind.
  eapply wp_mono; [apply (wp_push_args P km0 pgdir l T A1 argv 0 sz (with_km s km1) img); try done;
    [lia|unfold PGSIZE; lia|replace sz with (N * 1024 * 4) by (unfold PGSIZE; lia); by apply Z.mod_mul]|].
  unfold stack_image. intros r s2. destruct (push_image argv sz img) as [[sp ptrs] img2] eqn:E.
  destruct (push_image_facts _ _ _ _ _ _ E) as [Hle Hps].
  destruct r as [[sp' ptrs']|].
  2:{ intros [Hbad Hr]. apply wp_ret. split; [done|].
      destruct (Nat.ltb_spec MAXARG (length argv)); [done|]. cbn [orb].
      by rewrite (proj2 (Z.ltb_lt _ _)) by lia. }
  intros (-> & -> & Hmax & Hsp & km2 & -> & Sp2 & Hsee2).
  destruct (Nat.ltb_spec MAXARG (length argv)); [lia|]. cbn [orb]. unfold MAXARG in *.
  rewrite u32_small by (unfold PGSIZE in *; lia).
  replace (sp - (3 + Z.of_nat (length ptrs) + 1) * 4) with (sp - (4 + Z.of_nat (length argv)) * 4) by (rewrite Hps; lia).
  set (bottom := sp - (4 + Z.of_nat (length argv)) * 4). apply wp_bind.
  eapply wp_mono; [apply (wp_stack_write P km0 (with_km s km2) l pgdir T A1 img2 bottom _ Sp2 Hsee2);
    rewrite ?ustack_bytes, ?Hps; unfold bottom, PGSIZE in *; lia|].
  intros r s3. destruct (Z.ltb_spec bottom (sz - PGSIZE)) as [Hlow|Hlow].
  - intros [-> Hbad]. change (-1 <? 0) with true. cbv iota. by apply wp_ret.
  - intros (-> & km3 & -> & Sp3 & Hsee3). change (0 <? 0) with false. cbv iota. apply wp_ret.
    by eexists km3, A1, _.
Qed.
End stack.
