(* ===== verification/ExecClaims.v ===== *)
(** [exec] as a whole: the new image, the pages it uses and the calls it makes to the file
    system, on every path. *)

From stdpp Require Import gmap.
From S2P Require Import Prelude CString Mmu Kalloc Vm VmSpec VmThm VmCopy VmSpace VmSetup VmLoad Exec ExecThm.

(** The entry point, size, stack pointer and memory that an executable and its arguments
    describe. *)
Definition exec_image (file : list Z) (argv : list (list Z)) : option (Z * Z * Z * (Z -> Z)) :=
  d ← struct_at file 0 elfhdr_size;
  let elf := elfhdr_of d in
  if negb (e_magic elf =? ELF_MAGIC) then None
  else
    '(sz, img) ← segs_image file (Z.to_nat (e_phnum elf)) (e_phoff elf) 0 (fun _ => 0);
    let top := PGSIZE * (pages sz + 2) in
    if KERNBASE <=? top then None
    else
      '(sp, img) ← stack_image argv top (zero_above sz img);
      Some (e_entry elf, top, sp, img).

(** Free pages that are enough for it: the kernel part, the pages of the program with their
    tables, and the stack. *)
Definition exec_need (file : list Z) : Z :=
  match struct_at file 0 elfhdr_size with
  | Some d =>
      let elf := elfhdr_of d in
      match segs_image file (Z.to_nat (e_phnum elf)) (e_phoff elf) 0 (fun _ => 0) with
      | Some (sz, _) => KVM_PAGES + 2 * pages sz + 2 * e_phnum elf + 6
      | None => 0
      end
  | None => 0
  end.

Definition on_fs (s : xstate) (ops : list fsop) : xstate :=
  X (x_km s) (x_proc s) (x_kstack s) (x_cr3 s) (x_fs s ++ ops).

Section exec.
Context (kend data : Z) (Hkend : 0 < kend < 2 ^ 32) (Hkern : KERNBASE < kend).
Context (Hdata : KERNLINK < data < KERNBASE + PHYSTOP) (Hdatap : data mod PGSIZE = 0).
Local Abbreviation space_in := (space_in kend).
Local Abbreviation stage_bad := (stage_bad kend).
Local Abbreviation freed := (freed kend).
Local Abbreviation K := (kernel_map data).

(** [bad]: what was built is freed, and the inode and the transaction are released. *)
Lemma wp_bad_free s ip : wp never (bad kend 0 ip) s (fun r s' =>
    r = -1 /\ s' = on_fs s (if ip then [Iunlockput; End_op] else [])).
Proof.
  unfold bad. rewrite Z.eqb_refl. unfold wp, bind, ret, fs, modify, on_fs. destruct ip.
  - cbn [x_km x_proc x_kstack x_cr3 x_fs]. by rewrite <- (assoc_L (++)).
  - rewrite app_nil_r. by destruct s.
Qed.

Lemma wp_bad P km0 s pgdir ip s0 : stage_bad P km0 s0 pgdir s -> pgdir <> 0 ->
  wp never (bad kend pgdir ip) s (fun r s' => r = -1 /\ exists km', freed P km0 km' /\
    s' = on_fs (with_km s0 km') (if ip then [Iunlockput; End_op] else [])).
Proof.
  intros (km1 & l & T & A & -> & Sp) Hne. unfold bad. rewrite (proj2 (Z.eqb_neq _ _)) by done.
  apply wp_bind, wp_on_km. eapply wp_mono; [by apply (wp_freevm_in kend Hkend Hkern P km0 km1 l pgdir T A)|].
  intros u km2 F. unfold wp, bind, ret, fs, modify. destruct ip.
  - split; [done|]. exists km2. split; [done|]. unfold on_fs. cbn. by rewrite <- (assoc_L (++)).
  - split; [done|]. exists km2. split; [done|]. unfold on_fs. cbn. by rewrite app_nil_r.
Qed.

Lemma readable_nul n t : readable n (t ++ [0]) = true.
Proof.
  revert n. induction t as [|c t IH]; intros [|n]; try done. cbn [app readable].
  destruct (c =? 0); [done|]. apply IH.
Qed.

Lemma name_copied name path : length name = 16%nat ->
  exists name', Kernel.safestrcpy name (last_elem path path ++ [0]) 16 = Some name'.
Proof.
  intros Hl. destruct (safestrcpy_loop_Some 15 name (last_elem path path ++ [0]) ltac:(lia) (readable_nul _ _))
    as (name' & H & _). by exists name'.
Qed.

Lemma space_in_good P km0 km l pgdir T A p : space_in P km0 km l pgdir T A -> p ∈ P -> good kend p.
Proof.
  intros [R U HP O] Hp. destruct (uspace_of kend _ _ _ _ _ R U) as (F & S & _).
  apply HP in Hp as [Hp|Hp]; [by eapply free_pages_good|by eapply holds_good].
Qed.

(** Writes to the pages of one space leave another alone. *)
Lemma sees_guard_only Q km km' pgdir T A sz g img : only Q (km_mem km) (km_mem km') ->
  (forall p, Q p -> good kend p /\ ~ holds pgdir T A p) -> uspace kend (km_mem km) pgdir T A ->
  pages sz <= UPAGES -> sees_guard K km A sz g img -> sees_guard K km' A sz g img.
Proof.
  intros O HQ S HN (H1 & H2). split; [|done]. intros x Hx. rewrite <- (H1 x Hx).
  eapply (ubyte_only kend Q); [exact O| |exact S|].
  - intros p Hp. destruct (HQ p Hp) as [? Hn]. split; [done|]. intros Hu. apply Hn. by right.
  - change UPAGES with 524288 in HN. unfold PGSIZE, KERNBASE in *. lia.
Qed.

(** The last step: the old space is freed after the new one is in use. *)
Lemma wp_commit_image P km0 s l pgdir T A sz entry sp path T0 A0 g img : space_in P km0 (x_km s) l pgdir T A ->
  sees_guard K (x_km s) A sz g img -> pages sz <= UPAGES ->
  uspace kend (km_mem km0) (x_pgdir (x_proc s)) T0 A0 -> (forall p, holds (x_pgdir (x_proc s)) T0 A0 p -> p ∉ P) ->
  x_kstack s <> 0 -> length (x_name (x_proc s)) = 16%nat ->
  wp never (commit kend path pgdir sz entry sp) s (fun r s' => r = 0 /\ exists l' name,
    x_proc s' = Image pgdir sz entry sp name /\ x_cr3 s' = pgdir /\ x_fs s' = x_fs s /\
    Kernel.safestrcpy (x_name (x_proc s)) (last_elem path path ++ [0]) 16 = Some name /\
    aspace kend (x_km s') l' pgdir T A /\ user_ok kend l' pgdir T A /\ sees_guard K (x_km s') A sz g img /\
    forall p, p ∈ P \/ holds (x_pgdir (x_proc s)) T0 A0 p <-> p ∈ l' \/ holds pgdir T A p).
Proof.
  intros Sp Hsee HN S0 Hdis Hks Hname. pose proof Sp as [R U HP O].
  destruct (uspace_of kend _ _ _ _ _ R U) as (F & S & Hh). set (pg0 := x_pgdir (x_proc s)) in *.
  assert (S0' : uspace kend (km_mem (x_km s)) pg0 T0 A0).
  { eapply uspace_only; [exact O| |exact S0]. intros p Hp. split; [by eapply space_in_good|]. intros Hx. by apply (Hdis p). }
  destruct (uspace_join kend (x_km s) l pg0 T0 A0 F S0') as [R0 U0].
  { intros p Hp Hl. apply (Hdis p Hp), HP. by left. }
  destruct (name_copied (x_name (x_proc s)) path Hname) as [name Hn].
  unfold commit. apply wp_bind, wp_gets. rewrite Hn. apply wp_bind. unfold wp at 1, modify.
  apply wp_bind. unfold wp at 1, switchuvm. cbn [x_km x_proc x_kstack x_cr3 x_fs x_pgdir].
  rewrite (proj2 (Z.eqb_neq _ _)) by done.
  destruct (good_range kend _ (us_dir _ _ _ _ _ S)) as (Hpg & _).
  rewrite (proj2 (Z.eqb_neq pgdir 0)) by (unfold KERNBASE in Hpg; lia). apply wp_bind, wp_on_km. cbn [x_km x_proc x_kstack x_cr3 x_fs].
  eapply wp_mono; [by apply (wp_freevm kend Hkend Hkern pg0 (x_km s) l T0 A0)|].
  intros u km' (l' & F' & Hl' & O'). apply wp_ret. split; [done|]. exists l', name. cbn [x_km x_proc x_kstack x_cr3 x_fs].
  assert (HQ : forall p, holds pg0 T0 A0 p -> good kend p /\ ~ holds pgdir T A p).
  { intros p Hp. split; [by eapply holds_good|]. intros Hx. apply (Hdis p Hp), HP. by right. }
  destruct (uspace_join kend km' l' pgdir T A F') as [R' U'].
  { eapply uspace_only; [exact O'|exact HQ|exact S]. }
  { intros p Hp. rewrite Hl'. intros [Hx|Hx]; [by apply (Hh p)|]. by apply (HQ p Hx). }
  split_and!; try done.
  - eapply sees_guard_only; [exact O'|exact HQ|done|done|done].
  - intros p. rewrite HP, Hl'. tauto.
Qed.

(** * The whole of exec *)

Definition ops : list fsop := [Begin_op; Ilock; Iunlockput; End_op].

(** The program was not replaced: every page taken is free again. *)
Definition exec_failed (P : list Z) (s s' : xstate) : Prop :=
  exists km', freed P (x_km s) km' /\ s' = on_fs (with_km s km') ops.

(** The program was replaced by the image of the file. *)
Definition exec_done (P : list Z) (T0 : gmap Z Z) (A0 : Z -> Z) (path file : list Z) (argv : list (list Z))
    (s s' : xstate) : Prop :=
  exists entry sz sp img l T A pgdir name,
    exec_image file argv = Some (entry, sz, sp, img) /\
    x_proc s' = Image pgdir sz entry sp name /\ x_cr3 s' = pgdir /\ x_fs s' = x_fs s ++ ops /\
    Kernel.safestrcpy (x_name (x_proc s)) (last_elem path path ++ [0]) 16 = Some name /\
    aspace kend (x_km s') l pgdir T A /\ user_ok kend l pgdir T A /\
    sees_guard K (x_km s') A sz (sz / PGSIZE - 2) img /\
    forall p, p ∈ P \/ holds (x_pgdir (x_proc s)) T0 A0 p <-> p ∈ l \/ holds pgdir T A p.

Lemma fs_run (op : fsop) {B} (k : M xstate B) s Q :
  wp never k (on_fs s [op]) Q -> wp never (fs op ;;; k) s Q.
Proof. done. Qed.

Lemma on_fs_app s a b : on_fs (on_fs s a) b = on_fs s (a ++ b).
Proof. unfold on_fs. cbn. by rewrite <- (assoc_L (++)). Qed.

(** The stages after the program is loaded. *)
Definition exec_tail (path : list Z) (argv : list (list Z)) (pgdir entry sz : Z) : M xstate Z :=
  let sz := PGROUNDUP sz in
  let* sz := on_km (allocuvm kend pgdir sz (u32 (sz + 2 * PGSIZE))) in
  if sz =? 0 then bad kend pgdir false
  else
    let* r := build_stack argv pgdir sz in
    match r with
    | None => bad kend pgdir false
    | Some sp => commit kend path pgdir sz entry sp
    end.

Lemma wp_exec_tail P s km1 l pgdir T A sz img path argv entry T0 A0 : pgdir <> 0 ->
  space_in P (x_km s) km1 l pgdir T A -> sees K km1 A sz img -> 0 <= sz < KERNBASE ->
  uspace kend (km_mem (x_km s)) (x_pgdir (x_proc s)) T0 A0 ->
  (forall p, holds (x_pgdir (x_proc s)) T0 A0 p -> p ∉ P) ->
  x_kstack s <> 0 -> length (x_name (x_proc s)) = 16%nat ->
  Forall (fun a => Z.of_nat (length a) < PGSIZE) argv ->
  let top := PGSIZE * (pages sz + 2) in
  wp never (exec_tail path argv pgdir entry sz) (on_fs (with_km s km1) ops) (fun r s' =>
    r = -1 /\ exec_failed P s s' /\
      (KERNBASE <= top \/ Z.of_nat (length l) < 6 \/ stack_image argv top (zero_above sz img) = None) \/
    r = 0 /\ top < KERNBASE /\ exists sp img' l' T' A' name,
      stack_image argv top (zero_above sz img) = Some (sp, img') /\
      x_proc s' = Image pgdir top entry sp name /\ x_cr3 s' = pgdir /\ x_fs s' = x_fs s ++ ops /\
      Kernel.safestrcpy (x_name (x_proc s)) (last_elem path path ++ [0]) 16 = Some name /\
      aspace kend (x_km s') l' pgdir T' A' /\ user_ok kend l' pgdir T' A' /\
      sees_guard K (x_km s') A' top (pages sz) img' /\
      forall p, p ∈ P \/ holds (x_pgdir (x_proc s)) T0 A0 p <-> p ∈ l' \/ holds pgdir T' A' p).
Proof.
  intros Hne Sp Hsee Hsz S0 Hdis Hks Hname Hargv top. unfold exec_tail.
  set (s1 := on_fs (with_km s km1) ops).
  assert (Hbad : forall s2, stage_bad P (x_km s) s1 pgdir s2 ->
    wp never (bad kend pgdir false) s2 (fun r s' => r = -1 /\ exec_failed P s s')).
  { intros s2 Hb. eapply wp_mono; [by eapply wp_bad|]. intros r s' (-> & km' & F & ->). split; [done|].
    exists km'. split; [done|]. unfold on_fs. cbn. by rewrite app_nil_r. }
  assert (HP0 : 0 <= pages sz) by (unfold pages; apply Z.div_pos; unfold PGSIZE; lia).
  pose proof (pages_kern sz ltac:(lia)) as HPU. change UPAGES with 524288 in HPU.
  rewrite PGROUNDUP_pages by lia. rewrite u32_small by (unfold PGSIZE; lia).
  replace (PGSIZE * pages sz + 2 * PGSIZE) with top by (unfold top; lia).
  assert (Hsee' : sees K km1 A (PGSIZE * pages sz) img).
  { unfold sees. by rewrite pages_top. }
  apply wp_bind, wp_on_km. cbn [x_km s1 on_fs with_km].
  eapply wp_mono; [apply (wp_grow_in kend Hkend Hkern K (kernel_map_user data Hdata Hdatap) P (x_km s) km1 l pgdir T A _ top img Sp Hsee');
    unfold top, PGSIZE; lia|].
  rewrite Z.max_r by (unfold top, PGSIZE; lia).
  assert (Hpt : pages top = pages sz + 2) by (unfold top; apply pages_top). rewrite Hpt, pages_top.
  intros r km2 [(-> & (l2 & T2 & Sp2) & Hwhy)|(-> & Hk & l2 & T2 & A2 & Sp2 & Hsee2 & Hroom)].
  - rewrite Z.eqb_refl. eapply wp_mono; [apply Hbad; by exists km2, l2, T2, A|].
    intros r s' (-> & Hf). left. split; [done|]. split; [done|].
    destruct Hwhy as [?|[E|?]]; [by left|unfold top, PGSIZE in E; lia|right; left; lia].
  - rewrite (proj2 (Z.eqb_neq top 0)) by (unfold top, PGSIZE; lia).
    rewrite (proj2 (Z.ltb_ge top _)) in Hsee2 by (unfold top, PGSIZE; lia).
    assert (Hz : zero_above (PGSIZE * pages sz) img = zero_above sz img) by (unfold zero_above; by rewrite pages_top).
    rewrite Hz in Hsee2. apply wp_bind.
    assert (HN : 2 <= pages sz + 2 <= UPAGES).
    { change UPAGES with 524288. unfold top, PGSIZE, KERNBASE in *. lia. }
    eapply wp_mono; [apply (wp_build_stack kend Hkend K (pages sz + 2) HN P (x_km s) pgdir l2 T2 A2 argv
      (with_km s1 km2) (zero_above sz img)); done|].
    intros [sp|] s2.
    + intros (km3 & A3 & img3 & -> & Sp3 & Hsee3 & E). fold top in Hsee3, E.
      replace (pages sz + 2 - 2) with (pages sz) in Hsee3 by lia.
      eapply wp_mono; [apply (wp_commit_image P (x_km s) (with_km s1 km3) l2 pgdir T2 A3 top entry sp path T0 A0 (pages sz) img3); try done; lia|].
      intros r s' (-> & l' & name & H1 & H2 & H3 & H4 & H5 & H6 & H7 & H8). right. split; [done|]. split; [done|].
      exists sp, img3, l', T2, A3, name. split_and!; try done.
    + intros [Hb E]. eapply wp_mono; [apply Hbad; exact Hb|]. intros r s' (-> & Hf). left.
      split; [done|]. split; [done|]. by right; right.
Qed.

Context (namei : list Z -> option (Z -> Z -> option (list Z))).

Lemma exec_phoff d : u32 (s32 (e_phoff (elfhdr_of d))) = e_phoff (elfhdr_of d).
Proof.
  assert (0 <= e_phoff (elfhdr_of d) < 2 ^ 32) as H by apply (getn_range 4).
  unfold s32. rewrite (u32_small _ H). destruct (_ <? _); [by apply u32_small|].
  unfold u32. rewrite <- (Z.mod_add _ 1) by lia. rewrite Z.mod_small; lia.
Qed.

Lemma wp_exec P s T0 A0 path argv readi file : free_pages kend (x_km s) P ->
  uspace kend (km_mem (x_km s)) (x_pgdir (x_proc s)) T0 A0 ->
  (forall p, holds (x_pgdir (x_proc s)) T0 A0 p -> p ∉ P) ->
  x_kstack s <> 0 -> length (x_name (x_proc s)) = 16%nat ->
  Forall (fun a => Z.of_nat (length a) < PGSIZE) argv ->
  namei path = Some readi -> reads readi file -> Z.of_nat (length file) < 2 ^ 31 ->
  wp never (exec kend data namei path argv) s (fun r s' =>
    r = -1 /\ exec_failed P s s' /\ (exec_image file argv = None \/ Z.of_nat (length P) < exec_need file) \/
    r = 0 /\ exec_done P T0 A0 path file argv s s').
Proof.
  intros F S0 Hdis Hks Hname Hargv Hnamei Hr Hfile. unfold exec. apply fs_run. rewrite Hnamei. apply fs_run.
  rewrite on_fs_app. cbn [app]. set (s1 := on_fs s [Begin_op; Ilock]).
  assert (Hbad0 : wp never (bad kend 0 true) s1 (fun r s' => r = -1 /\ exec_failed P s s')).
  { eapply wp_mono; [apply wp_bad_free|]. intros r s' [-> ->]. split; [done|]. exists (x_km s).
    split; [by apply freed_refl|]. unfold s1. rewrite on_fs_app. by destruct s. }
  rewrite (read_struct_at readi file Hr Hfile) by done. change (u32 0) with 0. unfold exec_image, exec_need.
  destruct (struct_at file 0 elfhdr_size) as [d|] eqn:Es; cbn [mbind option_bind].
  2:{ eapply wp_mono; [exact Hbad0|]. intros r s' [-> Hf]. left. split_and!; try done. by left. }
  destruct (e_magic (elfhdr_of d) =? ELF_MAGIC) eqn:Em; cbn [negb].
  2:{ eapply wp_mono; [exact Hbad0|]. intros r s' [-> Hf]. left. split_and!; try done. by left. }
  apply wp_bind, wp_on_km. eapply wp_mono; [by apply (wp_setupkvm kend data Hkend Hkern Hdata Hdatap P (x_km s))|].
  intros pgdir km1 [(-> & Hf & Hshort)|(Hne & l & T & Sp & Hroom)].
  - rewrite Z.eqb_refl. eapply wp_mono; [apply wp_bad_free|]. intros r s' [-> ->]. left. split; [done|]. split.
    + exists km1. split; [done|]. unfold s1, on_fs, with_km. cbn. by rewrite <- (assoc_L (++)).
    + destruct (segs_image _ _ _ _ _) as [[sz img]|] eqn:E; [right|by left].
      apply segs_image_mono in E. pose proof (pages_mono 0 sz E). change (pages 0) with 0 in *.
      assert (0 <= e_phnum (elfhdr_of d)) by apply (getn_range 2). lia.
  - rewrite (proj2 (Z.eqb_neq _ _)) by done. change (X km1 _ _ _ _) with (with_km s1 km1). apply wp_bind.
    assert (Hnum : Z.of_nat (Z.to_nat (e_phnum (elfhdr_of d))) = e_phnum (elfhdr_of d)).
    { apply Z2Nat.id. apply (getn_range 2). }
    eapply wp_mono; [apply (wp_load_segs kend Hkend Hkern K (kernel_map_user data Hdata Hdatap) readi file Hr Hfile
      P (x_km s) pgdir _ _ (with_km s1 km1) l T K 0 (fun _ => 0) Sp); [|done]|].
    { split; [intros x Hx; change (pages 0) with 0 in Hx; lia|done]. }
    rewrite exec_phoff, Hnum. change (pages 0) with 0. intros [sz|] s2.
    + intros (km2 & l2 & T2 & A2 & img & -> & Sp2 & Hsee2 & Hsz & E & Hroom2). rewrite E. cbn [mbind option_bind].
      apply fs_run, fs_run. rewrite !on_fs_app. unfold s1.
      change (wp never (exec_tail path argv pgdir (e_entry (elfhdr_of d)) sz) (on_fs (on_fs (with_km s km2) [Begin_op; Ilock]) ([Iunlockput] ++ [End_op]))
        (fun r s' => r = -1 /\ exec_failed P s s' /\
           ((if KERNBASE <=? PGSIZE * (pages sz + 2) then None
             else '(sp, img0) ← stack_image argv (PGSIZE * (pages sz + 2)) (zero_above sz img);
                  Some (e_entry (elfhdr_of d), PGSIZE * (pages sz + 2), sp, img0)) = None \/
            Z.of_nat (length P) < KVM_PAGES + 2 * pages sz + 2 * e_phnum (elfhdr_of d) + 6) \/
         r = 0 /\ exec_done P T0 A0 path file argv s s')).
      rewrite on_fs_app. cbn [app].
      eapply wp_mono; [by apply (wp_exec_tail P s km2 l2 pgdir T2 A2 sz img path argv _ T0 A0)|].
      intros r s' [(-> & Hf & Hwhy)|(-> & Hk & sp & img' & l' & T' & A' & name & E' & H1 & H2 & H3 & H4 & H5 & H6 & H7 & H8)].
      * left. split; [done|]. split; [done|]. destruct Hwhy as [Hk|[Hl|En]].
        -- left. by rewrite (proj2 (Z.leb_le _ _)).
        -- right. lia.
        -- left. rewrite En. by destruct (_ <=? _).
      * right. split; [done|]. eexists (e_entry (elfhdr_of d)), _, sp, img', l', T', A', pgdir, name.
        split_and!; try done.
        -- unfold exec_image. rewrite Es. cbn [mbind option_bind]. rewrite Em. cbn [negb]. rewrite E. cbn [mbind option_bind].
           rewrite (proj2 (Z.leb_gt _ _)) by done. by rewrite E'.
        -- rewrite page_div. by replace (pages sz + 2 - 2) with (pages sz) by lia.
    + intros [Hb Hshort]. eapply wp_mono; [by eapply wp_bad|]. intros r s' (-> & km' & Hf & ->). left. split; [done|]. split.
      * exists km'. split; [done|]. unfold s1, on_fs, with_km. cbn. by rewrite <- (assoc_L (++)).
      * destruct (segs_image _ _ _ _ _) as [[sz img]|] eqn:E; [right|by left]. specialize (Hshort _ _ eq_refl). lia.
Qed.

End exec.
