(* ===== verification/Dcc.v ===== *)
(** [dcc.c]: the compiler that runs under the system.

    The state has the text from [src_ptr] on, the current token with [token_string] and
    [token_value], and the bytes in [code_buf]. A message followed by [exit()] is the
    outcome [Panic]; an access outside [token_string], [name], [code_buf] or the source is
    the outcome [Fault]. *)

From S2P Require Import Prelude CString.

Inductive token :=
| TOKEN_EOF | TOKEN_INT | TOKEN_NAME | TOKEN_NUM | TOKEN_STRING | TOKEN_LBRACE | TOKEN_RBRACE
| TOKEN_LPAREN | TOKEN_RPAREN | TOKEN_SEMICOLON | TOKEN_COMMA.

#[export] Instance token_eq_dec : EqDecision token.
Proof. solve_decision. Defined.

(** [token_string] is the text before its NUL. *)
Record dcc := Dcc { d_src : list Z; d_tok : token; d_str : list Z; d_val : Z; d_code : list Z }.

Local Abbreviation D := (M dcc).

Definition CODE_BUF : nat := 512.
Definition TOKEN_STRING_SIZE : nat := 128.
Definition NAME_SIZE : nat := 64.

Definition emit (b : Z) : D unit := fun s =>
  if (length (d_code s) <? CODE_BUF)%nat then
    Ret (tt, Dcc (d_src s) (d_tok s) (d_str s) (d_val s) (d_code s ++ [u8 b]))
  else Fault.

Definition emit_int (i : Z) : D unit :=
  emit (Z.land i 0xFF) ;;;
  emit (Z.land (Z.shiftr i 8) 0xFF) ;;;
  emit (Z.land (Z.shiftr i 16) 0xFF) ;;;
  emit (Z.land (Z.shiftr i 24) 0xFF).

(** * Tokens *)

Definition is_space (c : Z) : bool := (c =? 32) || (c =? 9) || (c =? 10) || (c =? 13).
Definition is_letter (c : Z) : bool := (97 <=? c) && (c <=? 122) || (65 <=? c) && (c <=? 90).
Definition is_digit (c : Z) : bool := (48 <=? c) && (c <=? 57).

Fixpoint skip_spaces (l : list Z) : option (list Z) :=
  match l with
  | [] => None
  | c :: r => if is_space c then skip_spaces r else Some l
  end.

(** The text of a string literal, and the source from its end on. *)
Fixpoint lex_string (l : list Z) : option (list Z * list Z) :=
  match l with
  | [] => None
  | c :: r =>
      if (c =? 34) || (c =? 0) then Some ([], l)
      else
        match r with
        | [] => None
        | c' :: r' =>
            if (c =? 92) && (c' =? 110) then '(t, e) ← lex_string r'; Some (10 :: t, e)
            else '(t, e) ← lex_string r; Some (c :: t, e)
        end
  end.

(** The letters and digits at the start. *)
Fixpoint lex_word (l : list Z) : option (list Z * list Z) :=
  match l with
  | [] => None
  | c :: r => if is_letter c || is_digit c then '(t, e) ← lex_word r; Some (c :: t, e) else Some ([], l)
  end.

(** The value of the digits at the start, [v] being the value so far. *)
Fixpoint lex_num (v : Z) (l : list Z) : option (Z * list Z) :=
  match l with
  | [] => None
  | c :: r => if is_digit c then lex_num (s32 (v * 10 + (c - 48))) r else Some (v, l)
  end.

Definition set_token (src : list Z) (t : token) : D unit :=
  modify (fun s => Dcc src t (d_str s) (d_val s) (d_code s)).
Definition set_word (src : list Z) (t : token) (w : list Z) : D unit := fun s =>
  if (length w <? TOKEN_STRING_SIZE)%nat then Ret (tt, Dcc src t w (d_val s) (d_code s)) else Fault.
Definition set_num (src : list Z) (v : Z) : D unit :=
  modify (fun s => Dcc src TOKEN_NUM (d_str s) v (d_code s)).

(** ["int"] *)
Definition kw_int : list Z := [105; 110; 116].

Definition next_token : D unit :=
  let* src := gets d_src in
  match skip_spaces src with
  | None => fault
  | Some [] => fault
  | Some (c :: r) =>
      if c =? 0 then set_token (c :: r) TOKEN_EOF
      else if c =? 123 then set_token r TOKEN_LBRACE
      else if c =? 125 then set_token r TOKEN_RBRACE
      else if c =? 40 then set_token r TOKEN_LPAREN
      else if c =? 41 then set_token r TOKEN_RPAREN
      else if c =? 59 then set_token r TOKEN_SEMICOLON
      else if c =? 44 then set_token r TOKEN_COMMA
      else if c =? 34 then
        match lex_string r with
        | None => fault
        | Some (t, e) =>
            let e := match e with c' :: e' => if c' =? 34 then e' else e | [] => e end in
            set_word e TOKEN_STRING t
        end
      else if is_letter c then
        match lex_word (c :: r) with
        | None => fault
        | Some (t, e) => set_word e (if bool_decide (t = kw_int) then TOKEN_INT else TOKEN_NAME) t
        end
      else if is_digit c then
        match lex_num 0 (c :: r) with
        | None => fault
        | Some (v, e) => set_num e v
        end
      else panic "dcc: Lexer error"
  end.

Definition match_tok (expected : token) : D unit :=
  let* t := gets d_tok in
  if bool_decide (t = expected) then next_token else panic "dcc: Syntax Error".

(** * Statements *)

(** The block that calls [exit]. *)
Definition emit_exit : D unit := emit 0xB8 ;;; emit_int 2 ;;; emit 0xCD ;;; emit 0x40.

(** ["reboot"], ["exit"] and ["main"] *)
Definition kw_reboot : list Z := [114; 101; 98; 111; 111; 116].
Definition kw_exit : list Z := [101; 120; 105; 116].
Definition kw_main : list Z := [109; 97; 105; 110].

Definition compile_statement : D unit :=
  let* t := gets d_tok in
  if bool_decide (t = TOKEN_NAME) then
    let* name := gets d_str in
    if (NAME_SIZE <=? length name)%nat then fault
    else
      next_token ;;;
      match_tok TOKEN_LPAREN ;;;
      (if bool_decide (name = kw_reboot) then
         let* arg := gets d_val in
         next_token ;;;
         emit 0x6A ;;;
         emit arg ;;;
         emit 0xB8 ;;;
         emit_int 23 ;;;
         emit 0xCD ;;;
         emit 0x40
       else if bool_decide (name = kw_exit) then
         emit_exit
       else ret tt) ;;;
      match_tok TOKEN_RPAREN ;;;
      match_tok TOKEN_SEMICOLON
  else ret tt.

Fixpoint compile_loop (fuel : nat) : D unit :=
  let* t := gets d_tok in
  if negb (bool_decide (t = TOKEN_RBRACE)) && negb (bool_decide (t = TOKEN_EOF)) then
    match fuel with
    | O => fun _ => NoFuel
    | S fuel => compile_statement ;;; compile_loop fuel
    end
  else ret tt.

(** * The executable *)

Definition elf_template : list Z :=
  [0x7F; 69; 76; 70; 1; 1; 1; 0; 0; 0; 0; 0; 0; 0; 0; 0;
   2; 0; 3; 0; 1; 0; 0; 0; 0x54; 0x00; 0x00; 0x00; 52; 0; 0; 0; 0; 0; 0; 0; 0; 0; 0; 0;
   52; 0; 32; 0; 1; 0; 0; 0; 0; 0; 0; 0;
   1; 0; 0; 0; 0; 0; 0; 0; 0; 0; 0; 0; 0; 0; 0; 0; 84; 0; 0; 0; 84; 0; 0; 0; 7; 0; 0; 0; 0; 0; 0; 0].

Definition write_elf_header (code_size : Z) : list Z :=
  let total_size := u32 (84 + code_size) in
  let h := <[68%nat := Z.land total_size 0xFF]> elf_template in
  let h := <[69%nat := Z.land (Z.shiftr total_size 8) 0xFF]> h in
  let h := <[72%nat := Z.land total_size 0xFF]> h in
  <[73%nat := Z.land (Z.shiftr total_size 8) 0xFF]> h.

(** What [open] and [read] make of [argv[1]]. *)
Inductive source :=
| NoFile
| Unreadable
| Text (file : list Z).

(** The source in [buffer]; after a failed [read] its NUL goes to [buffer[-1]]. *)
Definition read_source (src : source) : D unit :=
  match src with
  | NoFile => panic "dcc: Cannot open input file"
  | Unreadable => fault
  | Text file => modify (fun _ => Dcc (take 2047 file ++ [0]) TOKEN_EOF [] 0 [])
  end.

(** The whole of [main]; [created] says whether [argv[2]] can be opened, and the result is
    what is written there. *)
Definition dcc_main (fuel : nat) (argc : Z) (src : source) (created : bool) : D (list Z) :=
  if argc <? 3 then panic "Usage: dcc [input.c] [output_executable]"
  else
    read_source src ;;;
    next_token ;;;
    match_tok TOKEN_INT ;;;
    let* w := gets d_str in
    if negb (bool_decide (w = kw_main)) then panic "dcc: Main missing"
    else
      next_token ;;;
      match_tok TOKEN_LPAREN ;;;
      match_tok TOKEN_RPAREN ;;;
      match_tok TOKEN_LBRACE ;;;
      compile_loop fuel ;;;
      match_tok TOKEN_RBRACE ;;;
      emit_exit ;;;
      let* code := gets d_code in
      if negb created then panic "dcc: Cannot create executable"
      else ret (write_elf_header (Z.of_nat (length code)) ++ code).
