(* ===== verification/DccThm.v ===== *)
(** The compiler of [dcc.c] on well-formed programs: the lexer reads every lexeme of a
    spaced text, and each statement adds exactly its instructions to [code_buf]. *)

From S2P Require Import Prelude CString Dcc.

Definition with_code (s : dcc) (c : list Z) : dcc :=
  Dcc (d_src s) (d_tok s) (d_str s) (d_val s) c.

(** * Emitting *)

Fixpoint emits (bs : list Z) : M dcc unit :=
  match bs with [] => ret tt | b :: r => emit b ;;; emits r end.

Lemma emits_run bs s :
  (length (d_code s) <= CODE_BUF)%nat ->
  emits bs s =
    (if (length (d_code s) + length bs <=? CODE_BUF)%nat
     then Ret (tt, with_code s (d_code s ++ map u8 bs)) else Fault).
Proof.
  revert s. induction bs as [|b r IH]; intros s Hs; cbn [emits length map].
  - rewrite app_nil_r. destruct (Nat.leb_spec (length (d_code s) + 0) CODE_BUF); [|lia].
    by destruct s.
  - unfold bind, emit. destruct (Nat.ltb_spec (length (d_code s)) CODE_BUF) as [L|L].
    + rewrite IH by (cbn [d_code]; rewrite length_app; cbn [length]; lia).
      cbn [d_code]. rewrite length_app. cbn [length].
      replace (length (d_code s) + S (length r))%nat with (length (d_code s) + 1 + length r)%nat by lia.
      rewrite <- (assoc_L (++)). done.
    + destruct (Nat.leb_spec (length (d_code s) + S (length r)) CODE_BUF); [lia|done].
Qed.

Definition exit_code : list Z := [0xB8; 2; 0; 0; 0; 0xCD; 0x40].
Definition reboot_code (n : Z) : list Z := [0x6A; u8 n; 0xB8; 23; 0; 0; 0; 0xCD; 0x40].

Ltac emit_steps :=
  unfold bind; cbv beta;
  repeat match goal with
  | |- context [emit ?b ?s] => is_var s; destruct (emit b s) as [[[] ?]| | | |]; try done
  end.

Lemma emit_exit_run s :
  (length (d_code s) <= CODE_BUF)%nat ->
  emit_exit s = (if (length (d_code s) + 7 <=? CODE_BUF)%nat
                 then Ret (tt, with_code s (d_code s ++ exit_code)) else Fault).
Proof.
  intros Hs. trans (emits exit_code s); [|exact (emits_run exit_code s Hs)].
  unfold emit_exit, exit_code. cbn [emits].
  change (emit_int 2) with (emit 2 ;;; emit 0 ;;; emit 0 ;;; emit 0). emit_steps.
Qed.

Definition emit_reboot (n : Z) : M dcc unit :=
  emit 0x6A ;;; emit n ;;; emit 0xB8 ;;; emit_int 23 ;;; emit 0xCD ;;; emit 0x40.

Lemma emit_reboot_run n s :
  (length (d_code s) <= CODE_BUF)%nat ->
  emit_reboot n s = (if (length (d_code s) + 9 <=? CODE_BUF)%nat
                     then Ret (tt, with_code s (d_code s ++ reboot_code n)) else Fault).
Proof.
  intros Hs.
  trans (emits [0x6A; n; 0xB8; 23; 0; 0; 0; 0xCD; 0x40] s); [|exact (emits_run _ s Hs)].
  unfold emit_reboot. cbn [emits].
  change (emit_int 23) with (emit 23 ;;; emit 0 ;;; emit 0 ;;; emit 0). emit_steps.
Qed.

(** * Lexemes *)

Inductive lexeme :=
| LWord (w : list Z)
| LNum (digits : list Z)
| LPunct (c : Z).

Definition punct_tok (c : Z) : option token :=
  if c =? 123 then Some TOKEN_LBRACE
  else if c =? 125 then Some TOKEN_RBRACE
  else if c =? 40 then Some TOKEN_LPAREN
  else if c =? 41 then Some TOKEN_RPAREN
  else if c =? 59 then Some TOKEN_SEMICOLON
  else if c =? 44 then Some TOKEN_COMMA
  else None.

Definition spell (l : lexeme) : list Z :=
  match l with LWord w => w | LNum d => d | LPunct c => [c] end.

Definition is_alnum (c : Z) : bool := is_letter c || is_digit c.

(** The value of a decimal numeral. *)
Fixpoint num_value (v : Z) (d : list Z) : Z :=
  match d with [] => v | c :: r => num_value (v * 10 + (c - 48)) r end.

Definition lexeme_ok (l : lexeme) : Prop :=
  match l with
  | LWord w => (exists c r, w = c :: r /\ is_letter c = true) /\ Forall (fun c => is_alnum c = true) w /\
               (length w < TOKEN_STRING_SIZE)%nat
  | LNum d => d <> [] /\ Forall (fun c => is_digit c = true) d /\ num_value 0 d < 2 ^ 31
  | LPunct c => is_Some (punct_tok c)
  end.

(** Words and numbers end where no letter or digit follows. *)
Definition ends (l : lexeme) (rest : list Z) : Prop :=
  exists c r, rest = c :: r /\ match l with LPunct _ => True | _ => is_alnum c = false end.

(** The state after the lexeme has been read. *)
Definition after (s : dcc) (l : lexeme) (rest : list Z) : dcc :=
  match l with
  | LWord w => Dcc rest (if bool_decide (w = kw_int) then TOKEN_INT else TOKEN_NAME) w (d_val s) (d_code s)
  | LNum d => Dcc rest TOKEN_NUM (d_str s) (num_value 0 d) (d_code s)
  | LPunct c => Dcc rest (default TOKEN_EOF (punct_tok c)) (d_str s) (d_val s) (d_code s)
  end.

Lemma skip_spaces_app w l :
  Forall (fun c => is_space c = true) w -> skip_spaces (w ++ l) = skip_spaces l.
Proof. induction 1 as [|c r Hc _ IH]; [done|]. cbn. by rewrite Hc. Qed.

Lemma lex_word_app w c r :
  Forall (fun c => is_alnum c = true) w -> is_alnum c = false ->
  lex_word (w ++ c :: r) = Some (w, c :: r).
Proof.
  intros Hw Hc. induction Hw as [|b u Hb _ IH]; cbn.
  - unfold is_alnum in Hc. by rewrite Hc.
  - unfold is_alnum in Hb. by rewrite Hb, IH.
Qed.

Lemma num_value_mono d v :
  0 <= v -> Forall (fun c => is_digit c = true) d -> v <= num_value v d.
Proof.
  intros Hv Hd. revert v Hv. induction Hd as [|c r Hc _ IH]; intros v Hv; cbn; [lia|].
  unfold is_digit in Hc. specialize (IH (v * 10 + (c - 48))). lia.
Qed.

Lemma lex_num_app d v c r :
  0 <= v -> Forall (fun c => is_digit c = true) d -> is_digit c = false ->
  num_value v d < 2 ^ 31 -> lex_num v (d ++ c :: r) = Some (num_value v d, c :: r).
Proof.
  intros Hv Hd Hc. revert v Hv. induction Hd as [|b u Hb Hu IH]; intros v Hv Hlt; cbn.
  - by rewrite Hc.
  - rewrite Hb. cbn in Hlt. pose proof Hb as Hb'. unfold is_digit in Hb'.
    pose proof (num_value_mono u (v * 10 + (b - 48)) ltac:(lia) Hu).
    rewrite s32_small by lia. apply IH; lia.
Qed.

(** A letter or digit is none of the other characters the lexer tells apart. *)
Lemma alnum_plain c :
  is_alnum c = true ->
  is_space c = false /\ Forall (fun k => (c =? k) = false) [0; 123; 125; 40; 41; 59; 44; 34].
Proof.
  unfold is_alnum, is_letter, is_digit, is_space. intros H.
  split; [lia|]. repeat constructor; lia.
Qed.

Lemma letter_not_digit c : is_digit c = true -> is_letter c = false.
Proof. unfold is_letter, is_digit. lia. Qed.

(** One lexeme, whatever white space comes before it. *)
Lemma next_token_run s w l rest :
  d_src s = w ++ spell l ++ rest -> Forall (fun c => is_space c = true) w ->
  lexeme_ok l -> ends l rest -> next_token s = Ret (tt, after s l rest).
Proof.
  intros Hs Hw Hl He. unfold next_token, bind, gets. rewrite Hs, (skip_spaces_app w _ Hw).
  destruct He as (e & r & -> & He). destruct l as [x|d|c]; cbn [spell lexeme_ok] in *.
  - destruct Hl as ((c & u & -> & Hc) & Hall & Hlen).
    assert (is_alnum c = true) as [Hsp Hp]%alnum_plain by (unfold is_alnum; by rewrite Hc).
    cbn [app skip_spaces]. rewrite Hsp. rewrite !Forall_cons in Hp. destruct Hp as (-> & -> & -> & -> & -> & -> & -> & -> & _). rewrite Hc.
    change (c :: u ++ e :: r) with ((c :: u) ++ e :: r). rewrite (lex_word_app (c :: u)) by done.
    unfold set_word, after. destruct (Nat.ltb_spec (length (c :: u)) TOKEN_STRING_SIZE); [done|lia].
  - destruct Hl as (Hne & Hall & Hlt). destruct d as [|c u]; [done|].
    assert (is_digit c = true) as Hc by (by inversion Hall).
    assert (is_alnum c = true) as [Hsp Hp]%alnum_plain
      by (unfold is_alnum; rewrite Hc; apply orb_true_r).
    cbn [app skip_spaces]. rewrite Hsp. rewrite !Forall_cons in Hp. destruct Hp as (-> & -> & -> & -> & -> & -> & -> & -> & _). rewrite (letter_not_digit c Hc), Hc.
    change (c :: u ++ e :: r) with ((c :: u) ++ e :: r).
    unfold is_alnum in He. apply orb_false_iff in He as [_ He].
    by rewrite (lex_num_app (c :: u)) by done.
  - cbn [app skip_spaces]. destruct Hl as [t Ht]. unfold after, default. rewrite Ht.
    unfold punct_tok in Ht.
    repeat match type of Ht with
    | (if c =? ?k then _ else _) = _ => destruct (Z.eqb_spec c k); [by simplify_eq/=|]
    end. done.
Qed.

(** * Spaced texts *)

(** A text of the lexemes, each after white space, closed by the NUL of [buffer]. *)
Inductive spelled : list lexeme -> list Z -> Prop :=
| spelled_end w : Forall (fun c => is_space c = true) w -> spelled [] (w ++ [0])
| spelled_cons w l ls rest :
    Forall (fun c => is_space c = true) w -> lexeme_ok l -> ends l rest -> spelled ls rest ->
    spelled (l :: ls) (w ++ spell l ++ rest).

Definition tok_of (l : lexeme) : token :=
  match l with
  | LWord w => if bool_decide (w = kw_int) then TOKEN_INT else TOKEN_NAME
  | LNum _ => TOKEN_NUM
  | LPunct c => default TOKEN_EOF (punct_tok c)
  end.

(** The current token is the first lexeme of [ls] and the others follow in the source. *)
Definition at_toks (s : dcc) (ls : list lexeme) (c : list Z) : Prop :=
  d_code s = c /\
  match ls with
  | [] => d_tok s = TOKEN_EOF
  | l :: ls =>
      d_tok s = tok_of l /\ spelled ls (d_src s) /\
      match l with
      | LWord w => d_str s = w
      | LNum d => d_val s = num_value 0 d
      | LPunct _ => True
      end
  end.

Lemma spelled_next s ls c :
  spelled ls (d_src s) -> d_code s = c ->
  exists s', next_token s = Ret (tt, s') /\ at_toks s' ls c.
Proof.
  intros Hs Hc. remember (d_src s) as src eqn:E. destruct Hs as [w Hw|w l ls rest Hw Hl He Hr].
  - exists (Dcc [0] TOKEN_EOF (d_str s) (d_val s) (d_code s)). split; [|done].
    unfold next_token, bind, gets. by rewrite <- E, skip_spaces_app.
  - exists (after s l rest). split; [by apply (next_token_run s w l rest)|].
    split; [by destruct l|]. by destruct l.
Qed.

Lemma next_run s l ls c :
  at_toks s (l :: ls) c -> exists s', next_token s = Ret (tt, s') /\ at_toks s' ls c.
Proof. intros (Hc & _ & Hr & _). by apply spelled_next. Qed.

Lemma match_run s t l ls c :
  at_toks s (l :: ls) c -> tok_of l = t ->
  exists s', match_tok t s = Ret (tt, s') /\ at_toks s' ls c.
Proof.
  intros Hat Ht. unfold match_tok, bind, gets.
  rewrite bool_decide_eq_true_2 by (by destruct Hat as (_ & -> & _)). by apply (next_run s l).
Qed.

(** * Statements *)

Inductive stmt :=
| Reboot (digits : list Z)
| Exit
| Other (name : list Z).

Definition call (w : list Z) (arg : list lexeme) : list lexeme :=
  LWord w :: LPunct 40 :: arg ++ [LPunct 41; LPunct 59].

Definition stmt_lex (st : stmt) : list lexeme :=
  match st with
  | Reboot d => call kw_reboot [LNum d]
  | Exit => call kw_exit []
  | Other w => call w []
  end.

Definition stmt_ok (st : stmt) : Prop :=
  match st with
  | Other w => (w <> kw_reboot /\ w <> kw_exit /\ w <> kw_int) /\ (length w < NAME_SIZE)%nat
  | _ => True
  end.

Definition stmt_code (st : stmt) : list Z :=
  match st with
  | Reboot d => reboot_code (num_value 0 d)
  | Exit => exit_code
  | Other _ => []
  end.

(** What [compile_statement] makes of the name after the parenthesis. *)
Definition call_body (name : list Z) : M dcc unit :=
  if bool_decide (name = kw_reboot) then
    let* arg := gets d_val in next_token ;;; emit_reboot arg
  else if bool_decide (name = kw_exit) then emit_exit
  else ret tt.

Lemma with_code_at s ls c c' : at_toks s ls c -> at_toks (with_code s c') ls c'.
Proof. intros (? & H). split; [done|]. by destruct ls as [|[]]. Qed.

(** The outcome of code that appends [b] when it fits and leaves the lexemes [ls]. *)
Definition appends (o : outcome (unit * dcc)) (ls : list lexeme) (c b : list Z) : Prop :=
  match o with
  | Ret (_, s') => at_toks s' ls (c ++ b) /\ (length (c ++ b) <= CODE_BUF)%nat
  | Fault => (CODE_BUF < length (c ++ b))%nat
  | _ => False
  end.

Lemma emit_exit_appends s ls c :
  at_toks s ls c -> (length c <= CODE_BUF)%nat -> appends (emit_exit s) ls c exit_code.
Proof.
  intros Hat Hc. pose proof Hat as [Hd _]. rewrite emit_exit_run by congruence. rewrite Hd.
  unfold appends. rewrite length_app. change (length exit_code) with 7%nat.
  destruct (Nat.leb_spec (length c + 7) CODE_BUF); [|lia].
  split; [by eapply with_code_at|lia].
Qed.

Lemma emit_reboot_appends s ls c n :
  at_toks s ls c -> (length c <= CODE_BUF)%nat -> appends (emit_reboot n s) ls c (reboot_code n).
Proof.
  intros Hat Hc. pose proof Hat as [Hd _]. rewrite emit_reboot_run by congruence. rewrite Hd.
  unfold appends. rewrite length_app. change (length (reboot_code n)) with 9%nat.
  destruct (Nat.leb_spec (length c + 9) CODE_BUF); [|lia].
  split; [by eapply with_code_at|lia].
Qed.

(** The whole of a call [w(arg);] from what its body does between the parentheses. *)
Lemma compile_call s w arg ls c b :
  at_toks s (call w arg ++ ls) c -> w <> kw_int -> (length w < NAME_SIZE)%nat ->
  (forall s1, at_toks s1 (arg ++ LPunct 41 :: LPunct 59 :: ls) c ->
              appends (call_body w s1) (LPunct 41 :: LPunct 59 :: ls) c b) ->
  appends (compile_statement s) ls c b.
Proof.
  intros Hat Hint Hlen Hbody. unfold compile_statement. unfold bind at 1, gets at 1.
  pose proof Hat as (_ & Ht & _ & Hw). cbn [tok_of call] in Ht.
  rewrite (bool_decide_eq_false_2 _ Hint) in Ht. rewrite (bool_decide_eq_true_2 _ Ht).
  unfold bind at 1, gets at 1. rewrite Hw.
  destruct (Nat.leb_spec NAME_SIZE (length w)) as [?|_]; [lia|].
  destruct (next_run _ _ _ _ Hat) as (s1 & R1 & A1). rewrite (bind_Ret _ _ _ _ _ R1).
  destruct (match_run s1 TOKEN_LPAREN _ _ _ A1 eq_refl) as (s2 & R2 & A2).
  rewrite (bind_Ret _ _ _ _ _ R2).
  change (at_toks s2 ((arg ++ [LPunct 41; LPunct 59]) ++ ls) c) in A2.
  rewrite <- (assoc_L (++)) in A2. specialize (Hbody s2 A2).
  change (appends (bind (call_body w)
    (fun _ => match_tok TOKEN_RPAREN ;;; match_tok TOKEN_SEMICOLON) s2) ls c b).
  unfold bind at 1. destruct (call_body w s2) as [[[] s3]| | | |]; try done.
  destruct Hbody as [A3 L3].
  destruct (match_run s3 TOKEN_RPAREN _ _ _ A3 eq_refl) as (s4 & R4 & A4).
  rewrite (bind_Ret _ _ _ _ _ R4).
  destruct (match_run s4 TOKEN_SEMICOLON _ _ _ A4 eq_refl) as (s5 & R5 & A5).
  by rewrite R5.
Qed.

Lemma compile_statement_run s st ls c :
  at_toks s (stmt_lex st ++ ls) c -> stmt_ok st -> (length c <= CODE_BUF)%nat ->
  appends (compile_statement s) ls c (stmt_code st).
Proof.
  intros Hat Hok Hc. destruct st as [d| |w]; cbn [stmt_lex stmt_ok stmt_code] in *.
  - apply (compile_call s _ _ _ _ _ Hat); [done|cbn; unfold NAME_SIZE; lia|]. intros s1 A1.
    unfold call_body. rewrite bool_decide_eq_true_2 by done. unfold bind, gets.
    destruct (next_run _ _ _ _ A1) as (s2 & R2 & A2). rewrite R2.
    destruct A1 as (_ & _ & _ & ->). by apply emit_reboot_appends.
  - apply (compile_call s _ _ _ _ _ Hat); [done|cbn; unfold NAME_SIZE; lia|]. intros s1 A1.
    by apply (emit_exit_appends s1).
  - destruct Hok as ((H1 & H2 & H3) & H4).
    apply (compile_call s _ _ _ _ _ Hat); [done|done|]. intros s1 A1.
    unfold call_body. rewrite (bool_decide_eq_false_2 _ H1), (bool_decide_eq_false_2 _ H2).
    cbn. by rewrite app_nil_r.
Qed.

(** * The program *)

Definition body_lex (p : list stmt) : list lexeme := p ≫= stmt_lex.
Definition body_code (p : list stmt) : list Z := p ≫= stmt_code.

(** [int main() { p }] *)
Definition program_lex (p : list stmt) : list lexeme :=
  LWord kw_int :: LWord kw_main :: LPunct 40 :: LPunct 41 :: LPunct 123 ::
  body_lex p ++ [LPunct 125].

Lemma compile_loop_run p fuel s ls c :
  at_toks s (body_lex p ++ LPunct 125 :: ls) c -> Forall stmt_ok p ->
  (length c <= CODE_BUF)%nat -> (length p <= fuel)%nat ->
  appends (compile_loop fuel s) (LPunct 125 :: ls) c (body_code p).
Proof.
  intros Hat Hp. revert fuel s c Hat. induction Hp as [|st p Hst _ IH]; intros fuel s c Hat Hc Hf.
  - pose proof Hat as (_ & Ht & _).
    assert (compile_loop fuel s = Ret (tt, s)) as ->.
    { destruct fuel; cbn; unfold bind, gets; by rewrite bool_decide_eq_true_2 by done. }
    unfold appends, body_code. cbn. by rewrite app_nil_r.
  - destruct fuel as [|fuel]; [cbn in Hf; lia|]. cbn [compile_loop].
    unfold bind at 1, gets.
    assert (d_tok s = TOKEN_NAME) as Ht.
    { destruct st as [d| |w]; destruct Hat as (_ & Ht & _); [done..|]. cbn in Ht.
      destruct Hst as ((_ & _ & Hi) & _). by rewrite (bool_decide_eq_false_2 _ Hi) in Ht. }
    rewrite Ht. cbn [bool_decide negb andb decide_rel token_eq_dec].
    rewrite !bool_decide_eq_false_2 by done. cbn [negb andb].
    change (body_lex (st :: p)) with (stmt_lex st ++ body_lex p) in Hat.
    rewrite <- (assoc_L (++)) in Hat.
    change (body_code (st :: p)) with (stmt_code st ++ body_code p).
    pose proof (compile_statement_run s st _ c Hat Hst Hc) as R. unfold bind.
    destruct (compile_statement s) as [[[] s1]| | | |]; try done; cbn [appends] in *.
    + destruct R as [A1 L1]. specialize (IH fuel s1 _ A1 L1 ltac:(cbn in Hf; lia)).
      unfold appends in *. by rewrite <- !(assoc_L (++)) in IH.
    + rewrite (assoc_L (++)), length_app. lia.
Qed.

(** The instructions of a program, with the call of [exit] at their end. *)
Definition program_code (p : list stmt) : list Z := body_code p ++ exit_code.

(** The file [dcc] should write. *)
Definition executable (p : list stmt) : list Z :=
  write_elf_header (Z.of_nat (length (program_code p))) ++ program_code p.

(** [main] after the loop. *)
Definition dcc_tail : M dcc (list Z) :=
  match_tok TOKEN_RBRACE ;;;
  emit_exit ;;;
  let* code := gets d_code in
  ret (write_elf_header (Z.of_nat (length code)) ++ code).

(** [main] up to the loop. *)
Lemma dcc_main_header ls fuel text s :
  spelled (LWord kw_int :: LWord kw_main :: LPunct 40 :: LPunct 41 :: LPunct 123 :: ls) (text ++ [0]) ->
  (length text < 2048)%nat ->
  exists s', at_toks s' ls [] /\
    dcc_main fuel 3 (Text text) true s = (compile_loop fuel ;;; dcc_tail) s'.
Proof.
  intros Hs Ht. unfold dcc_main. cbn [Z.ltb Z.compare Pos.compare Pos.compare_cont read_source].
  unfold bind at 1, modify. rewrite take_ge by lia. set (s0 := Dcc _ _ _ _ _).
  destruct (spelled_next s0 _ [] Hs eq_refl) as (s1 & R1 & A1). rewrite (bind_Ret _ _ _ _ _ R1).
  destruct (match_run s1 TOKEN_INT _ _ _ A1 eq_refl) as (s2 & R2 & A2). rewrite (bind_Ret _ _ _ _ _ R2).
  unfold bind at 1, gets at 1.
  rewrite bool_decide_eq_true_2 by (by destruct A2 as (_ & _ & _ & ?)). cbn [negb].
  destruct (next_run _ _ _ _ A2) as (s3 & R3 & A3). rewrite (bind_Ret _ _ _ _ _ R3).
  destruct (match_run s3 TOKEN_LPAREN _ _ _ A3 eq_refl) as (s4 & R4 & A4). rewrite (bind_Ret _ _ _ _ _ R4).
  destruct (match_run s4 TOKEN_RPAREN _ _ _ A4 eq_refl) as (s5 & R5 & A5). rewrite (bind_Ret _ _ _ _ _ R5).
  destruct (match_run s5 TOKEN_LBRACE _ _ _ A5 eq_refl) as (s6 & R6 & A6). rewrite (bind_Ret _ _ _ _ _ R6).
  by exists s6.
Qed.

Lemma dcc_main_run p fuel text s :
  spelled (program_lex p) (text ++ [0]) -> Forall stmt_ok p -> (length text < 2048)%nat ->
  (length p <= fuel)%nat ->
  match dcc_main fuel 3 (Text text) true s with
  | Ret (out, _) => (length (program_code p) <= CODE_BUF)%nat /\ out = executable p
  | Fault => (CODE_BUF < length (program_code p))%nat
  | _ => False
  end.
Proof.
  intros Hs Hp Ht Hf. destruct (dcc_main_header _ fuel text s Hs Ht) as (s6 & A6 & ->).
  pose proof (compile_loop_run p fuel s6 [] [] A6 Hp ltac:(cbn; lia) Hf) as R7.
  unfold bind at 1. destruct (compile_loop fuel s6) as [[[] s7]| | | |]; try done; cbn [appends app] in R7.
  2:{ unfold program_code. rewrite length_app. lia. }
  destruct R7 as [A7 L7]. unfold dcc_tail.
  destruct (match_run s7 TOKEN_RBRACE _ _ _ A7 eq_refl) as (s8 & R8 & A8). rewrite (bind_Ret _ _ _ _ _ R8).
  pose proof (emit_exit_appends s8 [] _ A8 L7) as R9.
  unfold bind at 1. destruct (emit_exit s8) as [[[] s9]| | | |]; try done. destruct R9 as [[C9 _] L9].
  unfold bind, gets. by rewrite C9.
Qed.
