(* ===== verification/DccClaims.v ===== *)
(** The programs that [dcc] makes: what they do when the machine runs them, and inputs on
    which the compiler does not end.

    The three instructions the compiler emits are given their meaning by a small machine;
    a system call is recorded with its number and the word that [argint(0)] reads, the one
    above the top of the stack. *)

From S2P Require Import Prelude CString Exec Dcc DccThm.

(** * The machine *)

Definition SYS_exit : Z := 2.
Definition SYS_reboot : Z := 23.

Definition sext8 (b : Z) : Z := if b <? 128 then b else b - 256.

(** [fetchint(esp + 4)] with [stk] the words from the stack pointer up. *)
Definition arg0 (stk : list Z) : Z := default 0 (stk !! 1%nat).

Inductive instr :=
| PushI (v : Z)
| MovEax (v : Z)
| Int (n : Z).

(** The instruction at the start of some bytes, with its length. *)
Definition decode (l : list Z) : option (instr * nat) :=
  match l with
  | op :: b0 :: r =>
      if op =? 0x6A then Some (PushI (sext8 b0), 2%nat)
      else if op =? 0xCD then Some (Int b0, 2%nat)
      else if op =? 0xB8 then
        match r with
        | b1 :: b2 :: b3 :: _ => Some (MovEax (le_word [b0; b1; b2; b3]), 5%nat)
        | _ => None
        end
      else None
  | _ => None
  end.

(** The code of [img] from [eip] on, until it calls [exit]; [sysret] is what the calls
    return in [eax]. *)
Fixpoint cpu (img : list Z) (sysret : Z) (fuel eip : nat) (eax : Z) (stk : list Z) : option (list (Z * Z)) :=
  match fuel with
  | O => None
  | S fuel =>
      match decode (drop eip img) with
      | Some (PushI v, n) => cpu img sysret fuel (eip + n) eax (v :: stk)
      | Some (MovEax v, n) => cpu img sysret fuel (eip + n) v stk
      | Some (Int 64, n) =>
          if eax =? SYS_exit then Some [(eax, arg0 stk)]
          else r ← cpu img sysret fuel (eip + n) sysret stk; Some ((eax, arg0 stk) :: r)
      | _ => None
      end
  end.

(** The calls of a program: the statements in order up to the first [exit], each [reboot]
    with the word that was on top of the stack before it pushed its argument. *)
Fixpoint calls (p : list stmt) (stk : list Z) : list (Z * Z) :=
  match p with
  | [] | Exit :: _ => [(SYS_exit, arg0 stk)]
  | Reboot d :: p =>
      let stk := sext8 (u8 (num_value 0 d)) :: stk in
      (SYS_reboot, arg0 stk) :: calls p stk
  | Other _ :: p => calls p stk
  end.

Lemma drop_here {A} (pre c : list A) k : length pre = k -> drop k (pre ++ c) = c.
Proof. intros <-. apply drop_app_length. Qed.

Lemma cpu_exit img sysret fuel eip eax stk rest :
  drop eip img = exit_code ++ rest -> cpu img sysret (S (S fuel)) eip eax stk = Some [(SYS_exit, arg0 stk)].
Proof.
  intros Hd. cbn [cpu]. rewrite Hd.
  change (decode (exit_code ++ rest)) with (Some (MovEax SYS_exit, 5%nat)).
  cbv iota beta. rewrite <- (drop_drop img 5 eip), Hd. done.
Qed.

Lemma cpu_reboot img sysret fuel eip eax stk n rest :
  drop eip img = reboot_code n ++ rest ->
  cpu img sysret (S (S (S fuel))) eip eax stk =
    (r ← cpu img sysret fuel (eip + 9) sysret (sext8 (u8 n) :: stk);
     Some ((SYS_reboot, arg0 (sext8 (u8 n) :: stk)) :: r)).
Proof.
  intros Hd. cbn [cpu]. rewrite Hd. change (decode (reboot_code n ++ rest)) with (Some (PushI (sext8 (u8 n)), 2%nat)).
  cbv iota beta. rewrite <- (drop_drop img 2 eip), Hd.
  change (decode (drop 2 (reboot_code n ++ rest))) with (Some (MovEax SYS_reboot, 5%nat)).
  cbv iota beta. replace (eip + 2 + 5)%nat with (eip + 7)%nat by lia. rewrite <- (drop_drop img 7 eip), Hd.
  change (decode (drop 7 (reboot_code n ++ rest))) with (Some (Int 64, 2%nat)).
  cbv iota beta. replace (eip + 7 + 2)%nat with (eip + 9)%nat by lia. done.
Qed.

Lemma cpu_run p : forall img sysret fuel eip eax stk,
  drop eip img = program_code p -> (3 * length p + 2 <= fuel)%nat ->
  cpu img sysret fuel eip eax stk = Some (calls p stk).
Proof.
  induction p as [|st p IH]; intros img sysret fuel eip eax stk Hd Hf; unfold program_code in *.
  - destruct fuel as [|[|fuel]]; [lia..|]. by apply (cpu_exit _ _ _ _ _ _ []).
  - change (body_code (st :: p)) with (stmt_code st ++ body_code p) in Hd.
    rewrite <- (assoc_L (++)) in Hd. cbn [length] in Hf.
    destruct st as [d| |w]; cbn [stmt_code calls] in *.
    + destruct fuel as [|[|[|fuel]]]; [lia..|]. rewrite (cpu_reboot _ _ _ _ _ _ _ _ Hd), IH; [done| |lia].
      rewrite <- drop_drop, Hd. done.
    + destruct fuel as [|[|fuel]]; [lia..|]. by apply (cpu_exit _ _ _ _ _ _ _ Hd).
    + apply IH; [done|lia].
Qed.

(** * The executable *)

(** The header that [exec] reads. *)
Lemma write_elf_header_elf n code :
  elfhdr_of (take 52 (write_elf_header n ++ code)) = Elfhdr ELF_MAGIC 84 52 1.
Proof. done. Qed.

Lemma header_length n : length (write_elf_header n) = 84%nat.
Proof. done. Qed.

Lemma two_bytes t :
  0 <= t < 2 ^ 16 -> Z.land t 0xFF + 256 * Z.land (Z.shiftr t 8) 0xFF = t.
Proof.
  intros Ht. change 0xFF with (Z.ones 8). rewrite !Z.land_ones, Z.shiftr_div_pow2 by lia.
  change (2 ^ 8) with 256. rewrite (Z.mod_small (t / 256)); [pose proof (Z.div_mod t 256); lia|].
  split; [apply Z.div_pos|apply Z.div_lt_upper_bound]; lia.
Qed.

Lemma write_elf_header_ph n code :
  0 <= n <= 512 ->
  proghdr_of (take 32 (drop 52 (write_elf_header n ++ code))) =
    Proghdr ELF_PROG_LOAD 0 0 (84 + n) (84 + n).
Proof.
  intros Hn. unfold write_elf_header. rewrite u32_small by lia. set (t := 84 + n).
  pose proof (two_bytes t ltac:(unfold t; lia)) as Ht.
  unfold proghdr_of, getn. set (a := Z.land t 0xFF) in *. set (b := Z.land (Z.shiftr t 8) 0xFF) in *.
  clearbody a b. cbn [elf_template insert list_insert app drop skipn take firstn le_word].
  f_equal; try done; change (256 ^ Z.of_nat 4) with (2 ^ 32);
    (replace (a + 256 * (b + 256 * (0 + 256 * (0 + 256 * 0)))) with t by lia);
    apply Z.mod_small; unfold t; lia.
Qed.

(** * Correctness *)


(** What a [reboot] statement pushes. *)
Definition pushed (d : list Z) : Z := sext8 (u8 (num_value 0 d)).

Lemma calls_reboots ds : forall top stk,
  calls (Reboot <$> ds) (top :: stk) =
    (pair SYS_reboot <$> take (length ds) (top :: (pushed <$> ds))) ++
    [(SYS_exit, arg0 (reverse (pushed <$> ds) ++ top :: stk))].
Proof.
  induction ds as [|d ds IH]; intros top stk; [done|]. cbn [fmap list_fmap calls length take app].
  fold (pushed d). rewrite IH. rewrite reverse_cons, <- (assoc_L (++)). done.
Qed.

(** C23. A compiled [reboot(n)] does not pass [n]: it pushes its argument where a C function
    has its return address, and [argint] reads the word above it. In a program of [reboot]
    calls started by [exec], the first call gets the return address 0xffffffff that [exec]
    left on the stack and every later one gets the argument of the call before it. *)
Theorem dcc_reboot_argument_lost ds text fuel s stk sysret :
  spelled (program_lex (Reboot <$> ds)) (text ++ [0]) -> (length text < 2048)%nat ->
  (length ds <= fuel)%nat -> (length (program_code (Reboot <$> ds)) <= CODE_BUF)%nat ->
  exists out s' last, dcc_main fuel 3 (Text text) true s = Ret (out, s') /\
    cpu out sysret (3 * length ds + 2) 84 0 (0xffffffff :: stk) =
      Some ((pair SYS_reboot <$> take (length ds) (0xffffffff :: (pushed <$> ds))) ++ [(SYS_exit, last)]).
Proof.
  intros Hs Ht Hf Hfit.
  pose proof (dcc_main_run (Reboot <$> ds) fuel text s Hs ltac:(by apply Forall_fmap, Forall_true) Ht
    ltac:(by rewrite length_fmap)) as R.
  destruct (dcc_main fuel 3 (Text text) true s) as [[out s']| | | |]; try done; [|lia].
  destruct R as [_ ->]. eexists _, _, _. split; [done|].
  rewrite (cpu_run (Reboot <$> ds)); [by rewrite calls_reboots|by apply drop_here|by rewrite length_fmap].
Qed.

(** * Inputs without end *)

Lemma compile_loop_stuck fuel s l ls c :
  at_toks s (l :: ls) c -> tok_of l ∉ [TOKEN_NAME; TOKEN_RBRACE; TOKEN_EOF] -> compile_loop fuel s = NoFuel.
Proof.
  intros (_ & Ht & _) Hl. rewrite <- Ht in Hl. rewrite !not_elem_of_cons in Hl.
  destruct Hl as (H1 & H2 & H3 & _). induction fuel as [|fuel IH]; cbn [compile_loop]; unfold bind at 1, gets.
  - by rewrite (bool_decide_eq_false_2 _ H2), (bool_decide_eq_false_2 _ H3).
  - rewrite (bool_decide_eq_false_2 _ H2), (bool_decide_eq_false_2 _ H3). cbn [negb andb].
    unfold compile_statement, bind, gets. by rewrite (bool_decide_eq_false_2 _ H1).
Qed.

(** [main] loops for ever, without reading on, when a statement starts with anything
    but a name: [compile_statement] leaves the token where it is. *)
Theorem dcc_diverges l ls text fuel s :
  spelled (LWord kw_int :: LWord kw_main :: LPunct 40 :: LPunct 41 :: LPunct 123 :: l :: ls) (text ++ [0]) ->
  (length text < 2048)%nat -> tok_of l ∉ [TOKEN_NAME; TOKEN_RBRACE; TOKEN_EOF] ->
  dcc_main fuel 3 (Text text) true s = NoFuel.
Proof.
  intros Hs Ht Hl. destruct (dcc_main_header _ fuel text s Hs Ht) as (s' & A & ->).
  unfold bind. by rewrite (compile_loop_stuck fuel s' l ls [] A Hl).
Qed.

(** * Witnesses *)

(** ["int main() { reboot(1); }"] *)
Definition demo_text : list Z :=
  [105; 110; 116; 32; 109; 97; 105; 110; 40; 41; 32; 123; 32; 114; 101; 98; 111; 111; 116; 40; 49; 41; 59; 32; 125].
Definition demo_state : dcc := Dcc [] TOKEN_EOF [] 0 [].

Definition demo_prog : list stmt := [Reboot [49]].

Lemma spelled_word w x c ls rest :
  forallb is_space w = true -> forallb is_alnum x = true -> (exists b r, x = b :: r /\ is_letter b = true) ->
  (length x < TOKEN_STRING_SIZE)%nat -> is_alnum c = false -> spelled ls (c :: rest) ->
  spelled (LWord x :: ls) (w ++ x ++ c :: rest).
Proof.
  intros Hw Hx Hb Hl Hc Hs. apply (spelled_cons w (LWord x)); [| |by exists c, rest|done].
  - apply Forall_forall. intros y Hy. rewrite forallb_forall in Hw. apply Hw. by apply list_elem_of_In.
  - split; [done|]. split; [|done]. apply Forall_forall. intros y Hy.
    rewrite forallb_forall in Hx. apply Hx. by apply list_elem_of_In.
Qed.

Lemma spelled_punct w x c ls rest :
  forallb is_space w = true -> is_Some (punct_tok x) -> spelled ls (c :: rest) ->
  spelled (LPunct x :: ls) (w ++ x :: c :: rest).
Proof.
  intros Hw Hx Hs. apply (spelled_cons w (LPunct x)); [|done|by exists c, rest|done].
  apply Forall_forall. intros y Hy. rewrite forallb_forall in Hw. apply Hw. by apply list_elem_of_In.
Qed.

Lemma demo_spelled : spelled (program_lex demo_prog) (demo_text ++ [0]).
Proof.
  apply (spelled_word [] kw_int); [done|done|by eexists _, _|unfold TOKEN_STRING_SIZE; cbn; lia|done|].
  apply (spelled_word [32] kw_main); [done|done|by eexists _, _|unfold TOKEN_STRING_SIZE; cbn; lia|done|].
  apply (spelled_punct [] 40); [done|by eexists|].
  apply (spelled_punct [] 41); [done|by eexists|].
  apply (spelled_punct [32] 123); [done|by eexists|].
  apply (spelled_word [32] kw_reboot); [done|done|by eexists _, _|unfold TOKEN_STRING_SIZE; cbn; lia|done|].
  apply (spelled_punct [] 40); [done|by eexists|].
  apply (spelled_cons [] (LNum [49])); [done|split_and!; [done|by repeat constructor|done]|by eexists _, _|].
  apply (spelled_punct [] 41); [done|by eexists|].
  apply (spelled_punct [] 59); [done|by eexists|].
  apply (spelled_punct [32] 125); [done|by eexists|].
  apply (spelled_end []). done.
Qed.


(** [reboot(1)] is called with 0xffffffff. *)
Lemma dcc_reboot_argument_lost_witness :
  exists out s' last, dcc_main 1 3 (Text demo_text) true demo_state = Ret (out, s') /\
    cpu out 0 5 84 0 [0xffffffff; 1] = Some [(SYS_reboot, 0xffffffff); (SYS_exit, last)].
Proof.
  apply (dcc_reboot_argument_lost [[49]] demo_text 1 demo_state [1] 0 demo_spelled);
    [cbn; lia|done|unfold CODE_BUF; cbn; lia].
Defined.

(** ["int main(){;}"] *)
Lemma dcc_diverges_witness : forall fuel,
  dcc_main fuel 3 (Text [105; 110; 116; 32; 109; 97; 105; 110; 40; 41; 123; 59; 125]) true demo_state = NoFuel.
Proof.
  intros fuel. apply (dcc_diverges (LPunct 59) [LPunct 125]); [|cbn; lia|].
  2:{ cbn. rewrite !not_elem_of_cons. split_and!; try done. apply not_elem_of_nil. }
  apply (spelled_word [] kw_int); [done|done|by eexists _, _|unfold TOKEN_STRING_SIZE; cbn; lia|done|].
  apply (spelled_word [32] kw_main); [done|done|by eexists _, _|unfold TOKEN_STRING_SIZE; cbn; lia|done|].
  repeat (apply (spelled_punct [] _); [done|by eexists|]).
  apply (spelled_end []). done.
Defined.
