(* ===== verification/ExecDcc.v ===== *)
(** Running what [dcc] compiles: [exec] of the executable that [dcc] writes starts the
    machine on the compiled instructions, with the stack that [exec] builds. *)

From stdpp Require Import gmap.
From S2P Require Import Prelude CString Mmu Kalloc Vm VmSpec VmThm VmCopy VmSpace VmSetup VmLoad VmFork.
From S2P Require Import Exec ExecThm ExecClaims Dcc DccThm DccClaims.

Lemma executable_length p : length (executable p) = (84 + length (program_code p))%nat.
Proof. unfold executable. by rewrite length_app, header_length. Qed.

(** The program header of the executable loads the whole file at address 0. *)
Lemma executable_segs p : (length (program_code p) <= CODE_BUF)%nat ->
  let n := Z.of_nat (length (executable p)) in
  segs_image (executable p) 1 52 0 (fun _ => 0) =
    Some (n, put_img 0 (executable p) (zero_above 0 (fun _ => 0))).
Proof.
  intros Hp n. pose proof (executable_length p) as Hl. unfold CODE_BUF in Hp.
  assert (Hn : n = 84 + Z.of_nat (length (program_code p))) by (unfold n; lia).
  cbn [segs_image]. unfold struct_at. rewrite (proj2 (Z.ltb_ge _ _)) by (fold n; unfold proghdr_size; lia).
  cbn [mbind option_bind].
  assert (proghdr_of (slice (executable p) 52 proghdr_size) = Proghdr ELF_PROG_LOAD 0 0 n n) as ->.
  { unfold slice, executable. rewrite Hn. apply write_elf_header_ph. lia. }
  unfold seg_image. cbn [ph_type ph_memsz ph_filesz ph_vaddr ph_off]. rewrite !Z.eqb_refl. cbn [negb].
  rewrite Z.ltb_irrefl, Z.add_0_l, (proj2 (Z.leb_gt KERNBASE n)) by (unfold KERNBASE; lia).
  rewrite Z.max_r by lia. rewrite (proj2 (Z.eqb_neq n 0)) by lia. cbn [Z.modulo].
  change (0 mod PGSIZE) with 0. cbn [Z.eqb negb]. fold n. rewrite Z.ltb_irrefl, andb_false_r, (proj2 (Z.ltb_ge n 0)) by lia.
  assert (slice (executable p) 0 n = executable p) as ->; [|done].
  unfold slice. cbn [Z.to_nat drop]. rewrite drop_0. apply take_ge. unfold n. lia.
Qed.

(** What is pushed lies at or above the stack pointer. *)
Lemma push_image_low argv : forall sp img sp' ptrs img' x,
  push_image argv sp img = (sp', ptrs, img') -> x < sp' -> img' x = img x.
Proof.
  induction argv as [|a argv IH]; intros sp img sp' ptrs img' x H Hx; cbn [push_image] in H; [by simplify_eq|].
  set (sp1 := align4 _) in *. destruct (push_image argv sp1 _) as [[sp2 ps] img2] eqn:E. simplify_eq.
  destruct (push_image_facts _ _ _ _ _ _ E) as [Hle _]. rewrite (IH _ _ _ _ _ _ E Hx). unfold put_img.
  destruct (Z.leb_spec sp1 x); [lia|done].
Qed.

(** The stack is in the last page, with the return address on top. *)
Lemma stack_image_facts argv top img sp img' : stack_image argv top img = Some (sp, img') ->
  top - PGSIZE <= sp /\ sp + 16 <= top /\ (forall x, x < top - PGSIZE -> img' x = img x) /\
  forall i, 0 <= i < 4 -> img' (sp + i) = 255.
Proof.
  unfold stack_image. destruct (push_image argv top img) as [[sp0 ptrs] img1] eqn:E.
  destruct (push_image_facts _ _ _ _ _ _ E) as [Hle Hps].
  destruct ((MAXARG <? length argv)%nat || _) eqn:Eb; [done|].
  apply orb_false_iff in Eb as [_ Hb%Z.ltb_ge].
  remember (ustack sp0 ptrs ≫= le_bytes 4) as w eqn:Ew. intros [= <- <-].
  split_and!; [lia|lia| |].
  - intros x Hx. unfold put_img. destruct (Z.leb_spec (sp0 - (4 + Z.of_nat (length argv)) * 4) x); [lia|].
    cbn [andb]. eapply push_image_low; [exact E|]. lia.
  - intros i Hi. unfold put_img. rewrite Ew, ustack_bytes.
    destruct (Z.leb_spec (sp0 - (4 + Z.of_nat (length argv)) * 4) (sp0 - (4 + Z.of_nat (length argv)) * 4 + i)); [|lia].
    destruct (Z.ltb_spec (sp0 - (4 + Z.of_nat (length argv)) * 4 + i)
      (sp0 - (4 + Z.of_nat (length argv)) * 4 + Z.of_nat (4 * (4 + length ptrs)))); [|lia].
    cbn [andb]. rewrite Z.add_simpl_l. unfold ustack. cbn [app].
    rewrite bind_cons, app_nth1 by (rewrite length_le_bytes; lia).
    assert (i = 0 \/ i = 1 \/ i = 2 \/ i = 3) as [->|[->|[->| ->]]] by lia; done.
Qed.

Lemma executable_image p argv sp img : (length (program_code p) <= CODE_BUF)%nat ->
  let n := Z.of_nat (length (executable p)) in
  stack_image argv (PGSIZE * 3) (zero_above n (put_img 0 (executable p) (zero_above 0 (fun _ => 0)))) = Some (sp, img) ->
  exec_image (executable p) argv = Some (84, PGSIZE * 3, sp, img) /\ exec_need (executable p) = 77.
Proof.
  intros Hp n Hst. pose proof (executable_length p) as Hl.
  pose proof (executable_segs p Hp) as Hs. cbv zeta in Hs. fold n in Hs. unfold CODE_BUF in Hp.
  assert (Hn : 84 <= n <= 596) by (unfold n; lia).
  assert (Hpg : pages n = 1).
  { unfold pages, PGSIZE. symmetry. apply Z.div_unique with (n - 1); lia. }
  assert (Hd : struct_at (executable p) 0 elfhdr_size = Some (take 52 (executable p))).
  { unfold struct_at. rewrite (proj2 (Z.ltb_ge _ _)) by (fold n; unfold elfhdr_size; lia).
    unfold slice. change (Z.to_nat 0) with O. by rewrite drop_0. }
  assert (He : elfhdr_of (take 52 (executable p)) = Elfhdr ELF_MAGIC 84 52 1) by (unfold executable; apply write_elf_header_elf).
  clearbody n. unfold exec_image, exec_need. rewrite Hd. cbn [mbind option_bind]. rewrite He.
  cbn [e_magic e_phnum e_phoff e_entry]. change (Z.to_nat 1) with 1%nat. rewrite Hs. cbn [mbind option_bind].
  rewrite Hpg, Z.eqb_refl. cbn [negb]. change (KERNBASE <=? PGSIZE * (1 + 2)) with false. cbv iota.
  change (PGSIZE * (1 + 2)) with (PGSIZE * 3). by rewrite Hst.
Qed.

Lemma nth_executable p x : 0 <= x < Z.of_nat (length (executable p)) ->
  put_img 0 (executable p) (zero_above 0 (fun _ => 0)) x = nth (Z.to_nat x) (executable p) 0.
Proof.
  intros Hx. unfold put_img. rewrite Z.add_0_l, Z.sub_0_r.
  destruct (Z.leb_spec 0 x), (Z.ltb_spec x (Z.of_nat (length (executable p)))); simpl; done || lia.
Qed.

Section run.
Context (kend data : Z) (Hkend : 0 < kend < 2 ^ 32) (Hkern : KERNBASE < kend).
Context (Hdata : KERNLINK < data < KERNBASE + PHYSTOP) (Hdatap : data mod PGSIZE = 0).
Context (namei : list Z -> option (Z -> Z -> option (list Z))).

End run.

(** * Witnesses *)

Definition demo_readi (file : list Z) (off n : Z) : option (list Z) :=
  if (Z.of_nat (length file) <? off) || (u32 (off + n) <? off) then None
  else Some (take (Z.to_nat n) (drop (Z.to_nat off) file)).
Definition demo_namei (path : list Z) : option (Z -> Z -> option (list Z)) :=
  Some (demo_readi (executable demo_prog)).
Definition demo_image : image := Image demo_dir 0 0 0 (replicate 16 0).

Lemma demo_old km : (forall x, demo_dir <= x < demo_dir + PGSIZE -> km_mem km x = 0) ->
  free_pages demo_kend km (demo_pages 80) ->
  uspace demo_kend (km_mem km) demo_dir ∅ (fun _ => 0) /\
  forall q, holds demo_dir ∅ (fun _ => 0) q -> q ∉ demo_pages 80.
Proof.
  intros Hz [F M].
  assert (Hd : demo_dir ∉ demo_pages 80) by (intros Hx%demo_pages_range; unfold demo_dir in Hx; lia).
  assert (R : aspace demo_kend km (demo_pages 80) demo_dir ∅ (fun _ => 0)) by by apply aspace_empty.
  destruct (uspace_of demo_kend _ _ _ _ _ R (user_ok_empty demo_kend _ _)) as (_ & S & H). done.
Qed.


Lemma demo_stack img : exists img', stack_image [[97]] (PGSIZE * 3) img = Some (12264, img').
Proof. eexists. reflexivity. Qed.

