(* ===== verification/Mp.v ===== *)
(** [mp.c]: the multiprocessor tables that the firmware leaves in memory.

    Memory is read only here. [mpsearch] finds the floating pointer structure, [mpconfig]
    checks the configuration table it points to, and [mpinit] walks over the entries of
    the table and records the processors and the I/O APIC. *)

From S2P Require Import Prelude CString Mmu.

(** * The code *)

Definition NCPU : Z := 8.
Definition MPPROC : Z := 0.
Definition MPBUS : Z := 1.
Definition MPIOAPIC : Z := 2.
Definition MPIOINTR : Z := 3.
Definition MPLINTR : Z := 4.

(** Sizes of the structures of mp.h. *)
Definition mp_size : Z := 16.
Definition mpconf_size : Z := 44.
Definition mpproc_size : Z := 20.
Definition mpioapic_size : Z := 8.

(** [ncpu], the field [apicid] of [cpus], [ioapicid], [lapic] and the bytes sent to ports. *)
Record mpinfo := Mpinfo {
  ncpu : Z; apicids : list Z; ioapicid : Z; lapic : Z; ports : list (Z * Z)
}.

Local Abbreviation P := (M mpinfo).

Section mp.
(** Memory by virtual address, and what [inb(0x23)] reads. *)
Context (m : mem) (imcr : Z).

(** [n] bytes of a field at an address. *)
Definition field (n : nat) (p : Z) : Z := le_word ((fun i => m (u32 (p + Z.of_nat i))) <$> seq 0 n).

Fixpoint sum_loop (addr : Z) (len : nat) (acc : Z) : Z :=
  match len with
  | O => acc
  | S len => sum_loop (u32 (addr + 1)) len (s32 (acc + m addr))
  end.

Definition sum (addr len : Z) : Z := u8 (sum_loop addr (Z.to_nat len) 0).

(** [memcmp(p, s, n) == 0] for the signature [s] *)
Fixpoint is_sig (p : Z) (s : list Z) : bool :=
  match s with
  | [] => true
  | c :: s => if m p =? c then is_sig (u32 (p + 1)) s else false
  end.

Definition sig_mp : list Z := [95; 77; 80; 95].
Definition sig_pcmp : list Z := [80; 67; 77; 80].

(** The test of the loop of [mpsearch1]. *)
Definition is_mp (p : Z) : bool := is_sig p sig_mp && (sum p mp_size =? 0).

Fixpoint mpsearch1_loop (fuel : nat) (p e : Z) : P Z :=
  if p <? e then
    match fuel with
    | O => fun _ => NoFuel
    | S fuel => if is_mp p then ret p else mpsearch1_loop fuel (u32 (p + mp_size)) e
    end
  else ret 0.

Definition mpsearch1 (a len : Z) : P Z :=
  let addr := P2V a in
  mpsearch1_loop (Z.to_nat (len / mp_size)) addr (u32 (addr + len)).

Definition mpsearch : P Z :=
  let bda := P2V 0x400 in
  let p := Z.shiftl (Z.lor (Z.shiftl (m (bda + 0x0f)) 8) (m (bda + 0x0e))) 4 in
  let* mp :=
    (if negb (p =? 0) then mpsearch1 p 1024
     else
       let p := Z.lor (Z.shiftl (m (bda + 0x14)) 8) (m (bda + 0x13)) * 1024 in
       mpsearch1 (u32 (p - 1024)) 1024) in
  if negb (mp =? 0) then ret mp else mpsearch1 0xf0000 0x10000.

(** The floating pointer and the configuration table. *)
Definition mpconfig : P (option (Z * Z)) :=
  let* mp := mpsearch in
  if mp =? 0 then ret None
  else if field 4 (mp + 4) =? 0 then ret None
  else
    let conf := P2V (field 4 (mp + 4)) in
    if negb (is_sig conf sig_pcmp) then ret None
    else if negb (field 1 (conf + 6) =? 1) && negb (field 1 (conf + 6) =? 4) then ret None
    else if negb (sum conf (field 2 (conf + 4)) =? 0) then ret None
    else ret (Some (mp, conf)).

Definition add_cpu (id : Z) (s : mpinfo) : mpinfo :=
  if ncpu s <? NCPU then
    Mpinfo (ncpu s + 1) (<[Z.to_nat (ncpu s) := id]> (apicids s)) (ioapicid s) (lapic s) (ports s)
  else s.
Definition set_ioapicid (id : Z) (s : mpinfo) : mpinfo :=
  Mpinfo (ncpu s) (apicids s) id (lapic s) (ports s).
Definition set_lapic (a : Z) (s : mpinfo) : mpinfo :=
  Mpinfo (ncpu s) (apicids s) (ioapicid s) a (ports s).
Definition out_port (port v : Z) : P unit := modify (fun s =>
  Mpinfo (ncpu s) (apicids s) (ioapicid s) (lapic s) (ports s ++ [(port, v)])).

(** The loop over the entries. The [break] of its default case ends the [switch], not the
    loop, so that the same entry is looked at again. *)
Fixpoint mpinit_loop (fuel : nat) (p e : Z) (ismp : bool) : P bool :=
  if p <? e then
    match fuel with
    | O => fun _ => NoFuel
    | S fuel =>
        let type := field 1 p in
        if type =? MPPROC then
          modify (add_cpu (field 1 (p + 1))) ;;;
          mpinit_loop fuel (u32 (p + mpproc_size)) e ismp
        else if type =? MPIOAPIC then
          modify (set_ioapicid (field 1 (p + 1))) ;;;
          mpinit_loop fuel (u32 (p + mpioapic_size)) e ismp
        else if (type =? MPBUS) || (type =? MPIOINTR) || (type =? MPLINTR) then
          mpinit_loop fuel (u32 (p + 8)) e ismp
        else mpinit_loop fuel p e false
    end
  else ret ismp.

Definition mpinit (fuel : nat) : P unit :=
  let* r := mpconfig in
  match r with
  | None => panic "Expect to run on an SMP"
  | Some (mp, conf) =>
      modify (set_lapic (field 4 (conf + 36))) ;;;
      let* ismp := mpinit_loop fuel (u32 (conf + mpconf_size)) (u32 (conf + field 2 (conf + 4))) true in
      if negb ismp then panic "Didn't find a suitable machine"
      else if negb (field 1 (mp + 12) =? 0) then
        out_port 0x22 0x70 ;;;
        out_port 0x23 (Z.lor imcr 1)
      else ret tt
  end.

(** * The tables *)

(** An entry of the table, with the bytes that the kernel does not look at. *)
Inductive entry :=
| Eproc (id : Z) (rest : list Z)
| Eioapic (id : Z) (rest : list Z)
| Eother (type : Z) (rest : list Z).

Definition encode (en : entry) : list Z :=
  match en with
  | Eproc id rest => MPPROC :: id :: rest
  | Eioapic id rest => MPIOAPIC :: id :: rest
  | Eother type rest => type :: rest
  end.

Definition entry_ok (en : entry) : Prop :=
  match en with
  | Eproc id rest => length rest = 18%nat
  | Eioapic id rest => length rest = 6%nat
  | Eother type rest => (type = MPBUS \/ type = MPIOINTR \/ type = MPLINTR) /\ length rest = 7%nat
  end.

(** The processors of a table, and the I/O APIC it names last. *)
Definition cpus_of (es : list entry) : list Z :=
  omap (fun en => match en with Eproc id _ => Some id | _ => None end) es.
Definition ioapics_of (es : list entry) : list Z :=
  omap (fun en => match en with Eioapic id _ => Some id | _ => None end) es.

(** The bytes [l] lie at [p]. *)
Definition holds (p : Z) (l : list Z) : Prop :=
  Forall byte_ok l /\ forall i b, l !! i = Some b -> m (p + Z.of_nat i) = b.

(** The places where the floating pointer may be, in the order of the search. *)
Definition steps (a : Z) (n : nat) : list Z := (fun k => P2V a + mp_size * Z.of_nat k) <$> seq 0 n.

Definition mp_places : list Z :=
  let ebda := Z.shiftl (field 2 (P2V 0x40e)) 4 in
  let base := field 2 (P2V 0x413) * 1024 in
  (if ebda =? 0 then steps (u32 (base - 1024)) 64 else steps ebda 64) ++
  steps 0xf0000 (64 * 64).
End mp.
