(* ===== verification/MpThm.v ===== *)
(** Theorems about [mp.c]: [mpinit] reads back the processors and the I/O APIC from any
    configuration table that the specification allows, and does not return for a table
    with an entry of another type. *)

From S2P Require Import Prelude CString Mmu Mp.

(** * Fields and check sums *)

Definition sum_list (l : list Z) : Z := foldr Z.add 0 l.

Lemma sum_list_app l k : sum_list (l ++ k) = sum_list l + sum_list k.
Proof. unfold sum_list. induction l as [|x l IH]; cbn in *; lia. Qed.

Lemma u8_s32 x : u8 (s32 x) = u8 x.
Proof.
  unfold u8, s32, u32. cbn zeta. rewrite (Zmod_eq_full x (2 ^ 32)) by lia. destruct (_ <? _).
  - replace (x - x / 2 ^ 32 * 2 ^ 32) with (x + (- (x / 2 ^ 32) * 2 ^ 24) * 2 ^ 8) by lia.
    by rewrite Z.mod_add by lia.
  - replace (x - x / 2 ^ 32 * 2 ^ 32 - 2 ^ 32) with (x + (- (x / 2 ^ 32 + 1) * 2 ^ 24) * 2 ^ 8) by lia.
    by rewrite Z.mod_add by lia.
Qed.

Lemma u8_add_l x y : u8 (u8 x + y) = u8 (x + y).
Proof. unfold u8. by rewrite Z.add_mod_idemp_l by lia. Qed.

Section tables.
Context (m : mem).

Lemma holds_app p l k : holds m p (l ++ k) <-> holds m p l /\ holds m (p + Z.of_nat (length l)) k.
Proof.
  unfold holds. rewrite Forall_app. split.
  - intros [[Hfl Hfk] H]. split_and!; try done.
    + intros i b Hi. apply H. by apply lookup_app_l_Some.
    + intros i b Hi. rewrite <- Z.add_assoc, <- Nat2Z.inj_add. apply H. by rewrite lookup_app_r, Nat.add_comm, Nat.add_sub by lia.
  - intros [[Hfl Hl] [Hfk Hk]]. split; [done|]. intros i b [Hi|[Hi Hb]]%lookup_app_Some; [auto|].
    rewrite <- (Hk _ _ Hb). f_equal. lia.
Qed.

Lemma holds_cons p b l : holds m p (b :: l) <-> byte_ok b /\ m p = b /\ holds m (p + 1) l.
Proof.
  change (b :: l) with ([b] ++ l). rewrite holds_app. cbn [length]. unfold holds. rewrite Forall_singleton. split.
  - intros [[Hbb H] Hl]. split; [done|]. split; [|done]. rewrite <- (H 0%nat b) by done. f_equal. lia.
  - intros (? & Hb & ?). split; [|done]. split; [done|]. intros [|i] b' Hi; [|done]. cbn in Hi. simplify_eq. f_equal. lia.
Qed.

(** A field of a structure in memory is the same field of its bytes. *)
Lemma field_holds p l n off : holds m p l -> 0 <= p -> p + Z.of_nat (length l) <= 2 ^ 32 ->
  (off + n <= length l)%nat -> field m n (p + Z.of_nat off) = getn n l off.
Proof.
  intros [Hb H] Hp Hl Ho. unfold field, getn.
  assert ((fun i => m (u32 (p + Z.of_nat off + Z.of_nat i))) <$> seq 0 n = take n (drop off l)) as ->.
  { apply list_eq. intros i. rewrite list_lookup_fmap. destruct (decide (i < n)%nat) as [Hi|Hi].
    - rewrite lookup_seq_lt by done. cbn [fmap option_fmap option_map].
      destruct (lookup_lt_is_Some_2 l (off + i) ltac:(lia)) as [b Hlb].
      rewrite lookup_take_lt, lookup_drop, Hlb by done. f_equal. rewrite u32_small by lia.
      rewrite <- (H _ _ Hlb). f_equal. lia.
    - rewrite lookup_seq_ge, lookup_take_ge by lia. done. }
  symmetry. apply Z.mod_small. set (k := take n (drop off l)).
  replace n with (length k) by (unfold k; rewrite length_take, length_drop; lia).
  apply le_word_range. by apply Forall_take, Forall_drop.
Qed.

Lemma sum_loop_holds l : forall p acc, holds m p l -> 0 <= p -> p + Z.of_nat (length l) <= 2 ^ 32 ->
  u8 (sum_loop m p (length l) acc) = u8 (acc + sum_list l).
Proof.
  induction l as [|b l IH]; intros p acc Hh Hp Hl; cbn [length sum_loop sum_list foldr].
  { f_equal. lia. }
  apply holds_cons in Hh as (_ & Hb & Hh). cbn [length] in Hl. rewrite Hb.
  destruct l as [|b' l].
  { cbn. rewrite u8_s32. f_equal. lia. }
  cbn [length] in Hl. rewrite u32_small, IH by (cbn [length]; done || lia).
  rewrite <- u8_add_l, u8_s32, u8_add_l. f_equal. unfold sum_list. lia.
Qed.

Lemma sum_holds p l : holds m p l -> 0 <= p -> p + Z.of_nat (length l) <= 2 ^ 32 ->
  sum m p (Z.of_nat (length l)) = u8 (sum_list l).
Proof. intros. unfold sum. rewrite Nat2Z.id. by rewrite sum_loop_holds. Qed.

Lemma is_sig_holds s : forall p l, holds m p (s ++ l) -> 0 <= p -> p + Z.of_nat (length s) < 2 ^ 32 -> is_sig m p s = true.
Proof.
  induction s as [|c s IH]; intros p l Hh Hp Hl; [done|]. cbn [app] in Hh.
  apply holds_cons in Hh as (_ & Hb & Hh). cbn [length is_sig] in *. rewrite Hb, Z.eqb_refl.
  rewrite u32_small by lia. apply (IH _ l); [done|lia|lia].
Qed.

(** * The search *)

Lemma search_loop_run n : forall p s, 0 <= p -> p + mp_size * Z.of_nat n < 2 ^ 32 ->
  mpsearch1_loop m n p (p + mp_size * Z.of_nat n) s =
    Ret (default 0 (List.find (is_mp m) ((fun k => p + mp_size * Z.of_nat k) <$> seq 0 n)), s).
Proof.
  unfold mp_size. induction n as [|n IH]; intros p s Hp He.
  { cbn [mpsearch1_loop]. by rewrite (proj2 (Z.ltb_ge _ _)) by lia. }
  cbn [mpsearch1_loop]. rewrite (proj2 (Z.ltb_lt _ _)) by lia.
  cbn [seq fmap list_fmap List.find]. rewrite Z.mul_0_r, Z.add_0_r.
  destruct (is_mp m p); [done|]. unfold mp_size. rewrite u32_small by lia.
  replace (p + 16 * Z.of_nat (S n)) with (p + 16 + 16 * Z.of_nat n) by lia.
  rewrite IH by lia. do 4 f_equal. rewrite <- seq_shift, <- list_fmap_compose.
  apply list_fmap_ext. intros i k _. cbn. lia.
Qed.

Lemma mpsearch1_run a n s : P2V a + mp_size * Z.of_nat n < 2 ^ 32 ->
  mpsearch1 m a (mp_size * Z.of_nat n) s = Ret (default 0 (List.find (is_mp m) (steps a n)), s).
Proof.
  intros H. unfold mpsearch1. assert (0 <= P2V a) by apply u32_range.
  rewrite u32_small by (unfold mp_size in *; lia).
  rewrite Z.mul_comm, Z.div_mul, Nat2Z.id, Z.mul_comm by (unfold mp_size; lia). by apply search_loop_run.
Qed.

Lemma find_app {A} (f : A -> bool) l k :
  List.find f (l ++ k) = match List.find f l with Some x => Some x | None => List.find f k end.
Proof. induction l as [|x l IH]; [done|]. cbn. by destruct (f x). Qed.

(** The word of the BIOS data area as the code puts it together. *)
Lemma bda_word p : (forall a, byte_ok (m a)) -> 0 <= p < 2 ^ 32 - 1 ->
  Z.lor (Z.shiftl (m (p + 1)) 8) (m p) = field m 2 p /\ 0 <= field m 2 p < 2 ^ 16.
Proof.
  intros Hb Hp. unfold field. cbn [seq fmap list_fmap le_word].
  rewrite !u32_small, Z.add_0_r by lia. change (Z.of_nat 1) with 1.
  pose proof (Hb p) as H0. pose proof (Hb (p + 1)) as H1. unfold byte_ok in *.
  rewrite lor_byte by lia. lia.
Qed.

Lemma steps_find_pos a n p : 0 < P2V a -> List.find (is_mp m) (steps a n) = Some p -> (p =? 0) = false.
Proof.
  intros Ha [Hin _]%List.find_some. apply list_elem_of_In, list_elem_of_fmap in Hin as (k & -> & _).
  apply Z.eqb_neq. unfold mp_size. lia.
Qed.

(** One region and then the read-only memory of the firmware. *)
Lemma search_two a n k s : 0 < P2V a -> P2V a + mp_size * Z.of_nat n < 2 ^ 32 ->
  P2V 0xf0000 + mp_size * Z.of_nat k < 2 ^ 32 ->
  (let* mp := mpsearch1 m a (mp_size * Z.of_nat n) in
   if negb (mp =? 0) then ret mp else mpsearch1 m 0xf0000 (mp_size * Z.of_nat k)) s =
  Ret (default 0 (List.find (is_mp m) (steps a n ++ steps 0xf0000 k)), s).
Proof.
  intros Ha Hn Hk. unfold bind. rewrite mpsearch1_run by done. rewrite find_app.
  destruct (List.find (is_mp m) (steps a n)) as [p|] eqn:E; cbn [from_option id].
  - by rewrite (steps_find_pos _ _ _ Ha E).
  - by apply mpsearch1_run.
Qed.

Lemma mpsearch_run s : (forall a, byte_ok (m a)) ->
  mpsearch m s = Ret (default 0 (List.find (is_mp m) (mp_places m)), s).
Proof.
  intros Hb. unfold mpsearch, mp_places. cbn zeta.
  destruct (bda_word (P2V 0x40e) Hb) as [He Hr]; [done|].
  destruct (bda_word (P2V 0x413) Hb) as [Hm Hr']; [done|].
  replace (Z.lor (Z.shiftl (m (P2V 0x400 + 0x0f)) 8) (m (P2V 0x400 + 0x0e))) with (field m 2 (P2V 0x40e)) by exact (eq_sym He).
  replace (Z.lor (Z.shiftl (m (P2V 0x400 + 0x14)) 8) (m (P2V 0x400 + 0x13))) with (field m 2 (P2V 0x413)) by exact (eq_sym Hm).
  set (ebda := field m 2 (P2V 0x40e)) in *. set (base := field m 2 (P2V 0x413)) in *. clearbody ebda base.
  rewrite Z.shiftl_mul_pow2 by lia. set (k := (64 * 64)%nat).
  replace 0x10000 with (mp_size * Z.of_nat k) by done.
  replace 1024 with (mp_size * Z.of_nat 64) by done.
  assert (P2V 0xf0000 + mp_size * Z.of_nat k < 2 ^ 32) as Hk by done. clearbody k.
  assert (forall a, 0 <= a < 2 ^ 30 -> P2V a = a + KERNBASE) as Hv.
  { intros a Ha. apply u32_small. unfold KERNBASE. lia. }
  assert (0 < KERNBASE < 2 ^ 32 - 2 ^ 30) as HK by done.
  destruct (Z.eqb_spec (ebda * 2 ^ 4) 0) as [->|Hne]; cbn [negb].
  - change (mp_size * Z.of_nat 64) with 1024.
    assert (0 < P2V (u32 (base * 1024 - 1024)) < 2 ^ 32 - 2048) as Hbase.
    { destruct (decide (base = 0)) as [->|]; [done|]. rewrite u32_small, Hv by lia. lia. }
    apply (search_two _ 64 k); [lia| |done]. change (mp_size * Z.of_nat 64) with 1024. lia.
  - apply (search_two _ 64 k); [| |done]; rewrite Hv by lia; [lia|].
    change (mp_size * Z.of_nat 64) with 1024. lia.
Qed.

(** * The entries *)

(** What the kernel records of an entry. *)
Definition record (s : mpinfo) (en : entry) : mpinfo :=
  match en with
  | Eproc id _ => add_cpu id s
  | Eioapic id _ => set_ioapicid id s
  | Eother _ _ => s
  end.

Lemma field1_holds p b l : holds m p (b :: l) -> 0 <= p < 2 ^ 32 -> field m 1 p = b.
Proof.
  intros (Hb & H & _)%holds_cons Hp. unfold field. cbn [seq fmap list_fmap le_word].
  change (Z.of_nat 0) with 0. rewrite (Z.add_0_r p), u32_small, H by lia. lia.
Qed.

Lemma entry_step fuel p e en l s : holds m p (encode en ++ l) -> entry_ok en -> 0 <= p ->
  p + Z.of_nat (length (encode en)) <= e -> e < 2 ^ 32 ->
  mpinit_loop m (S fuel) p e true s = mpinit_loop m fuel (p + Z.of_nat (length (encode en))) e true (record s en).
Proof.
  intros Hh Hok Hp He Hw. cbn [mpinit_loop].
  assert ((p <? e) = true) as -> by (apply Z.ltb_lt; destruct en; cbn [encode length] in He; lia).
  destruct en as [id rest|id rest|ty rest]; cbn [encode app entry_ok length] in *.
  - pose proof Hh as (_ & _ & Hh')%holds_cons.
    rewrite (field1_holds _ _ _ Hh), (field1_holds _ _ _ Hh') by lia. cbn [MPPROC Z.eqb].
    unfold mpproc_size. rewrite u32_small by lia. by rewrite Hok.
  - pose proof Hh as (_ & _ & Hh')%holds_cons.
    rewrite (field1_holds _ _ _ Hh), (field1_holds _ _ _ Hh') by lia.
    rewrite (u32_small (p + mpioapic_size)) by (unfold mpioapic_size; lia). by rewrite Hok.
  - destruct Hok as [Hty Hl]. rewrite (field1_holds _ _ _ Hh) by lia. rewrite (u32_small (p + 8)), Hl by lia.
    by destruct Hty as [->|[->| ->]].
Qed.

Lemma entries_run es : forall fuel p e l s, holds m p ((es ≫= encode) ++ l) -> Forall entry_ok es -> 0 <= p ->
  p + Z.of_nat (length (es ≫= encode)) <= e -> e < 2 ^ 32 ->
  mpinit_loop m (length es + fuel) p e true s =
    mpinit_loop m fuel (p + Z.of_nat (length (es ≫= encode))) e true (foldl record s es).
Proof.
  induction es as [|en es IH]; intros fuel p e l s Hh Hok Hp He Hw.
  { cbn. by rewrite Z.add_0_r. }
  apply Forall_cons in Hok as [Hen Hok]. cbn [mbind list_bind length] in *. rewrite <- app_assoc in Hh.
  rewrite length_app in He |- *. cbn [Nat.add]. rewrite (entry_step _ _ _ en ((es ≫= encode) ++ l)) by (done || lia).
  apply holds_app in Hh as [_ Hh]. cbn [foldl].
  rewrite (IH fuel _ e l) by (done || lia). f_equal. lia.
Qed.
End tables.

(** The processors recorded so far are the first ones of [ids]. *)
Definition recorded (ids : list Z) (s : mpinfo) : Prop :=
  ncpu s = Z.of_nat (length (take 8 ids)) /\ take (length (take 8 ids)) (apicids s) = take 8 ids /\
  length (apicids s) = 8%nat.

Lemma recorded_add ids id s : recorded ids s -> recorded (ids ++ [id]) (add_cpu id s).
Proof.
  intros (Hn & Ht & Hl). unfold add_cpu. rewrite Hn, length_take in *. unfold NCPU.
  destruct (Z.ltb_spec (Z.of_nat (8 `min` length ids)) 8) as [Hlt|Hge]; unfold recorded; cbn [ncpu apicids].
  - assert (length ids < 8)%nat by lia. rewrite Nat.min_r in * by lia. rewrite (take_ge ids) in Ht by lia.
    rewrite length_take, length_app, length_insert, Nat2Z.id. cbn [length].
    rewrite Nat.min_r, (take_ge (ids ++ [id])) by (rewrite ?length_app; cbn [length]; lia).
    split_and!; [lia| |done].
    rewrite Nat.add_1_r, (take_S_r _ _ id) by (apply list_lookup_insert_eq; lia).
    by rewrite take_insert_ge, Ht by lia.
  - assert (8 <= length ids)%nat by lia. rewrite Nat.min_l in Hn, Ht by lia. rewrite length_take, length_app. cbn [length].
    rewrite Nat.min_l by lia. rewrite take_app_le by lia. split_and!; [lia|done|done].
Qed.

Lemma recorded_all es : forall ids s, recorded ids s -> recorded (ids ++ cpus_of es) (foldl record s es).
Proof.
  induction es as [|en es IH]; intros ids s H; [by rewrite app_nil_r|].
  destruct en as [id r|id r|ty r]; cbn [foldl record cpus_of omap list_omap].
  - change (id :: omap _ es) with ([id] ++ cpus_of es). rewrite app_assoc. by apply IH, recorded_add.
  - by apply IH.
  - by apply IH.
Qed.

Lemma recorded_rest es : forall s, let s' := foldl record s es in
  ioapicid s' = default (ioapicid s) (last (ioapics_of es)) /\ lapic s' = lapic s /\ ports s' = ports s.
Proof.
  induction es as [|en es IH]; intros s; [done|]. cbn zeta in *. cbn [foldl].
  destruct (IH (record s en)) as (-> & -> & ->).
  destruct en as [id r|id r|ty r]; cbn [record ioapics_of omap list_omap]; [| |done].
  - unfold add_cpu. by destruct (_ <? _).
  - split_and!; [|done..]. change (omap _ es) with (ioapics_of es). rewrite last_cons. by destruct (last (ioapics_of es)).
Qed.

(** * [mpinit] *)

(** The firmware left a floating pointer at [mp] and, at the address [conf] that it names,
    a configuration table with a valid header: signature, length, version, check sum. *)
Record mp_conf (m : mem) (mp conf : Z) (hdr body : list Z) : Prop := {
  mc_bytes : forall a, byte_ok (m a);
  mc_mp : List.find (is_mp m) (mp_places m) = Some mp;
  mc_addr : field m 4 (mp + 4) <> 0;
  mc_conf : conf = P2V (field m 4 (mp + 4));
  mc_holds : holds m conf (hdr ++ body);
  mc_fit : conf + Z.of_nat (length (hdr ++ body)) < 2 ^ 32;
  mc_hdr : length hdr = 44%nat;
  mc_sig : take 4 hdr = sig_pcmp;
  mc_length : getn 2 hdr 4 = Z.of_nat (length (hdr ++ body));
  mc_version : getn 1 hdr 6 = 1 \/ getn 1 hdr 6 = 4;
  mc_sum : u8 (sum_list (hdr ++ body)) = 0
}.

Lemma steps_pos a n p : 0 < P2V a -> p ∈ steps a n -> 0 < p.
Proof. intros Ha (k & -> & _)%list_elem_of_fmap. unfold mp_size. lia. Qed.

Lemma mp_places_pos m p : (forall a, byte_ok (m a)) -> p ∈ mp_places m -> 0 < p.
Proof.
  intros Hb. unfold mp_places. cbn zeta.
  destruct (bda_word m (P2V 0x40e) Hb) as [_ Hr]; [done|].
  destruct (bda_word m (P2V 0x413) Hb) as [_ Hr']; [done|].
  set (ebda := field m 2 (P2V 0x40e)) in *. set (base := field m 2 (P2V 0x413)) in *. clearbody ebda base.
  rewrite Z.shiftl_mul_pow2 by lia.
  assert (forall a, 0 <= a < 2 ^ 30 -> 0 < P2V a) as Hv.
  { intros a Ha. unfold P2V. rewrite u32_small by (unfold KERNBASE; lia). unfold KERNBASE. lia. }
  intros [H|H]%elem_of_app; [|by eapply steps_pos; [|exact H]].
  destruct (Z.eqb_spec (ebda * 2 ^ 4) 0).
  - eapply steps_pos; [|exact H]. destruct (decide (base = 0)) as [->|]; [done|].
    rewrite u32_small by lia. apply Hv. lia.
  - eapply steps_pos; [|exact H]. apply Hv. lia.
Qed.

Section init.
Context (m : mem) (mp conf : Z) (hdr body : list Z) (Hc : mp_conf m mp conf hdr body).

Lemma conf_pos : 0 <= conf.
Proof using Hc. rewrite (mc_conf _ _ _ _ _ Hc). apply u32_range. Qed.

(** A field of the header. *)
Lemma hdr_field n off : (off + n <= 44)%nat -> field m n (conf + Z.of_nat off) = getn n hdr off.
Proof using Hc.
  intros H. pose proof conf_pos. pose proof (mc_fit _ _ _ _ _ Hc) as Hf. rewrite length_app in Hf.
  destruct (proj1 (holds_app _ _ _ _) (mc_holds _ _ _ _ _ Hc)) as [Hh _].
  apply field_holds; [done|done|lia|]. rewrite (mc_hdr _ _ _ _ _ Hc). lia.
Qed.

Lemma mpconfig_run s : mpconfig m s = Ret (Some (mp, conf), s).
Proof using Hc.
  pose proof conf_pos. pose proof (mc_fit _ _ _ _ _ Hc) as Hf.
  unfold mpconfig, bind. rewrite mpsearch_run by apply (mc_bytes _ _ _ _ _ Hc).
  rewrite (mc_mp _ _ _ _ _ Hc). cbn [from_option id].
  rewrite (proj2 (Z.eqb_neq mp 0)).
  2: { destruct (List.find_some _ _ (mc_mp _ _ _ _ _ Hc)) as [Hin _]. apply list_elem_of_In in Hin.
       apply mp_places_pos in Hin; [lia|apply (mc_bytes _ _ _ _ _ Hc)]. }
  rewrite (proj2 (Z.eqb_neq _ 0) (mc_addr _ _ _ _ _ Hc)), <- (mc_conf _ _ _ _ _ Hc).
  rewrite (is_sig_holds m sig_pcmp conf (drop 4 hdr ++ body)).
  2: { rewrite app_assoc, <- (mc_sig _ _ _ _ _ Hc), take_drop. apply (mc_holds _ _ _ _ _ Hc). }
  2: done.
  2: { rewrite length_app, (mc_hdr _ _ _ _ _ Hc) in Hf. change (length sig_pcmp) with 4%nat. lia. }
  change 6 with (Z.of_nat 6). change 4 with (Z.of_nat 4) at 1. change (conf + 4) with (conf + Z.of_nat 4).
  rewrite !hdr_field by lia. rewrite (mc_length _ _ _ _ _ Hc), sum_holds, (mc_sum _ _ _ _ _ Hc)
    by (try apply (mc_holds _ _ _ _ _ Hc); lia).
  by destruct (mc_version _ _ _ _ _ Hc) as [->| ->].
Qed.

(** What is left of [mpinit] when the table has been found. *)
Lemma mpinit_found fuel imcr s :
  mpinit m imcr fuel s =
  (let* ismp := mpinit_loop m fuel (conf + 44) (conf + Z.of_nat (length (hdr ++ body))) true in
   if negb ismp then panic "Didn't find a suitable machine"
   else if negb (field m 1 (mp + 12) =? 0) then out_port 0x22 0x70 ;;; out_port 0x23 (Z.lor imcr 1)
   else ret tt) (set_lapic (getn 4 hdr 36) s).
Proof using Hc.
  pose proof conf_pos. pose proof (mc_fit _ _ _ _ _ Hc) as Hf. pose proof Hf as Hf'.
  rewrite length_app, (mc_hdr _ _ _ _ _ Hc) in Hf'.
  unfold mpinit. unfold bind at 1. rewrite mpconfig_run. unfold bind at 1, modify.
  change (conf + 36) with (conf + Z.of_nat 36). change (conf + 4) with (conf + Z.of_nat 4).
  rewrite !hdr_field by lia. rewrite (mc_length _ _ _ _ _ Hc).
  unfold mpconf_size. rewrite !u32_small by lia. done.
Qed.
End init.


(** A loop that meets an entry of another type stays there. *)
Lemma loop_stuck m e fuel : forall p ismp s, p < e ->
  ~ (0 <= field m 1 p <= 4) -> mpinit_loop m fuel p e ismp s = NoFuel.
Proof.
  induction fuel as [|fuel IH]; intros p ismp s Hp Ht; cbn [mpinit_loop]; rewrite (proj2 (Z.ltb_lt _ _)) by done; [done|].
  unfold MPPROC, MPIOAPIC, MPBUS, MPIOINTR, MPLINTR.
  rewrite !(proj2 (Z.eqb_neq (field m 1 p) _)) by lia. by apply IH.
Qed.

Lemma entries_stuck m e ty rest es : forall fuel p s, holds m p ((es ≫= encode) ++ ty :: rest) -> Forall entry_ok es ->
  4 < ty -> 0 <= p -> p + Z.of_nat (length ((es ≫= encode) ++ ty :: rest)) <= e -> e < 2 ^ 32 ->
  mpinit_loop m fuel p e true s = NoFuel.
Proof.
  induction es as [|en es IH]; intros fuel p s Hh Hok Hty Hp He Hw.
  { cbn [mbind list_bind app length] in *. apply loop_stuck; [lia|].
    rewrite (field1_holds _ _ _ _ Hh) by lia. lia. }
  apply Forall_cons in Hok as [Hen Hok]. cbn [mbind list_bind] in *. rewrite <- app_assoc in Hh, He. rewrite length_app in He.
  assert (0 < length (encode en))%nat by (destruct en; cbn; lia).
  destruct fuel as [|fuel]; [cbn [mpinit_loop]; by rewrite (proj2 (Z.ltb_lt _ _)) by lia|].
  rewrite (entry_step m fuel p e en _ s Hh) by (done || lia).
  apply holds_app in Hh as [_ Hh]. apply IH; [done..|lia| |done]. lia.
Qed.

(** C20. When the configuration table has an entry whose type is none of the five known
    ones, [mpinit] never returns and never panics: the [break] of the default case leaves
    the [switch] and not the loop, which looks at the same entry for ever, so that the
    check that follows the loop is not reached. *)
Theorem mpinit_unknown_entry_hangs m imcr mp conf hdr es ty rest fuel s :
  mp_conf m mp conf hdr ((es ≫= encode) ++ ty :: rest) -> Forall entry_ok es -> 4 < ty ->
  mpinit m imcr fuel s = NoFuel.
Proof.
  intros Hc Hok Hty. rewrite (mpinit_found _ _ _ _ _ Hc). unfold bind at 1.
  pose proof (mc_fit _ _ _ _ _ Hc) as Hfit. pose proof (conf_pos _ _ _ _ _ Hc).
  destruct (proj1 (holds_app _ _ _ _) (mc_holds _ _ _ _ _ Hc)) as [_ Hb]. rewrite (mc_hdr _ _ _ _ _ Hc) in Hb.
  rewrite (entries_stuck m _ ty rest es); try done; [lia|].
  rewrite (length_app hdr), (mc_hdr _ _ _ _ _ Hc). lia.
Qed.

(** * A machine *)

(** Memory with the bytes [l] at [base]. *)
Definition overlay (base : Z) (l : list Z) (m : mem) : mem := fun a =>
  if (base <=? a) && (a <? base + Z.of_nat (length l)) then nth (Z.to_nat (a - base)) l 0 else m a.

Lemma overlay_holds base l m : Forall byte_ok l -> holds (overlay base l m) base l.
Proof.
  intros Hl. split; [done|]. intros i b Hi. unfold overlay. pose proof (lookup_lt_Some _ _ _ Hi).
  rewrite (proj2 (Z.leb_le _ _)), (proj2 (Z.ltb_lt _ _)) by lia. cbn [andb].
  replace (Z.to_nat (base + Z.of_nat i - base)) with i by lia. by apply nth_lookup_Some.
Qed.

Lemma overlay_bytes base l m : Forall byte_ok l -> (forall a, byte_ok (m a)) -> forall a, byte_ok (overlay base l m a).
Proof.
  intros Hl Hm a. unfold overlay. destruct (_ && _); [|done].
  destruct (decide (Z.to_nat (a - base) < length l)%nat) as [Hi|Hi].
  - destruct (lookup_lt_is_Some_2 l _ Hi) as [b Hb]. rewrite (nth_lookup_Some _ _ _ _ Hb). by eapply Forall_lookup_1.
  - rewrite nth_overflow by lia. unfold byte_ok. lia.
Qed.

(** Two processors and an I/O APIC; the extended BIOS data area is at 0x9fc00. *)
Definition demo_entries : list entry :=
  [Eproc 5 (replicate 18 0); Eproc 7 (replicate 18 1); Eother 1 (replicate 7 73); Eioapic 2 (replicate 6 0)].
Definition demo_hdr (len cks : Z) : list Z :=
  sig_pcmp ++ [len; 0; 4; cks] ++ replicate 28 0 ++ [0; 0; 0xe0; 0xfe] ++ replicate 4 0.
Definition demo_fp : list Z := sig_mp ++ [0; 0xfd; 9; 0; 1; 4; 0x99; 0; 1; 0; 0; 0].
Definition demo_mem (table : list Z) : mem :=
  overlay 0x8009fd00 table (overlay 0x8009fc00 demo_fp (overlay 0x8000040e [0xc0; 0x9f] (fun _ => 0))).
Definition demo_info : mpinfo := Mpinfo 0 (replicate 8 0) 0 0 [].

Definition demo_table : list Z := demo_hdr 100 104 ++ (demo_entries ≫= encode).
Definition demo_bad : list Z := demo_hdr 101 231 ++ ((demo_entries ≫= encode) ++ [0x80]).

Lemma demo_bytes table : Forall byte_ok table -> forall a, byte_ok (demo_mem table a).
Proof.
  intros Ht. unfold demo_mem. repeat apply overlay_bytes; try done;
    repeat constructor; unfold byte_ok; lia.
Qed.

Lemma demo_conf hdr body : hdr ++ body = demo_table \/ hdr ++ body = demo_bad -> length hdr = 44%nat ->
  mp_conf (demo_mem (hdr ++ body)) 0x8009fc00 0x8009fd00 hdr body.
Proof.
  intros Ht Hl.
  assert (Forall byte_ok (hdr ++ body)) as Hb.
  { by destruct Ht as [->| ->]; repeat constructor; unfold byte_ok. }
  assert (hdr = take 44 (hdr ++ body)) as Hhdr by by rewrite <- Hl, take_app_length.
  split.
  - by apply demo_bytes.
  - destruct Ht as [->| ->]; by vm_compute.
  - destruct Ht as [->| ->]; by vm_compute.
  - destruct Ht as [->| ->]; by vm_compute.
  - by apply overlay_holds.
  - destruct Ht as [->| ->]; by vm_compute.
  - exact Hl.
  - rewrite Hhdr. destruct Ht as [->| ->]; by vm_compute.
  - rewrite Hhdr at 1. destruct Ht as [->| ->]; by vm_compute.
  - rewrite Hhdr. right. destruct Ht as [->| ->]; by vm_compute.
  - destruct Ht as [->| ->]; by vm_compute.
Qed.

Lemma demo_entries_ok : Forall entry_ok demo_entries.
Proof. repeat constructor; cbn; auto. Qed.


Lemma mpinit_unknown_entry_hangs_witness :
  mpinit (demo_mem demo_bad) 0 1000 demo_info = NoFuel.
Proof.
  exact (mpinit_unknown_entry_hangs _ 0 0x8009fc00 0x8009fd00 (demo_hdr 101 231) demo_entries 0x80 [] 1000 demo_info
    (demo_conf (demo_hdr 101 231) ((demo_entries ≫= encode) ++ [0x80]) (or_intror eq_refl) eq_refl) demo_entries_ok eq_refl).
Defined.
