(* ===== verification/Boot.v ===== *)
(** [bootmain.c]: the boot loader, which reads the kernel from the disk into memory.

    The disk is the controller of Ide.v; the loop that polls it ends when the controller has
    finished its command. Memory is the flat memory of the processor, as segmentation
    maps it one to one. *)

From S2P Require Import Prelude CString Mmu Vm VmCopy Ide IdeThm Exec.

(** * The code *)

Definition SECTSIZE : Z := 512.

Record bst := Bst { b_mem : mem; b_ctl : ctl }.

Local Abbreviation B := (M bst).

Definition port_out (port v : Z) : B unit := modify (fun s => Bst (b_mem s) (ctl_out port v (b_ctl s))).

(** [waitdisk()]: the controller finishes what it does, and the status says so. *)
Definition waitdisk : B unit :=
  modify (fun s => Bst (b_mem s) (ctl_finish IDE_DRDY (b_ctl s))) ;;;
  let* r := gets (fun s => c_status (b_ctl s)) in
  if negb (Z.land r 0xc0 =? 0x40) then block else ret tt.

(** [insl(0x1F0, dst, SECTSIZE/4)] *)
Definition sector_in (dst : Z) : B unit := fun s =>
  match c_command (b_ctl s) with
  | Some (Reading drive lba) =>
      match ctl_sector drive lba (b_ctl s) with
      | Some d => Ret (tt, Bst (put_bytes (b_mem s) dst d) (set_command None (b_ctl s)))
      | None => Fault
      end
  | _ => Fault
  end.

Definition readsect (dst offset : Z) : B unit :=
  waitdisk ;;;
  port_out 0x1f2 1 ;;;
  port_out 0x1f3 (u8 offset) ;;;
  port_out 0x1f4 (u8 (Z.shiftr offset 8)) ;;;
  port_out 0x1f5 (u8 (Z.shiftr offset 16)) ;;;
  port_out 0x1f6 (u8 (Z.lor (Z.shiftr offset 24) 0xe0)) ;;;
  port_out 0x1f7 0x20 ;;;
  waitdisk ;;;
  sector_in dst.

Fixpoint readseg_loop (fuel : nat) (pa epa offset : Z) : B unit :=
  if pa <? epa then
    match fuel with
    | O => fun _ => NoFuel
    | S fuel =>
        readsect pa offset ;;;
        readseg_loop fuel (u32 (pa + SECTSIZE)) epa (u32 (offset + 1))
    end
  else ret tt.

Definition readseg (pa count offset : Z) : B unit :=
  let epa := u32 (pa + count) in
  let pa := u32 (pa - offset mod SECTSIZE) in
  readseg_loop (Z.to_nat (count / SECTSIZE + 2)) pa epa (u32 (offset / SECTSIZE + 1)).

(** [n] bytes of memory. *)
Definition mem_bytes (m : mem) (a : Z) (n : nat) : list Z := (fun i => m (a + Z.of_nat i)) <$> seq 0 n.

(** The field [paddr] of [struct proghdr]. *)
Definition ph_paddr (d : list Z) : Z := getn 4 d 12.

(** The segment of a program header. *)
Definition load_one (d : list Z) : B unit :=
  let h := proghdr_of d in
  let pa := ph_paddr d in
  readseg pa (ph_filesz h) (ph_off h) ;;;
  (if ph_filesz h <? ph_memsz h then
     modify (fun s => Bst (stosb (b_mem s) (u32 (pa + ph_filesz h)) 0
                             (Z.to_nat (ph_memsz h - ph_filesz h))) (b_ctl s))
   else ret tt).

(** The loop over the program headers, which lie in memory. *)
Fixpoint load_loop (n : nat) (ph eph : Z) : B unit :=
  if ph <? eph then
    match n with
    | O => fun _ => NoFuel
    | S n =>
        let* d := gets (fun s => mem_bytes (b_mem s) ph 32) in
        load_one d ;;;
        load_loop n (u32 (ph + proghdr_size)) eph
    end
  else ret tt.

(** The address to which [bootmain] jumps, or [None] when it returns. *)
Definition bootmain : B (option Z) :=
  let elf := 0x10000 in
  readseg elf 4096 0 ;;;
  let* d := gets (fun s => mem_bytes (b_mem s) elf 52) in
  let h := elfhdr_of d in
  if negb (e_magic h =? ELF_MAGIC) then ret None
  else
    let ph := u32 (elf + e_phoff h) in
    let eph := u32 (ph + e_phnum h * proghdr_size) in
    load_loop (Z.to_nat (e_phnum h)) ph eph ;;;
    let* d := gets (fun s => mem_bytes (b_mem s) elf 52) in
    ret (Some (e_entry (elfhdr_of d))).

(** * Reading sectors *)

(** The kernel image starts at sector 1 of drive 0: its byte [i]. *)
Definition kbyte (ss : list (list Z)) (i : Z) : Z :=
  nth (Z.to_nat (i mod SECTSIZE)) (nth (Z.to_nat (i / SECTSIZE + 1)) ss []) 0.

(** Drive 0 has the sectors [ss]. *)
Definition boot_disk (ss : list (list Z)) (c : ctl) : Prop :=
  c_drives c !! 0%nat = Some ss /\ Forall (fun d => length d = Z.to_nat SECTSIZE) ss /\
  match c_command c with Some (Writing _ _ _) => False | _ => True end.

Lemma boot_drive x : 0 <= x < 16 ->
  Z.land (Z.shiftr (u8 (Z.lor x 0xe0)) 4) 1 = 0 /\ Z.land (u8 (Z.lor x 0xe0)) 0x0f = x.
Proof.
  intros Hx. assert (Hall : forallb (fun x => (Z.land (Z.shiftr (u8 (Z.lor x 0xe0)) 4) 1 =? 0) &&
    (Z.land (u8 (Z.lor x 0xe0)) 0x0f =? x)) (seqZ 0 16) = true) by (vm_compute; reflexivity).
  rewrite forallb_forall in Hall. specialize (Hall x). rewrite andb_true_iff, !Z.eqb_eq in Hall. apply Hall.
  apply list_elem_of_In, elem_of_seqZ. lia.
Qed.

Lemma u8_land x : u8 x = Z.land x 0xff.
Proof. unfold u8. change 0xff with (Z.ones 8). by rewrite Z.land_ones by lia. Qed.

Definition ready (c : ctl) : ctl :=
  Ctl (r_count c) (r_lba0 c) (r_lba1 c) (r_lba2 c) (r_drive c) IDE_DRDY (c_command c) (c_drives c).

Lemma waitdisk_run s : match c_command (b_ctl s) with Some (Writing _ _ _) => False | _ => True end ->
  waitdisk s = Ret (tt, Bst (b_mem s) (ready (b_ctl s))).
Proof.
  intros Hc. unfold waitdisk, bind, modify, gets. replace (ctl_finish IDE_DRDY (b_ctl s)) with (ready (b_ctl s)); [done|].
  unfold ctl_finish, ready. cbn. by destruct (c_command (b_ctl s)) as [[| ? ? [|]]|].
Qed.

(** [readsect] puts sector [offset] at [dst]. *)
Lemma readsect_run ss dst offset d s : boot_disk ss (b_ctl s) -> 0 <= offset < 2 ^ 28 ->
  ss !! Z.to_nat offset = Some d ->
  exists c, readsect dst offset s = Ret (tt, Bst (put_bytes (b_mem s) dst d) c) /\ boot_disk ss c.
Proof.
  intros (Hd & Hlen & Hcmd) Ho Hss. pose proof (low_bytes offset Ho) as Hlb.
  destruct (boot_drive (Z.shiftr offset 24)) as [Hd1 Hd2].
  { rewrite Z.shiftr_div_pow2 by lia. split; [apply Z.div_pos; lia|apply Z.div_lt_upper_bound; lia]. }
  set (x := u8 (Z.lor (Z.shiftr offset 24) 0xe0)) in *.
  assert (Hx : Z.land (Z.shiftr offset 24) 0x0f = Z.shiftr offset 24).
  { change 0x0f with (Z.ones 4). rewrite Z.land_ones, Z.mod_small; [done| |lia].
    rewrite Z.shiftr_div_pow2 by lia. split; [apply Z.div_pos; lia|apply Z.div_lt_upper_bound; lia]. }
  rewrite Hx, <- !u8_land in Hlb.
  unfold readsect. rewrite (bind_Ret _ _ _ _ _ (waitdisk_run s Hcmd)).
  unfold bind at 1 2 3 4 5 6, port_out, modify.
  unfold bind at 1. rewrite waitdisk_run by exact I. unfold sector_in.
  cbn -[u8 Z.lor Z.land Z.shiftl Z.shiftr Z.to_nat]. unfold ctl_drive, ctl_lba. cbn -[u8 Z.lor Z.land Z.shiftl Z.shiftr Z.to_nat].
  fold x. rewrite Hd1, Hd2, Hlb. unfold ctl_sector. cbn -[u8 Z.lor Z.land Z.shiftl Z.shiftr Z.to_nat].
  change (Z.to_nat 0) with 0%nat. rewrite Hd. cbn [mbind option_bind]. rewrite Hss. eexists. split; [reflexivity|]. by split_and!.
Qed.

(** [m'] is [m] with the bytes [f] from [lo] to [hi]. *)
Definition patched (m m' : mem) (lo hi : Z) (f : Z -> Z) : Prop :=
  forall x, m' x = if (lo <=? x) && (x <? hi) then f x else m x.

Lemma patched_in m m' lo hi f x : patched m m' lo hi f -> lo <= x < hi -> m' x = f x.
Proof. intros H Hx. rewrite H. by rewrite (proj2 (Z.leb_le _ _)), (proj2 (Z.ltb_lt _ _)) by lia. Qed.

Lemma patched_out m m' lo hi f x : patched m m' lo hi f -> x < lo \/ hi <= x -> m' x = m x.
Proof.
  intros H Hx. rewrite H. destruct (Z.leb_spec lo x); [|done]. by rewrite (proj2 (Z.ltb_ge _ _)) by lia.
Qed.

Lemma patched_trans m1 m2 m3 lo mid hi f : lo <= mid <= hi ->
  patched m1 m2 lo mid f -> patched m2 m3 mid hi f -> patched m1 m3 lo hi f.
Proof.
  intros Hm H1 H2 x. rewrite H2, H1.
  destruct (Z.leb_spec lo x), (Z.ltb_spec x hi), (Z.leb_spec mid x), (Z.ltb_spec x mid); cbn [andb]; done || lia.
Qed.

Lemma readseg_loop_run ss n : forall fuel pa epa off base s, boot_disk ss (b_ctl s) -> (n <= fuel)%nat ->
  0 <= pa -> pa + SECTSIZE * Z.of_nat n < 2 ^ 32 -> 0 <= off -> off + Z.of_nat n < 2 ^ 28 ->
  (Z.to_nat off + n <= length ss)%nat -> base = pa - SECTSIZE * (off - 1) ->
  pa + SECTSIZE * Z.of_nat n - SECTSIZE < epa <= pa + SECTSIZE * Z.of_nat n ->
  exists s', readseg_loop fuel pa epa off s = Ret (tt, s') /\ boot_disk ss (b_ctl s') /\
    patched (b_mem s) (b_mem s') pa (pa + SECTSIZE * Z.of_nat n) (fun x => kbyte ss (x - base)).
Proof.
  unfold SECTSIZE. induction n as [|n IH]; intros fuel pa epa off base s Hd Hf Hp Hw Ho Hob Hss Hbase He.
  { exists s. split_and!; [|done|].
    - destruct fuel; cbn [readseg_loop]; by rewrite (proj2 (Z.ltb_ge _ _)) by lia.
    - intros x. destruct (Z.leb_spec pa x), (Z.ltb_spec x (pa + 512 * Z.of_nat 0)); cbn [andb]; done || lia. }
  destruct fuel as [|fuel]; [lia|]. cbn [readseg_loop]. rewrite (proj2 (Z.ltb_lt _ _)) by lia.
  destruct (lookup_lt_is_Some_2 ss (Z.to_nat off) ltac:(lia)) as [d Hsd].
  destruct (readsect_run ss pa off d s Hd ltac:(lia) Hsd) as (c & Hr & Hc).
  rewrite (bind_Ret _ _ _ _ _ Hr). unfold SECTSIZE. rewrite !u32_small by lia.
  destruct (IH fuel (pa + 512) epa (off + 1) base (Bst (put_bytes (b_mem s) pa d) c)) as (s' & Hr' & Hd' & Hp');
    [done|lia..|]. exists s'. split_and!; [done|done|].
  replace (pa + 512 + 512 * Z.of_nat n) with (pa + 512 * Z.of_nat (S n)) in Hp' by lia.
  eapply patched_trans; [|clear Hp'|exact Hp']; [lia|]. cbn [b_mem].
  destruct Hd as (_ & Hlen & _). pose proof (Forall_lookup_1 _ _ _ _ Hlen Hsd) as Hdl. cbn beta in Hdl.
  intros x. rewrite put_bytes_lookup, Hdl. change (Z.of_nat (Z.to_nat SECTSIZE)) with 512.
  destruct (Z.leb_spec pa x), (Z.ltb_spec x (pa + 512)); cbn [andb]; try done.
  unfold kbyte, SECTSIZE. subst base.
  replace (x - (pa - 512 * (off - 1))) with (x - pa + (off - 1) * 512) by lia.
  rewrite Z.mod_add, Z.div_add, (Z.mod_small (x - pa)), (Z.div_small (x - pa)) by lia.
  replace (Z.to_nat (0 + (off - 1) + 1)) with (Z.to_nat off) by lia. by rewrite (nth_lookup_Some _ _ _ _ Hsd).
Qed.

(** The sectors that [readseg(pa, count, offset)] reads, from the first address it writes. *)
Definition seg_start (pa off : Z) : Z := pa - off mod SECTSIZE.
Definition seg_sects (count off : Z) : nat := Z.to_nat ((count + off mod SECTSIZE + SECTSIZE - 1) / SECTSIZE).

(** [readseg] copies the bytes asked for, and the rest of their sectors, to memory. *)
Lemma readseg_run ss pa count off s : boot_disk ss (b_ctl s) -> 0 <= count -> 0 <= off ->
  let start := seg_start pa off in let n := seg_sects count off in
  0 <= start -> start + SECTSIZE * Z.of_nat n < 2 ^ 32 ->
  off / SECTSIZE + 1 + Z.of_nat n < 2 ^ 28 -> (Z.to_nat (off / SECTSIZE + 1) + n <= length ss)%nat ->
  exists s', readseg pa count off s = Ret (tt, s') /\ boot_disk ss (b_ctl s') /\
    patched (b_mem s) (b_mem s') start (start + SECTSIZE * Z.of_nat n) (fun x => kbyte ss (x - (pa - off))).
Proof.
  unfold seg_start, seg_sects, SECTSIZE. intros Hd Hc Ho. cbn zeta. intros Hs Hw Hob Hss.
  pose proof (Z.mod_pos_bound off 512 ltac:(lia)). pose proof (Z.div_mod off 512 ltac:(lia)).
  assert (0 <= off / 512) by (apply Z.div_pos; lia).
  set (k := (count + off mod 512 + 512 - 1) / 512) in *.
  assert (512 * k <= count + off mod 512 + 511 < 512 * k + 512) as Hk.
  { pose proof (Z.div_mod (count + off mod 512 + 512 - 1) 512 ltac:(lia)).
    pose proof (Z.mod_pos_bound (count + off mod 512 + 512 - 1) 512 ltac:(lia)). fold k in H1. lia. }
  assert (0 <= count / 512 /\ count < 512 * (count / 512) + 512) as Hcd.
  { pose proof (Z.div_mod count 512 ltac:(lia)). pose proof (Z.mod_pos_bound count 512 ltac:(lia)).
    split; [apply Z.div_pos; lia|lia]. }
  unfold readseg, SECTSIZE. rewrite !u32_small by lia.
  apply readseg_loop_run; unfold SECTSIZE; try done; lia.
Qed.

(** * Segments *)

(** The fields of a program header that the boot loader uses. *)
Record bseg := Bseg { g_pa : Z; g_off : Z; g_filesz : Z; g_memsz : Z }.
Definition bseg_of (d : list Z) : bseg :=
  Bseg (ph_paddr d) (ph_off (proghdr_of d)) (ph_filesz (proghdr_of d)) (ph_memsz (proghdr_of d)).

(** The first address it writes, the end of the segment and the end of what it writes. *)
Definition g_start (g : bseg) : Z := seg_start (g_pa g) (g_off g).
Definition g_end (g : bseg) : Z := g_pa g + Z.max (g_filesz g) (g_memsz g).
Definition g_top (g : bseg) : Z :=
  Z.max (g_start g + SECTSIZE * Z.of_nat (seg_sects (g_filesz g) (g_off g))) (g_end g).

(** The end of the page at 0x10000 into which the headers are read. *)
Definition SCRATCH_END : Z := 0x11000.

(** The segment lies above the headers, and its sectors are on the disk. *)
Record seg_fits (ss : list (list Z)) (g : bseg) : Prop := {
  sf_start : SCRATCH_END <= g_start g;
  sf_top : g_top g < 2 ^ 32;
  sf_lba : g_off g / SECTSIZE + 1 + Z.of_nat (seg_sects (g_filesz g) (g_off g)) < 2 ^ 28;
  sf_disk : (Z.to_nat (g_off g / SECTSIZE + 1) + seg_sects (g_filesz g) (g_off g) <= length ss)%nat
}.

(** Memory holds the segment: its bytes of the file, and zeros after them. *)
Definition seg_loaded (ss : list (list Z)) (m : mem) (g : bseg) : Prop :=
  (forall x, g_pa g <= x < g_pa g + g_filesz g -> m x = kbyte ss (g_off g + (x - g_pa g))) /\
  (forall x, g_pa g + g_filesz g <= x < g_pa g + g_memsz g -> m x = 0).

Lemma bseg_range d : 0 <= g_off (bseg_of d) /\ 0 <= g_filesz (bseg_of d) /\ 0 <= g_memsz (bseg_of d).
Proof. cbn. split_and!; apply getn_range. Qed.

Lemma sects_cover count off : 0 <= count -> 0 <= off ->
  count + off mod SECTSIZE <= SECTSIZE * Z.of_nat (seg_sects count off) < count + off mod SECTSIZE + SECTSIZE.
Proof.
  intros Hc Ho. unfold seg_sects, SECTSIZE. pose proof (Z.mod_pos_bound off 512 ltac:(lia)).
  set (k := (count + off mod 512 + 512 - 1) / 512).
  pose proof (Z.div_mod (count + off mod 512 + 512 - 1) 512 ltac:(lia)) as Hk. fold k in Hk.
  pose proof (Z.mod_pos_bound (count + off mod 512 + 512 - 1) 512 ltac:(lia)). lia.
Qed.

Lemma load_one_run ss d s : boot_disk ss (b_ctl s) -> seg_fits ss (bseg_of d) ->
  exists s', load_one d s = Ret (tt, s') /\ boot_disk ss (b_ctl s') /\ seg_loaded ss (b_mem s') (bseg_of d) /\
    forall x, x < g_start (bseg_of d) \/ g_top (bseg_of d) <= x -> b_mem s' x = b_mem s x.
Proof.
  intros Hd [Hs Ht Hl Hk]. destruct (bseg_range d) as (Ho & Hf & Hm).
  pose proof (sects_cover _ _ Hf Ho) as Hcov.
  unfold g_top, g_end, g_start, bseg_of in *. cbn [g_pa g_off g_filesz g_memsz] in *.
  set (h := proghdr_of d) in *. set (pa := ph_paddr d) in *. set (n := seg_sects (ph_filesz h) (ph_off h)) in *.
  unfold SCRATCH_END in Hs. assert (0 <= seg_start pa (ph_off h)) as Hs0 by lia.
  destruct (readseg_run ss pa (ph_filesz h) (ph_off h) s Hd Hf Ho Hs0) as (s1 & Hr & Hd1 & Hp); [fold n; lia|done|done|].
  fold n in Hp. pose proof (Z.mod_pos_bound (ph_off h) SECTSIZE ltac:(done)). unfold seg_start in *.
  assert (forall x, pa <= x < pa + ph_filesz h -> b_mem s1 x = kbyte ss (ph_off h + (x - pa))) as Hfile.
  { intros x Hx. rewrite (patched_in _ _ _ _ _ _ Hp) by lia. f_equal. lia. }
  unfold load_one. fold h pa. rewrite (bind_Ret _ _ _ _ _ Hr).
  destruct (Z.ltb_spec (ph_filesz h) (ph_memsz h)) as [Hz|Hz].
  - eexists. split; [reflexivity|]. cbn [b_ctl b_mem]. split_and!; [done| |].
    + split; cbn [g_pa g_filesz g_memsz g_off]; intros x Hx; rewrite stosb_lookup, u32_small by lia;
        destruct (Z.leb_spec (pa + ph_filesz h) x), (Z.ltb_spec x (pa + ph_filesz h + Z.of_nat (Z.to_nat (ph_memsz h - ph_filesz h))));
        cbn [andb]; try lia; [by apply Hfile|done].
    + intros x Hx. rewrite stosb_lookup, u32_small by lia.
      destruct (Z.leb_spec (pa + ph_filesz h) x), (Z.ltb_spec x (pa + ph_filesz h + Z.of_nat (Z.to_nat (ph_memsz h - ph_filesz h))));
        cbn [andb]; try (apply (patched_out _ _ _ _ _ _ Hp)); lia.
  - exists s1. split_and!; [done|done| |].
    + split; cbn [g_pa g_filesz g_memsz g_off]; [done|]. intros x Hx. lia.
    + intros x Hx. apply (patched_out _ _ _ _ _ _ Hp). lia.
Qed.

(** * The loader *)

(** A relation between every two segments of a list, in order. *)
Definition in_order (gs : list bseg) : Prop :=
  forall i j g g', (i < j)%nat -> gs !! i = Some g -> gs !! j = Some g' -> g_end g <= g_start g'.

Lemma in_order_cons g gs : in_order (g :: gs) -> in_order gs /\ Forall (fun g' => g_end g <= g_start g') gs.
Proof.
  intros H. split.
  - intros i j h h' Hij Hi Hj. apply (H (S i) (S j)); [lia|done|done].
  - apply Forall_lookup. intros j g' Hj. apply (H O (S j)); [lia|done|done].
Qed.

(** The segments of [n] headers in memory from [ph] on. *)
Definition segs_at (m : mem) (ph : Z) (n : nat) : list bseg :=
  (fun k => bseg_of (mem_bytes m (ph + proghdr_size * Z.of_nat k) 32)) <$> seq 0 n.

Lemma segs_at_S m ph n : segs_at m ph (S n) = bseg_of (mem_bytes m ph 32) :: segs_at m (ph + proghdr_size) n.
Proof.
  unfold segs_at. cbn [seq fmap list_fmap]. f_equal; [by rewrite Z.mul_0_r, Z.add_0_r|].
  rewrite <- seq_shift. rewrite <- list_fmap_compose. apply list_fmap_ext. intros i k _. unfold compose, proghdr_size.
  do 2 f_equal. lia.
Qed.

Lemma mem_bytes_ext m m' a n : (forall x, a <= x < a + Z.of_nat n -> m' x = m x) -> mem_bytes m' a n = mem_bytes m a n.
Proof.
  intros H. unfold mem_bytes. apply list_fmap_ext. intros i k Hk. apply lookup_seq in Hk as [-> Hk]. apply H. lia.
Qed.

Lemma load_loop_run ss m0 n : forall ph s, boot_disk ss (b_ctl s) ->
  (forall x, x < SCRATCH_END -> b_mem s x = m0 x) -> 0 <= ph -> ph + proghdr_size * Z.of_nat n <= SCRATCH_END ->
  Forall (seg_fits ss) (segs_at m0 ph n) -> in_order (segs_at m0 ph n) ->
  exists s', load_loop n ph (ph + proghdr_size * Z.of_nat n) s = Ret (tt, s') /\
    Forall (seg_loaded ss (b_mem s')) (segs_at m0 ph n) /\
    forall x, Forall (fun g => x < g_start g \/ g_top g <= x) (segs_at m0 ph n) -> b_mem s' x = b_mem s x.
Proof.
  unfold SCRATCH_END, proghdr_size. induction n as [|n IH]; intros ph s Hd Hm Hp Hw Hfit Hord.
  { exists s. cbn [load_loop]. by rewrite (proj2 (Z.ltb_ge _ _)) by lia. }
  rewrite segs_at_S in *. set (g := bseg_of (mem_bytes m0 ph 32)) in *. unfold proghdr_size in *.
  apply Forall_cons in Hfit as [Hg Hfit]. apply in_order_cons in Hord as [Hord Hnext].
  cbn [load_loop]. rewrite (proj2 (Z.ltb_lt _ _)) by lia. unfold bind at 1, gets.
  rewrite (mem_bytes_ext m0) by (intros; apply Hm; lia).
  destruct (load_one_run ss (mem_bytes m0 ph 32) s Hd Hg) as (s1 & Hr & Hd1 & Hl1 & Hout1).
  pose proof (sf_start _ _ Hg) as Hgs. unfold SCRATCH_END in Hgs. fold g in Hl1, Hout1.
  rewrite (bind_Ret _ _ _ _ _ Hr). unfold proghdr_size. rewrite u32_small by lia.
  destruct (IH (ph + 32) s1) as (s' & Hr' & Hl' & Hout'); [done| |lia..|done|done|].
  { intros x Hx. rewrite Hout1 by lia. by apply Hm. }
  exists s'. split_and!; [by replace (ph + 32 * Z.of_nat (S n)) with (ph + 32 + 32 * Z.of_nat n) by lia| |].
  - constructor; [|done].
    assert (forall x, g_pa g <= x < g_end g -> b_mem s' x = b_mem s1 x) as Hkeep.
    { intros x Hx. apply Hout'. eapply Forall_impl; [exact Hnext|]. intros g' Hg'. cbn beta in Hg'. lia. }
    destruct Hl1 as [H1 H2]. destruct (bseg_range (mem_bytes m0 ph 32)) as (Ho & Hf & Hz). fold g in Hf, Hz.
    unfold g_end in Hkeep. split; intros x Hx; rewrite Hkeep by lia; auto.
  - intros x [Hx Hxs]%Forall_cons. rewrite Hout' by done. auto.
Qed.

(** The bytes of the kernel image from [off] on. *)
Definition image_bytes (ss : list (list Z)) (off : Z) (n : nat) : list Z :=
  (fun i => kbyte ss (off + Z.of_nat i)) <$> seq 0 n.

(** The segments that the headers of the image name. *)
Definition image_segs (ss : list (list Z)) (h : elfhdr) : list bseg :=
  (fun k => bseg_of (image_bytes ss (e_phoff h + proghdr_size * Z.of_nat k) 32)) <$> seq 0 (Z.to_nat (e_phnum h)).

(** The first page of the image in the scratch space. *)
Lemma headers_run ss s : boot_disk ss (b_ctl s) -> (9 <= length ss)%nat ->
  exists s1, readseg 0x10000 4096 0 s = Ret (tt, s1) /\ boot_disk ss (b_ctl s1) /\
    (forall off n, 0 <= off -> off + Z.of_nat n <= 4096 -> mem_bytes (b_mem s1) (0x10000 + off) n = image_bytes ss off n) /\
    (forall x, x < 0x10000 \/ SCRATCH_END <= x -> b_mem s1 x = b_mem s x).
Proof.
  intros Hd Hl. destruct (readseg_run ss 0x10000 4096 0 s Hd) as (s1 & Hr & Hd1 & Hp); try done.
  exists s1. split_and!; [done|done| |].
  - intros off n Ho Hn. unfold mem_bytes, image_bytes. apply list_fmap_ext. intros i k [-> Hk]%lookup_seq.
    rewrite (patched_in _ _ _ _ _ _ Hp). { f_equal. lia. }
    change (seg_start 0x10000 0) with 0x10000. change (SECTSIZE * Z.of_nat (seg_sects 4096 0)) with 4096. lia.
  - intros x Hx. apply (patched_out _ _ _ _ _ _ Hp). exact Hx.
Qed.


(** An image without the magic number of ELF: [bootmain] returns. *)
Lemma boot_rejects ss s : boot_disk ss (b_ctl s) -> (9 <= length ss)%nat ->
  e_magic (elfhdr_of (image_bytes ss 0 52)) <> ELF_MAGIC ->
  exists s', bootmain s = Ret (None, s') /\
    forall x, x < 0x10000 \/ SCRATCH_END <= x -> b_mem s' x = b_mem s x.
Proof.
  intros Hd Hl Hmag. destruct (headers_run ss s Hd Hl) as (s1 & Hr & _ & Hhd & Hout).
  exists s1. split; [|done]. unfold bootmain. rewrite (bind_Ret _ _ _ _ _ Hr). unfold bind at 1, gets at 1.
  assert (mem_bytes (b_mem s1) 0x10000 52 = image_bytes ss 0 52) as -> by (apply (Hhd 0 52%nat); lia).
  by rewrite (proj2 (Z.eqb_neq _ _) Hmag).
Qed.

(** * A kernel *)

Definition pad_sector (l : list Z) : list Z := take 512 (l ++ replicate 512 0).

(** Two segments at 0x100000 and 0x100400; the second has 300 bytes of zeros. *)
Definition demo_image : list (list Z) :=
  let eh := le_bytes 4 ELF_MAGIC ++ replicate 20 0 ++ le_bytes 4 0x10000c ++ le_bytes 4 52 ++ replicate 12 0 ++ [2; 0] ++ replicate 6 0 in
  let ph pa off fsz msz := le_bytes 4 1 ++ le_bytes 4 off ++ le_bytes 4 pa ++ le_bytes 4 pa ++ le_bytes 4 fsz ++ le_bytes 4 msz ++ replicate 8 0 in
  [] :: (eh ++ ph 0x100000 4096 600 600 ++ ph 0x100400 5120 100 400) ::
  replicate 7 [] ++ [replicate 512 0x90; replicate 88 0x91; replicate 100 0x92].

Definition demo_disk : list (list Z) := pad_sector <$> demo_image.
Definition demo_bst : bst := Bst (fun _ => 0xcc) (Ctl 0 0 0 0 0 0x40 None [demo_disk]).

Lemma demo_segs : image_segs demo_disk (elfhdr_of (image_bytes demo_disk 0 52)) =
  [Bseg 0x100000 4096 600 600; Bseg 0x100400 5120 100 400].
Proof. vm_compute. reflexivity. Qed.

