(* ===== verification/Trap.v ===== *)
(** [trap.c] and [sysproc.c]: interrupts, exceptions and the system calls on processes,
    over the process table of Proc.v.

    A trap runs on one CPU up to the point where it returns to the interrupted code, lets
    the process exit, gives up the CPU or enters a system call; the last two go on with
    [trap_resumed] and [trap_sysret]. The code under [tickslock] is one step. The handlers
    of the devices are modelled with their drivers; here they are recorded in a trace,
    with the channels that they wake as an argument. *)

From S2P Require Import Prelude Spinlock Proc ProcInv.

Definition T_SYSCALL : Z := 64.
Definition T_IRQ0 : Z := 32.
Definition IRQ_TIMER : Z := 0.
Definition IRQ_KBD : Z := 1.
Definition IRQ_COM1 : Z := 4.
Definition IRQ_IDE : Z := 14.
Definition IRQ_SPURIOUS : Z := 31.
Definition DPL_USER : Z := 3.

(** What the trap and the system calls do to devices: handlers, the end of interrupt of
    the local APIC, and writes to ports. *)
Inductive devop := Ideintr | Kbdintr | Uartintr | Eoi | Out (port v : Z).

Record tst (E : Type) := Tst { t_k : kst E; t_ticks : Z; t_dev : list devop }.
Arguments Tst {E}.
Arguments t_k {E} _.
Arguments t_ticks {E} _.
Arguments t_dev {E} _.

(** How a trap ends. *)
Inductive trapres := Resumed | Exited | Yielded | InSyscall.

Section trap.
Context {E : Type} `{!ProcEnv E}.
Local Abbreviation T := (M (tst E)).
(** The address of [ticks], and link-time addresses. *)
Context (ticks_addr forkret_addr trapret_addr : Z).

Definition on_k {A} (m : M (kst E) A) : T A := fun s =>
  match m (t_k s) with
  | Ret (a, k) => Ret (a, Tst k (t_ticks s) (t_dev s))
  | Panic x => Panic x | Block => Block | Fault => Fault | NoFuel => NoFuel
  end.

Definition dev (d : devop) : T unit := modify (fun s => Tst (t_k s) (t_ticks s) (t_dev s ++ [d])).
Definition lapiceoi : T unit := dev Eoi.

(** A handler that wakes the sleepers on some channels. *)
Fixpoint wake_all (c : nat) (chans : list Z) : T unit :=
  match chans with
  | [] => ret tt
  | a :: chans => on_k (wakeup c (Some (ChAddr a))) ;;; wake_all c chans
  end.

Definition user_mode (tf : trapframe) : bool := Z.land (tf_cs tf) 3 =? DPL_USER.

(** The timer interrupt of the first CPU: [ticks++; wakeup(&ticks);]. *)
Definition tick (c : nat) : T unit :=
  modify (fun s => Tst (t_k s) (u32 (t_ticks s + 1)) (t_dev s)) ;;;
  on_k (wakeup c (Some (ChAddr ticks_addr))).

(** The [switch] on the number of the trap. *)
Definition trap_vector (c : nat) (tf : trapframe) (chans : list Z) : T unit :=
  let n := tf_trapno tf in
  if n =? T_IRQ0 + IRQ_TIMER then (if (c =? 0)%nat then tick c else ret tt) ;;; lapiceoi
  else if n =? T_IRQ0 + IRQ_IDE then dev Ideintr ;;; wake_all c chans ;;; lapiceoi
  else if n =? T_IRQ0 + IRQ_IDE + 1 then ret tt
  else if n =? T_IRQ0 + IRQ_KBD then dev Kbdintr ;;; wake_all c chans ;;; lapiceoi
  else if n =? T_IRQ0 + IRQ_COM1 then dev Uartintr ;;; wake_all c chans ;;; lapiceoi
  else if (n =? T_IRQ0 + 7) || (n =? T_IRQ0 + IRQ_SPURIOUS) then lapiceoi
  else
    let* o := on_k (myproc c) in
    match o with
    | None => panic "trap"
    | Some i => if Z.land (tf_cs tf) 3 =? 0 then panic "trap" else on_k (upd i (set_killed true))
    end.

(** [if(myproc() && myproc()->killed && (tf->cs&3) == DPL_USER) exit();] *)
Definition exit_if_killed (c : nat) (tf : trapframe) : T bool :=
  let* o := on_k (myproc c) in
  match o with
  | None => ret false
  | Some i =>
      let* p := on_k (getproc i) in
      if p_killed p && user_mode tf then on_k (exit c) ;;; ret true else ret false
  end.

(** The end of [trap], which a process that gave up the CPU reaches when it runs again. *)
Definition trap_resumed (c : nat) (tf : trapframe) : T trapres :=
  let* gone := exit_if_killed c tf in
  ret (if gone then Exited else Resumed).

Definition trap (c : nat) (tf : trapframe) (chans : list Z) : T trapres :=
  if tf_trapno tf =? T_SYSCALL then
    let* i := on_k (curproc c) in
    let* p := on_k (getproc i) in
    if p_killed p then on_k (exit c) ;;; ret Exited
    else on_k (upd i (set_tf tf)) ;;; ret InSyscall
  else
    trap_vector c tf chans ;;;
    let* gone := exit_if_killed c tf in
    if gone then ret Exited
    else
      let* o := on_k (myproc c) in
      match o with
      | Some i =>
          let* p := on_k (getproc i) in
          if bool_decide (p_state p = RUNNING) && (tf_trapno tf =? T_IRQ0 + IRQ_TIMER)
          then on_k (yield c) ;;; ret Yielded
          else trap_resumed c tf
      | None => trap_resumed c tf
      end.

(** The end of a system call: [if(myproc()->killed) exit();]. *)
Definition trap_sysret (c : nat) : T trapres :=
  let* i := on_k (curproc c) in
  let* p := on_k (getproc i) in
  if p_killed p then on_k (exit c) ;;; ret Exited else ret Resumed.

(** * System calls *)

(** [arg] is what [argint(0, ...)] fetched. *)

Definition sys_fork (c : nat) : T Z := on_k (fork forkret_addr trapret_addr c).
Definition sys_exit (c : nat) : T Z := on_k (exit c) ;;; ret 0.
Definition sys_wait (c : nat) : T wait_res := on_k (wait c).

Definition sys_kill (c : nat) (arg : option Z) : T Z :=
  match arg with None => ret (-1) | Some pid => on_k (kill c pid) end.

Definition sys_getpid (c : nat) : T Z :=
  let* i := on_k (curproc c) in
  let* p := on_k (getproc i) in
  ret (p_pid p).

Definition sys_sbrk (c : nat) (arg : option Z) : T Z :=
  match arg with
  | None => ret (-1)
  | Some n =>
      let* i := on_k (curproc c) in
      let* p := on_k (getproc i) in
      let addr := s32 (p_sz p) in
      let* r := on_k (growproc c n) in
      if r <? 0 then ret (-1) else ret addr
  end.

(** A call of [sys_sleep] returns, or the process is asleep in it. *)
Inductive sleep_res := SleepRet (r : Z) | Asleep.

(** [while(ticks - ticks0 < n)]: the comparison is one of unsigned integers. *)
Definition sleep_loop (c : nat) (ticks0 n : Z) : T sleep_res :=
  let* ticks := gets t_ticks in
  if u32 (ticks - ticks0) <? u32 n then
    let* i := on_k (curproc c) in
    let* p := on_k (getproc i) in
    if p_killed p then ret (SleepRet (-1))
    else on_k (sleep_under c ticks_addr (ret tt) (ret tt)) ;;; ret Asleep
  else ret (SleepRet 0).

Definition sys_sleep (c : nat) (arg : option Z) : T sleep_res :=
  match arg with
  | None => ret (SleepRet (-1))
  | Some n => let* ticks0 := gets t_ticks in sleep_loop c ticks0 n
  end.

Definition sys_uptime : T Z := let* xticks := gets t_ticks in ret (s32 xticks).

Definition sys_getproccount (c : nat) : T Z := on_k (getproccount c).

Definition sys_reboot (arg : option Z) : T Z :=
  match arg with
  | None => ret (-1)
  | Some type =>
      (if type =? 1 then dev (Out 0x64 0xfe)
       else if type =? 2 then dev (Out 0x604 0x2000)
       else ret tt) ;;;
      ret 0
  end.
End trap.
