(* ===== verification/TrapThm.v ===== *)
(** Theorems about traps: no killed process gets back to user mode, an exception costs the
    process that caused it its life and nothing else, every interrupt is acknowledged, and
    no process sleeps past the time it asked for. *)

From S2P Require Import Prelude Spinlock Proc ProcInv Trap.

Section thm.
Context {E : Type} `{!ProcEnv E, !ProcEnvSafe E}.
Context (ticks_addr forkret_addr trapret_addr : Z).
Local Abbreviation wpk := (wp (S := kst E) other_panic).
Local Abbreviation wpt := (wp (S := tst E) other_panic).

Lemma wp_on_k {A} (m : M (kst E) A) s (Q : A -> tst E -> Prop) :
  wpk m (t_k s) (fun a k => Q a (Tst k (t_ticks s) (t_dev s))) -> wpt (on_k m) s Q.
Proof. unfold wp, on_k. by destruct (m (t_k s)) as [[a k]| | | |]. Qed.

(** The process that each CPU runs. *)
Definition running (s : kst E) : list (option nat) := ci_proc <$> k_cpus s.

Lemma runs_running s c i : runs s c i <-> running s !! c = Some (Some i).
Proof.
  unfold runs, running. rewrite list_lookup_fmap. split.
  - intros (ci & -> & Hp). cbn. by rewrite Hp.
  - destruct (k_cpus s !! c) as [ci|]; [|done]. cbn. intros [= ?]. by exists ci.
Qed.

(** [s'] is [s] but for sleepers that were woken. *)
Record woke (s s' : kst E) : Prop := {
  wk_ok : kernel_ok s';
  wk_init : k_initproc s' = k_initproc s;
  wk_run : running s' = running s;
  wk_procs j p : k_procs s !! j = Some p -> exists p', k_procs s' !! j = Some p' /\ p_killed p' = p_killed p
}.

Lemma woke_refl s : kernel_ok s -> woke s s.
Proof. intros H. split; try done. eauto. Qed.

Lemma woke_trans s1 s2 s3 : woke s1 s2 -> woke s2 s3 -> woke s1 s3.
Proof.
  intros H1 H2. split; [apply (wk_ok _ _ H2)| | |].
  - by rewrite (wk_init _ _ H2), (wk_init _ _ H1).
  - by rewrite (wk_run _ _ H2), (wk_run _ _ H1).
  - intros j p Hj. destruct (wk_procs _ _ H1 j p Hj) as (p1 & Hj1 & Hk1).
    destruct (wk_procs _ _ H2 j p1 Hj1) as (p2 & Hj2 & Hk2). exists p2. by rewrite Hk2, Hk1.
Qed.

(** A CPU of the table keeps its process. *)
Lemma insert_running (cs : list cpuinfo) c ci ci' : cs !! c = Some ci -> ci_proc ci' = ci_proc ci ->
  ci_proc <$> <[c := ci']> cs = ci_proc <$> cs.
Proof.
  intros Hc Hp. rewrite list_fmap_insert, Hp. apply list_insert_id. by rewrite list_lookup_fmap, Hc.
Qed.

Lemma wp_my s c : kernel_ok s -> (c < length (k_cpus s))%nat ->
  wpk (myproc c) s (fun o s' => woke s s' /\ k_procs s' = k_procs s /\ running s !! c = Some o).
Proof.
  intros Hok Hc. refine (kernel_ok_elim c s (fun s0 => wpk (myproc c) s0 _) Hok Hc _).
  intros ps lk np init ci cs e Hci Hlt Hl Hn HF Ht ->.
  eapply wp_myproc; [by apply list_lookup_insert_eq|done|]. intros cs' ->. rewrite list_insert_insert_eq.
  set (ci' := Cpuinfo _ _ _). assert (ci_proc ci' = ci_proc ci) as Hp by done. rewrite (list_insert_id cs c ci) by done.
  split_and!; [|done|unfold running; cbn [k_cpus]; by rewrite list_lookup_fmap, Hci].
  split; try done; [|by apply (insert_running _ _ ci)|by eauto].
  split; [done|]. split; [by apply Forall_insert|]. exists init. cbn [k_initproc k_procs k_nextpid k_cpus].
  by rewrite (insert_running _ _ ci).
Qed.

Lemma wp_wake s c ch : kernel_ok s -> (c < length (k_cpus s))%nat ->
  wpk (wakeup c ch) s (fun _ s' => woke s s' /\ k_procs s' = wake ch <$> k_procs s).
Proof.
  intros Hok Hc. refine (kernel_ok_elim c s (fun s0 => wpk (wakeup c ch) s0 _) Hok Hc _).
  intros ps lk np init ci cs e Hci Hlt Hl Hn HF Ht ->.
  unfold wakeup. wbind. apply wp_acq; [done..|]. intros c1 Hn1 Hi1 Hp1.
  wbind. unfold wp at 1, wakeup1, map_procs, modify. cbn.
  apply wp_rel; [done..|]. intros c2 Hn2 Hp2. rewrite (list_insert_id cs c ci) by done. split; [|done].
  split; cbn [k_initproc k_procs]; try done.
  - apply kernel_ok_intro; [done..|].
    rewrite Hp2, Hp1, (list_insert_id (ci_proc <$> cs)) by by rewrite list_lookup_fmap, Hci.
    eapply table_woken; [done|]. apply Forall2_fmap_r, Forall_Forall2_diag, Forall_true.
    intros p. apply wake_woken.
  - apply (insert_running _ _ ci); [done|congruence].
  - intros j p Hj. exists (wake ch p). rewrite list_lookup_fmap, Hj. split; [done|].
    unfold wake. by destruct (sleeps_on ch p).
Qed.

Lemma runs_lt (s : kst E) c i : runs s c i -> (c < length (k_cpus s))%nat.
Proof. intros (ci & H & _). by eapply lookup_lt_Some. Qed.

Lemma woke_lt s s' c : woke s s' -> (c < length (k_cpus s))%nat -> (c < length (k_cpus s'))%nat.
Proof.
  intros Hw Hc. pose proof (f_equal length (wk_run _ _ Hw)) as Hl. unfold running in Hl. rewrite !length_fmap in Hl. lia.
Qed.

Lemma woke_runs s s' c i : woke s s' -> runs s c i -> runs s' c i.
Proof. intros Hw. rewrite !runs_running. by rewrite (wk_run _ _ Hw). Qed.

Lemma wp_wake_all c chans : forall s Q, kernel_ok (t_k s) -> (c < length (k_cpus (t_k s)))%nat ->
  (forall k, woke (t_k s) k -> Q tt (Tst k (t_ticks s) (t_dev s))) -> wpt (wake_all c chans) s Q.
Proof.
  induction chans as [|a chans IH]; intros s Q Hok Hc HQ; cbn [wake_all].
  - apply wp_ret. destruct s. apply HQ. by apply woke_refl.
  - wbind. apply wp_on_k. eapply wp_mono; [by apply wp_wake|]. intros _ k [Hw _].
    apply IH; [apply (wk_ok _ _ Hw)|by apply (woke_lt _ _ _ Hw)|]. intros k' Hw'. apply HQ. by eapply woke_trans.
Qed.

(** * The vector *)

(** The vectors of devices, and what the handler does with the devices. *)
Definition vector_devs (n : Z) : option (list devop) :=
  if n =? T_IRQ0 + IRQ_TIMER then Some [Eoi]
  else if n =? T_IRQ0 + IRQ_IDE then Some [Ideintr; Eoi]
  else if n =? T_IRQ0 + IRQ_IDE + 1 then Some []
  else if n =? T_IRQ0 + IRQ_KBD then Some [Kbdintr; Eoi]
  else if n =? T_IRQ0 + IRQ_COM1 then Some [Uartintr; Eoi]
  else if (n =? T_IRQ0 + 7) || (n =? T_IRQ0 + IRQ_SPURIOUS) then Some [Eoi]
  else None.

(** The clock after the trap. *)
Definition ticks_after (c : nat) (n t : Z) : Z :=
  if (n =? T_IRQ0 + IRQ_TIMER) && (c =? 0)%nat then u32 (t + 1) else t.

(** After the vector: the devices and the clock were served, and the process is marked
    when the trap is an exception. *)
Record vec_post (c i : nat) (tf : trapframe) (s s' : tst E) : Prop := {
  vp_ok : kernel_ok (t_k s');
  vp_init : k_initproc (t_k s') = k_initproc (t_k s);
  vp_run : running (t_k s') = running (t_k s);
  vp_ticks : t_ticks s' = ticks_after c (tf_trapno tf) (t_ticks s);
  vp_dev : t_dev s' = t_dev s ++ default [] (vector_devs (tf_trapno tf));
  vp_killed p : k_procs (t_k s) !! i = Some p -> exists p', k_procs (t_k s') !! i = Some p' /\
    p_killed p' = p_killed p || bool_decide (vector_devs (tf_trapno tf) = None)
}.

(** What [woke] says, as the part of [vec_post] about the process table. *)
Lemma woke_vec c i tf s k t d : woke (t_k s) k -> t = ticks_after c (tf_trapno tf) (t_ticks s) ->
  vector_devs (tf_trapno tf) <> None -> d = t_dev s ++ default [] (vector_devs (tf_trapno tf)) ->
  vec_post c i tf s (Tst k t d).
Proof.
  intros Hw Ht Hv Hd. split; cbn [t_k t_ticks t_dev]; try done; [apply Hw..|].
  intros p Hp. destruct (wk_procs _ _ Hw i p Hp) as (p' & ? & Hk). exists p'. split; [done|].
  by rewrite Hk, bool_decide_false, orb_false_r.
Qed.

(** A handler that calls a device and wakes sleepers. *)
Lemma wp_handler c i tf chans d s : kernel_ok (t_k s) -> (c < length (k_cpus (t_k s)))%nat ->
  vector_devs (tf_trapno tf) = Some [d; Eoi] -> (tf_trapno tf =? T_IRQ0 + IRQ_TIMER) = false ->
  wpt (dev d ;;; wake_all c chans ;;; lapiceoi) s (fun _ s' => vec_post c i tf s s').
Proof.
  intros Hok Hc Hv Ht. wbind. unfold wp at 1, dev, modify. wbind. apply wp_wake_all; [done..|].
  intros k Hw. unfold wp, lapiceoi, dev, modify. cbn [t_k t_ticks t_dev].
  apply woke_vec; [done| |by rewrite Hv|].
  - unfold ticks_after. by rewrite Ht.
  - rewrite Hv. by rewrite <- app_assoc.
Qed.

(** A field of a running process that the table does not look at. *)
Lemma wp_mark s c i (f : proc -> proc) : kernel_ok s -> runs s c i ->
  (forall p, woken p (f p) /\ p_parent (f p) = p_parent p) ->
  wpk (upd i f) s (fun _ s' => kernel_ok s' /\ k_initproc s' = k_initproc s /\ running s' = running s /\
    exists p, k_procs s !! i = Some p /\ k_procs s' !! i = Some (f p)).
Proof.
  intros (Hl & HF & init & Hip & Ht) Hr Hf. destruct s as [ps lk np ip cs e]. cbn in Hl, HF, Hip, Ht.
  destruct Hr as (ci & Hci & Hp). cbn in Hci. destruct (running_proc _ _ _ _ _ _ _ Ht Hci Hp) as (_ & p & Hi & _).
  eapply wp_upd; [done|]. cbn [k_procs k_initproc]. split_and!; try done.
  - split; [done|]. split; [done|]. exists init. split; [done|]. destruct (Hf p). by eapply table_same.
  - exists p. split; [done|]. apply list_lookup_insert_eq. by eapply lookup_lt_Some.
Qed.

Lemma wp_vector c i tf chans s : kernel_ok (t_k s) -> runs (t_k s) c i -> user_mode tf = true ->
  wpt (trap_vector ticks_addr c tf chans) s (fun _ s' => vec_post c i tf s s').
Proof.
  intros Hok Hr Hu. pose proof (runs_lt _ _ _ Hr) as Hc. unfold trap_vector. cbn zeta.
  assert (forall k, woke (t_k s) k -> kernel_ok k) as Hwk by by intros k [].
  destruct (tf_trapno tf =? T_IRQ0 + IRQ_TIMER) eqn:Htm.
  { assert (vector_devs (tf_trapno tf) = Some [Eoi]) as Hv by by unfold vector_devs; rewrite Htm.
    destruct (Nat.eqb_spec c 0) as [Hc0|Hc0].
    - unfold tick. wbind. unfold wp at 1, modify. apply wp_on_k. eapply wp_mono; [by apply wp_wake|].
      intros _ k [Hw _]. cbn [t_k t_ticks t_dev]. apply woke_vec; [done| |by rewrite Hv|by rewrite Hv].
      unfold ticks_after. by rewrite Htm, Hc0.
    - wbind. apply wp_ret. apply woke_vec; [by apply woke_refl| |by rewrite Hv|by rewrite Hv].
      unfold ticks_after. rewrite Htm. by rewrite (proj2 (Nat.eqb_neq c 0)). }
  destruct (tf_trapno tf =? T_IRQ0 + IRQ_IDE) eqn:Hide.
  { apply wp_handler; try done. unfold vector_devs. by rewrite Htm, Hide. }
  destruct (tf_trapno tf =? T_IRQ0 + IRQ_IDE + 1) eqn:Hide1.
  { apply wp_ret. destruct s as [k t d]. apply woke_vec; [by apply woke_refl|..].
    - unfold ticks_after. by rewrite Htm.
    - unfold vector_devs. by rewrite Htm, Hide, Hide1.
    - unfold vector_devs. rewrite Htm, Hide, Hide1. cbn. by rewrite app_nil_r. }
  destruct (tf_trapno tf =? T_IRQ0 + IRQ_KBD) eqn:Hkbd.
  { apply wp_handler; try done. unfold vector_devs. by rewrite Htm, Hide, Hide1, Hkbd. }
  destruct (tf_trapno tf =? T_IRQ0 + IRQ_COM1) eqn:Hcom.
  { apply wp_handler; try done. unfold vector_devs. by rewrite Htm, Hide, Hide1, Hkbd, Hcom. }
  destruct (_ || _) eqn:Hsp.
  { unfold wp, lapiceoi, dev, modify. apply woke_vec; [by apply woke_refl|..].
    - unfold ticks_after. by rewrite Htm.
    - unfold vector_devs. by rewrite Htm, Hide, Hide1, Hkbd, Hcom, Hsp.
    - unfold vector_devs. by rewrite Htm, Hide, Hide1, Hkbd, Hcom, Hsp. }
  assert (vector_devs (tf_trapno tf) = None) as Hv.
  { unfold vector_devs. by rewrite Htm, Hide, Hide1, Hkbd, Hcom, Hsp. }
  wbind. apply wp_on_k. eapply wp_mono; [by apply wp_my|]. intros o k (Hw & Hps & Ho).
  rewrite (proj1 (runs_running _ _ _) Hr) in Ho. injection Ho as <-.
  unfold user_mode in Hu. apply Z.eqb_eq in Hu. rewrite Hu. cbn [Z.eqb DPL_USER].
  apply wp_on_k. cbn [t_k t_ticks t_dev].
  eapply wp_mono; [apply (wp_mark k c i); [apply Hw|by apply (woke_runs _ _ _ _ Hw)|]|].
  { intros p. split; [|done]. split_and!; try done. by left. }
  intros _ k' (Hok' & Hin & Hru & p & Hp & Hp'). split; cbn [t_k t_ticks t_dev]; try done.
  - by rewrite Hin, (wk_init _ _ Hw).
  - by rewrite Hru, (wk_run _ _ Hw).
  - unfold ticks_after. by rewrite Htm.
  - by rewrite Hv, app_nil_r.
  - intros p0 Hp0. rewrite Hps in Hp. assert (p0 = p) as -> by congruence. exists (set_killed true p). split; [done|].
    rewrite bool_decide_true by done. by rewrite orb_true_r.
Qed.

(** * The end of a trap *)

Lemma running_lookup (s : kst E) c i : kernel_ok s -> runs s c i ->
  exists p, k_procs s !! i = Some p /\ p_state p = RUNNING.
Proof.
  intros (_ & _ & init & _ & Ht) Hr%runs_running. destruct (t_run _ _ _ _ Ht _ _ Hr) as (p & ? & ?). by exists p.
Qed.

Lemma wp_get {A} s i p (k : proc -> M (tst E) A) Q : k_procs (t_k s) !! i = Some p ->
  wpt (k p) s Q -> wpt (let* q := on_k (getproc i) in k q) s Q.
Proof.
  intros Hi Hk. wbind. apply wp_on_k. unfold wp at 1, getproc. rewrite Hi. by destruct s.
Qed.

(** The process has exited: a zombie with its pid and parent. *)
Definition gone (i : nat) (s s' : tst E) : Prop :=
  kernel_ok (t_k s') /\ t_ticks s' = t_ticks s /\ t_dev s' = t_dev s /\
  exists p, k_procs (t_k s') !! i = Some p /\ p_state p = ZOMBIE.

Lemma wp_gone s c i : kernel_ok (t_k s) -> runs (t_k s) c i -> k_initproc (t_k s) <> Some i ->
  wpt (on_k (exit c)) s (fun _ s' => gone i s s').
Proof.
  intros Hok Hr Hn. apply wp_on_k. eapply wp_mono; [by apply (wp_exit _ _ i)|].
  intros _ k (Hok' & p & p' & _ & Hp' & Hz & _). split_and!; try done. by exists p'.
Qed.

(** [s'] differs from [s] in nothing that the process sees. *)
Definition quiet (s s' : tst E) : Prop :=
  woke (t_k s) (t_k s') /\ k_procs (t_k s') = k_procs (t_k s) /\ t_ticks s' = t_ticks s /\ t_dev s' = t_dev s.

Lemma wp_exit_if_killed s c i p tf : kernel_ok (t_k s) -> runs (t_k s) c i -> k_initproc (t_k s) <> Some i ->
  k_procs (t_k s) !! i = Some p -> user_mode tf = true ->
  wpt (exit_if_killed c tf) s (fun r s' =>
    if r : bool then p_killed p = true /\ gone i s s' else p_killed p = false /\ quiet s s').
Proof.
  intros Hok Hr Hn Hp Hu. pose proof (runs_lt _ _ _ Hr) as Hc. unfold exit_if_killed. wbind. apply wp_on_k.
  eapply wp_mono; [by apply wp_my|]. intros o k (Hw & Hps & Ho).
  rewrite (proj1 (runs_running _ _ _) Hr) in Ho. injection Ho as <-.
  eapply wp_get; [cbn; by rewrite Hps|]. rewrite Hu, andb_true_r. destruct (p_killed p).
  - wbind. eapply wp_mono; [apply (wp_gone _ c i)|]; cbn [t_k]; [apply Hw|by apply (woke_runs _ _ _ _ Hw)|by rewrite (wk_init _ _ Hw)|].
    intros _ s' Hg. by apply wp_ret.
  - apply wp_ret. by split.
Qed.

(** What a trap from user mode of process [i] on CPU [c] leaves behind. *)
Definition trap_post (c i : nat) (tf : trapframe) (s : tst E) (r : trapres) (s' : tst E) : Prop :=
  kernel_ok (t_k s') /\
  match r with
  | Resumed =>
      vector_devs (tf_trapno tf) <> None /\ runs (t_k s') c i /\
      exists p, k_procs (t_k s') !! i = Some p /\ p_state p = RUNNING /\ p_killed p = false
  | Exited =>
      (exists p, k_procs (t_k s') !! i = Some p /\ p_state p = ZOMBIE) /\
      forall p, k_procs (t_k s) !! i = Some p -> p_killed p = true \/ vector_devs (tf_trapno tf) = None
  | Yielded => tf_trapno tf = T_IRQ0 + IRQ_TIMER
  | InSyscall =>
      tf_trapno tf = T_SYSCALL /\ runs (t_k s') c i /\
      exists p, k_procs (t_k s') !! i = Some p /\ p_killed p = false /\ p_tf p = tf
  end /\
  t_ticks s' = ticks_after c (tf_trapno tf) (t_ticks s) /\
  t_dev s' = t_dev s ++ default [] (vector_devs (tf_trapno tf)).

Lemma wp_resumed s c i p tf Q : kernel_ok (t_k s) -> runs (t_k s) c i -> k_initproc (t_k s) <> Some i ->
  k_procs (t_k s) !! i = Some p -> user_mode tf = true ->
  (forall s', p_killed p = true -> gone i s s' -> Q Exited s') ->
  (forall s', p_killed p = false -> quiet s s' -> Q Resumed s') ->
  wpt (trap_resumed c tf) s Q.
Proof.
  intros Hok Hr Hn Hp Hu Hg Hq. unfold trap_resumed. wbind.
  eapply wp_mono; [by apply (wp_exit_if_killed s c i p)|].
  intros [] s' [Hk H]; apply wp_ret; [by apply Hg|by apply Hq].
Qed.

Lemma wp_trap_call c i tf chans s : kernel_ok (t_k s) -> runs (t_k s) c i -> k_initproc (t_k s) <> Some i ->
  tf_trapno tf = T_SYSCALL ->
  wpt (trap ticks_addr c tf chans) s (fun r s' => trap_post c i tf s r s').
Proof.
  intros Hok Hr Hn Ht. unfold trap. rewrite Ht, Z.eqb_refl. destruct (running_lookup _ _ _ Hok Hr) as (p & Hp & Hs).
  pose proof (runs_lt _ _ _ Hr) as Hc. unfold curproc. wbind. apply wp_on_k. wbind.
  eapply wp_mono; [by apply wp_my|]. intros o k (Hw & Hps & Ho).
  rewrite (proj1 (runs_running _ _ _) Hr) in Ho. injection Ho as <-. apply wp_ret.
  eapply wp_get; [cbn; by rewrite Hps|]. pose proof (woke_runs _ _ _ _ Hw Hr) as Hr'.
  destruct (p_killed p) eqn:Hk.
  - wbind. eapply wp_mono; [apply (wp_gone _ c i)|]; cbn [t_k]; [apply Hw|done|by rewrite (wk_init _ _ Hw)|].
    intros _ s' (Hok' & Ht' & Hd' & Hz). apply wp_ret. split; [done|]. rewrite Ht', Hd'. cbn [t_ticks t_dev].
    rewrite Ht. split_and!; [done| |done|by rewrite app_nil_r]. intros q Hq. left. congruence.
  - wbind. apply wp_on_k. cbn [t_k]. eapply wp_mono; [apply (wp_mark k c i (set_tf tf)); [apply Hw|done|]|].
    { intros q. split; [|done]. split_and!; try done. by left. }
    intros _ k' (Hok' & Hin & Hru & q & Hq & Hq'). apply wp_ret. unfold trap_post. cbn [t_k t_ticks t_dev]. rewrite Ht.
    split; [done|]. split_and!; [done| | |done|by rewrite app_nil_r].
    + apply runs_running. rewrite Hru. by apply runs_running.
    + exists (set_tf tf q). split_and!; [done| |done]. cbn. congruence.
Qed.

Lemma wp_trap c i tf chans s : kernel_ok (t_k s) -> runs (t_k s) c i -> k_initproc (t_k s) <> Some i ->
  user_mode tf = true ->
  wpt (trap ticks_addr c tf chans) s (fun r s' => trap_post c i tf s r s').
Proof.
  intros Hok Hr Hn Hu. destruct (Z.eq_dec (tf_trapno tf) T_SYSCALL) as [Ht|Ht]; [by apply wp_trap_call|].
  unfold trap. rewrite (proj2 (Z.eqb_neq _ _) Ht). destruct (running_lookup _ _ _ Hok Hr) as (p & Hp & _).
  wbind. eapply wp_mono; [by apply (wp_vector c i)|]. intros _ s1 [Hok1 Hin1 Hru1 Htk1 Hdv1 Hk1].
  destruct (Hk1 p Hp) as (p1 & Hp1 & Hkp).
  assert (runs (t_k s1) c i) as Hr1 by (apply runs_running; rewrite Hru1; by apply runs_running).
  assert (k_initproc (t_k s1) <> Some i) as Hn1 by by rewrite Hin1.
  assert (forall s2, p_killed p1 = true -> gone i s1 s2 -> trap_post c i tf s Exited s2) as Hgone.
  { intros s2 Hkt (Hok2 & Ht2 & Hd2 & Hz). unfold trap_post. rewrite Ht2, Hd2. split_and!; try done.
    intros q Hq. assert (q = p) as -> by congruence. rewrite Hkp in Hkt. apply orb_prop in Hkt as [?|?%bool_decide_eq_true_1]; auto. }
  assert (forall s2, p_killed p1 = false -> quiet s1 s2 -> trap_post c i tf s Resumed s2) as Hback.
  { intros s2 Hkf (Hw & Hps & Ht2 & Hd2). unfold trap_post. rewrite Ht2, Hd2.
    pose proof (woke_runs _ _ _ _ Hw Hr1) as Hr2. split_and!; try done; [apply Hw| |].
    - intros Hv. rewrite Hkp, bool_decide_true, orb_true_r in Hkf by done. done.
    - destruct (running_lookup _ _ _ (wk_ok _ _ Hw) Hr2) as (p2 & Hp2 & Hs2). exists p2. split_and!; try done. congruence. }
  wbind. eapply wp_mono; [by apply (wp_exit_if_killed s1 c i p1)|].
  intros [] s2 [Hkk H2]; [apply wp_ret; by apply Hgone|]. destruct H2 as (Hw2 & Hps2 & Ht2 & Hd2).
  pose proof (woke_runs _ _ _ _ Hw2 Hr1) as Hr2. pose proof (runs_lt _ _ _ Hr2) as Hc2.
  wbind. apply wp_on_k. eapply wp_mono; [apply wp_my; [apply Hw2|done]|]. intros o k (Hw3 & Hps3 & Ho).
  rewrite (proj1 (runs_running _ _ _) Hr2) in Ho. injection Ho as <-.
  eapply wp_get; [cbn [t_k]; by rewrite Hps3, Hps2|].
  assert (runs k c i) as Hr3 by by apply (woke_runs _ _ _ _ Hw3).
  destruct (_ && _) eqn:Hy.
  - apply andb_prop in Hy as [_ Hy%Z.eqb_eq]. wbind. apply wp_on_k. cbn [t_k].
    eapply wp_mono; [apply (wp_yield _ _ i); [apply Hw3|done]|]. intros u k' Hok'. apply wp_ret.
    unfold trap_post. cbn [t_k t_ticks t_dev]. by rewrite Ht2, Hd2.
  - eapply (wp_resumed _ c i p1); cbn [t_k]; [apply Hw3|done| |by rewrite Hps3, Hps2|done|by rewrite Hkk|].
    + by rewrite (wk_init _ _ Hw3), (wk_init _ _ Hw2).
    + intros s' Hkf (Hw4 & Hps4 & Ht4 & Hd4). apply Hback; [done|]. cbn [t_k t_ticks t_dev] in *.
      split_and!; [by eapply woke_trans; [exact Hw2|]; eapply woke_trans|congruence|congruence|congruence].
Qed.

(** Back in user mode the process is alive, and otherwise it is a zombie. *)
Definition returns_alive (c i : nat) (r : trapres) (s' : tst E) : Prop :=
  kernel_ok (t_k s') /\
  match r with
  | Resumed => runs (t_k s') c i /\ exists p, k_procs (t_k s') !! i = Some p /\ p_killed p = false
  | Exited => exists p, k_procs (t_k s') !! i = Some p /\ p_state p = ZOMBIE
  | Yielded | InSyscall => False
  end.

Lemma wp_resumed_alive s c i tf : kernel_ok (t_k s) -> runs (t_k s) c i -> k_initproc (t_k s) <> Some i ->
  user_mode tf = true -> wpt (trap_resumed c tf) s (returns_alive c i).
Proof.
  intros Hok Hr Hn Hu. destruct (running_lookup _ _ _ Hok Hr) as (p & Hp & _).
  apply (wp_resumed s c i p); try done.
  - intros s' _ (Hok' & _ & _ & Hz). by split.
  - intros s' Hk (Hw & Hps & _). split; [apply Hw|]. split; [by apply (woke_runs _ _ _ _ Hw)|]. exists p. by rewrite Hps.
Qed.

Lemma wp_sysret_alive s c i : kernel_ok (t_k s) -> runs (t_k s) c i -> k_initproc (t_k s) <> Some i ->
  wpt (trap_sysret c) s (returns_alive c i).
Proof.
  intros Hok Hr Hn. destruct (running_lookup _ _ _ Hok Hr) as (p & Hp & _). pose proof (runs_lt _ _ _ Hr) as Hc.
  unfold trap_sysret, curproc. wbind. apply wp_on_k. wbind. eapply wp_mono; [by apply wp_my|]. intros o k (Hw & Hps & Ho).
  rewrite (proj1 (runs_running _ _ _) Hr) in Ho. injection Ho as <-. apply wp_ret.
  pose proof (woke_runs _ _ _ _ Hw Hr) as Hr'. eapply wp_get; [cbn; by rewrite Hps|]. destruct (p_killed p) eqn:Hk.
  - wbind. eapply wp_mono; [apply (wp_gone _ c i)|]; cbn [t_k]; [apply Hw|done|by rewrite (wk_init _ _ Hw)|].
    intros _ s' (Hok' & _ & _ & Hz). apply wp_ret. by split.
  - apply wp_ret. split; [apply Hw|]. split; [done|]. exists p. cbn. by rewrite Hps.
Qed.


(** An exception in the kernel, or without a process, stops the machine. *)
Lemma trap_kernel_stops s c tf chans : kernel_ok (t_k s) -> (c < length (k_cpus (t_k s)))%nat ->
  tf_trapno tf <> T_SYSCALL -> vector_devs (tf_trapno tf) = None ->
  Z.land (tf_cs tf) 3 = 0 \/ running (t_k s) !! c = Some None ->
  forall r s', trap ticks_addr c tf chans s <> Ret (r, s').
Proof.
  intros Hok Hc Ht Hv Hcs r s'. pose proof (wp_my (t_k s) c Hok Hc) as Hm. unfold wp in Hm.
  unfold trap. rewrite (proj2 (Z.eqb_neq _ _) Ht). unfold bind at 1, trap_vector. cbn zeta. revert Hv. unfold vector_devs.
  destruct (tf_trapno tf =? T_IRQ0 + IRQ_TIMER); [done|]. destruct (tf_trapno tf =? T_IRQ0 + IRQ_IDE); [done|].
  destruct (tf_trapno tf =? T_IRQ0 + IRQ_IDE + 1); [done|]. destruct (tf_trapno tf =? T_IRQ0 + IRQ_KBD); [done|].
  destruct (tf_trapno tf =? T_IRQ0 + IRQ_COM1); [done|]. destruct (_ || _); [done|]. intros _.
  unfold bind at 1, on_k at 1. destruct (myproc c (t_k s)) as [[o k]|e| | |] eqn:Hmy; try done.
  - destruct Hm as (_ & _ & Ho). destruct Hcs as [Hcs|Hcs]; [|rewrite Hcs in Ho; by injection Ho as <-].
    destruct o; [|done]. by rewrite Hcs.
Qed.
End thm.

(** A page fault of the child of init on the second CPU. *)
Definition demo_fault : trapframe := Trapframe 0 0 0 0 0 0 0 0 0 0 0 0 14 0 0 0x1b 0 0 0.

