(* ===== verification/TrapSleep.v ===== *)
(** [sleep(n)] against the clock: in any interleaving of timer interrupts, sleeping
    processes and other calls of the process table, no process is asleep in [sys_sleep]
    when the time it asked for has passed. *)

From S2P Require Import Prelude Spinlock Proc ProcInv Trap TrapThm.

(** * Calls that put no one to sleep on a channel *)

Definition asleep_on (a : Z) (p : proc) : Prop := p_state p = SLEEPING /\ p_chan p = Some (ChAddr a).

(** Who sleeps on [a] afterwards slept on it before, but for one process. *)
Definition still (a : Z) (x : option nat) (ps ps' : list proc) : Prop := forall j q',
  ps' !! j = Some q' -> asleep_on a q' -> x = Some j \/ exists q, ps !! j = Some q /\ asleep_on a q.

Lemma still_refl a x ps : still a x ps ps.
Proof. intros j q Hq Ha. right. by exists q. Qed.

Lemma still_trans a x ps1 ps2 ps3 : still a x ps1 ps2 -> still a x ps2 ps3 -> still a x ps1 ps3.
Proof.
  intros H1 H2 j q Hq Ha. destruct (H2 j q Hq Ha) as [?|(q2 & Hq2 & Ha2)]; [by left|]. by apply (H1 j q2).
Qed.

Lemma still_weaken a x ps ps' : still a None ps ps' -> still a x ps ps'.
Proof. intros H j q Hq Ha. right. by destruct (H j q Hq Ha). Qed.

Lemma still_alter a x ps i f : (x = Some i \/ forall q, asleep_on a (f q) -> asleep_on a q) ->
  still a x ps (alter f i ps).
Proof.
  intros Hf j q Hq Ha. destruct (decide (i = j)) as [<-|Hj].
  - rewrite list_lookup_alter_eq in Hq. destruct (ps !! i) as [p|] eqn:Hp; [|done]. cbn in Hq. injection Hq as <-.
    destruct Hf as [?|Hf]; [by left|]. right. exists p. auto.
  - rewrite list_lookup_alter_ne in Hq by done. right. by exists q.
Qed.

Lemma still_wake a x ps ch : still a x ps (wake ch <$> ps).
Proof.
  intros j q Hq Ha. rewrite list_lookup_fmap in Hq. destruct (ps !! j) as [p|] eqn:Hp; [|done]. cbn in Hq. injection Hq as <-.
  right. exists p. split; [done|]. unfold wake in Ha. destruct (sleeps_on ch p); [|done]. by destruct Ha.
Qed.

Lemma wake_awake a q : ~ asleep_on a (wake (Some (ChAddr a)) q).
Proof.
  intros [Hs Hc]. unfold wake in Hs, Hc. destruct (sleeps_on _ q) eqn:Hq; [done|].
  unfold sleeps_on in Hq. by rewrite !bool_decide_true in Hq.
Qed.

Section calm.
Context {E : Type} `{!ProcEnv E}.
Context (a : Z).

Definition calm {A} (m : M (kst E) A) : Prop := forall s r s',
  m s = Ret (r, s') -> still a None (k_procs s) (k_procs s').

Lemma calm_bind {A B} (m : M (kst E) A) (k : A -> M (kst E) B) :
  calm m -> (forall v, calm (k v)) -> calm (bind m k).
Proof. intros Hm Hk s r s' (v & s1 & H1 & H2)%bind_inv. eapply still_trans; [by eapply Hm|by eapply Hk]. Qed.

(** An operation that leaves the processes alone. *)
Definition same_procs {A} (m : M (kst E) A) : Prop := forall s r s', m s = Ret (r, s') -> k_procs s' = k_procs s.

Lemma calm_same {A} (m : M (kst E) A) : same_procs m -> calm m.
Proof. intros H s r s' Hr. rewrite (H _ _ _ Hr). apply still_refl. Qed.

Lemma same_ret {A} (v : A) : same_procs (ret v).
Proof. by intros s r s' [= <- <-]. Qed.
Lemma same_gets {A} (f : kst E -> A) : same_procs (gets f).
Proof. by intros s r s' [= <- <-]. Qed.
Lemma same_env {A} (m : M E A) : same_procs (on_env m).
Proof. intros s r s'. unfold on_env. destruct (m (k_env s)) as [[v e]| | | |]; by intros [= <- <-]. Qed.
Lemma same_lock {A} c (m : M (cpu * spinlock) A) : same_procs (on_lock c m : M (kst E) A).
Proof.
  intros s r s'. unfold on_lock. destruct (k_cpus s !! c) as [ci|]; [|done].
  destruct (m _) as [[v [cp lk]]| | | |]; by intros [= <- <-].
Qed.
Lemma same_getproc i : same_procs (getproc i : M (kst E) proc).
Proof. intros s r s'. unfold getproc. destruct (k_procs s !! i); by intros [= <- <-]. Qed.
Lemma same_getcpu c : same_procs (getcpu c : M (kst E) cpuinfo).
Proof. intros s r s'. unfold getcpu. destruct (k_cpus s !! c); by intros [= <- <-]. Qed.
Lemma same_upd_cpu c f : same_procs (upd_cpu c f : M (kst E) unit).
Proof. by intros s r s' [= <- <-]. Qed.
Lemma same_nextpid v : same_procs (set_nextpid v : M (kst E) unit).
Proof. by intros s r s' [= <- <-]. Qed.

Lemma calm_upd i f : (forall q, asleep_on a (f q) -> asleep_on a q) -> calm (upd i f).
Proof. intros H s r s' [= <- <-]. apply still_alter. by right. Qed.
Lemma calm_wakeup1 ch : calm (wakeup1 ch).
Proof. intros s r s' [= <- <-]. apply still_wake. Qed.
Lemma calm_panic {A} e : calm (panic e : M (kst E) A).
Proof. by intros s r s'. Qed.
Lemma calm_fault {A} : calm (fault : M (kst E) A).
Proof. by intros s r s'. Qed.
End calm.

Create HintDb calm.
#[export] Hint Resolve same_ret same_gets same_env same_lock same_getproc same_getcpu same_upd_cpu same_nextpid
  calm_wakeup1 calm_panic calm_fault : calm.

(** Walk over the structure of an operation. *)
Ltac calm :=
  repeat first
    [ apply calm_bind; [|intros ?]
    | progress (eauto with calm)
    | apply calm_same; solve [eauto with calm]
    | apply calm_upd; solve [intros [] [??]; cbn in *; (done || by split)]
    | apply calm_upd; solve [intros q; case_bool_decide; [by intros [? _]|done]]
    | match goal with |- calm _ (if ?b then _ else _) => destruct b end
    | match goal with |- calm _ (match ?x with _ => _ end) => destruct x end ].

Section calls.
Context {E : Type} `{!ProcEnv E}.
Context (a forkret_addr trapret_addr : Z).
Local Abbreviation C := (calm (E := E) a).

Lemma calm_acquire c : C (acquire_ptable c).
Proof. apply calm_same, same_lock. Qed.
Lemma calm_release c : C (release_ptable c).
Proof. apply calm_same, same_lock. Qed.
Lemma calm_myproc c : C (myproc c).
Proof. unfold myproc. calm. Qed.
Hint Resolve calm_acquire calm_release calm_myproc : calm.
Lemma calm_curproc c : C (curproc c).
Proof. unfold curproc. calm. Qed.
Hint Resolve calm_curproc : calm.
Lemma calm_switchuvm i : C (switchuvm i).
Proof. unfold switchuvm. calm. Qed.
Lemma calm_sched_out c : C (sched_out c).
Proof. unfold sched_out, sched, scheduler_back. calm. Qed.
Hint Resolve calm_switchuvm calm_sched_out : calm.
Lemma calm_allocproc c : C (allocproc forkret_addr trapret_addr c).
Proof. unfold allocproc. calm. Qed.
Hint Resolve calm_allocproc : calm.
Lemma calm_fork_files fs : forall i np, C (fork_files fs i np).
Proof. induction fs as [|[f|] fs IH]; intros i np; cbn [fork_files]; calm. Qed.
Lemma calm_close_files fs : forall i np, C (close_files fs i np).
Proof. induction fs as [|[f|] fs IH]; intros i np; cbn [close_files]; calm. Qed.
Lemma calm_reparent n : forall i cur init, C (reparent n i cur init).
Proof. induction n as [|n IH]; intros i cur init; cbn [reparent]; calm. Qed.
Hint Resolve calm_fork_files calm_close_files calm_reparent : calm.
Lemma calm_fork c : C (fork forkret_addr trapret_addr c).
Proof. unfold fork. calm. Qed.
Lemma calm_yield c : C (yield c).
Proof. unfold yield. calm. Qed.
Lemma calm_exit c : C (exit c).
Proof. unfold exit. calm. Qed.
Lemma calm_kill c pid : C (kill c pid).
Proof. unfold kill. calm. Qed.
Lemma calm_growproc c n : C (growproc c n).
Proof. unfold growproc. calm. Qed.
Lemma calm_wakeup c ch : C (wakeup c ch).
Proof. unfold wakeup. calm. Qed.
Lemma calm_getproccount c : C (getproccount c).
Proof. unfold getproccount. calm. Qed.
Lemma calm_run_process c i : C (run_process c i).
Proof. unfold run_process, scheduler_pick, resume. calm. Qed.

Lemma alter_twice (f g : proc -> proc) (i : nat) (ps : list proc) : alter g i (alter f i ps) = alter (fun q => g (f q)) i ps.
Proof.
  apply list_eq. intros j. destruct (decide (i = j)) as [<-|Hj].
  - rewrite !list_lookup_alter_eq. by destruct (ps !! i).
  - by rewrite !list_lookup_alter_ne.
Qed.

(** Two changes of one process of which only the result counts. *)
Lemma calm_upd2 {A} i f g (m : M (kst E) A) : (forall q, asleep_on a (g (f q)) -> asleep_on a q) -> C m ->
  C (upd i f ;;; upd i g ;;; m).
Proof.
  intros Hfg Hm s r s' Hr. unfold bind, upd, modify in Hr. cbn in Hr. eapply still_trans; [|by eapply Hm].
  cbn. rewrite alter_twice. apply still_alter. by right.
Qed.

Lemma calm_sleep c ch lk : ch <> ChAddr a ->
  match lk with Some (Some r) => C r | _ => True end -> C (sleep c ch lk).
Proof.
  intros Hch Hlk. unfold sleep. apply calm_bind; [eauto with calm|]. intros [i|]; [|calm].
  destruct lk as [[r|]|]; [..|calm].
  - apply calm_bind; [calm|]. intros _. apply calm_upd2; [|eauto with calm].
    intros q [_ Hq]. cbn in Hq. congruence.
  - apply calm_bind; [calm|]. intros _. apply calm_upd2; [|eauto with calm].
    intros q [_ Hq]. cbn in Hq. congruence.
Qed.

Lemma calm_wait c : C (wait c).
Proof.
  unfold wait. apply calm_bind; [calm|]. intros cur. apply calm_bind; [calm|]. intros _. apply calm_bind; [calm|].
  intros ps. destruct (findi _ ps); [calm|]. apply calm_bind; [calm|]. intros me.
  destruct (_ || _); [calm|]. apply calm_bind; [|intros; calm]. by apply calm_sleep.
Qed.

Lemma calm_sleep_under c b take give : b <> a -> C (sleep_under c b take give).
Proof.
  intros Hb. unfold sleep_under. apply calm_bind; [calm|]. intros _. apply calm_bind; [calm|]. intros _.
  apply calm_sleep; [congruence|calm].
Qed.

(** A call of the process table does not put a process to sleep on [a], unless it is a
    [sleep] on [a]. *)
Definition not_on (k : kcall (E := E)) : Prop :=
  match k with KSleep _ b _ _ => b <> a | _ => True end.

Lemma calm_call k : not_on k -> C (run_call forkret_addr trapret_addr k).
Proof.
  assert (forall A (m : M (kst E) A), C m -> C (m ;;; ret tt)) as Hd.
  { intros A m Hm. apply calm_bind; [done|]. intros v. calm. }
  intros Hk. destruct k; cbn [run_call not_on] in *; try apply Hd;
    eauto using calm_fork, calm_exit, calm_wait, calm_yield, calm_sleep_under, calm_growproc, calm_kill,
      calm_wakeup, calm_getproccount, calm_run_process.
Qed.

(** * Going to sleep on the channel *)

Lemma lock_running {A} c (m : M (cpu * spinlock) A) (s : kst E) r s' : on_lock c m s = Ret (r, s') ->
  running s' = running s /\ k_procs s' = k_procs s.
Proof.
  unfold on_lock. destruct (k_cpus s !! c) as [ci|] eqn:Hc; [|done].
  destruct (m _) as [[v [cp lk]]| | | |]; try done. intros [= <- <-]. split; [|done].
  unfold running. cbn [k_cpus]. by apply (insert_running _ _ ci).
Qed.

Lemma env_running {A} (m : M E A) (s : kst E) r s' : on_env m s = Ret (r, s') ->
  running s' = running s /\ k_procs s' = k_procs s.
Proof. unfold on_env. destruct (m (k_env s)) as [[v e]| | | |]; try done. by intros [= <- <-]. Qed.

Lemma myproc_value c (s : kst E) o s' : myproc c s = Ret (o, s') -> running s !! c = Some o /\ k_procs s' = k_procs s.
Proof.
  unfold myproc. intros H. minv.
  destruct (lock_running _ _ _ _ _ Hrun) as [H1 P1]. destruct (lock_running _ _ _ _ _ Hrun1) as [H2 P2].
  unfold getcpu in Hrun0. destruct (k_cpus st !! c) as [ci|] eqn:Hc; [|done]. injection Hrun0 as <- <-.
  rewrite P2, P1. split; [|done]. rewrite <- H1. unfold running. by rewrite list_lookup_fmap, Hc.
Qed.

(** [sleep] changes the current process only. *)
Lemma sleep_under_only c i (s : kst E) r s' take give : running s !! c = Some (Some i) ->
  sleep_under c a take give s = Ret (r, s') -> still a (Some i) (k_procs s) (k_procs s').
Proof.
  intros Hr H. unfold sleep_under, sleep in H. minv.
  destruct (lock_running _ _ _ _ _ Hrun) as [R1 P1]. destruct (env_running _ _ _ _ Hrun0) as [R2 P2].
  destruct (myproc_value _ _ _ _ Hrun1) as [R3 P3]. rewrite R2, R1, Hr in R3. injection R3 as <-. minv.
  destruct (lock_running _ _ _ _ _ Hrun2) as [_ P4]. destruct (env_running _ _ _ _ Hrun6) as [_ P5].
  destruct (lock_running _ _ _ _ _ Hrun5) as [_ P6].
  assert (k_procs st2 = k_procs s) as P by congruence.
  apply (f_equal (fun o => match o with Ret (_, t) => k_procs t | _ => [] end)) in Hrun3, Hrun4. cbn in Hrun3, Hrun4.
  rewrite <- Hrun3, alter_twice, P in Hrun4. eapply still_trans; [|apply still_weaken, (calm_sched_out c _ _ _ H)].
  rewrite <- Hrun4. apply still_alter. by left.
Qed.
End calls.

(** * The clock *)

(** The kernel, and the arguments of the calls of [sys_sleep] that are under way: the value
    of [ticks] when the call began, and [n]. *)
Record sst (E : Type) := Sst { ss_t : tst E; ss_call : gmap nat (Z * Z) }.
Arguments Sst {E}.
Arguments ss_t {E} _.
Arguments ss_call {E} _.

Section clock.
Context {E : Type} `{!ProcEnv E, !ProcEnvSafe E}.
Context (ticks_addr forkret_addr trapret_addr : Z).

(** Timer interrupts of the first CPU, a process that calls [sleep(n)], one that runs
    again inside the call, and any other call of the process table. *)
Inductive clock_step : sst E -> sst E -> Prop :=
| Step_tick t t' m : (0 < length (k_cpus (t_k t)))%nat -> tick ticks_addr 0 t = Ret (tt, t') ->
    clock_step (Sst t m) (Sst t' m)
| Step_call t t' m c i n r : runs (t_k t) c i -> sys_sleep ticks_addr c (Some n) t = Ret (r, t') ->
    clock_step (Sst t m) (Sst t' (if r is Asleep then <[i := (t_ticks t, n)]> m else m))
| Step_again t t' m c i t0 n r : runs (t_k t) c i -> m !! i = Some (t0, n) ->
    sleep_loop ticks_addr c t0 n t = Ret (r, t') ->
    clock_step (Sst t m) (Sst t' (if r is Asleep then m else delete i m))
| Step_other t k' m k : enabled k (t_k t) -> not_on ticks_addr k ->
    run_call forkret_addr trapret_addr k (t_k t) = Ret (tt, k') ->
    clock_step (Sst t m) (Sst (Tst k' (t_ticks t) (t_dev t)) m).

Definition clock_init (s : sst E) : Prop :=
  kernel_ok (t_k (ss_t s)) /\
  forall j p, k_procs (t_k (ss_t s)) !! j = Some p -> ~ asleep_on ticks_addr p.

(** A process asleep on the clock has not yet slept as long as it asked for. *)
Definition not_overdue (s : sst E) : Prop :=
  forall j p, k_procs (t_k (ss_t s)) !! j = Some p -> asleep_on ticks_addr p ->
    exists t0 n, ss_call s !! j = Some (t0, n) /\ u32 (t_ticks (ss_t s) - t0) < u32 n.

Lemma on_k_inv {A} (m : M (kst E) A) t r t' : on_k m t = Ret (r, t') ->
  m (t_k t) = Ret (r, t_k t') /\ t_ticks t' = t_ticks t.
Proof. unfold on_k. destruct (m (t_k t)) as [[v k]| | | |]; try done. by intros [= <- <-]. Qed.

Lemma tick_wakes (t t' : tst E) : tick ticks_addr 0 t = Ret (tt, t') -> forall j p,
  k_procs (t_k t') !! j = Some p -> ~ asleep_on ticks_addr p.
Proof.
  intros H j p Hp. unfold tick in H. minv. apply on_k_inv in H as [H _]. unfold wakeup in H. minv.
  destruct (lock_running _ _ _ _ _ H) as [_ P]. rewrite P in Hp.
  unfold wakeup1, map_procs in Hrun0. minv. cbn [k_procs] in Hp. rewrite list_lookup_fmap in Hp.
  destruct (k_procs st !! j) as [q|]; [|done]. cbn in Hp. injection Hp as <-. apply wake_awake.
Qed.

(** One turn of the loop of [sys_sleep] by process [i]. *)
Lemma sleep_loop_inv (t : tst E) c i t0 n r t' : kernel_ok (t_k t) -> runs (t_k t) c i ->
  sleep_loop ticks_addr c t0 n t = Ret (r, t') ->
  kernel_ok (t_k t') /\ t_ticks t' = t_ticks t /\
  match r with
  | Asleep => u32 (t_ticks t - t0) < u32 n /\ still ticks_addr (Some i) (k_procs (t_k t)) (k_procs (t_k t'))
  | SleepRet 0 => u32 n <= u32 (t_ticks t - t0) /\ t' = t
  | SleepRet _ => k_procs (t_k t') = k_procs (t_k t) /\ exists p, k_procs (t_k t) !! i = Some p /\ p_killed p = true
  end.
Proof.
  intros Hok Hr H. unfold sleep_loop in H. minv.
  destruct (Z.ltb_spec (u32 (t_ticks st - t0)) (u32 n)) as [Hlt|Hge]; [|by minv].
  unfold curproc in H. minv. apply on_k_inv in Hrun as [Hrun Ht]. minv.
  pose proof (wp_Ret _ _ _ _ _ _ (wp_my _ c Hok (runs_lt _ _ _ Hr)) Hrun1) as (Hw & Hps & Ho).
  rewrite (proj1 (runs_running _ _ _) Hr) in Ho. injection Ho as <-. minv.
  apply on_k_inv in Hrun0 as [Hrun0 Ht1]. unfold getproc in Hrun0.
  destruct (k_procs (t_k st0) !! v) as [p|] eqn:Hp; [|done]. injection Hrun0 as <- Hst. rewrite Hps in Hp.
  destruct (p_killed p) eqn:Hk.
  - minv. rewrite <- Hst. split_and!; [apply Hw|congruence|done|]. by exists p.
  - minv. apply on_k_inv in Hrun as [Hrun Ht2]. rewrite <- Hst in Hrun.
    pose proof (woke_runs _ _ _ _ Hw Hr) as Hr'. split_and!; [|congruence|done|].
    + refine (wp_Ret _ _ _ _ _ _ (wp_sleep_under _ c v ticks_addr (ret tt) (ret tt) (wk_ok _ _ Hw) Hr' _ _) Hrun); done.
    + rewrite <- Hps. eapply sleep_under_only; [by apply runs_running|done].
Qed.

(** A running process does not sleep. *)
Lemma running_awake (k : kst E) c i p : kernel_ok k -> runs k c i -> k_procs k !! i = Some p -> ~ asleep_on ticks_addr p.
Proof.
  intros Hok Hr Hp [Hs _]. destruct (running_lookup _ _ _ Hok Hr) as (q & Hq & Hrun). congruence.
Qed.

(** A turn of the loop keeps the invariant, with the arguments of the call recorded. *)
Lemma loop_not_overdue t m c i t0 n r t' : kernel_ok (t_k t) -> runs (t_k t) c i ->
  not_overdue (Sst t m) -> sleep_loop ticks_addr c t0 n t = Ret (r, t') ->
  kernel_ok (t_k t') /\ not_overdue (Sst t' (if r is Asleep then <[i := (t0, n)]> m else m)) /\
  (r <> Asleep -> k_procs (t_k t') = k_procs (t_k t)).
Proof.
  intros Hok Hr Hn H. destruct (sleep_loop_inv _ _ _ _ _ _ _ Hok Hr H) as (Hok' & Ht & Hres).
  assert (r <> Asleep -> k_procs (t_k t') = k_procs (t_k t)) as Hsame.
  { intros Hra. destruct r as [[]|]; [by destruct Hres as [_ ->]|by destruct Hres..|done]. }
  split_and!; [done| |done]. intros j p Hp Ha. cbn [ss_t ss_call] in *. rewrite Ht. destruct r as [v|].
  - rewrite Hsame in Hp by done. by apply (Hn j p).
  - destruct Hres as [Hlt Hst]. destruct (decide (i = j)) as [<-|Hij].
    + exists t0, n. by rewrite lookup_insert_eq.
    + rewrite lookup_insert_ne by done. destruct (Hst j p Hp Ha) as [?|(q & Hq & Haq)]; [congruence|]. by apply (Hn j q).
Qed.

Lemma clock_invariant s : reachable clock_init clock_step s -> kernel_ok (t_k (ss_t s)) /\ not_overdue s.
Proof.
  apply (reachable_invariant clock_init clock_step (fun s => kernel_ok (t_k (ss_t s)) /\ not_overdue s)).
  { intros s0 [Hok Ha]. split; [done|]. intros j p Hp Hs. by destruct (Ha j p Hp). }
  intros s0 s' [Hok Hn] Hst. destruct Hst as [t t' m Hc Htick|t t' m c i n r Hr Hrun|t t' m c i t0 n r Hr Hm Hrun|t k' m k He Hk Hrun].
  - split.
    + unfold tick in Htick. minv. apply on_k_inv in Htick as [Hw _].
      exact (wp_Ret _ _ _ _ _ _ (wp_wakeup (t_k t) 0 _ Hok Hc) Hw).
    + intros j p Hp Hs. by destruct (tick_wakes _ _ Htick j p Hp).
  - unfold sys_sleep in Hrun. minv. destruct (loop_not_overdue _ _ _ _ _ _ _ _ Hok Hr Hn Hrun) as (? & ? & _). done.
  - destruct (loop_not_overdue _ _ _ _ _ _ _ _ Hok Hr Hn Hrun) as (Hok' & Hn' & Hsame). split; [done|].
    destruct r as [v|]; [|by rewrite insert_id in Hn'].
    intros j p Hp Ha. destruct (decide (i = j)) as [<-|Hij].
    + cbn in Hp. rewrite Hsame in Hp by done. by destruct (running_awake _ _ _ _ Hok Hr Hp).
    + destruct (Hn' j p Hp Ha) as (t1 & n1 & Hc & Hlt). exists t1, n1. cbn in *. by rewrite lookup_delete_ne.
  - split; cbn [ss_t t_k].
    + exact (wp_Ret _ _ _ _ _ _ (wp_call forkret_addr trapret_addr k (t_k t) Hok He) Hrun).
    + intros j p Hp Ha. cbn [ss_t t_k t_ticks ss_call] in *.
      destruct (calm_call ticks_addr forkret_addr trapret_addr k Hk _ _ _ Hrun j p Hp Ha) as [?|(q & Hq & Haq)]; [done|].
      by apply (Hn j q).
Qed.

(** C17. [sleep(n)] lasts [n] ticks of the clock, neither more nor less. In every state
    that timer interrupts, sleeping processes and other calls of the process table can
    reach, a process asleep in [sys_sleep] has not yet slept for the time it asked for: a
    tick that makes the time up has woken it. And the call of a running process returns 0
    exactly when that many ticks have passed since it began, also when [ticks] wraps
    around. The counts are unsigned, so that a negative [n] is a very long time. *)
Theorem sleep_lasts_n_ticks s :
  reachable clock_init clock_step s ->
  not_overdue s /\
  forall c i t0 n r t', runs (t_k (ss_t s)) c i -> sleep_loop ticks_addr c t0 n (ss_t s) = Ret (r, t') ->
    r = SleepRet 0 <-> u32 n <= u32 (t_ticks (ss_t s) - t0).
Proof.
  intros Hs. destruct (clock_invariant s Hs) as [Hok Hn]. split; [done|]. intros c i t0 n r t' Hr Hrun.
  destruct (sleep_loop_inv _ _ _ _ _ _ _ Hok Hr Hrun) as (_ & _ & Hres). split; [intros ->; by destruct Hres|].
  intros Hle. unfold sleep_loop in Hrun. minv. rewrite (proj2 (Z.ltb_ge _ _)) in Hrun by done. by minv.
Qed.
End clock.

(** The child of init sleeps for three ticks, the first of which wraps [ticks] around. *)
Definition demo_awake : tst (list bool) := Tst demo3 (2 ^ 32 - 1) [].
Definition demo_t {A} (m : M (tst (list bool)) A) (t : tst (list bool)) : tst (list bool) :=
  match m t with Ret (_, t') => t' | _ => t end.
Definition demo_slept : tst (list bool) := demo_t (sys_sleep 0x8011 1 (Some 3)) demo_awake.
Definition demo_ticked : tst (list bool) := demo_t (tick 0x8011 0) demo_slept.

Lemma demo_awake_init : clock_init 0x8011 (Sst demo_awake ∅).
Proof.
  split; [apply (reachable_kernel_ok 100 200 [] demo3 demo3_reach)|].
  assert (forallb (fun p => negb (bool_decide (p_state p = SLEEPING))) (k_procs demo3) = true) as Hf by (vm_compute; reflexivity).
  unfold demo_awake. cbn [ss_t t_k]. revert Hf. generalize (k_procs demo3). intros ps Hf j p Hp [Hs _].
  rewrite forallb_forall in Hf. apply list_elem_of_lookup_2, list_elem_of_In in Hp.
  specialize (Hf p Hp). by rewrite bool_decide_true in Hf.
Qed.

Lemma demo_sleep_run : sys_sleep 0x8011 1 (Some 3) demo_awake = Ret (Asleep, demo_slept).
Proof. vm_compute. reflexivity. Qed.

Lemma demo_tick_run : tick 0x8011 0 demo_slept = Ret (tt, demo_ticked).
Proof. vm_compute. reflexivity. Qed.

Definition demo_calls : gmap nat (Z * Z) := <[1%nat := (t_ticks demo_awake, 3)]> ∅.

Lemma demo_ticked_reach : reachable (clock_init 0x8011) (clock_step 0x8011 100 200) (Sst demo_ticked demo_calls).
Proof.
  apply (reach_step _ _ (Sst demo_slept demo_calls)).
  - apply (reach_step _ _ (Sst demo_awake ∅)); [apply reach_init, demo_awake_init|].
    apply (Step_call 0x8011 100 200 demo_awake demo_slept ∅ 1 1 3 Asleep); [|exact demo_sleep_run].
    eexists. split; [vm_compute; reflexivity|done].
  - apply (Step_tick 0x8011 100 200 demo_slept); [vm_compute; lia|exact demo_tick_run].
Qed.

Lemma sleep_lasts_n_ticks_witness :
  (exists p, k_procs (t_k demo_slept) !! 1%nat = Some p /\ asleep_on 0x8011 p) /\
  t_ticks demo_ticked = 0 /\ not_overdue 0x8011 (Sst demo_ticked demo_calls).
Proof.
  split; [eexists; split; [vm_compute; reflexivity|by split]|]. split; [vm_compute; reflexivity|].
  exact (proj1 (sleep_lasts_n_ticks 0x8011 100 200 _ demo_ticked_reach)).
Defined.
