(* ===== verification/Tools.v ===== *)
(** User programs: wc.c, cat.c, calc.c and cal.c.

    The calls of [read] of a program bring the chunks of a list one after the other, and
    then the end of the file or an error. *)

From S2P Require Import Prelude.

(** What the calls of [read] on a descriptor return. *)
Record input := Input { in_chunks : list (list Z); in_error : bool }.

(** * wc *)

(** [strchr(" \r\t\n\v", c)] *)
Definition blank (c : Z) : bool := existsb (Z.eqb c) [32; 13; 9; 10; 11].

Record wcount := Wcount { wc_l : Z; wc_w : Z; wc_c : Z; wc_inword : bool }.

(** The body of the loop over the bytes of a buffer. *)
Definition wc_byte (s : wcount) (b : Z) : wcount :=
  let c := s32 (wc_c s + 1) in
  let l := if b =? 10 then s32 (wc_l s + 1) else wc_l s in
  if blank b then Wcount l (wc_w s) c false
  else if wc_inword s then Wcount l (wc_w s) c true
  else Wcount l (s32 (wc_w s + 1)) c true.

(** [wc(fd, name)]: lines, words and characters, or [None] for the read error. *)
Definition wc (fd : input) : option (Z * Z * Z) :=
  let s := foldl (foldl wc_byte) (Wcount 0 0 0 false) (in_chunks fd) in
  if in_error fd then None else Some (wc_l s, wc_w s, wc_c s).

(** * cat *)

Inductive cat_end := Cat_ok | Cat_write_error | Cat_read_error.

(** [cat(fd)]: what it writes, and how it ends; [write] gives the result of a call. *)
Fixpoint cat_loop (write : list Z -> Z) (chunks : list (list Z)) (err : bool) : list Z * cat_end :=
  match chunks with
  | [] => ([], if err then Cat_read_error else Cat_ok)
  | buf :: chunks =>
      if negb (write buf =? Z.of_nat (length buf)) then ([], Cat_write_error)
      else let '(out, e) := cat_loop write chunks err in (buf ++ out, e)
  end.

Definition cat (write : list Z -> Z) (fd : input) : list Z * cat_end :=
  cat_loop write (in_chunks fd) (in_error fd).

(** * calc *)

Inductive calc_res := Value (v : Z) | DivZero | Unknown (c : Z) | Trap.

Definition digit (c : Z) : bool := (48 <=? c) && (c <=? 57).

(** The loop over the digits of a number. *)
Fixpoint calc_num (num : Z) (str : list Z) : Z * list Z :=
  match str with
  | c :: rest => if digit c then calc_num (s32 (num * 10 + (c - 48))) rest else (num, str)
  | [] => (num, [])
  end.

(** The operator applied to the result so far; the division instruction traps when the
    quotient does not fit. *)
Definition calc_apply (op result num : Z) : calc_res :=
  if op =? 43 then Value (s32 (result + num))
  else if op =? 45 then Value (s32 (result - num))
  else if op =? 42 then Value (s32 (result * num))
  else if op =? 47 then
    if num =? 0 then DivZero
    else if (result =? - 2 ^ 31) && (num =? -1) then Trap
    else Value (Z.quot result num)
  else Value result.

Definition calc_op (c : Z) : bool := (c =? 43) || (c =? 45) || (c =? 42) || (c =? 47).

(** [calculate(str)], for the text of [str] without its terminating zero. *)
Fixpoint calculate_loop (fuel : nat) (str : list Z) (op result : Z) : option calc_res :=
  match str with
  | [] => Some (Value result)
  | c :: rest =>
      match fuel with
      | O => None
      | S fuel =>
          if (c =? 32) || (c =? 9) then calculate_loop fuel rest op result
          else if digit c then
            let '(num, rest) := calc_num 0 str in
            match calc_apply op result num with
            | Value result => calculate_loop fuel rest op result
            | r => Some r
            end
          else if calc_op c then calculate_loop fuel rest c result
          else Some (Unknown c)
      end
  end.

Definition calculate (str : list Z) : option calc_res := calculate_loop (length str) str 43 0.

(** * cal *)

Definition dow_table : list Z := [0; 3; 2; 5; 0; 3; 5; 1; 4; 6; 2; 4].

Definition dayofweek (d m y : Z) : Z :=
  let y := if m <? 3 then s32 (y - 1) else y in
  Z.rem (s32 (s32 (s32 (s32 (s32 (y + Z.quot y 4) - Z.quot y 100) + Z.quot y 400) +
           nth (Z.to_nat (m - 1)) dow_table 0) + d)) 7.

Definition is_leap_year (year : Z) : bool :=
  if Z.rem year 400 =? 0 then true
  else if Z.rem year 100 =? 0 then false
  else if Z.rem year 4 =? 0 then true
  else false.

Definition month_days : list Z := [31; 28; 31; 30; 31; 30; 31; 31; 30; 31; 30; 31].

Definition days_in_month (month year : Z) : Z :=
  if (month =? 2) && is_leap_year year then 29 else nth (Z.to_nat (month - 1)) month_days 0.

(** The cells of the calendar, each three characters wide, and the ends of lines. *)
Inductive cell := Space | Day (d : Z) | Newline.

(** The loop that prints the days, [n] of them from [day] on. *)
Fixpoint cal_days (n : nat) (day start_day : Z) : list cell :=
  match n with
  | O => []
  | S n => Day day :: (if Z.rem (day + start_day) 7 =? 0 then [Newline] else []) ++ cal_days n (day + 1) start_day
  end.

(** [main] after [atoi] of its arguments: the cells below the names of the days. *)
Definition cal (month year : Z) : option (list cell) :=
  if (month <? 1) || (12 <? month) || (year <? 1) then None
  else
    let start_day := dayofweek 1 month year in
    Some (replicate (Z.to_nat start_day) Space ++
          cal_days (Z.to_nat (days_in_month month year)) 1 start_day ++ [Newline; Newline]).
