(* ===== verification/ToolsThm.v ===== *)
(** Theorems about the user programs of Tools.v: wc counts whatever way the text arrives,
    calc evaluates from left to right, and cal puts every day under its weekday. *)

From S2P Require Import Prelude Tools.

(** * wc *)

(** The pieces of a text between blanks, and the words: the pieces that are not empty. *)
Fixpoint pieces (l : list Z) : list Z * list (list Z) :=
  match l with
  | [] => ([], [])
  | b :: l => let '(w, ws) := pieces l in if blank b then ([], w :: ws) else (b :: w, ws)
  end.

Definition nonempty (w : list Z) : bool := negb (bool_decide (w = [])).
Definition words (l : list Z) : list (list Z) :=
  let '(w, ws) := pieces l in List.filter nonempty (w :: ws).
Definition newlines (l : list Z) : nat := length (List.filter (Z.eqb 10) l).

(** The words that begin in the rest of a text, after a byte inside or outside a word. *)
Definition word_starts (inword : bool) (l : list Z) : nat :=
  let '(w, ws) := pieces l in
  ((if inword then 0 else if nonempty w then 1 else 0) + length (List.filter nonempty ws))%nat.

Lemma word_starts_cons inword b l :
  word_starts inword (b :: l) =
  if blank b then word_starts false l else ((if inword then 0 else 1) + word_starts true l)%nat.
Proof.
  unfold word_starts. cbn [pieces]. destruct (pieces l) as [w ws]. destruct (blank b).
  - cbn [List.filter]. destruct inword, (nonempty w); cbn; lia.
  - destruct inword; cbn; lia.
Qed.

Lemma word_starts_words l : word_starts false l = length (words l).
Proof.
  unfold word_starts, words. destruct (pieces l) as [w ws]. cbn [List.filter]. by destruct (nonempty w).
Qed.

Lemma wc_bytes text : forall l w c inword, 0 <= l <= c -> 0 <= w <= c -> c + Z.of_nat (length text) < 2 ^ 31 ->
  exists inword', foldl wc_byte (Wcount l w c inword) text =
    Wcount (l + Z.of_nat (newlines text)) (w + Z.of_nat (word_starts inword text)) (c + Z.of_nat (length text)) inword'.
Proof.
  unfold newlines. induction text as [|b text IH]; intros l w c inword Hl Hw Hc.
  { exists inword. cbn. unfold word_starts. cbn. destruct inword; cbn; by rewrite !Z.add_0_r. }
  cbn [length] in Hc. cbn [foldl]. rewrite word_starts_cons. unfold wc_byte at 2. cbn [wc_l wc_w wc_c wc_inword]. cbn zeta.
  rewrite !s32_small by lia. cbn [List.filter]. rewrite (Z.eqb_sym b 10).
  destruct (10 =? b), (blank b), inword;
    match goal with |- context [foldl wc_byte (Wcount ?l1 ?w1 ?c1 ?i1) text] =>
      destruct (IH l1 w1 c1 i1 ltac:(lia) ltac:(lia) ltac:(lia)) as [i' ->]; exists i' end;
    cbn [length]; f_equal; lia.
Qed.

Lemma foldl_concat {A B} (f : A -> B -> A) ls : forall a, foldl (foldl f) a ls = foldl f a (concat ls).
Proof. induction ls as [|l ls IH]; intros a; [done|]. cbn [foldl concat]. by rewrite foldl_app, IH. Qed.

(** [wc] counts the lines, the words and the bytes of a file, in whatever pieces the
    calls of [read] bring it; a word may be cut between two reads. *)
Theorem wc_counts text chunks :
  concat chunks = text -> Z.of_nat (length text) < 2 ^ 31 ->
  wc (Input chunks false) =
    Some (Z.of_nat (newlines text), Z.of_nat (length (words text)), Z.of_nat (length text)).
Proof.
  intros <- Hl. unfold wc. cbn [in_chunks in_error]. rewrite foldl_concat.
  destruct (wc_bytes (concat chunks) 0 0 0 false) as [i ->]; [lia..|]. cbn. by rewrite word_starts_words.
Qed.

Lemma wc_counts_witness :
  wc (Input [[104; 105; 32; 116]; [111; 10; 10]; [120]] false) = Some (2, 3, 8).
Proof. exact (wc_counts [104; 105; 32; 116; 111; 10; 10; 120] [[104; 105; 32; 116]; [111; 10; 10]; [120]] eq_refl eq_refl). Defined.

(** [cat] copies its input to its output. *)
Lemma cat_copies write fd : (forall buf, write buf = Z.of_nat (length buf)) -> in_error fd = false ->
  cat write fd = (concat (in_chunks fd), Cat_ok).
Proof.
  intros Hw He. unfold cat. rewrite He. induction (in_chunks fd) as [|buf chunks IH]; [done|].
  cbn [cat_loop concat]. by rewrite Hw, Z.eqb_refl, IH.
Qed.

(** * calc *)

(** The value of a string of digits, as the program computes it. *)
Definition number (ds : list Z) : Z := foldl (fun v c => s32 (v * 10 + (c - 48))) 0 ds.

Definition is_blank (c : Z) : bool := (c =? 32) || (c =? 9).
Definition blanks (b : list Z) : Prop := Forall (fun c => is_blank c = true) b.
Definition digits (ds : list Z) : Prop := ds <> [] /\ Forall (fun c => digit c = true) ds.

(** An operator and its operand, with the blanks around the operand. *)
Record term := Term { te_op : Z; te_before : list Z; te_digits : list Z; te_after : list Z }.
Definition term_ok (t : term) : Prop :=
  calc_op (te_op t) = true /\ blanks (te_before t) /\ digits (te_digits t) /\ blanks (te_after t).
Definition term_text (t : term) : list Z := te_op t :: te_before t ++ te_digits t ++ te_after t.

(** Evaluation from left to right, up to the first error. *)
Fixpoint eval_terms (v : Z) (ts : list term) : calc_res :=
  match ts with
  | [] => Value v
  | t :: ts => match calc_apply (te_op t) v (number (te_digits t)) with Value v => eval_terms v ts | r => r end
  end.

Lemma calc_num_run ds : forall v rest, Forall (fun c => digit c = true) ds ->
  match rest with c :: _ => digit c = false | [] => True end ->
  calc_num v (ds ++ rest) = (foldl (fun v c => s32 (v * 10 + (c - 48))) v ds, rest).
Proof.
  induction ds as [|c ds IH]; intros v rest Hd Hr; cbn [app foldl].
  - destruct rest as [|c rest]; [done|]. cbn [calc_num]. by rewrite Hr.
  - apply Forall_cons in Hd as [Hc Hd]. cbn [calc_num]. rewrite Hc. by apply IH.
Qed.

Lemma digit_not_blank c : digit c = true -> (c =? 32) || (c =? 9) = false.
Proof. unfold digit. intros [H1 H2]%andb_prop. apply Z.leb_le in H1, H2. by rewrite !(proj2 (Z.eqb_neq _ _)) by lia. Qed.

Lemma blank_not_digit c : is_blank c = true -> digit c = false.
Proof. unfold is_blank. intros [->%Z.eqb_eq| ->%Z.eqb_eq]%orb_prop; done. Qed.

Lemma op_not_digit c : calc_op c = true -> digit c = false /\ (c =? 32) || (c =? 9) = false.
Proof.
  unfold calc_op. intros [[[->%Z.eqb_eq| ->%Z.eqb_eq]%orb_prop| ->%Z.eqb_eq]%orb_prop| ->%Z.eqb_eq]%orb_prop; done.
Qed.

Section calc.
(** The rest of the text gives [res] from the operator [op] and the value [v]. *)
Definition goes (str : list Z) (op v : Z) (res : calc_res) : Prop :=
  forall fuel, (length str <= fuel)%nat -> calculate_loop fuel str op v = Some res.

Lemma goes_blanks b str op v res : blanks b -> goes str op v res -> goes (b ++ str) op v res.
Proof.
  intros Hb Hs. induction Hb as [|c b Hc Hb IH]; [done|]. intros [|fuel] Hf; cbn [app length] in Hf; [lia|].
  cbn [app calculate_loop]. unfold is_blank in Hc. rewrite Hc. apply IH. lia.
Qed.

Lemma goes_number ds str op v res : digits ds -> match str with c :: _ => digit c = false | [] => True end ->
  match calc_apply op v (number ds) with Value v => goes str op v res | r => res = r end -> goes (ds ++ str) op v res.
Proof.
  intros [Hne Hd] Hs Hv. destruct ds as [|c ds]; [done|]. intros [|fuel] Hf; cbn [app length] in Hf; [lia|].
  change ((c :: ds) ++ str) with (c :: (ds ++ str)). cbn [calculate_loop].
  pose proof (Forall_inv Hd) as Hc. cbn beta in Hc. rewrite digit_not_blank, Hc by done.
  change (c :: (ds ++ str)) with ((c :: ds) ++ str). rewrite (calc_num_run _ _ _ Hd Hs). fold (number (c :: ds)).
  destruct (calc_apply op v (number (c :: ds))); [|by subst..]. apply Hv. rewrite length_app in Hf. lia.
Qed.

Lemma goes_terms ts : forall op v, Forall term_ok ts -> goes (concat (term_text <$> ts)) op v (eval_terms v ts).
Proof.
  induction ts as [|t ts IH]; intros op v Hok; [by intros [] _|]. apply Forall_cons in Hok as [(Ho & Hb & Hd & Ha) Hok].
  cbn [fmap list_fmap concat eval_terms]. unfold term_text at 1. intros [|fuel] Hf; [cbn in Hf; lia|].
  cbn [app calculate_loop]. destruct (op_not_digit _ Ho) as [-> ->]. rewrite Ho. cbn [app length] in Hf.
  revert Hf. rewrite <- !app_assoc. intros Hf. apply goes_blanks; [done| |lia].
  assert (match concat (term_text <$> ts) with c :: _ => digit c = false | [] => True end) as Hhd.
  { destruct ts as [|t' ts]; [done|]. cbn. apply Forall_cons in Hok as [(Ho' & _) _]. by apply op_not_digit. }
  apply goes_number; [done| |].
  - destruct (te_after t) as [|c b]; [done|]. apply Forall_cons in Ha as [Hc _]. by apply blank_not_digit.
  - destruct (calc_apply _ _ _); try done. apply goes_blanks; [done|]. by apply IH.
Qed.
End calc.

(** [calculate] terminates on every expression, a number followed by operators and
    numbers with any blanks, and evaluates it strictly from left to right with 32-bit
    arithmetic, stopping at a division by zero; there is no precedence of operators. *)
Theorem calc_left_to_right before ds after ts :
  blanks before -> digits ds -> blanks after -> Forall term_ok ts ->
  calculate (before ++ ds ++ after ++ concat (term_text <$> ts)) = Some (eval_terms (s32 (number ds)) ts).
Proof.
  intros Hb Hd Ha Hts. apply goes_blanks; [done| |lia]. apply goes_number; [done| |].
  - destruct after as [|c b]; [|apply Forall_cons in Ha as [Hc _]; by apply blank_not_digit].
    destruct ts as [|t ts]; [done|]. cbn. apply Forall_cons in Hts as [(Ho & _) _]. by apply op_not_digit.
  - cbn [calc_apply Z.eqb Pos.eqb]. rewrite Z.add_0_l. apply goes_blanks; [done|]. by apply goes_terms.
Qed.

(** [2+3 * 4] is 20. *)
Lemma calc_left_to_right_witness : calculate [50; 43; 51; 32; 42; 32; 52] = Some (Value 20).
Proof.
  refine (calc_left_to_right [] [50] [] [Term 43 [] [51] [32]; Term 42 [32] [52] []] _ _ _ _);
    repeat constructor; done.
Defined.

(** * cal *)

(** The Gregorian calendar: leap years, months, and the number of a day, counted from the
    first of January of the year 1, which was a Monday. *)
Definition leap (y : Z) : bool := (y mod 4 =? 0) && (negb (y mod 100 =? 0) || (y mod 400 =? 0)).
Definition month_length (m y : Z) : Z :=
  if m =? 2 then (if leap y then 29 else 28) else if existsb (Z.eqb m) [4; 6; 9; 11] then 30 else 31.
Fixpoint leaps (n : nat) : Z :=
  match n with O => 0 | S n => leaps n + (if leap (Z.of_nat (S n)) then 1 else 0) end.
Definition day_number (d m y : Z) : Z :=
  365 * (y - 1) + leaps (Z.to_nat (y - 1)) + foldr Z.add 0 ((fun k => month_length k y) <$> seqZ 1 (m - 1)) + d.
Definition weekday (d m y : Z) : Z := day_number d m y mod 7.

Lemma leap_mod y : is_leap_year y = leap y.
Proof.
  unfold is_leap_year, leap.
  assert (forall k, 0 < k -> (Z.rem y k =? 0) = (y mod k =? 0)) as Hk.
  { intros k Hk. apply eq_true_iff_eq. rewrite !Z.eqb_eq. rewrite Z.rem_divide, Z.mod_divide by lia. done. }
  rewrite !Hk by lia.
  destruct (Z.eqb_spec (y mod 400) 0), (Z.eqb_spec (y mod 100) 0), (Z.eqb_spec (y mod 4) 0); try done;
    exfalso; Z.to_euclidean_division_equations; lia.
Qed.

Lemma leaps_closed n : leaps n = Z.of_nat n / 4 - Z.of_nat n / 100 + Z.of_nat n / 400.
Proof.
  induction n as [|n IH]; [done|]. cbn [leaps]. rewrite IH. unfold leap.
  set (y := Z.of_nat (S n)). replace (Z.of_nat n) with (y - 1) by lia. assert (0 < y) by lia. clearbody y. clear IH.
  destruct (Z.eqb_spec (y mod 400) 0), (Z.eqb_spec (y mod 100) 0), (Z.eqb_spec (y mod 4) 0); cbn [negb orb andb];
    Z.to_euclidean_division_equations; lia.
Qed.

Lemma leaps_step y : 1 <= y -> leaps (Z.to_nat y) = leaps (Z.to_nat (y - 1)) + (if leap y then 1 else 0).
Proof.
  intros Hy. replace (Z.to_nat y) with (S (Z.to_nat (y - 1))) by lia. cbn [leaps].
  by replace (Z.of_nat (S (Z.to_nat (y - 1)))) with y by lia.
Qed.

Lemma all_months (P : Z -> Prop) : P 1 -> P 2 -> P 3 -> P 4 -> P 5 -> P 6 -> P 7 -> P 8 -> P 9 -> P 10 -> P 11 -> P 12 ->
  forall m, 1 <= m <= 12 -> P m.
Proof.
  intros. assert (m ∈ seqZ 1 12) as Hin by (apply elem_of_seqZ; lia).
  repeat (apply elem_of_cons in Hin as [->|Hin]; [done|]). by apply elem_of_nil in Hin.
Qed.

Lemma days_in_month_length m y : 1 <= m <= 12 -> days_in_month m y = month_length m y.
Proof.
  intros Hm. unfold days_in_month, month_length. rewrite leap_mod.
  revert m Hm. apply all_months; by destruct (leap y).
Qed.

(** The table of the program is the days before a month, modulo 7. *)
Lemma month_offset m y : 1 <= m <= 12 -> exists k, foldr Z.add 0 ((fun k => month_length k y) <$> seqZ 1 (m - 1)) =
  nth (Z.to_nat (m - 1)) dow_table 0 + (if 3 <=? m then 365 else 0) + 7 * k + (if (3 <=? m) && leap y then 1 else 0).
Proof.
  intros Hm. set (a := foldr _ _ _). set (b := nth _ _ _ + _). set (e := if _ && _ then _ else _).
  exists ((a - b - e) / 7). assert ((a - b - e) mod 7 = 0) as H7; [|pose proof (Z.div_mod (a - b - e) 7); lia].
  unfold a, b, e, month_length. generalize (leap y). intros l. clear a b e. revert m Hm.
  apply all_months; destruct l; vm_compute; reflexivity.
Qed.

(** The formula of the program gives the weekday. *)
Lemma dayofweek_weekday d m y : 1 <= m <= 12 -> 1 <= d <= 31 -> 1 <= y < 2 ^ 30 -> dayofweek d m y = weekday d m y.
Proof.
  intros Hm Hd Hy. unfold dayofweek, weekday, day_number.
  assert (0 <= nth (Z.to_nat (m - 1)) dow_table 0 <= 6) as Ht.
  { revert m Hm. apply all_months; by vm_compute. }
  set (y' := if m <? 3 then s32 (y - 1) else y).
  assert (y' = if m <? 3 then y - 1 else y) as Hy' by (unfold y'; rewrite s32_small by lia; done). clearbody y'.
  assert (0 <= y' < 2 ^ 30) as Hr by (rewrite Hy'; destruct (m <? 3); lia).
  pose proof (leaps_closed (Z.to_nat y')) as Hl. rewrite Z2Nat.id in Hl by lia.
  rewrite !Z.quot_div_nonneg by lia.
  assert (0 <= y' / 4 /\ 2 * (y' / 4) <= y') by (clear - Hr; Z.to_euclidean_division_equations; lia).
  assert (0 <= y' / 100 <= y' / 4) by (clear - Hr; Z.to_euclidean_division_equations; lia).
  assert (0 <= y' / 400 <= y' / 100) by (clear - Hr; Z.to_euclidean_division_equations; lia).
  rewrite (s32_small (y' + y' / 4)), (s32_small (_ - y' / 100)), (s32_small (_ + y' / 400)), (s32_small (_ + nth _ _ _)),
    (s32_small (_ + d)) by lia. rewrite Z.rem_mod_nonneg by lia.
  replace (y' + y' / 4 - y' / 100 + y' / 400) with (y' + leaps (Z.to_nat y')) by lia. clear Hl.
  pose proof (leaps_step y ltac:(lia)) as Hs. rewrite Hy'. clear - Hm Hd Hy Hs.
  pose proof (month_offset m y Hm) as (k & ->). clear Hm. revert Hs.
  set (t := nth (Z.to_nat (m - 1)) dow_table 0). clearbody t. destruct (Z.ltb_spec m 3) as [H3|H3].
  - intros _. rewrite (proj2 (Z.leb_gt _ _)) by lia. cbn [andb]. generalize (leaps (Z.to_nat (y - 1))). intros L.
    Z.to_euclidean_division_equations. lia.
  - intros ->. rewrite (proj2 (Z.leb_le _ _)) by lia. cbn [andb]. generalize (leaps (Z.to_nat (y - 1))). intros L.
    destruct (leap y); Z.to_euclidean_division_equations; lia.
Qed.

Lemma weekday_add d k m y : weekday (d + k) m y = (weekday d m y + k) mod 7.
Proof. unfold weekday, day_number. rewrite Z.add_assoc. by rewrite Zplus_mod_idemp_l. Qed.

(** The column after a cell, and the column of a cell that is printed after the cells [l]. *)
Definition advance (c : Z) (x : cell) : Z := if x is Newline then 0 else c + 1.
Definition column (l : list cell) : Z := foldl advance 0 l.

(** The days of a list of cells. *)
Definition days_of (l : list cell) : list Z := omap (fun x => if x is Day d then Some d else None) l.

Lemma cal_days_columns n : forall day start k d, 0 <= start -> 1 <= day ->
  cal_days n day start !! k = Some (Day d) ->
  day <= d /\ foldl advance ((day - 1 + start) mod 7) (take k (cal_days n day start)) = (d - 1 + start) mod 7.
Proof.
  induction n as [|n IH]; intros day start k d Hs Hd Hk; [done|]. cbn [cal_days] in *.
  destruct k as [|k]; cbn [lookup list_lookup take foldl advance] in *.
  { simplify_eq. split; [lia|done]. }
  rewrite Z.rem_mod_nonneg in * by lia.
  assert ((day + start) mod 7 = if (day + start) mod 7 =? 0 then 0 else (day - 1 + start) mod 7 + 1) as Hc.
  { destruct (Z.eqb_spec ((day + start) mod 7) 0); Z.to_euclidean_division_equations; lia. }
  specialize (IH (day + 1) start). replace (day + 1 - 1 + start) with (day + start) in IH by lia. rewrite Hc in IH.
  destruct ((day + start) mod 7 =? 0); cbn [app] in *.
  - destruct k as [|k]; [done|]. cbn [lookup list_lookup take foldl advance] in *.
    destruct (IH k d Hs ltac:(lia) Hk) as [? ->]. split; [lia|done].
  - destruct (IH k d Hs ltac:(lia) Hk) as [? ->]. split; [lia|done].
Qed.

Lemma cal_days_days n : forall day start, days_of (cal_days n day start) = seqZ day (Z.of_nat n).
Proof.
  unfold days_of. induction n as [|n IH]; intros day start; [done|]. cbn [cal_days omap list_omap].
  rewrite seqZ_cons by lia. replace (Z.pred (Z.of_nat (S n))) with (Z.of_nat n) by lia. rewrite <- Z.add_1_r, <- (IH _ start).
  by destruct (Z.rem (day + start) 7 =? 0).
Qed.

Lemma column_spaces n : column (replicate n Space) = Z.of_nat n.
Proof.
  unfold column. cut (forall c, foldl advance c (replicate n Space) = c + Z.of_nat n).
  { intros H. apply (H 0). }
  induction n as [|n IH]; intros c; cbn [replicate foldl advance]; [lia|]. rewrite IH. lia.
Qed.

(** [cal] prints the Gregorian calendar: for every month of every year up to 2^30 it
    prints exactly the days of the month, in order, and every day in the column of its
    weekday, by a count of the days since the year 1 that knows the leap years. *)
Theorem cal_days_under_weekdays month year :
  1 <= month <= 12 -> 1 <= year < 2 ^ 30 ->
  exists cells, cal month year = Some cells /\
    days_of cells = seqZ 1 (month_length month year) /\
    forall k d, cells !! k = Some (Day d) -> column (take k cells) = weekday d month year.
Proof.
  intros Hm Hy. unfold cal. rewrite (proj2 (Z.ltb_ge month 1)), (proj2 (Z.ltb_ge 12 month)), (proj2 (Z.ltb_ge year 1)) by lia.
  cbn [orb]. rewrite dayofweek_weekday, days_in_month_length by lia. set (start := weekday 1 month year).
  assert (0 <= start < 7) as Hs by by apply Z.mod_pos_bound.
  assert (0 <= month_length month year) as Hl by (unfold month_length; repeat case_match; lia).
  eexists. split; [reflexivity|]. split.
  - unfold days_of. rewrite !omap_app. fold (days_of (cal_days (Z.to_nat (month_length month year)) 1 start)).
    rewrite cal_days_days, Z2Nat.id by done. cbn. rewrite app_nil_r.
    replace (omap _ (replicate _ _)) with (@nil Z); [done|]. generalize (Z.to_nat start). intros n. by induction n.
  - intros k d [Hk|[Hlen Hk]]%lookup_app_Some; [by apply lookup_replicate in Hk as [[=] _]|].
    rewrite length_replicate in *. apply lookup_app_Some in Hk as [Hk|[_ Hk]].
    2: { apply list_elem_of_lookup_2 in Hk. repeat (apply elem_of_cons in Hk as [[=]|Hk]). by apply elem_of_nil in Hk. }
    rewrite take_app_ge, length_replicate by (rewrite length_replicate; lia).
    rewrite take_app_le by (apply lookup_lt_Some in Hk; lia).
    unfold column. rewrite foldl_app. fold (column (replicate (Z.to_nat start) Space)). rewrite column_spaces, Z2Nat.id by lia.
    destruct (cal_days_columns _ 1 start _ d ltac:(lia) ltac:(lia) Hk) as [Hd Hcol].
    replace (1 - 1 + start) with start in Hcol by lia. rewrite (Z.mod_small start) in Hcol by lia. rewrite Hcol.
    replace d with (1 + (d - 1)) at 2 by lia. rewrite weekday_add. fold start. f_equal. lia.
Qed.

Lemma cal_days_under_weekdays_witness :
  exists cells, cal 2 2024 = Some cells /\ days_of cells = seqZ 1 29 /\
    forall k d, cells !! k = Some (Day d) -> column (take k cells) = weekday d 2 2024.
Proof. apply (cal_days_under_weekdays 2 2024); lia. Defined.
