(* ===== verification/Rtc.v ===== *)
(** The real-time clock of [lapic.c]: [cmos_read], [fill_rtcdate] and [cmostime].

    The clock runs while it is read: the state is the number of reads so far, and the
    registers are a function of it. *)

From S2P Require Import Prelude.

Definition CMOS_STATA : Z := 0x0a.
Definition CMOS_STATB : Z := 0x0b.
Definition CMOS_UIP : Z := Z.shiftl 1 7.
Definition SECS : Z := 0x00.
Definition MINS : Z := 0x02.
Definition HOURS : Z := 0x04.
Definition DAY : Z := 0x07.
Definition MONTH : Z := 0x08.
Definition YEAR : Z := 0x09.

Record rtcdate := Rtcdate { r_second : Z; r_minute : Z; r_hour : Z; r_day : Z; r_month : Z; r_year : Z }.

#[export] Instance rtcdate_eq_dec : EqDecision rtcdate.
Proof. solve_decision. Defined.

Section rtc.
(** The value of a register at a read. *)
Context (reg : nat -> Z -> Z).
Local Abbreviation R := (M nat).

Definition cmos_read (r : Z) : R Z := fun n => Ret (reg n r, S n).

Definition fill_rtcdate : R rtcdate :=
  let* second := cmos_read SECS in
  let* minute := cmos_read MINS in
  let* hour := cmos_read HOURS in
  let* day := cmos_read DAY in
  let* month := cmos_read MONTH in
  let* year := cmos_read YEAR in
  ret (Rtcdate second minute hour day month year).

(** The loop that reads the date until it is the same twice, outside an update. *)
Fixpoint read_loop (fuel : nat) : R rtcdate :=
  match fuel with
  | O => fun _ => NoFuel
  | S fuel =>
      let* t1 := fill_rtcdate in
      let* a := cmos_read CMOS_STATA in
      if negb (Z.land a CMOS_UIP =? 0) then read_loop fuel
      else
        let* t2 := fill_rtcdate in
        if bool_decide (t1 = t2) then ret t1 else read_loop fuel
  end.

Definition conv (x : Z) : Z := u32 (Z.shiftr x 4 * 10 + Z.land x 0xf).

Definition cmostime (fuel : nat) : R rtcdate :=
  let* sb := cmos_read CMOS_STATB in
  let bcd := Z.land sb (Z.shiftl 1 2) =? 0 in
  let* t1 := read_loop fuel in
  let t1 := if bcd then Rtcdate (conv (r_second t1)) (conv (r_minute t1)) (conv (r_hour t1))
                          (conv (r_day t1)) (conv (r_month t1)) (conv (r_year t1))
            else t1 in
  ret (Rtcdate (r_second t1) (r_minute t1) (r_hour t1) (r_day t1) (r_month t1) (u32 (r_year t1 + 2000))).
End rtc.

(** * A clock *)

(** The digits of a number below 100, four bits each. *)
Definition bcd (x : Z) : Z := x / 10 * 16 + x mod 10.

Definition map_date (f : Z -> Z) (t : rtcdate) : rtcdate :=
  Rtcdate (f (r_second t)) (f (r_minute t)) (f (r_hour t)) (f (r_day t)) (f (r_month t)) (f (r_year t)).
Definition date_ok (t : rtcdate) : Prop :=
  Forall (fun x => 0 <= x < 100) [r_second t; r_minute t; r_hour t; r_day t; r_month t; r_year t].
Definition add_century (t : rtcdate) : rtcdate :=
  Rtcdate (r_second t) (r_minute t) (r_hour t) (r_day t) (r_month t) (r_year t + 2000).

(** The registers of a clock that shows [date n] at read [n], in decimal digits when
    [digits] holds, with [status n] in its first status register. *)
Definition clock_reg (digits : bool) (date : nat -> rtcdate) (status : nat -> Z) (n : nat) (r : Z) : Z :=
  let t := if digits then map_date bcd (date n) else date n in
  if r =? SECS then r_second t else if r =? MINS then r_minute t else if r =? HOURS then r_hour t
  else if r =? DAY then r_day t else if r =? MONTH then r_month t else if r =? YEAR then r_year t
  else if r =? CMOS_STATA then status n
  else if r =? CMOS_STATB then (if digits then 0 else 4) else 0.

(** In the time of one turn of the loop, thirteen reads, the date changes once at most. *)
Definition slow (date : nat -> rtcdate) : Prop := forall a, exists p, forall k, (a <= k <= a + 12)%nat ->
  date k = if (k <? p)%nat then date a else date (a + 12)%nat.

Section clock.
Context (digits : bool) (date : nat -> rtcdate) (status : nat -> Z).
Local Abbreviation reg := (clock_reg digits date status).

Definition shown (n : nat) : rtcdate := if digits then map_date bcd (date n) else date n.

Lemma fill_run n : fill_rtcdate reg n =
  Ret (Rtcdate (r_second (shown n)) (r_minute (shown (n + 1)%nat)) (r_hour (shown (n + 2)%nat)) (r_day (shown (n + 3)%nat))
         (r_month (shown (n + 4)%nat)) (r_year (shown (n + 5)%nat)), (n + 6)%nat).
Proof.
  unfold fill_rtcdate, cmos_read, bind, ret.
  replace (n + 1)%nat with (S n) by lia. replace (n + 2)%nat with (S (S n)) by lia.
  replace (n + 3)%nat with (S (S (S n))) by lia. replace (n + 4)%nat with (S (S (S (S n)))) by lia.
  replace (n + 5)%nat with (S (S (S (S (S n))))) by lia. replace (n + 6)%nat with (S (S (S (S (S (S n)))))) by lia. done.
Qed.

(** Two equal readings are a date that the clock showed. *)
Lemma equal_readings n : slow date ->
  fst <$> (match fill_rtcdate reg n with Ret x => Some x | _ => None end) =
  fst <$> (match fill_rtcdate reg (n + 7)%nat with Ret x => Some x | _ => None end) ->
  exists k, (n <= k <= n + 12)%nat /\ match fill_rtcdate reg n with Ret x => fst x = shown k | _ => False end.
Proof.
  intros Hs. rewrite !fill_run. cbn [fmap option_fmap option_map fst]. intros [= H0 H1 H2 H3 H4 H5].
  destruct (Hs n) as [p Hp].
  assert (forall k, (n <= k <= n + 12)%nat -> shown k = if (k <? p)%nat then shown n else shown (n + 12)%nat) as Hk.
  { intros k Hk. unfold shown. rewrite (Hp k Hk). by destruct digits, (k <? p)%nat. }
  replace (n + 7 + 1)%nat with (n + 8)%nat in * by lia. replace (n + 7 + 2)%nat with (n + 9)%nat in * by lia.
  replace (n + 7 + 3)%nat with (n + 10)%nat in * by lia. replace (n + 7 + 4)%nat with (n + 11)%nat in * by lia.
  replace (n + 7 + 5)%nat with (n + 12)%nat in * by lia.
  destruct (decide (p <= n + 6)%nat) as [Hle|Hgt].
  - exists (n + 12)%nat. split; [lia|]. rewrite H0, H1, H2, H3, H4, H5.
    rewrite (Hk (n + 7)%nat), (Hk (n + 8)%nat), (Hk (n + 9)%nat), (Hk (n + 10)%nat), (Hk (n + 11)%nat) by lia.
    rewrite !(proj2 (Nat.ltb_ge _ _)) by lia. by destruct (shown (n + 12)%nat).
  - exists n. split; [lia|].
    rewrite (Hk (n + 1)%nat), (Hk (n + 2)%nat), (Hk (n + 3)%nat), (Hk (n + 4)%nat), (Hk (n + 5)%nat) by lia.
    rewrite !(proj2 (Nat.ltb_lt _ _)) by lia. by destruct (shown n).
Qed.

Lemma read_loop_shown fuel : forall n t n', slow date -> read_loop reg fuel n = Ret (t, n') ->
  exists k, (n <= k <= n')%nat /\ t = shown k.
Proof.
  induction fuel as [|fuel IH]; intros n t n' Hs H; [done|]. cbn [read_loop] in H.
  pose proof (equal_readings n Hs) as He. rewrite fill_run in He. unfold bind at 1 in H. rewrite fill_run in H.
  unfold bind at 1, cmos_read in H. replace (S (n + 6)) with (n + 7)%nat in H by lia.
  destruct (negb _).
  { destruct (IH _ _ _ Hs H) as (k & ? & ?). exists k. split; [lia|done]. }
  unfold bind in H. rewrite fill_run in H, He. case_bool_decide as Heq.
  - unfold ret in H. injection H as <- <-. destruct He as (k & Hk & Hsh); [cbn; by f_equal|]. exists k. split; [lia|exact Hsh].
  - destruct (IH _ _ _ Hs H) as (k & ? & ?). exists k. split; [lia|done].
Qed.

(** A turn of the loop outside updates in which the date stays the same is the last. *)
Lemma read_loop_ends fuel n : Z.land (status (n + 6)%nat) CMOS_UIP = 0 -> (forall k, (n <= k <= n + 12)%nat -> date k = date n) ->
  read_loop reg (S fuel) n = Ret (shown n, (n + 13)%nat).
Proof.
  intros Hu Hd. cbn [read_loop]. unfold bind at 1. rewrite fill_run. unfold bind at 1, cmos_read.
  change (clock_reg digits date status (n + 6)%nat CMOS_STATA) with (status (n + 6)%nat). rewrite Hu. cbn [Z.eqb negb].
  replace (S (n + 6)) with (n + 7)%nat by lia. unfold bind. rewrite fill_run.
  assert (forall k, (k <= 12)%nat -> shown (n + k)%nat = shown n) as Hk by (intros k Hk; unfold shown; by rewrite Hd by lia).
  rewrite <- !Nat.add_assoc. rewrite !Hk by lia. rewrite bool_decide_true by done. unfold ret. repeat f_equal. by destruct (shown n).
Qed.

Lemma conv_bcd x : 0 <= x < 100 -> conv (bcd x) = x.
Proof.
  intros Hx. unfold conv, bcd. change 0xf with (Z.ones 4). rewrite Z.land_ones, Z.shiftr_div_pow2 by lia.
  change (2 ^ 4) with 16. assert (0 <= x mod 10 < 10) by (apply Z.mod_pos_bound; lia).
  rewrite Z.div_add_l, (Z.div_small (x mod 10)) by lia. rewrite Z.add_comm, (Z.add_comm _ (x mod 10)), Z.mod_add, Z.mod_small by lia.
  rewrite u32_small; pose proof (Z.div_mod x 10); lia.
Qed.

Lemma cmostime_run fuel n : cmostime reg fuel n =
  (let* t1 := read_loop reg fuel in
   let u := if digits then map_date conv t1 else t1 in
   ret (Rtcdate (r_second u) (r_minute u) (r_hour u) (r_day u) (r_month u) (u32 (r_year u + 2000)))) (S n).
Proof. unfold cmostime. unfold bind at 1, cmos_read at 1. by destruct digits. Qed.

End clock.

(** A clock in decimal digits that goes from 23:59:59 to the next day at its fifth read. *)
Definition demo_date (n : nat) : rtcdate :=
  if (n <? 5)%nat then Rtcdate 59 59 23 31 12 25 else Rtcdate 0 0 0 1 1 26.

